(* ===== verification/_CoqProject ===== *)
-Q . S2P
Prelude.v
Mem.v
RingBuffer.v
Queue.v
Config.v
Frame.v
FrameSpec.v
FrameInterface.v
Paging.v
PagingSpec.v
AddressSpace.v
Heap.v
HeapSpec.v
KernelStack.v
Context.v
Sched.v
SchedSpec.v
StackInterface.v
Sync.v
SyncSpec.v
SystemSpec.v
Locks.v
Guard.v
Device.v
Keyboard.v
IoApic.v
Pit.v
LocalApic.v
Legacy.v
Ps2.v
Epilogues.v
Idle.v
Output.v
Format.v
Serial.v
Console.v
Screen.v
Layout.v
User.v
Termination.v
UserSpec.v
LoaderSpec.v
StackMemory.v
MemoryBoot.v
Syscall.v
Entry.v
SyscallSpec.v
UserLib.v
Traps.v
TrapsSpec.v
Smp.v
Boot.v
BootSpec.v
Report.v
Acpi.v
Apic.v
Cores.v
TopologySpec.v
LongMode.v
Startup.v
CoreInit.v
Processor.v
Launch.v
Runtime.v
Hello.v
Selftest.v
