(* ===== verification/Prelude.v ===== *)
(** * x64HK: a verification library for the kernel

    x64HK is a small SMP kernel for x86-64.  The boot loader hands over the memory map and
    the program image; the kernel sets up a frame allocator, page tables, a heap and stacks
    behind guard pages; every core runs threads from one ready queue; interrupts are split
    into prologues and epilogues which a system-wide guard serialises with the threads; a
    user program is loaded from an ELF image into ring 3 and talks to the kernel with four
    system calls.  The development translates these parts into functions on explicit states
    and proves what they promise.  Paths below are relative to src/; unless a directory is
    given in full it is under Kernel/.

    ** Conventions

    - A w-bit integer is a [Z] with the wrap written out ([u8], [u32], [u64], [+64], ...);
      [is_word w x] says that a value is representable.  Two's complement readings are
      explicit.
    - An operation answers an [outcome]: [Ok], [Panic] or [AssertFailed] with the code's
      message (both halt the machine), [Fault] for an access outside an array, or [Diverges]
      when a loop exceeds its fuel.  The class [Build] tells a debug build, where ASSERT
      checks, from a release build, where it does not; theorems are about both unless they
      name one.
    - Memory is a total function from addresses to bytes (Mem.v), so page tables, heap headers,
      stacks, the boot loader's blocks and firmware tables are bytes laid out as the structs of
      the source say.
    - A critical section (a spin lock with interrupts off, or the guard) makes an operation
      one step; the locks and the guard themselves are modelled by interleaving single atomic
      accesses, with interrupts in between.
    - Hardware is a parameter: the class [Hardware] gives reads and writes of ports and
      memory mapped registers on an arbitrary device state; where a driver relies on what a
      chip does, a class states the data sheet's behaviour ([IoApicDevice], [Crtc],
      [Controller], [Uart]) and a concrete instance shows it can be met.

    ** Foundations

    Prelude.v: words, the result monad, ASSERT, tactics, hints and shared lemmas.
    Mem.v: byte memory, and Lib/String.cpp ([CString]): [memmove] is right for every overlap.
    Config.v: Types.h, Config.h, Lib/Math.h, and the class [BootInfo], the boot information as
    lists.
    Runtime.v: Compiler/Libc.cpp and Libcxx.cpp, Lib/PerCore.h, Debug/NullStream.h and the
    iterator of Lib/Queue.h; [new] and [delete] leave the heap as it was.
    RingBuffer.v: Lib/RingBuffer.h; it refines a bounded FIFO and is safe for one producer and
    one consumer at every interleaving of their loads and stores.
    Queue.v: Lib/Queue.h, the intrusive queue over a link store all queues share; it refines
    lists.

    ** Memory

    Frame.v, FrameSpec.v: Memory/Frame.cpp.  The bitmap against the set of free frames:
    initialisation from the loader's map is exact, [Allocate] refines its specification, live
    runs stay disjoint, a double free is detected in debug builds.
    FrameInterface.v: the class [FrameAllocator] with its laws, which page tables, stacks and
    heap are proved against, and its discharge by Frame.v.
    Paging.v, PagingSpec.v: Memory/Paging.cpp.  [tree] says that the tables in memory represent
    a finite page function; [Map] refines an update of it, the queries read it, and nothing is
    ever writable and executable.
    AddressSpace.v: [Paging::Initialize] builds exactly the kernel's layout, and the layout
    protects code, constants, data, RAM and stacks from one another and from ring 3.
    Heap.v, HeapSpec.v: Memory/Heap.cpp, the buddy allocator.  A ghost partition of the region
    ties headers and free lists together; live blocks are disjoint and keep their contents.
    KernelStack.v, StackMemory.v: Memory/KernelStack.cpp; guard pages stay unmapped, every stack
    has frames of its own and keeps its contents while others are allocated.
    StackInterface.v: the stacks as the [StackAllocator] of the threads.
    MemoryBoot.v: the first calls of [Main] (Main.cpp), frames, page tables and heap one after
    the other on shared state: they stop for a named reason or leave all of it consistent,
    with every byte of the heap mapped.

    ** Threads

    Context.v: Arch/Context.cpp and Context.asm; the first activation of a thread.
    Sched.v, SchedSpec.v: Thread/Thread.cpp, Dispatcher.cpp and Scheduler.cpp; every operation
    simulates round robin over one list.
    Sync.v, SyncSpec.v: Sync/Semaphore.cpp and Bellringer.cpp; [System] puts them together
    with the scheduler, and the delta-coded sleepers are compared with absolute deadlines.
    SystemSpec.v: runs of any calls by any cores: refinement of an abstract system, a thread is
    in one place, units are conserved, sleepers wake on time, the queue is fair, the dying
    never run.
    Idle.v: the idle loop of Scheduler.cpp step by step, with the timer mask of its core and
    the interrupts in between: no wake-up is lost.
    Locks.v: Sync/TicketLock.h and SpinLock.h; mutual exclusion and, for tickets, FIFO order
    although the counters wrap.

    ** Interrupts and devices

    Guard.v: Interrupt/Guard.cpp; every epilogue that finds room in the queue of its core runs
    once, in order, one at a time, and none is left behind.
    Device.v: Arch/IoPort.h, the vectors of Arch/CpuInterrupt.h, the driver monad and bit
    fields.
    Keyboard.v: Device/Key.cpp and KeyDecoder.cpp against a specification over the history of
    key events.
    Ps2.v: Device/Ps2Controller.cpp; no hardware can hang it.
    IoApic.v: Arch/IoApic.cpp; a routing table.  LocalApic.v: Arch/LocalApic.cpp,
    LocalApicIpi.cpp and LocalApicTimer.cpp; exact timer periods, the in-service scan.  Pit.v:
    Arch/Pit.cpp.  Legacy.v: Arch/Pic.cpp and Cmos.cpp.  Serial.v: Arch/Serial.cpp and
    Device/SerialStream.cpp; the line is set up as asked, no dead line hangs the kernel, and
    a working one carries the stream's text.  Console.v: Debug/Output.cpp and CopyStream.h;
    the early writer, the per-core streams and the copying stream.
    Epilogues.v: Interrupt/Epilogue.cpp, Arch/System.cpp and the vault of Guard.h; a keystroke
    goes from the controller to the thread that waits.
    Traps.v, TrapsSpec.v: Arch/Gdt.cpp, Idt.cpp and Interrupt/Handlers.cpp; all 256 gates are
    right, and each of five faults in ring 3 ends the task only, with its report on the debug
    window of the core.
    Output.v, Format.v, Screen.v: Lib/OutputStream.cpp, StringBuffer.h, Arch/Cga.cpp,
    TextWindow.cpp and Device/TextStream.h; numbers read back, every inserted item has its
    text, a window is a terminal confined to its rectangle.
    Layout.v: the windows of Main.cpp and of the vault, the debug output of a core on them, and
    App/CounterThread.cpp; each window shows its own stream only, as long as cursors stay inside.
    Report.v: what the [Dump] functions, PANIC, ASSERT and the banners insert, and Debug/DebugExit.cpp; the heap's report adds up to the heap.

    ** Ring 3

    User.v, UserSpec.v: src/ABI/C/HK.h, User/Elf.h and User/Task.cpp; loading is confined to the
    user half, and [CopyIn] reads what ring 3 could read.
    LoaderSpec.v: [User::Load] against the file: what ring 3 reads and may do at every address
    of the segments and of the stack, and that the loaded pages share memory with nothing; where
    segments share a page, the later one's bytes.
    Termination.v: the counter and the status of ended tasks in User/Task.cpp, read and written
    by all cores at once; no answer is older than its count.
    Launch.v: the block of [Main] that readies the threads and starts the user program,
    [User::Run] and App/MelodyThread.cpp; loader and kernel stacks share page tables, and the
    program starts where the image says.
    Entry.v: Arch/Syscall.asm instruction by instruction, and [Syscall::Initialize]; a system
    call gives every register but three back.
    Syscall.v, SyscallSpec.v: Arch/Syscall.cpp; errors are exact, [Write] prints, [GetKey] hands
    out the oldest key.
    UserLib.v: src/ABI/C/HK.c and the C++ face of HK.h over the kernel's dispatcher;
    [hk_write_all] end to end.
    Hello.v: src/User/Hello.c over the library and the system calls; what a user sees and the
    status the program ends with, for any keys typed; what the loader puts into memory for
    its text is what the program's theorems start from.

    ** Boot

    Boot.v, BootSpec.v: Boot/Multiboot.cpp; the handover is read exactly and yields the lists
    of [BootInfo].
    Smp.v: Boot/SmpBoot.cpp; the relocated trampoline holds the linked code, a table for its
    new place and a pointer to it, and the start-up interrupt names its page.
    Acpi.v, Apic.v, Cores.v, TopologySpec.v: Arch/Acpi.cpp, Apic.cpp and Cpu.cpp; the MADT is
    read exactly, core numbers are dense.
    LongMode.v: Boot/LongMode.asm and Entry.asm; the first page tables map three windows and
    nothing else, each core takes a boot stack of its own.
    Startup.v: Boot/Startup.cpp, the order of calls in Main.cpp and the arrays of
    Compiler/Libc.cpp, on processors that interleave: everything happens in order and once.
    CoreInit.v: [Cpu::Initialize] with the local APIC, task register and system call set-up it
    calls, on the listed processors (at most [MAX_CORES]) that interleave; each gets its own
    number, segment and stacks.  The
    register unions of Arch/LocalApic.cpp with their bit-fields.
    Processor.v: Arch/CpuId.h, Msr.h, CpuInterrupt.h and the table registers; no-execute is
    enabled on every processor wherever the page tables use it.

    ** Self tests

    Selftest.v: Test/Test.cpp and the suites of the ring buffer, the key decoder, the keyboard
    controller and the kernel stacks over the models; each passes from every state it can be
    started in (the stacks may run out of memory instead).

    ** Fuel

    Counted loops recurse on the number of rounds left.  Loops that follow memory take fuel:
    the search for a string's end (its theorem gives the bound), free lists (the number of
    minimal blocks of the region), queues and bells ([MaxThreads], at least the population),
    the digits of a number (65 rounds; a 64-bit value has at most 64 digits), pages of a range
    (its size in pages plus the rounding at both ends), program headers (2^16, their number
    has 16 bits), boot loader tags and firmware records (the bytes of the block).  The theorems
    state [Ok], so the fuel was enough.  Loops that wait for hardware without a bound of their
    own take [patience]; their theorems are about the values for which the device answers.

    ** Not modelled

    The 32 and 64 bit segment loads of Boot/Entry.asm and the Multiboot header; the other
    self tests (Test/), which need several cores, provoke faults or exhaust memory; the linker
    scripts, whose symbols are parameters; the lines the loader and the exit call write to the
    debug window (those of the fault handlers are modelled).  Weak memory is not modelled: atomic
    accesses interleave, as x86 orders them for the release and acquire operations the code
    uses.  Caches and TLBs are transparent. *)

From stdpp Require Export base list gmap strings sets.
From Stdlib Require Export ZArith Lia Btauto.

#[global] Open Scope Z_scope.

(** ** Scope and notations of the development *)

Declare Scope hk_scope.
Delimit Scope hk_scope with hk.
#[global] Open Scope hk_scope.

(** ** Machine words

    An unsigned [w]-bit value of the C++ code is a [Z] in [[0, 2^w)]; arithmetic
    that can leave the range is written with the wrap around it has in C++. *)

Definition wrap (w x : Z) : Z := x mod 2 ^ w.
Abbreviation u8 := (wrap 8).
Abbreviation u16 := (wrap 16).
Abbreviation u32 := (wrap 32).
Abbreviation u64 := (wrap 64).

(** [is_word w x]: the value [x] is representable in [w] unsigned bits. *)
Definition is_word (w x : Z) : Prop := 0 <= x < 2 ^ w.

(** Two's complement reading of a [w]-bit pattern ([static_cast<int32_t>] and
    friends). *)
Definition to_signed (w x : Z) : Z :=
  let y := wrap w x in if y <? 2 ^ (w - 1) then y else y - 2 ^ w.

Notation "x +64 y" := (u64 (x + y)) (at level 50, left associativity) : hk_scope.
Notation "x -64 y" := (u64 (x - y)) (at level 50, left associativity) : hk_scope.
Notation "x *64 y" := (u64 (x * y)) (at level 40, left associativity) : hk_scope.
Notation "x <<64 y" := (u64 (Z.shiftl x y)) (at level 35, no associativity) : hk_scope.
(** [~x] at 64 bits. *)
Notation "~64 x" := (u64 (Z.lnot x)) (at level 35, right associativity) : hk_scope.

Lemma wrap_range w x : 0 <= w -> is_word w (wrap w x).
Proof. intros ?. apply Z.mod_pos_bound. lia. Qed.

Lemma wrap_small w x : is_word w x -> wrap w x = x.
Proof. intros ?. by apply Z.mod_small. Qed.

Lemma wrap_wrap w x : 0 <= w -> wrap w (wrap w x) = wrap w x.
Proof. intros ?. apply wrap_small, wrap_range; lia. Qed.

Lemma wrap_add_l w x y : 0 <= w -> wrap w (wrap w x + y) = wrap w (x + y).
Proof. intros ?. unfold wrap. by rewrite Zplus_mod_idemp_l. Qed.

Lemma to_signed_small w x : 0 < w -> 0 <= x < 2 ^ (w - 1) -> to_signed w x = x.
Proof.
  intros Hw Hx. unfold to_signed.
  assert (2 ^ w = 2 * 2 ^ (w - 1)) as E.
  { replace w with (Z.succ (w - 1)) at 1 by lia. rewrite Z.pow_succ_r; lia. }
  rewrite wrap_small by (unfold is_word; lia).
  destruct (Z.ltb_spec x (2 ^ (w - 1))); lia.
Qed.

(** ** Bits

    [bits_norm] turns an equation between bit expressions into an equation of
    booleans at a symbolic position; it is the development's analogue of a bit
    blaster. *)

#[global] Arguments Z.testbit : simpl never.

Create Rewrite HintDb hk_bits.
#[export] Hint Rewrite Z.land_spec Z.lor_spec Z.lxor_spec Z.ldiff_spec : hk_bits.
#[export] Hint Rewrite Z.lnot_spec Z.shiftr_spec Z.shiftl_spec using lia : hk_bits.
#[export] Hint Rewrite Z.bits_0 andb_true_r andb_true_l andb_false_r andb_false_l
  orb_true_r orb_true_l orb_false_r orb_false_l negb_involutive : hk_bits.

Lemma testbit_wrap w x i :
  0 <= w -> 0 <= i -> Z.testbit (wrap w x) i = (i <? w) && Z.testbit x i.
Proof.
  intros Hw Hi. unfold wrap. destruct (Z.ltb_spec i w); simpl.
  - by rewrite Z.mod_pow2_bits_low.
  - rewrite Z.mod_pow2_bits_high; [done | lia].
Qed.

Lemma testbit_one_shift n i : 0 <= n -> 0 <= i ->
  Z.testbit (Z.shiftl 1 n) i = bool_decide (i = n).
Proof.
  intros Hn Hi. rewrite Z.shiftl_1_l. case_bool_decide.
  - subst. by apply Z.pow2_bits_true.
  - apply Z.pow2_bits_false. lia.
Qed.

Lemma testbit_above w x i : is_word w x -> 0 <= w <= i -> Z.testbit x i = false.
Proof.
  intros Hx Hi. rewrite <- (wrap_small w x Hx), testbit_wrap by lia.
  by replace (i <? w) with false by lia.
Qed.

Lemma is_word_bits w x :
  0 <= w -> 0 <= x -> (forall i, w <= i -> Z.testbit x i = false) -> is_word w x.
Proof.
  intros Hw Hx H. split; [lia|].
  replace x with (wrap w x); [apply wrap_range; lia|].
  apply Z.bits_inj'. intros i Hi. rewrite testbit_wrap by lia.
  destruct (Z.ltb_spec i w); simpl; [done|]. symmetry. apply H. lia.
Qed.

(** Testing a single flag, as in [(entry & PRESENT) == 0]. *)
Lemma land_flag_zero e n : 0 <= n -> (Z.land e (Z.shiftl 1 n) =? 0) = negb (Z.testbit e n).
Proof.
  intros Hn. destruct (Z.testbit e n) eqn:E; simpl.
  - apply Z.eqb_neq. intros H0. apply (f_equal (fun z => Z.testbit z n)) in H0.
    rewrite Z.land_spec, E, testbit_one_shift, Z.bits_0 in H0 by lia.
    by rewrite bool_decide_true in H0.
  - apply Z.eqb_eq, Z.bits_inj'. intros k Hk.
    rewrite Z.land_spec, testbit_one_shift, Z.bits_0 by lia.
    case_bool_decide; [subst; by rewrite E|btauto].
Qed.

(** Clearing low bits rounds down. *)
Lemma land_low_mask n a : 0 <= n <= 64 -> is_word 64 a ->
  Z.land a (Z.shiftl (Z.ones (64 - n)) n) = a / 2 ^ n * 2 ^ n.
Proof.
  intros Hn Ha. rewrite <- Z.shiftl_mul_pow2, <- Z.shiftr_div_pow2 by lia.
  apply Z.bits_inj'. intros k Hk. rewrite Z.land_spec, !Z.shiftl_spec by lia.
  destruct (Z_lt_dec k n); [rewrite !(Z.testbit_neg_r _ (k - n)) by lia; btauto|].
  rewrite Z.shiftr_spec by lia. replace (k - n + n) with k by lia.
  destruct (Z_lt_dec k 64); [rewrite Z.ones_spec_low by lia; btauto|].
  by rewrite (testbit_above 64 a k) by (done || lia).
Qed.

Lemma land_page_mask a : is_word 64 a -> Z.land a (~64 4095) = a / 4096 * 4096.
Proof. apply (land_low_mask 12). lia. Qed.

(** ** Lists *)

Lemma existsb_map_fmap {A B} (f : A -> B) (p : B -> bool) l :
  existsb p (f <$> l) = existsb (fun x => p (f x)) l.
Proof. induction l as [|x l IH]; [done|]. rewrite fmap_cons. simpl. by rewrite IH. Qed.

(** ** Sums over an initial segment *)

Fixpoint sumZ (f : Z -> Z) (n : nat) : Z :=
  match n with O => 0 | S k => sumZ f k + f (Z.of_nat k) end.

Lemma sumZ_ext f g n : (forall i, 0 <= i < Z.of_nat n -> f i = g i) -> sumZ f n = sumZ g n.
Proof.
  induction n as [|n IH]; intros H; simpl; [done|].
  rewrite IH, (H (Z.of_nat n)) by (intros; try apply H; lia). done.
Qed.

Lemma sumZ_update f g i n : 0 <= i < Z.of_nat n -> (forall j, j <> i -> f j = g j) ->
  sumZ f n = sumZ g n - g i + f i.
Proof.
  intros Hi H. induction n as [|n IH]; [lia|]. simpl. destruct (Z.eq_dec i (Z.of_nat n)) as [->|].
  - rewrite (sumZ_ext f g) by (intros; apply H; lia). lia.
  - rewrite IH, (H (Z.of_nat n)) by lia. lia.
Qed.

Lemma sumZ_nonneg f n : (forall i, 0 <= f i) -> 0 <= sumZ f n.
Proof. intros H. induction n as [|n IH]; simpl; [lia|]. specialize (H (Z.of_nat n)). lia. Qed.

Lemma sumZ_zero f n i : (forall i, 0 <= f i) -> sumZ f n = 0 -> 0 <= i < Z.of_nat n -> f i = 0.
Proof.
  intros H Hs Hi. induction n as [|n IH]; [lia|]. simpl in Hs.
  pose proof (sumZ_nonneg f n H). pose proof (H (Z.of_nat n)).
  destruct (Z.eq_dec i (Z.of_nat n)) as [->|]; [lia|]. apply IH; lia.
Qed.

(** ** Lists *)

Lemma filter_true {A} (P : A -> Prop) `{!forall x, Decision (P x)} (l : list A) :
  (forall x, x ∈ l -> P x) -> filter P l = l.
Proof.
  induction l as [|x l IH]; intros Hl; [done|]. rewrite filter_cons_True by (apply Hl; set_solver).
  f_equal. apply IH. set_solver.
Qed.

Lemma filter_false {A} (P : A -> Prop) `{!forall x, Decision (P x)} (l : list A) :
  (forall x, x ∈ l -> ~ P x) -> filter P l = [].
Proof.
  induction l as [|x l IH]; intros Hl; [done|]. rewrite filter_cons_False by (apply Hl; set_solver).
  apply IH. set_solver.
Qed.

(** ** Stores

    Objects of one kind (threads, bells, the slots of a [PerCore]) are a total map from
    their address or index. *)

Definition upd {A} (f : Z -> A) (k : Z) (v : A) : Z -> A := fun x => if x =? k then v else f x.

Lemma upd_eq {A} (f : Z -> A) k v : upd f k v k = v.
Proof. unfold upd. by rewrite Z.eqb_refl. Qed.

Lemma upd_ne {A} (f : Z -> A) k v x : x <> k -> upd f k v x = f x.
Proof. intros H. unfold upd. by destruct (Z.eqb_spec x k). Qed.

(** ** Outcomes of a call

    A kernel function returns, panics ([PANIC]), stops on a failed [ASSERT]
    (debug builds), or runs into behaviour the language does not define
    ([Fault]: an access outside an object).  [Diverges] marks a loop that
    exceeded the iteration bound its model was given. *)

Inductive outcome (A : Type) : Type :=
| Ok (a : A)
| Panic (why : string)
| AssertFailed (what : string)
| Fault (where_ : string)
| Diverges.
Arguments Ok {A} a.
Arguments Panic {A} why.
Arguments AssertFailed {A} what.
Arguments Fault {A} where_.
Arguments Diverges {A}.

Definition obind {A B} (m : outcome A) (k : A -> outcome B) : outcome B :=
  match m with
  | Ok a => k a
  | Panic w => Panic w
  | AssertFailed w => AssertFailed w
  | Fault w => Fault w
  | Diverges => Diverges
  end.

Notation "'let*' x ':=' m 'in' k" := (obind m (fun x => k))
  (at level 10, x pattern, m at level 100, k at level 200) : hk_scope.

Definition is_Ok {A} (m : outcome A) : Prop := exists a, m = Ok a.

(** [ASSERT] of [Debug/Assert.h] is compiled out when [NDEBUG] is defined (the
    [-opt] flavour of the build); the models that contain one are parametric in
    the flavour. *)
Class Build := { NDEBUG : bool }.

Definition ASSERT `{Build} (e : bool) (what : string) : outcome unit :=
  if NDEBUG then Ok tt else if e then Ok tt else AssertFailed what.

Lemma obind_Ok {A B} (m : outcome A) (k : A -> outcome B) b :
  obind m k = Ok b <-> exists a, m = Ok a /\ k a = Ok b.
Proof.
  destruct m; simpl; split; try (by eauto); try discriminate;
    intros (? & [= <-] & ?); done.
Qed.

Lemma ASSERT_true `{Build} what : ASSERT true what = Ok tt.
Proof. unfold ASSERT. by destruct NDEBUG. Qed.

(** ** Automation *)

(** Splits every successful bind among the hypotheses. *)
Ltac inv_ok :=
  repeat match goal with
  | H : obind ?m _ = Ok _ |- _ =>
      let a := fresh "a" in let E := fresh "E" in
      apply obind_Ok in H as (a & E & H); try (destruct a)
  | H : Ok _ = Ok _ |- _ => injection H as H; try subst
  | H : @eq (outcome _) _ _ |- _ => discriminate H
  end.

(** Case analysis on the comparison the code tests next. *)
Ltac case_test :=
  match goal with
  | |- context [?a <? ?b] => destruct (Z.ltb_spec a b)
  | |- context [?a <=? ?b] => destruct (Z.leb_spec a b)
  | |- context [?a =? ?b] => destruct (Z.eqb_spec a b)
  end; try (exfalso; lia).

Ltac case_test_in H :=
  match type of H with
  | context [?a <? ?b] => destruct (Z.ltb_spec a b)
  | context [?a <=? ?b] => destruct (Z.leb_spec a b)
  | context [?a =? ?b] => destruct (Z.eqb_spec a b)
  end; try (exfalso; lia).

Create HintDb hk.
#[export] Hint Resolve wrap_range : hk.
#[export] Hint Extern 1 (is_word _ _) => (unfold is_word in *; lia) : hk.
#[export] Hint Extern 2 (_ <= _) => lia : hk.
#[export] Hint Extern 2 (_ < _) => lia : hk.
