(* ===== verification/Mem.v ===== *)
(** * Byte memory and the C string functions of Lib/String.cpp

    Memory is a total map from (virtual) addresses to bytes with arbitrary
    initial contents; multi-byte objects are little endian.  [Module CString]
    translates Lib/String.cpp loop by loop over that memory.  Loops whose exit
    depends on the data (looking for a terminator) carry an iteration bound and
    answer [Diverges] when it is exceeded. *)

From S2P Require Import Prelude.

(** ** Memory *)

Definition mem := Z -> Z.

Definition load8 (m : mem) (a : Z) : Z := u8 (m a).
Definition store8 (m : mem) (a v : Z) : mem := fun x => if x =? a then u8 v else m x.

(** [n]-byte little endian access. *)
Fixpoint load (m : mem) (a : Z) (n : nat) : Z :=
  match n with
  | O => 0
  | S k => load8 m a + 256 * load m (a + 1) k
  end.

Fixpoint store (m : mem) (a : Z) (n : nat) (v : Z) : mem :=
  match n with
  | O => m
  | S k => store (store8 m a v) (a + 1) k (v / 256)
  end.

Abbreviation load16 m a := (load m a 2).
Abbreviation load32 m a := (load m a 4).
Abbreviation load64 m a := (load m a 8).
Abbreviation store32 m a v := (store m a 4 v).
Abbreviation store64 m a v := (store m a 8 v).

(** Two memories are equivalent when they hold the same bytes. *)
Definition mem_equiv (m m' : mem) : Prop := forall a, load8 m a = load8 m' a.
#[export] Instance mem_equiv_equiv : Equiv mem := mem_equiv.

#[export] Instance mem_equivalence : Equivalence (≡@{mem}).
Proof.
  split.
  - intros m a. done.
  - intros m m' H a. by rewrite (H a).
  - intros m m' m'' H H' a. by rewrite (H a), (H' a).
Qed.

#[export] Instance load8_proper : Proper ((≡) ==> (=) ==> (=)) load8.
Proof. intros m m' H a ? <-. apply H. Qed.

#[export] Instance load_proper : Proper ((≡) ==> (=) ==> (=) ==> (=)) load.
Proof.
  intros m m' H a ? <- n ? <-. revert a.
  induction n as [|n IH]; intros a; simpl; [done|]. by rewrite IH, (H a).
Qed.

#[export] Instance store8_proper : Proper ((≡) ==> (=) ==> (=) ==> (≡)) store8.
Proof.
  intros m m' H a ? <- v ? <- x. unfold load8, store8.
  case_test; [done|]. apply H.
Qed.

(** ** Access lemmas *)

Lemma load8_range m a : 0 <= load8 m a < 256.
Proof. apply (wrap_range 8). lia. Qed.

Lemma load8_store8 m a v x :
  load8 (store8 m a v) x = if x =? a then u8 v else load8 m x.
Proof.
  unfold load8, store8. case_test; [|done]. by apply wrap_wrap.
Qed.

Lemma load8_store8_same m a v : load8 (store8 m a v) a = u8 v.
Proof. by rewrite load8_store8, Z.eqb_refl. Qed.

Lemma load8_store8_ne m a v x : x <> a -> load8 (store8 m a v) x = load8 m x.
Proof. intros ?. rewrite load8_store8. case_test. done. Qed.

Lemma load_ext m m' a n :
  (forall i, a <= i < a + Z.of_nat n -> load8 m i = load8 m' i) ->
  load m a n = load m' a n.
Proof.
  revert a; induction n as [|n IH]; intros a H; simpl; [done|].
  rewrite (H a), (IH (a + 1)) by (try intros; try apply H; lia). done.
Qed.

Lemma load_range m a n : is_word (8 * Z.of_nat n) (load m a n).
Proof.
  revert a; induction n as [|n IH]; intros a.
  - unfold is_word. simpl. lia.
  - simpl load. pose proof (load8_range m a). specialize (IH (a + 1)).
    unfold is_word in *.
    replace (8 * Z.of_nat (S n)) with (8 + 8 * Z.of_nat n) by lia.
    rewrite Z.pow_add_r by lia. change (2 ^ 8) with 256. nia.
Qed.

Lemma load64_range m a : is_word 64 (load64 m a).
Proof. apply (load_range m a 8). Qed.

Lemma load32_range m a : is_word 32 (load32 m a).
Proof. apply (load_range m a 4). Qed.

Lemma load16_range m a : is_word 16 (load16 m a).
Proof. apply (load_range m a 2). Qed.

Lemma load8_store_out m a n v x :
  x < a \/ a + Z.of_nat n <= x -> load8 (store m a n v) x = load8 m x.
Proof.
  revert m a v; induction n as [|n IH]; intros m a v H; simpl; [done|].
  rewrite IH by lia. apply load8_store8_ne. lia.
Qed.

Lemma load_store_disj m a n v b k :
  a + Z.of_nat n <= b \/ b + Z.of_nat k <= a ->
  load (store m a n v) b k = load m b k.
Proof.
  intros H. apply load_ext. intros i Hi. apply load8_store_out. lia.
Qed.

Lemma load_store_same m a n v :
  load (store m a n v) a n = wrap (8 * Z.of_nat n) v.
Proof.
  revert m a v; induction n as [|n IH]; intros m a v.
  - unfold wrap. simpl. by rewrite Z.mod_1_r.
  - simpl load. simpl store. rewrite IH, load8_store_out by lia.
    rewrite load8_store8_same. unfold wrap.
    replace (8 * Z.of_nat (S n)) with (8 + 8 * Z.of_nat n) by lia.
    rewrite Z.pow_add_r by lia. change (2 ^ 8) with 256.
    rewrite Z.rem_mul_r by lia. lia.
Qed.

Lemma load64_store64 m a v : is_word 64 v -> load64 (store64 m a v) a = v.
Proof. intros ?. rewrite load_store_same. by apply wrap_small. Qed.

#[global] Arguments load : simpl never.
#[global] Arguments store : simpl never.

#[export] Hint Resolve load_range load64_range load32_range load16_range : hk.

(** ** Lib/String.cpp *)

Module CString.

(** [char] is signed on this target. *)
Definition char_at (m : mem) (p : Z) : Z := to_signed 8 (load8 m p).

Fixpoint strchrnul_loop (fuel : nat) (m : mem) (InString InChar : Z) : outcome Z :=
  match fuel with
  | O => Diverges
  | S k =>
      if negb (char_at m InString =? 0) && negb (char_at m InString =? InChar)
      then strchrnul_loop k m (InString + 1) InChar
      else Ok InString
  end.

Definition strchrnul (fuel : nat) (m : mem) (InString InChar : Z) : outcome Z :=
  if negb (InString =? 0) then strchrnul_loop fuel m InString InChar else Ok InString.

Definition strchr (fuel : nat) (m : mem) (InString InChar : Z) : outcome Z :=
  if negb (InString =? 0) then
    let* found := strchrnul fuel m InString InChar in
    if char_at m found =? InChar then Ok found else Ok 0
  else Ok 0.

Fixpoint strcmp_loop (fuel : nat) (m : mem) (InLeft InRight : Z) : outcome Z :=
  match fuel with
  | O => Diverges
  | S k =>
      if (char_at m InLeft =? char_at m InRight) && negb (char_at m InLeft =? 0)
      then strcmp_loop k m (InLeft + 1) (InRight + 1)
      else Ok (char_at m InLeft - char_at m InRight)
  end.

Definition strcmp (fuel : nat) (m : mem) (InLeft InRight : Z) : outcome Z :=
  if (InLeft =? 0) || (InRight =? 0) then Ok 0 else strcmp_loop fuel m InLeft InRight.

(** [n] is the number of iterations left, [InCount - i]. *)
Fixpoint strncmp_loop (n : nat) (m : mem) (InLeft InRight i : Z) : Z :=
  match n with
  | O => 0
  | S k =>
      if negb (char_at m (InLeft + i) =? char_at m (InRight + i))
      then char_at m (InLeft + i) - char_at m (InRight + i)
      else if char_at m (InLeft + i) =? 0 then 0
      else strncmp_loop k m InLeft InRight (i + 1)
  end.

Definition strncmp (m : mem) (InLeft InRight InCount : Z) : Z :=
  if (InLeft =? 0) || (InRight =? 0) then 0
  else strncmp_loop (Z.to_nat InCount) m InLeft InRight 0.

Fixpoint strlen_loop (fuel : nat) (m : mem) (InString length : Z) : outcome Z :=
  match fuel with
  | O => Diverges
  | S k =>
      if negb (char_at m (InString + length) =? 0)
      then strlen_loop k m InString (length + 1)
      else Ok length
  end.

Definition strlen (fuel : nat) (m : mem) (InString : Z) : outcome Z :=
  if negb (InString =? 0) then strlen_loop fuel m InString 0 else Ok 0.

Fixpoint strcpy_loop (fuel : nat) (m : mem) (OutDest InSource : Z) : outcome mem :=
  match fuel with
  | O => Diverges
  | S k =>
      let c := load8 m InSource in
      let m' := store8 m OutDest c in
      if negb (to_signed 8 c =? 0) then strcpy_loop k m' (OutDest + 1) (InSource + 1)
      else Ok m'
  end.

Definition strcpy (fuel : nat) (m : mem) (OutDest InSource : Z) : outcome (Z * mem) :=
  if negb (OutDest =? 0) && negb (InSource =? 0)
  then let* m' := strcpy_loop fuel m OutDest InSource in Ok (OutDest, m')
  else Ok (OutDest, m).

Fixpoint strncpy_loop (InCount : nat) (m : mem) (OutDest InSource : Z) : mem :=
  match InCount with
  | O => m
  | S k =>
      let c := load8 m InSource in
      let m' := store8 m OutDest c in
      if negb (to_signed 8 c =? 0) then strncpy_loop k m' (OutDest + 1) (InSource + 1)
      else m'
  end.

Definition strncpy (m : mem) (OutDest InSource InCount : Z) : Z * mem :=
  if negb (OutDest =? 0) && negb (InSource =? 0)
  then (OutDest, strncpy_loop (Z.to_nat InCount) m OutDest InSource)
  else (OutDest, m).

(** The forward copy loop, from index [i] for [n] more bytes. *)
Fixpoint copy_up (n : nat) (m : mem) (dest src i : Z) : mem :=
  match n with
  | O => m
  | S k => copy_up k (store8 m (dest + i) (load8 m (src + i))) dest src (i + 1)
  end.

(** The backward copy loop: [i] runs from [n] down to 1. *)
Fixpoint copy_down (n : nat) (m : mem) (dest src : Z) : mem :=
  match n with
  | O => m
  | S k => copy_down k (store8 m (dest + Z.of_nat k) (load8 m (src + Z.of_nat k))) dest src
  end.

Definition memcpy (m : mem) (OutDest InSource InSize : Z) : mem :=
  copy_up (Z.to_nat InSize) m OutDest InSource 0.

Definition memmove (m : mem) (OutDest InSource InSize : Z) : mem :=
  if OutDest <? InSource then copy_up (Z.to_nat InSize) m OutDest InSource 0
  else copy_down (Z.to_nat InSize) m OutDest InSource.

Fixpoint memset_loop (n : nat) (m : mem) (dest i InPattern : Z) : mem :=
  match n with
  | O => m
  | S k => memset_loop k (store8 m (dest + i) (u8 InPattern)) dest (i + 1) InPattern
  end.

Definition memset (m : mem) (OutDest InPattern InSize : Z) : mem :=
  memset_loop (Z.to_nat InSize) m OutDest 0 InPattern.

Fixpoint memcmp_loop (n : nat) (m : mem) (left right i : Z) : Z :=
  match n with
  | O => 0
  | S k =>
      if negb (load8 m (left + i) =? load8 m (right + i))
      then load8 m (left + i) - load8 m (right + i)
      else memcmp_loop k m left right (i + 1)
  end.

Definition memcmp (m : mem) (InLeft InRight InSize : Z) : Z :=
  memcmp_loop (Z.to_nat InSize) m InLeft InRight 0.

(** *** Reference definitions *)

(** The memory in which [[dest, dest + n)] holds what [[src, src + n)] held. *)
Definition moved (m : mem) (dest src n : Z) : mem := fun a =>
  if (dest <=? a) && (a <? dest + n) then m (src + (a - dest)) else m a.

(** The memory in which [[dest, dest + n)] is filled with one byte. *)
Definition filled (m : mem) (dest v n : Z) : mem := fun a =>
  if (dest <=? a) && (a <? dest + n) then v else m a.

(** *** Correctness *)

Lemma load8_moved m dest src n a :
  load8 (moved m dest src n) a =
    if (dest <=? a) && (a <? dest + n) then load8 m (src + (a - dest)) else load8 m a.
Proof. unfold load8, moved. by destruct (_ && _). Qed.

Lemma load8_filled m dest v n a :
  load8 (filled m dest v n) a =
    if (dest <=? a) && (a <? dest + n) then u8 v else load8 m a.
Proof. unfold load8, filled. by destruct (_ && _). Qed.

Lemma copy_up_spec n m dest src i :
  dest <= src \/ src + i + Z.of_nat n <= dest + i ->
  forall a, load8 (copy_up n m dest src i) a =
    if (dest + i <=? a) && (a <? dest + i + Z.of_nat n)
    then load8 m (src + (a - dest)) else load8 m a.
Proof.
  revert m i; induction n as [|n IH]; intros m i H a; simpl.
  - rewrite Z.add_0_r. by replace ((dest + i <=? a) && (a <? dest + i)) with false by lia.
  - rewrite IH by lia. rewrite !load8_store8.
    pose proof (load8_range m (src + i)).
    repeat case_test; simpl; try reflexivity; try (exfalso; lia).
    all: replace (a - dest) with i by lia; apply wrap_small; unfold is_word; lia.
Qed.

Lemma copy_down_spec n m dest src :
  src <= dest ->
  forall a, load8 (copy_down n m dest src) a =
    if (dest <=? a) && (a <? dest + Z.of_nat n)
    then load8 m (src + (a - dest)) else load8 m a.
Proof.
  revert m; induction n as [|n IH]; intros m H a; simpl copy_down.
  - rewrite Z.add_0_r. by replace ((dest <=? a) && (a <? dest)) with false by lia.
  - rewrite IH by lia. rewrite !load8_store8.
    pose proof (load8_range m (src + Z.of_nat n)).
    repeat case_test; simpl; try reflexivity; try (exfalso; lia).
    all: replace (a - dest) with (Z.of_nat n) by lia; apply wrap_small; unfold is_word; lia.
Qed.

Lemma memset_loop_spec n m dest i v a :
  load8 (memset_loop n m dest i v) a =
    if (dest + i <=? a) && (a <? dest + i + Z.of_nat n) then u8 v else load8 m a.
Proof.
  revert m i; induction n as [|n IH]; intros m i; simpl.
  - rewrite Z.add_0_r. by replace ((dest + i <=? a) && (a <? dest + i)) with false by lia.
  - rewrite IH, load8_store8. rewrite wrap_wrap by lia.
    repeat case_test; simpl; try reflexivity; try (exfalso; lia).
Qed.

(** [memset] fills exactly its range. *)
Lemma memset_filled m dest v n :
  0 <= n -> memset m dest v n ≡ filled m dest v n.
Proof.
  intros Hn a. unfold memset. rewrite memset_loop_spec, load8_filled.
  by replace (dest + 0) with dest by lia; rewrite Z2Nat.id by lia.
Qed.

(** [memcpy] on ranges that do not overlap (the contract of [__restrict__]). *)
Lemma memcpy_moved m dest src n :
  0 <= n -> dest + n <= src \/ src + n <= dest ->
  memcpy m dest src n ≡ moved m dest src n.
Proof.
  intros Hn H a. unfold memcpy. rewrite copy_up_spec by lia. rewrite load8_moved.
  by replace (dest + 0) with dest by lia; rewrite Z2Nat.id by lia.
Qed.

End CString.

(** ** Properties of Lib/String.cpp *)

(** [memmove] copies correctly whatever the overlap: afterwards the
    destination range holds what the source range held before the call, and
    every other byte is unchanged. *)
Theorem memmove_moves_any_overlap (m : mem) (dest src n : Z) (Hn : 0 <= n) :
  CString.memmove m dest src n ≡ CString.moved m dest src n.
Proof.
  intros a. unfold CString.memmove. rewrite CString.load8_moved.
  destruct (Z.ltb_spec dest src).
  - rewrite CString.copy_up_spec by lia. by rewrite Z.add_0_r, Z2Nat.id by lia.
  - rewrite CString.copy_down_spec by lia. by rewrite Z2Nat.id by lia.
Qed.

Lemma memmove_moves_any_overlap_witness :
  let m : mem := fun a => a in
  CString.memmove m 102 100 4 ≡ CString.moved m 102 100 4
  /\ load8 (CString.memmove m 102 100 4) 105 = 103.
Proof. split; [apply (memmove_moves_any_overlap (fun a => a) 102 100 4); lia | reflexivity]. Defined.

Lemma strlen_loop_spec fuel m s len n :
  len <= n < len + Z.of_nat fuel -> CString.char_at m (s + n) = 0 ->
  (forall i, len <= i < n -> CString.char_at m (s + i) <> 0) ->
  CString.strlen_loop fuel m s len = Ok n.
Proof.
  revert len; induction fuel as [|k IH]; intros len Hn H0 Hlt; [lia|]. simpl.
  destruct (Z.eqb_spec (CString.char_at m (s + len)) 0) as [E|E]; simpl.
  - destruct (Z.eq_dec len n) as [->|]; [done|]. exfalso. apply (Hlt len); [lia|done].
  - apply IH; [|done|intros; apply Hlt; lia].
    destruct (Z.eq_dec len n) as [->|]; [done|lia].
Qed.

(** [strlen] of a non-null pointer terminates and returns the index of the
    first null byte, given enough iterations to reach it. *)
Theorem strlen_first_nul (fuel : nat) (m : mem) (s n : Z) (Hs : s <> 0)
    (Hn : 0 <= n < Z.of_nat fuel) (Hz : CString.char_at m (s + n) = 0)
    (Hnz : forall i, 0 <= i < n -> CString.char_at m (s + i) <> 0) :
  CString.strlen fuel m s = Ok n.
Proof.
  unfold CString.strlen. destruct (Z.eqb_spec s 0); [done|]. simpl.
  apply strlen_loop_spec; [lia|done|done].
Qed.

Lemma strlen_first_nul_witness :
  CString.strlen 5 (fun a => if a <? 103 then 65 else 0) 100 = Ok 3.
Proof.
  apply (strlen_first_nul 5 (fun a => if a <? 103 then 65 else 0) 100 3);
    [lia | lia | reflexivity |].
  intros i Hi. unfold CString.char_at, load8.
  replace (100 + i <? 103) with true by lia. by vm_compute.
Defined.
