(* ===== verification/RingBuffer.v ===== *)
(** * Lib/RingBuffer.h

    The circular buffer behind the epilogue queues, the raw keyboard bytes and
    the key queue: its operations, their refinement to a bounded FIFO list, and
    the single producer / single consumer interleaving the header promises to be
    safe. *)

From S2P Require Import Prelude.

Module RingBuffer.
Section RingBuffer.
Context {T : Type} `{!Inhabited T}.

(** The template parameter; [static_assert(CAPACITY > 1)]. *)
Variable CAPACITY : Z.

Record t := { m_Data : list T; m_Write : Z; m_Read : Z }.

(** [m_Data = {}], both indices zero. *)
Definition Empty : t :=
  {| m_Data := replicate (Z.to_nat CAPACITY) inhabitant; m_Write := 0; m_Read := 0 |}.

(** [unsigned] arithmetic is 32 bits wide. *)
Definition next (i : Z) : Z := u32 (i + 1) mod CAPACITY.

Definition slot (b : t) (i : Z) : T := m_Data b !!! Z.to_nat i.

Definition Produce (b : t) (InValue : T) : bool * t :=
  let nextWrite := next (m_Write b) in
  if nextWrite =? m_Read b then (false, b)
  else (true, {| m_Data := <[Z.to_nat (m_Write b) := InValue]> (m_Data b);
                 m_Write := nextWrite; m_Read := m_Read b |}).

Definition IsEmpty (b : t) : bool := m_Read b =? m_Write b.

Definition Consume (b : t) : option T * t :=
  if IsEmpty b then (None, b)
  else (Some (slot b (m_Read b)),
        {| m_Data := m_Data b; m_Write := m_Write b; m_Read := next (m_Read b) |}).

Definition Count (b : t) : Z :=
  if m_Read b <=? m_Write b then u32 (m_Write b - m_Read b)
  else u32 (CAPACITY - m_Read b + m_Write b).

Definition Capacity : Z := CAPACITY - 1.

(** ** Representation *)

Definition distance (b : t) : Z := (m_Write b - m_Read b) mod CAPACITY.

(** The buffered values, oldest first. *)
Definition contents (b : t) : list T :=
  (fun k : nat => slot b ((m_Read b + Z.of_nat k) mod CAPACITY)) <$> seq 0 (Z.to_nat (distance b)).

Record wf (b : t) : Prop := {
  wf_data : length (m_Data b) = Z.to_nat CAPACITY;
  wf_write : 0 <= m_Write b < CAPACITY;
  wf_read : 0 <= m_Read b < CAPACITY }.

Hypothesis HCAP : 1 < CAPACITY < 2 ^ 32.

Lemma next_eq i : 0 <= i < CAPACITY -> next i = (i + 1) mod CAPACITY.
Proof. intros ?. unfold next. rewrite wrap_small; [done|unfold is_word; lia]. Qed.

Lemma next_cases i : 0 <= i < CAPACITY ->
  next i = if i =? CAPACITY - 1 then 0 else i + 1.
Proof.
  intros ?. rewrite next_eq by done. case_test.
  - subst. replace (CAPACITY - 1 + 1) with CAPACITY by lia. apply Z.mod_same. lia.
  - apply Z.mod_small. lia.
Qed.

Lemma distance_cases b : wf b ->
  distance b = if m_Read b <=? m_Write b then m_Write b - m_Read b
               else CAPACITY - m_Read b + m_Write b.
Proof.
  intros [_ Hw Hr]. unfold distance. case_test.
  - apply Z.mod_small. lia.
  - symmetry. apply Z.mod_unique with (-1); lia.
Qed.

Lemma distance_range b : wf b -> 0 <= distance b < CAPACITY.
Proof. intros _. apply Z.mod_pos_bound. lia. Qed.

Lemma contents_length b : length (contents b) = Z.to_nat (distance b).
Proof. unfold contents. by rewrite length_fmap, length_seq. Qed.

Lemma Empty_wf : wf Empty.
Proof. split; simpl; [apply length_replicate | lia | lia]. Qed.

Lemma Empty_contents : contents Empty = [].
Proof.
  assert (distance Empty = 0) as E by (apply Z.mod_0_l; lia).
  unfold contents. by rewrite E.
Qed.

Lemma full_iff b : wf b -> (next (m_Write b) = m_Read b <-> distance b = CAPACITY - 1).
Proof.
  intros Hb. rewrite (distance_cases b Hb). destruct Hb as [_ Hw Hr].
  rewrite next_cases by done. repeat case_test; lia.
Qed.

Lemma empty_iff b : wf b -> (IsEmpty b = true <-> contents b = []).
Proof.
  intros Hb. unfold IsEmpty. rewrite Z.eqb_eq, <- length_zero_iff_nil, contents_length.
  rewrite (distance_cases b Hb). destruct Hb as [_ Hw Hr]. case_test; lia.
Qed.

Lemma slot_insert_eq b i v :
  wf b -> 0 <= i < CAPACITY -> (<[Z.to_nat i := v]> (m_Data b)) !!! Z.to_nat i = v.
Proof. intros [Hd _ _] ?. apply list_lookup_total_insert_eq. lia. Qed.

Lemma slot_insert_ne b i j v :
  0 <= i -> 0 <= j -> i <> j -> (<[Z.to_nat i := v]> (m_Data b)) !!! Z.to_nat j = slot b j.
Proof. intros ???. apply list_lookup_total_insert_ne. lia. Qed.

(** Putting a value in the slot at [m_Write] does not disturb the contents. *)
Lemma contents_spare_slot b v :
  wf b ->
  contents {| m_Data := <[Z.to_nat (m_Write b) := v]> (m_Data b);
              m_Write := m_Write b; m_Read := m_Read b |} = contents b.
Proof.
  intros Hb. pose proof (distance_range b Hb) as Hd. unfold contents.
  change (distance _) with (distance b) at 1. apply list_fmap_ext.
  intros k x [-> Hx]%lookup_seq. unfold slot; simpl.
  rewrite slot_insert_ne; [done|destruct Hb; lia|apply Z.mod_pos_bound; lia|].
  pose proof (distance_cases b Hb) as E. destruct Hb as [_ Hw Hr]. intros E'.
  assert (Hk : m_Write b = m_Read b + Z.of_nat k \/ m_Write b = m_Read b + Z.of_nat k - CAPACITY).
  { destruct (Z_lt_dec (m_Read b + Z.of_nat k) CAPACITY).
    - rewrite Z.mod_small in E' by lia. by left.
    - right. rewrite E'. symmetry. apply Z.mod_unique with 1; lia. }
  revert E. case_test; lia.
Qed.

(** Advancing [m_Write] publishes the slot it pointed to. *)
Lemma contents_publish b :
  wf b -> next (m_Write b) <> m_Read b ->
  contents {| m_Data := m_Data b; m_Write := next (m_Write b); m_Read := m_Read b |}
  = contents b ++ [slot b (m_Write b)].
Proof.
  intros Hb Hfull. set (b' := {| m_Data := _ |}).
  assert (wf b') as Hb'.
  { destruct Hb. split; simpl; [done| |done].
    rewrite next_cases by done. case_test; lia. }
  assert (distance b' = distance b + 1) as Hd.
  { rewrite (distance_cases b' Hb'), (distance_cases b Hb).
    assert (distance b <> CAPACITY - 1) by (rewrite <- full_iff; done).
    rewrite (distance_cases b Hb) in *. destruct Hb as [_ Hw Hr]. subst b'. simpl in *.
    revert Hfull. rewrite next_cases by done. repeat case_test; lia. }
  pose proof (distance_range b Hb). unfold contents. rewrite Hd.
  replace (Z.to_nat (distance b + 1)) with (Z.to_nat (distance b) + 1)%nat by lia.
  rewrite seq_app, fmap_app. f_equal. simpl.
  rewrite Z2Nat.id by lia. f_equal. unfold slot; simpl. f_equal. f_equal.
  unfold distance. rewrite Zplus_mod_idemp_r.
  replace (m_Read b + (m_Write b - m_Read b)) with (m_Write b) by lia.
  apply Z.mod_small. apply Hb.
Qed.

(** Advancing [m_Read] drops the oldest value. *)
Lemma contents_consume b x l :
  wf b -> contents b = x :: l ->
  slot b (m_Read b) = x /\
  contents {| m_Data := m_Data b; m_Write := m_Write b; m_Read := next (m_Read b) |} = l.
Proof.
  intros Hb Hc. set (b' := {| m_Data := _ |}).
  assert (Hd : 0 < distance b).
  { apply (f_equal length) in Hc. rewrite contents_length in Hc. simpl in Hc. lia. }
  assert (wf b') as Hb'.
  { destruct Hb. split; simpl; [done|done|].
    rewrite next_cases by done. case_test; lia. }
  assert (distance b' = distance b - 1) as Hd'.
  { rewrite (distance_cases b' Hb'), (distance_cases b Hb).
    rewrite (distance_cases b Hb) in Hd. destruct Hb as [_ Hw Hr].
    subst b'. simpl. rewrite next_cases by done. revert Hd. repeat case_test; lia. }
  revert Hc. unfold contents at 1.
  replace (Z.to_nat (distance b)) with (S (Z.to_nat (distance b'))) by lia.
  simpl. intros [= <- <-]. split.
  - unfold slot. do 2 f_equal. rewrite Z.add_0_r, Z.mod_small; [done|apply Hb].
  - unfold contents. rewrite <- fmap_S_seq, <- list_fmap_compose. apply list_fmap_ext.
    intros k y _. simpl. unfold slot; simpl. do 2 f_equal.
    rewrite next_eq by apply Hb. rewrite Zplus_mod_idemp_l. f_equal. lia.
Qed.

(** ** Concurrent use: one producer, one consumer

    [Produce] and [Consume] split at their shared accesses.  The producer tests
    [m_Read], fills the slot, and publishes with the release store of [m_Write];
    the consumer tests [m_Write], reads the slot, and releases it with the store
    of [m_Read].  Steps of the two sides interleave arbitrarily; [produced] and
    [consumed] record the completed operations. *)

Inductive producer := PIdle | PChecked (v : T) | PStored (v : T).
Inductive consumer := CIdle | CChecked | CLoaded (x : T).

Record shared := {
  buf : t; prod_pc : producer; cons_pc : consumer;
  produced : list T; consumed : list T }.

Definition start : shared :=
  {| buf := Empty; prod_pc := PIdle; cons_pc := CIdle; produced := []; consumed := [] |}.

Inductive step : shared -> shared -> Prop :=
| produce_check b c ps cs v :
    next (m_Write b) <> m_Read b ->
    step {| buf := b; prod_pc := PIdle; cons_pc := c; produced := ps; consumed := cs |}
         {| buf := b; prod_pc := PChecked v; cons_pc := c; produced := ps; consumed := cs |}
| produce_store b c ps cs v :
    step {| buf := b; prod_pc := PChecked v; cons_pc := c; produced := ps; consumed := cs |}
         {| buf := {| m_Data := <[Z.to_nat (m_Write b) := v]> (m_Data b);
                      m_Write := m_Write b; m_Read := m_Read b |};
            prod_pc := PStored v; cons_pc := c; produced := ps; consumed := cs |}
| produce_publish b c ps cs v :
    step {| buf := b; prod_pc := PStored v; cons_pc := c; produced := ps; consumed := cs |}
         {| buf := {| m_Data := m_Data b; m_Write := next (m_Write b); m_Read := m_Read b |};
            prod_pc := PIdle; cons_pc := c; produced := ps ++ [v]; consumed := cs |}
| consume_check b p ps cs :
    IsEmpty b = false ->
    step {| buf := b; prod_pc := p; cons_pc := CIdle; produced := ps; consumed := cs |}
         {| buf := b; prod_pc := p; cons_pc := CChecked; produced := ps; consumed := cs |}
| consume_load b p ps cs :
    step {| buf := b; prod_pc := p; cons_pc := CChecked; produced := ps; consumed := cs |}
         {| buf := b; prod_pc := p; cons_pc := CLoaded (slot b (m_Read b));
            produced := ps; consumed := cs |}
| consume_release b p ps cs x :
    step {| buf := b; prod_pc := p; cons_pc := CLoaded x; produced := ps; consumed := cs |}
         {| buf := {| m_Data := m_Data b; m_Write := m_Write b; m_Read := next (m_Read b) |};
            prod_pc := p; cons_pc := CIdle; produced := ps; consumed := cs ++ [x] |}.

(** What holds in every reachable state. *)
Record spsc_inv (s : shared) : Prop := {
  inv_wf : wf (buf s);
  inv_fifo : produced s = consumed s ++ contents (buf s);
  inv_prod : match prod_pc s with
             | PIdle => True
             | PChecked _ => (length (contents (buf s)) < Z.to_nat (CAPACITY - 1))%nat
             | PStored v => (length (contents (buf s)) < Z.to_nat (CAPACITY - 1))%nat
                            /\ slot (buf s) (m_Write (buf s)) = v
             end;
  inv_cons : match cons_pc s with
             | CIdle => True
             | CChecked => contents (buf s) <> []
             | CLoaded x => exists l, contents (buf s) = x :: l
             end }.

Lemma not_full_length b :
  wf b -> next (m_Write b) <> m_Read b <->
  (length (contents b) < Z.to_nat (CAPACITY - 1))%nat.
Proof.
  intros Hb. rewrite contents_length. pose proof (distance_range b Hb).
  rewrite full_iff by done. lia.
Qed.

Lemma wf_advance_write b :
  wf b -> wf {| m_Data := m_Data b; m_Write := next (m_Write b); m_Read := m_Read b |}.
Proof.
  intros []. split; simpl; [done| |done]. rewrite next_cases by done. case_test; lia.
Qed.

Lemma wf_advance_read b :
  wf b -> wf {| m_Data := m_Data b; m_Write := m_Write b; m_Read := next (m_Read b) |}.
Proof.
  intros []. split; simpl; [done|done|]. rewrite next_cases by done. case_test; lia.
Qed.

Lemma wf_store_slot b v :
  wf b -> wf {| m_Data := <[Z.to_nat (m_Write b) := v]> (m_Data b);
                m_Write := m_Write b; m_Read := m_Read b |}.
Proof. intros []. split; simpl; [by rewrite length_insert|done|done]. Qed.

Lemma contents_nonempty b : wf b -> IsEmpty b = false -> contents b <> [].
Proof. intros Hb He Hc. apply (empty_iff b Hb) in Hc. congruence. Qed.

Lemma spsc_inv_start : spsc_inv start.
Proof.
  split; simpl; [apply Empty_wf| by rewrite Empty_contents | done | done].
Qed.

Lemma spsc_inv_produce s s' :
  step s s' -> prod_pc s <> prod_pc s' -> spsc_inv s -> spsc_inv s'.
Proof.
  intros Hstep Hp [Hwf Hf Hpc Hc]. destruct Hstep; simpl in *; try done.
  - split; simpl; [done|done| |done]. by apply not_full_length.
  - split; simpl; rewrite ?contents_spare_slot by done; try done.
    + by apply wf_store_slot.
    + split; [done|]. unfold slot; simpl. by apply slot_insert_eq; [|apply Hwf].
  - destruct Hpc as [Hlen <-].
    split; simpl; rewrite ?contents_publish by (done || by apply not_full_length).
    + by apply wf_advance_write.
    + by rewrite Hf, (assoc (++)).
    + done.
    + destruct c as [| |x]; [done| |].
      * by destruct (contents b).
      * destruct Hc as [l ->]. by eexists.
Qed.

Lemma spsc_inv_consume s s' :
  step s s' -> prod_pc s = prod_pc s' -> spsc_inv s -> spsc_inv s'.
Proof.
  intros Hstep Hp [Hwf Hf Hpc Hc]. destruct Hstep; simpl in *; try done.
  - split; simpl; try done. by apply contents_nonempty.
  - split; simpl; try done. destruct (contents b) as [|x l] eqn:E; [done|].
    apply contents_consume in E as [-> _]; [|done]. by exists l.
  - destruct Hc as [l Hl]. destruct (contents_consume b x l) as [_ Hl']; [done..|].
    split; simpl.
    + by apply wf_advance_read.
    + by rewrite Hl', Hf, Hl, <- (assoc (++)).
    + rewrite Hl'. rewrite Hl in Hpc. simpl in Hpc.
      destruct p; [done| lia | destruct Hpc; split; [lia|done]].
    + done.
Qed.

Lemma spsc_inv_step s s' : step s s' -> spsc_inv s -> spsc_inv s'.
Proof.
  intros Hstep. pose proof Hstep as Hstep'. destruct Hstep.
  1-3: apply spsc_inv_produce; [done | simpl; congruence].
  all: by apply spsc_inv_consume.
Qed.

Lemma spsc_reachable s : rtc step start s -> spsc_inv s.
Proof.
  apply (rtc_ind_r (R := step) spsc_inv start); [apply spsc_inv_start|].
  intros s1 s2 _. apply spsc_inv_step.
Qed.

(** ** Refinement to a bounded FIFO list *)

(** What the buffer promises: a FIFO of at most [CAPACITY - 1] values. *)
Definition fifo_produce (l : list T) (v : T) : bool * list T :=
  if decide (length l < Z.to_nat (CAPACITY - 1))%nat then (true, l ++ [v]) else (false, l).
Definition fifo_consume (l : list T) : option T * list T :=
  match l with [] => (None, []) | x :: l' => (Some x, l') end.

Lemma Produce_fifo b v : wf b ->
  wf (Produce b v).2 /\ fifo_produce (contents b) v = ((Produce b v).1, contents (Produce b v).2).
Proof.
  intros Hb. split.
  - unfold Produce. case_test; simpl; [done|].
    apply (wf_advance_write {| m_Data := _ |}), wf_store_slot, Hb.
  - unfold Produce, fifo_produce. case_test; simpl.
    + rewrite decide_False; [done|]. by intros ?%not_full_length.
    + rewrite decide_True by (by apply not_full_length). f_equal.
      pose proof (contents_publish _ (wf_store_slot b v Hb)) as E. simpl in E.
      rewrite E, contents_spare_slot by done. do 2 f_equal. symmetry.
      by apply slot_insert_eq; [|apply Hb].
Qed.

Lemma Consume_fifo b : wf b ->
  wf (Consume b).2 /\ fifo_consume (contents b) = ((Consume b).1, contents (Consume b).2).
Proof.
  intros Hb. split.
  - unfold Consume. destruct (IsEmpty b); simpl; [done|by apply wf_advance_read].
  - unfold Consume, fifo_consume. destruct (IsEmpty b) eqn:E; simpl.
    + apply empty_iff in E; [|done]. by rewrite E.
    + destruct (contents b) as [|x l] eqn:Ec; [by apply contents_nonempty in E|].
      apply contents_consume in Ec as [-> ->]; done.
Qed.

Lemma Consume_cases b : wf b ->
  match contents b with
  | [] => Consume b = (None, b)
  | x :: l => exists b', Consume b = (Some x, b') /\ wf b' /\ contents b' = l
  end.
Proof.
  intros Hb. destruct (Consume_fifo b Hb) as [Hw Hc].
  unfold fifo_consume in Hc. destruct (contents b) as [|x l] eqn:E.
  - unfold Consume in *. destruct (IsEmpty b); [done|]. by injection Hc.
  - destruct (Consume b) as [o b']. simpl in *. injection Hc as <- Hl. by exists b'.
Qed.

(** Every operation of [RingBuffer] keeps the indices and the array well formed
    and simulates the bounded FIFO list: [Produce] appends or, exactly when
    [CAPACITY - 1] values are buffered, refuses and changes nothing; [Consume]
    takes the oldest value or reports empty; [Count] and [IsEmpty] agree with
    the list. *)
Theorem ring_buffer_refines_fifo (b : t) (v : T) (Hb : wf b) :
  (wf (Produce b v).2 /\
   fifo_produce (contents b) v = ((Produce b v).1, contents (Produce b v).2)) /\
  (wf (Consume b).2 /\
   fifo_consume (contents b) = ((Consume b).1, contents (Consume b).2)) /\
  Count b = Z.of_nat (length (contents b)) /\
  (IsEmpty b = true <-> contents b = []).
Proof.
  split; [by apply Produce_fifo|]. split; [by apply Consume_fifo|]. split; [|by apply empty_iff].
  rewrite contents_length, Z2Nat.id by (by apply distance_range).
  pose proof (distance_range b Hb). unfold Count. rewrite (distance_cases b Hb) in *.
  destruct (_ <=? _); apply wrap_small; unfold is_word; lia.
Qed.

(** C40: With one producer and one consumer running concurrently, in every reachable
    interleaving the values the consumer has taken followed by the values still
    in the buffer are exactly the published values in order: nothing is lost,
    duplicated, reordered or torn. *)
Theorem ring_buffer_spsc_fifo (s : shared) (Hs : rtc step start s) :
  produced s = consumed s ++ contents (buf s) /\
  (length (contents (buf s)) <= Z.to_nat (CAPACITY - 1))%nat.
Proof.
  apply spsc_reachable in Hs as []. split; [done|].
  rewrite contents_length. pose proof (distance_range (buf s) inv_wf0). lia.
Qed.

End RingBuffer.
Arguments t : clear implicits.
End RingBuffer.

Lemma ring_buffer_refines_fifo_witness :
  let b := (RingBuffer.Produce 4 (RingBuffer.Empty (T := Z) 4) 7).2 in
  RingBuffer.fifo_consume (RingBuffer.contents 4 b) =
    ((RingBuffer.Consume 4 b).1, RingBuffer.contents 4 (RingBuffer.Consume 4 b).2)
  /\ (RingBuffer.Consume 4 b).1 = Some 7.
Proof.
  assert (H4 : 1 < 4 < 2 ^ 32) by lia.
  assert (Hw : RingBuffer.wf 4 (RingBuffer.Produce 4 (RingBuffer.Empty (T := Z) 4) 7).2)
    by (split; simpl; vm_compute; split; congruence || reflexivity).
  destruct (RingBuffer.ring_buffer_refines_fifo 4 H4 _ 0 Hw) as (_ & (_ & H) & _).
  split; [exact H | reflexivity].
Defined.

Lemma ring_buffer_spsc_fifo_witness :
  exists s : RingBuffer.shared (T := Z),
    RingBuffer.prod_pc s = RingBuffer.PStored 9 /\
    RingBuffer.produced s = RingBuffer.consumed s ++ RingBuffer.contents 4 (RingBuffer.buf s).
Proof.
  assert (H4 : 1 < 4 < 2 ^ 32) by lia.
  assert (Hs : exists s, rtc (RingBuffer.step 4) (RingBuffer.start 4) s /\
                         RingBuffer.prod_pc s = RingBuffer.PStored 9).
  { eexists. split.
    - eapply rtc_l; [apply (RingBuffer.produce_check 4 _ _ _ _ 9); vm_compute; congruence|].
      eapply rtc_l; [apply RingBuffer.produce_store|]. apply rtc_refl.
    - reflexivity. }
  destruct Hs as (s & Hs & Hp). exists s. split; [exact Hp|].
  exact (proj1 (RingBuffer.ring_buffer_spsc_fifo 4 H4 s Hs)).
Defined.
