(* ===== verification/Queue.v ===== *)
(** * Lib/Queue.h

    The intrusive FIFO that carries the ready queue, the waiters of a semaphore
    and the bells of the Bellringer.  The link of an element lives in the element,
    so the operations act on a store of links shared by every queue. *)

From S2P Require Import Prelude.

Module Queue.

(** Elements are named by their address; 0 is the null pointer. *)
Definition links := Z -> Z.
Definition set_link (L : links) (x v : Z) : links := fun y => if y =? x then v else L y.

Record t := { m_Head : Z; m_Tail : Z }.
Definition Empty : t := {| m_Head := 0; m_Tail := 0 |}.

Definition IsEmpty (q : t) : bool := m_Head q =? 0.
Definition First (q : t) : Z := m_Head q.
Definition Last (q : t) : Z := m_Tail q.
Definition Next (L : links) (x : Z) : Z := L x.

Definition Contains (L : links) (q : t) (x : Z) : bool :=
  negb (m_Head q =? 0) && (negb (L x =? 0) || (m_Tail q =? x)).

Definition Append (L : links) (q : t) (x : Z) : bool * links * t :=
  if Contains L q x then (false, L, q)
  else
    let L1 := set_link L x 0 in
    if m_Head q =? 0 then (true, L1, {| m_Head := x; m_Tail := x |})
    else (true, set_link L1 (m_Tail q) x, {| m_Head := m_Head q; m_Tail := x |}).

Definition Prepend (L : links) (q : t) (x : Z) : bool * links * t :=
  if Contains L q x then (false, L, q)
  else (true, set_link L x (m_Head q),
        {| m_Head := x; m_Tail := if m_Tail q =? 0 then x else m_Tail q |}).

Definition InsertAfter (L : links) (q : t) (after x : Z) : bool * links * t :=
  if negb (Contains L q after) || Contains L q x then (false, L, q)
  else if after =? m_Tail q then Append L q x
  else (true, set_link (set_link L x (L after)) after x, q).

Definition Dequeue (L : links) (q : t) : Z * links * t :=
  let item := m_Head q in
  if item =? 0 then (0, L, q)
  else
    let head := L item in
    (item, set_link L item 0,
     {| m_Head := head; m_Tail := if head =? 0 then 0 else m_Tail q |}).

(** The search of [Remove], starting at [current]. *)
Fixpoint Remove_loop (fuel : nat) (L : links) (q : t) (current x : Z)
    : outcome (bool * links * t) :=
  match fuel with
  | O => Diverges
  | S k =>
      if current =? 0 then Ok (false, L, q)
      else if L current =? x then
        Ok (true, set_link (set_link L current (L x)) x 0,
            {| m_Head := m_Head q; m_Tail := if m_Tail q =? x then current else m_Tail q |})
      else Remove_loop k L q (L current) x
  end.

Definition Remove (fuel : nat) (L : links) (q : t) (x : Z) : outcome (bool * links * t) :=
  if negb (Contains L q x) then Ok (false, L, q)
  else if m_Head q =? x then
    let '(_, L', q') := Dequeue L q in Ok (true, L', q')
  else Remove_loop fuel L q (m_Head q) x.

(** ** Representation *)

(** [chain L h l]: following the links from [h] visits exactly [l]. *)
Fixpoint chain (L : links) (h : Z) (l : list Z) : Prop :=
  match l with
  | [] => h = 0
  | x :: l' => h = x /\ x <> 0 /\ chain L (L x) l'
  end.

Record rep (L : links) (q : t) (l : list Z) : Prop := {
  rep_chain : chain L (m_Head q) l;
  rep_tail : m_Tail q = default 0 (last l);
  rep_nodup : NoDup l }.

(** [x] is linked into no queue: a null link, and not the end of [l]. *)
Definition unlinked (L : links) (l : list Z) (x : Z) : Prop :=
  x <> 0 /\ L x = 0 /\ x ∉ l.

Lemma set_link_same L x v : set_link L x v x = v.
Proof. unfold set_link. by rewrite Z.eqb_refl. Qed.

Lemma set_link_ne L x v y : y <> x -> set_link L x v y = L y.
Proof. intros ?. unfold set_link. by case_test. Qed.

Lemma chain_ext L L' h l :
  (forall y, y ∈ l -> L' y = L y) -> chain L h l -> chain L' h l.
Proof.
  revert h; induction l as [|x l IH]; intros h H; simpl; [done|].
  intros (-> & Hx & Hc). split_and!; [done|done|].
  rewrite (H x) by set_solver. apply IH; [set_solver|done].
Qed.

Lemma chain_set_link L h l x v : x ∉ l -> chain L h l -> chain (set_link L x v) h l.
Proof.
  intros Hx. apply chain_ext. intros y Hy. apply set_link_ne. set_solver.
Qed.

Lemma chain_nonzero L h l x : chain L h l -> x ∈ l -> x <> 0.
Proof.
  revert h; induction l as [|y l IH]; intros h; simpl; [set_solver|].
  intros (-> & Hy & Hc) [->|Hx]%elem_of_cons; [done|by eapply IH].
Qed.

(** Appending behind the last element of a chain. *)
Lemma chain_snoc L h l y x :
  chain L h (l ++ [y]) -> NoDup (l ++ [y]) -> x <> 0 -> x ∉ l ++ [y] ->
  chain (set_link (set_link L x 0) y x) h ((l ++ [y]) ++ [x]).
Proof.
  revert h; induction l as [|z l IH]; intros h Hc Hn Hx0 Hx.
  - destruct Hc as (-> & Hy & _). simpl.
    rewrite set_link_same, set_link_ne, set_link_same by set_solver. done.
  - destruct Hc as (-> & Hz & Hc). apply NoDup_cons in Hn as [Hz' Hn].
    rewrite <- app_comm_cons. rewrite <- app_comm_cons. simpl. split_and!; [done..|].
    rewrite !set_link_ne by set_solver. apply IH; [done|done|done|set_solver].
Qed.

Lemma rep_Empty L : rep L Empty [].
Proof. split; [done|done|constructor]. Qed.

Lemma rep_ext L L' q l : (forall y, y ∈ l -> L' y = L y) -> rep L q l -> rep L' q l.
Proof. intros H []. split; [by eapply chain_ext|done|done]. Qed.

Lemma rep_empty_head L q l : rep L q l -> (m_Head q = 0 <-> l = []).
Proof.
  intros [Hc _ _]. destruct l as [|x l]; simpl in Hc; [done|].
  destruct Hc as (-> & Hx & _). split; [done|discriminate].
Qed.

(** The link of an element is null exactly when it is the last one. *)
Lemma chain_link L h l1 x l2 :
  chain L h (l1 ++ x :: l2) -> L x = default 0 (head l2) /\ chain L x (x :: l2).
Proof.
  revert h; induction l1 as [|y l1 IH]; intros h; simpl.
  - intros (-> & Hx & Hc). split; [|done].
    destruct l2 as [|z l2]; simpl in *; [done|by destruct Hc].
  - intros (-> & Hy & Hc). by eapply IH.
Qed.

Lemma Contains_member L q l x : rep L q l -> x ∈ l -> Contains L q x = true.
Proof.
  intros Hr Hx. pose proof (rep_empty_head _ _ _ Hr) as Hh. destruct Hr as [Hc Ht Hn].
  apply list_elem_of_split in Hx as (l1 & l2 & ->).
  assert (m_Head q <> 0) by (rewrite Hh; destruct l1; discriminate).
  apply chain_link in Hc as [HL Hc]. unfold Contains.
  destruct l2 as [|z l2]; simpl in HL.
  - rewrite last_app in Ht. simpl in Ht. rewrite Ht, Z.eqb_refl. case_test. btauto.
  - destruct Hc as (_ & _ & _ & Hz & _). rewrite HL. repeat case_test; done.
Qed.

Lemma Contains_unlinked L q l x : rep L q l -> unlinked L l x -> Contains L q x = false.
Proof.
  intros Hr (Hx & HL & Hl). unfold Contains. rewrite HL. simpl.
  destruct (Z.eqb_spec (m_Tail q) x) as [E|E]; [|btauto].
  destruct Hr as [Hc Ht _]. destruct l as [|y l].
  - simpl in Hc. by rewrite Hc.
  - exfalso. apply Hl. rewrite <- E, Ht.
    destruct (last (y :: l)) as [z|] eqn:Ez; [|by apply last_None in Ez].
    simpl. by apply last_Some_elem_of.
Qed.

(** ** The operations on the represented list

    Each lemma also says that links of other elements are untouched, which is
    what lets several queues share one store. *)

Definition same_links_off (L L' : links) (l : list Z) : Prop :=
  forall y, y ∉ l -> L' y = L y.

Lemma Append_unlinked L q l x :
  rep L q l -> unlinked L l x ->
  exists L' q', Append L q x = (true, L', q') /\ rep L' q' (l ++ [x]) /\
                L' x = 0 /\ same_links_off L L' (x :: l).
Proof.
  intros Hr Hu. unfold Append. rewrite (Contains_unlinked _ _ l) by done.
  pose proof (rep_empty_head _ _ _ Hr) as Hh. destruct Hu as (Hx & HL & Hl).
  destruct Hr as [Hc Ht Hn]. case_test.
  - destruct Hh as [Hh _]. rewrite Hh in * by done.
    eexists _, _. split; [done|]. rewrite set_link_same. split_and!; [|done|].
    + split; simpl; [|done|by apply NoDup_singleton]. rewrite set_link_same. done.
    + intros y Hy. apply set_link_ne. set_solver.
  - destruct l as [|z l] using rev_ind; [by destruct Hh as [_ ->]|]. clear IHl.
    rewrite last_snoc in Ht. simpl in Ht. rewrite Ht.
    eexists _, _. split; [done|]. split_and!.
    + split; simpl; [by apply chain_snoc | by rewrite last_snoc |].
      apply NoDup_app. split_and!; [done|set_solver|apply NoDup_singleton].
    + rewrite set_link_ne, set_link_same by set_solver. done.
    + intros y Hy. rewrite !set_link_ne by set_solver. done.
Qed.

Lemma Append_member L q l x : rep L q l -> x ∈ l -> Append L q x = (false, L, q).
Proof. intros Hr Hx. unfold Append. by rewrite (Contains_member _ _ l). Qed.

Lemma Prepend_unlinked L q l x :
  rep L q l -> unlinked L l x ->
  exists L' q', Prepend L q x = (true, L', q') /\ rep L' q' (x :: l) /\
                same_links_off L L' [x].
Proof.
  intros Hr Hu. unfold Prepend. rewrite (Contains_unlinked _ _ l) by done.
  pose proof (rep_empty_head _ _ _ Hr) as Hh. destruct Hu as (Hx & HL & Hl).
  destruct Hr as [Hc Ht Hn]. eexists _, _. split; [done|]. split_and!.
  - split; simpl.
    + split_and!; [done|done|]. rewrite set_link_same. by apply chain_set_link.
    + rewrite Ht. destruct l as [|z l]; [done|]. rewrite last_cons_cons.
      destruct (last (z :: l)) as [w|] eqn:E; [|by apply last_None in E]. simpl.
      assert (w <> 0) by (eapply chain_nonzero; [done|by apply last_Some_elem_of]).
      by case_test.
    + by apply NoDup_cons.
  - intros y Hy. apply set_link_ne. set_solver.
Qed.

Lemma chain_insert L h l1 y l2 x :
  chain L h (l1 ++ y :: l2) -> NoDup (l1 ++ y :: l2) -> x <> 0 -> x ∉ l1 ++ y :: l2 ->
  chain (set_link (set_link L x (L y)) y x) h (l1 ++ y :: x :: l2).
Proof.
  revert h; induction l1 as [|z l1 IH]; intros h Hc Hn Hx0 Hx; simpl in *.
  - destruct Hc as (-> & Hy & Hc). apply NoDup_cons in Hn as [Hy' Hn].
    rewrite set_link_same, set_link_ne, set_link_same by set_solver.
    split_and!; [done..|]. apply chain_set_link; [done|]. apply chain_set_link; set_solver.
  - destruct Hc as (-> & Hz & Hc). apply NoDup_cons in Hn as [Hz' Hn].
    split_and!; [done..|]. rewrite !set_link_ne by set_solver.
    apply IH; [done|done|done|set_solver].
Qed.

Lemma NoDup_insert (l1 l2 : list Z) y x :
  NoDup (l1 ++ y :: l2) -> x ∉ l1 ++ y :: l2 -> NoDup (l1 ++ y :: x :: l2).
Proof.
  intros Hn Hx. assert (l1 ++ y :: x :: l2 ≡ₚ x :: l1 ++ y :: l2) as ->; [|by apply NoDup_cons].
  rewrite (Permutation_middle l1 (y :: l2) x). apply Permutation_app_head. constructor.
Qed.

Lemma InsertAfter_unlinked L q l1 y l2 x :
  rep L q (l1 ++ y :: l2) -> unlinked L (l1 ++ y :: l2) x ->
  exists L' q', InsertAfter L q y x = (true, L', q') /\ rep L' q' (l1 ++ y :: x :: l2) /\
                same_links_off L L' (x :: l1 ++ y :: l2).
Proof.
  intros Hr Hu. unfold InsertAfter.
  rewrite (Contains_member _ _ _ y Hr), (Contains_unlinked _ _ _ x Hr Hu) by set_solver.
  simpl. case_test.
  - destruct (Append_unlinked _ _ _ _ Hr Hu) as (L' & q' & HA & Hr' & _ & Ho).
    exists L', q'. split; [done|]. assert (l2 = []) as ->.
    { destruct Hr as [_ Ht Hn]. destruct l2 as [|z l2] using rev_ind; [done|]. exfalso.
      rewrite app_comm_cons, (assoc (++)), last_snoc in Ht. simpl in Ht.
      apply NoDup_app in Hn as (_ & _ & Hn). apply NoDup_cons in Hn as [Hn _].
      apply Hn. set_solver. }
    split; [|done]. by rewrite <- (assoc (++)) in Hr'.
  - destruct Hu as (Hx & HL & Hl). destruct Hr as [Hc Ht Hn].
    eexists _, _. split; [done|]. split_and!.
    + split; [by apply chain_insert| |by apply NoDup_insert].
      rewrite Ht. rewrite !last_app. destruct l2 as [|z l2]; [|done].
      exfalso. rewrite last_snoc in Ht. simpl in Ht. congruence.
    + intros z Hz. rewrite !set_link_ne by set_solver. done.
Qed.

Lemma Dequeue_cons L q x l :
  rep L q (x :: l) ->
  exists L' q', Dequeue L q = (x, L', q') /\ rep L' q' l /\
                L' x = 0 /\ same_links_off L L' [x].
Proof.
  intros [Hc Ht Hn]. destruct Hc as (Hh & Hx & Hc). apply NoDup_cons in Hn as [Hx' Hn].
  unfold Dequeue. rewrite Hh. case_test. eexists _, _. split; [done|]. split_and!.
  - split; simpl; [by apply chain_set_link| |done]. rewrite Ht.
    destruct l as [|y l]; simpl in Hc.
    + by rewrite Hc.
    + destruct Hc as (-> & Hy & _). by case_test.
  - apply set_link_same.
  - intros y Hy. apply set_link_ne. set_solver.
Qed.

Lemma Dequeue_nil L q : rep L q [] -> Dequeue L q = (0, L, q).
Proof. intros [Hc _ _]. unfold Dequeue. simpl in Hc. by rewrite Hc. Qed.

Lemma chain_delete L h l1 z x l2 :
  chain L h (l1 ++ z :: x :: l2) -> NoDup (l1 ++ z :: x :: l2) ->
  chain (set_link (set_link L z (L x)) x 0) h (l1 ++ z :: l2).
Proof.
  revert h; induction l1 as [|w l1 IH]; intros h Hc Hn; simpl in *.
  - destruct Hc as (-> & Hz & _ & Hx & Hc).
    apply NoDup_cons in Hn as [Hz' [Hx' Hn]%NoDup_cons].
    split_and!; [done..|]. rewrite set_link_ne, set_link_same by set_solver.
    apply chain_set_link; [done|]. apply chain_set_link; set_solver.
  - destruct Hc as (-> & Hw & Hc). apply NoDup_cons in Hn as [Hw' Hn].
    split_and!; [done..|]. rewrite !set_link_ne by set_solver. by apply IH.
Qed.

Lemma Remove_loop_found fuel L q l0 l1 z x l2 c :
  chain L c (l1 ++ z :: x :: l2) -> NoDup (l0 ++ l1 ++ z :: x :: l2) ->
  (length l1 < fuel)%nat ->
  Remove_loop fuel L q c x =
    Ok (true, set_link (set_link L z (L x)) x 0,
        {| m_Head := m_Head q; m_Tail := if m_Tail q =? x then z else m_Tail q |}).
Proof.
  revert l0 l1 c; induction fuel as [|k IH]; intros l0 l1 c Hc Hn Hf; [lia|].
  destruct l1 as [|w l1].
  - destruct Hc as (-> & Hz & HL & Hx & Hc). simpl. case_test. by rewrite HL, Z.eqb_refl.
  - destruct Hc as (-> & Hw & Hc). simpl. case_test.
    assert (L w <> x) as HLx.
    { apply NoDup_app in Hn as (_ & _ & [_ Hn]%NoDup_cons). intros E.
      destruct l1 as [|v l1]; destruct Hc as (Hv & _); rewrite E in Hv; subst.
      - apply NoDup_cons in Hn as [Hn _]. set_solver.
      - apply NoDup_cons in Hn as [Hn _]. set_solver. }
    destruct (Z.eqb_spec (L w) x); [done|].
    apply (IH (l0 ++ [w]) l1); [done| |simpl in Hf; lia]. by rewrite <- (assoc (++)).
Qed.

Lemma Remove_member fuel L q l1 x l2 :
  rep L q (l1 ++ x :: l2) -> (length l1 <= fuel)%nat ->
  exists L' q', Remove fuel L q x = Ok (true, L', q') /\ rep L' q' (l1 ++ l2) /\
                L' x = 0 /\ same_links_off L L' (l1 ++ x :: l2).
Proof.
  intros Hr Hf. unfold Remove. rewrite (Contains_member _ _ _ x Hr) by set_solver. simpl.
  destruct l1 as [|z l1] using rev_ind; [|clear IHl1].
  - destruct (Dequeue_cons _ _ _ _ Hr) as (L' & q' & HD & Hr' & HL & Ho).
    destruct Hr as [[-> _] _ _]. rewrite Z.eqb_refl, HD. exists L', q'.
    split_and!; [done|done|done|]. intros y Hy. apply Ho. set_solver.
  - rewrite <- app_assoc in Hr. rewrite <- !app_assoc. simpl in *.
    pose proof Hr as [Hc Ht Hn]. assert (Hzx : z <> x).
    { intros ->. apply NoDup_app in Hn as (_ & _ & [Hn _]%NoDup_cons). set_solver. }
    assert (Hx1 : x ∉ l1).
    { apply NoDup_app in Hn as (_ & Hn & _). intros Hx. apply (Hn x Hx). set_solver. }
    destruct (Z.eqb_spec (m_Head q) x) as [E|E].
    { exfalso. destruct l1; destruct Hc as (Hh & _); subst; set_solver. }
    rewrite length_app in Hf. simpl in Hf.
    rewrite (Remove_loop_found fuel L q [] l1 z x l2) by (done || lia).
    eexists _, _. split; [done|]. split_and!.
    + split; [by apply chain_delete| |].
      * simpl. rewrite Ht, last_app, (last_app l1). simpl.
        destruct l2 as [|w l2]; simpl; [by rewrite Z.eqb_refl|].
        destruct (last (w :: l2)) as [v|] eqn:Ev; [|by apply last_None in Ev]. simpl.
        destruct (Z.eqb_spec v x) as [->|]; [|done]. exfalso.
        apply last_Some_elem_of in Ev. apply NoDup_app in Hn as (_ & _ & Hn).
        apply NoDup_cons in Hn as [_ [Hn _]%NoDup_cons]. done.
      * apply NoDup_app in Hn as (Hn1 & Hd & Hn2). apply NoDup_app. split_and!; [done| |].
        -- intros y Hy. specialize (Hd y Hy). set_solver.
        -- apply NoDup_cons in Hn2 as [Hz [_ Hn2]%NoDup_cons]. apply NoDup_cons.
           split; [set_solver|done].
    + apply set_link_same.
    + intros y Hy. rewrite !set_link_ne by set_solver. done.
Qed.

Lemma Remove_unlinked fuel L q l x :
  rep L q l -> unlinked L l x -> Remove fuel L q x = Ok (false, L, q).
Proof. intros Hr Hu. unfold Remove. by rewrite (Contains_unlinked _ _ l). Qed.

(** An element of another queue may look contained; the search then runs through this
    queue and finds nothing. *)
Lemma Remove_loop_absent fuel L q l x c :
  chain L c l -> x <> 0 -> x ∉ tail l -> (length l < fuel)%nat ->
  Remove_loop fuel L q c x = Ok (false, L, q).
Proof.
  revert l c; induction fuel as [|k IH]; intros l c Hc Hx Hl Hf; [lia|].
  destruct l as [|y l]; simpl in *; [by rewrite Hc|].
  destruct Hc as (-> & Hy & Hc). case_test.
  destruct (Z.eqb_spec (L y) x) as [E|E].
  - exfalso. destruct l as [|z l]; simpl in Hc; [congruence|]. destruct Hc as (Hz & _).
    apply Hl. rewrite <- E, Hz. set_solver.
  - apply (IH l); [done|done| |lia]. destruct l; [done|]. simpl. set_solver.
Qed.

Lemma Remove_absent fuel L q l x :
  rep L q l -> x <> 0 -> x ∉ l -> (length l < fuel)%nat ->
  Remove fuel L q x = Ok (false, L, q).
Proof.
  intros [Hc Ht Hn] Hx Hl Hf. unfold Remove. destruct (Contains L q x); [|done]. simpl.
  destruct (Z.eqb_spec (m_Head q) x) as [E|E].
  - exfalso. destruct l as [|y l]; simpl in Hc; [congruence|]. destruct Hc as (Hy & _).
    apply Hl. rewrite <- E, Hy. set_solver.
  - apply (Remove_loop_absent fuel L q l); [done|done| |done].
    destruct l; [done|]. simpl. set_solver.
Qed.

End Queue.

(** ** Properties of Lib/Queue.h *)

(** On a queue that represents the list [l], every operation is the
    corresponding list operation, for an element that is in no queue:
    [Append] and [Prepend] add it at the back and at the front, [InsertAfter]
    directly behind its anchor, [Dequeue] takes the front, [Remove] (which
    terminates after at most [length l] link reads) deletes one element, and a
    second [Append] of a queued element is refused without any change.  Links
    outside the queue are never touched. *)
Theorem queue_refines_list (L : Queue.links) (q : Queue.t) (l : list Z)
    (Hr : Queue.rep L q l) :
  (forall x, Queue.unlinked L l x -> exists L' q',
     Queue.Append L q x = (true, L', q') /\ Queue.rep L' q' (l ++ [x]) /\
     Queue.same_links_off L L' (x :: l)) /\
  (forall x, Queue.unlinked L l x -> exists L' q',
     Queue.Prepend L q x = (true, L', q') /\ Queue.rep L' q' (x :: l) /\
     Queue.same_links_off L L' (x :: l)) /\
  (forall l1 y l2 x, l = l1 ++ y :: l2 -> Queue.unlinked L l x -> exists L' q',
     Queue.InsertAfter L q y x = (true, L', q') /\ Queue.rep L' q' (l1 ++ y :: x :: l2) /\
     Queue.same_links_off L L' (x :: l)) /\
  (exists L' q', Queue.Dequeue L q = (default 0 (head l), L', q') /\
     Queue.rep L' q' (tail l) /\ Queue.same_links_off L L' l) /\
  (forall l1 x l2, l = l1 ++ x :: l2 -> exists L' q',
     Queue.Remove (length l) L q x = Ok (true, L', q') /\ Queue.rep L' q' (l1 ++ l2) /\
     L' x = 0 /\ Queue.same_links_off L L' l) /\
  (forall x, x ∈ l -> Queue.Append L q x = (false, L, q)).
Proof.
  split_and!.
  - intros x Hx. destruct (Queue.Append_unlinked _ _ _ _ Hr Hx) as (L' & q' & ? & ? & ? & ?).
    by exists L', q'.
  - intros x Hx. destruct (Queue.Prepend_unlinked _ _ _ _ Hr Hx) as (L' & q' & ? & ? & Ho).
    exists L', q'. split_and!; [done|done|]. intros y Hy. apply Ho. set_solver.
  - intros l1 y l2 x -> Hx. by apply Queue.InsertAfter_unlinked.
  - destruct l as [|x l].
    + exists L, q. rewrite Queue.Dequeue_nil by done. by split_and!.
    + destruct (Queue.Dequeue_cons _ _ _ _ Hr) as (L' & q' & ? & ? & ? & Ho).
      exists L', q'. split_and!; [done|done|]. intros y Hy. apply Ho. set_solver.
  - intros l1 x l2 ->. apply Queue.Remove_member; [done|]. rewrite length_app. lia.
  - intros x Hx. by apply (Queue.Append_member _ _ l).
Qed.

Lemma queue_refines_list_witness :
  let L1 := (Queue.Append (fun _ => 0) Queue.Empty 16).1.2 in
  let q1 := (Queue.Append (fun _ => 0) Queue.Empty 16).2 in
  Queue.rep L1 q1 [16] /\ Queue.Append L1 q1 16 = (false, L1, q1).
Proof.
  assert (H : Queue.rep (Queue.Append (fun _ => 0) Queue.Empty 16).1.2
                        (Queue.Append (fun _ => 0) Queue.Empty 16).2 [16]).
  { split; simpl; [done | done | apply NoDup_singleton]. }
  split; [exact H|].
  destruct (queue_refines_list _ _ _ H) as (_ & _ & _ & _ & _ & Hm).
  apply Hm. set_solver.
Defined.

(** [Contains] decides membership only for elements that are in no other
    queue: an element that another queue holds in front of its last one is
    reported as contained in every non-empty queue, and [Append] then refuses it
    although it "is already queued here" is false. *)
Theorem queue_contains_misses_other_queues (L : Queue.links) (qa qb : Queue.t)
    (la lb : list Z) (x y : Z)
    (Ha : Queue.rep L qa la) (Hne : la <> []) (Hb : Queue.rep L qb (x :: y :: lb)) :
  Queue.Contains L qa x = true /\ Queue.Append L qa x = (false, L, qa).
Proof.
  assert (Queue.Contains L qa x = true) as HC.
  { pose proof (Queue.rep_empty_head _ _ _ Ha). destruct Hb as [(_ & _ & HL & Hy & _) _ _].
    unfold Queue.Contains. rewrite HL. repeat case_test; intuition. }
  split; [done|]. unfold Queue.Append. by rewrite HC.
Qed.

Lemma queue_contains_misses_other_queues_witness :
  let L := Queue.set_link (fun _ => 0) 16 32 in
  let qa := {| Queue.m_Head := 48; Queue.m_Tail := 48 |} in
  Queue.Contains L qa 16 = true /\ Queue.Append L qa 16 = (false, L, qa).
Proof.
  apply (queue_contains_misses_other_queues (Queue.set_link (fun _ => 0) 16 32)
    {| Queue.m_Head := 48; Queue.m_Tail := 48 |}
    {| Queue.m_Head := 16; Queue.m_Tail := 32 |} [48] [] 16 32).
  - split; [by vm_compute | done | apply NoDup_singleton].
  - done.
  - split; [by vm_compute | done |].
    apply NoDup_cons; split; [set_solver | apply NoDup_singleton].
Defined.
