(* ===== verification/Config.v ===== *)
(** * Types.h, Config.h, Lib/Math.h and the boot information interface

    The constants every component shares, the arithmetic helpers of
    [namespace Math], and the interface through which the memory components see
    the boot loader's handover: lists of memory regions, of the loader's own
    structures and of modules, as Boot/Multiboot.h enumerates them. *)

From S2P Require Import Prelude.

Definition KIB : Z := 1024.
Definition MIB : Z := 1024 * KIB.
Definition GIB : Z := 1024 * MIB.

Definition UINT32_MAX : Z := 2 ^ 32 - 1.
Definition SIZE_MAX : Z := 2 ^ 64 - 1.

Module Config.
Definition MAX_CORES : Z := 8.
Definition BOOT_STACK_SIZE : Z := 16 * KIB.
Definition IST_STACK_SIZE : Z := 8 * KIB.
Definition THREAD_STACK_SIZE : Z := 16 * KIB.
Definition KERNEL_STACK_BASE : Z := 0xFFFFC00000000000.
Definition SCHEDULER_TICK_MS : Z := 10.
Definition HEAP_LOG2 : Z := 24.
Definition KERNEL_VMA : Z := 0xFFFFFFFF80000000.
Definition DIRECT_MAP_BASE : Z := 0xFFFF800000000000.
Definition IDENTITY_MAPPED_LIMIT : Z := 4 * GIB.
Definition AP_TRAMPOLINE_ADDRESS : Z := 0x40000.
Definition EPILOGUE_QUEUE_SIZE : Z := 64.
Definition KEY_BUFFER_SIZE : Z := 32.
End Config.

(** [namespace Math], at [uint64_t]. *)
Module Math.
Definition Min (InLeft InRight : Z) : Z := if InRight <? InLeft then InRight else InLeft.
Definition Max (InLeft InRight : Z) : Z := if InRight <? InLeft then InLeft else InRight.
Definition AlignUp (InValue InAlignment : Z) : Z :=
  ((InValue +64 InAlignment -64 1) / InAlignment) *64 InAlignment.
Definition AlignDown (InValue InAlignment : Z) : Z :=
  (InValue / InAlignment) *64 InAlignment.

Lemma Min_min a b : Min a b = Z.min a b.
Proof. unfold Min. case_test; lia. Qed.

Lemma Max_max a b : Max a b = Z.max a b.
Proof. unfold Max. case_test; lia. Qed.
End Math.

(** Boot/Multiboot.h: the values of [MemoryType], and the records handed out. *)
Module Multiboot.
Definition AVAILABLE : Z := 1.
Definition RESERVED : Z := 2.
Definition ACPI_RECLAIMABLE : Z := 3.
Definition ACPI_NON_VOLATILE : Z := 4.
Definition BAD : Z := 5.

Record MemoryRegion := { Address : Z; Length : Z; Type_ : Z }.
Definition RegionEnd (r : MemoryRegion) : Z := Address r +64 Length r.

Record Module_ := { Start : Z; End_ : Z; CommandLine : Z }.
Definition ModuleSize (m : Module_) : Z := End_ m -64 Start m.
End Multiboot.

(** What the memory components consume of the boot loader: the sequences that
    [GetMemoryRegion], [GetInfoRegion] and [GetModule] enumerate by index until
    they answer [false], and the linker's kernel image bounds. *)
Class BootInfo := {
  memory_regions : list Multiboot.MemoryRegion;
  info_regions : list Multiboot.MemoryRegion;
  modules : list Multiboot.Module_;
  BOOT_START : Z;    (* &___BOOT_START___ *)
  KERNEL_END : Z;    (* &___KERNEL_END___, in the higher half *)
}.

(** Firmware and loader hand over ranges of physical memory: they do not wrap
    around and lie below the 52 bits a physical address has at most. *)
Class BootInfoSane `{BootInfo} : Prop := {
  sane_region r : r ∈ memory_regions ->
    0 <= Multiboot.Address r /\ 0 <= Multiboot.Length r /\
    Multiboot.Address r + Multiboot.Length r <= 2 ^ 52;
  sane_info r : r ∈ info_regions ->
    0 <= Multiboot.Address r /\ 0 <= Multiboot.Length r /\
    Multiboot.Address r + Multiboot.Length r <= 2 ^ 52;
  sane_module m : m ∈ modules ->
    0 <= Multiboot.Start m /\ 0 <= Multiboot.End_ m <= 2 ^ 52;
  sane_kernel : 0 <= BOOT_START /\
    Config.KERNEL_VMA <= KERNEL_END < 2 ^ 64 /\ BOOT_START <= KERNEL_END - Config.KERNEL_VMA
}.
