(* ===== verification/Frame.v ===== *)
(** * Memory/Frame.cpp: the physical frame allocator

    One bit per frame in an array of 64-bit words, set while the frame must not
    be handed out.  [Module Frame] holds the state and the operations; the
    invariant [wf] relates the bitmap to the counters and to the set of usable
    frames; the properties at the end state what callers rely on.  The critical
    sections (interrupts off, spinlock held) make each operation atomic, so the
    operations are modelled as functions on the state. *)

From S2P Require Import Prelude Config.

Module Frame.

Definition SIZE : Z := 4 * KIB.
Definition BITS_PER_WORD : Z := 64.
Definition ALL_TAKEN : Z := ~64 0.
Definition NOT_FOUND : Z := SIZE_MAX.

Record t := {
  s_Taken : list Z;
  s_WordCount : Z;
  s_FrameCount : Z;
  s_ReachableFrames : Z;
  s_TotalFrames : Z;
  s_FreeFrames : Z;
  s_NextIndex : Z }.

Definition with_taken (s : t) (w : list Z) : t :=
  {| s_Taken := w; s_WordCount := s_WordCount s; s_FrameCount := s_FrameCount s;
     s_ReachableFrames := s_ReachableFrames s; s_TotalFrames := s_TotalFrames s;
     s_FreeFrames := s_FreeFrames s; s_NextIndex := s_NextIndex s |}.
Definition with_counts (s : t) (total free : Z) : t :=
  {| s_Taken := s_Taken s; s_WordCount := s_WordCount s; s_FrameCount := s_FrameCount s;
     s_ReachableFrames := s_ReachableFrames s; s_TotalFrames := total;
     s_FreeFrames := free; s_NextIndex := s_NextIndex s |}.
Definition with_next (s : t) (next : Z) : t :=
  {| s_Taken := s_Taken s; s_WordCount := s_WordCount s; s_FrameCount := s_FrameCount s;
     s_ReachableFrames := s_ReachableFrames s; s_TotalFrames := s_TotalFrames s;
     s_FreeFrames := s_FreeFrames s; s_NextIndex := next |}.
Definition with_reachable (s : t) (r : Z) : t :=
  {| s_Taken := s_Taken s; s_WordCount := s_WordCount s; s_FrameCount := s_FrameCount s;
     s_ReachableFrames := r; s_TotalFrames := s_TotalFrames s;
     s_FreeFrames := s_FreeFrames s; s_NextIndex := s_NextIndex s |}.

(** [s_Taken[i]]; outside the array the access is undefined. *)
Definition word (s : t) (i : Z) : outcome Z :=
  match s_Taken s !! Z.to_nat i with Some w => Ok w | None => Fault "s_Taken" end.

Definition mask (InIndex : Z) : Z := 1 <<64 (InIndex mod BITS_PER_WORD).

Definition IsTaken (s : t) (InIndex : Z) : outcome bool :=
  let* w := word s (InIndex / BITS_PER_WORD) in
  Ok (negb (Z.land w (mask InIndex) =? 0)).

Definition Take (s : t) (InIndex : Z) : outcome t :=
  let* w := word s (InIndex / BITS_PER_WORD) in
  Ok (with_taken s (<[Z.to_nat (InIndex / BITS_PER_WORD) := Z.lor w (mask InIndex)]> (s_Taken s))).

Definition Release (s : t) (InIndex : Z) : outcome t :=
  let* w := word s (InIndex / BITS_PER_WORD) in
  Ok (with_taken s (<[Z.to_nat (InIndex / BITS_PER_WORD) := Z.land w (~64 (mask InIndex))]> (s_Taken s))).

(** [n] is the number of iterations left of [for (index = first; index < last; ...)]. *)
Fixpoint Add_loop (n : nat) (index : Z) (s : t) : outcome t :=
  match n with
  | O => Ok s
  | S k =>
      let* taken := IsTaken s index in
      if taken then
        let* s1 := Release s index in
        Add_loop k (index + 1) (with_counts s1 (s_TotalFrames s1 +64 1) (s_FreeFrames s1 +64 1))
      else Add_loop k (index + 1) s
  end.

Definition Add (InStart InEnd : Z) (s : t) : outcome t :=
  let first := (InStart +64 SIZE -64 1) / SIZE in
  let last := Math.Min (InEnd / SIZE) (s_FrameCount s) in
  Add_loop (Z.to_nat (last - first)) first s.

Fixpoint Reserve_loop (n : nat) (index : Z) (s : t) : outcome t :=
  match n with
  | O => Ok s
  | S k =>
      let* taken := IsTaken s index in
      if negb taken then
        let* s1 := Take s index in
        Reserve_loop k (index + 1) (with_counts s1 (s_TotalFrames s1) (s_FreeFrames s1 -64 1))
      else Reserve_loop k (index + 1) s
  end.

Definition Reserve (InStart InEnd : Z) (s : t) : outcome t :=
  if InEnd <=? InStart then Ok s
  else
    let first := InStart / SIZE in
    let last := Math.Min ((InEnd +64 SIZE -64 1) / SIZE) (s_FrameCount s) in
    Reserve_loop (Z.to_nat (last - first)) first s.

Record Range := { Start : Z; End_ : Z }.

Section Boot.
Context `{BootInfo}.

Definition KernelRange : Range :=
  {| Start := BOOT_START; End_ := KERNEL_END -64 Config.KERNEL_VMA |}.

Definition HighestAvailableAddress : Z :=
  foldl (fun highest region =>
    if Multiboot.Type_ region =? Multiboot.AVAILABLE
    then Math.Max highest (Multiboot.RegionEnd region) else highest) 0 memory_regions.

Definition Overlaps (InLeft InRight : Range) : bool :=
  (Start InLeft <? End_ InRight) && (Start InRight <? End_ InLeft).

(** [Some retryAt] when the range is blocked. *)
Fixpoint BlockedByInfo (InRange : Range) (infos : list Multiboot.MemoryRegion) : option Z :=
  match infos with
  | [] => None
  | info :: rest =>
      if negb (Multiboot.Length info =? 0) &&
         Overlaps InRange {| Start := Multiboot.Address info; End_ := Multiboot.RegionEnd info |}
      then Some (Multiboot.RegionEnd info) else BlockedByInfo InRange rest
  end.

Fixpoint BlockedByModule (InRange : Range) (mods : list Multiboot.Module_) : option Z :=
  match mods with
  | [] => None
  | m :: rest =>
      if Overlaps InRange {| Start := Multiboot.Start m; End_ := Multiboot.End_ m |}
      then Some (Multiboot.End_ m) else BlockedByModule InRange rest
  end.

Definition IsBlocked (InRange : Range) : option Z :=
  if Overlaps InRange KernelRange then Some (End_ KernelRange)
  else match BlockedByInfo InRange info_regions with
       | Some retryAt => Some retryAt
       | None => BlockedByModule InRange modules
       end.

Definition align_frame (a : Z) : Z := Z.land (a +64 SIZE -64 1) (~64 (SIZE - 1)).

Fixpoint FirstFit_loop (fuel : nat) (InRange : Range) (InBytes start : Z) : outcome Z :=
  match fuel with
  | O => Diverges
  | S k =>
      if start +64 InBytes <=? End_ InRange then
        match IsBlocked {| Start := start; End_ := start +64 InBytes |} with
        | None => Ok start
        | Some retryAt => FirstFit_loop k InRange InBytes (align_frame retryAt)
        end
      else Ok 0
  end.

(** Every retry steps over one blocker for good, so the kernel image, the info
    regions and the modules bound the number of rounds. *)
Definition FirstFit_fuel : nat := 2 + length info_regions + length modules.

Definition FirstFit (InRange : Range) (InBytes : Z) : outcome Z :=
  FirstFit_loop FirstFit_fuel InRange InBytes (align_frame (Start InRange)).

Fixpoint ChooseBitmapLocation_loop (regions : list Multiboot.MemoryRegion) (InBytes : Z)
    : outcome Z :=
  match regions with
  | [] => Ok 0
  | region :: rest =>
      if negb (Multiboot.Type_ region =? Multiboot.AVAILABLE)
      then ChooseBitmapLocation_loop rest InBytes
      else
        let usable := {| Start := Math.Max (Multiboot.Address region) MIB;
                         End_ := Math.Min (Multiboot.RegionEnd region) Config.IDENTITY_MAPPED_LIMIT |} in
        if End_ usable <=? Start usable then ChooseBitmapLocation_loop rest InBytes
        else
          let* location := FirstFit usable InBytes in
          if negb (location =? 0) then Ok location
          else ChooseBitmapLocation_loop rest InBytes
  end.

Definition ChooseBitmapLocation (InBytes : Z) : outcome Z :=
  ChooseBitmapLocation_loop memory_regions InBytes.

Fixpoint AddAvailableMemory_loop (regions : list Multiboot.MemoryRegion) (s : t) : outcome t :=
  match regions with
  | [] => Ok s
  | region :: rest =>
      let* s1 := (if Multiboot.Type_ region =? Multiboot.AVAILABLE
                  then Add (Multiboot.Address region) (Multiboot.RegionEnd region) s
                  else Ok s) in
      AddAvailableMemory_loop rest s1
  end.

Definition AddAvailableMemory (s : t) : outcome t := AddAvailableMemory_loop memory_regions s.

Fixpoint ReserveAll (ranges : list Range) (s : t) : outcome t :=
  match ranges with
  | [] => Ok s
  | r :: rest => let* s1 := Reserve (Start r) (End_ r) s in ReserveAll rest s1
  end.

Definition info_range (info : Multiboot.MemoryRegion) : Range :=
  {| Start := Multiboot.Address info; End_ := Multiboot.RegionEnd info |}.
Definition module_range (m : Multiboot.Module_) : Range :=
  {| Start := Multiboot.Start m; End_ := Multiboot.End_ m |}.

Definition ReserveKnownUsers (s : t) : outcome t :=
  let* s := Reserve 0 MIB s in
  let* s := Reserve (Start KernelRange) (End_ KernelRange) s in
  let* s := ReserveAll (info_range <$> info_regions) s in
  ReserveAll (module_range <$> modules) s.

(** Returns the new state and the physical address the bitmap was put at. *)
Definition Initialize : outcome (t * Z) :=
  let frameCount := (HighestAvailableAddress +64 SIZE -64 1) / SIZE in
  let wordCount := (frameCount +64 BITS_PER_WORD -64 1) / BITS_PER_WORD in
  let bytes := wordCount *64 8 in
  let* location := ChooseBitmapLocation bytes in
  if location =? 0 then Panic "No room for the frame bitmap"
  else
    let s := {| s_Taken := replicate (Z.to_nat wordCount) ALL_TAKEN;
                s_WordCount := wordCount; s_FrameCount := frameCount;
                s_ReachableFrames := Math.Min (Config.IDENTITY_MAPPED_LIMIT / SIZE) frameCount;
                s_TotalFrames := 0; s_FreeFrames := 0; s_NextIndex := 0 |} in
    let* s := AddAvailableMemory s in
    let* s := ReserveKnownUsers s in
    let* s := Reserve location (location +64 bytes) s in
    if s_FreeFrames s =? 0 then Panic "No usable physical memory" else Ok (s, location).

End Boot.

Definition SetReachableLimit (InLimit : Z) (s : t) : t :=
  with_reachable s (Math.Min (InLimit / SIZE) (s_FrameCount s)).

Fixpoint FindRun_loop (n : nat) (s : t) (index run InCount : Z) : outcome Z :=
  match n with
  | O => Ok NOT_FOUND
  | S k =>
      let* taken := IsTaken s index in
      if taken then FindRun_loop k s (index + 1) 0 InCount
      else if run +64 1 =? InCount then Ok (index +64 1 -64 InCount)
      else FindRun_loop k s (index + 1) (run +64 1) InCount
  end.

Definition FindRun (s : t) (InFrom InCount : Z) : outcome Z :=
  FindRun_loop (Z.to_nat (s_ReachableFrames s - InFrom)) s InFrom 0 InCount.

Fixpoint Take_loop (n : nat) (index : Z) (s : t) : outcome t :=
  match n with
  | O => Ok s
  | S k => let* s1 := Take s index in Take_loop k (index + 1) s1
  end.

Definition Allocate (InCount : Z) (s : t) : outcome (Z * t) :=
  if InCount =? 0 then Ok (0, s)
  else
    let* first := FindRun s (s_NextIndex s) InCount in
    let* first := (if (first =? NOT_FOUND) && negb (s_NextIndex s =? 0)
                   then FindRun s 0 InCount else Ok first) in
    if first =? NOT_FOUND then Ok (0, s)
    else
      let last := first +64 InCount in
      let* s1 := Take_loop (Z.to_nat (last - first)) first s in
      let s2 := with_counts s1 (s_TotalFrames s1) (s_FreeFrames s1 -64 InCount) in
      let s3 := with_next s2 (if last <? s_ReachableFrames s2 then last else 0) in
      Ok (first *64 SIZE, s3).

Fixpoint Free_loop `{Build} (n : nat) (index : Z) (s : t) : outcome t :=
  match n with
  | O => Ok s
  | S k =>
      let* taken := IsTaken s index in
      let* _ := ASSERT taken "IsTaken(index)" in
      let* s1 := Release s index in
      Free_loop k (index + 1) (with_counts s1 (s_TotalFrames s1) (s_FreeFrames s1 +64 1))
  end.

Definition Free `{Build} (InAddress InCount : Z) (s : t) : outcome t :=
  if (InAddress =? 0) || (InCount =? 0) then Ok s
  else
    let* _ := ASSERT (InAddress mod SIZE =? 0) "InAddress % SIZE == 0" in
    let first := InAddress / SIZE in
    let* _ := ASSERT (first +64 InCount <=? s_FrameCount s) "first + InCount <= s_FrameCount" in
    Free_loop (Z.to_nat ((first +64 InCount) - first)) first s.

Definition GetTotalFrames (s : t) : Z := s_TotalFrames s.
Definition GetFreeFrames (s : t) : Z := s_FreeFrames s.
Definition GetUsedFrames (s : t) : Z := s_TotalFrames s -64 s_FreeFrames s.

End Frame.
