(* ===== verification/FrameSpec.v ===== *)
(** * Correctness of the frame allocator

    The bitmap as a function from frame numbers to booleans, the invariant that
    ties it to the counters and to the set of usable frames, and the properties
    of [Allocate], [Free] and [Initialize]. *)

From S2P Require Import Prelude Config Frame.

Import Frame.

(** ** The bitmap as a function *)

Definition taken (s : t) (i : Z) : bool :=
  Z.testbit (s_Taken s !!! Z.to_nat (i / BITS_PER_WORD)) (i mod BITS_PER_WORD).

Record bitmap_ok (s : t) : Prop := {
  bm_length : length (s_Taken s) = Z.to_nat (s_WordCount s);
  bm_words : Forall (is_word 64) (s_Taken s);
  bm_count : 0 <= s_FrameCount s <= 64 * s_WordCount s;
  bm_addr : s_FrameCount s <= 2 ^ 52 }.

Lemma frame_word s i :
  bitmap_ok s -> 0 <= i < s_FrameCount s ->
  exists w, s_Taken s !! Z.to_nat (i / 64) = Some w /\ is_word 64 w /\
            s_Taken s !!! Z.to_nat (i / 64) = w.
Proof.
  intros [Hl Hw Hc _] Hi.
  destruct (lookup_lt_is_Some_2 (s_Taken s) (Z.to_nat (i / 64))) as [w Hw'].
  { rewrite Hl. assert (i / 64 < s_WordCount s) by (apply Z.div_lt_upper_bound; lia).
    assert (0 <= i / 64) by (apply Z.div_pos; lia). lia. }
  exists w. split_and!; [done| |by apply list_lookup_total_correct].
  by eapply Forall_lookup_1.
Qed.

Lemma mask_bits i k : 0 <= k ->
  Z.testbit (mask i) k = bool_decide (k = i mod 64).
Proof.
  intros Hk. unfold mask, BITS_PER_WORD.
  assert (0 <= i mod 64 < 64) by (apply Z.mod_pos_bound; lia).
  rewrite testbit_wrap, testbit_one_shift by lia.
  case_bool_decide; [|btauto]. subst. by replace (i mod 64 <? 64) with true by lia.
Qed.

Lemma land_mask_test w i :
  negb (Z.land w (mask i) =? 0) = Z.testbit w (i mod 64).
Proof.
  assert (0 <= i mod 64 < 64) as Hm by (apply Z.mod_pos_bound; lia).
  assert (mask i = Z.shiftl 1 (i mod 64)) as ->.
  { apply Z.bits_inj'. intros k Hk. by rewrite mask_bits, testbit_one_shift by lia. }
  rewrite land_flag_zero by lia. apply negb_involutive.
Qed.

Lemma IsTaken_ok s i :
  bitmap_ok s -> 0 <= i < s_FrameCount s -> IsTaken s i = Ok (taken s i).
Proof.
  intros Hb Hi. destruct (frame_word s i Hb Hi) as (w & Hw & _ & Ht).
  unfold IsTaken, word, taken, BITS_PER_WORD. rewrite Hw. simpl.
  by rewrite land_mask_test, Ht.
Qed.

(** Both single bit updates rewrite one word; [bit_update] covers them. *)
Lemma bit_update s i w' b :
  bitmap_ok s -> 0 <= i < s_FrameCount s -> is_word 64 w' ->
  (forall k, 0 <= k < 64 -> Z.testbit w' k =
     if k =? i mod 64 then b else Z.testbit (s_Taken s !!! Z.to_nat (i / 64)) k) ->
  let s' := with_taken s (<[Z.to_nat (i / 64) := w']> (s_Taken s)) in
  bitmap_ok s' /\
  (forall j, 0 <= j -> taken s' j = if j =? i then b else taken s j).
Proof.
  intros Hb Hi Hw' Hk s'. destruct (frame_word s i Hb Hi) as (w & Hw & Hww & Ht).
  destruct Hb as [Hl Hws Hc Ha]. split.
  - split; simpl; [by rewrite length_insert| |done|done].
    apply Forall_insert; done.
  - intros j Hj. unfold taken, BITS_PER_WORD. simpl.
    assert (0 <= i mod 64 < 64) by (apply Z.mod_pos_bound; lia).
    assert (0 <= j mod 64 < 64) by (apply Z.mod_pos_bound; lia).
    pose proof (Z.div_mod i 64). pose proof (Z.div_mod j 64).
    assert (0 <= i / 64) by (apply Z.div_pos; lia).
    assert (0 <= j / 64) by (apply Z.div_pos; lia).
    destruct (Z.eq_dec (j / 64) (i / 64)) as [E|E].
    + rewrite E, list_lookup_total_insert_eq by (by eapply lookup_lt_Some).
      rewrite Hk by lia. repeat case_test; done.
    + rewrite list_lookup_total_insert_ne by lia. by case_test.
Qed.

Lemma Take_ok s i :
  bitmap_ok s -> 0 <= i < s_FrameCount s ->
  exists w, Take s i = Ok (with_taken s w) /\ bitmap_ok (with_taken s w) /\
            (forall j, 0 <= j -> taken (with_taken s w) j = if j =? i then true else taken s j).
Proof.
  intros Hb Hi. destruct (frame_word s i Hb Hi) as (w & Hw & Hww & Ht).
  unfold Take, word, BITS_PER_WORD. rewrite Hw. simpl. eexists. split; [done|].
  apply bit_update; [done|done| |].
  - assert (is_word 64 (mask i)) as Hm by (apply wrap_range; lia).
    apply is_word_bits; [lia| |].
    + apply Z.lor_nonneg. unfold is_word in *; lia.
    + intros k Hk. rewrite Z.lor_spec.
      rewrite (testbit_above 64 w), (testbit_above 64 (mask i)) by (done || lia). done.
  - intros k Hk. rewrite Z.lor_spec, mask_bits, Ht by lia.
    case_bool_decide; case_test; done || btauto.
Qed.

Lemma Release_ok s i :
  bitmap_ok s -> 0 <= i < s_FrameCount s ->
  exists w, Release s i = Ok (with_taken s w) /\ bitmap_ok (with_taken s w) /\
            (forall j, 0 <= j -> taken (with_taken s w) j = if j =? i then false else taken s j).
Proof.
  intros Hb Hi. destruct (frame_word s i Hb Hi) as (w & Hw & Hww & Ht).
  unfold Release, word, BITS_PER_WORD. rewrite Hw. simpl. eexists. split; [done|].
  apply bit_update; [done|done| |].
  - apply is_word_bits; [lia| |].
    + apply Z.land_nonneg. unfold is_word in *; lia.
    + intros k Hk. rewrite Z.land_spec, (testbit_above 64 w) by (done || lia). done.
  - intros k Hk. rewrite Z.land_spec, testbit_wrap, Z.lnot_spec, mask_bits, Ht by lia.
    replace (k <? 64) with true by lia.
    case_bool_decide; case_test; simpl; btauto.
Qed.

(** ** Counting free frames *)

Fixpoint count_free (f : Z -> bool) (n : nat) : Z :=
  match n with
  | O => 0
  | S k => count_free f k + if f (Z.of_nat k) then 0 else 1
  end.

Lemma count_free_ext f g n :
  (forall i, 0 <= i < Z.of_nat n -> f i = g i) -> count_free f n = count_free g n.
Proof.
  induction n as [|n IH]; intros H; simpl; [done|].
  rewrite IH, (H (Z.of_nat n)) by (intros; try apply H; lia). done.
Qed.

Lemma count_free_set f i b n :
  0 <= i < Z.of_nat n ->
  count_free (fun j => if j =? i then b else f j) n
  = count_free f n + (if f i then 0 else -1) + (if b then 0 else 1).
Proof.
  induction n as [|n IH]; intros Hi; [lia|]. simpl. case_test.
  - rewrite (count_free_ext _ f) by (intros; by case_test). subst.
    destruct (f (Z.of_nat n)), b; lia.
  - rewrite IH by lia. lia.
Qed.

Lemma count_free_bounds f n : 0 <= count_free f n <= Z.of_nat n.
Proof. induction n as [|n IH]; simpl; [lia|]. destruct (f _); lia. Qed.

Lemma count_free_mono f g n :
  (forall i, 0 <= i < Z.of_nat n -> g i = true -> f i = true) ->
  count_free f n <= count_free g n.
Proof.
  induction n as [|n IH]; intros H; simpl; [lia|].
  assert (count_free f n <= count_free g n) by (apply IH; intros; apply H; lia || done).
  pose proof (H (Z.of_nat n)). destruct (f (Z.of_nat n)), (g (Z.of_nat n)); intuition lia.
Qed.

Definition free_count (s : t) : Z := count_free (taken s) (Z.to_nat (s_FrameCount s)).

(** ** The invariant

    [unusable i] holds of the frames no available region backs.  A frame that is
    not [taken] is always usable, the counters agree with the bitmap, and what is
    searched lies inside the array. *)
Record wf (unusable : Z -> bool) (s : t) : Prop := {
  wf_bitmap : bitmap_ok s;
  wf_free : s_FreeFrames s = free_count s;
  wf_usable : forall i, 0 <= i < s_FrameCount s -> unusable i = true -> taken s i = true;
  wf_total : s_TotalFrames s = count_free unusable (Z.to_nat (s_FrameCount s));
  wf_reach : 0 <= s_ReachableFrames s <= s_FrameCount s;
  wf_next : 0 <= s_NextIndex s }.

(** All frames of [[a, a + n)] are free. *)
Definition free_run (s : t) (a n : Z) : Prop := forall i, a <= i < a + n -> taken s i = false.

Lemma wf_count_bounds U s : wf U s -> 0 <= s_FreeFrames s <= s_FrameCount s /\
  s_FreeFrames s <= s_TotalFrames s <= s_FrameCount s /\ s_FrameCount s <= 2 ^ 52.
Proof.
  intros [Hb Hf Hu Ht _ _]. destruct Hb as [_ _ Hc Ha]. rewrite Hf, Ht. unfold free_count.
  pose proof (count_free_bounds (taken s) (Z.to_nat (s_FrameCount s))).
  pose proof (count_free_bounds U (Z.to_nat (s_FrameCount s))).
  assert (count_free (taken s) (Z.to_nat (s_FrameCount s)) <= count_free U (Z.to_nat (s_FrameCount s))).
  { apply count_free_mono. intros i Hi. apply Hu. lia. }
  lia.
Qed.

(** ** Searching and taking a run *)

(** What [FindRun] answers, with [run] free frames already seen before [index]. *)
Lemma FindRun_loop_ok n s index run count :
  bitmap_ok s -> 0 <= run < count -> run <= index -> is_word 64 count ->
  index + Z.of_nat n <= s_FrameCount s -> free_run s (index - run) run ->
  exists r, FindRun_loop n s index run count = Ok r /\
    ((r = NOT_FOUND /\
      forall a, index - run <= a -> a + count <= index + Z.of_nat n -> ~ free_run s a count) \/
     (index - run <= r /\ r + count <= index + Z.of_nat n /\ free_run s r count)).
Proof.
  revert index run; induction n as [|n IH]; intros index run Hb Hr Hi Hc Hn Hf; simpl.
  - eexists. split; [done|]. left. split; [done|]. lia.
  - pose proof (bm_addr s Hb). rewrite IsTaken_ok by (done || lia). simpl.
    unfold is_word in Hc. destruct (taken s index) eqn:E.
    + destruct (IH (index + 1) 0) as (r & -> & H'); try done; try lia.
      { intros i Hi'. lia. }
      exists r. split; [done|]. destruct H' as [[-> H']|H']; [left|right].
      * split; [done|]. intros a Ha Hac Hfr.
        destruct (Z_le_dec a index); [|apply (H' a); [lia|lia|done]].
        specialize (Hfr index ltac:(lia)). congruence.
      * destruct H' as (? & ? & ?). split_and!; [lia|lia|done].
    + rewrite (wrap_small 64 (run + 1)) by (unfold is_word; lia). case_test.
      * rewrite !wrap_small by (unfold is_word; rewrite ?wrap_small by (unfold is_word; lia); lia).
        eexists. split; [done|]. right. split_and!; [lia|lia|].
        intros i Hi'. destruct (Z.eq_dec i index) as [->|]; [done|apply Hf; lia].
      * destruct (IH (index + 1) (run + 1)) as (r & -> & H'); try done; try lia.
        { intros i Hi'. destruct (Z.eq_dec i index) as [->|]; [done|apply Hf; lia]. }
        exists r. split; [done|].
        replace (index + 1 - (run + 1)) with (index - run) in H' by lia.
        replace (index + 1 + Z.of_nat n) with (index + Z.of_nat (S n)) in H' by lia. done.
Qed.

Lemma FindRun_ok U s from count :
  wf U s -> 0 <= from -> 0 < count -> is_word 64 count ->
  exists r, FindRun s from count = Ok r /\
    ((r = NOT_FOUND /\
      forall a, from <= a -> a + count <= s_ReachableFrames s -> ~ free_run s a count) \/
     (from <= r /\ r + count <= s_ReachableFrames s /\ free_run s r count)).
Proof.
  intros Hwf Hf Hc Hw. unfold FindRun. pose proof (wf_reach _ _ Hwf).
  destruct (Z_le_dec from (s_ReachableFrames s)) as [Hle|Hle].
  - destruct (FindRun_loop_ok (Z.to_nat (s_ReachableFrames s - from)) s from 0 count)
      as (r & -> & H'); try lia; try done; try apply Hwf.
    { intros i Hi. lia. }
    exists r. split; [done|]. rewrite Z.sub_0_r, Z2Nat.id in H' by lia.
    by replace (from + (s_ReachableFrames s - from)) with (s_ReachableFrames s) in H' by lia.
  - replace (Z.to_nat _) with O by lia. simpl. eexists. split; [done|]. left.
    split; [done|]. lia.
Qed.

(** [s'] is [s] with the frames [[a, a + n)] set to [b]; nothing but the bitmap
    differs. *)
Record sets_run (b : bool) (a n : Z) (s s' : t) : Prop := {
  sr_bitmap : bitmap_ok s';
  sr_taken : forall j, 0 <= j ->
    taken s' j = if (a <=? j) && (j <? a + n) then b else taken s j;
  sr_same : s' = with_taken s (s_Taken s') }.

Lemma Take_loop_ok n a s :
  bitmap_ok s -> 0 <= a -> a + Z.of_nat n <= s_FrameCount s ->
  exists s', Take_loop n a s = Ok s' /\ sets_run true a (Z.of_nat n) s s'.
Proof.
  revert a s; induction n as [|n IH]; intros a s Hb Ha Hn; simpl.
  - exists s. split; [done|]. split; [done| |by destruct s].
    intros j Hj. by replace ((a <=? j) && (j <? a + Z.of_nat 0)) with false by
      (change (Z.of_nat 0) with 0; lia).
  - destruct (Take_ok s a Hb) as (w & -> & Hb' & Ht); [lia|]. simpl.
    destruct (IH (a + 1) (with_taken s w)) as (s' & -> & [Hb2 Ht2 Hs2]); [done|lia|simpl; lia|].
    exists s'. split; [done|]. split; [done| |by rewrite Hs2].
    intros j Hj. rewrite Ht2, Ht by done. repeat case_test; done.
Qed.

Lemma sets_run_count b a n s s' :
  0 <= n -> sets_run b a n s s' -> 0 <= a -> a + n <= s_FrameCount s ->
  (forall i, a <= i < a + n -> taken s i = negb b) ->
  free_count s' = free_count s + if b then - n else n.
Proof.
  intros Hn [_ Ht Hs] Ha Hle Hall. unfold free_count.
  replace (s_FrameCount s') with (s_FrameCount s) by (by rewrite Hs).
  rewrite (count_free_ext _ (fun j => if (a <=? j) && (j <? a + n) then b else taken s j))
    by (intros; apply Ht; lia).
  clear Ht Hs. revert Hle Hall. pattern n. apply natlike_ind; [| |done]; clear n Hn.
  - intros _ _. rewrite (count_free_ext _ (taken s)); [destruct b; lia|].
    intros i Hi. by replace ((a <=? i) && (i <? a + 0)) with false by lia.
  - intros n Hn IH Hle Hall.
    rewrite (count_free_ext _ (fun j => if j =? a + n then b else
       (fun j => if (a <=? j) && (j <? a + n) then b else taken s j) j)).
    + rewrite count_free_set, IH by (try intros; try apply Hall; lia).
      replace ((a <=? a + n) && (a + n <? a + n)) with false by lia.
      rewrite (Hall (a + n)) by lia. destruct b; simpl; lia.
    + intros i Hi. repeat case_test; done.
Qed.

(** ** [Allocate] *)

(** What the allocator promises for [Allocate count] started in [s]. *)
Inductive allocate_spec (U : Z -> bool) (s : t) (count : Z) : Z -> t -> Prop :=
| alloc_none :
    (count = 0 \/ forall a, 0 <= a -> a + count <= s_ReachableFrames s -> ~ free_run s a count) ->
    allocate_spec U s count 0 s
| alloc_run first s' :
    0 < count -> 0 <= first -> first + count <= s_ReachableFrames s ->
    free_run s first count ->
    (forall i, first <= i < first + count -> U i = false) ->
    (forall j, 0 <= j -> taken s' j = (first <=? j) && (j <? first + count) || taken s j) ->
    s_FreeFrames s' = s_FreeFrames s - count ->
    s_FrameCount s' = s_FrameCount s -> s_ReachableFrames s' = s_ReachableFrames s ->
    s_TotalFrames s' = s_TotalFrames s ->
    allocate_spec U s count (first * SIZE) s'.

Lemma Allocate_first U s count first :
  wf U s -> 0 < count -> 0 <= first -> first + count <= s_ReachableFrames s ->
  free_run s first count ->
  exists s' next, let s3 := with_next (with_counts s' (s_TotalFrames s) (s_FreeFrames s -64 count)) next in
    Take_loop (Z.to_nat (first +64 count - first)) first s = Ok s' /\
    s_TotalFrames s' = s_TotalFrames s /\ s_FreeFrames s' = s_FreeFrames s /\
    next = (if first +64 count <? s_ReachableFrames s' then first +64 count else 0) /\
    wf U s3 /\ allocate_spec U s count (first *64 SIZE) s3.
Proof.
  intros Hwf Hc Hf Hle Hfr. pose proof (wf_count_bounds _ _ Hwf) as (HF & HT & H52).
  destruct Hwf as [Hb Hfree Hus Htot Hre Hne].
  rewrite (wrap_small 64 (first + count)) by (unfold is_word; lia).
  replace (first + count - first) with count by lia.
  destruct (Take_loop_ok (Z.to_nat count) first s) as (s' & HT' & Hsr); [done|done|lia|].
  rewrite Z2Nat.id in Hsr by lia. exists s'. eexists. split; [done|].
  pose proof Hsr as [Hb' Ht' Hs'].
  pose proof (sets_run_count true first count s s') as Hcnt.
  assert (Hfc : free_count s' = free_count s - count).
  { rewrite Hcnt; [lia|lia|done|done|lia|]. intros i Hi. by rewrite Hfr. }
  assert (0 <= free_count s') by apply count_free_bounds.
  rewrite (wrap_small 64 (s_FreeFrames s - count)) by (unfold is_word; lia).
  rewrite (wrap_small 64 (first * SIZE)) by (unfold is_word, SIZE, KIB; lia).
  assert (s_FrameCount s' = s_FrameCount s) as EF by (by rewrite Hs').
  assert (s_ReachableFrames s' = s_ReachableFrames s) as ER by (by rewrite Hs').
  split_and!; [by rewrite Hs'|by rewrite Hs'|done| |].
  - split; simpl; rewrite ?EF, ?ER; try done.
    + by destruct Hb'; split.
    + change (free_count _) with (free_count s'). lia.
    + intros i Hi HU. unfold taken at 1; simpl. fold (taken s' i). rewrite Ht' by lia.
      rewrite (Hus i) by done. by destruct (_ && _).
    + case_test; lia.
  - apply alloc_run; simpl; try done.
    + intros i Hi. destruct (U i) eqn:E; [|done].
      assert (taken s i = true) by (apply Hus; lia || done). rewrite Hfr in *; [done|lia].
Qed.

Lemma Allocate_ok U s count :
  wf U s -> is_word 64 count ->
  exists r s', Allocate count s = Ok (r, s') /\ wf U s' /\ allocate_spec U s count r s'.
Proof.
  intros Hwf Hw. unfold Allocate. case_test.
  { exists 0, s. split_and!; [done|done|]. apply alloc_none. by left. }
  assert (0 < count) by (unfold is_word in Hw; lia). pose proof (wf_next _ _ Hwf).
  pose proof (wf_count_bounds _ _ Hwf) as (_ & _ & H52). pose proof (wf_reach _ _ Hwf).
  assert (Hfit : forall first, 0 <= first -> first + count <= s_ReachableFrames s ->
    (first =? NOT_FOUND) = false) by (intros; apply Z.eqb_neq; unfold NOT_FOUND, SIZE_MAX; lia).
  destruct (FindRun_ok U s (s_NextIndex s) count) as (r & -> & Hr); try done. simpl.
  assert (Hgoal : exists r2,
    (if (r =? NOT_FOUND) && negb (s_NextIndex s =? 0) then FindRun s 0 count else Ok r) = Ok r2 /\
    ((r2 = NOT_FOUND /\
      forall a, 0 <= a -> a + count <= s_ReachableFrames s -> ~ free_run s a count) \/
     (0 <= r2 /\ r2 + count <= s_ReachableFrames s /\ free_run s r2 count))).
  { destruct Hr as [[-> Hr]|(Hr1 & Hr2 & Hr3)].
    - rewrite Z.eqb_refl. destruct (Z.eqb_spec (s_NextIndex s) 0) as [E0|E0]; simpl.
      + exists NOT_FOUND. split; [done|]. left. split; [done|]. by rewrite E0 in Hr.
      + by apply (FindRun_ok U).
    - rewrite Hfit by lia. exists r. split; [done|]. right. by split_and!; [lia|..]. }
  destruct Hgoal as (r2 & -> & [[-> Hno]|(Hr1 & Hr2 & Hr3)]); simpl.
  - exists 0, s. split_and!; [done|done|]. apply alloc_none. by right.
  - rewrite Hfit by done.
    destruct (Allocate_first U s count r2) as (s' & nx & HT & Ht & Hf & Hn & Hw' & Hs); try done.
    rewrite HT. simpl. rewrite Ht, Hf. rewrite <- Hn. by eexists _, _.
Qed.

(** ** [Free], [Add] and [Reserve] *)

Lemma taken_with_counts s x y j : taken (with_counts s x y) j = taken s j.
Proof. done. Qed.

Lemma Free_loop_ok `{Build} n a s :
  bitmap_ok s -> 0 <= a -> a + Z.of_nat n <= s_FrameCount s ->
  0 <= s_FreeFrames s -> s_FreeFrames s + Z.of_nat n < 2 ^ 64 ->
  (forall i, a <= i < a + Z.of_nat n -> taken s i = true) ->
  exists s', Free_loop n a s =
      Ok (with_counts s' (s_TotalFrames s) (s_FreeFrames s + Z.of_nat n)) /\
    sets_run false a (Z.of_nat n) s s'.
Proof.
  revert a s; induction n as [|n IH]; intros a s Hb Ha Hn H0 H64 Hall; simpl.
  - exists s. split; [|split; [done| |by destruct s]].
    + rewrite Z.add_0_r. by destruct s.
    + intros j Hj. by replace ((a <=? j) && (j <? a + Z.of_nat 0)) with false by
        (change (Z.of_nat 0) with 0; lia).
  - rewrite IsTaken_ok, (Hall a) by (done || lia). simpl. rewrite ASSERT_true. simpl.
    destruct (Release_ok s a Hb) as (w & -> & Hb' & Ht); [lia|]. simpl.
    rewrite wrap_small by (unfold is_word; lia).
    destruct (IH (a + 1) (with_counts (with_taken s w) (s_TotalFrames s) (s_FreeFrames s + 1)))
      as (s' & -> & [Hb2 Ht2 Hs2]); simpl; try lia.
    { by destruct Hb'; split. }
    { intros i Hi. rewrite taken_with_counts, Ht by lia. case_test. apply Hall. lia. }
    exists (with_taken s (s_Taken s')). split.
    + rewrite Hs2. unfold with_counts, with_taken; simpl. do 2 f_equal. lia.
    + assert (Htk : forall j, taken (with_taken s (s_Taken s')) j = taken s' j) by done.
      split; [|intros j Hj|done].
      * rewrite Hs2 in Hb2. by destruct Hb2; split.
      * rewrite Htk, Ht2, taken_with_counts, Ht by done. repeat case_test; done.
Qed.

Definition same_shape (s s' : t) : Prop :=
  s_WordCount s' = s_WordCount s /\ s_FrameCount s' = s_FrameCount s /\
  s_ReachableFrames s' = s_ReachableFrames s /\ s_NextIndex s' = s_NextIndex s.

Lemma same_shape_trans s1 s2 s3 : same_shape s1 s2 -> same_shape s2 s3 -> same_shape s1 s3.
Proof. unfold same_shape. intuition congruence. Qed.

Lemma bitmap_ok_counts s x y : bitmap_ok s -> bitmap_ok (with_counts s x y).
Proof. by intros []; split. Qed.

(** Flipping one frame moves the free count by one. *)
Lemma free_count_flip s s' i b :
  0 <= i < s_FrameCount s -> s_FrameCount s' = s_FrameCount s ->
  (forall j, 0 <= j -> taken s' j = if j =? i then b else taken s j) ->
  free_count s' = free_count s + (if taken s i then 0 else -1) + (if b then 0 else 1).
Proof.
  intros Hi HF Ht. unfold free_count. rewrite HF, <- count_free_set by lia.
  apply count_free_ext. intros j Hj. apply Ht. lia.
Qed.

(** The outcome of [Add_loop] and [Reserve_loop]: the range is set to [b], the
    free counter still agrees with the bitmap. *)
Record range_set (b : bool) (a n : Z) (s s' : t) : Prop := {
  rs_bitmap : bitmap_ok s';
  rs_free : s_FreeFrames s' = free_count s';
  rs_total : s_TotalFrames s' - s_TotalFrames s =
             if b then 0 else s_FreeFrames s' - s_FreeFrames s;
  rs_shape : same_shape s s';
  rs_taken : forall j, 0 <= j ->
    taken s' j = if (a <=? j) && (j <? a + n) then b else taken s j }.

Lemma range_set_nil b a s :
  bitmap_ok s -> s_FreeFrames s = free_count s -> range_set b a 0 s s.
Proof.
  intros Hb Hf. split; try done; [destruct b; lia|]. intros j Hj.
  by replace ((a <=? j) && (j <? a + 0)) with false by lia.
Qed.

Lemma range_set_cons b a n s s1 s2 :
  0 <= n -> range_set b a 1 s s1 -> range_set b (a + 1) n s1 s2 -> range_set b a (n + 1) s s2.
Proof.
  intros Hn [_ _ Ht1 Hs1 Hk1] [Hb2 Hf2 Ht2 Hs2 Hk2]. split; try done.
  - destruct b; lia.
  - by eapply same_shape_trans.
  - intros j Hj. rewrite Hk2, Hk1 by done. repeat case_test; done.
Qed.

Lemma range_set_skip b a s :
  bitmap_ok s -> s_FreeFrames s = free_count s -> 0 <= a -> taken s a = b ->
  range_set b a 1 s s.
Proof.
  intros Hb Hf Ha Hk. split; try done; [destruct b; lia|]. intros j Hj.
  repeat case_test; simpl; try done. by replace j with a by lia.
Qed.

Lemma free_count_le s : bitmap_ok s -> 0 <= free_count s <= 2 ^ 52.
Proof.
  intros [_ _ Hc Ha]. pose proof (count_free_bounds (taken s) (Z.to_nat (s_FrameCount s))).
  unfold free_count. lia.
Qed.

(** One [Release] with both counters bumped. *)
Lemma release_counted s a :
  bitmap_ok s -> s_FreeFrames s = free_count s -> 0 <= s_TotalFrames s <= 2 ^ 60 ->
  0 <= a < s_FrameCount s -> taken s a = true ->
  exists s1, Release s a = Ok s1 /\
    range_set false a 1 s (with_counts s1 (s_TotalFrames s1 +64 1) (s_FreeFrames s1 +64 1)).
Proof.
  intros Hb Hf Htot Ha Hk. destruct (Release_ok s a Hb Ha) as (w & -> & Hb' & Ht).
  eexists. split; [done|]. pose proof (free_count_le s Hb).
  pose proof (free_count_flip s (with_taken s w) a false Ha eq_refl Ht) as Hc.
  rewrite Hk in Hc. simpl.
  rewrite !wrap_small by (unfold is_word; lia).
  split; simpl; [by apply bitmap_ok_counts| |lia|done|].
  - change (free_count (with_counts _ _ _)) with (free_count (with_taken s w)). lia.
  - intros j Hj. rewrite taken_with_counts, Ht by done. repeat case_test; done.
Qed.

(** One [Take] with the free counter decremented. *)
Lemma take_counted s a :
  bitmap_ok s -> s_FreeFrames s = free_count s ->
  0 <= a < s_FrameCount s -> taken s a = false ->
  exists s1, Take s a = Ok s1 /\
    range_set true a 1 s (with_counts s1 (s_TotalFrames s1) (s_FreeFrames s1 -64 1)).
Proof.
  intros Hb Hf Ha Hk. destruct (Take_ok s a Hb Ha) as (w & -> & Hb' & Ht).
  eexists. split; [done|]. pose proof (free_count_le (with_taken s w) Hb').
  pose proof (free_count_le s Hb).
  pose proof (free_count_flip s (with_taken s w) a true Ha eq_refl Ht) as Hc.
  rewrite Hk in Hc. simpl.
  rewrite !wrap_small by (unfold is_word; lia).
  split; simpl; [by apply bitmap_ok_counts| |lia|done|].
  - change (free_count (with_counts _ _ _)) with (free_count (with_taken s w)). lia.
  - intros j Hj. rewrite taken_with_counts, Ht by done. repeat case_test; done.
Qed.

Lemma Add_loop_ok n a s :
  bitmap_ok s -> s_FreeFrames s = free_count s -> s_TotalFrames s = s_FreeFrames s ->
  0 <= a -> (n = O \/ a + Z.of_nat n <= s_FrameCount s) ->
  exists s', Add_loop n a s = Ok s' /\ range_set false a (Z.of_nat n) s s'.
Proof.
  revert a s; induction n as [|n IH]; intros a s Hb Hf Htot Ha Hn.
  - exists s. split; [done|by apply range_set_nil].
  - destruct Hn as [|Hn]; [done|]. pose proof (free_count_le s Hb). simpl Add_loop.
    rewrite IsTaken_ok by (done || lia). simpl obind.
    rewrite Nat2Z.inj_succ. destruct (taken s a) eqn:Ea.
    + destruct (release_counted s a) as (s1 & -> & H1); try done; try lia. simpl obind.
      destruct H1 as [H11 H12 H13 H14 H15].
      destruct (IH (a + 1) (with_counts s1 (s_TotalFrames s1 +64 1) (s_FreeFrames s1 +64 1)))
        as (s' & -> & H2); try done; try lia.
      { destruct H14 as (_ & -> & _). right. lia. }
      exists s'. split; [done|]. eapply range_set_cons; [lia|by split|done].
    + destruct (IH (a + 1) s) as (s' & -> & H2); try done; try lia.
      exists s'. split; [done|]. eapply range_set_cons; [lia| |done].
      by apply range_set_skip.
Qed.

Lemma Reserve_loop_ok n a s :
  bitmap_ok s -> s_FreeFrames s = free_count s ->
  0 <= a -> (n = O \/ a + Z.of_nat n <= s_FrameCount s) ->
  exists s', Reserve_loop n a s = Ok s' /\ range_set true a (Z.of_nat n) s s'.
Proof.
  revert a s; induction n as [|n IH]; intros a s Hb Hf Ha Hn.
  - exists s. split; [done|by apply range_set_nil].
  - destruct Hn as [|Hn]; [done|]. simpl Reserve_loop.
    rewrite IsTaken_ok by (done || lia). simpl obind.
    rewrite Nat2Z.inj_succ. destruct (taken s a) eqn:Ea; simpl negb; cbn iota.
    + destruct (IH (a + 1) s) as (s' & -> & H2); try done; try lia.
      exists s'. split; [done|]. eapply range_set_cons; [lia| |done].
      by apply range_set_skip.
    + destruct (take_counted s a) as (s1 & -> & H1); try done; try lia. simpl obind.
      destruct H1 as [H11 H12 H13 H14 H15].
      destruct (IH (a + 1) (with_counts s1 (s_TotalFrames s1) (s_FreeFrames s1 -64 1)))
        as (s' & -> & H2); try done; try lia.
      { destruct H14 as (_ & -> & _). right. lia. }
      exists s'. split; [done|]. eapply range_set_cons; [lia|by split|done].
Qed.

(** ** [Initialize] *)

(** Frame [j] lies wholly inside [[a, e)], and it intersects it. *)
Definition covered (a e j : Z) : bool := (a <=? j * SIZE) && ((j + 1) * SIZE <=? e).
Definition touched (a e j : Z) : bool :=
  (a <? e) && (a <? (j + 1) * SIZE) && (j * SIZE <? e).

Lemma div_up_wrap a : 0 <= a <= 2 ^ 64 - 4096 ->
  (a +64 SIZE -64 1) / SIZE = (a + 4095) / 4096.
Proof.
  intros Ha. unfold wrap, SIZE, KIB. rewrite Zminus_mod_idemp_l.
  rewrite Z.mod_small by lia. f_equal. lia.
Qed.

Record marked (R : Z -> bool) (b : bool) (s s' : t) : Prop := {
  mk_bitmap : bitmap_ok s';
  mk_free : s_FreeFrames s' = free_count s';
  mk_total : s_TotalFrames s' - s_TotalFrames s =
             if b then 0 else s_FreeFrames s' - s_FreeFrames s;
  mk_shape : same_shape s s';
  mk_taken : forall j, 0 <= j < s_FrameCount s -> taken s' j = if R j then b else taken s j }.

Lemma marked_trans R1 R2 b s s1 s2 :
  marked R1 b s s1 -> marked R2 b s1 s2 -> marked (fun j => R2 j || R1 j) b s s2.
Proof.
  intros [_ _ Ht1 Hs1 Hk1] [Hb2 Hf2 Ht2 Hs2 Hk2]. split; try done.
  - destruct b; lia.
  - by eapply same_shape_trans.
  - intros j Hj. destruct Hs1 as (_ & HF & _). rewrite Hk2, Hk1 by lia.
    by destruct (R1 j), (R2 j).
Qed.

Lemma marked_ext R R' b s s' :
  (forall j, 0 <= j < s_FrameCount s -> R j = R' j) -> marked R b s s' -> marked R' b s s'.
Proof. intros H []. split; try done. intros j Hj. rewrite <- H; auto. Qed.

Lemma marked_refl b s : bitmap_ok s -> s_FreeFrames s = free_count s -> marked (fun _ => false) b s s.
Proof. intros ??. split; try done. destruct b; lia. Qed.

Lemma range_set_marked b a n s s' R :
  range_set b a n s s' ->
  (forall j, 0 <= j < s_FrameCount s -> R j = (a <=? j) && (j <? a + n)) ->
  marked R b s s'.
Proof.
  intros [] HR. split; try done. intros j Hj. rewrite HR by done. apply rs_taken0. lia.
Qed.

Lemma Reserve_ok a e s :
  bitmap_ok s -> s_FreeFrames s = free_count s -> 0 <= a -> 0 <= e <= 2 ^ 64 - 4096 ->
  exists s', Reserve a e s = Ok s' /\ marked (touched a e) true s s'.
Proof.
  intros Hb Hf Ha He. unfold Reserve. case_test.
  - exists s. split; [done|]. eapply marked_ext; [|by apply marked_refl].
    intros j Hj. unfold touched. by replace (a <? e) with false by lia.
  - rewrite Math.Min_min, div_up_wrap by lia. change (a / SIZE) with (a / 4096). cbv zeta.
    set (first := a / 4096). set (last := _ `min` _).
    assert (0 <= first) by (apply Z.div_pos; lia).
    destruct (Reserve_loop_ok (Z.to_nat (last - first)) first s) as (s' & -> & Hrs); try done.
    { destruct (Z_le_dec last first); [left; lia|right; lia]. }
    exists s'. split; [done|]. eapply range_set_marked; [done|]. intros j Hj.
    unfold touched, SIZE, KIB.
    pose proof (Z.div_mod a 4096). pose proof (Z.mod_pos_bound a 4096).
    pose proof (Z.div_mod (e + 4095) 4096). pose proof (Z.mod_pos_bound (e + 4095) 4096).
    subst first last. change (4 * 1024) with 4096 in *.
    assert (Heq : j < a / 4096 + Z.of_nat (Z.to_nat (Z.min ((e + 4095) / 4096) (s_FrameCount s) - a / 4096))
                  <-> j < Z.max (a / 4096) (Z.min ((e + 4095) / 4096) (s_FrameCount s))) by lia.
    apply eq_bool_prop_intro. rewrite !andb_True, !Is_true_true, !Z.ltb_lt, !Z.leb_le. lia.
Qed.

Lemma ReserveAll_ok l s :
  bitmap_ok s -> s_FreeFrames s = free_count s ->
  (forall r, r ∈ l -> 0 <= Start r /\ 0 <= End_ r <= 2 ^ 64 - 4096) ->
  exists s', ReserveAll l s = Ok s' /\
             marked (fun j => existsb (fun r => touched (Start r) (End_ r) j) l) true s s'.
Proof.
  revert s; induction l as [|r l IH]; intros s Hb Hf Hl; simpl.
  - exists s. split; [done|by apply marked_refl].
  - destruct (Reserve_ok (Start r) (End_ r) s) as (s1 & -> & H1); try done; try (apply Hl; set_solver).
    destruct H1 as [H11 H12 H13 H14 H15]. simpl.
    destruct (IH s1) as (s' & -> & H2); try done; [intros; apply Hl; set_solver|].
    exists s'. split; [done|]. eapply marked_ext; [|by eapply marked_trans; [split|]].
    intros j Hj. simpl. btauto.
Qed.

Lemma Add_ok a e s :
  bitmap_ok s -> s_FreeFrames s = free_count s -> s_TotalFrames s = s_FreeFrames s ->
  0 <= a <= 2 ^ 64 - 4096 -> 0 <= e ->
  exists s', Add a e s = Ok s' /\ marked (covered a e) false s s'.
Proof.
  intros Hb Hf Ht Ha He. unfold Add.
  rewrite Math.Min_min, div_up_wrap by lia. change (e / SIZE) with (e / 4096). cbv zeta.
  set (first := (a + 4095) / 4096). set (last := _ `min` _).
  assert (0 <= first) by (apply Z.div_pos; lia).
  destruct (Add_loop_ok (Z.to_nat (last - first)) first s) as (s' & -> & Hrs); try done.
  { destruct (Z_le_dec last first); [left; lia|right; lia]. }
  exists s'. split; [done|]. eapply range_set_marked; [done|]. intros j Hj.
  unfold covered, SIZE, KIB.
  pose proof (Z.div_mod e 4096). pose proof (Z.mod_pos_bound e 4096).
  pose proof (Z.div_mod (a + 4095) 4096). pose proof (Z.mod_pos_bound (a + 4095) 4096).
  subst first last. change (4 * 1024) with 4096 in *.
  assert (Heq : j < (a + 4095) / 4096 + Z.of_nat (Z.to_nat (Z.min (e / 4096) (s_FrameCount s) - (a + 4095) / 4096))
                <-> j < Z.max ((a + 4095) / 4096) (Z.min (e / 4096) (s_FrameCount s))) by lia.
  apply eq_bool_prop_intro. rewrite !andb_True, !Is_true_true, !Z.ltb_lt, !Z.leb_le. lia.
Qed.

Section Boot.
Context `{BI : BootInfo} `{!BootInfoSane}.

Lemma RegionEnd_sane r : r ∈ memory_regions \/ r ∈ info_regions ->
  Multiboot.RegionEnd r = Multiboot.Address r + Multiboot.Length r.
Proof.
  intros [Hr|Hr]; [apply sane_region in Hr|apply sane_info in Hr];
    unfold Multiboot.RegionEnd; apply wrap_small; unfold is_word; lia.
Qed.

(** Frame [j] is backed by an available region. *)
Definition usable_frame (j : Z) : bool :=
  existsb (fun r => (Multiboot.Type_ r =? Multiboot.AVAILABLE) &&
                    covered (Multiboot.Address r) (Multiboot.RegionEnd r) j) memory_regions.

(** Frame [j] intersects something the kernel must keep: the first megabyte, the
    kernel image, the loader's structures, a module, or the bitmap at [loc]. *)
Definition reserved_frame (loc bytes j : Z) : bool :=
  touched 0 MIB j || touched (Start KernelRange) (End_ KernelRange) j ||
  existsb (fun r => touched (Multiboot.Address r) (Multiboot.RegionEnd r) j) info_regions ||
  existsb (fun m => touched (Multiboot.Start m) (Multiboot.End_ m) j) modules ||
  touched loc (loc + bytes) j.

Lemma AddAvailableMemory_loop_ok l s :
  (forall r, r ∈ l -> r ∈ memory_regions) ->
  bitmap_ok s -> s_FreeFrames s = free_count s -> s_TotalFrames s = s_FreeFrames s ->
  exists s', AddAvailableMemory_loop l s = Ok s' /\
    marked (fun j => existsb (fun r => (Multiboot.Type_ r =? Multiboot.AVAILABLE) &&
                    covered (Multiboot.Address r) (Multiboot.RegionEnd r) j) l) false s s'.
Proof.
  revert s; induction l as [|r l IH]; intros s Hl Hb Hf Ht; simpl.
  - exists s. split; [done|by apply marked_refl].
  - assert (Hr : r ∈ memory_regions) by (apply Hl; set_solver).
    pose proof (sane_region r Hr). pose proof (RegionEnd_sane r (or_introl Hr)) as HE.
    assert (exists s1, (if Multiboot.Type_ r =? Multiboot.AVAILABLE
                  then Add (Multiboot.Address r) (Multiboot.RegionEnd r) s else Ok s) = Ok s1 /\
        marked (fun j => (Multiboot.Type_ r =? Multiboot.AVAILABLE) &&
                    covered (Multiboot.Address r) (Multiboot.RegionEnd r) j) false s s1)
      as (s1 & -> & H1).
    { case_test; [|exists s; split; [done|by apply marked_refl]].
      apply Add_ok; try done; lia. }
    pose proof H1 as [H11 H12 H13 H14 H15]. simpl.
    destruct (IH s1) as (s' & -> & H2); try done; [intros; apply Hl; set_solver|lia|].
    exists s'. split; [done|]. eapply marked_ext; [|exact (marked_trans _ _ _ _ _ _ H1 H2)].
    intros j Hj. simpl. btauto.
Qed.

Lemma KernelRange_sane :
  0 <= Start KernelRange /\ 0 <= End_ KernelRange <= 2 ^ 52.
Proof.
  destruct sane_kernel as (H1 & H2 & H3). unfold KernelRange, Config.KERNEL_VMA in *. simpl.
  rewrite wrap_small by (unfold is_word; lia). lia.
Qed.

Lemma ReserveKnownUsers_ok s :
  bitmap_ok s -> s_FreeFrames s = free_count s ->
  exists s', ReserveKnownUsers s = Ok s' /\
    marked (fun j => touched 0 MIB j || touched (Start KernelRange) (End_ KernelRange) j ||
      existsb (fun r => touched (Multiboot.Address r) (Multiboot.RegionEnd r) j) info_regions ||
      existsb (fun m => touched (Multiboot.Start m) (Multiboot.End_ m) j) modules) true s s'.
Proof.
  intros Hb Hf. pose proof KernelRange_sane as HK. unfold ReserveKnownUsers.
  destruct (Reserve_ok 0 MIB s) as (s1 & -> & M1); try done. cbn [obind].
  pose proof (mk_bitmap _ _ _ _ M1). pose proof (mk_free _ _ _ _ M1).
  destruct (Reserve_ok (Start KernelRange) (End_ KernelRange) s1) as (s2 & -> & M2); try done; try lia.
  cbn [obind]. pose proof (mk_bitmap _ _ _ _ M2). pose proof (mk_free _ _ _ _ M2).
  destruct (ReserveAll_ok (info_range <$> info_regions) s2) as (s3 & -> & M3); try done.
  { intros r (i & -> & Hi)%list_elem_of_fmap. simpl. rewrite RegionEnd_sane by auto.
    apply sane_info in Hi. lia. }
  cbn [obind]. pose proof (mk_bitmap _ _ _ _ M3). pose proof (mk_free _ _ _ _ M3).
  destruct (ReserveAll_ok (module_range <$> modules) s3) as (s4 & -> & M4); try done.
  { intros r (i & -> & Hi)%list_elem_of_fmap. simpl. apply sane_module in Hi. lia. }
  exists s4. split; [done|].
  eapply marked_ext; [|exact (marked_trans _ _ _ _ _ _ M1 (marked_trans _ _ _ _ _ _ M2
                         (marked_trans _ _ _ _ _ _ M3 M4)))].
  intros j Hj. simpl. rewrite !existsb_map_fmap. cbn [info_range module_range Start End_]. btauto.
Qed.

(** *** Choosing the place of the bitmap *)

(** Everything already in use; empty loader structures do not count. *)
Definition blockers : list Range :=
  KernelRange :: (info_range <$> filter (fun i => Multiboot.Length i <> 0) info_regions)
    ++ (module_range <$> modules).

Lemma blocker_sane b : b ∈ blockers -> 0 <= Start b /\ 0 <= End_ b <= 2 ^ 52.
Proof.
  unfold blockers. intros [->|[(i & -> & Hi)%list_elem_of_fmap
    |(m & -> & Hm)%list_elem_of_fmap]%elem_of_app]%elem_of_cons.
  - apply KernelRange_sane.
  - apply list_elem_of_filter in Hi as [_ Hi]. simpl. rewrite RegionEnd_sane by auto.
    apply sane_info in Hi. lia.
  - simpl. apply sane_module in Hm. lia.
Qed.

Lemma BlockedByInfo_spec R l :
  match BlockedByInfo R l with
  | Some e => exists i, i ∈ l /\ Multiboot.Length i <> 0 /\ e = End_ (info_range i) /\ Overlaps R (info_range i) = true
  | None => forall i, i ∈ l -> Multiboot.Length i <> 0 -> Overlaps R (info_range i) = false
  end.
Proof.
  induction l as [|i l IH]; simpl; [set_solver|].
  fold (info_range i). destruct (Z.eqb_spec (Multiboot.Length i) 0) as [E|E]; simpl.
  - destruct (BlockedByInfo R l); [set_solver|].
    intros j [->|Hj]%elem_of_cons; [done|auto].
  - destruct (Overlaps R (info_range i)) eqn:HO; [exists i; set_solver|].
    destruct (BlockedByInfo R l); [set_solver|].
    intros j [->|Hj]%elem_of_cons; auto.
Qed.

Lemma BlockedByModule_spec R l :
  match BlockedByModule R l with
  | Some e => exists m, m ∈ l /\ e = End_ (module_range m) /\ Overlaps R (module_range m) = true
  | None => forall m, m ∈ l -> Overlaps R (module_range m) = false
  end.
Proof.
  induction l as [|m l IH]; simpl; [set_solver|]. fold (module_range m).
  destruct (Overlaps R (module_range m)) eqn:HO; [exists m; set_solver|].
  destruct (BlockedByModule R l); [set_solver|].
  intros j [->|Hj]%elem_of_cons; auto.
Qed.

(** [IsBlocked] names a blocker that overlaps, and misses none. *)
Lemma IsBlocked_spec R :
  match IsBlocked R with
  | Some e => exists b, b ∈ blockers /\ e = End_ b /\ Overlaps R b = true
  | None => forall b, b ∈ blockers -> Overlaps R b = false
  end.
Proof.
  unfold IsBlocked, blockers. destruct (Overlaps R KernelRange) eqn:HK; [set_solver|].
  pose proof (BlockedByInfo_spec R info_regions) as HI.
  destruct (BlockedByInfo R info_regions).
  { destruct HI as (i & ? & ? & ? & ?). exists (info_range i). split_and!; [|done..].
    rewrite elem_of_cons, elem_of_app, list_elem_of_fmap. right; left. exists i.
    by rewrite list_elem_of_filter. }
  pose proof (BlockedByModule_spec R modules) as HM. destruct (BlockedByModule R modules).
  { destruct HM as (m & ? & ? & ?). exists (module_range m). set_solver. }
  intros b [->|[(i & -> & Hi)%list_elem_of_fmap
    |(m & -> & Hm)%list_elem_of_fmap]%elem_of_app]%elem_of_cons; auto.
  apply list_elem_of_filter in Hi as [??]. auto.
Qed.

(** [align_frame] rounds up to the next frame boundary. *)
Lemma align_frame_ok a : 0 <= a <= 2 ^ 52 ->
  align_frame a mod 4096 = 0 /\ a <= align_frame a < a + 4096.
Proof.
  intros Ha. assert (E : align_frame a = (a + 4095) / 4096 * 4096).
  { unfold align_frame. replace (a +64 SIZE -64 1) with (a + 4095).
    2:{ unfold wrap, SIZE, KIB. rewrite Zminus_mod_idemp_l, Z.mod_small; lia. }
    apply land_page_mask. unfold is_word. lia. }
  rewrite E, Z.mod_mul by lia.
  pose proof (Z.div_mod (a + 4095) 4096). pose proof (Z.mod_pos_bound (a + 4095) 4096). lia.
Qed.

(** A frame aligned place for [bytes] bytes in [R] that no blocker overlaps. *)
Definition fits (R : Range) (bytes p : Z) : Prop :=
  p mod 4096 = 0 /\ Start R <= p /\ p + bytes <= End_ R /\
  forall b, b ∈ blockers -> Overlaps {| Start := p; End_ := p + bytes |} b = false.

Definition pending (start : Z) : nat := length (filter (fun b => start < End_ b) blockers).

Lemma pending_step b start start' :
  b ∈ blockers -> start < End_ b -> End_ b <= start' -> (pending start' < pending start)%nat.
Proof.
  intros Hb Hs Hs'. unfold pending. apply list_elem_of_split in Hb as (l1 & l2 & ->).
  rewrite !filter_app, !filter_cons, !length_app.
  rewrite decide_False, decide_True by lia. simpl.
  assert (Hm : forall l, (length (filter (fun b : Range => start' < End_ b)%Z l) <=
                  length (filter (fun b : Range => start < End_ b)%Z l))%nat).
  { intros l. induction l as [|c l IH]; [done|]. rewrite !filter_cons.
    repeat case_decide; simpl; lia. }
  pose proof (Hm l1). pose proof (Hm l2). lia.
Qed.

(** The retry loop ends with the lowest place that fits, or with 0 when none does. *)
Lemma FirstFit_loop_ok n R bytes start :
  (pending start < n)%nat -> 0 <= bytes <= 2 ^ 52 -> End_ R <= 2 ^ 52 ->
  0 <= start < 2 ^ 53 -> start mod 4096 = 0 -> Start R <= start ->
  exists r, FirstFit_loop n R bytes start = Ok r /\
    ((r = 0 /\ forall p, start <= p -> ~ fits R bytes p) \/ (start <= r /\ fits R bytes r)).
Proof.
  revert start; induction n as [|n IH]; intros start Hn Hby HE Hs Hal HR; [lia|]. simpl.
  rewrite wrap_small by (unfold is_word; lia). case_test.
  2:{ exists 0. split; [done|]. left. split; [done|]. intros p Hp (_ & _ & ? & _). lia. }
  pose proof (IsBlocked_spec {| Start := start; End_ := start + bytes |}) as HB.
  destruct (IsBlocked _) as [e|].
  2:{ exists start. split; [done|]. right. split; [lia|]. by split_and!. }
  destruct HB as (b & Hb & -> & HO). pose proof (blocker_sane b Hb) as [Hb0 Hb1].
  unfold Overlaps in HO. simpl in HO. apply andb_prop in HO as [HO1 HO2].
  destruct (align_frame_ok (End_ b) Hb1) as [HA1 HA2].
  destruct (IH (align_frame (End_ b))) as (r & -> & Hr); try done; try lia.
  { pose proof (pending_step b start (align_frame (End_ b)) Hb). lia. }
  exists r. split; [done|]. destruct Hr as [[-> Hr]|[? Hr]]; [left|right; split; [lia|done]].
  split; [done|]. intros p Hp Hfit. destruct (Z_le_dec (align_frame (End_ b)) p); [by apply (Hr p)|].
  destruct Hfit as (Hpa & HRp & HpE & Hfit).
  assert (p < End_ b).
  { pose proof (Z.div_mod p 4096). pose proof (Z.div_mod (align_frame (End_ b)) 4096). lia. }
  specialize (Hfit b Hb). unfold Overlaps in Hfit. simpl in Hfit. lia.
Qed.

Definition bitmap_window (region : Multiboot.MemoryRegion) : Range :=
  {| Start := Z.max (Multiboot.Address region) MIB;
     End_ := Z.min (Multiboot.RegionEnd region) Config.IDENTITY_MAPPED_LIMIT |}.

(** The bitmap may go to [p]: an available region has room for it there, above the
    first megabyte and below 4 GiB, clear of everything in use. *)
Definition room (l : list Multiboot.MemoryRegion) (bytes p : Z) : Prop :=
  exists region, region ∈ l /\ Multiboot.Type_ region = Multiboot.AVAILABLE /\
    Start (bitmap_window region) < End_ (bitmap_window region) /\
    fits (bitmap_window region) bytes p.

Lemma pending_fuel start : (pending start < FirstFit_fuel)%nat.
Proof.
  unfold pending, FirstFit_fuel.
  pose proof (length_filter (fun b : Range => start < End_ b)%Z blockers) as Hl.
  unfold blockers in Hl at 2. simpl in Hl. rewrite length_app, !length_fmap in Hl.
  pose proof (length_filter (fun i => Multiboot.Length i <> 0) info_regions). lia.
Qed.

Lemma ChooseBitmapLocation_loop_ok l bytes :
  (forall r, r ∈ l -> r ∈ memory_regions) -> 0 <= bytes <= 2 ^ 52 ->
  exists p, ChooseBitmapLocation_loop l bytes = Ok p /\
    ((p = 0 /\ forall q, ~ room l bytes q) \/ (MIB <= p /\ room l bytes p)).
Proof.
  intros Hl Hby. induction l as [|r l IH]; simpl.
  { exists 0. split; [done|]. left. split; [done|]. intros q (r & Hr & _). set_solver. }
  assert (Hrm : r ∈ memory_regions) by (apply Hl; set_solver).
  destruct IH as (p & HP & HI); [intros; apply Hl; set_solver|].
  pose proof (sane_region r Hrm). pose proof (RegionEnd_sane r (or_introl Hrm)) as HRE.
  assert (Hskip : (forall q, fits (bitmap_window r) bytes q -> Multiboot.Type_ r = Multiboot.AVAILABLE ->
            Start (bitmap_window r) < End_ (bitmap_window r) -> False) ->
    exists p, ChooseBitmapLocation_loop l bytes = Ok p /\
     ((p = 0 /\ forall q, ~ room (r :: l) bytes q) \/ (MIB <= p /\ room (r :: l) bytes p))).
  { intros Hno. exists p. split; [done|]. destruct HI as [[-> HI]|[? HI]]; [left|right]; (split; [done|]).
    - intros q (r' & [->|Hr']%elem_of_cons & ? & ? & ?); [by eapply Hno|].
      apply (HI q). by exists r'.
    - destruct HI as (r' & ? & ?). exists r'. set_solver. }
  destruct (Z.eqb_spec (Multiboot.Type_ r) Multiboot.AVAILABLE) as [HT|HT]; simpl; [|by apply Hskip].
  rewrite Math.Max_max, Math.Min_min. fold (bitmap_window r).
  destruct (Z.leb_spec (Multiboot.RegionEnd r `min` Config.IDENTITY_MAPPED_LIMIT)
                       (Multiboot.Address r `max` MIB)) as [HW|HW].
  { apply Hskip. simpl. lia. }
  assert (Hst : 0 <= Start (bitmap_window r) <= 2 ^ 52) by (simpl; unfold MIB, KIB; lia).
  destruct (align_frame_ok _ Hst) as [HA1 HA2].
  destruct (FirstFit_loop_ok FirstFit_fuel (bitmap_window r) bytes
              (align_frame (Start (bitmap_window r)))) as (q & Hq & HQ);
    try done; try lia; [apply pending_fuel|simpl; lia|].
  unfold FirstFit. rewrite Hq. cbn [obind]. destruct HQ as [[-> HQ]|[HQ1 HQ2]].
  - apply Hskip. intros q Hf _ _. apply (HQ q); [|done]. destruct Hf as (Hal & Hge & _).
    pose proof (Z.div_mod q 4096). pose proof (Z.div_mod (align_frame (Start (bitmap_window r))) 4096). lia.
  - assert (MIB <= q) by (simpl in *; lia). unfold MIB, KIB in *.
    replace (q =? 0) with false by lia. simpl. exists q. split; [done|]. right. split; [done|].
    exists r. set_solver.
Qed.

(** *** The state [Initialize] leaves *)

Lemma Highest_bounds l h : 0 <= h <= 2 ^ 52 -> (forall r, r ∈ l -> r ∈ memory_regions) ->
  let f := fun highest region =>
    if Multiboot.Type_ region =? Multiboot.AVAILABLE
    then Math.Max highest (Multiboot.RegionEnd region) else highest in
  h <= foldl f h l <= 2 ^ 52 /\
  forall r, r ∈ l -> Multiboot.Type_ r = Multiboot.AVAILABLE -> Multiboot.RegionEnd r <= foldl f h l.
Proof.
  intros Hh Hl f. revert h Hh. induction l as [|r l IH]; intros h Hh; simpl; [split; [lia|set_solver]|].
  assert (Hr : r ∈ memory_regions) by (apply Hl; set_solver).
  pose proof (sane_region r Hr). pose proof (RegionEnd_sane r (or_introl Hr)).
  assert (Hf : h <= f h r <= 2 ^ 52 /\
    (Multiboot.Type_ r = Multiboot.AVAILABLE -> Multiboot.RegionEnd r <= f h r)).
  { unfold f. rewrite Math.Max_max. case_test; lia. }
  destruct (IH ltac:(intros; apply Hl; set_solver) (f h r) ltac:(lia)) as [K1 K2].
  split; [lia|]. intros r' [->|Hr']%elem_of_cons HT; [|by apply K2].
  destruct Hf as [_ Hf]. specialize (Hf HT). lia.
Qed.

Definition boot_frames : Z := (HighestAvailableAddress + 4095) / 4096.
Definition bitmap_bytes : Z := 8 * ((boot_frames + 63) / 64).

Lemma boot_frames_bounds : 0 <= boot_frames <= 2 ^ 40 /\ 0 <= bitmap_bytes <= 2 ^ 38 /\
  boot_frames <= 8 * bitmap_bytes /\
  (forall j, 0 <= j -> usable_frame j = true -> j < boot_frames).
Proof.
  destruct (Highest_bounds memory_regions 0) as [H1 H2]; [lia|done|].
  fold HighestAvailableAddress in H1, H2. unfold bitmap_bytes, boot_frames.
  set (F := (HighestAvailableAddress + 4095) / 4096).
  assert (0 <= F) by (apply Z.div_pos; lia).
  assert (F < 2 ^ 40 + 1) by (apply Z.div_lt_upper_bound; lia).
  pose proof (Z.div_mod (HighestAvailableAddress + 4095) 4096).
  pose proof (Z.mod_pos_bound (HighestAvailableAddress + 4095) 4096).
  pose proof (Z.div_mod (F + 63) 64). pose proof (Z.mod_pos_bound (F + 63) 64).
  split_and!; try lia. intros j Hj HU. unfold usable_frame in HU.
  apply existsb_exists in HU as (r & Hr & HU). apply andb_prop in HU as [HT HC].
  apply list_elem_of_In in Hr. specialize (H2 r Hr ltac:(lia)).
  unfold covered, SIZE, KIB in HC. subst F. lia.
Qed.

Definition boot_state : t :=
  {| s_Taken := replicate (Z.to_nat (bitmap_bytes / 8)) ALL_TAKEN;
     s_WordCount := bitmap_bytes / 8; s_FrameCount := boot_frames;
     s_ReachableFrames := Z.min (2 ^ 20) boot_frames;
     s_TotalFrames := 0; s_FreeFrames := 0; s_NextIndex := 0 |}.

Lemma boot_state_ok : bitmap_ok boot_state /\ free_count boot_state = 0 /\
  forall j, 0 <= j < boot_frames -> taken boot_state j = true.
Proof.
  destruct boot_frames_bounds as (HF & HB & HFB & _).
  assert (HW : bitmap_bytes / 8 * 8 = bitmap_bytes).
  { unfold bitmap_bytes. rewrite (Z.mul_comm 8), Z.div_mul by lia. done. }
  assert (HT : forall j, 0 <= j < boot_frames -> taken boot_state j = true).
  { intros j Hj. unfold taken, BITS_PER_WORD. simpl.
    assert (0 <= j / 64) by (apply Z.div_pos; lia).
    assert (j / 64 < bitmap_bytes / 8) by (apply Z.div_lt_upper_bound; lia).
    rewrite lookup_total_replicate_2 by lia. change ALL_TAKEN with (Z.ones 64).
    pose proof (Z.mod_pos_bound j 64). apply Z.ones_spec_low. lia. }
  split_and!; [| |done].
  - split; simpl; [by rewrite length_replicate| |lia|lia].
    apply Forall_replicate. unfold is_word, ALL_TAKEN. vm_compute. by split.
  - unfold free_count. simpl. rewrite (count_free_ext _ (fun _ => true)) by (intros; apply HT; lia).
    by induction (Z.to_nat boot_frames) as [|n IH]; simpl; [|rewrite IH].
Qed.

Lemma Initialize_unfold : Initialize =
  let* location := ChooseBitmapLocation bitmap_bytes in
  if location =? 0 then Panic "No room for the frame bitmap"
  else
    let* s := AddAvailableMemory boot_state in
    let* s := ReserveKnownUsers s in
    let* s := Reserve location (location +64 bitmap_bytes) s in
    if s_FreeFrames s =? 0 then Panic "No usable physical memory" else Ok (s, location).
Proof.
  destruct boot_frames_bounds as (HF & HB & HFB & _).
  destruct (Highest_bounds memory_regions 0) as [H1 H2]; [lia|done|].
  fold HighestAvailableAddress in H1, H2. unfold Initialize.
  assert (E1 : (HighestAvailableAddress +64 SIZE -64 1) / SIZE = boot_frames)
    by (apply div_up_wrap; lia).
  assert (E2 : (boot_frames +64 BITS_PER_WORD -64 1) / BITS_PER_WORD = bitmap_bytes / 8).
  { unfold BITS_PER_WORD, wrap. rewrite Zminus_mod_idemp_l, Z.mod_small by lia.
    unfold bitmap_bytes. rewrite (Z.mul_comm 8), Z.div_mul by lia. f_equal. lia. }
  assert (E3 : (bitmap_bytes / 8) *64 8 = bitmap_bytes).
  { unfold bitmap_bytes at 1. rewrite (Z.mul_comm 8), Z.div_mul by lia.
    rewrite wrap_small by (unfold is_word, bitmap_bytes in *; lia). unfold bitmap_bytes. lia. }
  rewrite E1. cbv zeta. rewrite E2, E3, Math.Min_min. done.
Qed.

Lemma count_free_zero f n : count_free f n = 0 <-> forall i, 0 <= i < Z.of_nat n -> f i = true.
Proof.
  induction n as [|n IH]; simpl; [split; [lia|done]|].
  pose proof (count_free_bounds f n). split.
  - intros Hz. destruct (f (Z.of_nat n)) eqn:E; [|lia]. intros i Hi.
    destruct (Z.eq_dec i (Z.of_nat n)) as [->|]; [done|]. apply IH; lia.
  - intros Hall. rewrite (Hall (Z.of_nat n)) by lia. rewrite Z.add_0_r.
    apply IH. intros; apply Hall. lia.
Qed.
End Boot.

(** ** [Free] of a run that is out *)

Lemma Free_ok `{Build} U s first count :
  wf U s -> 0 < first -> 0 < count -> first + count <= s_FrameCount s ->
  (forall i, first <= i < first + count -> taken s i = true /\ U i = false) ->
  exists s', Free (first * SIZE) count s = Ok s' /\ wf U s' /\ same_shape s s' /\
    s_FreeFrames s' = s_FreeFrames s + count /\
    (forall j, 0 <= j -> taken s' j = negb ((first <=? j) && (j <? first + count)) && taken s j).
Proof.
  intros Hwf Hf Hc Hle Hall. pose proof (wf_count_bounds _ _ Hwf) as (HF & HT & H52).
  destruct Hwf as [Hb Hfree Hus Htot Hre Hne]. unfold Free.
  assert (HS : 0 < SIZE) by done.
  replace (first * SIZE =? 0) with false by nia. replace (count =? 0) with false by lia.
  simpl orb. cbv iota. rewrite Z.mod_mul, Z.div_mul by lia. rewrite Z.eqb_refl, ASSERT_true.
  cbn [obind]. rewrite (wrap_small 64 (first + count)) by (unfold is_word; lia).
  replace (first + count <=? s_FrameCount s) with true by lia. rewrite ASSERT_true. cbn [obind].
  replace (first + count - first) with count by lia.
  destruct (Free_loop_ok (Z.to_nat count) first s) as (s1 & -> & Hsr); try done; try lia.
  { intros i Hi. apply Hall. lia. }
  rewrite Z2Nat.id in * by lia. pose proof Hsr as [Hb1 Ht1 Hs1].
  assert (Hfc : free_count s1 = free_count s + count).
  { apply (sets_run_count false first); try done; try lia. intros i Hi. by apply Hall. }
  clear Hsr. assert (exists w, s1 = with_taken s w) as [w ->] by eauto. clear Hs1.
  eexists. split; [done|]. split_and!; [|done|done|].
  - split; simpl; try done.
    + by apply bitmap_ok_counts.
    + change (free_count (with_counts _ _ _)) with (free_count (with_taken s w)). lia.
    + intros i Hi HU. rewrite taken_with_counts, Ht1 by lia.
      repeat case_test; simpl; try (by apply Hus). destruct (Hall i) as [_ ?]; [lia|congruence].
  - intros j Hj. rewrite taken_with_counts, Ht1 by done. by destruct (_ && _).
Qed.

(** A [Free] that returns had only taken frames before it. *)
Lemma Free_loop_checked `{Build} n a s s' :
  NDEBUG = false -> bitmap_ok s -> 0 <= a -> a + Z.of_nat n <= s_FrameCount s ->
  Free_loop n a s = Ok s' -> forall i, a <= i < a + Z.of_nat n -> taken s i = true.
Proof.
  intros HN. revert a s; induction n as [|n IH]; intros a s Hb Ha Hn HF i Hi; [lia|].
  simpl in HF. rewrite IsTaken_ok in HF by (done || lia). simpl in HF.
  unfold ASSERT in HF. rewrite HN in HF. destruct (taken s a) eqn:E; [|done]. simpl in HF.
  destruct (Release_ok s a Hb) as (w & HR & Hb' & Ht); [lia|]. rewrite HR in HF. simpl in HF.
  destruct (Z.eq_dec i a) as [->|]; [done|].
  assert (Hi' : taken (with_counts (with_taken s w) (s_TotalFrames s) (s_FreeFrames s +64 1)) i = true).
  { apply (IH (a + 1) _ (bitmap_ok_counts _ _ _ Hb')); simpl; [lia|lia|done|lia]. }
  rewrite taken_with_counts, Ht in Hi' by lia. by destruct (i =? a).
Qed.

(** ** Sequences of calls

    The callers together: [live] lists the runs handed out and not yet given
    back, as (first frame, count). *)
Inductive call `{Build} : t * list (Z * Z) -> t * list (Z * Z) -> Prop :=
| call_Allocate s live count r s' :
    is_word 64 count -> Allocate count s = Ok (r, s') -> r <> 0 ->
    call (s, live) (s', (r / SIZE, count) :: live)
| call_Allocate_none s live count s' :
    is_word 64 count -> Allocate count s = Ok (0, s') -> call (s, live) (s', live)
| call_Free s l1 first count l2 s' :
    Free (first * SIZE) count s = Ok s' ->
    call (s, l1 ++ (first, count) :: l2) (s', l1 ++ l2)
| call_SetReachableLimit s live limit :
    0 <= limit -> call (s, live) (SetReachableLimit limit s, live).

Definition frames_of (live : list (Z * Z)) : list Z := live ≫= fun r => seqZ r.1 r.2.

Definition total_of (live : list (Z * Z)) : Z := foldr (fun r n => r.2 + n) 0 live.

Arguments frames_of : simpl never.
Arguments total_of : simpl never.

Lemma frames_of_cons r live : frames_of (r :: live) = seqZ r.1 r.2 ++ frames_of live.
Proof. done. Qed.

Lemma frames_of_app l1 l2 : frames_of (l1 ++ l2) = frames_of l1 ++ frames_of l2.
Proof. apply bind_app. Qed.

Lemma total_of_app l1 l2 : total_of (l1 ++ l2) = total_of l1 + total_of l2.
Proof. induction l1 as [|r l1 IH]; simpl; [done|]. unfold total_of in *. simpl. lia. Qed.

Record calls_inv (U : Z -> bool) (free0 : Z) (st : t * list (Z * Z)) : Prop := {
  ci_wf : wf U st.1;
  ci_null : 0 < s_FrameCount st.1 -> taken st.1 0 = true;
  ci_disjoint : NoDup (frames_of st.2);
  ci_live : forall i, i ∈ frames_of st.2 ->
    0 < i < s_FrameCount st.1 /\ taken st.1 i = true /\ U i = false;
  ci_counts : Forall (fun r => 0 < r.2) st.2;
  ci_conserved : s_FreeFrames st.1 + total_of st.2 = free0 }.

Lemma calls_inv_Allocate U free0 s live count r s' :
  calls_inv U free0 (s, live) -> is_word 64 count -> Allocate count s = Ok (r, s') ->
  calls_inv U free0 (s', if r =? 0 then live else (r / SIZE, count) :: live).
Proof.
  intros [Hwf Hn Hd Hl Hc Hcons] Hw HA. simpl in *.
  destruct (Allocate_ok U s count Hwf Hw) as (r' & s'' & HA' & Hwf' & Hspec).
  rewrite HA in HA'. injection HA' as <- <-.
  destruct Hspec as [|first s' Hc0 H0 Hr Hfr HU Ht Hfree HFC HRe HTot]; [done|].
  assert (0 < first).
  { destruct (Z.eq_dec first 0) as [->|]; [|lia]. pose proof (wf_reach _ _ Hwf).
    specialize (Hfr 0 ltac:(lia)). rewrite Hn in Hfr; [done|lia]. }
  assert (HS : 0 < SIZE) by done. replace (first * SIZE =? 0) with false by nia.
  rewrite Z.div_mul by lia. pose proof (wf_reach _ _ Hwf). split; simpl.
  - done.
  - intros. rewrite Ht, Hn by lia. btauto.
  - rewrite frames_of_cons. apply NoDup_app. split_and!; [apply NoDup_seqZ| |done].
    intros i Hi Hi'. apply elem_of_seqZ in Hi. simpl in Hi. destruct (Hl i Hi') as (_ & Hti & _).
    rewrite Hfr in Hti; [done|lia].
  - intros i. rewrite frames_of_cons, elem_of_app, elem_of_seqZ. simpl. intros [Hi|Hi].
    + rewrite Ht by lia. split_and!; [lia|lia| |by apply HU].
      by replace ((first <=? i) && (i <? first + count)) with true by lia.
    + destruct (Hl i Hi) as (? & Hti & ?). rewrite Ht, Hti by lia. split_and!; [lia|lia|btauto|done].
  - by constructor.
  - unfold total_of in *. simpl. lia.
Qed.

Lemma calls_inv_Free `{Build} U free0 s l1 first count l2 :
  calls_inv U free0 (s, l1 ++ (first, count) :: l2) ->
  exists s', Free (first * SIZE) count s = Ok s' /\ calls_inv U free0 (s', l1 ++ l2).
Proof.
  intros [Hwf Hn Hd Hl Hc Hcons]. simpl in *.
  rewrite frames_of_app, frames_of_cons in Hd, Hl. simpl in Hd, Hl.
  assert (Hcp : 0 < count). { apply Forall_app in Hc as [_ Hc]. by inversion Hc. }
  assert (Hrun : forall i, first <= i < first + count -> 0 < i < s_FrameCount s /\ taken s i = true /\ U i = false).
  { intros i Hi. apply Hl. rewrite !elem_of_app, elem_of_seqZ. auto. }
  assert (Hf0 : 0 < first) by (pose proof (Hrun first); lia).
  assert (Hfe : first + count <= s_FrameCount s) by (pose proof (Hrun (first + count - 1)); lia).
  destruct (Free_ok U s first count Hwf) as (s' & HFr & Hwf' & Hsh & Hfree & Ht); try done.
  { intros i Hi. by apply Hrun. }
  exists s'. split; [done|]. destruct Hsh as (_ & HFC & _).
  rewrite (Permutation_app_comm (seqZ _ _)), app_assoc in Hd.
  apply NoDup_app in Hd as (Hd & Hdis & _). split; simpl; rewrite ?frames_of_app.
  - done.
  - intros. rewrite Ht, Hn by lia. by replace ((first <=? 0) && (0 <? first + count)) with false by lia.
  - done.
  - intros i Hi. destruct (Hl i) as (? & Hti & ?); [set_solver|]. rewrite HFC, Ht, Hti by lia.
    specialize (Hdis i Hi). rewrite elem_of_seqZ in Hdis.
    replace ((first <=? i) && (i <? first + count)) with false by lia. done.
  - rewrite Forall_app, Forall_cons in *. tauto.
  - rewrite total_of_app in *. unfold total_of at 2 in Hcons. simpl in Hcons.
    fold (total_of l2) in Hcons. lia.
Qed.

Lemma SetReachableLimit_wf U s limit : wf U s -> 0 <= limit -> wf U (SetReachableLimit limit s).
Proof.
  intros [Hb Hfree Hus Htot Hre Hne] Hl. split; try done; simpl.
  - by destruct Hb; split.
  - rewrite Math.Min_min. assert (0 <= limit / SIZE) by (apply Z.div_pos; unfold SIZE, KIB; lia). lia.
Qed.

Lemma calls_inv_step `{Build} U free0 st st' :
  calls_inv U free0 st -> call st st' -> calls_inv U free0 st'.
Proof.
  intros HI Hstep. destruct Hstep as [s live count r s' Hw HA Hr|s live count s' Hw HA
    |s l1 first count l2 s' HFr|s live limit Hlim].
  - pose proof (calls_inv_Allocate U free0 s live count r s' HI Hw HA) as Hx.
    by replace (r =? 0) with false in Hx by lia.
  - exact (calls_inv_Allocate U free0 s live count 0 s' HI Hw HA).
  - destruct (calls_inv_Free U free0 s l1 first count l2 HI) as (s'' & HFr' & HI').
    by rewrite HFr in HFr'; injection HFr' as <-.
  - destruct HI as [Hwf Hn Hd Hl Hc Hcons]. split; try done. simpl in *.
    by apply SetReachableLimit_wf.
Qed.

Lemma calls_inv_steps `{Build} U free0 st st' :
  calls_inv U free0 st -> rtc call st st' -> calls_inv U free0 st'.
Proof. intros HI Hs. induction Hs; [done|]. eauto using calls_inv_step. Qed.

(** ** Properties *)

(** [Allocate] always returns; it answers a run of [count] frames that were all
    free, reachable and backed by usable memory, marks exactly those taken and keeps
    the invariant; it answers 0 only for an empty request or when no such run exists
    anywhere below the reachable limit. *)
Theorem frame_allocate_refines_spec U s count :
  wf U s -> is_word 64 count ->
  exists r s', Allocate count s = Ok (r, s') /\ wf U s' /\ allocate_spec U s count r s'.
Proof. apply Allocate_ok. Qed.

(** C18: Under any sequence of [Allocate], [Free] (of what was handed out) and
    [SetReachableLimit] calls, no frame is ever out twice, no reserved or unbacked
    frame and never frame 0 is handed out, the free counter plus the frames out is
    constant, and every run that is out can be given back. *)
Theorem frame_live_runs_disjoint `{Build} U s live :
  forall s0, wf U s0 -> (0 < s_FrameCount s0 -> taken s0 0 = true) ->
  rtc call (s0, []) (s, live) ->
  NoDup (frames_of live) /\
  (forall i, i ∈ frames_of live -> 0 < i < s_FrameCount s /\ U i = false /\ taken s i = true) /\
  GetFreeFrames s + total_of live = GetFreeFrames s0 /\
  (forall first count, (first, count) ∈ live -> is_Ok (Free (first * SIZE) count s)).
Proof.
  intros s0 Hwf Hnull Hsteps.
  assert (HI : calls_inv U (s_FreeFrames s0) (s, live)).
  { apply (calls_inv_steps U (s_FreeFrames s0) (s0, [])); [|done]. split; try done; simpl; [apply NoDup_nil_2|intros i Hi; by apply elem_of_nil in Hi|]. unfold total_of. simpl. lia. }
  pose proof HI as [_ _ Hd Hl _ Hc]. split_and!; try done.
  - intros i Hi. destruct (Hl i Hi) as (?&?&?). done.
  - intros first count Hin. apply list_elem_of_split in Hin as (l1 & l2 & ->).
    destruct (calls_inv_Free U _ s l1 first count l2 HI) as (s' & -> & _). by exists s'.
Qed.

(** Giving back what [Allocate] just returned restores every bit of the bitmap
    and the free counter. *)
Theorem frame_allocate_free_roundtrip `{Build} U s count r s' :
  wf U s -> (0 < s_FrameCount s -> taken s 0 = true) -> is_word 64 count ->
  Allocate count s = Ok (r, s') ->
  exists s'', Free r count s' = Ok s'' /\ wf U s'' /\
    GetFreeFrames s'' = GetFreeFrames s /\ GetUsedFrames s'' = GetUsedFrames s /\
    forall j, 0 <= j -> taken s'' j = taken s j.
Proof.
  intros Hwf Hnull Hw HA. destruct (Allocate_ok U s count Hwf Hw) as (r' & s1 & HA' & Hwf' & Hs).
  rewrite HA in HA'. injection HA' as <- <-.
  destruct Hs as [|first s' Hc0 H0 Hr Hfr HU Ht Hfree HFC HRe HTot]; [by exists s|].
  pose proof (wf_reach _ _ Hwf).
  assert (0 < first).
  { destruct (Z.eq_dec first 0) as [->|]; [|lia].
    specialize (Hfr 0 ltac:(lia)). rewrite Hnull in Hfr; [done|lia]. }
  destruct (Free_ok U s' first count) as (s2 & -> & Hwf2 & Hsh & Hfree2 & Ht2); try done; try lia.
  { intros i Hi. rewrite Ht by lia.
    replace ((first <=? i) && (i <? first + count)) with true by lia. auto. }
  exists s2. unfold GetFreeFrames, GetUsedFrames.
  assert (s_TotalFrames s2 = s_TotalFrames s).
  { destruct Hsh as (_ & HFC2 & _). destruct Hwf2 as [_ _ _ -> _ _], Hwf as [_ _ _ -> _ _].
    by rewrite HFC2, HFC. }
  split_and!; [done|done|lia|do 2 f_equal; lia|].
  intros j Hj. rewrite Ht2, Ht by done. repeat case_test; simpl; try done. by rewrite Hfr by lia.
Qed.

(** In a debug build a [Free] that returns was given a frame-aligned run inside
    the bitmap whose frames were all taken: a double free, a misaligned address or a
    run past the end stops the kernel. *)
Theorem frame_double_free_detected `{Build} U s addr count s' :
  NDEBUG = false -> wf U s -> 0 < addr < 2 ^ 64 -> 0 < count < 2 ^ 64 - 2 ^ 52 ->
  Free addr count s = Ok s' ->
  addr mod SIZE = 0 /\ addr / SIZE + count <= s_FrameCount s /\
  forall i, addr / SIZE <= i < addr / SIZE + count -> taken s i = true.
Proof.
  intros HN Hwf Ha Hc HF. unfold Free in HF.
  replace (addr =? 0) with false in HF by lia. replace (count =? 0) with false in HF by lia.
  simpl in HF. unfold ASSERT in HF. rewrite HN in HF.
  destruct (Z.eqb_spec (addr mod SIZE) 0) as [E|E]; [|done]. cbn [obind] in HF.
  assert (0 <= addr / SIZE) by (apply Z.div_pos; unfold SIZE, KIB; lia).
  assert (addr / SIZE < 2 ^ 52) by (apply Z.div_lt_upper_bound; unfold SIZE, KIB; lia).
  rewrite (wrap_small 64 (addr / SIZE + count)) in HF by (unfold is_word; lia).
  destruct (Z.leb_spec (addr / SIZE + count) (s_FrameCount s)) as [HL|HL]; [|done].
  cbn [obind] in HF. replace (addr / SIZE + count - addr / SIZE) with count in HF by lia.
  split_and!; [done|done|]. intros i Hi.
  eapply (Free_loop_checked (Z.to_nat count) (addr / SIZE)); try done; try lia. apply Hwf.
Qed.

(** The outcome of [Initialize], case by case. *)
Lemma Initialize_exact `{BI : BootInfo} `{!BootInfoSane} :
  (Initialize = Panic "No room for the frame bitmap" /\
   forall p, ~ room memory_regions bitmap_bytes p) \/
  exists loc, MIB <= loc /\ room memory_regions bitmap_bytes loc /\
    ((Initialize = Panic "No usable physical memory" /\
      forall j, 0 <= j -> usable_frame j = true -> reserved_frame loc bitmap_bytes j = true) \/
     exists s, Initialize = Ok (s, loc) /\ wf (fun j => negb (usable_frame j)) s /\
       s_FrameCount s = boot_frames /\
       (forall j, 0 <= j -> usable_frame j = true -> j < boot_frames) /\
       (forall j, 0 <= j < boot_frames ->
          taken s j = negb (usable_frame j) || reserved_frame loc bitmap_bytes j)).
Proof.
  destruct boot_frames_bounds as (HF & HB & HFB & HU). destruct boot_state_ok as (Hb0 & Hf0 & Ht0).
  rewrite Initialize_unfold. unfold ChooseBitmapLocation.
  destruct (ChooseBitmapLocation_loop_ok memory_regions bitmap_bytes) as (loc & -> & HR); [done|lia|].
  cbn [obind]. destruct HR as [[-> HR]|[HM HR]]; [by left|right].
  exists loc. split_and!; [done|done|].
  replace (loc =? 0) with false by (unfold MIB, KIB in HM; lia).
  destruct (AddAvailableMemory_loop_ok memory_regions boot_state) as (s1 & HA & M1); try done.
  unfold AddAvailableMemory. rewrite HA. cbn [obind]. pose proof M1 as [Hb1 Hf1 Htot1 Hsh1 Ht1].
  destruct (ReserveKnownUsers_ok s1) as (s2 & -> & M2); try done. cbn [obind].
  assert (loc + bitmap_bytes <= 2 ^ 32).
  { destruct HR as (r & _ & _ & _ & (_ & _ & He & _)). simpl in He.
    unfold Config.IDENTITY_MAPPED_LIMIT, GIB, MIB, KIB in He. lia. }
  unfold MIB, KIB in HM. rewrite wrap_small by (unfold is_word; lia).
  pose proof M2 as [Hb2 Hf2 _ _ _].
  destruct (Reserve_ok loc (loc + bitmap_bytes) s2) as (s3 & -> & M3); try done; try lia.
  cbn [obind]. pose proof (marked_trans _ _ _ _ _ _ M2 M3) as [Hb3 Hf3 Htot3 Hsh3 Ht3].
  assert (HFC : s_FrameCount s1 = boot_frames /\ s_FrameCount s3 = boot_frames).
  { destruct Hsh1 as (_ & E1 & _), Hsh3 as (_ & E3 & _). by rewrite E3, E1. }
  destruct HFC as [HFC1 HFC3].
  assert (Ht : forall j, 0 <= j < boot_frames ->
     taken s3 j = negb (usable_frame j) || reserved_frame loc bitmap_bytes j).
  { intros j Hj. rewrite Ht3, Ht1, Ht0 by (simpl; lia). unfold reserved_frame.
    fold (usable_frame j). destruct (usable_frame j), (touched loc (loc + bitmap_bytes) j); simpl; btauto. }
  assert (Htot : s_TotalFrames s3 = count_free (fun j => negb (usable_frame j)) (Z.to_nat boot_frames)).
  { rewrite (count_free_ext _ (taken s1)).
    - replace (s_TotalFrames s3) with (s_FreeFrames s1) by (simpl in Htot1; lia).
      rewrite Hf1. unfold free_count. by rewrite HFC1.
    - intros j Hj. rewrite Ht1, Ht0 by (simpl; lia). fold (usable_frame j). by destruct (usable_frame j). }
  destruct (Z.eqb_spec (s_FreeFrames s3) 0) as [E|E]; [left|right].
  - split; [done|]. intros j Hj Hu. rewrite Hf3 in E. unfold free_count in E.
    rewrite HFC3 in E. rewrite count_free_zero in E. specialize (HU j Hj Hu).
    specialize (E j ltac:(lia)). rewrite Ht, Hu in E by lia. done.
  - exists s3. split_and!; try done. destruct Hsh1 as (_ & _ & R1 & N1), Hsh3 as (_ & _ & R3 & N3).
    split; rewrite ?HFC3, ?R3, ?N3, ?R1, ?N1; try done.
    + intros i Hi Hn. by rewrite Ht, Hn.
    + simpl. lia.
Qed.

(** C20: [Initialize] always ends.  It panics exactly when no available region has
    room for the bitmap or nothing usable is left; otherwise the bitmap lies above
    1 MiB and below 4 GiB in available memory clear of the kernel, the loader's
    structures and the modules, every usable frame has a bit, and a frame is free
    exactly when an available region covers it wholly and nothing reserved touches
    it. *)
Theorem frame_initialize_exact `{BI : BootInfo} `{!BootInfoSane} :
  (Initialize = Panic "No room for the frame bitmap" /\
   forall p, ~ room memory_regions bitmap_bytes p) \/
  exists loc, MIB <= loc /\ room memory_regions bitmap_bytes loc /\
    ((Initialize = Panic "No usable physical memory" /\
      forall j, 0 <= j -> usable_frame j = true -> reserved_frame loc bitmap_bytes j = true) \/
     exists s, Initialize = Ok (s, loc) /\ wf (fun j => negb (usable_frame j)) s /\
       s_FrameCount s = boot_frames /\
       (forall j, 0 <= j -> usable_frame j = true -> j < boot_frames) /\
       (forall j, 0 <= j < boot_frames ->
          taken s j = negb (usable_frame j) || reserved_frame loc bitmap_bytes j)).
Proof. apply Initialize_exact. Qed.

(** ** Witnesses *)

Definition debug_build : Build := {| NDEBUG := false |}.

(** Eight frames, frame 0 in use. *)
Definition small : t :=
  {| s_Taken := [0xFFFFFFFFFFFFFF01]; s_WordCount := 1; s_FrameCount := 8;
     s_ReachableFrames := 8; s_TotalFrames := 7; s_FreeFrames := 7; s_NextIndex := 0 |}.

Definition small_after : t :=
  match Allocate 3 small with Ok (_, s) => s | _ => small end.

Lemma small_wf : wf (fun i => i =? 0) small.
Proof.
  split; try done; simpl; try lia.
  - split; simpl; [done| |lia|lia]. repeat constructor; vm_compute; done.
  - intros i Hi Hu. by replace i with 0 by lia.
Qed.

Lemma frame_allocate_refines_spec_witness :
  exists r s', Allocate 3 small = Ok (r, s') /\ wf (fun i => i =? 0) s' /\
               allocate_spec (fun i => i =? 0) small 3 r s'.
Proof. apply (frame_allocate_refines_spec _ small 3); [apply small_wf|split; done]. Defined.

Lemma frame_live_runs_disjoint_witness :
  frames_of [(1, 3)] = [1; 2; 3] /\ NoDup (frames_of [(1, 3)]) /\
  GetFreeFrames small_after + total_of [(1, 3)] = 7.
Proof.
  split; [done|].
  destruct (@frame_live_runs_disjoint debug_build (fun i => i =? 0) small_after [(1, 3)] small)
    as (H1 & _ & H2 & _).
  - apply small_wf.
  - done.
  - apply rtc_once. apply (@call_Allocate debug_build small [] 3 4096 small_after);
      [split; done|vm_compute; reflexivity|done].
  - split; [exact H1|exact H2].
Defined.

Lemma frame_allocate_free_roundtrip_witness :
  exists s'', @Free debug_build 4096 3 small_after = Ok s'' /\
              GetFreeFrames s'' = 7 /\ forall j, 0 <= j -> taken s'' j = taken small j.
Proof.
  destruct (@frame_allocate_free_roundtrip debug_build (fun i => i =? 0) small 3 4096 small_after)
    as (s'' & H1 & _ & H2 & _ & H3).
  - apply small_wf.
  - done.
  - split; done.
  - vm_compute. reflexivity.
  - exists s''. split; [exact H1|]. split; [exact H2|exact H3].
Defined.

Lemma frame_double_free_detected_witness :
  @Free debug_build 4096 3 small = AssertFailed "IsTaken(index)" /\
  taken small_after 1 = true /\ taken small_after 3 = true.
Proof.
  split; [vm_compute; reflexivity|].
  destruct (@frame_double_free_detected debug_build (fun i => i =? 0) small_after 4096 3
     (match @Free debug_build 4096 3 small_after with Ok s => s | _ => small end)) as (_ & _ & H).
  - reflexivity.
  - destruct (Allocate_ok (fun i => i =? 0) small 3 small_wf) as (r & s' & H1 & H2 & _); [split; done|].
    vm_compute in H1. injection H1 as <- <-. exact H2.
  - split; reflexivity.
  - split; reflexivity.
  - vm_compute. reflexivity.
  - change (4096 / SIZE) with 1 in H. split; apply H; split; (discriminate || reflexivity).
Defined.

(** A machine with 3 MiB of memory, the kernel at 1 MiB and one module. *)
Definition small_machine : BootInfo := {|
  memory_regions :=
    [ {| Multiboot.Address := 0; Multiboot.Length := 0x9FC00; Multiboot.Type_ := 1 |};
      {| Multiboot.Address := 0x9FC00; Multiboot.Length := 0x400; Multiboot.Type_ := 2 |};
      {| Multiboot.Address := 0x100000; Multiboot.Length := 0x200000; Multiboot.Type_ := 1 |} ];
  info_regions := [ {| Multiboot.Address := 0x9000; Multiboot.Length := 116; Multiboot.Type_ := 2 |} ];
  modules := [ {| Multiboot.Start := 0x181000; Multiboot.End_ := 0x182345; Multiboot.CommandLine := 0 |} ];
  BOOT_START := 0x100000; KERNEL_END := 0xFFFFFFFF80180800 |}.

Lemma small_machine_sane : @BootInfoSane small_machine.
Proof.
  split; simpl.
  - intros r Hr. rewrite !elem_of_cons, elem_of_nil in Hr.
    destruct Hr as [->|[->|[->|[]]]]; simpl; lia.
  - intros r Hr%list_elem_of_singleton. subst. simpl. lia.
  - intros m Hm%list_elem_of_singleton. subst. simpl. lia.
  - unfold Config.KERNEL_VMA. lia.
Qed.

(** The bitmap of the small machine lands in the first frame after the module. *)
Lemma frame_initialize_exact_witness :
  exists s, @Initialize small_machine = Ok (s, 0x183000) /\
            wf (fun j => negb (@usable_frame small_machine j)) s.
Proof.
  destruct (@frame_initialize_exact small_machine small_machine_sane)
    as [[H _]|(loc & _ & _ & [[H _]|(s & H & Hwf & _)])].
  - vm_compute in H. discriminate.
  - vm_compute in H. discriminate.
  - exists s. split; [|exact Hwf]. rewrite H. f_equal. f_equal.
    vm_compute in H. injection H as _ <-. reflexivity.
Defined.
