(* ===== verification/FrameInterface.v ===== *)
(** * What the frame allocator promises to its clients

    The page tables, the kernel stacks and the heap only see this interface; their
    theorems are proved against [FrameAllocatorLaws].  The instances at the end
    discharge it with Memory/Frame.cpp. *)

From S2P Require Import Prelude Config Frame FrameSpec.

Class FrameAllocator (F : Type) := {
  fa_Allocate : Z -> F -> outcome (Z * F);
  fa_Free : Z -> Z -> F -> outcome F;
  fa_SetReachableLimit : Z -> F -> F }.

(** [p] is the address of one of the [count] pages of the run at [r]. *)
Definition in_run (r count p : Z) : Prop := p mod 4096 = 0 /\ r <= p < r + count * 4096.

Class FrameAllocatorLaws (F : Type) `{FrameAllocator F} := {
  fa_inv : F -> Prop;
  (** The frame at physical address [p] may be handed out. *)
  fa_free : F -> Z -> Prop;
  fa_free_range f p : fa_inv f -> fa_free f p -> p mod 4096 = 0 /\ 0 < p < 2 ^ 47;
  fa_Allocate_law f count : fa_inv f -> 0 < count < 2 ^ 64 ->
    exists r f', fa_Allocate count f = Ok (r, f') /\ fa_inv f' /\
      ((r = 0 /\ f' = f) \/
       (0 < r /\ r mod 4096 = 0 /\ r + count * 4096 <= 2 ^ 47 /\
        forall p, fa_free f' p <-> fa_free f p /\ ~ in_run r count p) /\
       (forall p, in_run r count p -> fa_free f p));
  fa_SetReachableLimit_law f limit : fa_inv f -> 0 <= limit ->
    fa_inv (fa_SetReachableLimit limit f) /\
    forall p, fa_free (fa_SetReachableLimit limit f) p <-> fa_free f p }.

(** ** Memory/Frame.cpp discharges it *)

#[export] Instance frame_allocator `{Build} : FrameAllocator Frame.t := {|
  fa_Allocate := Frame.Allocate;
  fa_Free := Frame.Free;
  fa_SetReachableLimit := Frame.SetReachableLimit |}.

Record frame_inv (s : Frame.t) : Prop := {
  fi_wf : exists U, wf U s;
  fi_null : 0 < Frame.s_FrameCount s -> taken s 0 = true;
  (** Physical memory fits the half of the address space the direct map has. *)
  fi_span : Frame.s_FrameCount s <= 2 ^ 35 }.

Definition frame_free (s : Frame.t) (p : Z) : Prop :=
  p mod 4096 = 0 /\ 0 <= p < Frame.s_FrameCount s * 4096 /\ taken s (p / 4096) = false.

Lemma page_of p : p mod 4096 = 0 -> p = p / 4096 * 4096.
Proof. intros. pose proof (Z.div_mod p 4096). lia. Qed.

Lemma frame_free_positive s p : frame_inv s -> frame_free s p -> 0 < p < 2 ^ 47.
Proof.
  intros [_ Hn Hs] (Hm & Hr & Ht). destruct (Z.eq_dec p 0) as [->|]; [|lia].
  change (0 / 4096) with 0 in Ht. rewrite Hn in Ht by lia. done.
Qed.

Lemma frame_Allocate_law s count : frame_inv s -> 0 < count < 2 ^ 64 ->
  exists r s', Frame.Allocate count s = Ok (r, s') /\ frame_inv s' /\
    ((r = 0 /\ s' = s) \/
     (0 < r /\ r mod 4096 = 0 /\ r + count * 4096 <= 2 ^ 47 /\
      forall p, frame_free s' p <-> frame_free s p /\ ~ in_run r count p) /\
     (forall p, in_run r count p -> frame_free s p)).
Proof.
  intros [[U Hwf] Hn Hs] Hc.
  destruct (Allocate_ok U s count Hwf) as (r & s' & HA & Hwf' & Hspec); [unfold is_word; lia|].
  exists r, s'. split; [done|]. pose proof (wf_reach _ _ Hwf) as Hre.
  destruct Hspec as [|first s' Hc0 H0 Hr Hfr HU Ht Hfree HFC HRe HTot].
  { split; [by split; eauto|by left]. }
  assert (Hf0 : 0 < first).
  { destruct (Z.eq_dec first 0) as [->|]; [|lia].
    specialize (Hfr 0 ltac:(lia)). rewrite Hn in Hfr; [done|lia]. }
  change Frame.SIZE with 4096. split.
  { split; [by eauto| |lia]. intros. rewrite Ht, Hn by lia. btauto. }
  right. split; [split_and!; [lia|apply Z.mod_mul; lia|lia|]|].
  - intros p. unfold frame_free, in_run. rewrite HFC. split.
    + intros (Hm & Hp & Htk). pose proof (page_of p Hm). assert (0 <= p / 4096) by (apply Z.div_pos; lia).
      rewrite Ht in Htk by lia. apply orb_false_elim in Htk as [Hout Htk].
      split; [done|]. intros [_ Hin]. lia.
    + intros [(Hm & Hp & Htk) Hout]. pose proof (page_of p Hm).
      assert (0 <= p / 4096) by (apply Z.div_pos; lia).
      split_and!; [done|lia|lia|]. rewrite Ht, Htk by lia.
      destruct (Z.leb_spec first (p / 4096)); [|done].
      destruct (Z.ltb_spec (p / 4096) (first + count)); [|done]. exfalso. apply Hout. lia.
  - intros p [Hm Hin]. pose proof (page_of p Hm). unfold frame_free.
    split_and!; [done|lia|lia|]. apply Hfr. lia.
Qed.

Lemma frame_SetReachableLimit_law s limit : frame_inv s -> 0 <= limit ->
  frame_inv (Frame.SetReachableLimit limit s) /\
  forall p, frame_free (Frame.SetReachableLimit limit s) p <-> frame_free s p.
Proof.
  intros [[U Hwf] Hn Hs] Hl. split; [|done]. split; [|done|done]. exists U.
  by apply SetReachableLimit_wf.
Qed.

#[export] Program Instance frame_allocator_laws `{Build} : FrameAllocatorLaws Frame.t := {|
  fa_inv := frame_inv; fa_free := frame_free |}.
Next Obligation.
  intros ? s p Hi Hf. split; [apply Hf|by eapply frame_free_positive].
Qed.
Next Obligation. intros ?. apply frame_Allocate_law. Qed.
Next Obligation. intros ?. apply frame_SetReachableLimit_law. Qed.
