(* ===== verification/Paging.v ===== *)
(** * Memory/Paging.cpp: the four level page tables

    Page tables live in memory and are reached through the direct map, so the state
    carries a byte memory indexed by kernel virtual address, the frame allocator's
    state behind its interface, the file's statics and the control registers
    [Initialize] writes.  [nullptr] is address 0. *)

From S2P Require Import Prelude Mem Config FrameInterface.

Module Paging.

Definition PAGE_SIZE : Z := 4 * KIB.

Inductive Access := READ_ONLY | READ_WRITE | READ_EXECUTE.
Inductive Caching := NORMAL | DISABLED.
Inductive Privilege := KERNEL | USER_.

#[export] Instance Access_eq_dec : EqDecision Access.
Proof. solve_decision. Defined.
#[export] Instance Caching_eq_dec : EqDecision Caching.
Proof. solve_decision. Defined.
#[export] Instance Privilege_eq_dec : EqDecision Privilege.
Proof. solve_decision. Defined.

Definition ToVirtual (InPhysical : Z) : Z := InPhysical +64 Config.DIRECT_MAP_BASE.
Definition ToPhysical (InVirtual : Z) : Z := InVirtual -64 Config.DIRECT_MAP_BASE.

Definition PRESENT : Z := Z.shiftl 1 0.
Definition WRITABLE : Z := Z.shiftl 1 1.
Definition USER : Z := Z.shiftl 1 2.
Definition CACHE_DISABLE : Z := Z.shiftl 1 4.
Definition LARGE : Z := Z.shiftl 1 7.
Definition NO_EXECUTE : Z := Z.shiftl 1 63.
Definition ADDRESS_MASK : Z := 0x000ffffffffff000.

Definition TOP_LEVEL : Z := 4.
Definition LEAF_LEVEL : Z := 1.
Definition ENTRIES_PER_TABLE : Z := 512.
Definition LOW_MEMORY_END : Z := 2 * MIB.

(** [CR0.WP] and [EFER.NXE]. *)
Definition CR0_WP : Z := Z.shiftl 1 16.
Definition EFER_NXE : Z := Z.shiftl 1 11.

Section Operations.
Context {F : Type} `{FrameAllocator F}.

Record t := {
  memory : mem;
  frames : F;
  s_Root : Z;
  s_NoExecuteAvailable : bool;
  s_TableCount : Z;
  s_MappedRamEnd : Z;
  KernelPageTableRoot : Z;
  CR0 : Z; CR3 : Z; EFER : Z }.

Definition with_memory (s : t) (m : mem) : t :=
  {| memory := m; frames := frames s; s_Root := s_Root s;
     s_NoExecuteAvailable := s_NoExecuteAvailable s; s_TableCount := s_TableCount s;
     s_MappedRamEnd := s_MappedRamEnd s; KernelPageTableRoot := KernelPageTableRoot s;
     CR0 := CR0 s; CR3 := CR3 s; EFER := EFER s |}.
Definition with_table (s : t) (m : mem) (f : F) (count : Z) : t :=
  {| memory := m; frames := f; s_Root := s_Root s;
     s_NoExecuteAvailable := s_NoExecuteAvailable s; s_TableCount := count;
     s_MappedRamEnd := s_MappedRamEnd s; KernelPageTableRoot := KernelPageTableRoot s;
     CR0 := CR0 s; CR3 := CR3 s; EFER := EFER s |}.
Definition with_root (s : t) (root : Z) : t :=
  {| memory := memory s; frames := frames s; s_Root := root;
     s_NoExecuteAvailable := s_NoExecuteAvailable s; s_TableCount := s_TableCount s;
     s_MappedRamEnd := s_MappedRamEnd s; KernelPageTableRoot := KernelPageTableRoot s;
     CR0 := CR0 s; CR3 := CR3 s; EFER := EFER s |}.
Definition with_ram_end (s : t) (e : Z) : t :=
  {| memory := memory s; frames := frames s; s_Root := s_Root s;
     s_NoExecuteAvailable := s_NoExecuteAvailable s; s_TableCount := s_TableCount s;
     s_MappedRamEnd := e; KernelPageTableRoot := KernelPageTableRoot s;
     CR0 := CR0 s; CR3 := CR3 s; EFER := EFER s |}.

Definition IndexAt (InVirtual InLevel : Z) : Z :=
  Z.land (Z.shiftr InVirtual (12 + 9 * (InLevel - 1))) (ENTRIES_PER_TABLE - 1).

Definition TableAt (InPhysical : Z) : Z := ToVirtual InPhysical.

(** [table[index]] *)
Definition slot (table index : Z) : Z := table +64 (8 * index).
Definition entry_of (m : mem) (table index : Z) : Z := load64 m (slot table index).
Definition set_entry (m : mem) (table index e : Z) : mem := store64 m (slot table index) e.

Definition AllocateTable (s : t) : outcome (Z * t) :=
  let* (frame, f) := fa_Allocate 1 (frames s) in
  if frame =? 0 then Ok (0, with_table s (memory s) f (s_TableCount s))
  else Ok (frame, with_table s (CString.memset (memory s) (TableAt frame) 0 PAGE_SIZE) f
                             (s_TableCount s +64 1)).

(** [n] levels remain between [table]'s level, [InLevel + n], and [InLevel]. *)
Fixpoint Descend_loop (n : nat) (InVirtual InLevel InTableFlags table : Z) (s : t)
    : outcome (Z * t) :=
  match n with
  | O => Ok (table, s)
  | S k =>
      let index := IndexAt InVirtual (InLevel + Z.of_nat n) in
      let entry := entry_of (memory s) table index in
      let enter (s : t) :=
        let entry := Z.lor (entry_of (memory s) table index) InTableFlags in
        Descend_loop k InVirtual InLevel InTableFlags (TableAt (Z.land entry ADDRESS_MASK))
                     (with_memory s (set_entry (memory s) table index entry)) in
      if Z.land entry PRESENT =? 0 then
        let* (created, s) := AllocateTable s in
        if created =? 0 then Ok (0, s)
        else enter (with_memory s (set_entry (memory s) table index
                                    (Z.lor (Z.lor created PRESENT) WRITABLE)))
      else enter s
  end.

Definition Descend (InVirtual InLevel InTableFlags : Z) (s : t) : outcome (Z * t) :=
  Descend_loop (Z.to_nat (TOP_LEVEL - InLevel)) InVirtual InLevel InTableFlags
               (TableAt (s_Root s)) s.

Definition FlagsFor (s : t) (InAccess : Access) (InPrivilege : Privilege) (InCaching : Caching) : Z :=
  let flags := PRESENT in
  let flags := if bool_decide (InAccess = READ_WRITE) then Z.lor flags WRITABLE else flags in
  let flags := if bool_decide (InAccess <> READ_EXECUTE) && s_NoExecuteAvailable s
               then Z.lor flags NO_EXECUTE else flags in
  let flags := if bool_decide (InPrivilege = USER_) then Z.lor flags USER else flags in
  if bool_decide (InCaching = DISABLED) then Z.lor flags CACHE_DISABLE else flags.

(** [n] tables lie between [table] and the leaf table. *)
Fixpoint Effective_loop (n : nat) (s : t) (InVirtual table granted noExecute : Z) : Z :=
  match n with
  | O =>
      let leaf := entry_of (memory s) table (IndexAt InVirtual LEAF_LEVEL) in
      if Z.land leaf PRESENT =? 0 then 0
      else
        let noExecute := Z.lor noExecute (Z.land leaf NO_EXECUTE) in
        Z.lor (Z.lor (Z.land granted leaf) noExecute) (Z.land leaf ADDRESS_MASK)
  | S k =>
      let entry := entry_of (memory s) table (IndexAt InVirtual (LEAF_LEVEL + Z.of_nat n)) in
      if (Z.land entry PRESENT =? 0) || negb (Z.land entry LARGE =? 0) then 0
      else Effective_loop k s InVirtual (TableAt (Z.land entry ADDRESS_MASK))
                          (Z.land granted entry) (Z.lor noExecute (Z.land entry NO_EXECUTE))
  end.

Definition Effective (s : t) (InVirtual : Z) : Z :=
  Effective_loop (Z.to_nat (TOP_LEVEL - LEAF_LEVEL)) s InVirtual (TableAt (s_Root s))
                 (Z.lor (Z.lor PRESENT WRITABLE) USER) 0.

Fixpoint Map_loop (fuel : nat) (page end_ source flags tableFlags : Z) (s : t)
    : outcome (bool * t) :=
  match fuel with
  | O => Diverges
  | S k =>
      if page <? end_ then
        let* (table, s) := Descend page LEAF_LEVEL tableFlags s in
        if table =? 0 then Ok (false, s)
        else
          let s := with_memory s (set_entry (memory s) table (IndexAt page LEAF_LEVEL)
                                            (Z.lor source flags)) in
          Map_loop k (page +64 PAGE_SIZE) end_ (source +64 PAGE_SIZE) flags tableFlags s
      else Ok (true, s)
  end.

(** The range touches at most this many pages; the extra round sees the exit. *)
Definition Map_fuel (InSize : Z) : nat := Z.to_nat (InSize / PAGE_SIZE + 3).

Definition page_base (a : Z) : Z := Z.land a (~64 (PAGE_SIZE - 1)).

Definition Map (InVirtual InPhysical InSize : Z) (InAccess : Access) (InPrivilege : Privilege)
    (InCaching : Caching) (s : t) : outcome (bool * t) :=
  let flags := FlagsFor s InAccess InPrivilege InCaching in
  let tableFlags := if bool_decide (InPrivilege = USER_) then USER else 0 in
  let end_ := InVirtual +64 InSize in
  Map_loop (Map_fuel InSize) (page_base InVirtual) end_ (page_base InPhysical) flags tableFlags s.

Definition Translate (s : t) (InVirtual : Z) : Z :=
  let entry := Effective s InVirtual in
  if entry =? 0 then 0
  else Z.lor (Z.land entry ADDRESS_MASK) (Z.land InVirtual (PAGE_SIZE - 1)).

Definition IsWritable (s : t) (InVirtual : Z) : bool :=
  negb (Z.land (Effective s InVirtual) WRITABLE =? 0).

Definition IsExecutable (s : t) (InVirtual : Z) : bool :=
  let entry := Effective s InVirtual in
  negb (entry =? 0) && (negb (s_NoExecuteAvailable s) || (Z.land entry NO_EXECUTE =? 0)).

Definition IsUserReadable (s : t) (InVirtual : Z) : bool :=
  negb (Z.land (Effective s InVirtual) USER =? 0).

Definition IsUserWritable (s : t) (InVirtual : Z) : bool :=
  Z.land (Effective s InVirtual) (Z.lor USER WRITABLE) =? Z.lor USER WRITABLE.

Definition MapIdentity (InStart InEnd : Z) (InAccess : Access) (InCaching : Caching) (s : t)
    : outcome t :=
  if InEnd <=? InStart then Ok s
  else
    let* (ok, s) := Map InStart InStart (InEnd -64 InStart) InAccess KERNEL InCaching s in
    if negb ok then Panic "Not enough memory for the kernel page tables" else Ok s.

Fixpoint MapDirectMap_loop (regions : list Multiboot.MemoryRegion) (s : t) : outcome t :=
  match regions with
  | [] => Ok s
  | region :: rest =>
      if negb (Multiboot.Type_ region =? Multiboot.AVAILABLE) then MapDirectMap_loop rest s
      else
        let* (ok, s) := Map (ToVirtual (Multiboot.Address region)) (Multiboot.Address region)
                             (Multiboot.Length region) READ_WRITE KERNEL NORMAL s in
        if negb ok then Panic "Not enough memory for the kernel page tables"
        else MapDirectMap_loop rest
               (with_ram_end s (Math.Max (s_MappedRamEnd s) (Multiboot.RegionEnd region)))
  end.

Definition MapKernelSpan (start end_ : Z) (InAccess : Access) (s : t) : outcome t :=
  if end_ <=? start then Ok s
  else
    let* (ok, s) := Map start (start -64 Config.KERNEL_VMA) (end_ -64 start) InAccess KERNEL NORMAL s in
    if negb ok then Panic "Not enough memory for the kernel page tables" else Ok s.

(** The linker's section bounds, the device addresses the APIC code reports and
    what CPUID says. *)
Record machine := {
  BOOT_END : Z;
  KERNEL_TEXT_START : Z; KERNEL_TEXT_END : Z;
  KERNEL_RODATA_START : Z; KERNEL_RODATA_END : Z;
  KERNEL_DATA_START : Z; KERNEL_DATA_END : Z;
  LocalApic_BaseAddress : Z; IoApic_Address : Z;
  HasNX : bool }.

Context `{BootInfo} (M : machine).

Definition MapDirectMap (s : t) : outcome t := MapDirectMap_loop memory_regions s.

Definition MapKernelImage (s : t) : outcome t :=
  let* s := MapIdentity BOOT_START (BOOT_END M) READ_EXECUTE NORMAL s in
  let* s := MapKernelSpan (KERNEL_TEXT_START M) (KERNEL_TEXT_END M) READ_EXECUTE s in
  let* s := MapKernelSpan (KERNEL_RODATA_START M) (KERNEL_RODATA_END M) READ_ONLY s in
  MapKernelSpan (KERNEL_DATA_START M) (KERNEL_DATA_END M) READ_WRITE s.

Definition MapDeviceRegisters (s : t) : outcome t :=
  let* s := MapIdentity (LocalApic_BaseAddress M) (LocalApic_BaseAddress M +64 PAGE_SIZE)
                        READ_WRITE DISABLED s in
  let ioApic := IoApic_Address M in
  if negb (ioApic =? 0) then MapIdentity ioApic (ioApic +64 PAGE_SIZE) READ_WRITE DISABLED s
  else Ok s.

Definition EnableNoExecute (s : t) : t :=
  {| memory := memory s; frames := frames s; s_Root := s_Root s;
     s_NoExecuteAvailable := s_NoExecuteAvailable s; s_TableCount := s_TableCount s;
     s_MappedRamEnd := s_MappedRamEnd s; KernelPageTableRoot := KernelPageTableRoot s;
     CR0 := CR0 s; CR3 := CR3 s; EFER := Z.lor (EFER s) EFER_NXE |}.

Definition Activate (s : t) : t :=
  {| memory := memory s; frames := frames s; s_Root := s_Root s;
     s_NoExecuteAvailable := s_NoExecuteAvailable s; s_TableCount := s_TableCount s;
     s_MappedRamEnd := s_MappedRamEnd s; KernelPageTableRoot := KernelPageTableRoot s;
     CR0 := Z.lor (CR0 s) CR0_WP; CR3 := s_Root s; EFER := EFER s |}.

Definition Initialize `{Build} (s : t) : outcome t :=
  let s := {| memory := memory s; frames := frames s; s_Root := s_Root s;
              s_NoExecuteAvailable := HasNX M; s_TableCount := s_TableCount s;
              s_MappedRamEnd := s_MappedRamEnd s; KernelPageTableRoot := KernelPageTableRoot s;
              CR0 := CR0 s; CR3 := CR3 s; EFER := EFER s |} in
  let s := if s_NoExecuteAvailable s then EnableNoExecute s else s in
  let* (root, s) := AllocateTable s in
  let s := with_root s root in
  if s_Root s =? 0 then Panic "No memory for the kernel page tables"
  else
    let* s := MapIdentity 0 LOW_MEMORY_END READ_WRITE NORMAL s in
    let* s := MapDeviceRegisters s in
    let* s := MapDirectMap s in
    let* s := MapKernelImage s in
    let* _ := ASSERT (s_Root s <? 4 * GIB) "s_Root < 4 * GIB" in
    let s := {| memory := memory s; frames := frames s; s_Root := s_Root s;
                s_NoExecuteAvailable := s_NoExecuteAvailable s; s_TableCount := s_TableCount s;
                s_MappedRamEnd := s_MappedRamEnd s; KernelPageTableRoot := s_Root s;
                CR0 := CR0 s; CR3 := CR3 s; EFER := EFER s |} in
    let s := Activate s in
    Ok (with_table s (memory s) (fa_SetReachableLimit (s_MappedRamEnd s) (frames s)) (s_TableCount s)).

End Operations.

Arguments t : clear implicits.
End Paging.
