(* ===== verification/PagingSpec.v ===== *)
(** * Correctness of the page tables

    The tables in memory represent a finite function from virtual page numbers to
    leaf entries.  [tree] is the invariant that makes the representation work: every
    table frame has one owner, a level and a prefix of the page number.  [Map]
    refines an update of that function, and the permission queries read it. *)

From S2P Require Import Prelude Mem Config Frame FrameSpec FrameInterface Paging.

Import Paging.

(** ** Page numbers *)

(** The 36 bits of an address that select its page. *)
Definition vpn (v : Z) : Z := (v / 4096) mod 2 ^ 36.

(** What is left of the page number above level [l]: it names the table of that
    level on the way to [v]. *)
Definition prefix (v : Z) (l : nat) : Z := vpn v / 2 ^ (9 * Z.of_nat l).

Lemma prefix_step v l : prefix v l = prefix v (S l) * 512 + prefix v l mod 512.
Proof.
  unfold prefix. replace (9 * Z.of_nat (S l)) with (9 * Z.of_nat l + 9) by lia.
  rewrite Z.pow_add_r, <- Z.div_div by lia. change (2 ^ 9) with 512.
  pose proof (Z.div_mod (vpn v / 2 ^ (9 * Z.of_nat l)) 512). lia.
Qed.

Lemma prefix_top v : prefix v 4 = 0.
Proof.
  unfold prefix, vpn. apply Z.div_small. change (9 * Z.of_nat 4) with 36.
  apply Z.mod_pos_bound. lia.
Qed.

Lemma prefix_leaf v : prefix v 0 = vpn v.
Proof. unfold prefix. change (9 * Z.of_nat 0) with 0. apply Z.div_1_r. Qed.

Lemma IndexAt_range v l : 0 <= IndexAt v l < 512.
Proof.
  unfold IndexAt, ENTRIES_PER_TABLE. change (512 - 1) with (Z.ones 9).
  rewrite Z.land_ones by lia. apply Z.mod_pos_bound. lia.
Qed.

Lemma IndexAt_prefix v l : 0 <= v -> (l < 4)%nat ->
  IndexAt v (Z.of_nat (S l)) = prefix v l mod 512.
Proof.
  intros Hv Hl. unfold IndexAt, ENTRIES_PER_TABLE, prefix, vpn.
  change (512 - 1) with (Z.ones 9). change 512 with (2 ^ 9). change 4096 with (2 ^ 12).
  rewrite Z.land_ones, Z.shiftr_div_pow2 by lia.
  apply Z.bits_inj'. intros k Hk. destruct (Z_lt_dec k 9).
  - rewrite !Z.mod_pow2_bits_low by lia. rewrite !Z.div_pow2_bits by lia.
    rewrite Z.mod_pow2_bits_low by lia. rewrite Z.div_pow2_bits by lia. f_equal. lia.
  - by rewrite !Z.mod_pow2_bits_high by lia.
Qed.

(** ** Entries *)

Definition addr_of (e : Z) : Z := Z.land e ADDRESS_MASK.

Lemma addr_of_bits e k : 0 <= k ->
  Z.testbit (addr_of e) k = Z.testbit e k && (12 <=? k) && (k <? 52).
Proof.
  intros Hk. unfold addr_of. change ADDRESS_MASK with (Z.shiftl (Z.ones 40) 12).
  rewrite Z.land_spec, Z.shiftl_spec by lia. destruct (Z.leb_spec 12 k).
  - destruct (Z.ltb_spec k 52).
    + rewrite Z.ones_spec_low by lia. btauto.
    + rewrite Z.ones_spec_high by lia. btauto.
  - rewrite (Z.testbit_neg_r _ (k - 12)) by lia. btauto.
Qed.

(** A frame address has no bits outside the address field. *)
Definition is_frame (p : Z) : Prop := p mod 4096 = 0 /\ 0 <= p < 2 ^ 52.

Lemma frame_bits p k : is_frame p -> 0 <= k -> k < 12 \/ 52 <= k -> Z.testbit p k = false.
Proof.
  intros [Hm Hr] Hk [Hl|Hh].
  - rewrite <- (Z.mod_pow2_bits_low p 12) by lia. change (2 ^ 12) with 4096.
    by rewrite Hm, Z.bits_0.
  - apply (testbit_above 52); [unfold is_word|]; lia.
Qed.

Lemma addr_of_lor p f : is_frame p -> (forall k, 12 <= k < 52 -> Z.testbit f k = false) ->
  addr_of (Z.lor p f) = p.
Proof.
  intros Hp Hf. apply Z.bits_inj'. intros k Hk. rewrite addr_of_bits, Z.lor_spec by lia.
  destruct (Z.leb_spec 12 k), (Z.ltb_spec k 52); simpl; rewrite ?andb_true_r, ?andb_false_r.
  - rewrite Hf by lia. btauto.
  - symmetry. apply frame_bits; [done|lia|lia].
  - symmetry. apply frame_bits; [done|lia|lia].
  - lia.
Qed.

Lemma is_word_lor w a b : 0 <= w -> is_word w a -> is_word w b -> is_word w (Z.lor a b).
Proof.
  intros Hw Ha Hb. apply is_word_bits; [done| |].
  - apply Z.lor_nonneg. unfold is_word in *. lia.
  - intros i Hi. rewrite Z.lor_spec, (testbit_above w a), (testbit_above w b) by (done || lia). done.
Qed.

(** ** Table slots in memory *)

Definition ent (m : mem) (p i : Z) : Z := entry_of m (TableAt p) i.

Definition in_direct_map (p : Z) : Prop := p mod 4096 = 0 /\ 0 < p < 2 ^ 47.

Lemma in_direct_map_frame p : in_direct_map p -> is_frame p.
Proof. unfold in_direct_map, is_frame. lia. Qed.

Lemma direct_page_end p : in_direct_map p -> p + 4096 <= 2 ^ 47.
Proof. intros [Hm Hr]. pose proof (Z.div_mod p 4096). lia. Qed.

Lemma TableAt_eq p : in_direct_map p -> TableAt p = p + Config.DIRECT_MAP_BASE.
Proof.
  intros Hp. pose proof (direct_page_end p Hp). destruct Hp. unfold TableAt, ToVirtual.
  apply wrap_small. unfold is_word, Config.DIRECT_MAP_BASE. lia.
Qed.

Lemma TableAt_nonzero p : in_direct_map p -> TableAt p <> 0.
Proof. intros Hp. rewrite TableAt_eq by done. destruct Hp. unfold Config.DIRECT_MAP_BASE. lia. Qed.

Lemma slot_eq p i : in_direct_map p -> 0 <= i < 512 ->
  slot (TableAt p) i = p + Config.DIRECT_MAP_BASE + 8 * i.
Proof.
  intros Hp Hi. pose proof (direct_page_end p Hp). unfold slot. rewrite TableAt_eq by done.
  destruct Hp. apply wrap_small. unfold is_word, Config.DIRECT_MAP_BASE. lia.
Qed.

Lemma ent_set m p i e p' i' :
  in_direct_map p -> in_direct_map p' -> 0 <= i < 512 -> 0 <= i' < 512 -> is_word 64 e ->
  ent (set_entry m (TableAt p) i e) p' i' =
    if (p' =? p) && (i' =? i) then e else ent m p' i'.
Proof.
  intros Hp Hp' Hi Hi' He. unfold ent, entry_of, set_entry. rewrite !slot_eq by done.
  destruct (Z.eqb_spec p' p) as [->|Hn]; simpl.
  - destruct (Z.eqb_spec i' i) as [->|Hn]; [by apply load64_store64|].
    apply load_store_disj. simpl. lia.
  - apply load_store_disj. simpl. destruct Hp as [H1 ?], Hp' as [H2 ?].
    pose proof (Z.div_mod p 4096). pose proof (Z.div_mod p' 4096). lia.
Qed.

Lemma ent_range m p i : is_word 64 (ent m p i).
Proof. apply load64_range. Qed.

Lemma ent_memset m p p' i : in_direct_map p -> in_direct_map p' -> 0 <= i < 512 ->
  ent (CString.memset m (TableAt p) 0 PAGE_SIZE) p' i = if p' =? p then 0 else ent m p' i.
Proof.
  intros Hp Hp' Hi. unfold ent, entry_of. rewrite slot_eq by done.
  rewrite CString.memset_filled by done. rewrite (TableAt_eq p) by done.
  destruct (Z.eqb_spec p' p) as [->|Hn].
  - change 0 with (load64 (fun _ => 0) (p + Config.DIRECT_MAP_BASE + 8 * i)) at 2.
    apply load_ext. intros a Ha. rewrite CString.load8_filled. unfold PAGE_SIZE, KIB.
    by replace ((_ <=? a) && (a <? _)) with true by lia.
  - apply load_ext. intros a Ha. rewrite CString.load8_filled. unfold PAGE_SIZE, KIB.
    destruct Hp as [H1 ?], Hp' as [H2 ?].
    pose proof (Z.div_mod p 4096). pose proof (Z.div_mod p' 4096).
    by replace ((_ <=? a) && (a <? _)) with false by lia.
Qed.

(** Memory outside every table. *)
Definition outside (own : Z -> option (nat * Z)) (a : Z) : Prop :=
  forall q x, own q = Some x -> ~ (q + Config.DIRECT_MAP_BASE <= a < q + Config.DIRECT_MAP_BASE + 4096).

Lemma set_entry_out m p i e a : in_direct_map p -> 0 <= i < 512 ->
  ~ (p + Config.DIRECT_MAP_BASE <= a < p + Config.DIRECT_MAP_BASE + 4096) ->
  load8 (set_entry m (TableAt p) i e) a = load8 m a.
Proof.
  intros Hp Hi Ha. unfold set_entry. rewrite slot_eq by done. apply load8_store_out. simpl. lia.
Qed.

Lemma memset_table_out m p a : in_direct_map p ->
  ~ (p + Config.DIRECT_MAP_BASE <= a < p + Config.DIRECT_MAP_BASE + 4096) ->
  load8 (CString.memset m (TableAt p) 0 PAGE_SIZE) a = load8 m a.
Proof.
  intros Hp Ha. rewrite CString.memset_filled, CString.load8_filled, TableAt_eq by done. unfold PAGE_SIZE, KIB.
  by replace ((_ <=? a) && (a <? _)) with false by lia.
Qed.

(** ** Walking the tables *)

(** Follows [v] from table [p], [n] levels above the leaf table: whether every entry
    on the way is open to ring 3, and the table reached. *)
Fixpoint leaf_of (m : mem) (v : Z) (n : nat) (p : Z) : option (bool * Z) :=
  match n with
  | O => Some (true, p)
  | S k =>
      let e := ent m p (IndexAt v (Z.of_nat (S n))) in
      if Z.testbit e 0 then
        match leaf_of m v k (addr_of e) with
        | Some (u, q) => Some (Z.testbit e 2 && u, q)
        | None => None
        end
      else None
  end.

Definition read_leaf (m : mem) (v : Z) (o : option (bool * Z)) : option (bool * Z) :=
  match o with
  | Some (u, q) =>
      let e := ent m q (IndexAt v 1) in if Z.testbit e 0 then Some (u, e) else None
  | None => None
  end.

(** The leaf entry that maps [v], if there is one. *)
Definition walk (m : mem) (v : Z) (n : nat) (p : Z) : option (bool * Z) :=
  read_leaf m v (leaf_of m v n p).

Lemma walk_S m v k p :
  walk m v (S k) p =
    let e := ent m p (IndexAt v (Z.of_nat (S (S k)))) in
    if Z.testbit e 0 then
      match walk m v k (addr_of e) with
      | Some (u, l) => Some (Z.testbit e 2 && u, l)
      | None => None
      end
    else None.
Proof.
  unfold walk. cbn [leaf_of]. cbv zeta. destruct (Z.testbit _ 0); [|done].
  destruct (leaf_of _ _ _ _) as [[u q]|]; simpl; [|done]. by case_match.
Qed.

Lemma vpn_prefix v w l : vpn v = vpn w -> prefix v l = prefix w l.
Proof. unfold prefix. by intros ->. Qed.

Lemma leaf_of_vpn m v w n p : 0 <= v -> 0 <= w -> (n <= 3)%nat -> vpn v = vpn w ->
  leaf_of m v n p = leaf_of m w n p.
Proof.
  intros Hv Hw Hn E. revert p Hn; induction n as [|n IH]; intros p Hn; [done|].
  cbn [leaf_of]. rewrite !IndexAt_prefix, (vpn_prefix v w) by (done || lia).
  destruct (Z.testbit _ 0); [|done]. by rewrite IH by lia.
Qed.

(** [o'] shows the same leaf as [o], at most more open on the way. *)
Definition view_le (o o' : option (bool * Z)) : Prop :=
  match o, o' with
  | None, None => True
  | Some (u, l), Some (u', l') => l = l' /\ (u = true -> u' = true)
  | _, _ => False
  end.

#[export] Instance view_le_preorder : PreOrder view_le.
Proof.
  split.
  - intros [[u l]|]; simpl; auto.
  - intros [[u1 l1]|] [[u2 l2]|] [[u3 l3]|]; simpl; try done. intuition congruence.
Qed.

Section Spec.
Context {F : Type} `{FL : FrameAllocatorLaws F}.
Implicit Types s : t F.

Record tree (own : Z -> option (nat * Z)) (s : t F) : Prop := {
  tr_frames : fa_inv (frames s);
  tr_root : own (s_Root s) = Some (3%nat, 0);
  tr_own p n pre : own p = Some (n, pre) -> in_direct_map p /\ ~ fa_free (frames s) p;
  tr_child p n pre i : own p = Some (S n, pre) -> 0 <= i < 512 ->
    let e := ent (memory s) p i in
    Z.testbit e 0 = true ->
    own (addr_of e) = Some (n, pre * 512 + i) /\
    Z.testbit e 1 = true /\ Z.testbit e 7 = false /\ Z.testbit e 63 = false;
  tr_user v u leaf : 0 <= v -> walk (memory s) v 3 (s_Root s) = Some (u, leaf) ->
    Z.testbit leaf 2 = true -> u = true }.

(** How an entry [n] levels above the leaf table may change without changing what
    any page maps to. *)
Definition ent_le (m' : mem) (n : nat) (e e' : Z) : Prop :=
  match n with
  | O => e = e'
  | S _ =>
      (Z.testbit e 0 = false /\ Z.testbit e' 0 = false) \/
      (Z.testbit e 0 = true /\ Z.testbit e' 0 = true /\ addr_of e = addr_of e' /\
       (Z.testbit e 2 = true -> Z.testbit e' 2 = true)) \/
      (Z.testbit e 0 = false /\ Z.testbit e' 0 = true /\
       forall i, 0 <= i < 512 -> Z.testbit (ent m' (addr_of e') i) 0 = false)
  end.

Lemma ent_le_refl m' n e : ent_le m' n e e.
Proof. destruct n; simpl; [done|]. destruct (Z.testbit e 0); [right; left|left]; done. Qed.

Lemma walk_empty m v n p :
  (forall i, 0 <= i < 512 -> Z.testbit (ent m p i) 0 = false) -> walk m v n p = None.
Proof.
  intros He. destruct n; [unfold walk; simpl|rewrite walk_S]; cbv zeta;
    by rewrite He by apply IndexAt_range.
Qed.

Lemma child_prefix v n pre : 0 <= v -> (S n <= 3)%nat -> pre = prefix v (S (S n)) ->
  pre * 512 + IndexAt v (Z.of_nat (S (S n))) = prefix v (S n).
Proof.
  intros Hv Hn ->. rewrite IndexAt_prefix by (done || lia). symmetry. apply prefix_step.
Qed.

Lemma walk_le own s m' n p v :
  tree own s -> 0 <= v -> (n <= 3)%nat ->
  (forall p n pre i, own p = Some (n, pre) -> 0 <= i < 512 ->
     ent_le m' n (ent (memory s) p i) (ent m' p i)) ->
  own p = Some (n, prefix v (S n)) ->
  view_le (walk (memory s) v n p) (walk m' v n p).
Proof.
  intros Ht Hv Hn Hle. revert p Hn; induction n as [|n IH]; intros p Hn Hp.
  - pose proof (Hle p _ _ (IndexAt v 1) Hp (IndexAt_range _ _)) as He. simpl in He.
    unfold walk. simpl. rewrite <- He. by destruct (Z.testbit _ 0).
  - set (i := IndexAt v (Z.of_nat (S (S n)))). pose proof (IndexAt_range v (Z.of_nat (S (S n)))) as Hi.
    pose proof (Hle p _ _ i Hp Hi) as He. rewrite !walk_S. fold i. cbv zeta.
    destruct He as [[E1 E2]|[(E1 & E2 & EA & EU)|(E1 & E2 & EZ)]]; rewrite E1, E2.
    + done.
    + rewrite <- EA. destruct (tr_child own s Ht p n _ i Hp Hi E1) as [Hc _].
      subst i. rewrite child_prefix in Hc by (done || lia).
      specialize (IH _ ltac:(lia) Hc).
      destruct (walk (memory s) v n _) as [[u l]|], (walk m' v n _) as [[u' l']|]; try done.
      destruct IH as [-> IH]. split; [done|]. rewrite !andb_true_iff. tauto.
    + by rewrite walk_empty.
Qed.

(** [tr_user] survives any change that only opens the way. *)
Lemma user_le m m' root :
  (forall v, 0 <= v -> view_le (walk m v 3 root) (walk m' v 3 root)) ->
  (forall v u leaf, 0 <= v -> walk m v 3 root = Some (u, leaf) -> Z.testbit leaf 2 = true -> u = true) ->
  forall v u leaf, 0 <= v -> walk m' v 3 root = Some (u, leaf) -> Z.testbit leaf 2 = true -> u = true.
Proof.
  intros Hle Hu v u leaf Hv Hw Hl. specialize (Hle v Hv). rewrite Hw in Hle.
  destruct (walk m v 3 root) as [[u0 l0]|] eqn:E; [|done]. destruct Hle as [-> Hle].
  apply Hle. by eapply Hu.
Qed.

(** What a step on the way down keeps: the function the tables represent, every entry of
    the tables above [n], and all memory but the tables, of which new ones were free. *)
Record keeps (own own' : Z -> option (nat * Z)) (n : nat) (s s' : t F) : Prop := {
  k_own q x : own q = Some x -> own' q = Some x;
  k_root : s_Root s' = s_Root s;
  k_nx : s_NoExecuteAvailable s' = s_NoExecuteAvailable s;
  k_view v : 0 <= v ->
    view_le (walk (memory s) v 3 (s_Root s)) (walk (memory s') v 3 (s_Root s));
  k_above q l pre i : own q = Some (l, pre) -> (n < l)%nat -> 0 <= i < 512 ->
    ent (memory s') q i = ent (memory s) q i;
  k_free q : fa_free (frames s') q -> fa_free (frames s) q;
  k_new q x : own' q = Some x -> own q = Some x \/ fa_free (frames s) q;
  k_data a : outside own' a -> load8 (memory s') a = load8 (memory s) a }.

Lemma keeps_refl own n s : keeps own own n s s.
Proof. split; try done. by left. Qed.

Lemma keeps_trans own1 own2 own3 n1 n2 s1 s2 s3 :
  (n2 <= n1)%nat -> keeps own1 own2 n1 s1 s2 -> keeps own2 own3 n2 s2 s3 -> keeps own1 own3 n1 s1 s3.
Proof.
  intros Hn [O1 R1 X1 V1 A1 F1 N1 D1] [O2 R2 X2 V2 A2 F2 N2 D2]. split.
  - intros q x Hq. by apply O2, O1.
  - by rewrite R2.
  - by rewrite X2.
  - intros v Hv. etrans; [by apply V1|]. rewrite R1 in V2. by apply V2.
  - intros q l pre i Hq Hl Hi. rewrite (A2 q l pre), (A1 q l pre); try done; [by apply O1|lia].
  - intros q Hq. by apply F1, F2.
  - intros q x [Hq|Hq]%N2; [by apply N1 in Hq|right; by apply F1].
  - intros a Ha. rewrite D2 by done. apply D1. intros q x Hq. by apply (Ha q x), O2.
Qed.

(** [entry |= InTableFlags] on a present entry. *)
Lemma open_entry own s p n pre i fl :
  tree own s -> own p = Some (S n, pre) -> 0 <= i < 512 -> fl = 0 \/ fl = USER ->
  Z.testbit (ent (memory s) p i) 0 = true ->
  let e := Z.lor (ent (memory s) p i) fl in
  let s' := with_memory s (set_entry (memory s) (TableAt p) i e) in
  tree own s' /\ keeps own own (S n) s s' /\ ent (memory s') p i = e.
Proof.
  intros Ht Hp Hi Hfl HP e s'. pose proof (tr_own own s Ht p _ _ Hp) as [Hd _].
  assert (He : is_word 64 e).
  { apply is_word_lor; [done|apply ent_range|]. destruct Hfl as [-> | ->]; split; done. }
  assert (Hent : forall q x pre' j, own q = Some (x, pre') -> 0 <= j < 512 ->
    ent (memory s') q j = if (q =? p) && (j =? i) then e else ent (memory s) q j).
  { intros q x pre' j Hq Hj. apply ent_set; try done. by eapply tr_own. }
  assert (Hbit : forall k, 0 <= k -> k <> 2 -> Z.testbit e k = Z.testbit (ent (memory s) p i) k).
  { intros k Hk Hk2. unfold e. rewrite Z.lor_spec.
    destruct Hfl as [-> | ->]; [rewrite Z.bits_0; btauto|].
    unfold USER. rewrite testbit_one_shift, bool_decide_false by lia. btauto. }
  assert (HA : addr_of e = addr_of (ent (memory s) p i)).
  { apply Z.bits_inj'. intros k Hk. rewrite !addr_of_bits by done.
    destruct (Z.leb_spec 12 k); [|btauto]. by rewrite Hbit by lia. }
  assert (Hview : forall v, 0 <= v ->
    view_le (walk (memory s) v 3 (s_Root s)) (walk (memory s') v 3 (s_Root s))).
  { intros v Hv. eapply walk_le; try done.
    - intros q x pre' j Hq Hj. rewrite (Hent q x pre' j Hq Hj).
      destruct (Z.eqb_spec q p) as [->|?]; simpl; [destruct (Z.eqb_spec j i) as [->|?]|].
      + rewrite Hp in Hq. injection Hq as <- <-. right. left. rewrite Hbit, HA by lia.
        split_and!; try done. unfold e. rewrite Z.lor_spec. by intros ->.
      + apply ent_le_refl.
      + apply ent_le_refl.
    - by rewrite prefix_top, (tr_root own s). }
  split_and!.
  - destruct Ht as [Hf Hr Ho Hc Hu]. split; try done.
    + intros q x pre' j Hq Hj. rewrite (Hent q _ pre' j Hq Hj).
      destruct (Z.eqb_spec q p) as [->|?]; simpl; [destruct (Z.eqb_spec j i) as [->|?]|];
        [|by apply (Hc _ _ _ _ Hq)|by apply (Hc _ _ _ _ Hq)].
      rewrite HA, !Hbit by lia. by apply (Hc _ _ _ _ Hq).
    + by apply (user_le (memory s)).
  - split; try done; [|by left|].
    + intros q l pre' j Hq Hl Hj. rewrite (Hent q l pre' j Hq Hj).
      destruct (Z.eqb_spec q p) as [->|?]; [|done]. rewrite Hp in Hq. injection Hq as <- <-. lia.
    + intros a Ha. apply set_entry_out; [done|done|by apply (Ha _ _ Hp)].
  - rewrite (Hent p _ _ i Hp Hi). by rewrite !Z.eqb_refl.
Qed.

(** ** Creating a table *)

Definition exhausted (s : t F) : Prop := fa_Allocate 1 (frames s) = Ok (0, frames s).

Lemma in_run_one r p : in_run r 1 p -> r mod 4096 = 0 -> p = r.
Proof. intros [Hm Hr] Hr'. pose proof (Z.div_mod p 4096). pose proof (Z.div_mod r 4096). lia. Qed.

(** [AllocateTable] yields a zeroed frame that was free, and is not any more. *)
Lemma AllocateTable_ok s : fa_inv (frames s) ->
  exists r s', AllocateTable s = Ok (r, s') /\ fa_inv (frames s') /\
    s_Root s' = s_Root s /\ s_NoExecuteAvailable s' = s_NoExecuteAvailable s /\
    ((r = 0 /\ exhausted s' /\ memory s' = memory s /\ frames s' = frames s) \/
     (in_direct_map r /\ fa_free (frames s) r /\
      (forall p, fa_free (frames s') p <-> fa_free (frames s) p /\ p <> r) /\
      memory s' = CString.memset (memory s) (TableAt r) 0 PAGE_SIZE)).
Proof.
  intros Hf. destruct (fa_Allocate_law (frames s) 1 Hf) as (r & f' & HA & Hf' & Hr); [lia|].
  unfold AllocateTable. rewrite HA. cbn [obind].
  destruct Hr as [[-> ->]|[(H0 & Hm & Hle & Hfr) Hin]].
  - exists 0. eexists. split; [done|]. split_and!; try done. left. done.
  - replace (r =? 0) with false by lia. exists r. eexists. split; [done|]. simpl.
    split_and!; try done. right. unfold in_direct_map. split_and!; try done; try lia.
    + apply Hin. split; [done|lia].
    + intros p. rewrite Hfr. split; intros [Hp Hn]; split; try done.
      * intros ->. apply Hn. split; [done|lia].
      * intros Hi. by apply Hn, in_run_one.
Qed.

(** [entry = created | PRESENT | WRITABLE] on an absent entry, with a fresh table. *)
Lemma link_table own s s0 p n pre i r :
  tree own s -> own p = Some (S n, pre) -> 0 <= i < 512 ->
  Z.testbit (ent (memory s) p i) 0 = false ->
  AllocateTable s = Ok (r, s0) -> r <> 0 ->
  let e := Z.lor (Z.lor r PRESENT) WRITABLE in
  let s' := with_memory s0 (set_entry (memory s0) (TableAt p) i e) in
  let own' := fun q => if q =? r then Some (n, pre * 512 + i) else own q in
  tree own' s' /\ keeps own own' (S n) s s' /\ Z.testbit (ent (memory s') p i) 0 = true.
Proof.
  intros Ht Hp Hi HP HA Hr0 e s' own'.
  destruct (AllocateTable_ok s (tr_frames _ _ Ht)) as (r' & s0' & HA' & Hf' & HR & HX & Hcase).
  rewrite HA in HA'. injection HA' as <- <-.
  destruct Hcase as [[-> _]|(Hd & Hfree & Hfr & Hmem)]; [done|].
  pose proof (tr_own own s Ht p _ _ Hp) as [Hdp _].
  assert (Hnew : own r = None).
  { destruct (own r) as [[x y]|] eqn:E; [|done]. by apply (tr_own own s Ht) in E as [_ []]. }
  assert (Hrp : p <> r) by congruence.
  assert (He : is_word 64 e).
  { apply is_word_lor; [done|apply is_word_lor; [done| |split; done]|split; done]. destruct Hd. split; lia. }
  assert (Hflag : forall k, 0 <= k -> Z.testbit e k =
     Z.testbit r k || bool_decide (k = 0) || bool_decide (k = 1)).
  { intros k Hk. unfold e, PRESENT, WRITABLE. by rewrite !Z.lor_spec, !testbit_one_shift by lia. }
  assert (HAe : addr_of e = r).
  { unfold e. rewrite <- Z.lor_assoc. apply addr_of_lor; [by apply in_direct_map_frame|].
    intros k Hk. unfold PRESENT, WRITABLE. rewrite Z.lor_spec, !testbit_one_shift by lia.
    rewrite !bool_decide_false by lia. done. }
  assert (Hent : forall q j, in_direct_map q -> 0 <= j < 512 ->
    ent (memory s') q j = if (q =? p) && (j =? i) then e
                          else if q =? r then 0 else ent (memory s) q j).
  { intros q j Hq Hj. unfold s'. simpl. rewrite ent_set by done.
    destruct ((q =? p) && (j =? i)); [done|]. rewrite Hmem. by apply ent_memset. }
  assert (Hview : forall v, 0 <= v ->
    view_le (walk (memory s) v 3 (s_Root s)) (walk (memory s') v 3 (s_Root s))).
  { intros v Hv. apply (walk_le own s (memory s') 3 (s_Root s) v Ht Hv); [lia| |].
    - intros q x pre' j Hq Hj. pose proof (tr_own own s Ht q _ _ Hq) as [Hdq _].
      rewrite (Hent q j Hdq Hj). replace (q =? r) with false by (symmetry; apply Z.eqb_neq; congruence).
      destruct ((q =? p) && (j =? i)) eqn:E; [|apply ent_le_refl].
      apply andb_prop in E as [->%Z.eqb_eq ->%Z.eqb_eq].
      rewrite Hp in Hq. injection Hq as <- <-. right. right. rewrite HAe.
      split_and!; [done|rewrite Hflag by lia; rewrite !bool_decide_true by lia; btauto|].
      intros k Hk. rewrite Hent by done. replace (r =? p) with false by lia. simpl.
      by rewrite Z.eqb_refl.
    - by rewrite prefix_top, (tr_root own s). }
  split_and!.
  - destruct Ht as [Hf Hroot Ho Hc Hu]. split.
    + done.
    + unfold own', s'. simpl. rewrite HR. case_test; [congruence|done].
    + intros q x pre'. unfold own'. simpl. case_test.
      * intros _. subst q. split; [done|]. rewrite Hfr. intros [_ []]. done.
      * intros Hq. destruct (Ho _ _ _ Hq) as [? Hnf]. split; [done|]. rewrite Hfr. tauto.
    + intros q x pre' j Hq Hj. unfold own' in Hq.
      destruct (Z.eqb_spec q r) as [->|Hqr].
      * cbv zeta. rewrite Hent by done. replace (r =? p) with false by lia. simpl.
        rewrite Z.eqb_refl, Z.bits_0. done.
      * destruct (Ho _ _ _ Hq) as [Hdq _]. cbv zeta. rewrite Hent by done.
        replace (q =? r) with false by lia.
        destruct ((q =? p) && (j =? i)) eqn:E.
        -- apply andb_prop in E as [->%Z.eqb_eq ->%Z.eqb_eq]. intros _.
           rewrite Hp in Hq. injection Hq as <- <-. rewrite HAe. unfold own'. rewrite Z.eqb_refl.
           rewrite !Hflag by lia. rewrite !(frame_bits r) by (lia || by apply in_direct_map_frame).
           rewrite !bool_decide_false by lia. split_and!; reflexivity.
        -- intros Hpr. destruct (Hc _ _ _ _ Hq Hj Hpr) as (Hch & ?). split; [|done].
           unfold own'. case_test; [congruence|done].
    + unfold s'. simpl. rewrite HR. by apply (user_le (memory s)).
  - split; [|exact HR|exact HX|exact Hview| |intros q; simpl; rewrite Hfr; tauto| |].
    + intros q x Hq. unfold own'. case_test; [congruence|done].
    + intros q l pre' j Hq Hl Hj. pose proof (tr_own own s Ht q _ _ Hq) as [Hdq _].
      rewrite Hent by done. replace (q =? r) with false by (symmetry; apply Z.eqb_neq; congruence).
      destruct (Z.eqb_spec q p) as [->|?]; [|done]. rewrite Hp in Hq. injection Hq as <- <-. lia.
    + intros q x. unfold own'. destruct (Z.eqb_spec q r) as [->|]; [by right|by left].
    + intros a Ha. assert (Hpo : own' p = Some (S n, pre)) by (unfold own'; by rewrite (proj2 (Z.eqb_neq _ _) Hrp)).
      assert (Hro : own' r = Some (n, pre * 512 + i)) by (unfold own'; by rewrite Z.eqb_refl).
      change (memory s') with (set_entry (memory s0) (TableAt p) i e).
      rewrite (set_entry_out _ _ _ _ _ Hdp Hi (Ha _ _ Hpo)), Hmem. exact (memset_table_out _ _ _ Hd (Ha _ _ Hro)).
  - rewrite Hent by done. rewrite !Z.eqb_refl. simpl. rewrite Hflag by lia.
    rewrite (bool_decide_true (0 = 0)) by lia. btauto.
Qed.

(** ** [Descend] *)

Lemma present_test e : (Z.land e PRESENT =? 0) = negb (Z.testbit e 0).
Proof. apply land_flag_zero. lia. Qed.

(** One round of the loop: the entry is present and open enough afterwards, and
    points at a table that is one level down on the way to [v]. *)
Lemma Descend_round own s p n v fl :
  tree own s -> 0 <= v -> (S n <= 3)%nat -> fl = 0 \/ fl = USER ->
  own p = Some (S n, prefix v (S (S n))) ->
  let i := IndexAt v (Z.of_nat (S (S n))) in
  exists s1 own1, tree own1 s1 /\ keeps own own1 (S n) s s1 /\
    ((Descend_loop (S n) v 1 fl (TableAt p) s = Ok (0, s1) /\ exhausted s1) \/
     (let e := ent (memory s1) p i in
      Descend_loop (S n) v 1 fl (TableAt p) s =
        Descend_loop n v 1 fl (TableAt (addr_of e)) s1 /\
      own1 (addr_of e) = Some (n, prefix v (S n)) /\
      Z.testbit e 0 = true /\ (fl = USER -> Z.testbit e 2 = true))).
Proof.
  intros Ht Hv Hn Hfl Hp i. assert (Hi : 0 <= i < 512) by apply IndexAt_range.
  assert (Hlvl : 1 + Z.of_nat (S n) = Z.of_nat (S (S n))) by lia.
  assert (Hopen : forall own1 s1, tree own1 s1 -> own1 p = Some (S n, prefix v (S (S n))) ->
    Z.testbit (ent (memory s1) p i) 0 = true ->
    exists s2, tree own1 s2 /\ keeps own1 own1 (S n) s1 s2 /\
      let e := ent (memory s2) p i in
      s2 = with_memory s1 (set_entry (memory s1) (TableAt p) i (Z.lor (ent (memory s1) p i) fl)) /\
      e = Z.lor (ent (memory s1) p i) fl /\
      own1 (addr_of e) = Some (n, prefix v (S n)) /\
      Z.testbit e 0 = true /\ (fl = USER -> Z.testbit e 2 = true)).
  { intros own1 s1 Ht1 Hp1 HP1.
    destruct (open_entry own1 s1 p n _ i fl Ht1 Hp1 Hi Hfl HP1) as (Ht2 & Hk2 & He2).
    eexists. split; [exact Ht2|]. split; [exact Hk2|]. cbv zeta. rewrite He2.
    assert (HP2 : Z.testbit (Z.lor (ent (memory s1) p i) fl) 0 = true)
      by (rewrite Z.lor_spec, HP1; done).
    split_and!; [done|done| |done|].
    - pose proof (tr_child own1 _ Ht2 p n _ i Hp1 Hi) as Hc. cbv zeta in Hc. rewrite He2 in Hc.
      destruct (Hc HP2) as [Hc' _]. rewrite Hc'. f_equal. f_equal. by apply child_prefix.
    - intros ->. unfold USER. rewrite Z.lor_spec, testbit_one_shift, bool_decide_true by lia. btauto. }
  cbn [Descend_loop]. rewrite Hlvl. fold i.
  change (entry_of (memory s) (TableAt p) i) with (ent (memory s) p i).
  rewrite present_test. destruct (Z.testbit (ent (memory s) p i) 0) eqn:HP; cbn [negb].
  - destruct (Hopen own s Ht Hp HP) as (s2 & Ht2 & Hk2 & Hs2 & He2 & Ho2 & HP2 & HU2).
    exists s2, own. split; [done|]. split; [done|]. right.
    cbv zeta. split_and!; try done. rewrite He2. unfold addr_of. by rewrite Hs2.
  - destruct (AllocateTable_ok s (tr_frames _ _ Ht)) as (r & s0 & HA & Hf0 & HR & HX & Hcase).
    rewrite HA. cbn [obind].
    destruct Hcase as [(-> & Hex & Hm & Hfr)|(Hd & _)].
    + exists s0, own. split; [|split; [|left; done]].
      * destruct Ht as [Hf Hroot Ho Hc Hu]. split; rewrite ?HR, ?Hm, ?Hfr; done.
      * split; rewrite ?Hm, ?Hfr; try done. by left.
    + assert (Hr0 : r <> 0) by (destruct Hd; lia).
      destruct (link_table own s s0 p n _ i r Ht Hp Hi HP HA Hr0) as (Ht1 & Hk1 & HP1).
      assert (Hp1 : (fun q => if q =? r then Some (n, prefix v (S (S n)) * 512 + i) else own q) p
                    = Some (S n, prefix v (S (S n)))) by (by apply (k_own _ _ _ _ _ Hk1)).
      destruct (Hopen _ _ Ht1 Hp1 HP1) as (s2 & Ht2 & Hk2 & Hs2 & He2 & Ho2 & HP2 & HU2).
      replace (r =? 0) with false by lia. eexists s2, _. split; [exact Ht2|].
      split; [eapply keeps_trans; [|exact Hk1|exact Hk2]; lia|]. right.
      cbv zeta. split_and!; [|exact Ho2|exact HP2|exact HU2].
      rewrite He2. unfold addr_of. rewrite Hs2. reflexivity.
Qed.

Lemma Descend_loop_ok n v fl p own s :
  tree own s -> 0 <= v -> (n <= 3)%nat -> fl = 0 \/ fl = USER ->
  own p = Some (n, prefix v (S n)) ->
  exists r s' own', Descend_loop n v 1 fl (TableAt p) s = Ok (r, s') /\
    tree own' s' /\ keeps own own' n s s' /\
    ((r = 0 /\ exhausted s') \/
     exists q u, r = TableAt q /\ own' q = Some (0%nat, prefix v 1) /\
       leaf_of (memory s') v n p = Some (u, q) /\ (fl = USER -> u = true)).
Proof.
  intros Ht Hv Hn Hfl. revert p own s Ht Hn; induction n as [|n IH]; intros p own s Ht Hn Hp.
  - exists (TableAt p), s, own. split; [done|]. split; [done|]. split; [apply keeps_refl|].
    right. exists p, true. done.
  - destruct (Descend_round own s p n v fl Ht Hv Hn Hfl Hp)
      as (s1 & own1 & Ht1 & Hk1 & [[HD Hex]|(HD & Ho1 & HP1 & HU1)]).
    { exists 0, s1, own1. split_and!; [done|done|done|by left]. }
    destruct (IH _ own1 s1 Ht1 ltac:(lia) Ho1) as (r & s2 & own2 & HD2 & Ht2 & Hk2 & Hcase).
    exists r, s2, own2. rewrite HD, HD2. split; [done|]. split; [done|].
    split; [by eapply keeps_trans; [|done..]; lia|].
    destruct Hcase as [?|(q & u & -> & Hq & Hl & Hu)]; [by left|right].
    exists q. eexists. split; [done|]. split; [done|].
    assert (He : ent (memory s2) p (IndexAt v (Z.of_nat (S (S n)))) =
                 ent (memory s1) p (IndexAt v (Z.of_nat (S (S n))))).
    { eapply (k_above _ _ _ _ _ Hk2); [by apply (k_own _ _ _ _ _ Hk1)|lia|apply IndexAt_range]. }
    cbn [leaf_of]. rewrite He, HP1, Hl. split; [done|]. intros Hf. by rewrite HU1, Hu.
Qed.

(** ** Writing a leaf entry *)

Lemma walk_set_other own s p pre i e w n q :
  tree own s -> own p = Some (0%nat, pre) -> 0 <= i < 512 -> is_word 64 e ->
  0 <= w -> (n <= 3)%nat -> own q = Some (n, prefix w (S n)) -> vpn w <> pre * 512 + i ->
  walk (set_entry (memory s) (TableAt p) i e) w n q = walk (memory s) w n q.
Proof.
  intros Ht Hp Hi He Hw Hn Hq Hne. pose proof (tr_own own s Ht p _ _ Hp) as [Hdp _].
  revert q Hn Hq; induction n as [|n IH]; intros q Hn Hq;
    pose proof (tr_own own s Ht q _ _ Hq) as [Hdq _].
  - unfold walk. cbn [leaf_of read_leaf].
    assert (Hk : ent (set_entry (memory s) (TableAt p) i e) q (IndexAt w 1) =
                 ent (memory s) q (IndexAt w 1)).
    { rewrite ent_set by (done || apply IndexAt_range).
      destruct (Z.eqb_spec q p) as [->|?]; simpl; [|done].
      destruct (Z.eqb_spec (IndexAt w 1) i) as [Hx|?]; [|done]. exfalso.
      rewrite Hp in Hq. injection Hq as ->. apply Hne. rewrite <- Hx.
      change 1 with (Z.of_nat 1). rewrite IndexAt_prefix by lia.
      rewrite <- prefix_leaf. apply prefix_step. }
    by rewrite Hk.
  - rewrite !walk_S. cbv zeta.
    assert (Hk : ent (set_entry (memory s) (TableAt p) i e) q (IndexAt w (Z.of_nat (S (S n)))) =
                 ent (memory s) q (IndexAt w (Z.of_nat (S (S n))))).
    { rewrite ent_set by (done || apply IndexAt_range).
      destruct (Z.eqb_spec q p) as [->|?]; simpl; [|done]. congruence. }
    rewrite Hk. destruct (Z.testbit _ 0) eqn:HP; [|done].
    rewrite IH; [done|lia|].
    destruct (tr_child own s Ht q n _ _ Hq (IndexAt_range _ _) HP) as [Hc _].
    rewrite Hc. f_equal. f_equal. by apply child_prefix.
Qed.

Lemma leaf_of_set own s p pre i e w n q :
  tree own s -> own p = Some (0%nat, pre) -> 0 <= i < 512 -> is_word 64 e ->
  0 <= w -> (n <= 3)%nat -> own q = Some (n, prefix w (S n)) ->
  leaf_of (set_entry (memory s) (TableAt p) i e) w n q = leaf_of (memory s) w n q.
Proof.
  intros Ht Hp Hi He Hw Hn Hq. pose proof (tr_own own s Ht p _ _ Hp) as [Hdp _].
  revert q Hn Hq; induction n as [|n IH]; intros q Hn Hq; [done|].
  pose proof (tr_own own s Ht q _ _ Hq) as [Hdq _]. cbn [leaf_of].
  rewrite ent_set by (done || apply IndexAt_range).
  replace (q =? p) with false by (symmetry; apply Z.eqb_neq; congruence). simpl andb. cbv iota.
  destruct (Z.testbit _ 0) eqn:HP; [|done]. rewrite IH; [done|lia|].
  destruct (tr_child own s Ht q n _ _ Hq (IndexAt_range _ _) HP) as [Hc _].
  rewrite Hc. f_equal. f_equal. by apply child_prefix.
Qed.

(** ** The function the tables represent *)

Definition mapping (s : t F) (v : Z) : option Z := snd <$> walk (memory s) v 3 (s_Root s).

Lemma view_le_mapping (o o' : option (bool * Z)) : view_le o o' -> snd <$> o = snd <$> o'.
Proof. destruct o as [[??]|], o' as [[??]|]; simpl; try done. by intros [-> _]. Qed.

Lemma mapping_vpn s v w : 0 <= v -> 0 <= w -> vpn v = vpn w -> mapping s v = mapping s w.
Proof.
  intros Hv Hw E. unfold mapping, walk. rewrite (leaf_of_vpn _ v w) by (done || lia).
  destruct (leaf_of _ w 3 _) as [[u q]|]; [|done]. cbn [read_leaf].
  change 1 with (Z.of_nat 1). by rewrite !IndexAt_prefix, (vpn_prefix v w) by (done || lia).
Qed.

Lemma set_leaf_ok own s v q u e :
  tree own s -> 0 <= v -> leaf_of (memory s) v 3 (s_Root s) = Some (u, q) ->
  own q = Some (0%nat, prefix v 1) -> is_word 64 e ->
  (Z.testbit e 2 = true -> u = true) -> Z.testbit e 0 = true ->
  let s' := with_memory s (set_entry (memory s) (TableAt q) (IndexAt v 1) e) in
  tree own s' /\
  forall w, 0 <= w -> mapping s' w = if vpn w =? vpn v then Some e else mapping s w.
Proof.
  intros Ht Hv Hl Hq He Hu HP s'. assert (Hi := IndexAt_range v 1).
  pose proof (tr_own own s Ht q _ _ Hq) as [Hdq _].
  assert (Hroot : forall w, own (s_Root s) = Some (3%nat, prefix w 4))
    by (intros; by rewrite prefix_top, (tr_root own s)).
  assert (Hpre : prefix v 1 * 512 + IndexAt v 1 = vpn v).
  { change (IndexAt v 1) with (IndexAt v (Z.of_nat 1)). rewrite IndexAt_prefix, <- prefix_leaf by lia.
    symmetry. apply prefix_step. }
  assert (Hhit : walk (memory s') v 3 (s_Root s) = Some (u, e)).
  { unfold walk, s'. cbn [memory with_memory].
    rewrite (leaf_of_set own s q _ _ e v 3 (s_Root s)), Hl by (done || lia). cbn [read_leaf].
    rewrite ent_set, !Z.eqb_refl by done. simpl andb. cbv iota. by rewrite HP. }
  assert (Hmap : forall w, 0 <= w -> mapping s' w = if vpn w =? vpn v then Some e else mapping s w).
  { intros w Hw. destruct (Z.eqb_spec (vpn w) (vpn v)) as [E|E].
    - rewrite (mapping_vpn s' w v) by done. unfold mapping.
      change (s_Root s') with (s_Root s). by rewrite Hhit.
    - unfold mapping, s'. cbn [memory s_Root with_memory].
      erewrite (walk_set_other own); try done; try lia. }
  split; [|done]. destruct Ht as [Hf Hr Ho Hc Hus]. split; try done.
  - intros p n pre j Hp Hj. destruct (Ho _ _ _ Hp) as [Hdp _]. cbv zeta. unfold s'.
    cbn [memory with_memory]. rewrite ent_set by done.
    replace (p =? q) with false by (symmetry; apply Z.eqb_neq; congruence). by apply Hc.
  - intros w u' leaf Hw Hwalk Hb. cbn [memory s_Root with_memory s'] in Hwalk.
    destruct (Z.eqb_spec (vpn w) (vpn v)) as [E|E].
    + unfold walk in Hwalk. rewrite (leaf_of_vpn _ w v) in Hwalk by (done || lia).
      rewrite (leaf_of_set own s q _ _ e v 3 (s_Root s)), Hl in Hwalk by (done || lia).
      cbn [read_leaf] in Hwalk. change (IndexAt w 1) with (IndexAt w (Z.of_nat 1)) in Hwalk.
      rewrite IndexAt_prefix, (vpn_prefix w v), <- IndexAt_prefix in Hwalk by (done || lia).
      change (Z.of_nat 1) with 1 in Hwalk. rewrite ent_set, !Z.eqb_refl in Hwalk by done.
      simpl andb in Hwalk. cbv iota in Hwalk. rewrite HP in Hwalk. injection Hwalk as <- <-. auto.
    + erewrite (walk_set_other own) in Hwalk; try done; try lia. by eapply Hus.
Qed.

(** ** [Map] *)

Lemma FlagsFor_bits s a pr c k : 0 <= k ->
  Z.testbit (FlagsFor s a pr c) k =
    bool_decide (k = 0) ||
    bool_decide (k = 1) && bool_decide (a = READ_WRITE) ||
    bool_decide (k = 63) && (bool_decide (a <> READ_EXECUTE) && s_NoExecuteAvailable s) ||
    bool_decide (k = 2) && bool_decide (pr = USER_) ||
    bool_decide (k = 4) && bool_decide (c = DISABLED).
Proof.
  intros Hk. unfold FlagsFor, PRESENT, WRITABLE, NO_EXECUTE, USER, CACHE_DISABLE. cbv zeta.
  destruct (s_NoExecuteAvailable s), (bool_decide (a = READ_WRITE)),
    (bool_decide (a <> READ_EXECUTE)), (bool_decide (pr = USER_)), (bool_decide (c = DISABLED));
    cbn [andb]; rewrite ?Z.lor_spec, ?testbit_one_shift by lia; btauto.
Qed.

Lemma FlagsFor_word s a pr c : is_word 64 (FlagsFor s a pr c).
Proof.
  apply is_word_bits; [lia| |].
  - unfold FlagsFor. cbv zeta. repeat case_match; rewrite ?Z.lor_nonneg; done.
  - intros i Hi. rewrite FlagsFor_bits by lia. by rewrite !(bool_decide_false (i = _)) by lia.
Qed.

(** Distance in pages from [p] up to [w], modulo the 36 bits of a page number. *)
Definition page_distance (p w : Z) : Z := (vpn w - vpn p) mod 2 ^ 36.

Lemma page_distance_next p w :
  page_distance (p + 4096) w = (page_distance p w - 1) mod 2 ^ 36.
Proof.
  unfold page_distance, vpn. replace (p + 4096) with (p + 1 * 4096) by lia.
  rewrite Z.div_add, <- !Zminus_mod, Zminus_mod_idemp_l by lia. f_equal. lia.
Qed.

Lemma page_distance_zero p w : page_distance p w = 0 <-> vpn w = vpn p.
Proof.
  unfold page_distance. assert (0 <= vpn w < 2 ^ 36) by (apply Z.mod_pos_bound; lia).
  assert (0 <= vpn p < 2 ^ 36) by (apply Z.mod_pos_bound; lia). split.
  - intros E. apply Z.mod_divide in E as [k Hk]; [|lia]. nia.
  - intros ->. by rewrite Z.sub_diag.
Qed.

(** The specification of [Map]: [n] pages from [p] on map the frames from [src] on. *)
Definition mapped_range (f : Z -> option Z) (p n src flags w : Z) : option Z :=
  let d := page_distance p w in
  if d <? n then Some (Z.lor (src + d * 4096) flags) else f w.

Lemma mapped_range_step f p n src flags w :
  0 <= n < 2 ^ 36 ->
  mapped_range (fun w => if vpn w =? vpn p then Some (Z.lor src flags) else f w)
               (p + 4096) n (src + 4096) flags w
  = mapped_range f p (n + 1) src flags w.
Proof.
  intros Hn. unfold mapped_range. rewrite page_distance_next.
  assert (Hd : 0 <= page_distance p w < 2 ^ 36) by (apply Z.mod_pos_bound; lia).
  pose proof (page_distance_zero p w) as Hz.
  destruct (Z.eq_dec (page_distance p w) 0) as [E|E].
  - rewrite E. change ((0 - 1) mod 2 ^ 36) with (2 ^ 36 - 1).
    replace (2 ^ 36 - 1 <? n) with false by lia. replace (0 <? n + 1) with true by lia.
    replace (vpn w =? vpn p) with true by lia. do 2 f_equal. lia.
  - rewrite Z.mod_small by lia. replace (vpn w =? vpn p) with false by lia.
    replace (page_distance p w - 1 <? n) with (page_distance p w <? n + 1) by lia.
    destruct (_ <? _); [|done]. do 2 f_equal. lia.
Qed.

Record map_result (own : Z -> option (nat * Z)) (s : t F) (p n src flags : Z) (ok : bool)
    (s' : t F) : Prop := {
  mr_tree : exists own', tree own' s' /\ (forall q x, own q = Some x -> own' q = Some x) /\
    (forall q x, own' q = Some x -> own q = Some x \/ fa_free (frames s) q) /\
    (forall a, outside own' a -> load8 (memory s') a = load8 (memory s) a);
  mr_root : s_Root s' = s_Root s;
  mr_nx : s_NoExecuteAvailable s' = s_NoExecuteAvailable s;
  mr_mapped : exists k, 0 <= k <= n /\ (ok = true -> k = n) /\
    (ok = false -> k < n /\ exhausted s') /\
    forall w, 0 <= w -> mapping s' w = mapped_range (mapping s) p k src flags w;
  mr_free q : fa_free (frames s') q -> fa_free (frames s) q }.

(** Mapping one page. *)
Lemma Map_page own s page src flags fl :
  tree own s -> 0 <= page -> is_frame src -> is_word 64 flags ->
  Z.testbit flags 0 = true -> (forall k, 12 <= k < 52 -> Z.testbit flags k = false) ->
  fl = (if Z.testbit flags 2 then USER else 0) ->
  exists table s1 own1, Descend page LEAF_LEVEL fl s = Ok (table, s1) /\
    tree own1 s1 /\ keeps own own1 3 s s1 /\
    ((table = 0 /\ exhausted s1) \/
     (table <> 0 /\
      let s2 := with_memory s1 (set_entry (memory s1) table (IndexAt page LEAF_LEVEL) (Z.lor src flags)) in
      tree own1 s2 /\ (forall x, outside own1 x -> load8 (memory s2) x = load8 (memory s1) x) /\
      forall w, 0 <= w -> mapping s2 w = if vpn w =? vpn page then Some (Z.lor src flags) else mapping s w)).
Proof.
  intros Ht Hp Hsrc Hw HP Hmid Hfl. unfold Descend.
  change (Z.to_nat (TOP_LEVEL - LEAF_LEVEL)) with 3%nat. change LEAF_LEVEL with 1.
  destruct (Descend_loop_ok 3 page fl (s_Root s) own s) as (r & s1 & own1 & HD & Ht1 & Hk & Hcase);
    try done; try lia.
  { subst fl. destruct (Z.testbit flags 2); auto. }
  { by rewrite prefix_top, (tr_root own s). }
  exists r, s1, own1. split_and!; try done. destruct Hcase as [?|(q & u & -> & Hq & Hl & Hu)]; [by left|right].
  pose proof (tr_own own1 s1 Ht1 q _ _ Hq) as [Hdq _]. split; [by apply TableAt_nonzero|].
  rewrite <- (k_root _ _ _ _ _ Hk) in Hl.
  destruct (set_leaf_ok own1 s1 page q u (Z.lor src flags)) as [Ht2 Hm2]; try done.
  { apply is_word_lor; [lia| |done]. destruct Hsrc. split; lia. }
  { rewrite Z.lor_spec, (frame_bits src) by (done || lia). simpl. intros H2. apply Hu.
    by rewrite Hfl, H2. }
  { by rewrite Z.lor_spec, HP, orb_true_r. }
  split; [done|]. split.
  { intros x Hx. apply set_entry_out; [done|apply IndexAt_range|by apply (Hx _ _ Hq)]. }
  intros w Hw0. rewrite Hm2 by done. destruct (_ =? _); [done|].
  unfold mapping. rewrite (k_root _ _ _ _ _ Hk). symmetry. apply view_le_mapping, (k_view _ _ _ _ _ Hk w Hw0).
Qed.

Lemma Map_loop_ok n fuel own s page end_ src flags fl :
  (n < fuel)%nat -> tree own s ->
  0 <= page -> page mod 4096 = 0 -> page + Z.of_nat n * 4096 < 2 ^ 64 ->
  end_ <= page + Z.of_nat n * 4096 -> (n = O \/ page + Z.of_nat n * 4096 < end_ + 4096) ->
  is_frame src -> src + Z.of_nat n * 4096 < 2 ^ 52 -> Z.of_nat n <= 2 ^ 36 ->
  is_word 64 flags -> Z.testbit flags 0 = true ->
  (forall k, 12 <= k < 52 -> Z.testbit flags k = false) ->
  fl = (if Z.testbit flags 2 then USER else 0) ->
  exists ok s', Map_loop fuel page end_ src flags fl s = Ok (ok, s') /\
    map_result own s page (Z.of_nat n) src flags ok s'.
Proof.
  intros Hfuel Ht Hp Hal Hend He1 He2 Hsrc Hs52 Hn36 Hw HP Hmid Hfl.
  revert n fuel own s page src Hfuel Ht Hp Hal Hend He1 He2 Hsrc Hs52 Hn36.
  induction n as [|n IH]; intros fuel own s page src Hfuel Ht Hp Hal Hend He1 He2 Hsrc Hs52 Hn36;
    (destruct fuel as [|fuel]; [lia|]); cbn [Map_loop].
  { replace (page <? end_) with false by lia. exists true, s. split; [done|]. split; try done.
    - exists own. split_and!; try done. by left.
    - exists 0. split_and!; try done. intros w Hw0. unfold mapped_range.
      assert (0 <= page_distance page w) by (apply Z.mod_pos_bound; lia).
      by replace (page_distance page w <? 0) with false by lia. }
  replace (page <? end_) with true by lia.
  destruct (Map_page own s page src flags fl Ht Hp Hsrc Hw HP Hmid Hfl)
    as (table & s1 & own1 & -> & Ht1 & Hk & Hcase). cbn [obind].
  destruct Hcase as [[-> Hex]|(Ht0 & Ht2 & Hd2 & Hm2)].
  { exists false, s1. split; [done|]. split; try apply Hk.
    - exists own1. split_and!; [done|apply Hk..].
    - exists 0. split_and!; try done; try lia. intros w Hw0. unfold mapped_range.
      assert (0 <= page_distance page w) by (apply Z.mod_pos_bound; lia).
      replace (page_distance page w <? 0) with false by lia.
      unfold mapping. rewrite (k_root _ _ _ _ _ Hk). symmetry.
      apply view_le_mapping, (k_view _ _ _ _ _ Hk w Hw0). }
  replace (table =? 0) with false by lia.
  rewrite !wrap_small by (unfold is_word, PAGE_SIZE, KIB; destruct Hsrc; lia).
  change PAGE_SIZE with 4096. set (s2 := with_memory s1 _) in *.
  destruct (IH fuel own1 s2 (page + 4096) (src + 4096)) as (ok & s' & HM & [Htr Hroot Hnx Hmap Hfree]);
    try done; try lia.
  { rewrite <- Hal. replace (page + 4096) with (page + 1 * 4096) by lia. by rewrite Z.mod_add. }
  { destruct Hsrc as [Hs1 Hs2]. split; [|lia]. rewrite <- Hs1.
    replace (src + 4096) with (src + 1 * 4096) by lia. by rewrite Z.mod_add. }
  exists ok, s'. split; [done|]. split.
  - destruct Htr as (own' & Htr & Ho & Hnew & Hdat). exists own'. split_and!; [done| | |].
    + intros q x Hq. by apply Ho, Hk.
    + intros q x [Hq|Hq]%Hnew; [by apply Hk in Hq|right; by apply Hk].
    + intros a Ha. assert (Ha1 : outside own1 a) by (intros q x Hq; by apply (Ha q x), Ho).
      rewrite (Hdat a Ha), (Hd2 a Ha1). by apply (k_data _ _ _ _ _ Hk).
  - rewrite Hroot. apply Hk.
  - rewrite Hnx. apply Hk.
  - destruct Hmap as (k & Hk1 & Hok & Hfail & Hmap). exists (k + 1). split_and!; try lia.
    + intros Hb. specialize (Hok Hb). lia.
    + intros Hb. destruct (Hfail Hb). split; [lia|done].
    + intros w Hw0. rewrite Hmap, <- mapped_range_step by lia. unfold mapped_range.
      destruct (_ <? _); [done|]. by apply Hm2.
  - intros q Hq. apply (k_free _ _ _ _ _ Hk), Hfree, Hq.
Qed.

(** Ranges [Map] is meant for: they do not reach the last page of the address space,
    are shorter than it, and their frames have 52 bit addresses. *)
Record range_ok (v p size : Z) : Prop := {
  ro_virtual : 0 <= v /\ v + size <= 2 ^ 64 - 4096;
  ro_size : 0 <= size <= 2 ^ 48 - 8192;
  ro_physical : 0 <= p /\ p + size + 8192 <= 2 ^ 52 }.

(** Pages the range [[v, v + size)] touches. *)
Definition page_count (v size : Z) : Z := (v mod 4096 + size + 4095) / 4096.

Lemma page_base_eq a : 0 <= a < 2 ^ 64 -> page_base a = a / 4096 * 4096.
Proof. intros. unfold page_base. by apply land_page_mask. Qed.

Lemma page_base_frame a : 0 <= a < 2 ^ 52 -> is_frame (page_base a).
Proof.
  intros Ha. rewrite page_base_eq by lia. split; [apply Z.mod_mul; lia|].
  pose proof (Z.div_mod a 4096). pose proof (Z.mod_pos_bound a 4096). lia.
Qed.

(** The frames a range maps to have valid addresses. *)
Lemma range_frame v p size w :
  range_ok v p size -> page_distance (page_base v) w < page_count v size ->
  is_frame (page_base p + page_distance (page_base v) w * 4096).
Proof.
  intros [[Hv Hve] Hs [Hp Hpe]] Hd.
  assert (0 <= page_distance (page_base v) w) by (apply Z.mod_pos_bound; lia).
  destruct (page_base_frame p ltac:(lia)) as [Hm Hb]. split; [by rewrite Z.mod_add|].
  rewrite (page_base_eq p) in * by lia. unfold page_count in Hd.
  pose proof (Z.div_mod p 4096). pose proof (Z.mod_pos_bound p 4096).
  pose proof (Z.div_mod (v mod 4096 + size + 4095) 4096).
  pose proof (Z.mod_pos_bound (v mod 4096 + size + 4095) 4096).
  pose proof (Z.mod_pos_bound v 4096). lia.
Qed.

Lemma Map_ok own s v p size a pr c :
  tree own s -> range_ok v p size ->
  exists ok s', Map v p size a pr c s = Ok (ok, s') /\
    map_result own s (page_base v) (page_count v size) (page_base p) (FlagsFor s a pr c) ok s'.
Proof.
  intros Ht [[Hv Hve] Hs [Hp Hpe]]. unfold Map.
  rewrite (wrap_small 64 (v + size)) by (unfold is_word; lia).
  pose proof (Z.div_mod v 4096). pose proof (Z.mod_pos_bound v 4096).
  pose proof (Z.div_mod (v mod 4096 + size + 4095) 4096).
  pose proof (Z.mod_pos_bound (v mod 4096 + size + 4095) 4096).
  pose proof (Z.div_mod p 4096). pose proof (Z.mod_pos_bound p 4096).
  pose proof (Z.div_mod size 4096). pose proof (Z.mod_pos_bound size 4096).
  assert (Hn : 0 <= page_count v size) by (apply Z.div_pos; lia).
  assert (Hpb := page_base_frame p ltac:(lia)).
  rewrite <- (Z2Nat.id (page_count v size)) by done.
  apply Map_loop_ok; rewrite ?Z2Nat.id by done; try done.
  - unfold Map_fuel, page_count. change PAGE_SIZE with 4096. lia.
  - rewrite page_base_eq by lia. lia.
  - rewrite page_base_eq by lia. apply Z.mod_mul. lia.
  - rewrite page_base_eq by lia. unfold page_count. lia.
  - rewrite page_base_eq by lia. unfold page_count. lia.
  - rewrite page_base_eq by lia. right. unfold page_count. lia.
  - rewrite page_base_eq by lia. unfold page_count. lia.
  - unfold page_count. lia.
  - apply FlagsFor_word.
  - by rewrite FlagsFor_bits by lia.
  - intros k Hk. rewrite FlagsFor_bits by lia. by rewrite !(bool_decide_false (k = _)) by lia.
  - rewrite FlagsFor_bits by lia. cbn [andb orb]. by destruct (bool_decide (pr = USER_)).
Qed.

(** ** What the CPU grants *)

Definition perm (g : bool) : Z := if g then 7 else 3.

Lemma land_perm g e : Z.testbit e 0 = true -> Z.testbit e 1 = true ->
  Z.land (perm g) e = perm (g && Z.testbit e 2).
Proof.
  intros H0 H1. apply Z.bits_inj'. intros k Hk. rewrite Z.land_spec.
  assert (Hcase : k = 0 \/ k = 1 \/ k = 2 \/ 3 <= k) by lia.
  destruct Hcase as [->|[->|[->|Hk3]]].
  - rewrite H0. by destruct g, (Z.testbit e 2).
  - rewrite H1. by destruct g, (Z.testbit e 2).
  - by destruct g, (Z.testbit e 2).
  - rewrite !(testbit_above 3 (perm _)); [done|by destruct (g && Z.testbit e 2)|lia|by destruct g|lia].
Qed.

Lemma Effective_loop_ok own s n p v g :
  tree own s -> 0 <= v -> (n <= 3)%nat -> own p = Some (n, prefix v (S n)) ->
  Effective_loop n s v (TableAt p) (perm g) 0 =
    match walk (memory s) v n p with
    | Some (u, leaf) =>
        Z.lor (Z.lor (Z.land (perm (g && u)) leaf) (Z.land leaf NO_EXECUTE)) (addr_of leaf)
    | None => 0
    end.
Proof.
  intros Ht Hv. revert p g; induction n as [|n IH]; intros p g Hn Hp.
  - unfold walk. cbn [Effective_loop leaf_of read_leaf]. change LEAF_LEVEL with 1.
    change (entry_of (memory s) (TableAt p) (IndexAt v 1)) with (ent (memory s) p (IndexAt v 1)).
    rewrite present_test. destruct (Z.testbit _ 0); [|done]. cbn [negb].
    by rewrite Z.lor_0_l, andb_true_r.
  - rewrite walk_S. cbn [Effective_loop]. cbv zeta.
    replace (LEAF_LEVEL + Z.of_nat (S n)) with (Z.of_nat (S (S n))) by (unfold LEAF_LEVEL; lia).
    set (i := IndexAt v (Z.of_nat (S (S n)))).
    change (entry_of (memory s) (TableAt p) i) with (ent (memory s) p i).
    rewrite present_test. unfold LARGE. rewrite land_flag_zero by lia.
    destruct (Z.testbit (ent (memory s) p i) 0) eqn:HP; [|done].
    destruct (tr_child own s Ht p n _ i Hp (IndexAt_range _ _) HP) as (Hc & H1 & H7 & H63).
    rewrite H7. cbn [negb orb]. rewrite land_perm, Z.lor_0_l by done.
    replace (Z.land (ent (memory s) p i) NO_EXECUTE) with 0.
    2:{ symmetry. apply Z.eqb_eq. unfold NO_EXECUTE. rewrite land_flag_zero, H63 by lia. done. }
    change (Z.land (ent (memory s) p i) ADDRESS_MASK) with (addr_of (ent (memory s) p i)).
    unfold i in Hc. rewrite child_prefix in Hc by (done || lia). fold i in Hc.
    rewrite IH by (done || lia).
    destruct (walk (memory s) v n _) as [[u leaf]|]; [|done].
    by rewrite andb_assoc.
Qed.

(** The part of a leaf entry the queries look at. *)
Definition granted (leaf : Z) : Z :=
  Z.lor (Z.lor (Z.land 7 leaf) (Z.land leaf NO_EXECUTE)) (addr_of leaf).

Lemma Effective_exact own s v : tree own s -> 0 <= v ->
  Effective s v = match mapping s v with Some leaf => granted leaf | None => 0 end.
Proof.
  intros Ht Hv. unfold Effective, mapping.
  change (Z.lor (Z.lor PRESENT WRITABLE) USER) with (perm true).
  change (Z.to_nat (TOP_LEVEL - LEAF_LEVEL)) with 3%nat.
  rewrite (Effective_loop_ok own) by (done || lia || by rewrite prefix_top, (tr_root own s)).
  destruct (walk _ v 3 _) as [[u leaf]|] eqn:E; [|done]. simpl. unfold granted. do 2 f_equal.
  pose proof (tr_user own s Ht v u leaf Hv E) as Hu.
  apply Z.bits_inj'. intros k Hk. rewrite !Z.land_spec. destruct u; [done|].
  assert (Hcase : k = 0 \/ k = 1 \/ k = 2 \/ 3 <= k) by lia.
  destruct Hcase as [->|[->|[->|Hk3]]]; [done|done| |].
  - destruct (Z.testbit leaf 2) eqn:E2; [by rewrite Hu in *|done].
  - by rewrite (testbit_above 3 (perm false)), (testbit_above 3 7) by (done || lia).
Qed.

Lemma granted_bits leaf k : 0 <= k ->
  Z.testbit (granted leaf) k =
    Z.testbit leaf k && ((k <? 3) || bool_decide (k = 63) || (12 <=? k) && (k <? 52)).
Proof.
  intros Hk. unfold granted, NO_EXECUTE.
  rewrite !Z.lor_spec, !Z.land_spec, addr_of_bits, testbit_one_shift by lia.
  replace (Z.testbit 7 k) with (k <? 3); [btauto|].
  assert (Hcase : k = 0 \/ k = 1 \/ k = 2 \/ 3 <= k) by lia.
  destruct Hcase as [->|[->|[->|Hk3]]]; try done.
  rewrite (testbit_above 3 7) by (done || lia). lia.
Qed.

Lemma mapping_present s v leaf : mapping s v = Some leaf -> Z.testbit leaf 0 = true.
Proof.
  unfold mapping, walk. destruct (leaf_of _ _ _ _) as [[u q]|]; [|done]. cbn [read_leaf].
  destruct (Z.testbit (ent _ _ _) 0) eqn:E; [|done]. by intros [= <-].
Qed.

(** ** The queries read the represented function *)

Lemma lor_disjoint a b : Z.land a b = 0 -> Z.lor a b = a + b.
Proof. intros E. rewrite <- Z.add_lor_land, E. lia. Qed.

Record queries (s : t F) (v : Z) (phys : Z) (w x ur uw : bool) : Prop := {
  q_translate : Translate s v = phys;
  q_writable : IsWritable s v = w;
  q_executable : IsExecutable s v = x;
  q_user_readable : IsUserReadable s v = ur;
  q_user_writable : IsUserWritable s v = uw }.

Lemma land_two_flags e : (Z.land e (Z.lor USER WRITABLE) =? Z.lor USER WRITABLE) =
  Z.testbit e 2 && Z.testbit e 1.
Proof.
  apply eq_bool_prop_intro. rewrite Is_true_true, Z.eqb_eq, andb_True, !Is_true_true. split.
  - intros E. split; [apply (f_equal (fun z => Z.testbit z 2)) in E
                     |apply (f_equal (fun z => Z.testbit z 1)) in E];
      rewrite Z.land_spec in E; by apply andb_prop in E as [E _].
  - intros [E2 E1]. apply Z.bits_inj'. intros k Hk. rewrite Z.land_spec.
    unfold USER, WRITABLE. rewrite Z.lor_spec, !testbit_one_shift by lia.
    repeat case_bool_decide; subst; rewrite ?E1, ?E2; btauto.
Qed.

Lemma queries_exact own s v : tree own s -> 0 <= v ->
  match mapping s v with
  | Some leaf =>
      queries s v (addr_of leaf + v mod 4096) (Z.testbit leaf 1)
              (negb (s_NoExecuteAvailable s) || negb (Z.testbit leaf 63))
              (Z.testbit leaf 2) (Z.testbit leaf 2 && Z.testbit leaf 1)
  | None => queries s v 0 false false false false
  end.
Proof.
  intros Ht Hv. pose proof (Effective_exact own s v Ht Hv) as HE.
  destruct (mapping s v) as [leaf|] eqn:Em;
    (split; unfold Translate, IsWritable, IsExecutable, IsUserReadable, IsUserWritable; rewrite HE);
    try done.
  - assert (Hn0 : granted leaf =? 0 = false).
    { apply Z.eqb_neq. intros E. apply (f_equal (fun z => Z.testbit z 0)) in E.
      rewrite granted_bits, (mapping_present s v leaf Em) in E by lia. done. }
    cbv zeta. rewrite Hn0. change (PAGE_SIZE - 1) with (Z.ones 12). rewrite Z.land_ones by lia.
    change (2 ^ 12) with 4096.
    replace (Z.land (granted leaf) ADDRESS_MASK) with (addr_of leaf).
    2:{ apply Z.bits_inj'. intros k Hk. change (Z.land (granted leaf) ADDRESS_MASK) with (addr_of (granted leaf)).
        rewrite !addr_of_bits, granted_bits by lia. btauto. }
    apply lor_disjoint, Z.bits_inj'. intros k Hk. rewrite Z.land_spec, addr_of_bits, Z.bits_0 by lia.
    change 4096 with (2 ^ 12). destruct (Z.leb_spec 12 k); [|btauto].
    rewrite Z.mod_pow2_bits_high by lia. btauto.
  - unfold WRITABLE. rewrite land_flag_zero, granted_bits, negb_involutive by lia. simpl. btauto.
  - assert (Hn0 : granted leaf =? 0 = false).
    { apply Z.eqb_neq. intros E. apply (f_equal (fun z => Z.testbit z 0)) in E.
      rewrite granted_bits, (mapping_present s v leaf Em) in E by lia. done. }
    cbv zeta. rewrite Hn0. unfold NO_EXECUTE. rewrite land_flag_zero, granted_bits by lia.
    rewrite (bool_decide_true (63 = 63)) by done. simpl. by rewrite andb_true_r.
  - unfold USER. rewrite land_flag_zero, granted_bits, negb_involutive by lia. simpl. btauto.
  - rewrite land_two_flags, !granted_bits by lia. simpl. btauto.
Qed.

Lemma queries_same own own' s s' v : tree own s -> tree own' s' -> 0 <= v ->
  s_NoExecuteAvailable s' = s_NoExecuteAvailable s -> mapping s' v = mapping s v ->
  queries s' v (Translate s v) (IsWritable s v) (IsExecutable s v)
          (IsUserReadable s v) (IsUserWritable s v).
Proof.
  intros Ht Ht' Hv HX HM. pose proof (queries_exact own s v Ht Hv) as Q.
  pose proof (queries_exact own' s' v Ht' Hv) as Q'. rewrite HM, HX in Q'.
  destruct (mapping s v); destruct Q as [-> -> -> -> ->]; exact Q'.
Qed.

(** ** A new, empty set of tables *)

Lemma fresh_root s r s0 :
  fa_inv (frames s) -> AllocateTable s = Ok (r, s0) -> r <> 0 ->
  tree (fun q => if q =? r then Some (3%nat, 0) else None) (with_root s0 r) /\
  forall v, mapping (with_root s0 r) v = None.
Proof.
  intros Hf HA Hr.
  destruct (AllocateTable_ok s Hf) as (r' & s0' & HA' & Hf' & HR & HX & Hcase).
  rewrite HA in HA'. injection HA' as <- <-.
  destruct Hcase as [[-> _]|(Hd & Hfree & Hfr & Hmem)]; [done|].
  assert (Hzero : forall i, 0 <= i < 512 -> ent (memory s0) r i = 0).
  { intros i Hi. rewrite Hmem, ent_memset by done. by rewrite Z.eqb_refl. }
  assert (Hnone : forall v, walk (memory s0) v 3 r = None).
  { intros v. apply walk_empty. intros i Hi. by rewrite Hzero, Z.bits_0. }
  split; [|intros v; unfold mapping; cbn [memory s_Root with_root]; by rewrite Hnone].
  split; cbn [memory frames s_Root with_root].
  - done.
  - by rewrite Z.eqb_refl.
  - intros p n pre. case_test; [|done]. subst. intros _. split; [done|]. rewrite Hfr. tauto.
  - intros p n pre i. case_test; [|done]. subst. intros _ Hi. cbv zeta.
    by rewrite Hzero, Z.bits_0.
  - intros v u leaf Hv. by rewrite Hnone.
Qed.

(** A call of [Map] with a range it is meant for. *)
Inductive map_call : t F -> t F -> Prop :=
| map_call_intro v p size a pr c s ok s' :
    range_ok v p size -> Map v p size a pr c s = Ok (ok, s') -> map_call s s'.

(** No leaf is writable and executable. *)
Definition wx (s : t F) : Prop := forall v leaf, 0 <= v -> mapping s v = Some leaf ->
  Z.testbit leaf 1 = true -> Z.testbit leaf 63 = true.

Lemma map_call_wx s s' :
  map_call s s' -> (exists own, tree own s) -> s_NoExecuteAvailable s = true -> wx s ->
  (exists own, tree own s') /\ s_NoExecuteAvailable s' = true /\ wx s'.
Proof.
  intros [v p size a pr c s1 ok s1' Hr HM] [own Ht] HX Hwx.
  destruct (Map_ok own s1 v p size a pr c Ht Hr) as (ok' & s2 & HM' & [(own' & Ht' & _) HR HX' Hmap _]).
  rewrite HM in HM'. injection HM' as <- <-. split; [eauto|]. split; [congruence|].
  destruct Hmap as (k & Hk & _ & _ & Hmap).
  intros w leaf Hw0 Hl H1. rewrite Hmap in Hl by done. unfold mapped_range in Hl.
  destruct (_ <? _) eqn:Hd; [|by eapply Hwx]. injection Hl as <-.
  assert (Hfr := range_frame v p size w Hr ltac:(lia)).
  rewrite Z.lor_spec, FlagsFor_bits, (frame_bits _ 1 Hfr) in H1 by lia.
  rewrite Z.lor_spec, FlagsFor_bits, HX by lia. simpl in *. destruct a; try done.
  rewrite (bool_decide_true (READ_WRITE <> READ_EXECUTE)) by done. btauto.
Qed.

Lemma Map_wraps s v p size a pr c :
  is_word 64 v -> 2 ^ 64 <= v + size <= 2 ^ 64 + page_base v -> Map v p size a pr c s = Ok (true, s).
Proof.
  unfold is_word. intros Hv He. rewrite page_base_eq in He by lia. unfold Map, Map_fuel.
  assert (Hb : v / 4096 * 4096 <= v) by (pose proof (Z.div_mod v 4096 ltac:(lia)); pose proof (Z.mod_pos_bound v 4096); lia).
  assert (E : v +64 size = v + size - 2 ^ 64).
  { unfold wrap. rewrite <- (Z.mod_small (v + size - 2 ^ 64) (2 ^ 64)) by lia. rewrite <- (Z.mod_add (v + size - 2 ^ 64) 1) by lia. f_equal. lia. }
  rewrite E, (page_base_eq v) by lia. change PAGE_SIZE with 4096.
  assert (Hf : 0 <= size / 4096) by (apply Z.div_pos; lia).
  destruct (Z.to_nat (size / 4096 + 3)) as [|k] eqn:Ek; [lia|]. cbn [Map_loop].
  by rewrite (proj2 (Z.ltb_ge _ _)) by lia.
Qed.

(** ** Properties *)

(** C4: For a range that ends at least a page below the top of the address space, is
    shorter than [2^48 - 8192] bytes and maps to frames below [2^52] ([range_ok]), [Map] returns
    and refines an update of the page function: on success exactly the pages of the range
    map to the consecutive frames with the requested flags and every other page maps to
    what it did; on failure a prefix of the range was mapped, nothing else changed and the
    frame allocator is exhausted.  The tables stay a tree whose frames are all taken.  A
    range whose end wraps around the address space, as that of the last page does, is not
    mapped at all: [Map] answers true and changes nothing. *)
Theorem paging_map_refines own s v p size a pr c :
  tree own s ->
  (range_ok v p size ->
   exists ok s', Map v p size a pr c s = Ok (ok, s') /\
     map_result own s (page_base v) (page_count v size) (page_base p) (FlagsFor s a pr c) ok s') /\
  (is_word 64 v -> 2 ^ 64 <= v + size <= 2 ^ 64 + page_base v -> Map v p size a pr c s = Ok (true, s)).
Proof. intros Ht. split; [by apply Map_ok|apply Map_wraps]. Qed.

(** After a successful [Map] the queries answer the request inside the range: the
    address translates to its frame, it is writable exactly for READ_WRITE, executable
    exactly for READ_EXECUTE (or without NX support), reachable from ring 3 exactly for
    USER; outside the range no answer changes. *)
Theorem paging_map_grants own s v p size a pr c s' w :
  tree own s -> range_ok v p size -> Map v p size a pr c s = Ok (true, s') -> 0 <= w ->
  let d := page_distance (page_base v) w in
  (d < page_count v size ->
     queries s' w (page_base p + d * 4096 + w mod 4096)
             (bool_decide (a = READ_WRITE))
             (negb (s_NoExecuteAvailable s) || bool_decide (a = READ_EXECUTE))
             (bool_decide (pr = USER_))
             (bool_decide (pr = USER_) && bool_decide (a = READ_WRITE))) /\
  (page_count v size <= d ->
     queries s' w (Translate s w) (IsWritable s w) (IsExecutable s w)
             (IsUserReadable s w) (IsUserWritable s w)).
Proof.
  intros Ht Hr HM Hw d.
  destruct (Map_ok own s v p size a pr c Ht Hr) as (ok & s2 & HM' & [(own' & Ht' & _) HR HX Hmap _]).
  rewrite HM in HM'. injection HM' as <- <-. destruct Hmap as (k & Hk & Hok & _ & Hmap).
  specialize (Hok eq_refl). subst k. specialize (Hmap w Hw). unfold mapped_range in Hmap.
  fold d in Hmap. split; intros Hd.
  - replace (d <? page_count v size) with true in Hmap by lia.
    pose proof (queries_exact own' s' w Ht' Hw) as Q. rewrite Hmap, HX in Q.
    assert (Hfr := range_frame v p size w Hr Hd). fold d in Hfr.
    rewrite addr_of_lor in Q; [|done|].
    2:{ intros i Hi. rewrite FlagsFor_bits by lia. by rewrite !(bool_decide_false (i = _)) by lia. }
    rewrite !Z.lor_spec, !(frame_bits _ _ Hfr), !FlagsFor_bits in Q by lia.
    cbn [orb andb] in Q. rewrite !orb_false_r in Q. destruct a, pr, (s_NoExecuteAvailable s); exact Q.
  - replace (d <? page_count v size) with false in Hmap by lia. by eapply queries_same.
Qed.

(** C17: Write xor execute: with NX support, whatever sequence of [Map] calls ran since
    the tables were empty, no address is both writable and executable. *)
Theorem paging_never_writable_and_executable own s0 s v :
  tree own s0 -> (forall w, mapping s0 w = None) -> s_NoExecuteAvailable s0 = true ->
  rtc map_call s0 s -> 0 <= v -> IsWritable s v && IsExecutable s v = false.
Proof.
  intros Ht Hempty HX Hsteps Hv.
  assert (HI : (exists own, tree own s) /\ s_NoExecuteAvailable s = true /\ wx s).
  { assert (Hwx : wx s0) by (intros w leaf _ Hl; by rewrite Hempty in Hl).
    assert (HT : exists own, tree own s0) by eauto. clear Ht Hempty.
    induction Hsteps as [|x y z Hxy _ IH]; [done|].
    destruct (map_call_wx x y Hxy HT HX Hwx) as (? & ? & ?). by apply IH. }
  destruct HI as ([own' Ht'] & HX' & Hwx).
  pose proof (queries_exact own' s v Ht' Hv) as Q. specialize (Hwx v).
  destruct (mapping s v) as [leaf|]; destruct Q as [_ -> -> _ _]; [|done].
  rewrite HX'. destruct (Z.testbit leaf 1) eqn:E; [|done]. by rewrite (Hwx leaf).
Qed.
End Spec.

(** ** Witnesses

    Eight frames, frame 0 in use, the root table in frame 1. *)

#[local] Existing Instance FrameSpec.debug_build.

Definition small_frames : Frame.Frame.t :=
  match Frame.Frame.Allocate 1 FrameSpec.small with Ok (_, f) => f | _ => FrameSpec.small end.

Definition before_root : t Frame.Frame.t :=
  {| memory := fun _ => 0; frames := FrameSpec.small; s_Root := 0; s_NoExecuteAvailable := true;
     s_TableCount := 0; s_MappedRamEnd := 0; KernelPageTableRoot := 0;
     CR0 := 0; CR3 := 0; EFER := 0 |}.

Definition small_tables : t Frame.Frame.t :=
  with_root (with_table before_root
    (CString.memset (fun _ => 0) (TableAt 4096) 0 PAGE_SIZE) small_frames 1) 4096.

Definition small_own (q : Z) : option (nat * Z) := if q =? 4096 then Some (3%nat, 0) else None.

Lemma small_tables_tree : tree small_own small_tables /\ forall v, mapping small_tables v = None.
Proof.
  apply (fresh_root before_root 4096
    (with_table before_root (CString.memset (fun _ => 0) (TableAt 4096) 0 PAGE_SIZE) small_frames 1)).
  - split; [by exists (fun i => i =? 0); apply FrameSpec.small_wf|done|simpl; lia].
  - unfold AllocateTable. replace (fa_Allocate 1 (frames before_root)) with (Ok (4096, small_frames))
      by (vm_compute; reflexivity). reflexivity.
  - lia.
Qed.

Lemma small_range : range_ok 0x400000 0x7000 100.
Proof. split; lia. Qed.

Definition small_mapped : t Frame.Frame.t :=
  match Map 0x400000 0x7000 100 READ_WRITE USER_ NORMAL small_tables with
  | Ok (_, s) => s
  | _ => small_tables
  end.

Lemma small_mapped_ok :
  Map 0x400000 0x7000 100 READ_WRITE USER_ NORMAL small_tables = Ok (true, small_mapped).
Proof.
  assert (Hb : match Map 0x400000 0x7000 100 READ_WRITE USER_ NORMAL small_tables with
               | Ok (b, _) => b | _ => false end = true) by (vm_compute; reflexivity).
  unfold small_mapped. destruct (Map _ _ _ _ _ _ _) as [[b s]| | | |]; try done. by subst.
Qed.

Lemma paging_map_refines_witness :
  (exists ok s', Map 0x400000 0x7000 100 READ_WRITE USER_ NORMAL small_tables = Ok (ok, s') /\
    map_result small_own small_tables (page_base 0x400000) (page_count 0x400000 100)
      (page_base 0x7000) (FlagsFor small_tables READ_WRITE USER_ NORMAL) ok s') /\
  Map (2 ^ 64 - 4096) 0x7000 4096 READ_WRITE KERNEL NORMAL small_tables = Ok (true, small_tables).
Proof.
  split.
  - destruct (paging_map_refines small_own small_tables 0x400000 0x7000 100 READ_WRITE USER_ NORMAL) as [H _];
      [apply small_tables_tree|apply H, small_range].
  - apply (paging_map_refines small_own small_tables (2 ^ 64 - 4096) 0x7000 4096 READ_WRITE KERNEL NORMAL);
      [apply small_tables_tree|split; vm_compute; (discriminate || reflexivity)|split; vm_compute; discriminate].
Defined.

Lemma paging_map_grants_witness :
  Translate small_mapped 0x400010 = 0x7010 /\ IsUserWritable small_mapped 0x400010 = true /\
  IsExecutable small_mapped 0x400010 = false /\ Translate small_mapped 0x401000 = 0.
Proof.
  destruct (paging_map_grants small_own small_tables 0x400000 0x7000 100 READ_WRITE USER_ NORMAL
              small_mapped 0x400010) as [[H1 _ H2 _ H3] _].
  - apply small_tables_tree.
  - apply small_range.
  - apply small_mapped_ok.
  - lia.
  - vm_compute. reflexivity.
  - split; [rewrite H1; vm_compute; reflexivity|]. split; [exact H3|]. split; [exact H2|].
    vm_compute. reflexivity.
Defined.

Lemma paging_never_writable_and_executable_witness :
  IsWritable small_mapped 0x400010 = true /\
  IsWritable small_mapped 0x400010 && IsExecutable small_mapped 0x400010 = false.
Proof.
  split; [vm_compute; reflexivity|].
  apply (paging_never_writable_and_executable small_own small_tables).
  - apply small_tables_tree.
  - apply small_tables_tree.
  - reflexivity.
  - apply rtc_once. eapply map_call_intro; [apply small_range|apply small_mapped_ok].
  - lia.
Defined.
