(* ===== verification/AddressSpace.v ===== *)
(** * The address space the kernel boots into

    [Paging::Initialize] against a layout: a list of spans in the order in which they are
    mapped, the last one winning.  The tables it leaves represent exactly that layout, and
    the layout protects the kernel: code cannot be written, data cannot be executed,
    nothing is open to ring 3. *)

From S2P Require Import Prelude Mem Config Frame FrameSpec FrameInterface Paging PagingSpec.
Import Paging.

(** ** Layouts *)

Record span := { at_ : Z; from : Z; size_ : Z; access : Access; caching : Caching }.

(** The flags of a kernel page. *)
Definition kernel_flags (nx : bool) (x : span) : Z :=
  Z.lor (Z.lor (Z.lor 1 (if bool_decide (access x = READ_WRITE) then 2 else 0))
    (if nx && bool_decide (access x <> READ_EXECUTE) then 2 ^ 63 else 0))
    (if bool_decide (caching x = DISABLED) then 16 else 0).

Definition paint (nx : bool) (f : Z -> option Z) (x : span) : Z -> option Z :=
  mapped_range f (page_base (at_ x)) (page_count (at_ x) (size_ x)) (page_base (from x)) (kernel_flags nx x).
Definition paints (nx : bool) (l : list span) (f : Z -> option Z) : Z -> option Z := foldl (paint nx) f l.

Lemma paints_app nx l l' f : paints nx (l ++ l') f = paints nx l' (paints nx l f).
Proof. unfold paints. by rewrite foldl_app. Qed.

Lemma paints_ext nx l f g w : f w = g w -> paints nx l f w = paints nx l g w.
Proof.
  revert f g. induction l as [|x l IH]; intros f g H; [done|]. apply IH.
  unfold paint, mapped_range. by rewrite H.
Qed.

Definition identity (a b : Z) (acc : Access) (c : Caching) : list span :=
  if b <=? a then [] else [{| at_ := a; from := a; size_ := b - a; access := acc; caching := c |}].
Definition image (a b : Z) (acc : Access) : list span :=
  if b <=? a then []
  else [{| at_ := a; from := a - Config.KERNEL_VMA; size_ := b - a; access := acc; caching := NORMAL |}].
Definition ram (r : Multiboot.MemoryRegion) : list span :=
  if Multiboot.Type_ r =? Multiboot.AVAILABLE
  then [{| at_ := Multiboot.Address r + Config.DIRECT_MAP_BASE; from := Multiboot.Address r;
           size_ := Multiboot.Length r; access := READ_WRITE; caching := NORMAL |}]
  else [].
Definition ram_end (e : Z) (r : Multiboot.MemoryRegion) : Z :=
  if Multiboot.Type_ r =? Multiboot.AVAILABLE then Z.max e (Multiboot.RegionEnd r) else e.

(** A linked image and a machine: RAM, devices and the boot code lie below the kernel's
    stacks, the image's three parts above its base, in order and on page boundaries. *)
Record machine_ok `{BootInfo} (M : machine) : Prop := {
  mo_ram r : r ∈ memory_regions ->
    0 <= Multiboot.Address r /\ 0 <= Multiboot.Length r /\ Multiboot.Address r + Multiboot.Length r <= 2 ^ 46;
  mo_boot : 0 <= BOOT_START /\ BOOT_END M <= 2 ^ 46;
  mo_devices : 0 <= LocalApic_BaseAddress M <= 2 ^ 46 /\ 0 <= IoApic_Address M <= 2 ^ 46;
  mo_image : Config.KERNEL_VMA <= KERNEL_TEXT_START M <= KERNEL_TEXT_END M /\
    KERNEL_TEXT_END M <= KERNEL_RODATA_START M <= KERNEL_RODATA_END M /\
    KERNEL_RODATA_END M <= KERNEL_DATA_START M <= KERNEL_DATA_END M /\ KERNEL_DATA_END M <= 2 ^ 64 - 4096;
  mo_pages : Forall (fun a => a mod 4096 = 0)
    [KERNEL_TEXT_START M; KERNEL_TEXT_END M; KERNEL_RODATA_START M; KERNEL_RODATA_END M;
     KERNEL_DATA_START M; KERNEL_DATA_END M] }.

Definition device_spans (M : machine) : list span :=
  identity (LocalApic_BaseAddress M) (LocalApic_BaseAddress M + 4096) READ_WRITE DISABLED ++
  (if IoApic_Address M =? 0 then []
   else identity (IoApic_Address M) (IoApic_Address M + 4096) READ_WRITE DISABLED).
Definition image_spans `{BootInfo} (M : machine) : list span :=
  identity BOOT_START (BOOT_END M) READ_EXECUTE NORMAL ++
  image (KERNEL_TEXT_START M) (KERNEL_TEXT_END M) READ_EXECUTE ++
  image (KERNEL_RODATA_START M) (KERNEL_RODATA_END M) READ_ONLY ++
  image (KERNEL_DATA_START M) (KERNEL_DATA_END M) READ_WRITE.
Definition layout `{BootInfo} (M : machine) : list span :=
  identity 0 LOW_MEMORY_END READ_WRITE NORMAL ++ device_spans M ++ (memory_regions ≫= ram) ++ image_spans M.

(** ** Each step of the set-up paints its spans *)

Section Steps.
Context {F : Type} `{FL : FrameAllocatorLaws F}.
Implicit Types s : t F.

(** What mapping leaves alone besides the tables. *)
Definition regs (s : t F) := (KernelPageTableRoot s, CR0 s, CR3 s, EFER s).

Lemma AllocateTable_regs s r s' : AllocateTable s = Ok (r, s') ->
  regs s' = regs s /\ s_MappedRamEnd s' = s_MappedRamEnd s.
Proof.
  unfold AllocateTable. rewrite obind_Ok. intros ([fr f] & _ & E). by destruct (fr =? 0); injection E as <- <-.
Qed.

Lemma Descend_loop_regs n v lv fl table s r s' : Descend_loop n v lv fl table s = Ok (r, s') ->
  regs s' = regs s /\ s_MappedRamEnd s' = s_MappedRamEnd s.
Proof.
  revert table s. induction n as [|n IH]; intros table s; cbn [Descend_loop]; [by intros [= _ <-]|].
  destruct (_ =? 0); [|intros E; by apply IH in E].
  rewrite obind_Ok. intros ([created s1] & E1 & E). apply AllocateTable_regs in E1 as [<- <-].
  destruct (created =? 0); [by injection E as _ <-|]. by apply IH in E.
Qed.

Lemma Map_loop_regs fuel page end_ src flags fl s ok s' : Map_loop fuel page end_ src flags fl s = Ok (ok, s') ->
  regs s' = regs s /\ s_MappedRamEnd s' = s_MappedRamEnd s.
Proof.
  revert page src s. induction fuel as [|n IH]; intros page src s; cbn [Map_loop]; [done|].
  destruct (_ <? _); [|by intros [= _ <-]].
  rewrite obind_Ok. intros ([table s1] & E1 & E). apply Descend_loop_regs in E1 as [<- <-].
  destruct (table =? 0); [by injection E as _ <-|]. by apply IH in E.
Qed.

Record painted (l : list span) (e : Z -> Z) (s s' : t F) : Prop := {
  pt_root : s_Root s' = s_Root s;
  pt_nx : s_NoExecuteAvailable s' = s_NoExecuteAvailable s;
  pt_regs : regs s' = regs s;
  pt_ram : s_MappedRamEnd s' = e (s_MappedRamEnd s);
  pt_map w : 0 <= w -> mapping s' w = paints (s_NoExecuteAvailable s) l (mapping s) w;
  pt_free q : fa_free (frames s') q -> fa_free (frames s) q }.

Definition NO_TABLES : string := "Not enough memory for the kernel page tables".

(** The set-up gives up only when no frame is left for a table. *)
Definition ran_dry (s : t F) : Prop :=
  exists s1, exhausted s1 /\ forall q, fa_free (frames s1) q -> fa_free (frames s) q.

Definition step_paints (l : list span) (e : Z -> Z) (f : t F -> outcome (t F)) : Prop :=
  forall own s, tree own s ->
    (f s = Panic NO_TABLES /\ ran_dry s) \/
    exists own' s', f s = Ok s' /\ tree own' s' /\ painted l e s s'.

Lemma step_nothing : step_paints [] id Ok.
Proof. intros own s Ht. right. by exists own, s. Qed.

Lemma step_seq l1 e1 f1 l2 e2 f2 : step_paints l1 e1 f1 -> step_paints l2 e2 f2 ->
  step_paints (l1 ++ l2) (e2 ∘ e1) (fun s => let* s := f1 s in f2 s).
Proof.
  intros H1 H2 own s Ht.
  destruct (H1 own s Ht) as [[-> Hd]|(own1 & s1 & -> & Ht1 & [R1 X1 G1 E1 P1 Fr1])]; [by left|]. cbn [obind].
  destruct (H2 own1 s1 Ht1) as [[-> (s2 & Hx & Hd)]|(own2 & s2 & -> & Ht2 & [R2 X2 G2 E2 P2 Fr2])].
  - left. split; [done|]. exists s2. split; [done|]. intros q Hq. by apply Fr1, Hd.
  - right. exists own2, s2. split_and!; [done|done|]. split; try congruence.
    + simpl. by rewrite E2, E1.
    + intros w Hw. rewrite P2, X1, paints_app by done. by apply paints_ext, P1.
    + intros q Hq. by apply Fr1, Fr2.
Qed.

Lemma FlagsFor_kernel s x : FlagsFor s (access x) KERNEL (caching x) = kernel_flags (s_NoExecuteAvailable s) x.
Proof. unfold FlagsFor, kernel_flags. by destruct (s_NoExecuteAvailable s), (access x), (caching x). Qed.

(** One successful or failing call of [Map]. *)
Lemma Map_paints own s x : tree own s -> range_ok (at_ x) (from x) (size_ x) ->
  exists ok s', Map (at_ x) (from x) (size_ x) (access x) KERNEL (caching x) s = Ok (ok, s') /\
    if ok then exists own', tree own' s' /\ painted [x] id s s' else ran_dry s.
Proof.
  intros Ht Hr. destruct (Map_ok own s _ _ _ (access x) KERNEL (caching x) Ht Hr) as (ok & s' & HM & [HT HR HX Hmap Hf]).
  exists ok, s'. split; [done|]. destruct Hmap as (k & _ & Hok & Hfail & Hmap). destruct ok.
  - destruct HT as (own' & HT & _). exists own'. split; [done|]. rewrite (Hok eq_refl), FlagsFor_kernel in Hmap.
    apply Map_loop_regs in HM as [HG HE]. split; try done.
  - destruct (Hfail eq_refl) as [_ Hx]. by exists s'.
Qed.

Lemma MapIdentity_paints a b acc c : 0 <= a -> b <= 2 ^ 47 ->
  step_paints (identity a b acc c) id (MapIdentity a b acc c).
Proof.
  intros Ha Hb. unfold MapIdentity, identity. destruct (Z.leb_spec b a); [apply step_nothing|].
  intros own s Ht. rewrite wrap_small by (unfold is_word; lia).
  set (x := {| at_ := a; from := a; size_ := b - a; access := acc; caching := c |}).
  destruct (Map_paints own s x Ht) as ([] & s' & HM & Hc); [split; simpl; lia|..]; simpl in HM; rewrite HM; cbn [obind negb].
  - right. destruct Hc as (own' & Ht' & Hp). by exists own', s'.
  - by left.
Qed.

Lemma MapKernelSpan_paints a b acc : Config.KERNEL_VMA <= a -> b <= 2 ^ 64 - 4096 ->
  step_paints (image a b acc) id (MapKernelSpan a b acc).
Proof.
  unfold Config.KERNEL_VMA. intros Ha Hb. unfold MapKernelSpan, image. destruct (Z.leb_spec b a); [apply step_nothing|].
  intros own s Ht. unfold Config.KERNEL_VMA. rewrite !wrap_small by (unfold is_word; lia).
  set (x := {| at_ := a; from := a - 0xFFFFFFFF80000000; size_ := b - a; access := acc; caching := NORMAL |}).
  destruct (Map_paints own s x Ht) as ([] & s' & HM & Hc); [split; simpl; lia|..]; simpl in HM; rewrite HM; cbn [obind negb].
  - right. destruct Hc as (own' & Ht' & Hp). by exists own', s'.
  - by left.
Qed.

Lemma MapDirectMap_paints rs :
  (forall r, r ∈ rs -> 0 <= Multiboot.Address r /\ 0 <= Multiboot.Length r /\
     Multiboot.Address r + Multiboot.Length r <= 2 ^ 46) ->
  step_paints (rs ≫= ram) (fun e => foldl ram_end e rs) (MapDirectMap_loop rs).
Proof.
  induction rs as [|r rs IH]; intros Hrs; [apply step_nothing|].
  assert (Hr := Hrs r ltac:(set_solver)). specialize (IH ltac:(set_solver)).
  change ((r :: rs) ≫= ram) with (ram r ++ (rs ≫= ram)). cbn [MapDirectMap_loop foldl]. unfold ram at 1, ram_end at 2.
  destruct (_ =? _) eqn:E; cbn [negb]; [|exact IH].
  intros own s Ht. unfold ToVirtual.
  rewrite wrap_small by (unfold is_word, Config.DIRECT_MAP_BASE; lia).
  set (x := {| at_ := _; from := _; size_ := _; access := _; caching := _ |}).
  destruct (Map_paints own s x Ht) as ([] & s1 & HM & Hc);
    [split; simpl; unfold Config.DIRECT_MAP_BASE; lia|..]; simpl in HM; rewrite HM; cbn [obind negb]; [|by left].
  destruct Hc as (own1 & Ht1 & [R1 X1 G1 E1 P1 Fr1]). rewrite Math.Max_max.
  set (s2 := with_ram_end s1 _). assert (Ht2 : tree own1 s2) by (destruct Ht1; by split).
  destruct (IH own1 s2 Ht2) as [[-> (s3 & Hx & Hd)]|(own3 & s3 & -> & Ht3 & [R3 X3 G3 E3 P3 Fr3])].
  - left. split; [done|]. exists s3. split; [done|]. intros q Hq. by apply Fr1, Hd.
  - right. exists own3, s3. split_and!; [done|done|]. split.
    + by rewrite R3.
    + by rewrite X3.
    + by rewrite G3.
    + rewrite E3. simpl. by rewrite E1.
    + intros w Hw. rewrite P3 by done. simpl s_NoExecuteAvailable. rewrite X1.
      rewrite paints_app. apply paints_ext. by apply P1.
    + intros q Hq. by apply Fr1, Fr3.
Qed.

End Steps.

(** ** The layout, page by page *)

Lemma kernel_flags_bits nx x k : 0 <= k ->
  Z.testbit (kernel_flags nx x) k =
    (k =? 0) || (k =? 1) && bool_decide (access x = READ_WRITE) ||
    (k =? 63) && (nx && bool_decide (access x <> READ_EXECUTE)) || (k =? 4) && bool_decide (caching x = DISABLED).
Proof.
  intros Hk. unfold kernel_flags. change 1 with (2 ^ 0) at 1. change 2 with (2 ^ 1) at 2. change 16 with (2 ^ 4).
  rewrite !Z.lor_spec, Z.pow2_bits_eqb by lia.
  rewrite (Z.eqb_sym k 0), (Z.eqb_sym k 1), (Z.eqb_sym k 63), (Z.eqb_sym k 4).
  destruct (bool_decide (access x = READ_WRITE)), (nx && bool_decide (access x <> READ_EXECUTE)),
    (bool_decide (caching x = DISABLED)); rewrite ?Z.pow2_bits_eqb, ?Z.bits_0 by lia; btauto.
Qed.

(** No page number of a span wraps around. *)
Definition whole (x : span) : Prop :=
  range_ok (at_ x) (from x) (size_ x) /\ vpn (at_ x) + page_count (at_ x) (size_ x) <= 2 ^ 36.

Definition covers (x : span) (w : Z) : bool :=
  (vpn (at_ x) <=? vpn w) && (vpn w <? vpn (at_ x) + page_count (at_ x) (size_ x)).

(** The frame of the page of [w] in a span. *)
Definition target (x : span) (w : Z) : Z := page_base (from x) + (vpn w - vpn (at_ x)) * 4096.

Lemma vpn_range w : 0 <= vpn w < 2 ^ 36.
Proof. apply Z.mod_pos_bound. lia. Qed.

Lemma paint_exact nx f x w : whole x ->
  paint nx f x w = if covers x w then Some (Z.lor (target x w) (kernel_flags nx x)) else f w.
Proof.
  intros [[[Hv Hve] Hs _] Hn]. unfold paint, mapped_range, covers, target.
  assert (E : vpn (page_base (at_ x)) = vpn (at_ x)).
  { unfold vpn. rewrite page_base_eq, Z.div_mul by lia. done. }
  unfold page_distance. rewrite E. pose proof (vpn_range w). pose proof (vpn_range (at_ x)).
  destruct (Z.leb_spec (vpn (at_ x)) (vpn w)); cbn [andb].
  - rewrite Z.mod_small by lia. replace (_ <? _) with (vpn w <? vpn (at_ x) + page_count (at_ x) (size_ x)) by lia. done.
  - replace ((vpn w - vpn (at_ x)) mod 2 ^ 36) with (vpn w - vpn (at_ x) + 2 ^ 36)
      by (apply Z.mod_unique with (-1); lia).
    by replace (_ <? _) with false by lia.
Qed.

Lemma target_frame x w : whole x -> covers x w = true -> is_frame (target x w).
Proof.
  intros [Hr Hn] Hc. unfold covers in Hc. pose proof (vpn_range w). pose proof (vpn_range (at_ x)).
  assert (E : page_distance (page_base (at_ x)) w = vpn w - vpn (at_ x)).
  { unfold page_distance. rewrite <- (Z.mod_small (vpn w - vpn (at_ x)) (2 ^ 36)) by lia. do 2 f_equal.
    unfold vpn at 1. destruct Hr. rewrite page_base_eq, Z.div_mul by lia. done. }
  unfold target. rewrite <- E. apply (range_frame (at_ x) (from x) (size_ x)); [done|]. rewrite E. lia.
Qed.

(** The last span that covers a page decides. *)
Lemma paints_skip nx l f w : Forall whole l -> Forall (fun x => covers x w = false) l -> paints nx l f w = f w.
Proof.
  revert f. induction l as [|x l IH]; intros f Hl Hc; [done|]. apply Forall_cons in Hl as [Hx Hl].
  apply Forall_cons in Hc as [Cx Cl]. change (paints nx l (paint nx f x) w = f w). rewrite IH by done.
  by rewrite paint_exact, Cx by done.
Qed.

Lemma paints_last nx l x l' f w : Forall whole (l ++ x :: l') -> covers x w = true ->
  Forall (fun y => covers y w = false) l' ->
  paints nx (l ++ x :: l') f w = Some (Z.lor (target x w) (kernel_flags nx x)).
Proof.
  intros Hw Hx Hl'. apply Forall_app in Hw as [_ Hw]. apply Forall_cons in Hw as [Wx Wl].
  rewrite paints_app. change (x :: l') with ([x] ++ l'). rewrite paints_app, paints_skip by done.
  change (paints nx [x] ?g w) with (paint nx g x w). by rewrite paint_exact, Hx.
Qed.

Lemma paints_some nx l w leaf : Forall whole l -> paints nx l (fun _ => None) w = Some leaf ->
  exists x, x ∈ l /\ covers x w = true /\ leaf = Z.lor (target x w) (kernel_flags nx x).
Proof.
  induction l as [|x l IH] using rev_ind; intros Hl E; [done|].
  apply Forall_app in Hl as [Hl Hx]. apply Forall_inv in Hx. rewrite paints_app in E.
  change (paint nx (paints nx l (fun _ => None)) x w = Some leaf) in E. rewrite paint_exact in E by done.
  destruct (covers x w) eqn:C.
  - injection E as <-. exists x. split; [set_solver|done].
  - destruct (IH Hl E) as (y & Hy & ? & ?). exists y. split; [set_solver|done].
Qed.

(** Page numbers in the two halves of the address space. *)
Lemma vpn_low a : 0 <= a < 2 ^ 48 -> vpn a = a / 4096.
Proof.
  intros Ha. unfold vpn. apply Z.mod_small. split; [apply Z.div_pos; lia|apply Z.div_lt_upper_bound; lia].
Qed.
Lemma vpn_high a : 2 ^ 64 - 2 ^ 47 <= a < 2 ^ 64 -> vpn a = a / 4096 - (2 ^ 52 - 2 ^ 36).
Proof.
  intros Ha. unfold vpn. pose proof (Z.div_mod a 4096 ltac:(lia)). pose proof (Z.mod_pos_bound a 4096 ltac:(lia)).
  symmetry. apply Z.mod_unique with (2 ^ 16 - 1); lia.
Qed.
Lemma page_count_bound v size : 0 <= v -> 0 <= size -> v / 4096 + page_count v size = (v + size + 4095) / 4096.
Proof.
  intros Hv Hs. unfold page_count. pose proof (Z.div_mod v 4096 ltac:(lia)).
  replace (v + size + 4095) with (v mod 4096 + size + 4095 + v / 4096 * 4096) by lia.
  rewrite Z.div_add by lia. lia.
Qed.

(** Spans below the stacks, and spans of the kernel image. *)
Lemma covers_low x w : 0 <= at_ x -> 0 <= size_ x -> at_ x + size_ x <= 2 ^ 47 ->
  covers x w = (at_ x / 4096 <=? vpn w) && (vpn w <? (at_ x + size_ x + 4095) / 4096).
Proof. intros. unfold covers. by rewrite vpn_low, page_count_bound by lia. Qed.
Lemma covers_high x w : 2 ^ 64 - 2 ^ 47 <= at_ x -> 0 <= size_ x -> at_ x + size_ x <= 2 ^ 64 - 4096 ->
  covers x w = (at_ x / 4096 <=? vpn w + (2 ^ 52 - 2 ^ 36)) &&
               (vpn w + (2 ^ 52 - 2 ^ 36) <? (at_ x + size_ x + 4095) / 4096).
Proof.
  intros. unfold covers. rewrite vpn_high by lia.
  rewrite <- (page_count_bound (at_ x) (size_ x)) by lia.
  f_equal; [destruct (Z.leb_spec (at_ x / 4096 - (2 ^ 52 - 2 ^ 36)) (vpn w)), (Z.leb_spec (at_ x / 4096) (vpn w + (2 ^ 52 - 2 ^ 36)))
           |destruct (Z.ltb_spec (vpn w) (at_ x / 4096 - (2 ^ 52 - 2 ^ 36) + page_count (at_ x) (size_ x))),
              (Z.ltb_spec (vpn w + (2 ^ 52 - 2 ^ 36)) (at_ x / 4096 + page_count (at_ x) (size_ x)))]; done || lia.
Qed.

Lemma paints_hit nx l f w x : Forall whole l -> x ∈ l -> covers x w = true ->
  exists y, y ∈ l /\ covers y w = true /\ paints nx l f w = Some (Z.lor (target y w) (kernel_flags nx y)).
Proof.
  induction l as [|y l IH] using rev_ind; intros Hl Hx Cx; [set_solver|].
  apply Forall_app in Hl as [Hl Hy]. apply Forall_inv in Hy. rewrite paints_app.
  change (paints nx [y] ?g w) with (paint nx g y w). rewrite paint_exact by done.
  destruct (covers y w) eqn:Cy; [exists y; split; [set_solver|done]|].
  apply elem_of_app in Hx as [Hx|Hx%list_elem_of_singleton]; [|congruence].
  destruct (IH Hl Hx Cx) as (z & Hz & ? & ?). exists z. split; [set_solver|done].
Qed.

(** ** Which spans there are *)

Section Layout.
Context `{BI : BootInfo} (M : machine) (HM : machine_ok M).

Definition ram_span (r : Multiboot.MemoryRegion) : span :=
  {| at_ := Multiboot.Address r + Config.DIRECT_MAP_BASE; from := Multiboot.Address r;
     size_ := Multiboot.Length r; access := READ_WRITE; caching := NORMAL |}.
Definition image_span (a b : Z) (acc : Access) : span :=
  {| at_ := a; from := a - Config.KERNEL_VMA; size_ := b - a; access := acc; caching := NORMAL |}.

(** One of the three parts of the image, with its access. *)
Inductive part : Z -> Z -> Access -> Prop :=
| part_text : part (KERNEL_TEXT_START M) (KERNEL_TEXT_END M) READ_EXECUTE
| part_rodata : part (KERNEL_RODATA_START M) (KERNEL_RODATA_END M) READ_ONLY
| part_data : part (KERNEL_DATA_START M) (KERNEL_DATA_END M) READ_WRITE.

Lemma part_ok a b acc : part a b acc ->
  Config.KERNEL_VMA <= a /\ b <= 2 ^ 64 - 4096 /\ a mod 4096 = 0 /\ b mod 4096 = 0.
Proof.
  destruct HM as [_ _ _ Hi Hp]. rewrite !Forall_cons in Hp. destruct Hp as (? & ? & ? & ? & ? & ? & _).
  intros []; lia.
Qed.

Lemma parts_apart a b acc a' b' acc' w : part a b acc -> part a' b' acc' ->
  a <= w < b -> a' <= w < b' -> a = a' /\ b = b' /\ acc = acc'.
Proof. destruct HM as [_ _ _ Hi _]. intros [] [] H H'; split_and!; done || lia. Qed.

Inductive layout_span : span -> Prop :=
| span_low x : 0 <= at_ x -> 0 <= size_ x -> at_ x + size_ x <= 2 ^ 46 + 4096 -> at_ x = from x -> layout_span x
| span_ram r : r ∈ memory_regions -> Multiboot.Type_ r = Multiboot.AVAILABLE -> layout_span (ram_span r)
| span_image a b acc : part a b acc -> a < b -> layout_span (image_span a b acc).

Lemma identity_spans a b acc c x : 0 <= a -> b <= 2 ^ 46 + 4096 -> x ∈ identity a b acc c -> layout_span x.
Proof.
  intros Ha Hb. unfold identity. destruct (Z.leb_spec b a); [set_solver|].
  intros ->%list_elem_of_singleton. apply span_low; simpl; lia.
Qed.
Lemma image_part_spans a b acc x : part a b acc -> x ∈ image a b acc -> layout_span x.
Proof.
  intros Hp. unfold image. destruct (Z.leb_spec b a); [set_solver|].
  intros ->%list_elem_of_singleton. by apply span_image.
Qed.

Lemma layout_spans x : x ∈ layout M -> layout_span x.
Proof.
  destruct HM as [_ [Hb0 Hb1] [Hd1 Hd2] _ _]. unfold layout, device_spans, image_spans. rewrite !elem_of_app.
  intros [H|[[H|H]|[H|[H|[H|[H|H]]]]]].
  - eapply identity_spans; [| |exact H]; unfold LOW_MEMORY_END, MIB, KIB; lia.
  - eapply identity_spans; [| |exact H]; lia.
  - destruct (_ =? 0); [set_solver|]. eapply identity_spans; [| |exact H]; lia.
  - apply list_elem_of_bind in H as (r & Hx & Hr). unfold ram in Hx.
    destruct (Z.eqb_spec (Multiboot.Type_ r) Multiboot.AVAILABLE); [|set_solver].
    apply list_elem_of_singleton in Hx as ->. by apply span_ram.
  - eapply identity_spans; [| |exact H]; lia.
  - eapply image_part_spans; [|exact H]. constructor.
  - eapply image_part_spans; [|exact H]. constructor.
  - eapply image_part_spans; [|exact H]. constructor.
Qed.

Lemma layout_span_whole x : layout_span x -> whole x.
Proof.
  intros [y Ha Hs He Hf|r Hr _|a b acc Hp Hab].
  - split; [split; lia|]. rewrite vpn_low, page_count_bound by lia.
    apply Z.lt_le_incl, Z.div_lt_upper_bound; lia.
  - destruct (mo_ram M HM r Hr) as (? & ? & ?). unfold whole, ram_span, Config.DIRECT_MAP_BASE. cbn [at_ from size_].
    split; [split; lia|]. rewrite vpn_high by lia.
    pose proof (page_count_bound (Multiboot.Address r + 0xFFFF800000000000) (Multiboot.Length r) ltac:(lia) ltac:(lia)).
    assert ((Multiboot.Address r + 0xFFFF800000000000 + Multiboot.Length r + 4095) / 4096 < 2 ^ 52)
      by (apply Z.div_lt_upper_bound; lia). lia.
  - destruct (part_ok a b acc Hp) as (Ha & Hb & _). unfold Config.KERNEL_VMA in Ha.
    unfold whole, image_span, Config.KERNEL_VMA. cbn [at_ from size_].
    split; [split; lia|]. rewrite vpn_high by lia.
    pose proof (page_count_bound a (b - a) ltac:(lia) ltac:(lia)).
    assert ((a + (b - a) + 4095) / 4096 < 2 ^ 52) by (apply Z.div_lt_upper_bound; lia). lia.
Qed.

Lemma layout_whole : Forall whole (layout M).
Proof. apply Forall_forall. intros x Hx. by apply layout_span_whole, layout_spans. Qed.

(** Which spans cover a page of the upper half. *)
Lemma high_cover x w : layout_span x -> covers x w = true -> 2 ^ 64 - 2 ^ 47 <= w < 2 ^ 64 ->
  (exists r, r ∈ memory_regions /\ x = ram_span r /\ w < Config.KERNEL_STACK_BASE) \/
  (exists a b acc, part a b acc /\ x = image_span a b acc /\ a <= w < b).
Proof.
  intros Hx Hc Hw. pose proof (vpn_high w Hw) as Ew. pose proof (Z.div_mod w 4096 ltac:(lia)).
  pose proof (Z.mod_pos_bound w 4096 ltac:(lia)). destruct Hx as [x Ha Hs He _|r Hr _|a b acc Hp Hab].
  - rewrite covers_low in Hc by lia. exfalso. apply andb_prop in Hc as [_ Hc%Z.ltb_lt].
    assert ((at_ x + size_ x + 4095) / 4096 <= 2 ^ 35) by (apply Z.lt_le_incl, Z.div_lt_upper_bound; lia). lia.
  - left. exists r. split_and!; [done..|]. destruct (mo_ram M HM r Hr) as (? & ? & ?).
    rewrite covers_high in Hc by (simpl; unfold Config.DIRECT_MAP_BASE; lia).
    apply andb_prop in Hc as [_ Hc%Z.ltb_lt]. cbn [at_ size_ ram_span] in Hc. unfold Config.DIRECT_MAP_BASE in Hc.
    set (e := Multiboot.Address r + _ + _ + 4095) in Hc.
    assert (He : e / 4096 < 0xFFFFC00000001) by (apply Z.div_lt_upper_bound; subst e; lia).
    unfold Config.KERNEL_STACK_BASE. lia.
  - right. exists a, b, acc. split_and!; [done..| |]; destruct (part_ok a b acc Hp) as (Ha & Hb & Ma & Mb);
      unfold Config.KERNEL_VMA in Ha; rewrite covers_high in Hc by (simpl; lia);
      apply andb_prop in Hc as [Hc1%Z.leb_le Hc2%Z.ltb_lt]; cbn [at_ size_ image_span] in *;
      pose proof (Z.div_mod a 4096 ltac:(lia)); pose proof (Z.div_mod b 4096 ltac:(lia)); [lia|].
    replace (a + (b - a) + 4095) with (4095 + b / 4096 * 4096) in Hc2 by lia. rewrite Z.div_add in Hc2 by lia.
    change (4095 / 4096) with 0 in Hc2. lia.
Qed.

Lemma ram_covers r w : r ∈ memory_regions ->
  Config.DIRECT_MAP_BASE + Multiboot.Address r <= w < Config.DIRECT_MAP_BASE + Multiboot.Address r + Multiboot.Length r ->
  covers (ram_span r) w = true.
Proof.
  intros Hr Hw. destruct (mo_ram M HM r Hr) as (? & ? & ?). unfold Config.DIRECT_MAP_BASE in *.
  rewrite covers_high by (simpl; unfold Config.DIRECT_MAP_BASE; lia). cbn [at_ size_ ram_span].
  rewrite vpn_high by lia. unfold Config.DIRECT_MAP_BASE. apply andb_true_intro. split.
  - apply Z.leb_le. pose proof (Z.div_le_mono (Multiboot.Address r + 0xFFFF800000000000) w 4096). lia.
  - apply Z.ltb_lt. pose proof (Z.div_le_mono (w + 4096) (Multiboot.Address r + 0xFFFF800000000000 + Multiboot.Length r + 4095) 4096).
    replace (w + 4096) with (w + 1 * 4096) in * by lia. rewrite Z.div_add in * by lia. lia.
Qed.

Lemma image_covers a b acc w : part a b acc -> a <= w < b -> covers (image_span a b acc) w = true.
Proof.
  intros Hp Hw. destruct (part_ok a b acc Hp) as (Ha & Hb & Ma & Mb). unfold Config.KERNEL_VMA in Ha.
  rewrite covers_high by (simpl; lia). cbn [at_ size_ image_span]. rewrite vpn_high by lia.
  apply andb_true_intro. split; [apply Z.leb_le|apply Z.ltb_lt].
  - pose proof (Z.div_le_mono a w 4096). lia.
  - pose proof (Z.div_mod b 4096 ltac:(lia)). pose proof (Z.div_mod w 4096 ltac:(lia)).
    pose proof (Z.mod_pos_bound w 4096 ltac:(lia)).
    replace (a + (b - a) + 4095) with (4095 + b / 4096 * 4096) by lia. rewrite Z.div_add by lia.
    change (4095 / 4096) with 0. lia.
Qed.

(** Both kinds of span in the upper half map an address by a constant distance. *)
Lemma target_ram r w : r ∈ memory_regions -> 2 ^ 64 - 2 ^ 47 <= w < 2 ^ 64 ->
  target (ram_span r) w + w mod 4096 = w - Config.DIRECT_MAP_BASE.
Proof.
  intros Hr Hw. destruct (mo_ram M HM r Hr) as (? & ? & ?). unfold target, ram_span, Config.DIRECT_MAP_BASE.
  cbn [at_ from]. rewrite page_base_eq, !vpn_high by lia.
  replace (Multiboot.Address r + 0xFFFF800000000000) with (Multiboot.Address r + 0xFFFF800000000 * 4096) by lia.
  rewrite Z.div_add by lia. pose proof (Z.div_mod w 4096 ltac:(lia)). lia.
Qed.
Lemma target_image a b acc w : part a b acc -> a <= w < b ->
  target (image_span a b acc) w + w mod 4096 = w - Config.KERNEL_VMA.
Proof.
  intros Hp Hw. destruct (part_ok a b acc Hp) as (Ha & Hb & Ma & Mb). unfold target, image_span, Config.KERNEL_VMA in *.
  cbn [at_ from]. rewrite page_base_eq, !vpn_high by lia.
  replace (a - 0xFFFFFFFF80000000) with (a + - 0xFFFFFFFF80000 * 4096) by lia. rewrite Z.div_add by lia.
  pose proof (Z.div_mod a 4096 ltac:(lia)). pose proof (Z.div_mod w 4096 ltac:(lia)). lia.
Qed.
End Layout.

(** ** [Initialize] *)

Section Boot.
Context {F : Type} `{FL : FrameAllocatorLaws F} `{BI : BootInfo} {B : Build} (M : machine).
Implicit Types s : t F.

Lemma MapDeviceRegisters_paints : machine_ok M -> step_paints (device_spans M) id (MapDeviceRegisters (F := F) M).
Proof.
  intros [_ _ [Hd1 Hd2] _ _]. unfold MapDeviceRegisters, device_spans. change PAGE_SIZE with 4096.
  rewrite !wrap_small by (unfold is_word; lia).
  apply (step_seq _ id _ _ id); [apply MapIdentity_paints; lia|].
  destruct (_ =? 0); cbn [negb]; [apply step_nothing|apply MapIdentity_paints; lia].
Qed.

Lemma MapKernelImage_paints : machine_ok M -> step_paints (image_spans M) id (MapKernelImage (F := F) M).
Proof.
  intros HM. pose proof (part_ok M HM) as Hp. destruct HM as [_ [Hb0 Hb1] _ Hi _]. unfold MapKernelImage, image_spans.
  apply (step_seq _ id _ _ id); [apply MapIdentity_paints; lia|].
  apply (step_seq _ id _ _ id); [apply MapKernelSpan_paints; eapply Hp; constructor|].
  apply (step_seq _ id _ _ id); apply MapKernelSpan_paints; eapply Hp; constructor.
Qed.

(** Everything between the allocation of the root and its activation. *)
Definition setup (s : t F) : outcome (t F) :=
  let* s := MapIdentity 0 LOW_MEMORY_END READ_WRITE NORMAL s in
  let* s := MapDeviceRegisters M s in
  let* s := MapDirectMap s in
  MapKernelImage M s.

Lemma setup_then s (k : t F -> outcome (t F)) :
  (let* s := MapIdentity 0 LOW_MEMORY_END READ_WRITE NORMAL s in
   let* s := MapDeviceRegisters M s in
   let* s := MapDirectMap s in
   let* s := MapKernelImage M s in k s) = obind (setup s) k.
Proof.
  unfold setup. destruct (MapIdentity _ _ _ _ s) as [s1| | | |]; [|done..]. cbn [obind].
  destruct (MapDeviceRegisters M s1) as [s2| | | |]; [|done..]. cbn [obind].
  by destruct (MapDirectMap s2).
Qed.

Lemma setup_paints : machine_ok M ->
  step_paints (layout M) (fun e => foldl ram_end e memory_regions) setup.
Proof.
  intros HM. unfold layout, setup.
  apply (step_seq _ id _ _ (fun e => foldl ram_end e memory_regions));
    [apply MapIdentity_paints; unfold LOW_MEMORY_END, MIB, KIB; lia|].
  apply (step_seq _ id _ _ (fun e => foldl ram_end e memory_regions)); [by apply MapDeviceRegisters_paints|].
  apply (step_seq _ (fun e => foldl ram_end e memory_regions) _ _ id); [|by apply MapKernelImage_paints].
  apply MapDirectMap_paints. apply HM.
Qed.

(** How [Initialize] can stop: no frame for a table, or (in a debug build) a root the
    trampoline's 32-bit load could not reach. *)
Definition refused (s : t F) (o : outcome (t F)) : Prop :=
  (ran_dry s /\ (o = Panic NO_TABLES \/ o = Panic "No memory for the kernel page tables")) \/
  (NDEBUG = false /\ o = AssertFailed "s_Root < 4 * GIB").

Record live (s0 s : t F) : Prop := {
  lv_tree : exists own, tree own s;
  lv_nx : s_NoExecuteAvailable s = HasNX M;
  lv_map w : 0 <= w -> mapping s w = paints (HasNX M) (layout M) (fun _ => None) w;
  lv_root : CR3 s = s_Root s /\ KernelPageTableRoot s = s_Root s;
  lv_protect : CR0 s = Z.lor (CR0 s0) CR0_WP /\
    EFER s = if HasNX M then Z.lor (EFER s0) EFER_NXE else EFER s0;
  lv_ram : s_MappedRamEnd s = foldl ram_end (s_MappedRamEnd s0) memory_regions;
  lv_low : NDEBUG = false -> s_Root s < 2 ^ 32;
  lv_free q : fa_free (frames s) q -> fa_free (frames s0) q }.

Lemma limit_tree own (s : t F) : tree own s -> 0 <= s_MappedRamEnd s ->
  tree own (with_table s (memory s) (fa_SetReachableLimit (s_MappedRamEnd s) (frames s)) (s_TableCount s)).
Proof.
  intros [H1 H2 H3 H4 H5] He. destruct (fa_SetReachableLimit_law (frames s) (s_MappedRamEnd s) H1 He) as [Hi Hf].
  split; simpl; try done. intros q n pre Hq. destruct (H3 q n pre Hq) as [Hd Hn]. split; [done|]. by rewrite Hf.
Qed.

Lemma ram_end_nonneg e rs : 0 <= e -> 0 <= foldl ram_end e rs.
Proof.
  revert e. induction rs as [|r rs IH]; intros e He; [done|]. simpl. apply IH. unfold ram_end. case_match; lia.
Qed.

(** What the permission queries answer for a page of a layout. *)
Lemma live_queries s0 s w y : live s0 s -> 0 <= w -> whole y -> covers y w = true ->
  mapping s w = Some (Z.lor (target y w) (kernel_flags (HasNX M) y)) ->
  queries s w (target y w + w mod 4096) (bool_decide (access y = READ_WRITE))
    (negb (HasNX M) || bool_decide (access y = READ_EXECUTE)) false false.
Proof.
  intros [[own Ht] Hx _ _ _ _ _ _] Hw Wy Cy E. pose proof (queries_exact own s w Ht Hw) as Q. rewrite E, Hx in Q.
  pose proof (target_frame y w Wy Cy) as Hf. rewrite addr_of_lor in Q; [|done|].
  2: { intros k Hk. rewrite kernel_flags_bits by lia.
       rewrite !(proj2 (Z.eqb_neq k _)) by lia. done. }
  rewrite !Z.lor_spec, !(frame_bits _ _ Hf), !kernel_flags_bits in Q by lia. cbn [Z.eqb Pos.eqb orb andb] in Q.
  destruct (HasNX M), (access y); exact Q.
Qed.

Lemma Initialize_live s : machine_ok M -> fa_inv (frames s) -> 0 <= s_MappedRamEnd s ->
  refused s (Initialize M s) \/ exists s', Initialize M s = Ok s' /\ live s s'.
Proof.
  intros HM Hf He. unfold Initialize. set (s1 := {| memory := memory s; s_NoExecuteAvailable := HasNX M |}).
  set (s2 := if s_NoExecuteAvailable s1 then EnableNoExecute s1 else s1).
  assert (H2 : frames s2 = frames s /\ s_NoExecuteAvailable s2 = HasNX M /\ s_MappedRamEnd s2 = s_MappedRamEnd s /\
    CR0 s2 = CR0 s /\ EFER s2 = (if HasNX M then Z.lor (EFER s) EFER_NXE else EFER s)).
  { subst s2. simpl. by destruct (HasNX M). }
  clearbody s2. clear s1. destruct H2 as (Hf2 & Hx2 & Hr2 & HC2 & HE2).
  destruct (AllocateTable_ok s2) as (r & s3 & HA & Hf3 & HR3 & HX3 & Hcase); [by rewrite Hf2|].
  pose proof (AllocateTable_regs s2 r s3 HA) as [HG3 Hr3]. rewrite HA. cbn [obind s_Root with_root].
  destruct (Z.eqb_spec r 0) as [->|Hr0].
  { left. left. split; [|by right]. destruct Hcase as [(_ & Hex & _ & Hfr)|[[]]]; [|lia].
    exists s3. split; [done|]. by rewrite Hfr, Hf2. }
  destruct (fresh_root s2 r s3) as [Ht Hnone]; [by rewrite Hf2|done|done|].
  assert (Hsub : forall q, fa_free (frames s3) q -> fa_free (frames s) q).
  { destruct Hcase as [[? _]|(_ & _ & Hfr & _)]; [lia|]. intros q Hq. rewrite <- Hf2. by apply Hfr. }
  set (s4 := with_root s3 r) in *.
  rewrite setup_then.
  destruct (setup_paints HM _ s4 Ht) as [[-> (s5 & Hex & Hd)]|(own5 & s5 & -> & Ht5 & [R5 X5 G5 E5 P5 F5])]; cbn [obind].
  { left. left. split; [|by left]. exists s5. split; [done|]. intros q Hq. by apply Hsub, Hd. }
  unfold ASSERT. change (4 * GIB) with (2 ^ 32).
  assert (Hx5 : s_NoExecuteAvailable s5 = HasNX M) by (rewrite X5; simpl; by rewrite HX3).
  assert (Hr5 : s_MappedRamEnd s5 = foldl ram_end (s_MappedRamEnd s) memory_regions).
  { rewrite E5. simpl. by rewrite Hr3, Hr2. }
  unfold regs in *. injection G5 as _ GC0 GC3 GE. injection HG3 as _ GC0' GC3' GE'. simpl in GC0, GC3, GE.
  assert (HL : (NDEBUG = false -> s_Root s5 < 2 ^ 32) -> live s (with_table (Activate
    {| memory := memory s5; frames := frames s5; s_Root := s_Root s5;
       s_NoExecuteAvailable := s_NoExecuteAvailable s5; s_TableCount := s_TableCount s5;
       s_MappedRamEnd := s_MappedRamEnd s5; KernelPageTableRoot := s_Root s5;
       CR0 := CR0 s5; CR3 := CR3 s5; EFER := EFER s5 |}) (memory s5)
    (fa_SetReachableLimit (s_MappedRamEnd s5) (frames s5)) (s_TableCount s5))).
  { intros Hlow. split; simpl; try done.
    - exists own5. destruct (limit_tree own5 s5 Ht5) as [T1 T2 T3 T4 T5]; [rewrite Hr5; by apply ram_end_nonneg|].
      by split.
    - intros w Hw. change (mapping s5 w = paints (HasNX M) (layout M) (fun _ => None) w). rewrite P5 by done.
      change (s_NoExecuteAvailable s4) with (s_NoExecuteAvailable s3). rewrite HX3, Hx2. apply paints_ext, Hnone.
    - by rewrite GC0, GC0', HC2, GE, GE', HE2.
    - intros q Hq. apply Hsub, F5. apply (fa_SetReachableLimit_law (frames s5) (s_MappedRamEnd s5)); [apply Ht5| |done].
      rewrite Hr5. by apply ram_end_nonneg. }
  destruct NDEBUG eqn:EN; cbn [obind]; [right; eexists; split; [done|]; by apply HL|].
  destruct (Z.ltb_spec (s_Root s5) (2 ^ 32)); cbn [obind]; [right; eexists; split; [done|]; by apply HL|].
  left. right. done.
Qed.

(** What a live address space grants. *)
Section Live.
Context (HM : machine_ok M) (s0 s : t F) (HL : live s0 s).

Lemma live_hit w x : 0 <= w -> x ∈ layout M -> covers x w = true -> exists y, layout_span M y /\ covers y w = true /\
  queries s w (target y w + w mod 4096) (bool_decide (access y = READ_WRITE))
    (negb (HasNX M) || bool_decide (access y = READ_EXECUTE)) false false.
Proof.
  intros Hw Hx Cx. pose proof (layout_whole M HM) as HW.
  destruct (paints_hit (HasNX M) (layout M) (fun _ => None) w x HW Hx Cx) as (y & Hy & Cy & Ey).
  exists y. split_and!; [by apply layout_spans|done|]. apply (live_queries s0); try done; [by eapply Forall_forall|].
  rewrite (lv_map _ _ HL w Hw). done.
Qed.

Lemma live_image a b acc w : part M a b acc -> a <= w < b ->
  queries s w (w - Config.KERNEL_VMA) (bool_decide (acc = READ_WRITE))
    (negb (HasNX M) || bool_decide (acc = READ_EXECUTE)) false false.
Proof.
  intros Hp Hw. destruct (part_ok M HM a b acc Hp) as (Ha & Hb & _). unfold Config.KERNEL_VMA in Ha.
  destruct (live_hit w (image_span a b acc)) as (y & Hy & Cy & Q); [lia| |by eapply image_covers|].
  { unfold layout, image_spans. rewrite !elem_of_app. unfold image. do 3 right.
    destruct Hp; [right; left|do 2 right; left|do 3 right]; rewrite (proj2 (Z.leb_gt _ _)) by lia; set_solver. }
  destruct (high_cover M HM y w Hy Cy) as [(r & _ & _ & Hlt)|(a' & b' & acc' & Hp' & -> & Hw')];
    [lia|unfold Config.KERNEL_STACK_BASE in Hlt; lia|].
  destruct (parts_apart M HM _ _ _ _ _ _ w Hp Hp' Hw Hw') as (-> & -> & ->).
  by erewrite <- target_image.
Qed.

Lemma live_ram r w : r ∈ memory_regions -> Multiboot.Type_ r = Multiboot.AVAILABLE ->
  Config.DIRECT_MAP_BASE + Multiboot.Address r <= w < Config.DIRECT_MAP_BASE + Multiboot.Address r + Multiboot.Length r ->
  queries s w (w - Config.DIRECT_MAP_BASE) true (negb (HasNX M)) false false.
Proof.
  intros Hr Ha Hw. destruct (mo_ram M HM r Hr) as (? & ? & ?).
  assert (Hw' : 2 ^ 64 - 2 ^ 47 <= w < 2 ^ 64 - 2 ^ 46) by (unfold Config.DIRECT_MAP_BASE in Hw; lia).
  destruct (live_hit w (ram_span r)) as (y & Hy & Cy & Q); [lia| |by eapply ram_covers|].
  { unfold layout. rewrite !elem_of_app. right. right. left. apply list_elem_of_bind. exists r. split; [|done].
    unfold ram. rewrite Ha, Z.eqb_refl. by apply list_elem_of_singleton. }
  destruct (high_cover M HM y w Hy Cy) as [(r' & Hr' & -> & _)|(a' & b' & acc' & Hp' & _ & Hin)];
    [lia| |destruct (part_ok M HM _ _ _ Hp'); unfold Config.KERNEL_VMA in *; lia].
  rewrite <- (target_ram M HM r' w) by (done || lia). cbn [ram_span access] in Q. by destruct (HasNX M).
Qed.

Lemma live_gap w : Config.KERNEL_STACK_BASE <= w < Config.KERNEL_VMA -> queries s w 0 false false false false.
Proof.
  intros Hw. unfold Config.KERNEL_STACK_BASE, Config.KERNEL_VMA in Hw. destruct (lv_tree _ _ HL) as [own Ht].
  pose proof (queries_exact own s w Ht ltac:(lia)) as Q. rewrite (lv_map _ _ HL w ltac:(lia)) in Q.
  destruct (paints _ _ _ w) as [leaf|] eqn:El; [|exact Q]. exfalso.
  destruct (paints_some _ _ _ _ (layout_whole M HM) El) as (y & Hy & Cy & _).
  destruct (high_cover M HM y w (layout_spans M HM y Hy) Cy) as [(r & _ & _ & Hlt)|(a' & b' & acc' & Hp' & _ & Hin)];
    [lia|unfold Config.KERNEL_STACK_BASE in Hlt; lia|].
  destruct (part_ok M HM _ _ _ Hp'). unfold Config.KERNEL_VMA in *. lia.
Qed.

Lemma live_closed w : 0 <= w ->
  IsUserReadable s w = false /\ (HasNX M = true -> IsWritable s w && IsExecutable s w = false).
Proof.
  intros Hw. destruct (lv_tree _ _ HL) as [own Ht].
  pose proof (queries_exact own s w Ht Hw) as Q. rewrite (lv_map _ _ HL w Hw) in Q.
  destruct (paints _ _ _ w) as [leaf|] eqn:El; [|by destruct Q as [_ -> _ -> _]]. clear Q.
  destruct (paints_some _ _ _ _ (layout_whole M HM) El) as (y & Hy & Cy & _).
  destruct (live_hit w y Hw Hy Cy) as (z & _ & _ & [_ -> -> -> _]). split; [done|]. intros ->. by destruct (access z).
Qed.
End Live.

(** C5: The kernel boots into exactly the address space it was linked for.  With a sane
    machine and a consistent frame allocator [Initialize] always returns or stops, and it
    stops only when frames for the tables run out or, in a debug build, when the root
    lies above 4 GiB.  Otherwise the tables represent the layout: a page maps to what the
    last span over it asks for and every other page is unmapped; they are active, with
    write protection also for ring 0 and no-execute switched on where it exists.  In
    particular the three parts of the image map to their load addresses with code
    executable and not writable, constants neither, data writable only; every byte of
    available RAM is in the direct map, writable and not executable; the stacks' region
    is empty; and no address is open to ring 3 or both writable and executable. *)
Theorem address_space_exact s : machine_ok M -> fa_inv (frames s) -> 0 <= s_MappedRamEnd s ->
  refused s (Initialize M s) \/
  exists s', Initialize M s = Ok s' /\ live s s' /\
    (forall a b acc w, part M a b acc -> a <= w < b ->
       queries s' w (w - Config.KERNEL_VMA) (bool_decide (acc = READ_WRITE))
         (negb (HasNX M) || bool_decide (acc = READ_EXECUTE)) false false) /\
    (forall r w, r ∈ memory_regions -> Multiboot.Type_ r = Multiboot.AVAILABLE ->
       Config.DIRECT_MAP_BASE + Multiboot.Address r <= w <
         Config.DIRECT_MAP_BASE + Multiboot.Address r + Multiboot.Length r ->
       queries s' w (w - Config.DIRECT_MAP_BASE) true (negb (HasNX M)) false false) /\
    (forall w, Config.KERNEL_STACK_BASE <= w < Config.KERNEL_VMA -> queries s' w 0 false false false false) /\
    (forall w, 0 <= w -> IsUserReadable s' w = false /\
       (HasNX M = true -> IsWritable s' w && IsExecutable s' w = false)).
Proof.
  intros HM Hf He. destruct (Initialize_live s HM Hf He) as [Hstop|(s' & E & HL)]; [by left|right].
  exists s'. split_and!; [done|done|..]; eauto using live_image, live_ram, live_gap, live_closed.
Qed.
End Boot.

(** ** A machine

    64 frames, the first one in use; a page each of boot code, code, constants and data
    from 16 MiB on, and the usual addresses of the interrupt controllers. *)

#[local] Existing Instance FrameSpec.debug_build.

Definition demo_frames : Frame.Frame.t :=
  {| Frame.Frame.s_Taken := [1]; Frame.Frame.s_WordCount := 1; Frame.Frame.s_FrameCount := 64;
     Frame.Frame.s_ReachableFrames := 64; Frame.Frame.s_TotalFrames := 63; Frame.Frame.s_FreeFrames := 63;
     Frame.Frame.s_NextIndex := 0 |}.

Lemma demo_frames_ok : fa_inv demo_frames.
Proof.
  split; [|done|simpl; lia]. exists (fun i => i =? 0). split; try done; simpl; try lia.
  - split; simpl; [done| |lia|lia]. repeat constructor; vm_compute; done.
  - intros i Hi Hu. by replace i with 0 by lia.
Qed.

#[local] Instance demo_boot : BootInfo := {|
  memory_regions :=
    [ {| Multiboot.Address := 0x1000; Multiboot.Length := 0x3000; Multiboot.Type_ := 1 |};
      {| Multiboot.Address := 0x9FC00; Multiboot.Length := 0x400; Multiboot.Type_ := 2 |} ];
  info_regions := []; modules := [];
  BOOT_START := 0x1000000; KERNEL_END := 0xFFFFFFFF81004000 |}.

Definition demo_layout : machine :=
  {| BOOT_END := 0x1001000;
     KERNEL_TEXT_START := 0xFFFFFFFF81001000; KERNEL_TEXT_END := 0xFFFFFFFF81002000;
     KERNEL_RODATA_START := 0xFFFFFFFF81002000; KERNEL_RODATA_END := 0xFFFFFFFF81003000;
     KERNEL_DATA_START := 0xFFFFFFFF81003000; KERNEL_DATA_END := 0xFFFFFFFF81004000;
     LocalApic_BaseAddress := 0xFEE00000; IoApic_Address := 0xFEC00000; HasNX := true |}.

Definition demo_state : t Frame.Frame.t :=
  {| memory := fun _ => 0; frames := demo_frames; s_Root := 0; s_NoExecuteAvailable := false;
     s_TableCount := 0; s_MappedRamEnd := 0; KernelPageTableRoot := 0; CR0 := 0; CR3 := 0; EFER := 0 |}.

Lemma demo_layout_ok : machine_ok demo_layout.
Proof.
  split; simpl; unfold Config.KERNEL_VMA; try lia.
  - intros r. rewrite !elem_of_cons. intros [-> | [-> | []%elem_of_nil]]; simpl; lia.
  - repeat constructor.
Qed.

Lemma address_space_exact_witness :
  machine_ok demo_layout /\ fa_inv (frames demo_state) /\
  exists s', Initialize demo_layout demo_state = Ok s' /\
    IsWritable s' 0xFFFFFFFF81001234 = false /\ IsExecutable s' 0xFFFFFFFF81001234 = true /\
    Translate s' 0xFFFFFFFF81001234 = 0x1001234.
Proof.
  split; [exact demo_layout_ok|]. split; [exact demo_frames_ok|].
  assert (E : match Initialize demo_layout demo_state with Ok _ => true | _ => false end = true)
    by (vm_compute; reflexivity).
  destruct (address_space_exact demo_layout demo_state demo_layout_ok demo_frames_ok)
    as [[[_ [H | H]] | [_ H]] | (s' & H & _ & Q & _)]; [simpl; lia|rewrite H in E; discriminate E..|].
  exists s'. split; [exact H|].
  destruct (Q _ _ _ 0xFFFFFFFF81001234 (part_text demo_layout)) as [Q1 Q2 Q3 _ _]; [simpl; lia|].
  split; [exact Q2|]. split; [exact Q3|exact Q1].
Defined.
