(* ===== verification/Heap.v ===== *)
(** * Memory/Heap.cpp: the kernel heap, a buddy allocator

    Block headers live in the byte memory, in front of each block; the free lists
    are chained through them.  Pointers are addresses, [nullptr] is 0.  Each counted
    loop recurses on the number of rounds its bound leaves; [RemoveFree] follows a
    chain in memory and takes fuel. *)

From S2P Require Import Prelude Mem Config Frame FrameInterface Paging.

Module Heap.

Definition MIN_ORDER : Z := 5.
Definition MAX_ORDER : Z := Config.HEAP_LOG2.
Definition ORDER_COUNT : Z := MAX_ORDER - MIN_ORDER + 1.
Definition HEAP_SIZE : Z := Z.shiftl 1 MAX_ORDER.
Definition BLOCK_MAGIC : Z := 0x484b424c.

(** [struct BlockHeader]: [sizeof] is 16. *)
Definition HEADER : Z := 16.
Definition Magic (m : mem) (b : Z) : Z := load32 m b.
Definition Order (m : mem) (b : Z) : Z := load8 m (b + 4).
Definition IsFree (m : mem) (b : Z) : Z := load8 m (b + 5).
Definition NextFree (m : mem) (b : Z) : Z := load64 m (b + 8).
Definition set_Magic (m : mem) (b v : Z) : mem := store32 m b v.
Definition set_Order (m : mem) (b v : Z) : mem := store8 m (b + 4) v.
Definition set_IsFree (m : mem) (b v : Z) : mem := store8 m (b + 5) v.
Definition set_NextFree (m : mem) (b v : Z) : mem := store64 m (b + 8) v.

Definition IndexOf (InOrder : Z) : Z := InOrder -64 MIN_ORDER.

(** [n] is [MAX_ORDER - order]. *)
Fixpoint OrderFor_loop (n : nat) (order InBytes : Z) : Z :=
  match n with
  | O => order
  | S k => if (1 <<64 order) <? InBytes then OrderFor_loop k (u8 (order + 1)) InBytes else order
  end.

Definition OrderFor (InBytes : Z) : Z :=
  OrderFor_loop (Z.to_nat (MAX_ORDER - MIN_ORDER)) MIN_ORDER InBytes.

(** A free list has no more elements than the heap has minimal blocks. *)
Definition list_fuel : nat := Z.to_nat (HEAP_SIZE / 32 + 1).

(** [BlockHeader** link]: the head of a list, or the [NextFree] field of a block. *)
Inductive link := LinkHead (index : Z) | LinkField (b : Z).

Section Operations.
Context {F : Type} `{FrameAllocator F} `{Build}.

Record t := {
  memory : mem;
  frames : F;
  s_Region : Z;
  s_FreeLists : list Z;
  s_UsedBytes : Z;
  s_Initialized : bool }.

Definition with_memory (s : t) (m : mem) : t :=
  {| memory := m; frames := frames s; s_Region := s_Region s; s_FreeLists := s_FreeLists s;
     s_UsedBytes := s_UsedBytes s; s_Initialized := s_Initialized s |}.
Definition with_lists (s : t) (l : list Z) : t :=
  {| memory := memory s; frames := frames s; s_Region := s_Region s; s_FreeLists := l;
     s_UsedBytes := s_UsedBytes s; s_Initialized := s_Initialized s |}.
Definition with_used (s : t) (n : Z) : t :=
  {| memory := memory s; frames := frames s; s_Region := s_Region s; s_FreeLists := s_FreeLists s;
     s_UsedBytes := n; s_Initialized := s_Initialized s |}.

Definition BlockAt (s : t) (InOffset : Z) : Z := s_Region s +64 InOffset.
Definition OffsetOf (s : t) (InBlock : Z) : Z := InBlock -64 s_Region s.

(** [s_FreeLists[i]]; undefined outside the array. *)
Definition head (s : t) (i : Z) : outcome Z :=
  match s_FreeLists s !! Z.to_nat i with Some b => Ok b | None => Fault "s_FreeLists" end.
Definition set_head (s : t) (i b : Z) : t := with_lists s (<[Z.to_nat i := b]> (s_FreeLists s)).

Definition PushFree (InBlock InOrder : Z) (s : t) : outcome t :=
  let* first := head s (IndexOf InOrder) in
  let m := set_Magic (memory s) InBlock BLOCK_MAGIC in
  let m := set_Order m InBlock InOrder in
  let m := set_IsFree m InBlock 1 in
  let m := set_NextFree m InBlock first in
  Ok (set_head (with_memory s m) (IndexOf InOrder) InBlock).

Definition read_link (s : t) (l : link) : outcome Z :=
  match l with LinkHead i => head s i | LinkField b => Ok (NextFree (memory s) b) end.
Definition write_link (s : t) (l : link) (v : Z) : t :=
  match l with
  | LinkHead i => set_head s i v
  | LinkField b => with_memory s (set_NextFree (memory s) b v)
  end.

Fixpoint RemoveFree_loop (fuel : nat) (l : link) (InBlock : Z) (s : t) : outcome (bool * t) :=
  match fuel with
  | O => Diverges
  | S k =>
      let* cur := read_link s l in
      if cur =? 0 then Ok (false, s)
      else if cur =? InBlock then
        let s := write_link s l (NextFree (memory s) InBlock) in
        let s := with_memory s (set_NextFree (memory s) InBlock 0) in
        Ok (true, with_memory s (set_IsFree (memory s) InBlock 0))
      else RemoveFree_loop k (LinkField cur) InBlock s
  end.

Definition RemoveFree (InBlock InOrder : Z) (s : t) : outcome (bool * t) :=
  RemoveFree_loop list_fuel (LinkHead (IndexOf InOrder)) InBlock s.

Definition Initialize (s : t) : outcome t :=
  if s_Initialized s then Ok s
  else
    let* (allocated, f) := fa_Allocate (HEAP_SIZE / Frame.SIZE) (frames s) in
    let region := if negb (allocated =? 0) then Paging.ToVirtual allocated else 0 in
    if region =? 0 then Panic "Not enough physical memory for the kernel heap"
    else
      let s := {| memory := memory s; frames := f; s_Region := region;
                  s_FreeLists := replicate (Z.to_nat ORDER_COUNT) 0;
                  s_UsedBytes := s_UsedBytes s; s_Initialized := s_Initialized s |} in
      let* s := PushFree (BlockAt s 0) MAX_ORDER s in
      Ok {| memory := memory s; frames := frames s; s_Region := s_Region s;
            s_FreeLists := s_FreeLists s; s_UsedBytes := 0; s_Initialized := true |}.

(** [n] is [MAX_ORDER + 1 - order]; the answer is the order reached. *)
Fixpoint Find_loop (n : nat) (order : Z) (s : t) : outcome Z :=
  match n with
  | O => Ok order
  | S k =>
      let* b := head s (IndexOf order) in
      if b =? 0 then Find_loop k (u8 (order + 1)) s else Ok order
  end.

(** [n] is [order - wanted]. *)
Fixpoint Split_loop (n : nat) (order block : Z) (s : t) : outcome t :=
  match n with
  | O => Ok s
  | S k =>
      let order := u8 (order - 1) in
      let* s := PushFree (BlockAt s (OffsetOf s block +64 (1 <<64 order))) order s in
      Split_loop k order block s
  end.

Definition Allocate (InSize : Z) (s : t) : outcome (Z * t) :=
  if InSize =? 0 then Ok (0, s)
  else
    let* s := (if negb (s_Initialized s) then Initialize s else Ok s) in
    let needed := InSize +64 HEADER in
    if HEAP_SIZE <? needed then Ok (0, s)
    else
      let wanted := OrderFor needed in
      let* order := Find_loop (Z.to_nat (MAX_ORDER + 1 - wanted)) wanted s in
      if MAX_ORDER <? order then Ok (0, s)
      else
        let* block := head s (IndexOf order) in
        let s := set_head s (IndexOf order) (NextFree (memory s) block) in
        let* s := Split_loop (Z.to_nat (order - wanted)) order block s in
        let m := set_Magic (memory s) block BLOCK_MAGIC in
        let m := set_Order m block wanted in
        let m := set_IsFree m block 0 in
        let m := set_NextFree m block 0 in
        let s := with_used (with_memory s m) (s_UsedBytes s +64 (1 <<64 wanted)) in
        Ok (block +64 HEADER, s).

(** [n] is [MAX_ORDER - order]; the answer is the offset and order to free. *)
Fixpoint Merge_loop (n : nat) (offset order : Z) (s : t) : outcome (Z * Z * t) :=
  match n with
  | O => Ok (offset, order, s)
  | S k =>
      let buddyOffset := Z.lxor offset (1 <<64 order) in
      let buddy := BlockAt s buddyOffset in
      if negb (Magic (memory s) buddy =? BLOCK_MAGIC) || (IsFree (memory s) buddy =? 0) ||
         negb (Order (memory s) buddy =? order)
      then Ok (offset, order, s)
      else
        let* (removed, s) := RemoveFree buddy order s in
        if negb removed then Ok (offset, order, s)
        else Merge_loop k (if offset <? buddyOffset then offset else buddyOffset)
                        (u8 (order + 1)) s
  end.

Definition Free (InPointer : Z) (s : t) : outcome t :=
  if InPointer =? 0 then Ok s
  else
    let block := InPointer -64 HEADER in
    let* _ := ASSERT (Magic (memory s) block =? BLOCK_MAGIC) "block->Magic == BLOCK_MAGIC" in
    let* _ := ASSERT (IsFree (memory s) block =? 0) "block->IsFree == 0" in
    if negb (Magic (memory s) block =? BLOCK_MAGIC) || negb (IsFree (memory s) block =? 0)
    then Ok s
    else
      let order := Order (memory s) block in
      let s := with_used s (s_UsedBytes s -64 (1 <<64 order)) in
      let* (offset, order, s) :=
        Merge_loop (Z.to_nat (MAX_ORDER - order)) (OffsetOf s block) order s in
      PushFree (BlockAt s offset) order s.

Definition Reallocate (InPointer InSize : Z) (s : t) : outcome (Z * t) :=
  if InPointer =? 0 then Allocate InSize s
  else if InSize =? 0 then let* s := Free InPointer s in Ok (0, s)
  else
    let block := InPointer -64 HEADER in
    let* _ := ASSERT (Magic (memory s) block =? BLOCK_MAGIC) "block->Magic == BLOCK_MAGIC" in
    let oldPayload := (1 <<64 Order (memory s) block) -64 HEADER in
    if (InSize <=? oldPayload) && (OrderFor (InSize +64 HEADER) =? Order (memory s) block)
    then Ok (InPointer, s)
    else
      let* (replacement, s) := Allocate InSize s in
      if negb (replacement =? 0) then
        let s := with_memory s (CString.memcpy (memory s) replacement InPointer
                                  (if InSize <? oldPayload then InSize else oldPayload)) in
        let* s := Free InPointer s in Ok (replacement, s)
      else Ok (replacement, s).

Definition GetTotalBytes : Z := HEAP_SIZE.
Definition GetUsedBytes (s : t) : Z := s_UsedBytes s.

Definition malloc (InSize : Z) (s : t) : outcome (Z * t) := Allocate InSize s.
Definition free (InPointer : Z) (s : t) : outcome t := Free InPointer s.
Definition calloc (InCount InSize : Z) (s : t) : outcome (Z * t) :=
  let total := InCount *64 InSize in
  if negb (InCount =? 0) && negb (total / InCount =? InSize) then Ok (0, s)
  else
    let* (p, s) := Allocate total s in
    if negb (p =? 0) then Ok (p, with_memory s (CString.memset (memory s) p 0 total))
    else Ok (p, s).
Definition realloc (InPointer InSize : Z) (s : t) : outcome (Z * t) := Reallocate InPointer InSize s.

End Operations.

Arguments t : clear implicits.
End Heap.
