(* ===== verification/HeapSpec.v ===== *)
(** * Correctness of the buddy allocator

    [part] is the ghost partition of the region into blocks, each used or free.
    [inv] ties it to the headers and free lists in memory, [coalesced] says that no
    two free buddies exist.  [Allocate] and [Free] are followed block by block with
    one block, the [hole], whose header is being rewritten. *)

From S2P Require Import Prelude Mem Config Frame FrameSpec FrameInterface Paging Heap.

Import Heap.

(** ** Powers of two and buddies *)

Lemma pow2_pos o : 0 <= o -> 0 < 2 ^ o.
Proof. intros. apply Z.pow_pos_nonneg; lia. Qed.

Lemma pow2_succ o : 0 <= o -> 2 ^ (o + 1) = 2 * 2 ^ o.
Proof. intros. rewrite Z.pow_add_r by lia. lia. Qed.

Lemma pow2_le a b : 0 <= a <= b -> 2 ^ a <= 2 ^ b.
Proof. intros. apply Z.pow_le_mono_r; lia. Qed.

Lemma pow2_lt a b : 0 <= a < b -> 2 * 2 ^ a <= 2 ^ b.
Proof. intros. rewrite <- pow2_succ by lia. apply pow2_le. lia. Qed.

Lemma pow2_divide a b x : 0 <= a <= b -> x mod 2 ^ b = 0 -> x mod 2 ^ a = 0.
Proof.
  intros Hab Hx. apply Z.mod_divide in Hx; [|pose proof (pow2_pos b); lia].
  apply Z.mod_divide; [pose proof (pow2_pos a); lia|]. etrans; [|done].
  exists (2 ^ (b - a)). rewrite <- Z.pow_add_r by lia. f_equal. lia.
Qed.

Lemma shift64 o : 0 <= o <= 24 -> 1 <<64 o = 2 ^ o.
Proof.
  intros. rewrite Z.shiftl_1_l. apply wrap_small. pose proof (pow2_pos o).
  pose proof (pow2_le o 24). unfold is_word. lia.
Qed.

Lemma mod_add_self x p : p <> 0 -> (x + p) mod p = x mod p.
Proof. intros. replace (x + p) with (x + 1 * p) by lia. by apply Z.mod_add. Qed.

(** Flipping bit [o] of an aligned offset. *)
Definition buddy (off o : Z) : Z := if Z.testbit off o then off - 2 ^ o else off + 2 ^ o.

Lemma lxor_buddy off o : 0 <= o <= 24 -> Z.lxor off (1 <<64 o) = buddy off o.
Proof.
  intros Ho. rewrite shift64 by done. unfold buddy. rewrite <- Z.shiftl_1_l.
  destruct (Z.testbit off o) eqn:E.
  - rewrite Z.sub_nocarry_ldiff.
    + apply Z.bits_inj'. intros k Hk. rewrite Z.lxor_spec, Z.ldiff_spec, testbit_one_shift by lia.
      case_bool_decide; [subst; by rewrite E|btauto].
    + apply Z.bits_inj'. intros k Hk. rewrite Z.ldiff_spec, testbit_one_shift, Z.bits_0 by lia.
      case_bool_decide; [subst; by rewrite E|btauto].
  - rewrite Z.add_nocarry_lxor; [done|].
    apply Z.bits_inj'. intros k Hk. rewrite Z.land_spec, testbit_one_shift, Z.bits_0 by lia.
    case_bool_decide; [subst; by rewrite E|btauto].
Qed.

Lemma buddy_buddy off o : 0 <= o <= 24 -> buddy (buddy off o) o = off.
Proof.
  intros. rewrite <- !lxor_buddy by done. by rewrite Z.lxor_assoc, Z.lxor_nilpotent, Z.lxor_0_r.
Qed.

(** The lower of the two buddies is aligned for the next order. *)
Lemma buddy_cases off o : 0 <= o -> off mod 2 ^ o = 0 ->
  (off mod 2 ^ (o + 1) = 0 /\ buddy off o = off + 2 ^ o) \/
  (buddy off o mod 2 ^ (o + 1) = 0 /\ buddy off o = off - 2 ^ o).
Proof.
  intros Ho Hm. unfold buddy. pose proof (pow2_pos o Ho). rewrite pow2_succ by done.
  assert (Hq : off = 2 ^ o * (off / 2 ^ o)) by (pose proof (Z.div_mod off (2 ^ o) ltac:(lia)); lia).
  rewrite Z.testbit_odd, Z.shiftr_div_pow2 by lia. set (q := off / 2 ^ o) in *.
  rewrite Zodd_mod. pose proof (Z.div_mod q 2). pose proof (Z.mod_pos_bound q 2).
  destruct (Z.eq_dec (q mod 2) 0) as [E|E].
  - left. replace (Zeq_bool (q mod 2) 1) with false by (rewrite E; done).
    split; [|done]. apply Z.mod_divide; [lia|]. exists (q / 2). rewrite Hq.
    replace q with (2 * (q / 2)) at 1 by lia. lia.
  - right. replace (q mod 2) with 1 by lia. change (1 =? 1) with true. cbv iota. split; [|done].
    apply Z.mod_divide; [lia|]. exists (q / 2). rewrite Hq.
    replace q with (2 * (q / 2) + 1) at 1 by lia. lia.
Qed.

(** ** Partitions of the region *)

Definition part := Z -> option (Z * bool).

Record layout (B : part) : Prop := {
  ly_block off o f : B off = Some (o, f) ->
    5 <= o <= 24 /\ off mod 2 ^ o = 0 /\ 0 <= off /\ off + 2 ^ o <= 2 ^ 24;
  ly_cover x : 0 <= x < 2 ^ 24 -> exists off o f, B off = Some (o, f) /\ off <= x < off + 2 ^ o;
  ly_disj off1 o1 f1 off2 o2 f2 : B off1 = Some (o1, f1) -> B off2 = Some (o2, f2) ->
    off1 <> off2 -> off1 + 2 ^ o1 <= off2 \/ off2 + 2 ^ o2 <= off1 }.

Definition put (B : part) (off : Z) (x : option (Z * bool)) : part :=
  fun y => if y =? off then x else B y.

Lemma put_eq B off x : put B off x off = x.
Proof. unfold put. by rewrite Z.eqb_refl. Qed.

Lemma put_ne B off x y : y <> off -> put B off x y = B y.
Proof. intros. unfold put. by case_test. Qed.

(** Marking a block used or free. *)
Lemma layout_retag B off o f f' :
  layout B -> B off = Some (o, f) -> layout (put B off (Some (o, f'))).
Proof.
  intros [Hb Hc Hd] Hoff.
  assert (Hput : forall y o' g, put B off (Some (o, f')) y = Some (o', g) -> exists g', B y = Some (o', g')).
  { intros y o' g. unfold put. case_test; [|eauto]. intros [= <- <-]. subst. eauto. }
  split.
  - intros y o' g Hy. destruct (Hput _ _ _ Hy). by eapply Hb.
  - intros x Hx. destruct (Hc x Hx) as (y & o' & g & Hy & Hr).
    destruct (Z.eq_dec y off) as [->|Hne].
    + rewrite Hoff in Hy. injection Hy as <- <-. exists off, o, f'. by rewrite put_eq.
    + exists y, o', g. by rewrite put_ne.
  - intros y1 o1 f1 y2 o2 f2 H1 H2. destruct (Hput _ _ _ H1), (Hput _ _ _ H2). by eapply Hd.
Qed.

(** Splitting a block of order [o + 1] into two of order [o]. *)
Lemma layout_split B off o f f1 f2 :
  layout B -> B off = Some (o + 1, f) -> 5 <= o ->
  layout (put (put B off (Some (o, f1))) (off + 2 ^ o) (Some (o, f2))) /\ B (off + 2 ^ o) = None.
Proof.
  intros [Hb Hc Hd] Hoff Ho. destruct (Hb _ _ _ Hoff) as (Hr & Hm & H0 & He).
  rewrite pow2_succ in He by lia. pose proof (pow2_pos o ltac:(lia)).
  assert (Hnone : B (off + 2 ^ o) = None).
  { destruct (B (off + 2 ^ o)) as [[o' g]|] eqn:E; [|done].
    destruct (Hb _ _ _ E) as (? & _). pose proof (pow2_pos o' ltac:(lia)).
    destruct (Hd _ _ _ _ _ _ Hoff E); rewrite ?pow2_succ in *; lia. }
  split; [|done]. set (B' := put _ _ _).
  assert (Hput : forall y o' g, B' y = Some (o', g) ->
    (y = off /\ o' = o) \/ (y = off + 2 ^ o /\ o' = o) \/ (y <> off /\ y <> off + 2 ^ o /\ B y = Some (o', g))).
  { intros y o' g. unfold B', put. repeat case_test; try (intros [= <- <-]); auto. }
  assert (Hm' : off mod 2 ^ o = 0) by (apply (pow2_divide o (o + 1)); [lia|done]).
  split.
  - intros y o' g Hy. destruct (Hput _ _ _ Hy) as [[-> ->]|[[-> ->]|(_ & _ & Hy')]]; [| |by eapply Hb].
    + split_and!; try done; lia.
    + split_and!; try lia. by rewrite mod_add_self by lia.
  - intros x Hx. destruct (Hc x Hx) as (y & o' & g & Hy & Hr').
    destruct (Z.eq_dec y off) as [->|Hne].
    + rewrite Hoff in Hy. injection Hy as <- <-. rewrite pow2_succ in Hr' by lia.
      destruct (Z_lt_dec x (off + 2 ^ o)).
      * exists off, o, f1. unfold B'. rewrite put_ne, put_eq by lia. split; [done|lia].
      * exists (off + 2 ^ o), o, f2. unfold B'. rewrite put_eq. split; [done|lia].
    + exists y, o', g. unfold B'. assert (y <> off + 2 ^ o) by congruence. by rewrite !put_ne.
  - intros y1 o1 g1 y2 o2 g2 H1 H2 Hne.
    destruct (Hput _ _ _ H1) as [[-> ->]|[[-> ->]|(? & ? & H1')]],
      (Hput _ _ _ H2) as [[-> ->]|[[-> ->]|(? & ? & H2')]]; try lia;
      try (by eapply Hd); try (pose proof (Hd _ _ _ _ _ _ Hoff H2' ltac:(lia)));
      try (pose proof (Hd _ _ _ _ _ _ Hoff H1' ltac:(lia))); rewrite ?pow2_succ in * by lia; lia.
Qed.

(** Merging the two halves of an aligned block. *)
Lemma layout_merge B off o f1 f2 f :
  layout B -> B off = Some (o, f1) -> B (off + 2 ^ o) = Some (o, f2) ->
  off mod 2 ^ (o + 1) = 0 -> o < 24 ->
  layout (put (put B (off + 2 ^ o) None) off (Some (o + 1, f))).
Proof.
  intros [Hb Hc Hd] Hl Hh Hm Ho. destruct (Hb _ _ _ Hl) as (Hr & _ & H0 & _).
  destruct (Hb _ _ _ Hh) as (_ & _ & _ & He). pose proof (pow2_pos o ltac:(lia)).
  set (B' := put _ _ _).
  assert (Hput : forall y o' g, B' y = Some (o', g) ->
    (y = off /\ o' = o + 1) \/ (y <> off /\ y <> off + 2 ^ o /\ B y = Some (o', g))).
  { intros y o' g. unfold B', put. repeat case_test; try (intros [= <- <-]); auto. }
  split.
  - intros y o' g Hy. destruct (Hput _ _ _ Hy) as [[-> ->]|(_ & _ & Hy')]; [|by eapply Hb].
    rewrite pow2_succ by lia. rewrite pow2_succ in Hm by lia. split_and!; try done; lia.
  - intros x Hx. destruct (Hc x Hx) as (y & o' & g & Hy & Hr').
    destruct (Z.eq_dec y off) as [->|Hne]; [|destruct (Z.eq_dec y (off + 2 ^ o)) as [->|Hne']].
    + rewrite Hl in Hy. injection Hy as <- <-. exists off, (o + 1), f. unfold B'.
      rewrite put_eq, pow2_succ by lia. split; [done|lia].
    + rewrite Hh in Hy. injection Hy as <- <-. exists off, (o + 1), f. unfold B'.
      rewrite put_eq, pow2_succ by lia. split; [done|lia].
    + exists y, o', g. unfold B'. by rewrite !put_ne.
  - intros y1 o1 g1 y2 o2 g2 H1 H2 Hne.
    destruct (Hput _ _ _ H1) as [[-> ->]|(? & ? & H1')], (Hput _ _ _ H2) as [[-> ->]|(? & ? & H2')];
      try lia; try (by eapply Hd); rewrite ?pow2_succ by lia.
    + pose proof (Hd _ _ _ _ _ _ Hl H2' ltac:(lia)). pose proof (Hd _ _ _ _ _ _ Hh H2' ltac:(lia)).
      destruct (Hb _ _ _ H2') as (? & _). pose proof (pow2_pos o2 ltac:(lia)). lia.
    + pose proof (Hd _ _ _ _ _ _ Hl H1' ltac:(lia)). pose proof (Hd _ _ _ _ _ _ Hh H1' ltac:(lia)).
      destruct (Hb _ _ _ H1') as (? & _). pose proof (pow2_pos o1 ltac:(lia)). lia.
Qed.

(** The buddy offset of a block is the start of a block, of at most the same order. *)
Lemma layout_buddy B off o f :
  layout B -> B off = Some (o, f) -> o < 24 ->
  exists o' f', B (buddy off o) = Some (o', f') /\ o' <= o.
Proof.
  intros [Hb Hc Hd] Hoff Ho. destruct (Hb _ _ _ Hoff) as (Hr & Hm & H0 & He).
  pose proof (pow2_pos o ltac:(lia)) as Hp. set (q := buddy off o).
  assert (Hq : 0 <= q < 2 ^ 24 /\ q mod 2 ^ o = 0 /\ (q = off + 2 ^ o \/ q = off - 2 ^ o) /\
    exists base, base mod 2 ^ (o + 1) = 0 /\ base <= off < base + 2 ^ (o + 1) /\ base <= q < base + 2 ^ (o + 1)).
  { rewrite pow2_succ by lia. unfold q. destruct (buddy_cases off o ltac:(lia) Hm) as [[Hal ->]|[Hal Hbd]].
    - assert (Hend : (off + 2 * 2 ^ o) <= 2 ^ 24).
      { rewrite pow2_succ in Hal by lia. apply Z.mod_divide in Hal as [k Hk]; [|lia].
        pose proof (pow2_le (o + 1) 24 ltac:(lia)) as Hle.
        assert (H24 : 2 ^ 24 = 2 ^ (24 - (o + 1)) * (2 * 2 ^ o)).
        { rewrite <- pow2_succ, <- Z.pow_add_r by lia. f_equal. lia. }
        rewrite H24 in He |- *. set (Q := 2 ^ (24 - (o + 1))) in *. set (P := 2 ^ o) in *.
        assert (k < Q) by nia. nia. }
      split_and!; try lia.
      + by rewrite mod_add_self by lia.
      + exists off. rewrite pow2_succ in Hal by lia. split_and!; try done; lia.
    - rewrite Hbd in *.
      assert (0 <= off - 2 ^ o).
      { apply Z.mod_divide in Hm as [k Hk]; [|lia]. destruct (Z.eq_dec k 0) as [->|]; [|nia].
        exfalso. apply Z.mod_divide in Hal as [j Hj]; [|rewrite pow2_succ; lia].
        rewrite pow2_succ in Hj by lia.
        assert (Hz : 2 ^ o * (2 * j + 1) = 0) by lia. apply Z.mul_eq_0 in Hz. lia. }
      split_and!; try lia.
      + replace (off - 2 ^ o) with (off + (-1) * 2 ^ o) by lia. by rewrite Z.mod_add by lia.
      + exists (off - 2 ^ o). rewrite pow2_succ in Hal by lia. split_and!; try done; lia. }
  destruct Hq as (Hqr & Hqm & Hqn & base & Hbm & Hbo & Hbq).
  destruct (Hc q Hqr) as (y & o' & f' & Hy & Hyr). destruct (Hb _ _ _ Hy) as (Hr' & Hm' & H0' & _).
  assert (Hyo : y <> off).
  { intros ->. rewrite Hoff in Hy. injection Hy as <- <-. lia. }
  assert (Hle : o' <= o).
  { destruct (Z_le_dec o' o); [done|]. exfalso.
    (* an aligned block of higher order that holds [q] holds [off] too *)
    pose proof (Hd _ _ _ _ _ _ Hoff Hy ltac:(lia)) as Hdis.
    apply Z.mod_divide in Hm' as [k Hk]; [|pose proof (pow2_pos o' ltac:(lia)); lia].
    apply Z.mod_divide in Hbm as [j Hj]; [|pose proof (pow2_pos (o + 1) ltac:(lia)); lia].
    assert (Hpo : 2 ^ o' = 2 ^ (o' - (o + 1)) * 2 ^ (o + 1)) by (rewrite <- Z.pow_add_r by lia; f_equal; lia).
    pose proof (pow2_pos (o' - (o + 1)) ltac:(lia)). pose proof (pow2_pos (o + 1) ltac:(lia)).
    set (P := 2 ^ (o + 1)) in *. set (Q := 2 ^ (o' - (o + 1))) in *.
    assert (Hy' : y = k * Q * P) by lia.
    assert (k * Q <= j) by nia. assert (j < k * Q + Q) by nia. nia. }
  assert (y = q) as <-; [|by exists o', f'].
  apply (pow2_divide o' o) in Hqm; [|lia]. pose proof (pow2_pos o' ltac:(lia)).
  apply Z.mod_divide in Hqm as [k Hk]; [|lia]. apply Z.mod_divide in Hm' as [j Hj]; [|lia].
  set (P := 2 ^ o') in *. assert (j < k + 1) by nia. assert (k < j + 1) by nia.
  replace j with k in Hj by lia. lia.
Qed.

(** ** Bytes in use *)

Definition weight (x : option (Z * bool)) : Z :=
  match x with Some (o, false) => 2 ^ o | _ => 0 end.

Lemma weight_nonneg x : 0 <= weight x.
Proof. destruct x as [[o []]|]; simpl; try lia. Qed.

(** Blocks start at multiples of 32. *)
Definition block_slots : nat := Z.to_nat (2 ^ 19).
Definition used_def (B : part) : Z := sumZ (fun k => weight (B (32 * k))) block_slots.
(** Sealed, so that no tactic unfolds the half million summands. *)
Definition used_aux : seal (@used_def).
Proof. by eexists. Qed.
Definition used : part -> Z := unseal used_aux.
Definition used_eq : used = used_def := seal_eq used_aux.

Lemma used_put B off x :
  0 <= off < 2 ^ 24 -> off mod 32 = 0 -> used (put B off x) = used B - weight (B off) + weight x.
Proof.
  intros Hr Hm. rewrite used_eq. unfold used_def. assert (Ho : off = 32 * (off / 32)) by (pose proof (Z.div_mod off 32); lia).
  rewrite (sumZ_update _ (fun k => weight (B (32 * k))) (off / 32)).
  - rewrite <- Ho, put_eq. reflexivity.
  - unfold block_slots. rewrite Z2Nat.id by lia. lia.
  - intros j Hj. rewrite put_ne by lia. done.
Qed.

#[local] Opaque list_fuel.

Lemma layout_slot B off o f : layout B -> B off = Some (o, f) -> 0 <= off < 2 ^ 24 /\ off mod 32 = 0.
Proof.
  intros HL Hoff. destruct (ly_block B HL _ _ _ Hoff) as (Hr & Hm & H0 & He).
  pose proof (pow2_pos o ltac:(lia)). split; [lia|]. change 32 with (2 ^ 5).
  apply (pow2_divide 5 o); [lia|done].
Qed.

Lemma used_prefix B n e : layout B -> 0 <= e ->
  (forall off o f, B off = Some (o, f) -> off < 32 * Z.of_nat n -> off + 2 ^ o <= e) ->
  sumZ (fun k => weight (B (32 * k))) n <= e.
Proof.
  intros HL. revert e; induction n as [|n IH]; intros e He Hend; simpl; [lia|].
  destruct (B (32 * Z.of_nat n)) as [[o []]|] eqn:E; simpl.
  - rewrite Z.add_0_r. apply IH; [done|]. intros y o' f Hy Hlt. apply (Hend _ _ _ Hy). lia.
  - pose proof (Hend _ _ _ E ltac:(lia)). destruct (ly_block B HL _ _ _ E) as (Hr & _).
    assert (sumZ (fun k => weight (B (32 * k))) n <= 32 * Z.of_nat n); [|lia].
    apply IH; [lia|]. intros y o' f Hy Hlt. destruct (ly_block B HL _ _ _ Hy) as (Hr' & _).
    pose proof (pow2_pos o ltac:(lia)). destruct (ly_disj B HL _ _ _ _ _ _ Hy E ltac:(lia)); lia.
  - rewrite Z.add_0_r. apply IH; [done|]. intros y o' f Hy Hlt. apply (Hend _ _ _ Hy). lia.
Qed.

Lemma used_nonneg B : 0 <= used B.
Proof. rewrite used_eq. unfold used_def. apply sumZ_nonneg. intros. apply weight_nonneg. Qed.

Lemma used_bounds B : layout B -> 0 <= used B <= 2 ^ 24.
Proof.
  intros HL. split; [apply used_nonneg|]. rewrite used_eq. unfold used_def.
  apply used_prefix; [done|lia|]. intros off o f Hoff _. by destruct (ly_block B HL _ _ _ Hoff) as (_ & _ & _ & ?).
Qed.

(** ** Headers in memory *)

Definition hdr_ok (m : mem) (b o : Z) (f : bool) : Prop :=
  Magic m b = BLOCK_MAGIC /\ Order m b = o /\ IsFree m b = if f then 1 else 0.

(** [m'] holds the same header at [b] as [m]. *)
Definition same_header (m m' : mem) (b : Z) : Prop :=
  forall x, b <= x < b + 16 -> load8 m' x = load8 m x.

Lemma same_header_fields m m' b : same_header m m' b ->
  Magic m' b = Magic m b /\ Order m' b = Order m b /\ IsFree m' b = IsFree m b /\
  NextFree m' b = NextFree m b.
Proof.
  intros H. unfold Magic, Order, IsFree, NextFree. split_and!.
  - apply load_ext. intros i Hi. apply H. lia.
  - apply H. lia.
  - apply H. lia.
  - apply load_ext. intros i Hi. apply H. lia.
Qed.

(** Only the 16 bytes at [b] differ. *)
Definition only_header (m m' : mem) (b : Z) : Prop :=
  forall x, x < b \/ b + 16 <= x -> load8 m' x = load8 m x.

Lemma only_header_same m m' b b' :
  only_header m m' b -> b' + 16 <= b \/ b + 16 <= b' -> same_header m m' b'.
Proof. intros H Hb x Hx. apply H. lia. Qed.

Definition write_header (m : mem) (b o f next : Z) : mem :=
  set_NextFree (set_IsFree (set_Order (set_Magic m b BLOCK_MAGIC) b o) b f) b next.

Lemma write_header_only m b o f next : only_header m (write_header m b o f next) b.
Proof.
  intros x Hx. unfold write_header, set_NextFree, set_IsFree, set_Order, set_Magic.
  rewrite load8_store_out by lia. rewrite !load8_store8_ne by lia. rewrite load8_store_out by lia. done.
Qed.

Lemma write_header_fields m b o f next :
  0 <= o < 256 -> 0 <= f < 256 -> is_word 64 next ->
  let m' := write_header m b o f next in
  Magic m' b = BLOCK_MAGIC /\ Order m' b = o /\ IsFree m' b = f /\ NextFree m' b = next.
Proof.
  intros Ho Hf Hn m'. unfold m', write_header, Magic, Order, IsFree, NextFree.
  unfold set_NextFree, set_IsFree, set_Order, set_Magic. split_and!.
  - rewrite load_store_disj by lia.
    rewrite (load_ext _ (store32 m b BLOCK_MAGIC)).
    + rewrite load_store_same. by vm_compute.
    + intros i Hi. by rewrite !load8_store8_ne by lia.
  - rewrite load8_store_out by lia. rewrite load8_store8_ne, load8_store8_same by lia.
    apply wrap_small. done.
  - rewrite load8_store_out by lia. rewrite load8_store8_same. apply wrap_small. done.
  - by apply load64_store64.
Qed.

(** ** Chains of free blocks *)

Fixpoint chain (m : mem) (h : Z) (l : list Z) : Prop :=
  match l with
  | [] => h = 0
  | b :: rest => h = b /\ chain m (NextFree m b) rest
  end.

Lemma free_chain_ext m m' h l :
  (forall b, b ∈ l -> NextFree m' b = NextFree m b) -> chain m h l -> chain m' h l.
Proof.
  revert h; induction l as [|b l IH]; intros h Hsame; simpl; [done|].
  intros [-> Hc]. split; [done|]. rewrite Hsame by set_solver.
  apply IH; [|done]. intros; apply Hsame; set_solver.
Qed.

(** Unlinking [b], whose predecessor is [p]. *)
Lemma chain_unlink m m' h l1 p b l2 :
  NoDup (l1 ++ p :: b :: l2) -> NextFree m' p = NextFree m b ->
  (forall x, x ∈ l1 ++ l2 -> NextFree m' x = NextFree m x) ->
  chain m h (l1 ++ p :: b :: l2) -> chain m' h (l1 ++ p :: l2).
Proof.
  revert h; induction l1 as [|a l1 IH]; intros h Hnd Hp Hsame; simpl.
  - intros (-> & E & Hc). split; [done|]. rewrite Hp.
    eapply free_chain_ext; [|done]. intros x Hx. apply Hsame. set_solver.
  - intros [-> Hc]. split; [done|]. rewrite Hsame by set_solver.
    apply IH; try done; [by inversion Hnd|]. intros x Hx. apply Hsame. set_solver.
Qed.

(** ** The invariant *)

(** No free block has a free buddy of its own order. *)
Definition coalesced (B : part) : Prop := forall off o,
  B off = Some (o, true) -> o < 24 -> B (buddy off o) <> Some (o, true).

Section Spec.
Context {F : Type} `{FA : FrameAllocator F} {BB : Build}.
Implicit Types s : t F.

Definition list_head (s : t F) (o : Z) : Z := s_FreeLists s !!! Z.to_nat (o - 5).

(** [fl o] lists the offsets chained in the free list of order [o]; the header of a
    block in [open] is being rewritten; [extra] bytes are in use in the partition and
    not yet, or no longer, in [s_UsedBytes]. *)
Record inv (B : part) (fl : Z -> list Z) (open : Z -> bool) (extra : Z) (s : t F) : Prop := {
  iv_layout : layout B;
  iv_region : 0 < s_Region s /\ s_Region s + 2 ^ 24 <= 2 ^ 64 /\ s_Region s mod 4096 = 0;
  iv_lists : length (s_FreeLists s) = 20%nat;
  iv_chain o : 5 <= o <= 24 ->
    chain (memory s) (list_head s o) (Z.add (s_Region s) <$> fl o) /\ NoDup (fl o);
  iv_members o off : 5 <= o <= 24 -> off ∈ fl o <-> B off = Some (o, true);
  iv_header off o f : B off = Some (o, f) -> open off = false ->
    hdr_ok (memory s) (s_Region s + off) o f;
  iv_open off : open off = true -> exists o, B off = Some (o, false);
  iv_used : used B = s_UsedBytes s + extra;
  iv_coalesced : coalesced B;
  iv_init : s_Initialized s = true }.

Definition set_open (open : Z -> bool) (off : Z) (b : bool) : Z -> bool :=
  fun y => if y =? off then b else open y.

Definition set_list (fl : Z -> list Z) (o : Z) (l : list Z) : Z -> list Z :=
  fun y => if y =? o then l else fl y.

(** The memory of every block but its header. *)
Definition same_payloads (B : part) (s s' : t F) : Prop :=
  forall off o x, B off = Some (o, false) -> s_Region s + off + 16 <= x < s_Region s + off + 2 ^ o ->
    load8 (memory s') x = load8 (memory s) x.

Lemma IndexOf_eq o : 5 <= o <= 24 -> IndexOf o = o - 5.
Proof. intros. unfold IndexOf, MIN_ORDER. apply wrap_small. unfold is_word. lia. Qed.

Lemma head_ok B fl op x s o : inv B fl op x s -> 5 <= o <= 24 ->
  head s (IndexOf o) = Ok (list_head s o).
Proof.
  intros HI Ho. unfold head, list_head. rewrite IndexOf_eq by done.
  destruct (lookup_lt_is_Some_2 (s_FreeLists s) (Z.to_nat (o - 5))) as [b Hb].
  { rewrite (iv_lists _ _ _ _ _ HI). lia. }
  by rewrite Hb, (list_lookup_total_correct _ _ _ Hb).
Qed.

Lemma list_head_set s o b o' : 5 <= o <= 24 -> 5 <= o' <= 24 -> length (s_FreeLists s) = 20%nat ->
  list_head (set_head s (IndexOf o) b) o' = if o' =? o then b else list_head s o'.
Proof.
  intros Ho Ho' Hl. unfold list_head, set_head. rewrite IndexOf_eq by done. simpl.
  destruct (Z.eqb_spec o' o) as [->|Hn].
  - rewrite list_lookup_total_insert_eq; [done|lia].
  - rewrite list_lookup_total_insert_ne; [done|lia].
Qed.

Lemma BlockAt_eq B fl op x s off : inv B fl op x s -> 0 <= off < 2 ^ 24 ->
  BlockAt s off = s_Region s + off.
Proof.
  intros HI Ho. destruct (iv_region _ _ _ _ _ HI) as (? & ? & _). unfold BlockAt.
  apply wrap_small. unfold is_word. lia.
Qed.

Lemma OffsetOf_eq B fl op x s off : inv B fl op x s -> 0 <= off < 2 ^ 24 ->
  OffsetOf s (s_Region s + off) = off.
Proof.
  intros HI Ho. unfold OffsetOf. replace (s_Region s + off - s_Region s) with off by lia.
  apply wrap_small. unfold is_word. lia.
Qed.

(** Two blocks are at least 32 bytes apart. *)
Lemma blocks_apart B o1 f1 off1 o2 f2 off2 : layout B ->
  B off1 = Some (o1, f1) -> B off2 = Some (o2, f2) -> off1 <> off2 ->
  off1 + 32 <= off2 \/ off2 + 32 <= off1.
Proof.
  intros HL H1 H2 Hn. destruct (ly_disj B HL _ _ _ _ _ _ H1 H2 Hn);
    destruct (ly_block B HL _ _ _ H1) as (Hr1 & _), (ly_block B HL _ _ _ H2) as (Hr2 & _);
    pose proof (pow2_le 5 o1 ltac:(lia)); pose proof (pow2_le 5 o2 ltac:(lia)); lia.
Qed.

(** A block keeps its header when only the header of another block is written. *)
Lemma other_header B m m' R off o f off' o' f' : layout B ->
  B off = Some (o, f) -> B off' = Some (o', f') -> off' <> off ->
  only_header m m' (R + off) -> same_header m m' (R + off').
Proof.
  intros HL H1 H2 Hn Ho. eapply only_header_same; [done|].
  destruct (blocks_apart B _ _ _ _ _ _ HL H1 H2 ltac:(lia)); lia.
Qed.

Lemma same_header_ok m m' b o f : same_header m m' b -> hdr_ok m b o f -> hdr_ok m' b o f.
Proof.
  intros Hs (H1 & H2 & H3). destruct (same_header_fields _ _ _ Hs) as (E1 & E2 & E3 & _).
  unfold hdr_ok. by rewrite E1, E2, E3.
Qed.

Lemma member_block B fl op x s o off : inv B fl op x s -> 5 <= o <= 24 -> off ∈ fl o ->
  B off = Some (o, true) /\ op off = false.
Proof.
  intros HI Ho Hin. assert (HB : B off = Some (o, true)) by (by apply (iv_members _ _ _ _ _ HI)).
  split; [done|]. destruct (op off) eqn:E; [|done].
  destruct (iv_open _ _ _ _ _ HI off E) as [o' Ho']. congruence.
Qed.

Lemma elem_of_add R (l : list Z) x : x ∈ Z.add R <$> l <-> x - R ∈ l.
Proof.
  rewrite list_elem_of_fmap. split.
  - intros (y & -> & Hy). by replace (R + y - R) with y by lia.
  - intros Hx. exists (x - R). split; [lia|done].
Qed.

(** ** [PushFree] *)

(** Freeing an open block: it joins the front of its list. *)
Lemma PushFree_ok B fl op x s off o :
  inv B fl op x s -> B off = Some (o, false) -> op off = true ->
  (o < 24 -> B (buddy off o) <> Some (o, true)) ->
  exists s', PushFree (s_Region s + off) o s = Ok s' /\
    inv (put B off (Some (o, true))) (set_list fl o (off :: fl o)) (set_open op off false)
        (x - 2 ^ o) s' /\
    only_header (memory s) (memory s') (s_Region s + off) /\
    s_Region s' = s_Region s /\ frames s' = frames s /\ s_UsedBytes s' = s_UsedBytes s.
Proof.
  intros HI Hoff Hop Hbud. pose proof (iv_layout _ _ _ _ _ HI) as HL.
  destruct (ly_block B HL _ _ _ Hoff) as (Ho & Hm & H0 & He). destruct (layout_slot B off o false HL Hoff) as [Hs1 Hs2].
  unfold PushFree. rewrite (head_ok B fl op x) by done. cbn [obind].
  fold (write_header (memory s) (s_Region s + off) o 1 (list_head s o)).
  set (m' := write_header _ _ _ _ _). eexists. split; [done|].
  assert (Hout : only_header (memory s) m' (s_Region s + off)) by apply write_header_only.
  assert (Hhead : is_word 64 (list_head s o)).
  { destruct (iv_chain _ _ _ _ _ HI o Ho) as [Hc _]. destruct (fl o) as [|y l] eqn:Ef; simpl in Hc.
    - rewrite Hc. split; lia.
    - destruct Hc as [-> _]. destruct (iv_region _ _ _ _ _ HI) as (? & ? & _).
      destruct (member_block B fl op x s o y HI Ho) as [Hy _]; [rewrite Ef; set_solver|].
      destruct (layout_slot B y o true HL Hy). split; lia. }
  destruct (write_header_fields (memory s) (s_Region s + off) o 1 (list_head s o)) as (W1 & W2 & W3 & W4);
    [lia|lia|exact Hhead|]. fold m' in W1, W2, W3, W4.
  assert (Hnotin : forall o', 5 <= o' <= 24 -> off ∉ fl o').
  { intros o' Ho' Hin. destruct (member_block B fl op x s o' off HI Ho' Hin). congruence. }
  assert (Hsame : forall o' y, 5 <= o' <= 24 -> y ∈ fl o' -> same_header (memory s) m' (s_Region s + y)).
  { intros o' y Ho' Hin. destruct (member_block B fl op x s o' y HI Ho' Hin) as [Hy _].
    eapply (other_header B _ _ _ off _ _ y); [exact HL|exact Hoff|exact Hy| |exact Hout].
    intros ->. by apply (Hnotin o'). }
  split; [|done].
  pose proof HI as [_ HR Hlen Hch Hmem Hhdr Hopn Hus Hco Hin]. split; cbn [memory s_Region s_FreeLists s_UsedBytes
    s_Initialized set_head with_lists with_memory]; [|exact HR| | | | | | | |exact Hin].
  - by eapply layout_retag.
  - by rewrite length_insert.
  - intros o' Ho'. rewrite (list_head_set (with_memory s m')) by done.
    change (list_head (with_memory s m') o') with (list_head s o'). unfold set_list.
    destruct (Z.eqb_spec o' o) as [->|Hne].
    + destruct (Hch o Ho) as [Hc Hnd]. rewrite fmap_cons. simpl. rewrite W4. split.
      * split; [done|]. eapply free_chain_ext; [|done]. intros b Hb%elem_of_add.
        destruct (same_header_fields _ _ _ (Hsame o _ Ho Hb)) as (_ & _ & _ & E).
        by replace (s_Region s + (b - s_Region s)) with b in E by lia.
      * by apply NoDup_cons; split; [apply Hnotin|].
    + destruct (Hch o' Ho') as [Hc Hnd]. split; [|done]. eapply free_chain_ext; [|done].
      intros b Hb%elem_of_add. destruct (same_header_fields _ _ _ (Hsame o' _ Ho' Hb)) as (_ & _ & _ & E).
      by replace (s_Region s + (b - s_Region s)) with b in E by lia.
  - intros o' y Ho'. unfold set_list. destruct (Z.eqb_spec o' o) as [->|Hne].
    + rewrite elem_of_cons, Hmem by done. unfold put. destruct (Z.eqb_spec y off) as [->|Hn].
      * split; [reflexivity|by left].
      * split; [intros [?|?]; [congruence|assumption]|by right].
    + rewrite Hmem by done. unfold put. destruct (Z.eqb_spec y off) as [->|Hn]; [|reflexivity].
      rewrite Hoff. split; congruence.
  - intros y o' f Hy Hop'. unfold put in Hy. unfold set_open in Hop'.
    destruct (Z.eqb_spec y off) as [->|Hne].
    + injection Hy as <- <-. by split_and!.
    + eapply same_header_ok; [|by apply Hhdr].
      by eapply (other_header B _ _ _ off _ _ y).
  - intros y. unfold set_open, put. case_test; [done|]. apply Hopn.
  - rewrite used_put by done. rewrite Hoff. simpl. lia.
  - intros y o' Hy Ho'. unfold put in *. destruct (Z.eqb_spec y off) as [->|Hne].
    + injection Hy as <-. destruct (Z.eqb_spec (buddy off o) off) as [E|E]; [|by apply Hbud].
      exfalso. unfold buddy in E. pose proof (pow2_pos o ltac:(lia)). destruct (Z.testbit off o); lia.
    + destruct (Z.eqb_spec (buddy y o') off) as [E|E]; [|by apply Hco].
      intros [= <-]. destruct (ly_block B HL _ _ _ Hy) as (Hyo & Hym & _).
      assert (Eb : buddy off o = y) by (rewrite <- E; apply buddy_buddy; lia).
      apply (Hbud Ho'). by rewrite Eb.
Qed.

(** ** Taking a block out of its list *)

(** The effect on the partition, however the chain was relinked. *)
Lemma take_inv B fl op x s s' off o l1 l2 :
  inv B fl op x s -> B off = Some (o, true) -> fl o = l1 ++ off :: l2 ->
  length (s_FreeLists s') = 20%nat -> s_Region s' = s_Region s ->
  s_UsedBytes s' = s_UsedBytes s -> s_Initialized s' = true ->
  (forall o', 5 <= o' <= 24 ->
     chain (memory s') (list_head s' o') (Z.add (s_Region s) <$> set_list fl o (l1 ++ l2) o')) ->
  (forall y o' f, B y = Some (o', f) -> y <> off ->
     hdr_ok (memory s) (s_Region s + y) o' f -> hdr_ok (memory s') (s_Region s + y) o' f) ->
  inv (put B off (Some (o, false))) (set_list fl o (l1 ++ l2)) (set_open op off true) (x + 2 ^ o) s'.
Proof.
  intros HI Hoff Hfl Hlen' HR' HU' Hi' Hch' Hhdr'.
  pose proof HI as [HL HR Hlen Hch Hmem Hhdr Hopn Hus Hco Hin].
  destruct (ly_block B HL _ _ _ Hoff) as (Ho & _). destruct (layout_slot B off o true HL Hoff) as [Hs1 Hs2].
  destruct (Hch o Ho) as [_ Hnd]. rewrite Hfl in Hnd.
  assert (Hnotin : off ∉ l1 ++ l2).
  { apply NoDup_app in Hnd as (_ & Hd & Hnd2). apply NoDup_cons in Hnd2 as [Hn2 _].
    rewrite elem_of_app. intros [Hx|Hx]; [|done]. by apply (Hd off Hx), elem_of_cons; left. }
  split; rewrite ?HR', ?HU'; [exact (layout_retag B off o true false HL Hoff)|exact HR|exact Hlen'| | | | | | |exact Hi'].
  - intros o' Ho'. split; [by apply Hch'|]. unfold set_list. destruct (Z.eqb_spec o' o) as [->|].
    + apply NoDup_app in Hnd as (Hn1 & Hd & Hn2). apply NoDup_cons in Hn2 as [_ Hn2].
      apply NoDup_app. split_and!; [done| |done]. intros z Hz Hz2. apply (Hd z Hz). set_solver.
    + by apply Hch.
  - intros o' y Ho'. unfold set_list, put. destruct (Z.eqb_spec o' o) as [->|Hno].
    + destruct (Z.eqb_spec y off) as [->|Hn]; [by split; [intros|congruence]|].
      rewrite <- Hmem, Hfl by done. rewrite !elem_of_app, elem_of_cons. intuition congruence.
    + rewrite Hmem by done. destruct (Z.eqb_spec y off) as [->|Hn]; [|reflexivity].
      rewrite Hoff. split; congruence.
  - intros y o' f Hy Hop. unfold put in Hy. unfold set_open in Hop.
    destruct (Z.eqb_spec y off) as [->|Hn]; [done|]. apply Hhdr'; [done|done|]. by apply Hhdr.
  - intros y. unfold set_open, put. destruct (Z.eqb_spec y off) as [->|Hn]; [by exists o|]. apply Hopn.
  - rewrite used_put by done. rewrite Hoff. simpl. lia.
  - intros y o' Hy Ho'. unfold put in *. destruct (Z.eqb_spec y off) as [->|Hn]; [congruence|].
    destruct (Z.eqb_spec (buddy y o') off); [congruence|]. by apply Hco.
Qed.

(** [s_FreeLists[IndexOf(order)] = block->NextFree]. *)
Lemma pop_ok B fl op x s off o l :
  inv B fl op x s -> 5 <= o <= 24 -> fl o = off :: l ->
  let s' := set_head s (IndexOf o) (NextFree (memory s) (s_Region s + off)) in
  list_head s o = s_Region s + off /\
  inv (put B off (Some (o, false))) (set_list fl o l) (set_open op off true) (x + 2 ^ o) s'.
Proof.
  intros HI Ho Hfl s'. pose proof HI as [HL HR Hlen Hch Hmem Hhdr Hopn Hus Hco Hin].
  assert (Hoff : B off = Some (o, true)) by (apply Hmem; [done|]; rewrite Hfl; set_solver).
  destruct (Hch o Ho) as [Hc _]. rewrite Hfl, fmap_cons in Hc. destruct Hc as [Hc1 Hc2].
  split; [exact Hc1|].
  apply (take_inv B fl op x s s' off o [] l); try assumption; try reflexivity.
  - unfold s', set_head. simpl. by rewrite length_insert.
  - intros o' Ho'. unfold s'. rewrite list_head_set by assumption. unfold set_list.
    destruct (Z.eqb_spec o' o) as [->|]; [exact Hc2|]. by apply Hch.
  - intros. assumption.
Qed.

(** *** [RemoveFree] *)

Definition unlinked (s : t F) (b : Z) : t F :=
  let s := with_memory s (set_NextFree (memory s) b 0) in
  with_memory s (set_IsFree (memory s) b 0).

Definition link_after (l : link) (before : list Z) : link :=
  match list.last before with Some p => LinkField p | None => l end.

Lemma RemoveFree_loop_ok l1 fuel s l b l2 h :
  (length l1 < fuel)%nat -> read_link s l = Ok h -> chain (memory s) h (l1 ++ b :: l2) ->
  b ∉ l1 -> b <> 0 -> 0 ∉ l1 ->
  RemoveFree_loop fuel l b s =
    Ok (true, unlinked (write_link s (link_after l l1) (NextFree (memory s) b)) b).
Proof.
  revert fuel l h; induction l1 as [|a l1 IH]; intros fuel l h Hf Hr Hc Hb Hb0 H0;
    (destruct fuel as [|fuel]; [simpl in Hf; lia|]); cbn [RemoveFree_loop]; rewrite Hr; cbn [obind];
    destruct Hc as [-> Hc].
  - replace (b =? 0) with false by lia. by rewrite Z.eqb_refl.
  - rewrite not_elem_of_cons in Hb, H0. destruct Hb as [Hb Hb'], H0 as [H0 H0'].
    replace (a =? 0) with false by lia. replace (a =? b) with false by lia.
    rewrite (IH fuel (LinkField a) (NextFree (memory s) a)); try done; [|simpl in Hf; lia].
    do 3 f_equal. f_equal. unfold link_after. rewrite (last_cons a l1).
    by destruct (list.last l1).
Qed.

(** The list of an order is no longer than the region has slots. *)
Lemma list_length B fl op x s o l1 l2 : inv B fl op x s -> 5 <= o <= 24 -> fl o = l1 ++ l2 ->
  (length l1 < list_fuel)%nat.
Proof.
  intros HI Ho Hfl. destruct (iv_chain _ _ _ _ _ HI o Ho) as [_ Hnd].
  assert (Hlen : (length (fl o) <= Z.to_nat (2 ^ 19))%nat).
  { rewrite <- (length_seqZ 0 (2 ^ 19)).
    rewrite <- (length_fmap (fun off => off / 32) (fl o)).
    apply submseteq_length, NoDup_submseteq.
    - apply NoDup_fmap_2_strong; [|done]. intros y z Hy Hz E.
      destruct (member_block B fl op x s o y HI Ho Hy) as [HBy _].
      destruct (member_block B fl op x s o z HI Ho Hz) as [HBz _].
      destruct (layout_slot B y o true (iv_layout _ _ _ _ _ HI) HBy) as [_ Hy32].
      destruct (layout_slot B z o true (iv_layout _ _ _ _ _ HI) HBz) as [_ Hz32].
      pose proof (Z.div_mod y 32). pose proof (Z.div_mod z 32). lia.
    - intros k (y & -> & Hy)%list_elem_of_fmap. apply elem_of_seqZ.
      destruct (member_block B fl op x s o y HI Ho Hy) as [HBy _].
      destruct (layout_slot B y o true (iv_layout _ _ _ _ _ HI) HBy) as [Hyr _].
      split; [apply Z.div_pos; lia|]. apply Z.div_lt_upper_bound; lia. }
  rewrite Hfl, length_app in Hlen.
  assert (Hfuel : list_fuel = Z.to_nat (2 ^ 19 + 1)) by reflexivity. rewrite Hfuel. lia.
Qed.

(** The bytes of every used block with a valid header, header included, survive. *)
Definition keeps_used (B : part) (op : Z -> bool) (s s' : t F) : Prop :=
  forall off o y, B off = Some (o, false) -> op off = false ->
    s_Region s + off <= y < s_Region s + off + 2 ^ o -> load8 (memory s') y = load8 (memory s) y.

(** Writes inside the headers of blocks that are free or open. *)
Definition header_writes (B : part) (op : Z -> bool) (R : Z) (m m' : mem) : Prop :=
  forall y, (forall off o f, B off = Some (o, f) -> f = true \/ op off = true ->
     y < R + off \/ R + off + 16 <= y) -> load8 m' y = load8 m y.

Lemma header_writes_keep B op s s' :
  layout B -> header_writes B op (s_Region s) (memory s) (memory s') -> keeps_used B op s s'.
Proof.
  intros HL Hw off o y Hoff Hop Hy. apply Hw. intros off' o' f' Hoff' Hf.
  assert (Hne : off <> off').
  { intros <-. rewrite Hoff in Hoff'. injection Hoff' as <- <-. destruct Hf; congruence. }
  destruct (ly_block B HL _ _ _ Hoff) as (Hr & _), (ly_block B HL _ _ _ Hoff') as (Hr' & _).
  pose proof (pow2_le 5 o' ltac:(lia)). pose proof (pow2_le 5 o ltac:(lia)).
  destruct (ly_disj B HL _ _ _ _ _ _ Hoff Hoff' Hne); lia.
Qed.

Lemma header_writes_one B op R m m' off o f :
  B off = Some (o, f) -> f = true \/ op off = true -> only_header m m' (R + off) ->
  header_writes B op R m m'.
Proof.
  intros Hoff Hf Ho y Hy. apply Ho. destruct (Hy _ _ _ Hoff Hf); lia.
Qed.

Lemma header_writes_trans B op R m1 m2 m3 :
  header_writes B op R m1 m2 -> header_writes B op R m2 m3 -> header_writes B op R m1 m3.
Proof. intros H1 H2 y Hy. by rewrite H2, H1. Qed.

Lemma set_NextFree_only m b v : only_header m (set_NextFree m b v) b.
Proof. intros y Hy. unfold set_NextFree. apply load8_store_out. simpl. lia. Qed.

Lemma set_NextFree_tags m b v :
  Magic (set_NextFree m b v) b = Magic m b /\ Order (set_NextFree m b v) b = Order m b /\
  IsFree (set_NextFree m b v) b = IsFree m b.
Proof.
  unfold Magic, Order, IsFree, set_NextFree.
  split_and!; [apply load_store_disj|apply load8_store_out|apply load8_store_out]; lia.
Qed.

Lemma unlinked_only s b : only_header (memory s) (memory (unlinked s b)) b.
Proof.
  intros y Hy. unfold unlinked. cbn [memory with_memory]. unfold set_IsFree.
  rewrite load8_store8_ne by lia. by apply set_NextFree_only.
Qed.

Lemma RemoveFree_ok B fl op x s off o :
  inv B fl op x s -> B off = Some (o, true) ->
  exists l s', RemoveFree (s_Region s + off) o s = Ok (true, s') /\
    inv (put B off (Some (o, false))) (set_list fl o l) (set_open op off true) (x + 2 ^ o) s' /\
    header_writes B op (s_Region s) (memory s) (memory s') /\
    s_Region s' = s_Region s /\ frames s' = frames s /\ s_UsedBytes s' = s_UsedBytes s.
Proof.
  intros HI Hoff. pose proof HI as [HL HR Hlen Hch Hmem Hhdr Hopn Hus Hco Hin].
  set (R := s_Region s) in *.
  destruct (ly_block B HL _ _ _ Hoff) as (Ho & _).
  assert (Hfl : off ∈ fl o) by (by apply Hmem). apply list_elem_of_split in Hfl as (l1 & l2 & Hfl).
  destruct (Hch o Ho) as [Hc Hnd]. rewrite Hfl in Hc, Hnd. rewrite fmap_app, fmap_cons in Hc.
  assert (Hndr : NoDup ((Z.add R <$> l1) ++ R + off :: (Z.add R <$> l2))).
  { rewrite <- fmap_cons, <- fmap_app. apply NoDup_fmap_2; [|done]. intros a b; lia. }
  assert (Hpos : forall y, y ∈ l1 ++ off :: l2 -> 0 <= y).
  { intros y Hy. destruct (member_block B fl op x s o y HI Ho) as [HBy _]; [by rewrite Hfl|].
    destruct (layout_slot B y o true HL HBy). lia. }
  unfold RemoveFree. fold R.
  rewrite (RemoveFree_loop_ok (Z.add R <$> l1) list_fuel s (LinkHead (IndexOf o)) (R + off)
             (Z.add R <$> l2) (list_head s o)); try done.
  2:{ rewrite length_fmap. by eapply list_length. }
  2:{ simpl. by eapply head_ok. }
  2:{ intros Hx. apply NoDup_app in Hndr as (_ & Hd & _). apply (Hd _ Hx). set_solver. }
  2:{ pose proof (Hpos off ltac:(set_solver)). lia. }
  2:{ rewrite elem_of_add. intros Hx. pose proof (Hpos (0 - R) ltac:(set_solver)). lia. }
  set (s1 := write_link s _ _). set (s' := unlinked s1 (R + off)).
  assert (Hs1 : s_Region s1 = R /\ frames s1 = frames s /\ s_UsedBytes s1 = s_UsedBytes s /\
                s_Initialized s1 = true /\ length (s_FreeLists s1) = 20%nat /\
                header_writes B op R (memory s) (memory s1) /\
                (forall y o' f, B y = Some (o', f) -> hdr_ok (memory s) (R + y) o' f -> hdr_ok (memory s1) (R + y) o' f) /\
                forall o', 5 <= o' <= 24 -> chain (memory s1) (list_head s1 o') (Z.add R <$> set_list fl o (l1 ++ l2) o')).
  { unfold s1, link_after. destruct l1 as [|p0 l1'] using rev_ind; [|clear IHl1'].
    - split_and!; try done.
      + simpl. by rewrite length_insert.
      + intros o' Ho'. cbn [write_link list.last fmap list_fmap]. rewrite list_head_set by done. unfold set_list.
        destruct (Z.eqb_spec o' o) as [->|]; [|by apply Hch].
        destruct Hc as [_ Hc]. exact Hc.
    - rewrite fmap_app. change (Z.add R <$> [p0]) with [R + p0]. rewrite last_snoc. cbn [write_link].
      assert (Hp0 : B p0 = Some (o, true)).
      { apply Hmem; [done|]. rewrite Hfl. set_solver. }
      set (m1 := set_NextFree (memory s) (R + p0) _).
      assert (Hm1 : only_header (memory s) m1 (R + p0)) by apply set_NextFree_only.
      assert (Hfar : forall y o' f, B y = Some (o', f) -> y <> p0 -> same_header (memory s) m1 (R + y)).
      { intros y o' f Hy Hne. by eapply (other_header B _ _ R p0 _ _ y). }
      split_and!; try done.
      + by eapply header_writes_one; [exact Hp0|left|].
      + intros y o' f Hy Hok. destruct (Z.eq_dec y p0) as [->|Hne].
        * destruct (set_NextFree_tags (memory s) (R + p0) (NextFree (memory s) (R + off))) as (E1 & E2 & E3).
          unfold hdr_ok in *. cbn [memory with_memory]. fold m1 in E1, E2, E3. by rewrite E1, E2, E3.
        * eapply same_header_ok; [|done]. by eapply Hfar.
      + intros o' Ho'. change (list_head (with_memory s m1) o') with (list_head s o').
        cbn [memory with_memory]. unfold set_list.
        assert (Hnext : forall o1 y, 5 <= o1 <= 24 -> y ∈ fl o1 -> y <> p0 -> NextFree m1 (R + y) = NextFree (memory s) (R + y)).
        { intros o1 y Ho1 Hy Hne. destruct (member_block B fl op x s o1 y HI Ho1 Hy) as [HBy _].
          by apply (same_header_fields _ _ _ (Hfar y _ _ HBy Hne)). }
        destruct (Z.eqb_spec o' o) as [->|Hoo].
        * rewrite <- (app_assoc l1' [p0] l2). rewrite fmap_app. cbn [app]. rewrite fmap_cons.
          rewrite <- app_assoc in Hnd, Hfl. cbn [app] in Hnd, Hfl.
          rewrite fmap_app, <- app_assoc in Hc, Hndr. cbn [app fmap list_fmap] in Hc, Hndr.
          eapply (chain_unlink (memory s) m1 _ _ (R + p0) (R + off)); [exact Hndr| | |exact Hc].
          -- unfold m1, NextFree at 1, set_NextFree. apply load64_store64. apply load64_range.
          -- intros b Hb. rewrite <- fmap_app in Hb. apply elem_of_add in Hb.
             replace b with (R + (b - R)) by lia.
             assert (Hin' : b - R ∈ fl o) by (rewrite Hfl; set_solver).
             apply (Hnext o); [done|done|]. intros E. rewrite E in Hb.
             apply NoDup_app in Hnd as (_ & Hd & Hnd2). apply elem_of_app in Hb as [Hb|Hb].
             ++ apply (Hd _ Hb). set_solver.
             ++ apply NoDup_cons in Hnd2 as [Hn _]. set_solver.
        * destruct (Hch o' Ho') as [Hc' _]. eapply free_chain_ext; [|exact Hc'].
          intros b Hb%elem_of_add. replace b with (R + (b - R)) by lia. apply (Hnext o'); [done|done|].
          intros E. destruct (member_block B fl op x s o' _ HI Ho' Hb) as [HBb _]. rewrite E in HBb. congruence. }
  destruct Hs1 as (E1 & E2 & E3 & E4 & E5 & Hw1 & Hh1 & Hc1).
  assert (Hu : only_header (memory s1) (memory s') (R + off)) by apply unlinked_only.
  exists (l1 ++ l2), s'. split; [done|]. split; [|split_and!; try done].
  - apply (take_inv B fl op x s s' off o l1 l2); try done.
    + intros o' Ho'. change (list_head s' o') with (list_head s1 o'). eapply free_chain_ext; [|by apply Hc1].
      intros b Hb%elem_of_add. fold R in Hb. replace b with (R + (b - R)) by lia.
      assert (Hin' : b - R ∈ fl o' /\ b - R <> off).
      { unfold set_list in Hb. destruct (Z.eqb_spec o' o) as [->|Hoo].
        - split; [rewrite Hfl; set_solver|]. intros E. rewrite E in Hb.
          apply NoDup_app in Hnd as (_ & Hd & Hnd2). apply NoDup_cons in Hnd2 as [Hn _].
          apply elem_of_app in Hb as [Hb|Hb]; [|done]. apply (Hd _ Hb). set_solver.
        - split; [done|]. intros E. destruct (member_block B fl op x s o' _ HI Ho' Hb). congruence. }
      destruct Hin' as [Hin' Hne]. destruct (member_block B fl op x s o' _ HI Ho' Hin') as [HBb _].
      apply (same_header_fields (memory s1) (memory s')). by eapply (other_header B _ _ R off _ _ (b - R)).
    + intros y o' f Hy Hne Hok. eapply same_header_ok; [|by apply Hh1].
      by eapply (other_header B _ _ R off _ _ y).
  - eapply header_writes_trans; [exact Hw1|]. by eapply header_writes_one; [exact Hoff|left|].
Qed.

(** ** Steps of the partition that touch no memory *)

Lemma inv_ext_open B fl op op' x s : (forall y, op y = op' y) -> inv B fl op x s -> inv B fl op' x s.
Proof.
  intros E [HL HR Hlen Hch Hmem Hhdr Hopn Hus Hco Hin]. split; try done.
  - intros y o f Hy Hop. apply Hhdr; [done|]. by rewrite E.
  - intros y Hop. apply Hopn. by rewrite E.
Qed.

(** The only block whose header is open. *)
Definition only (off : Z) : Z -> bool := fun y => y =? off.
Definition none : Z -> bool := fun _ => false.

Lemma buddy_low off o : 0 <= o -> off mod 2 ^ (o + 1) = 0 -> buddy off o = off + 2 ^ o.
Proof.
  intros Ho Hm. unfold buddy. replace (Z.testbit off o) with false; [done|].
  rewrite <- (Z.mod_pow2_bits_low off (o + 1)) by lia. by rewrite Hm, Z.bits_0.
Qed.

Lemma ghost_split B fl h x s o :
  inv B fl (only h) x s -> B h = Some (o + 1, false) -> 5 <= o ->
  B (h + 2 ^ o) = None /\
  inv (put (put B h (Some (o, false))) (h + 2 ^ o) (Some (o, false))) fl
      (set_open (only h) (h + 2 ^ o) true) x s.
Proof.
  intros HI Hh Ho. pose proof HI as [HL HR Hlen Hch Hmem Hhdr Hopn Hus Hco Hin].
  destruct (layout_split B h o false false false HL Hh Ho) as [HL' Hnone].
  destruct (ly_block B HL _ _ _ Hh) as (Hr & Hm & H0 & He). rewrite pow2_succ in He by lia.
  pose proof (pow2_pos o ltac:(lia)) as Hp. split; [done|].
  assert (Hfree : forall y o', put (put B h (Some (o, false))) (h + 2 ^ o) (Some (o, false)) y = Some (o', true)
    <-> B y = Some (o', true)).
  { intros y o'. unfold put. repeat case_test; subst; rewrite ?Hh, ?Hnone; split; congruence. }
  split; try done.
  - intros o' y Ho'. rewrite Hfree. by apply Hmem.
  - intros y o' f Hy Hop. unfold set_open, only in Hop. unfold put in Hy.
    destruct (Z.eqb_spec y (h + 2 ^ o)); [done|]. destruct (Z.eqb_spec y h); [done|].
    apply Hhdr; [done|]. unfold only. lia.
  - intros y. unfold set_open, only, put. repeat case_test; intros; try done; by exists o.
  - destruct (layout_slot B h _ _ HL Hh) as [Hs1 Hs2].
    destruct (layout_slot _ (h + 2 ^ o) o false HL') as [Hs3 Hs4]; [by rewrite put_eq|].
    rewrite !used_put by done. rewrite put_ne, Hh, Hnone by lia. simpl.
    rewrite pow2_succ by lia. lia.
  - intros y o' Hy Ho' Hb. rewrite Hfree in Hy, Hb. by apply (Hco y o').
Qed.

Lemma ghost_merge B fl op x s lo o :
  inv B fl op x s -> B lo = Some (o, false) -> B (lo + 2 ^ o) = Some (o, false) ->
  lo mod 2 ^ (o + 1) = 0 -> o < 24 ->
  (forall y, op y = true -> y = lo \/ y = lo + 2 ^ o) ->
  inv (put (put B (lo + 2 ^ o) None) lo (Some (o + 1, false))) fl (only lo) x s.
Proof.
  intros HI Hlo Hhi Hal Ho Hop. pose proof HI as [HL HR Hlen Hch Hmem Hhdr Hopn Hus Hco Hin].
  pose proof (layout_merge B lo o false false false HL Hlo Hhi Hal Ho) as HL'.
  destruct (ly_block B HL _ _ _ Hlo) as (Hr & _). pose proof (pow2_pos o ltac:(lia)) as Hp.
  assert (Hfree : forall y o', put (put B (lo + 2 ^ o) None) lo (Some (o + 1, false)) y = Some (o', true)
    <-> B y = Some (o', true)).
  { intros y o'. unfold put. repeat case_test; subst; rewrite ?Hlo, ?Hhi; split; congruence. }
  split; try done.
  - intros o' y Ho'. rewrite Hfree. by apply Hmem.
  - intros y o' f Hy Hon. unfold only in Hon. unfold put in Hy. rewrite Hon in Hy.
    destruct (Z.eqb_spec y (lo + 2 ^ o)); [done|]. apply Hhdr; [done|].
    destruct (op y) eqn:E; [|done]. destruct (Hop y E); lia.
  - intros y. unfold only, put. case_test; [|done]. intros _. by exists (o + 1).
  - destruct (layout_slot B _ _ _ HL Hlo) as [Hs1 Hs2]. destruct (layout_slot B _ _ _ HL Hhi) as [Hs3 Hs4].
    rewrite !used_put by done. rewrite put_ne, Hlo, Hhi by lia. simpl.
    rewrite pow2_succ by lia. lia.
  - intros y o' Hy Ho' Hb. rewrite Hfree in Hy, Hb. by apply (Hco y o').
Qed.

(** A used block may be opened; the byte counter moves against [extra]. *)
Lemma inv_open B fl x s off o :
  inv B fl none x s -> B off = Some (o, false) -> inv B fl (only off) x s.
Proof.
  intros [HL HR Hlen Hch Hmem Hhdr Hopn Hus Hco Hin] Hoff. split; try done.
  - intros y o' f Hy _. by apply Hhdr.
  - intros y. unfold only. case_test; [|done]. subst. by exists o.
Qed.

Lemma inv_used B fl op x s n :
  inv B fl op x s -> inv B fl op (x + s_UsedBytes s - n) (with_used s n).
Proof.
  intros [HL HR Hlen Hch Hmem Hhdr Hopn Hus Hco Hin]. split; try done. simpl. lia.
Qed.

(** Writing the header of an open used block closes it. *)
Lemma close_used B fl x s off o :
  inv B fl (only off) x s -> B off = Some (o, false) ->
  let m' := write_header (memory s) (s_Region s + off) o 0 0 in
  inv B fl none x (with_memory s m') /\
  header_writes B (only off) (s_Region s) (memory s) m'.
Proof.
  intros HI Hoff m'. pose proof HI as [HL HR Hlen Hch Hmem Hhdr Hopn Hus Hco Hin].
  destruct (ly_block B HL _ _ _ Hoff) as (Ho & _).
  assert (Hout : only_header (memory s) m' (s_Region s + off)) by apply write_header_only.
  destruct (write_header_fields (memory s) (s_Region s + off) o 0 0) as (W1 & W2 & W3 & W4);
    [lia|lia|split; lia|]. fold m' in W1, W2, W3, W4.
  split.
  2:{ eapply header_writes_one; [exact Hoff|right; unfold only; lia|done]. }
  split; try done; cbn [memory s_Region s_FreeLists with_memory].
  - intros o' Ho'. destruct (Hch o' Ho') as [Hc Hnd]. split; [|done].
    change (list_head (with_memory s m') o') with (list_head s o').
    eapply free_chain_ext; [|exact Hc]. intros b Hb%elem_of_add.
    destruct (member_block B fl (only off) x s o' _ HI Ho' Hb) as [HBb _].
    replace b with (s_Region s + (b - s_Region s)) by lia.
    apply (same_header_fields (memory s) m'). eapply (other_header B _ _ _ off); try done.
    intros E. rewrite E in HBb. congruence.
  - intros y o' f Hy _. destruct (Z.eq_dec y off) as [->|Hne].
    + rewrite Hoff in Hy. injection Hy as <- <-. by split_and!.
    + eapply same_header_ok; [by eapply (other_header B _ _ _ off _ _ y)|].
      apply Hhdr; [done|]. unfold only. lia.
Qed.

(** ** [Allocate] *)

Lemma heap_keeps_trans B B1 op op1 s s1 s2 :
  s_Region s1 = s_Region s ->
  (forall y o, B y = Some (o, false) -> op y = false -> B1 y = Some (o, false) /\ op1 y = false) ->
  keeps_used B op s s1 -> keeps_used B1 op1 s1 s2 -> keeps_used B op s s2.
Proof.
  intros HR Hsub H1 H2 y o a Hy Hop Ha. destruct (Hsub y o Hy Hop) as [Hy1 Hop1].
  rewrite (H2 y o) by (rewrite ?HR; done). by apply (H1 y o).
Qed.

Lemma OrderFor_loop_ok n order bytes :
  5 <= order -> order + Z.of_nat n = 24 -> 0 <= bytes <= 2 ^ 24 ->
  (order = 5 \/ 2 ^ (order - 1) < bytes) ->
  let r := OrderFor_loop n order bytes in
  order <= r <= 24 /\ bytes <= 2 ^ r /\ (r = 5 \/ 2 ^ (r - 1) < bytes).
Proof.
  revert order; induction n as [|n IH]; intros order Ho Hn Hb Hlow; cbn [OrderFor_loop].
  - replace order with 24 in * by lia. split_and!; lia.
  - rewrite shift64 by lia. destruct (Z.ltb_spec (2 ^ order) bytes) as [Hlt|Hge].
    + rewrite wrap_small by (unfold is_word; lia).
      destruct (IH (order + 1)) as (H1 & H2 & H3); try lia.
      { right. by replace (order + 1 - 1) with order by lia. }
    + split_and!; try done; lia.
Qed.

Lemma OrderFor_ok bytes : 0 <= bytes <= 2 ^ 24 ->
  5 <= OrderFor bytes <= 24 /\ bytes <= 2 ^ OrderFor bytes /\
  (OrderFor bytes = 5 \/ 2 ^ (OrderFor bytes - 1) < bytes).
Proof. intros Hb. by apply OrderFor_loop_ok; auto. Qed.

Lemma list_head_zero B fl op x s o : inv B fl op x s -> 5 <= o <= 24 ->
  (list_head s o =? 0) = bool_decide (fl o = []).
Proof.
  intros HI Ho. destruct (iv_chain _ _ _ _ _ HI o Ho) as [Hc _].
  destruct (fl o) as [|off l] eqn:Ef; simpl in Hc.
  - by rewrite Hc.
  - destruct Hc as [-> _]. rewrite bool_decide_false by done.
    destruct (member_block B fl op x s o off HI Ho) as [Hoff _]; [rewrite Ef; set_solver|].
    destruct (layout_slot B off o true (iv_layout _ _ _ _ _ HI) Hoff).
    destruct (iv_region _ _ _ _ _ HI). lia.
Qed.

Lemma Find_loop_ok B fl op x s n order :
  inv B fl op x s -> 5 <= order -> order + Z.of_nat n = 25 ->
  exists r, Find_loop n order s = Ok r /\ order <= r <= 25 /\ (r <= 24 -> fl r <> []) /\
    forall o, order <= o < r -> fl o = [].
Proof.
  intros HI. revert order; induction n as [|n IH]; intros order Ho Hn; cbn [Find_loop].
  - exists order. split; [done|]. split_and!; try lia.
  - rewrite (head_ok B fl op x) by (done || lia). cbn [obind].
    rewrite (list_head_zero B fl op x) by (done || lia). case_bool_decide as E.
    + rewrite wrap_small by (unfold is_word; lia).
      destruct (IH (order + 1)) as (r & -> & Hr1 & Hr2 & Hr3); try lia.
      exists r. split; [done|]. split_and!; try done; try lia. intros o Hoo.
      destruct (Z.eq_dec o order) as [->|]; [done|]. apply Hr3. lia.
    + exists order. split; [done|]. split_and!; try done; try lia.
Qed.

(** Used blocks other than [h] are the same in both partitions. *)
Definition same_used (B B' : part) (h : Z) : Prop :=
  forall y o, y <> h -> B y = Some (o, false) <-> B' y = Some (o, false).

Lemma Split_loop_ok n B fl h x s wanted :
  inv B fl (only h) x s -> B h = Some (wanted + Z.of_nat n, false) -> 5 <= wanted ->
  exists B' fl' s', Split_loop n (wanted + Z.of_nat n) (s_Region s + h) s = Ok s' /\
    inv B' fl' (only h) (x + 2 ^ wanted - 2 ^ (wanted + Z.of_nat n)) s' /\
    B' h = Some (wanted, false) /\ same_used B B' h /\ keeps_used B (only h) s s' /\
    s_Region s' = s_Region s /\ frames s' = frames s /\ s_UsedBytes s' = s_UsedBytes s.
Proof.
  revert B fl x s; induction n as [|n IH]; intros B fl x s HI Hh Hw.
  - rewrite Z.add_0_r in *. exists B, fl, s. cbn [Split_loop]. split; [done|].
    split_and!; try done. by replace (x + 2 ^ wanted - 2 ^ wanted) with x by lia.
  - pose proof (iv_layout _ _ _ _ _ HI) as HL.
    destruct (ly_block B HL _ _ _ Hh) as (Hr & Hm & H0 & He). set (o := wanted + Z.of_nat n).
    replace (wanted + Z.of_nat (S n)) with (o + 1) in * by lia.
    pose proof (pow2_pos o ltac:(lia)) as Hp. rewrite pow2_succ in He by lia.
    destruct (ghost_split B fl h x s o HI Hh ltac:(lia)) as [Hnone HI1].
    set (B1 := put (put B h (Some (o, false))) (h + 2 ^ o) (Some (o, false))) in *.
    cbn [Split_loop]. rewrite (wrap_small 8) by (unfold is_word; lia).
    replace (o + 1 - 1) with o by lia. rewrite (OffsetOf_eq B fl (only h) x), shift64 by (done || lia).
    rewrite (wrap_small 64 (h + 2 ^ o)) by (unfold is_word; lia).
    rewrite (BlockAt_eq B fl (only h) x) by (done || lia).
    assert (Hbud : buddy (h + 2 ^ o) o = h).
    { rewrite <- (buddy_low h o) by (done || lia). apply buddy_buddy. lia. }
    destruct (PushFree_ok B1 fl _ x s (h + 2 ^ o) o HI1) as (s1 & -> & HI2 & Ho2 & HR2 & HF2 & HU2).
    { unfold B1. by rewrite put_eq. }
    { unfold set_open. by rewrite Z.eqb_refl. }
    { intros _. rewrite Hbud. unfold B1. rewrite put_ne, put_eq by lia. congruence. }
    cbn [obind]. set (B2 := put B1 (h + 2 ^ o) (Some (o, true))) in *.
    apply (inv_ext_open _ _ _ (only h)) in HI2.
    2:{ intros y. unfold set_open, only. repeat case_test; lia. }
    assert (Hh2 : B2 h = Some (o, false)).
    { unfold B2, B1. rewrite put_ne, put_ne, put_eq by lia. done. }
    destruct (IH _ _ _ s1 HI2 Hh2 Hw) as (B' & fl' & s' & HS & HI' & Hh' & Hsu & Hk & HR' & HF' & HU').
    rewrite HR2 in HS. exists B', fl', s'. split; [exact HS|].
    assert (Hsu12 : same_used B B2 h).
    { intros y o' Hy. unfold B2, B1, put. repeat case_test; subst; rewrite ?Hnone; split; congruence. }
    split_and!; try congruence.
    + fold o in HI'. rewrite pow2_succ by lia.
      by replace (x + 2 ^ wanted - 2 * 2 ^ o) with (x - 2 ^ o + 2 ^ wanted - 2 ^ o) by lia.
    + intros y o' Hy. rewrite (Hsu12 y o' Hy). by apply Hsu.
    + apply (heap_keeps_trans B B2 (only h) (only h) s s1 s'); [done| | |exact Hk].
      * intros y o' Hy Hop. split; [|done]. apply Hsu12; [unfold only in Hop; lia|done].
      * intros y o' a Hy Hop Ha. apply Ho2. unfold only in Hop.
        destruct (ly_disj B HL _ _ _ _ _ _ Hy Hh ltac:(lia)); rewrite ?pow2_succ in * by lia;
          pose proof (pow2_le 5 o ltac:(lia)); lia.
Qed.

(** What [Allocate] promises when it needs [needed] bytes, header included. *)
Record allocated (B : part) (s : t F) (needed off : Z) (B' : part) (s' : t F) : Prop := {
  al_block : B' off = Some (OrderFor needed, false);
  al_fits : needed <= 2 ^ OrderFor needed;
  al_fresh : forall o, B off <> Some (o, false);
  al_others : same_used B B' off;
  al_memory : keeps_used B none s s';
  al_used : s_UsedBytes s' = s_UsedBytes s + 2 ^ OrderFor needed;
  al_region : s_Region s' = s_Region s;
  al_frames : frames s' = frames s }.

Lemma heap_Allocate_ok B fl s size needed :
  inv B fl none 0 s -> 0 < size -> needed = u64 (size + 16) ->
  exists r s', Allocate size s = Ok (r, s') /\
    ((r = 0 /\ s' = s /\
      (2 ^ 24 < needed \/ forall off o, B off = Some (o, true) -> o < OrderFor needed)) \/
     exists off B' fl', r = s_Region s + off + 16 /\ inv B' fl' none 0 s' /\
       allocated B s needed off B' s').
Proof.
  intros HI Hs ->. pose proof (iv_layout _ _ _ _ _ HI) as HL. unfold Allocate.
  replace (size =? 0) with false by lia. rewrite (iv_init _ _ _ _ _ HI). cbn [negb obind].
  unfold HEADER. set (needed := u64 (size + 16)) in *.
  assert (Hn0 : 0 <= needed) by (apply wrap_range; lia).
  change HEAP_SIZE with (2 ^ 24). destruct (Z.ltb_spec (2 ^ 24) needed) as [Hbig|Hfit].
  { exists 0, s. split; [done|]. left. auto. }
  destruct (OrderFor_ok needed) as (Hw & Hfits & _); [lia|]. set (w := OrderFor needed) in *.
  change (MAX_ORDER + 1) with 25.
  destruct (Find_loop_ok B fl none 0 s (Z.to_nat (25 - w)) w HI) as (r & -> & Hr & Hne & Hempty); try lia.
  cbn [obind]. change MAX_ORDER with 24. destruct (Z.ltb_spec 24 r) as [Hover|Hr24].
  { exists 0, s. split; [done|]. left. split_and!; try done. right. intros off o Hoff.
    destruct (ly_block B HL _ _ _ Hoff) as (Ho & _). destruct (Z_lt_dec o w); [done|].
    pose proof (Hempty o ltac:(lia)) as Ef. apply (iv_members _ _ _ _ _ HI) in Hoff; [|done].
    rewrite Ef in Hoff. by apply elem_of_nil in Hoff. }
  rewrite (head_ok B fl none 0) by (done || lia). cbn [obind].
  destruct (fl r) as [|off l] eqn:Ef; [by destruct (Hne ltac:(lia))|].
  destruct (pop_ok B fl none 0 s off r l HI ltac:(lia) Ef) as [Hhd HI1]. rewrite Hhd.
  assert (Hoff : B off = Some (r, true)).
  { apply (iv_members _ _ _ _ _ HI); [lia|]. rewrite Ef. set_solver. }
  set (B1 := put B off (Some (r, false))) in *. set (s1 := set_head s _ _) in *.
  apply (inv_ext_open _ _ _ (only off)) in HI1; [|intros y; unfold set_open, only, none; by case_test].
  destruct (Split_loop_ok (Z.to_nat (r - w)) B1 _ off _ s1 w HI1)
    as (B2 & fl2 & s2 & HS & HI2 & Hoff2 & Hsu & Hk & HR2 & HF2 & HU2).
  { unfold B1. rewrite put_eq. do 2 f_equal. lia. }
  { lia. }
  change (s_Region s1) with (s_Region s) in *.
  replace (w + Z.of_nat (Z.to_nat (r - w))) with r in HS, HI2 by lia. rewrite HS. cbn [obind].
  destruct (close_used B2 fl2 _ s2 off w HI2 Hoff2) as [HI3 Hw3]. rewrite HR2 in HI3, Hw3.
  fold (write_header (memory s2) (s_Region s + off) w 0 0).
  set (m3 := write_header _ _ _ _ _) in *.
  apply (inv_used _ _ _ _ _ (s_UsedBytes s2 +64 (1 <<64 w))) in HI3.
  rewrite shift64 in * by lia.
  assert (Hub : s_UsedBytes s2 +64 2 ^ w = s_UsedBytes s + 2 ^ w).
  { rewrite HU2. change (s_UsedBytes s1) with (s_UsedBytes s).
    pose proof (iv_used _ _ _ _ _ HI). pose proof (used_bounds B HL). pose proof (pow2_le w 24 ltac:(lia)).
    apply wrap_small. pose proof (pow2_pos w ltac:(lia)). unfold is_word. lia. }
  rewrite Hub in *.
  assert (Hreg : s_Region s + off +64 16 = s_Region s + off + 16).
  { destruct (iv_region _ _ _ _ _ HI) as (? & ? & _). destruct (ly_block B HL _ _ _ Hoff) as (? & _ & ? & ?).
    pose proof (pow2_le 5 r ltac:(lia)). apply wrap_small. unfold is_word. lia. }
  rewrite Hreg. eexists _, _. split; [done|]. right. exists off, B2, fl2. split; [done|].
  assert (Hsame : same_used B B2 off).
  { intros y o Hy. rewrite <- (Hsu y o Hy). unfold B1. by rewrite put_ne. }
  split.
  - replace 0 with (0 + 2 ^ r + 2 ^ w - 2 ^ r +
       s_UsedBytes (with_memory s2 m3) - (s_UsedBytes s + 2 ^ w)) at 1; [exact HI3|].
    cbn [s_UsedBytes with_memory]. rewrite HU2. change (s_UsedBytes s1) with (s_UsedBytes s).
    lia.
  - split; try done.
    + intros o. congruence.
    + assert (Hk2 : keeps_used B1 (only off) s1 (with_memory s2 m3)).
      { apply (heap_keeps_trans B1 B2 (only off) (only off) s1 s2); [done| |exact Hk|].
        - intros y o Hy Hop. split; [|done]. apply Hsu; [unfold only in Hop; lia|done].
        - apply header_writes_keep; [apply HI2|]. by rewrite HR2. }
      intros y o a Hy _ Ha. apply (Hk2 y o a); [|unfold only|exact Ha].
      * unfold B1. rewrite put_ne; [done|]. congruence.
      * apply Z.eqb_neq. congruence.
Qed.

(** ** [Free] *)

(** Used blocks except [off] survive; what is used afterwards is [off'] or was used. *)
Definition frees (B B' : part) (off off' : Z) : Prop :=
  (forall y o, y <> off -> B y = Some (o, false) -> y <> off' /\ B' y = Some (o, false)) /\
  (forall y o, y <> off' -> B' y = Some (o, false) -> y <> off /\ B y = Some (o, false)).

Lemma frees_refl B off : frees B B off off.
Proof. split; intros; by split. Qed.

Lemma Merge_loop_ok n B fl off x s o :
  inv B fl (only off) x s -> B off = Some (o, false) -> o + Z.of_nat n = 24 ->
  exists off' o' s' B' fl', Merge_loop n off o s = Ok (off', o', s') /\
    inv B' fl' (only off') (x + 2 ^ o' - 2 ^ o) s' /\ B' off' = Some (o', false) /\
    (o' < 24 -> B' (buddy off' o') <> Some (o', true)) /\
    frees B B' off off' /\ keeps_used B (only off) s s' /\
    s_Region s' = s_Region s /\ frames s' = frames s /\ s_UsedBytes s' = s_UsedBytes s.
Proof.
  revert B fl off x s o; induction n as [|n IH]; intros B fl off x s o HI Hoff Hn;
    pose proof (iv_layout _ _ _ _ _ HI) as HL; destruct (ly_block B HL _ _ _ Hoff) as (Ho & Hm & _).
  all: assert (Hstop : (o < 24 -> B (buddy off o) <> Some (o, true)) ->
    exists off' o' s' B' fl', Ok (off, o, s) = Ok (off', o', s') /\
    inv B' fl' (only off') (x + 2 ^ o' - 2 ^ o) s' /\ B' off' = Some (o', false) /\
    (o' < 24 -> B' (buddy off' o') <> Some (o', true)) /\
    frees B B' off off' /\ keeps_used B (only off) s s' /\
    s_Region s' = s_Region s /\ frames s' = frames s /\ s_UsedBytes s' = s_UsedBytes s)
    by (intros Hb; exists off, o, s, B, fl; replace (x + 2 ^ o - 2 ^ o) with x by lia;
        split_and!; try done; apply frees_refl).
  { apply Hstop. lia. }
  destruct (layout_buddy B off o false HL Hoff ltac:(lia)) as (ob & fb & Hb & Hob).
  cbn [Merge_loop]. rewrite lxor_buddy by lia. set (q := buddy off o) in *.
  destruct (layout_slot B q ob fb HL Hb) as [Hq1 Hq2].
  rewrite (BlockAt_eq B fl (only off) x) by done.
  pose proof (pow2_pos o ltac:(lia)) as Hp.
  assert (Hqo : q <> off) by (unfold q, buddy; destruct (Z.testbit off o); lia).
  destruct (iv_header _ _ _ _ _ HI q ob fb Hb) as (HM & HO & HF); [unfold only; lia|].
  rewrite HM, HO, HF, Z.eqb_refl. cbn [negb orb].
  destruct (bool_decide (fb = true /\ ob = o)) eqn:Eb; [apply bool_decide_eq_true in Eb as [-> ->]
                                                       |apply bool_decide_eq_false in Eb].
  2:{ replace ((if fb then 1 else 0) =? 0) with (negb fb) by (by destruct fb).
      destruct fb; cbn [negb orb]; [|apply Hstop; congruence].
      replace (ob =? o) with false by (symmetry; apply Z.eqb_neq; tauto).
      apply Hstop. intros _ E. rewrite Hb in E. injection E as ->. tauto. }
  rewrite Z.eqb_refl. cbn [negb orb Z.eqb].
  destruct (RemoveFree_ok B fl (only off) x s q o HI Hb) as (l & s1 & -> & HI1 & Hw1 & HR1 & HF1 & HU1).
  cbn [obind negb]. rewrite (wrap_small 8) by (unfold is_word; lia).
  set (B1 := put B q (Some (o, false))) in *. set (lo := if off <? q then off else q).
  assert (Hoff1 : B1 off = Some (o, false)) by (unfold B1; by rewrite put_ne).
  assert (Hq : B1 q = Some (o, false)) by (unfold B1; by rewrite put_eq).
  assert (Hlo : lo mod 2 ^ (o + 1) = 0 /\ B1 lo = Some (o, false) /\ B1 (lo + 2 ^ o) = Some (o, false) /\
                ((lo = off /\ lo + 2 ^ o = q) \/ (lo = q /\ lo + 2 ^ o = off))).
  { unfold lo. destruct (buddy_cases off o ltac:(lia) Hm) as [[Hal Hbd]|[Hal Hbd]]; fold q in Hal, Hbd.
    - replace (off <? q) with true by lia. rewrite <- Hbd. split_and!; try done. left. lia.
    - replace (off <? q) with false by lia. replace (q + 2 ^ o) with off by lia. split_and!; try done. right. lia. }
  destruct Hlo as (Hal & Hlo1 & Hhi1 & Hcases).
  assert (HI2 := ghost_merge B1 _ _ _ s1 lo o HI1 Hlo1 Hhi1 Hal ltac:(lia)).
  destruct (IH (put (put B1 (lo + 2 ^ o) None) lo (Some (o + 1, false))) (set_list fl o l) lo (x + 2 ^ o) s1 (o + 1))
    as (off' & o' & s' & B' & fl' & HMg & HI' & Hoff' & Hbud' & Hfr & Hk & HR' & HF' & HU').
  { apply HI2. intros y. unfold set_open, only. repeat case_test; try done; lia. }
  { by rewrite put_eq. }
  { lia. }
  fold lo. rewrite HMg. exists off', o', s', B', fl'. split; [done|].
  assert (Hfr1 : forall y o1, y <> off -> B y = Some (o1, false) ->
    y <> lo /\ put (put B1 (lo + 2 ^ o) None) lo (Some (o + 1, false)) y = Some (o1, false)).
  { intros y o1 Hy HBy. assert (y <> q) by congruence. split; [lia|].
    unfold B1. by rewrite !put_ne by lia. }
  split_and!; try congruence.
  - rewrite pow2_succ in HI' by lia.
    by replace (x + 2 ^ o' - 2 ^ o) with (x + 2 ^ o + 2 ^ o' - 2 * 2 ^ o) by lia.
  - exact Hbud'.
  - destruct Hfr as [Hf1 Hf2]. split.
    + intros y o1 Hy HBy. destruct (Hfr1 y o1 Hy HBy) as [Hylo HB2]. by apply Hf1.
    + intros y o1 Hy HBy. destruct (Hf2 y o1 Hy HBy) as [Hylo HB2].
      unfold put in HB2. replace (y =? lo) with false in HB2 by lia.
      destruct (Z.eqb_spec y (lo + 2 ^ o)); [done|]. unfold B1, put in HB2.
      replace (y =? q) with false in HB2 by lia. split; [lia|done].
  - eapply (heap_keeps_trans B _ (only off) (only lo) s s1 s'); [done| | |exact Hk].
    + intros y o1 HBy Hop. unfold only in *. destruct (Hfr1 y o1 ltac:(lia) HBy). split; [done|lia].
    + apply header_writes_keep; done.
Qed.

(** What [Free] promises for the used block at [off]. *)
Record freed (B : part) (s : t F) (off o : Z) (B' : part) (s' : t F) : Prop := {
  fr_gone : forall o', B' off <> Some (o', false);
  fr_others : forall y o', y <> off -> B y = Some (o', false) <-> B' y = Some (o', false);
  fr_memory : forall y o' a, y <> off -> B y = Some (o', false) ->
    s_Region s + y <= a < s_Region s + y + 2 ^ o' -> load8 (memory s') a = load8 (memory s) a;
  fr_used : s_UsedBytes s' = s_UsedBytes s - 2 ^ o;
  fr_region : s_Region s' = s_Region s;
  fr_frames : frames s' = frames s }.

Lemma weight_le_used B off o : layout B -> B off = Some (o, false) -> 2 ^ o <= used B.
Proof.
  intros HL Hoff. destruct (layout_slot B off o false HL Hoff) as [H1 H2].
  pose proof (used_put B off None H1 H2) as E. rewrite Hoff in E. simpl in E.
  pose proof (used_nonneg (put B off None)). lia.
Qed.

Lemma heap_Free_ok B fl s off o :
  inv B fl none 0 s -> B off = Some (o, false) ->
  exists s' B' fl', Free (s_Region s + off + 16) s = Ok s' /\ inv B' fl' none 0 s' /\
    freed B s off o B' s'.
Proof.
  intros HI Hoff. pose proof HI as [HL HR Hlen Hch Hmem Hhdr Hopn Hus Hco Hin].
  destruct (ly_block B HL _ _ _ Hoff) as (Ho & Hm & H0 & He).
  destruct (Hhdr off o false Hoff eq_refl) as (HM & HO & HF).
  pose proof (pow2_le 5 o ltac:(lia)). unfold Free, HEADER.
  replace (s_Region s + off + 16 =? 0) with false by lia.
  rewrite (wrap_small 64 (s_Region s + off + 16 - 16)) by (unfold is_word; lia).
  replace (s_Region s + off + 16 - 16) with (s_Region s + off) by lia.
  rewrite HM, HF, HO, !Z.eqb_refl, !ASSERT_true. cbn [obind negb orb].
  pose proof (weight_le_used B off o HL Hoff) as Hwu. pose proof (used_bounds B HL).
  rewrite shift64 by lia. rewrite (wrap_small 64 (s_UsedBytes s - 2 ^ o)) by (unfold is_word; lia).
  assert (HI1 := inv_used B fl (only off) 0 s (s_UsedBytes s - 2 ^ o) (inv_open B fl 0 s off o HI Hoff)).
  set (s1 := with_used s (s_UsedBytes s - 2 ^ o)) in *.
  change (OffsetOf s1 (s_Region s + off)) with (OffsetOf s (s_Region s + off)).
  rewrite (OffsetOf_eq B fl none 0) by (done || lia).
  change MAX_ORDER with 24.
  destruct (Merge_loop_ok (Z.to_nat (24 - o)) B fl off _ s1 o HI1 Hoff)
    as (off' & o' & s2 & B2 & fl2 & -> & HI2 & Hoff2 & Hbud & [Hf1 Hf2] & Hk & HR2 & HF2 & HU2); [lia|].
  cbn [obind]. destruct (ly_block B2 (iv_layout _ _ _ _ _ HI2) _ _ _ Hoff2) as (Ho' & _ & H0' & He').
  pose proof (pow2_pos o' ltac:(lia)).
  rewrite (BlockAt_eq B2 fl2 (only off') _ s2) by (exact HI2 || lia).
  destruct (PushFree_ok B2 fl2 (only off') _ s2 off' o' HI2 Hoff2) as (s3 & -> & HI3 & Ho3 & HR3 & HF3 & HU3);
    [unfold only; lia|exact Hbud|].
  exists s3. eexists _, _. split; [done|].
  assert (E0 : 0 + s_UsedBytes s - (s_UsedBytes s - 2 ^ o) + 2 ^ o' - 2 ^ o - 2 ^ o' = 0) by lia.
  rewrite E0 in HI3. split.
  { eapply inv_ext_open; [|exact HI3]. intros y. unfold set_open, only, none. by case_test. }
  split.
  - intros o1. unfold put. destruct (Z.eqb_spec off off') as [->|Hne]; [congruence|]. intros Hb.
    destruct (Hf2 off o1 Hne Hb). done.
  - intros y o1 Hy. unfold put. split.
    + intros HBy. destruct (Hf1 y o1 Hy HBy). by replace (y =? off') with false by lia.
    + destruct (Z.eqb_spec y off') as [->|Hne]; [congruence|]. intros Hb. by destruct (Hf2 y o1 Hne Hb).
  - intros y o1 a Hy HBy Ha. destruct (Hf1 y o1 Hy HBy) as [Hne HB2].
    change (s_Region s) with (s_Region s1) in Ha. change (memory s) with (memory s1).
    rewrite Ho3; [apply (Hk y o1); [done|unfold only; lia|done]|]. rewrite HR2.
    pose proof (pow2_le 5 o' ltac:(lia)).
    destruct (ly_disj B2 (iv_layout _ _ _ _ _ HI2) _ _ _ _ _ _ HB2 Hoff2 Hne); lia.
  - rewrite HU3, HU2. done.
  - by rewrite HR3, HR2.
  - by rewrite HF3, HF2.
Qed.

(** ** [Initialize] *)

Definition whole (f : bool) : part := put (fun _ => None) 0 (Some (24, f)).

Lemma whole_layout f : layout (whole f).
Proof.
  assert (H24 : forall y o g, whole f y = Some (o, g) -> y = 0 /\ o = 24 /\ g = f).
  { intros y o g. unfold whole, put. case_test; [|done]. by intros [= <- <-]. }
  split.
  - intros y o g Hy. destruct (H24 _ _ _ Hy) as (-> & -> & _). done.
  - intros y Hy. exists 0, 24, f. done.
  - intros y1 o1 g1 y2 o2 g2 H1 H2. destruct (H24 _ _ _ H1) as (-> & _), (H24 _ _ _ H2) as (-> & _). done.
Qed.

Lemma used_none : used (fun _ => None) = 0.
Proof.
  rewrite used_eq. unfold used_def. generalize block_slots as n.
  induction n as [|n IH]; [done|]. cbn [sumZ]. rewrite IH. done.
Qed.

Lemma used_whole : used (whole false) = 2 ^ 24.
Proof. unfold whole. rewrite used_put by done. rewrite used_none. done. Qed.

Lemma fresh_region R m f :
  0 < R -> R + 2 ^ 24 <= 2 ^ 64 -> R mod 4096 = 0 ->
  inv (whole false) (fun _ => []) (only 0) (2 ^ 24)
    {| memory := m; frames := f; s_Region := R; s_FreeLists := replicate 20 0;
       s_UsedBytes := 0; s_Initialized := true |}.
Proof.
  intros H0 H1 H2. split; try done.
  - apply whole_layout.
  - intros o Ho. split; [|by constructor]. unfold list_head. cbn [s_FreeLists].
    rewrite lookup_total_replicate_2; [done|lia].
  - intros o off Ho. rewrite elem_of_nil. split; [done|]. unfold whole, put. by case_test.
  - intros off o g. unfold whole, put, only. by case_test.
  - intros off. unfold whole, put, only. case_test; [|done]. eauto.
  - rewrite used_whole. done.
  - intros off o. unfold whole, put. by case_test.
Qed.

Lemma Initialize_ok `{!FrameAllocatorLaws F} s :
  fa_inv (frames s) -> s_Initialized s = false ->
  Initialize s = Panic "Not enough physical memory for the kernel heap" \/
  exists s' B fl, Initialize s = Ok s' /\ inv B fl none 0 s' /\ (forall y, B y = whole true y) /\
    s_UsedBytes s' = 0 /\ fa_inv (frames s').
Proof.
  intros Hf Hi. unfold Initialize. rewrite Hi.
  destruct (fa_Allocate_law (frames s) (HEAP_SIZE / Frame.SIZE) Hf) as (r & f' & -> & Hf' & Hr); [done|].
  cbn [obind]. destruct Hr as [[-> ->]|[(Hr0 & Hrm & Hre & _) _]]; [by left|right].
  replace (r =? 0) with false by lia. cbn [negb].
  change (HEAP_SIZE / Frame.SIZE) with (2 ^ 12) in Hre.
  assert (HR : Paging.ToVirtual r = r + Config.DIRECT_MAP_BASE).
  { unfold Paging.ToVirtual. apply wrap_small. unfold is_word, Config.DIRECT_MAP_BASE. lia. }
  set (R := Paging.ToVirtual r) in *.
  assert (HRb : 0 < R /\ R + 2 ^ 24 <= 2 ^ 64 /\ R mod 4096 = 0).
  { rewrite HR. split_and!; [unfold Config.DIRECT_MAP_BASE; lia..|].
    rewrite Zplus_mod, Hrm. done. }
  destruct HRb as (HR1 & HR2 & HR3). replace (R =? 0) with false by lia.
  destruct (PushFree_ok (whole false) _ (only 0) (2 ^ 24) _ 0 24 (fresh_region R (memory s) f' HR1 HR2 HR3)) 
    as (s1 & HP & HI & _); [done|done|lia|].
  unfold BlockAt. cbn [s_Region] in HP |- *. rewrite Z.add_0_r in *.
  rewrite (wrap_small 64 R) by (unfold is_word; lia).
  change (Z.to_nat ORDER_COUNT) with 20%nat. change MAX_ORDER with 24.
  unfold PushFree in HP |- *. cbn [head s_FreeLists] in HP |- *.
  change (replicate 20 0 !! Z.to_nat (IndexOf 24)) with (Some 0) in HP |- *.
  unfold head in HP |- *. cbn [s_FreeLists obind] in HP |- *.
  change (replicate 20 0 !! Z.to_nat (IndexOf 24)) with (Some 0) in HP |- *.
  cbn [obind] in HP |- *. injection HP as <-.
  eexists _, _, _. split; [reflexivity|]. split; [|split; [|done]].
  - eapply inv_ext_open; [|exact HI]. intros y. unfold set_open, only, none. by case_test.
  - intros y. unfold whole, put. by case_test.
Qed.

(** ** Sequences of calls *)

(** With nothing in use, everything has coalesced into one block. *)
Lemma all_free_whole B : layout B -> coalesced B -> (forall off o, B off <> Some (o, false)) ->
  B 0 = Some (24, true).
Proof.
  intros HL Hco Hfree.
  assert (Hmin : forall n : nat, (n <= 19)%nat -> forall off o f, B off = Some (o, f) -> 5 + Z.of_nat n <= o).
  { induction n as [|n IH]; intros Hn off o f Hoff; [by destruct (ly_block B HL _ _ _ Hoff); lia|].
    pose proof (IH ltac:(lia) off o f Hoff) as Hge.
    destruct (Z.eq_dec o (5 + Z.of_nat n)) as [E|]; [exfalso|lia].
    destruct f; [|exact (Hfree _ _ Hoff)].
    destruct (layout_buddy B off o true HL Hoff ltac:(lia)) as (o' & f' & Hb & Hle).
    pose proof (IH ltac:(lia) _ _ _ Hb). replace o' with o in Hb by lia.
    destruct f'; [exact (Hco off o Hoff ltac:(lia) Hb)|exact (Hfree _ _ Hb)]. }
  destruct (ly_cover B HL 0 ltac:(lia)) as (off & o & f & Hoff & Hr).
  destruct (ly_block B HL _ _ _ Hoff) as (Ho & _ & H0 & _).
  pose proof (Hmin 19%nat ltac:(lia) off o f Hoff). replace off with 0 in Hoff by lia.
  replace o with 24 in Hoff by lia. destruct f; [done|destruct (Hfree _ _ Hoff)].
Qed.

Lemma used_zero B : (forall off o, B off <> Some (o, false)) -> used B = 0.
Proof.
  intros H. rewrite used_eq. unfold used_def. generalize block_slots as n.
  induction n as [|n IH]; [done|]. cbn [sumZ]. rewrite IH. specialize (H (32 * Z.of_nat n)).
  destruct (B _) as [[o []]|]; simpl; [done| |done]. by destruct (H o).
Qed.

(** A client writing inside its block disturbs nothing. *)
Lemma payload_write B fl s off o a v :
  inv B fl none 0 s -> B off = Some (o, false) ->
  s_Region s + off + 16 <= a < s_Region s + off + 2 ^ o ->
  inv B fl none 0 (with_memory s (store8 (memory s) a v)).
Proof.
  intros HI Hoff Ha. pose proof HI as [HL HR Hlen Hch Hmem Hhdr Hopn Hus Hco Hin].
  assert (Hsame : forall y o' f, B y = Some (o', f) ->
    same_header (memory s) (store8 (memory s) a v) (s_Region s + y)).
  { intros y o' f Hy b Hb. apply load8_store8_ne. intros ->.
    destruct (Z.eq_dec y off) as [->|Hne]; [lia|].
    destruct (ly_block B HL _ _ _ Hy) as (Hr & _). pose proof (pow2_le 5 o' ltac:(lia)).
    destruct (ly_disj B HL _ _ _ _ _ _ Hy Hoff Hne); lia. }
  split; try done; cbn [memory s_Region with_memory].
  - intros o' Ho'. destruct (Hch o' Ho') as [Hc Hnd]. split; [|done].
    eapply free_chain_ext; [|exact Hc]. intros b Hb%elem_of_add.
    destruct (member_block B fl none 0 s o' _ HI Ho' Hb) as [HBb _].
    replace b with (s_Region s + (b - s_Region s)) by lia.
    by apply (same_header_fields (memory s)), (Hsame _ _ _ HBb).
  - intros y o' f Hy Hop. eapply same_header_ok; [by eapply Hsame|by apply Hhdr].
Qed.

(** The heap with its clients: [c_live] maps each pointer that is out to the size that was
    asked for, [c_written] each byte a client stored into a block that is still out to the
    last value stored there. *)
Record client := { c_heap : t F; c_live : gmap Z Z; c_written : gmap Z Z }.

(** What is left of [c_written] when the block of [size] bytes at [p] goes. *)
Definition forget (p size : Z) (w : gmap Z Z) : gmap Z Z :=
  filter (fun x => ~ (p <= x.1 < p + size)) w.

(** Allocations, releases and writes of the clients.  A request is smaller than
    [2^64 - 16]; what happens to a larger one is [heap_huge_request_wraps]. *)
Inductive heap_call : client -> client -> Prop :=
| heap_call_Allocate s l w size r s' :
    0 <= size -> size + 16 < 2 ^ 64 -> Allocate size s = Ok (r, s') -> r <> 0 ->
    heap_call {| c_heap := s; c_live := l; c_written := w |} {| c_heap := s'; c_live := <[r := size]> l; c_written := w |}
| heap_call_Allocate_none s l w size s' :
    0 <= size -> size + 16 < 2 ^ 64 -> Allocate size s = Ok (0, s') ->
    heap_call {| c_heap := s; c_live := l; c_written := w |} {| c_heap := s'; c_live := l; c_written := w |}
| heap_call_Free s l w p size s' :
    l !! p = Some size -> Free p s = Ok s' ->
    heap_call {| c_heap := s; c_live := l; c_written := w |} {| c_heap := s'; c_live := delete p l; c_written := forget p size w |}
| heap_call_write s l w p size a v :
    l !! p = Some size -> p <= a < p + size ->
    heap_call {| c_heap := s; c_live := l; c_written := w |}
              {| c_heap := with_memory s (store8 (memory s) a v); c_live := l; c_written := <[a := u8 v]> w |}.

Definition heap_live (s : t F) (live : gmap Z Z) : Prop :=
  exists B fl, inv B fl none 0 s /\
    (forall p z, live !! p = Some z ->
       0 < z /\ exists o, B (p - s_Region s - 16) = Some (o, false) /\ z + 16 <= 2 ^ o) /\
    (forall off o, B off = Some (o, false) -> is_Some (live !! (s_Region s + off + 16))).

(** What the clients stored is there. *)
Definition heap_kept (s : t F) (l w : gmap Z Z) : Prop :=
  forall a v, w !! a = Some v -> load8 (memory s) a = v /\ exists p z, l !! p = Some z /\ p <= a < p + z.

Definition client_ok (c : client) : Prop := heap_live (c_heap c) (c_live c) /\ heap_kept (c_heap c) (c_live c) (c_written c).

Lemma Allocate_call s size r s' : 0 <= size -> Allocate size s = Ok (r, s') -> (size = 0 /\ r = 0 /\ s' = s) \/ 0 < size.
Proof.
  intros Hs HA. destruct (Z.eq_dec size 0) as [->|]; [left|right; lia]. unfold Allocate in HA. simpl in HA.
  by injection HA as <- <-.
Qed.

Lemma Allocate_client s l w size r s' : 0 <= size -> size + 16 < 2 ^ 64 -> Allocate size s = Ok (r, s') ->
  heap_live s l -> heap_kept s l w ->
  (r = 0 /\ s' = s) \/ (r <> 0 /\ heap_live s' (<[r := size]> l) /\ heap_kept s' (<[r := size]> l) w).
Proof.
  intros Hs H64 HA (B & fl & HI & Hlive & Hall) Hkept.
  destruct (Allocate_call s size r s' Hs HA) as [(_ & -> & ->)|Hpos]; [by left|].
  destruct (heap_Allocate_ok B fl s size (size + 16) HI Hpos) as (r' & s'' & HA' & Hcase);
    [symmetry; apply wrap_small; split; lia|].
  rewrite HA in HA'. injection HA' as <- <-.
  destruct Hcase as [(-> & -> & _)|(off & B' & fl' & -> & HI' & Hal)]; [by left|right].
  destruct Hal as [Hblk Hfit Hfresh Hoth Hmem _ HR _].
  pose proof (iv_region _ _ _ _ _ HI) as HRg. destruct (ly_block B' (iv_layout _ _ _ _ _ HI') _ _ _ Hblk) as (_ & _ & ? & _).
  assert (Hnew : l !! (s_Region s + off + 16) = None).
  { destruct (l !! (s_Region s + off + 16)) as [z|] eqn:E; [|done]. destruct (Hlive _ z E) as (_ & o & Hb & _).
    replace (s_Region s + off + 16 - s_Region s - 16) with off in Hb by lia. by destruct (Hfresh o). }
  split_and!; [lia| |].
  - exists B', fl'. split; [done|]. rewrite HR. split.
    + intros p z. rewrite lookup_insert_Some. intros [[<- <-]|[Hne Hp]].
      * split; [done|]. replace (s_Region s + off + 16 - s_Region s - 16) with off by lia. eauto.
      * destruct (Hlive p z Hp) as (Hz & o & Hb & Hle). split; [done|]. exists o. split; [|done].
        apply Hoth; [|done]. lia.
    + intros y o Hy. destruct (Z.eq_dec y off) as [->|Hne]; [by rewrite lookup_insert_eq|].
      rewrite lookup_insert_ne by lia. apply (Hall y o). by apply Hoth.
  - intros a v Ha. destruct (Hkept a v Ha) as [Hv (p & z & Hp & Hin)]. split.
    + destruct (Hlive p z Hp) as (_ & o & Hb & Hle). rewrite (Hmem _ o a Hb eq_refl ltac:(lia)). done.
    + exists p, z. split; [|done]. rewrite lookup_insert_ne; [done|]. congruence.
Qed.

Lemma Free_client s l w p size s' : l !! p = Some size -> Free p s = Ok s' -> heap_live s l -> heap_kept s l w ->
  heap_live s' (delete p l) /\ heap_kept s' (delete p l) (forget p size w).
Proof.
  intros Hp HF (B & fl & HI & Hlive & Hall) Hkept. destruct (Hlive p size Hp) as (Hz & o & Hb & Hle).
  destruct (heap_Free_ok B fl s _ o HI Hb) as (s'' & B' & fl' & HF' & HI' & Hfr).
  replace (s_Region s + (p - s_Region s - 16) + 16) with p in HF' by lia.
  rewrite HF in HF'. injection HF' as <-. destruct Hfr as [Hgone Hoth Hmem _ HR _]. split.
  - exists B', fl'. split; [done|]. rewrite HR. split.
    + intros q z. rewrite lookup_delete_Some. intros [Hne Hq].
      destruct (Hlive q z Hq) as (Hz' & o' & Hb' & Hle'). split; [done|]. exists o'. split; [|done].
      apply Hoth; [lia|done].
    + intros y o' Hy. destruct (Z.eq_dec y (p - s_Region s - 16)) as [->|Hne]; [by destruct (Hgone o')|].
      rewrite lookup_delete_ne by lia. apply (Hall y o'). by apply Hoth.
  - intros a v. unfold forget. rewrite map_lookup_filter_Some. cbn [fst]. intros [Ha Hout].
    destruct (Hkept a v Ha) as [Hv (q & z & Hq & Hin)]. assert (Hne : q <> p) by (intros ->; rewrite Hp in Hq; injection Hq as <-; lia).
    split.
    + destruct (Hlive q z Hq) as (_ & o' & Hb' & Hle'). rewrite (Hmem (q - s_Region s - 16) o' a); [done|lia|done|lia].
    + exists q, z. by rewrite lookup_delete_ne by done.
Qed.

Lemma heap_call_ok c c' : heap_call c c' -> client_ok c -> client_ok c'.
Proof.
  intros Hcall [HL HK]. destruct Hcall as [s l w size r s' Hs H64 HA Hr|s l w size s' Hs H64 HA|s l w p size s' Hp HF|s l w p size a v Hp Ha];
    unfold client_ok in *; cbn [c_heap c_live c_written] in *.
  - destruct (Allocate_client s l w size r s' Hs H64 HA HL HK) as [[? _]|(_ & ? & ?)]; done.
  - destruct (Allocate_client s l w size 0 s' Hs H64 HA HL HK) as [[_ ->]|(? & _)]; done.
  - by apply (Free_client s).
  - split.
    + destruct HL as (B & fl & HI & Hlive & Hall). destruct (Hlive p size Hp) as (Hz & o & Hb & Hle).
      exists B, fl. split; [|done]. eapply payload_write; [done|done|]. lia.
    + intros x y. rewrite lookup_insert_Some. cbn [memory with_memory]. intros [[<- <-]|[Hne Hx]].
      * rewrite load8_store8_same. eauto.
      * rewrite load8_store8_ne by done. by apply HK.
Qed.

Lemma heap_calls_ok c c' : rtc heap_call c c' -> client_ok c -> client_ok c'.
Proof. intros Hs. induction Hs; [done|]. eauto using heap_call_ok. Qed.

(** ** Properties *)

(** [Allocate] of a request that does not overflow always returns.  It answers a
    block of the smallest order that holds the request, carved out of free memory and
    disjoint from every block in use, whose bytes it leaves alone; it answers nullptr
    only when the request exceeds the heap or no free block is large enough. *)
Theorem heap_allocate_correct B fl s size :
  inv B fl none 0 s -> 0 < size -> size + 16 < 2 ^ 64 ->
  exists r s', Allocate size s = Ok (r, s') /\
    ((r = 0 /\ s' = s /\
      (2 ^ 24 < size + 16 \/ forall off o, B off = Some (o, true) -> o < OrderFor (size + 16))) \/
     exists off B' fl', r = s_Region s + off + 16 /\ inv B' fl' none 0 s' /\
       allocated B s (size + 16) off B' s' /\
       (OrderFor (size + 16) = 5 \/ 2 ^ (OrderFor (size + 16) - 1) < size + 16)).
Proof.
  intros HI Hs H64. destruct (heap_Allocate_ok B fl s size (size + 16) HI Hs) as (r & s' & HA & Hcase);
    [symmetry; apply wrap_small; split; lia|].
  exists r, s'. split; [done|]. destruct Hcase as [?|(off & B' & fl' & -> & HI' & Hal)]; [by left|right].
  exists off, B', fl'. split_and!; try done. apply OrderFor_ok.
  pose proof (al_block _ _ _ _ _ _ Hal) as Hb. pose proof (al_fits _ _ _ _ _ _ Hal).
  destruct (ly_block B' (iv_layout _ _ _ _ _ HI') _ _ _ Hb) as (Ho & _). pose proof (pow2_le (OrderFor (size + 16)) 24 ltac:(lia)). lia.
Qed.

(** [Free] of a block in use always returns, releases exactly that block, merges it
    with every free buddy (no two free buddies remain), keeps the bytes of all other
    blocks in use, and lowers the used count by the block's size. *)
Theorem heap_free_correct B fl s off o :
  inv B fl none 0 s -> B off = Some (o, false) ->
  exists s' B' fl', Free (s_Region s + off + 16) s = Ok s' /\ inv B' fl' none 0 s' /\
    coalesced B' /\ freed B s off o B' s'.
Proof.
  intros HI Hoff. destruct (heap_Free_ok B fl s off o HI Hoff) as (s' & B' & fl' & HF & HI' & Hfr).
  exists s', B', fl'. split_and!; try done. apply HI'.
Qed.

(** C3: Whatever sequence of allocations (of less than [2^64 - 16] bytes each), releases and
    writes into allocated memory follows [Initialize], the pointers that are out are 16 byte
    aligned, their ranges lie in the region and are pairwise disjoint, each can be released,
    every byte that was stored into a block still out reads back as it was last stored, and
    once all are released nothing counts as used and the largest request succeeds again. *)
Theorem heap_live_blocks_disjoint s0 s live written :
  heap_live s0 ∅ ->
  rtc heap_call {| c_heap := s0; c_live := ∅; c_written := ∅ |} {| c_heap := s; c_live := live; c_written := written |} ->
  (forall p z, live !! p = Some z ->
     p mod 16 = 0 /\ s_Region s + 16 <= p /\ p + z <= s_Region s + 2 ^ 24 /\ is_Ok (Free p s)) /\
  (forall p z q y, live !! p = Some z -> live !! q = Some y -> p <> q -> p + z <= q \/ q + y <= p) /\
  (forall a v, written !! a = Some v -> load8 (memory s) a = v) /\
  (live = ∅ -> GetUsedBytes s = 0 /\ exists r s', Allocate (2 ^ 24 - 16) s = Ok (r, s') /\ r <> 0).
Proof.
  intros Hstart Hsteps.
  destruct (heap_calls_ok _ _ Hsteps) as [(B & fl & HI & Hlive & Hall) Hkept]; [split; [done|]; intros a v Hv; simpl in Hv; by rewrite lookup_empty in Hv|].
  cbn [c_heap c_live c_written] in *. pose proof HI as [HL HR Hlen Hch Hmem Hhdr Hopn Hus Hco Hin].
  split_and!.
  - intros p z Hp. destruct (Hlive p z Hp) as (Hz & o & Hb & Hle).
    destruct (layout_slot B _ _ _ HL Hb) as [Hs1 Hs2]. destruct (ly_block B HL _ _ _ Hb) as (_ & _ & ? & ?).
    split_and!; try lia.
    + destruct HR as (_ & _ & HR3). replace p with ((p - s_Region s - 16) + s_Region s + 16) by lia.
      pose proof (Z.div_mod (p - s_Region s - 16) 32). pose proof (Z.div_mod (s_Region s) 4096).
      apply Z.mod_divide; [lia|]. exists (2 * ((p - s_Region s - 16) / 32) + 256 * (s_Region s / 4096) + 1). lia.
    + destruct (heap_Free_ok B fl s _ o HI Hb) as (s' & B' & fl' & HF & _).
      replace (s_Region s + (p - s_Region s - 16) + 16) with p in HF by lia. by exists s'.
  - intros p z q y Hp Hq Hne. destruct (Hlive p z Hp) as (_ & o & Hb & Hle), (Hlive q y Hq) as (_ & o' & Hb' & Hle').
    destruct (ly_disj B HL _ _ _ _ _ _ Hb Hb' ltac:(lia)); lia.
  - intros a v Ha. by apply Hkept.
  - intros ->. assert (Hfree : forall off o, B off <> Some (o, false)).
    { intros off o Hoff. destruct (Hall off o Hoff) as [z Hz]. by rewrite lookup_empty in Hz. }
    pose proof (all_free_whole B HL Hco Hfree) as Hw. rewrite (used_zero B Hfree) in Hus.
    split; [unfold GetUsedBytes; lia|].
    destruct (heap_Allocate_ok B fl s (2 ^ 24 - 16) (2 ^ 24) HI) as (r & s' & HA & Hcase); [lia|done|].
    exists r, s'. split; [done|]. destruct Hcase as [(_ & _ & [?|Hno])|(off & B' & fl' & -> & HI' & Hal)].
    + lia.
    + specialize (Hno 0 24 Hw). vm_compute in Hno. done.
    + destruct (ly_block B' (iv_layout _ _ _ _ _ HI') _ _ _ (al_block _ _ _ _ _ _ Hal)). lia.
Qed.

(** A request within 16 bytes of the top of [size_t] overflows the header
    addition: with any free block left, [Allocate] hands out a 32 byte block, 16 usable
    bytes, for a request of almost 2^64. *)
Theorem heap_huge_request_wraps B fl s size off0 o0 :
  inv B fl none 0 s -> 2 ^ 64 - 16 <= size < 2 ^ 64 -> B off0 = Some (o0, true) ->
  exists off s' B' fl', Allocate size s = Ok (s_Region s + off + 16, s') /\
    inv B' fl' none 0 s' /\ B' off = Some (5, false).
Proof.
  intros HI Hs Hfree.
  assert (Hn : size + 16 - 2 ^ 64 = u64 (size + 16)).
  { unfold wrap. rewrite <- (Z.mod_small (size + 16 - 2 ^ 64) (2 ^ 64)) by lia.
    rewrite <- (Z.mod_add (size + 16 - 2 ^ 64) 1) by lia. f_equal. lia. }
  assert (Ho : OrderFor (size + 16 - 2 ^ 64) = 5).
  { unfold OrderFor. change (Z.to_nat (MAX_ORDER - MIN_ORDER)) with 19%nat. cbn [OrderFor_loop].
    unfold MIN_ORDER. rewrite shift64 by lia. by replace (2 ^ 5 <? size + 16 - 2 ^ 64) with false by lia. }
  destruct (heap_Allocate_ok B fl s size (size + 16 - 2 ^ 64) HI) as (r & s' & HA & Hcase); [lia|done|].
  destruct Hcase as [(_ & _ & [?|Hno])|(off & B' & fl' & -> & HI' & Hal)].
  - lia.
  - pose proof (Hno off0 o0 Hfree). destruct (ly_block B (iv_layout _ _ _ _ _ HI) _ _ _ Hfree). lia.
  - exists off, s', B', fl'. split_and!; try done. rewrite <- Ho. apply Hal.
Qed.
End Spec.

(** ** Witnesses

    A heap right after [Initialize], its region at 16 MiB. *)

#[local] Existing Instance FrameSpec.debug_build.

Definition demo_region : t Frame.t :=
  {| memory := fun _ => 0; frames := FrameSpec.small; s_Region := 0x1000000;
     s_FreeLists := replicate 20 0; s_UsedBytes := 0; s_Initialized := true |}.
Definition demo_heap : t Frame.t :=
  match PushFree 0x1000000 24 demo_region with Ok s => s | _ => demo_region end.
Definition demo_part : part := put (whole false) 0 (Some (24, true)).
Definition demo_lists : Z -> list Z := set_list (fun _ => []) 24 [0].

Lemma demo_inv : inv demo_part demo_lists none 0 demo_heap.
Proof.
  destruct (PushFree_ok (whole false) (fun _ => []) (only 0) (2 ^ 24) demo_region 0 24)
    as (s' & HP & HI & _); [apply fresh_region; done|done|done|lia|].
  change (s_Region demo_region + 0) with 0x1000000 in HP. unfold demo_heap. rewrite HP.
  eapply inv_ext_open; [|exact HI]. intros y. unfold set_open, only, none. by case_test.
Qed.

Lemma demo_pointer : match Allocate 100 demo_heap with Ok (p, _) => p | _ => 0 end = 0x1000010.
Proof. vm_compute. reflexivity. Qed.

Lemma heap_allocate_correct_witness :
  exists r s', Allocate 100 demo_heap = Ok (r, s') /\ r = 0x1000010.
Proof.
  destruct (heap_allocate_correct demo_part demo_lists demo_heap 100) as (r & s' & HA & _).
  - apply demo_inv.
  - lia.
  - lia.
  - exists r, s'. split; [exact HA|]. pose proof demo_pointer as Hp. rewrite HA in Hp. exact Hp.
Defined.

Lemma heap_free_correct_witness :
  exists s s', Allocate 100 demo_heap = Ok (0x1000010, s) /\ Free 0x1000010 s = Ok s' /\
    s_UsedBytes s' = 0.
Proof.
  destruct (heap_Allocate_ok demo_part demo_lists demo_heap 100 116 demo_inv) as (r & s & HA & Hcase); [lia|done|].
  pose proof demo_pointer as Hp. rewrite HA in Hp. subst r.
  destruct Hcase as [[? _]|(off & B' & fl' & Hr & HI' & Hal)]; [lia|].
  destruct (heap_free_correct B' fl' s off (OrderFor 116) HI' (al_block _ _ _ _ _ _ Hal))
    as (s2 & B2 & fl2 & HF & _ & _ & Hfr).
  exists s, s2. rewrite (al_region _ _ _ _ _ _ Hal) in HF. rewrite <- Hr in HF.
  split; [exact HA|]. split; [exact HF|].
  rewrite (fr_used _ _ _ _ _ _ Hfr), (al_used _ _ _ _ _ _ Hal).
  change (s_UsedBytes demo_heap) with 0. lia.
Defined.

Lemma heap_live_blocks_disjoint_witness :
  exists s, Allocate 100 demo_heap = Ok (0x1000010, s) /\ 0x1000010 mod 16 = 0 /\
    is_Ok (Free 0x1000010 (with_memory s (store8 (memory s) 0x1000020 77))) /\
    load8 (store8 (memory s) 0x1000020 77) 0x1000020 = 77.
Proof.
  destruct (heap_Allocate_ok demo_part demo_lists demo_heap 100 116 demo_inv) as (r & s & HA & _); [lia|done|].
  pose proof demo_pointer as Hp. rewrite HA in Hp. subst r. exists s. split; [exact HA|].
  destruct (heap_live_blocks_disjoint demo_heap (with_memory s (store8 (memory s) 0x1000020 77)) (<[0x1000010 := 100]> ∅) (<[0x1000020 := 77]> ∅))
    as (H1 & _ & H2 & _).
  - exists demo_part, demo_lists. split; [apply demo_inv|]. split; [intros p z Hp; by rewrite lookup_empty in Hp|].
    intros off o. unfold demo_part, whole, put. destruct (off =? 0); discriminate.
  - eapply rtc_l; [apply (heap_call_Allocate demo_heap ∅ ∅ 100 0x1000010 s); [lia|lia|exact HA|lia]|].
    apply rtc_once. apply (heap_call_write s (<[0x1000010 := 100]> ∅) ∅ 0x1000010 100 0x1000020 77); [by rewrite lookup_insert_eq|lia].
  - destruct (H1 0x1000010 100) as (H3 & _ & _ & H4); [by rewrite lookup_insert_eq|].
    split; [exact H3|]. split; [exact H4|]. apply (H2 0x1000020 77). by rewrite lookup_insert_eq.
Defined.

Lemma heap_huge_request_wraps_witness :
  exists off s' B' fl', Allocate (2 ^ 64 - 1) demo_heap = Ok (0x1000000 + off + 16, s') /\
    inv B' fl' none 0 s' /\ B' off = Some (5, false).
Proof.
  apply (heap_huge_request_wraps demo_part demo_lists demo_heap (2 ^ 64 - 1) 0 24).
  - apply demo_inv.
  - lia.
  - reflexivity.
Defined.
