(* ===== verification/KernelStack.v ===== *)
(** * Memory/KernelStack.cpp: thread stacks behind guard pages

    Slots of [STRIDE] bytes are handed out in order; the lowest page of a slot is the
    guard page and stays unmapped.  The state is the slot counter beside the page
    tables it maps the stacks with. *)

From S2P Require Import Prelude Config Frame FrameSpec FrameInterface Paging PagingSpec.

Module KernelStack.

Definition GUARD_SIZE : Z := Paging.PAGE_SIZE.
Definition STRIDE : Z := Config.THREAD_STACK_SIZE + GUARD_SIZE.

Section Operations.
Context {F : Type} `{FA : FrameAllocator F}.

Record t := { paging : Paging.t F; s_NextSlot : Z }.

Definition Allocate (s : t) : outcome (Z * t) :=
  let slot := s_NextSlot s in
  let next := slot +64 STRIDE in
  let* (frames, f) := fa_Allocate (Config.THREAD_STACK_SIZE / Paging.PAGE_SIZE)
                                  (Paging.frames (paging s)) in
  if frames =? 0 then Panic "Out of memory for a kernel stack"
  else
    let p := Paging.with_table (paging s) (Paging.memory (paging s)) f (Paging.s_TableCount (paging s)) in
    let* (ok, p) := Paging.Map (slot +64 GUARD_SIZE) frames Config.THREAD_STACK_SIZE
                               Paging.READ_WRITE Paging.KERNEL Paging.NORMAL p in
    if negb ok then Panic "Out of memory for a kernel stack mapping"
    else Ok (slot +64 STRIDE, {| paging := p; s_NextSlot := next |}).

Definition IsGuardPage (s : t) (InAddress : Z) : bool :=
  if (InAddress <? Config.KERNEL_STACK_BASE) || (s_NextSlot s <=? InAddress) then false
  else (InAddress -64 Config.KERNEL_STACK_BASE) mod STRIDE <? GUARD_SIZE.

End Operations.
Arguments t : clear implicits.
End KernelStack.

Import Paging KernelStack.

(** The part of the address space the slots come from. *)
Definition AREA : Z := 2 ^ 45.

Section Spec.
Context {F : Type} `{FL : FrameAllocatorLaws F}.

(** [k] slots are out: in the area exactly their pages above the guard are mapped,
    writable for the kernel only. *)
Record stacks (k : Z) (s : KernelStack.t F) : Prop := {
  st_tree : exists own, tree own (paging s);
  st_count : 0 <= k < 2 ^ 29;
  st_next : s_NextSlot s = Config.KERNEL_STACK_BASE + k * STRIDE;
  st_mapped w : Config.KERNEL_STACK_BASE <= w < Config.KERNEL_STACK_BASE + AREA ->
    match mapping (paging s) w with
    | Some leaf => w < s_NextSlot s /\ GUARD_SIZE <= (w - Config.KERNEL_STACK_BASE) mod STRIDE /\
        Z.testbit leaf 1 = true /\ Z.testbit leaf 2 = false
    | None => s_NextSlot s <= w \/ (w - Config.KERNEL_STACK_BASE) mod STRIDE < GUARD_SIZE
    end }.

(** Handing a run of frames to the stacks leaves the tables alone. *)
Lemma tree_frames own (p : Paging.t F) r count f :
  tree own p -> 0 < count < 2 ^ 64 -> fa_Allocate count (frames p) = Ok (r, f) ->
  tree own (with_table p (memory p) f (s_TableCount p)) /\ (r = 0 \/ (0 < r /\ r + count * 4096 <= 2 ^ 47)).
Proof.
  intros Ht Hc HA. destruct (fa_Allocate_law (frames p) count (tr_frames _ _ Ht) Hc)
    as (r' & f' & HA' & Hf & Hcase). rewrite HA in HA'. injection HA' as <- <-.
  destruct Ht as [H1 H2 H3 H4 H5]. split.
  - split; try done. intros q n pre Hq. destruct (H3 q n pre Hq) as [Hd Hnf]. split; [done|].
    simpl. destruct Hcase as [[_ ->]|[(_ & _ & _ & Hfr) _]]; [done|]. rewrite Hfr. tauto.
  - destruct Hcase as [[-> _]|[(? & ? & ? & _) _]]; auto.
Qed.

Lemma area_distance slot w :
  Config.KERNEL_STACK_BASE <= w < Config.KERNEL_STACK_BASE + AREA ->
  Config.KERNEL_STACK_BASE <= slot < Config.KERNEL_STACK_BASE + AREA ->
  page_distance slot w = (w / 4096 - slot / 4096) mod 2 ^ 36.
Proof. intros. unfold page_distance, vpn. by rewrite <- Zminus_mod. Qed.

Lemma slot_bounds k : 0 <= k < 2 ^ 29 ->
  0 <= k * STRIDE /\ k * STRIDE + STRIDE <= 2 ^ 44 /\ (k * STRIDE) mod 4096 = 0.
Proof.
  intros. change STRIDE with (5 * 4096). split_and!; try lia.
  rewrite Z.mul_assoc. apply Z.mod_mul. lia.
Qed.

(** The slot arithmetic of one allocation. *)
Lemma slot_page k w : 0 <= k < 2 ^ 29 ->
  Config.KERNEL_STACK_BASE <= w < Config.KERNEL_STACK_BASE + AREA ->
  let slot := Config.KERNEL_STACK_BASE + k * STRIDE in
  page_distance (slot + 4096) w < 4 <->
  slot <= w < slot + STRIDE /\ GUARD_SIZE <= (w - Config.KERNEL_STACK_BASE) mod STRIDE.
Proof.
  intros Hk Hw slot. destruct (slot_bounds k Hk) as (Hs0 & Hs1 & Hs2).
  rewrite area_distance; [|done|unfold AREA, slot; change STRIDE with 20480 in *; lia]. unfold AREA in Hw.
  set (B := Config.KERNEL_STACK_BASE) in *.
  assert (HB : B = 4096 * (B / 4096)) by reflexivity. set (b := B / 4096) in *.
  assert (Hd : w / 4096 - (slot + 4096) / 4096 = (w - B) / 4096 - (5 * k + 1)).
  { unfold slot. change STRIDE with (5 * 4096).
    replace (B + k * (5 * 4096) + 4096) with ((b + 5 * k + 1) * 4096) by lia.
    rewrite Z.div_mul by lia. replace w with ((w - B) + b * 4096) at 1 by lia.
    rewrite Z.div_add by lia. lia. }
  rewrite Hd. set (x := w - B) in *. change STRIDE with (5 * 4096) in *. change GUARD_SIZE with 4096.
  pose proof (Z.div_mod x 4096). pose proof (Z.mod_pos_bound x 4096).
  assert (Hq : 0 <= x / 4096 < 2 ^ 33) by (split; [apply Z.div_pos; lia|apply Z.div_lt_upper_bound; lia]).
  pose proof (Z.div_mod x (5 * 4096)). pose proof (Z.mod_pos_bound x (5 * 4096)).
  assert (Hcase : x / 4096 < 5 * k + 1 \/ 5 * k + 1 <= x / 4096) by lia. destruct Hcase as [Hlt|Hge].
  - replace ((x / 4096 - (5 * k + 1)) mod 2 ^ 36) with (x / 4096 - (5 * k + 1) + 2 ^ 36).
    2:{ rewrite <- (Z.mod_small (x / 4096 - (5 * k + 1) + 2 ^ 36) (2 ^ 36)) by lia.
        rewrite <- (Z.mod_add (x / 4096 - (5 * k + 1)) 1) by lia. f_equal. }
    split; [lia|]. intros [Hin Hg]. exfalso. assert (x / (5 * 4096) = k) as E; [|nia].
    unfold slot in Hin. nia.
  - rewrite Z.mod_small by lia. split.
    + intros Hlt. assert (x / (5 * 4096) = k) as E by nia. unfold slot. lia.
    + intros [Hin Hg]. assert (x / (5 * 4096) = k) as E by (unfold slot in Hin; nia). lia.
Qed.

Lemma page_base_aligned a : 0 <= a < 2 ^ 64 -> a mod 4096 = 0 -> page_base a = a.
Proof. intros. rewrite page_base_eq by lia. pose proof (Z.div_mod a 4096). lia. Qed.

Lemma Allocate_stack k s : stacks k s -> k + 1 < 2 ^ 29 ->
  (exists why, Allocate s = Panic why) \/
  exists s', Allocate s = Ok (s_NextSlot s + STRIDE, s') /\ stacks (k + 1) s'.
Proof.
  intros [[own Ht] Hk Hn Hm] Hk1. destruct (slot_bounds k Hk) as (Hs0 & Hs1 & Hs2).
  set (B := Config.KERNEL_STACK_BASE) in *.
  assert (HB : B + 2 ^ 46 = 2 ^ 64) by reflexivity.
  unfold Allocate. change (Config.THREAD_STACK_SIZE / Paging.PAGE_SIZE) with 4.
  change (Config.THREAD_STACK_SIZE) with 16384 in *. change STRIDE with 20480 in *. change GUARD_SIZE with 4096 in *.
  destruct (fa_Allocate_law (frames (paging s)) 4 (tr_frames _ _ Ht)) as (r & f & HA & _); [lia|].
  destruct (tree_frames own (paging s) r 4 f Ht ltac:(lia) HA) as [Ht1 Hr]. rewrite HA. cbn [obind].
  destruct (Z.eqb_spec r 0) as [->|Hr0]; [left; eauto|].
  set (p1 := with_table _ _ _ _) in *.
  rewrite !(wrap_small 64) by (unfold is_word; lia).
  assert (Hro : range_ok (s_NextSlot s + 4096) r 16384) by (split; lia).
  destruct (Map_ok own p1 (s_NextSlot s + 4096) r 16384 READ_WRITE KERNEL NORMAL Ht1 Hro)
    as (ok & p2 & -> & [(own2 & Ht2 & _) _ _ (n & Hn1 & Hok & _ & Hmap)]). cbn [obind].
  destruct ok; [|left; eauto]. right. eexists. split; [done|]. specialize (Hok eq_refl).
  assert (HM4096 : (s_NextSlot s + 4096) mod 4096 = 0).
  { rewrite Hn. replace (B + k * 20480 + 4096) with ((B / 4096 + 5 * k + 1) * 4096) by
      (replace (B / 4096 * 4096) with B by reflexivity; change (B / 4096) with (2 ^ 52 - 2 ^ 34); change B with (2 ^ 64 - 2 ^ 46); lia).
    apply Z.mod_mul. lia. }
  assert (Hpc : page_count (s_NextSlot s + 4096) 16384 = 4).
  { unfold page_count. by rewrite HM4096. }
  rewrite page_base_aligned in Hmap by (done || lia). rewrite Hpc in Hok. subst n.
  split; cbn [paging s_NextSlot].
  - eauto.
  - lia.
  - rewrite Hn. change STRIDE with 20480. fold B. lia.
  - intros w Hw. fold B in Hw |- *. rewrite Hmap by lia.
    pose proof (slot_page k w Hk Hw) as Hsp. cbv zeta in Hsp. fold B in Hsp. rewrite Hn in *.
    change STRIDE with 20480 in *. change GUARD_SIZE with 4096 in *.
    specialize (Hm w Hw). unfold mapped_range.
    destruct (Z.ltb_spec (page_distance (B + k * 20480 + 4096) w) 4) as [Hd|Hd].
    + destruct (proj1 Hsp Hd) as [Hin Hg]. split_and!; [lia|done| |].
      * rewrite Z.lor_spec, FlagsFor_bits by lia. rewrite (bool_decide_true (1 = 1)) by done.
        rewrite (bool_decide_true (READ_WRITE = READ_WRITE)) by done. btauto.
      * assert (Hfr := range_frame (B + k * 20480 + 4096) r 16384 w Hro).
        rewrite page_base_aligned in Hfr by (done || lia). rewrite Hpc in Hfr. specialize (Hfr Hd).
        rewrite Z.lor_spec, FlagsFor_bits, (frame_bits _ 2 Hfr) by lia.
        by rewrite (bool_decide_false (KERNEL = USER_)) by done.
    + change (mapping p1 w) with (mapping (paging s) w).
      destruct (mapping (paging s) w) as [leaf|].
      * destruct Hm as (H1 & H2 & H3 & H4). split_and!; try done. lia.
      * destruct Hm as [Hm|Hm]; [|by right].
        destruct (Z_lt_dec w (B + k * 20480 + 20480)) as [Hlt|]; [|left; lia]. right.
        destruct (Z_lt_dec ((w - B) mod 20480) 4096); [done|]. exfalso.
        assert (page_distance (B + k * 20480 + 4096) w < 4); [apply Hsp; lia|lia].
Qed.

(** [n] calls of [Allocate] in a row, with the stack tops they returned. *)
Inductive allocations : KernelStack.t F -> list Z -> KernelStack.t F -> Prop :=
| allocations_nil s : allocations s [] s
| allocations_cons s top s1 tops s2 :
    Allocate s = Ok (top, s1) -> allocations s1 tops s2 -> allocations s (top :: tops) s2.

Lemma allocations_stacks k s tops s' :
  stacks k s -> k + Z.of_nat (length tops) < 2 ^ 29 -> allocations s tops s' ->
  stacks (k + Z.of_nat (length tops)) s' /\
  forall i top, tops !! i = Some top -> top = Config.KERNEL_STACK_BASE + (k + Z.of_nat i + 1) * STRIDE.
Proof.
  intros Hst Hk Ha. revert k Hst Hk. induction Ha as [s|s top s1 tops s2 HA _ IH]; intros k Hst Hk.
  - rewrite Z.add_0_r in *. done.
  - cbn [length] in *. destruct (Allocate_stack k s Hst) as [[why HP]|(s1' & HA' & Hst1)]; [lia|congruence|].
    rewrite HA in HA'. injection HA' as -> <-.
    destruct (IH (k + 1) Hst1) as [H1 H2]; [lia|]. split.
    + by replace (k + Z.of_nat (S (length tops))) with (k + 1 + Z.of_nat (length tops)) by lia.
    + intros [|i] t0 Hi; simpl in Hi.
      * injection Hi as <-. rewrite (st_next _ _ Hst). lia.
      * rewrite (H2 i t0 Hi). f_equal. f_equal. lia.
Qed.

(** Below the next slot an address is on a guard page and unmapped, or on a stack. *)
Lemma guard_or_stack k s w : stacks k s -> Config.KERNEL_STACK_BASE <= w < s_NextSlot s ->
  if IsGuardPage s w then Translate (paging s) w = 0
  else IsWritable (paging s) w = true /\ IsUserReadable (paging s) w = false.
Proof.
  intros [[own Ht] Hk Hn Hm] Hw.
  destruct (slot_bounds _ Hk) as (Hs0 & Hs1 & _). change STRIDE with 20480 in *. change GUARD_SIZE with 4096 in *.
  assert (Hb : Config.KERNEL_STACK_BASE + 2 ^ 46 = 2 ^ 64) by reflexivity.
  specialize (Hm w ltac:(unfold AREA; lia)). unfold IsGuardPage.
  replace (w <? Config.KERNEL_STACK_BASE) with false by lia. replace (s_NextSlot s <=? w) with false by lia.
  cbn [orb]. rewrite wrap_small by (unfold is_word; lia).
  pose proof (queries_exact own (paging s) w Ht ltac:(lia)) as Q.
  change STRIDE with 20480. change GUARD_SIZE with 4096.
  destruct (Z.ltb_spec ((w - Config.KERNEL_STACK_BASE) mod 20480) 4096);
    destruct (mapping (paging s) w) as [leaf|]; try lia; destruct Q as [Q1 Q2 Q3 Q4 Q5].
  - exact Q1.
  - destruct Hm as (_ & _ & M1 & M2). rewrite Q2, Q4, M1, M2. done.
Qed.

(** However many stacks were allocated, every address [IsGuardPage] names is
    unmapped, every other address below the next slot is mapped writable for the
    kernel and closed to ring 3, and the stacks returned are adjacent slots that do
    not overlap. *)
Theorem kernel_stack_guard_pages s0 tops s w :
  stacks 0 s0 -> allocations s0 tops s -> Z.of_nat (length tops) < 2 ^ 29 ->
  Config.KERNEL_STACK_BASE <= w < s_NextSlot s ->
  (if IsGuardPage s w then Translate (paging s) w = 0
   else IsWritable (paging s) w = true /\ IsUserReadable (paging s) w = false) /\
  forall i top, tops !! i = Some top -> top = Config.KERNEL_STACK_BASE + (Z.of_nat i + 1) * STRIDE.
Proof.
  intros H0 Ha Hlen Hw. destruct (allocations_stacks 0 s0 tops s H0 Hlen Ha) as [Hst Htops].
  split; [by eapply guard_or_stack|exact Htops].
Qed.
End Spec.

(** ** Witness: a machine with 64 frames, frame 0 in use *)

#[local] Existing Instance FrameSpec.debug_build.

Definition demo_frames : Frame.t :=
  {| Frame.s_Taken := [1]; Frame.s_WordCount := 1; Frame.s_FrameCount := 64;
     Frame.s_ReachableFrames := 64; Frame.s_TotalFrames := 63; Frame.s_FreeFrames := 63;
     Frame.s_NextIndex := 0 |}.

Lemma demo_frames_inv : fa_inv demo_frames.
Proof.
  split; [|done|simpl; lia]. exists (fun i => i =? 0). split; try done; simpl; try lia.
  - split; simpl; [done| |lia|lia]. repeat constructor; vm_compute; done.
  - intros i Hi Hu. by replace i with 0 by lia.
Qed.

Definition demo_before : Paging.t Frame.t :=
  {| memory := fun _ => 0; frames := demo_frames; s_Root := 0; s_NoExecuteAvailable := true;
     s_TableCount := 0; s_MappedRamEnd := 0; KernelPageTableRoot := 0;
     CR0 := 0; CR3 := 0; EFER := 0 |}.

Definition demo_table : Z * Paging.t Frame.t :=
  match AllocateTable demo_before with Ok x => x | _ => (0, demo_before) end.

Definition demo_slots : KernelStack.t Frame.t :=
  {| paging := with_root demo_table.2 demo_table.1; s_NextSlot := Config.KERNEL_STACK_BASE |}.

Lemma demo_slots_ok : stacks 0 demo_slots.
Proof.
  destruct (AllocateTable_ok demo_before demo_frames_inv) as (r & s0 & HA & _).
  assert (Hr : demo_table.1 = 4096) by (vm_compute; reflexivity).
  assert (E : demo_table = (r, s0)) by (unfold demo_table; by rewrite HA).
  destruct (fresh_root demo_before r s0 demo_frames_inv HA) as [Ht Hnone]; [rewrite E in Hr; simpl in Hr; lia|].
  unfold demo_slots. rewrite E. split; [by eexists|lia|done|].
  intros w Hw. cbn [paging fst snd]. rewrite Hnone. left. cbn [s_NextSlot]. lia.
Qed.

Lemma kernel_stack_guard_pages_witness :
  exists s, Allocate demo_slots = Ok (Config.KERNEL_STACK_BASE + STRIDE, s) /\
    Translate (paging s) Config.KERNEL_STACK_BASE = 0.
Proof.
  destruct (Allocate_stack 0 demo_slots demo_slots_ok) as [[why HP]|(s & HA & Hst)]; [lia| |].
  - exfalso. assert (Hok : match Allocate demo_slots with Panic _ => true | _ => false end = false)
      by (vm_compute; reflexivity).
    rewrite HP in Hok. discriminate.
  - exists s. split; [exact HA|].
    destruct (kernel_stack_guard_pages demo_slots [Config.KERNEL_STACK_BASE + STRIDE] s
                Config.KERNEL_STACK_BASE) as [HG _].
    + apply demo_slots_ok.
    + eapply allocations_cons; [exact HA|apply allocations_nil].
    + reflexivity.
    + rewrite (st_next _ _ Hst). change STRIDE with 20480. lia.
    + unfold IsGuardPage in HG. rewrite (st_next _ _ Hst) in HG. exact HG.
Defined.
