(* ===== verification/Context.v ===== *)
(** * Arch/Context.h, Arch/Context.cpp and Arch/Context.asm

    The saved register set of a thread, the layout [PrepareContext] builds on a fresh
    stack, and the three assembly routines as transformations of a core's registers.
    A stack is part of the byte memory. *)

From S2P Require Import Prelude Mem.

Module Context.

Record Context := {
  Rbx : Z; Rbp : Z; R12 : Z; R13 : Z; R14 : Z; R15 : Z; Rsp : Z }.

(** [Context{}]: every member zero. *)
Definition Zero : Context :=
  {| Rbx := 0; Rbp := 0; R12 := 0; R13 := 0; R14 := 0; R15 := 0; Rsp := 0 |}.

(** The registers the switching code touches: the callee-saved set, the three
    argument registers and the instruction pointer. *)
Record registers := { saved : Context; rdi : Z; rsi : Z; rdx : Z; rip : Z }.

(** Addresses of code the layout refers to. *)
Class Code := { KickoffReturned : Z; FakeSystemVAbi_address : Z }.

(** [*(--stack) = v] *)
Definition push (m : mem) (stack v : Z) : Z * mem := (stack -64 8, store64 m (stack -64 8) v).

Definition PrepareContext `{Code} (m : mem) (InStackTop InKickoff InParam1 InParam2 InParam3 : Z)
    : Context * mem :=
  let stack := InStackTop in
  let '(stack, m) := push m stack KickoffReturned in
  let '(stack, m) := push m stack InKickoff in
  let '(stack, m) := push m stack FakeSystemVAbi_address in
  ({| Rbx := 0; Rbp := 0; R12 := 0; R13 := InParam1; R14 := InParam2; R15 := InParam3;
      Rsp := stack |}, m).

(** [ret]: pops the instruction pointer. *)
Definition with_rsp (c : Context) (v : Z) : Context :=
  {| Rbx := Rbx c; Rbp := Rbp c; R12 := R12 c; R13 := R13 c; R14 := R14 c; R15 := R15 c; Rsp := v |}.
Definition ret (m : mem) (r : registers) : registers :=
  {| saved := with_rsp (saved r) (Rsp (saved r) +64 8);
     rdi := rdi r; rsi := rsi r; rdx := rdx r; rip := load64 m (Rsp (saved r)) |}.

(** [LOAD_CONTEXT] *)
Definition load_context (c : Context) (r : registers) : registers :=
  {| saved := c; rdi := rdi r; rsi := rsi r; rdx := rdx r; rip := rip r |}.

(** Answers the registers on the new stack and the context saved for the old one. *)
Definition ContextSwitch (m : mem) (InNext : Context) (r : registers) : registers * Context :=
  (ret m (load_context InNext r), saved r).

Definition ContextLaunch (m : mem) (InNext : Context) (r : registers) : registers :=
  ret m (load_context InNext r).

Definition FakeSystemVAbi (m : mem) (r : registers) : registers :=
  ret m {| saved := saved r; rdi := R13 (saved r); rsi := R14 (saved r); rdx := R15 (saved r);
           rip := rip r |}.

End Context.

Import Context.

(** The three slots [PrepareContext] fills, for a stack top that leaves room for them. *)
Lemma PrepareContext_stack `{Code} m top kick p1 p2 p3 :
  24 <= top < 2 ^ 64 ->
  is_word 64 KickoffReturned -> is_word 64 FakeSystemVAbi_address -> is_word 64 kick ->
  let '(c, m') := PrepareContext m top kick p1 p2 p3 in
  c = {| Rbx := 0; Rbp := 0; R12 := 0; R13 := p1; R14 := p2; R15 := p3; Rsp := top - 24 |} /\
  load64 m' (top - 24) = FakeSystemVAbi_address /\ load64 m' (top - 16) = kick /\
  load64 m' (top - 8) = KickoffReturned /\
  (forall a, ~ (top - 24 <= a < top) -> load8 m' a = load8 m a).
Proof.
  intros Ht H1 H2 H3. unfold PrepareContext, push.
  rewrite (wrap_small 64 (top - 8)) by (unfold is_word; lia).
  replace (top - 8 - 8) with (top - 16) by lia.
  rewrite (wrap_small 64 (top - 16)) by (unfold is_word; lia).
  replace (top - 16 - 8) with (top - 24) by lia.
  rewrite (wrap_small 64 (top - 24)) by (unfold is_word; lia).
  split_and!; [done|by apply load64_store64|..].
  - rewrite load_store_disj by lia. by apply load64_store64.
  - rewrite !load_store_disj by lia. by apply load64_store64.
  - intros a Ha. rewrite !load8_store_out by lia. done.
Qed.

(** The first activation of a prepared thread, reached through [ContextLaunch] or
    [ContextSwitch] alike, runs through [FakeSystemVAbi] into the kickoff function: with
    the three parameters in the argument registers, [KickoffReturned] as its return
    address, and a stack pointer that is 8 modulo 16 as the calling convention demands
    when the stack top is 16-byte aligned.  Only the top 24 bytes of the stack are
    written, and the context of the thread that was left is saved unchanged. *)
Theorem context_first_activation `{Code} m top kick p1 p2 p3 (r : registers) :
  24 <= top < 2 ^ 64 -> top mod 16 = 0 ->
  is_word 64 KickoffReturned -> is_word 64 FakeSystemVAbi_address -> is_word 64 kick ->
  let '(c, m') := PrepareContext m top kick p1 p2 p3 in
  let first := ContextLaunch m' c r in
  let entered := FakeSystemVAbi m' first in
  ContextSwitch m' c r = (first, saved r) /\
  rip first = FakeSystemVAbi_address /\
  rip entered = kick /\ rdi entered = p1 /\ rsi entered = p2 /\ rdx entered = p3 /\
  Rsp (saved entered) mod 16 = 8 /\ load64 m' (Rsp (saved entered)) = KickoffReturned /\
  (forall a, ~ (top - 24 <= a < top) -> load8 m' a = load8 m a).
Proof.
  intros Ht Hal H1 H2 H3.
  pose proof (PrepareContext_stack m top kick p1 p2 p3 Ht H1 H2 H3) as HP.
  destruct (PrepareContext m top kick p1 p2 p3) as [c m'].
  destruct HP as (-> & L1 & L2 & L3 & Hout).
  cbn [ContextLaunch ContextSwitch FakeSystemVAbi ret load_context with_rsp saved Rsp rip rdi rsi rdx
       R13 R14 R15].
  rewrite (wrap_small 64 (top - 24 + 8)) by (unfold is_word; lia).
  rewrite (wrap_small 64 (top - 24 + 8 + 8)) by (unfold is_word; lia).
  replace (top - 24 + 8) with (top - 16) by lia. replace (top - 16 + 8) with (top - 8) by lia.
  split_and!; try done. rewrite Zminus_mod, Hal. done.
Qed.

Lemma context_first_activation_witness :
  let code := {| KickoffReturned := 0x100; FakeSystemVAbi_address := 0x200 |} in
  let '(c, m') := @PrepareContext code (fun _ => 0) 0x8000 0x300 7 8 9 in
  let entered := FakeSystemVAbi m' (ContextLaunch m' c
                   {| saved := Zero; rdi := 0; rsi := 0; rdx := 0; rip := 0 |}) in
  rip entered = 0x300 /\ rdi entered = 7.
Proof.
  pose proof (@context_first_activation {| KickoffReturned := 0x100; FakeSystemVAbi_address := 0x200 |}
    (fun _ => 0) 0x8000 0x300 7 8 9 {| saved := Zero; rdi := 0; rsi := 0; rdx := 0; rip := 0 |}) as HC.
  cbv zeta. destruct (PrepareContext _ _ _ _ _ _) as [c m'].
  destruct HC as (_ & _ & Hk & Hp & _); [lia|reflexivity|split; simpl; lia..|]. by split.
Defined.
