(* ===== verification/Sched.v ===== *)
(** * Thread/Thread.cpp, Thread/Dispatcher.cpp and Thread/Scheduler.cpp

    Threads are records in a store indexed by address; their queue links live in the
    link store of Lib/Queue.h, so the ready queue and every wait queue share it.  A call
    runs on one core, passed as [core] ([Cpu::GetId()]), inside the Guard.  The switch
    itself is [Context.ContextSwitch] on the registers of that core; it is the last
    action of every operation that switches, so the state an operation answers is the
    state in which the next thread goes on.  Interrupts sent to other cores are recorded
    in order. *)

From S2P Require Import Prelude Mem Queue Config Context.

(** What the thread code needs of Memory/KernelStack.h: a fresh stack, its top answered. *)
Class StackAllocator (K : Type) := { sa_Allocate : K -> outcome (Z * K) }.

(** [sa_inv n k]: the allocator can be asked for [n] more stacks; each call answers a
    16-byte aligned top with room below it, or panics for lack of memory. *)
Class StackAllocatorLaws (K : Type) `{StackAllocator K} := {
  sa_inv : nat -> K -> Prop;
  sa_Allocate_law n k : sa_inv (S n) k ->
    (exists top k', sa_Allocate k = Ok (top, k') /\ sa_inv n k' /\ 24 <= top < 2 ^ 64) \/
    (exists why, sa_Allocate k = Panic why) }.

(** The machine the scheduler runs on: the number of cores ([Cpu::Count()]), the
    addresses of the idle threads and of code, the APIC ids, and a bound on the number of
    threads that serves as the iteration bound of the queue loops. *)
Class Machine := {
  Count : Z;
  s_IdleThread : Z -> Z;
  IdleLoop_address : Z;
  IdleName : Z;
  Kickoff_address : Z;
  GetLocalApicId : Z -> Z;
  MaxThreads : nat }.

Definition is_core `{Machine} (c : Z) : Prop := 0 <= c < Count.

Class MachineLaws `{Machine} : Prop := {
  ml_count : 0 < Count <= Config.MAX_CORES;
  ml_idle c : s_IdleThread c <> 0;
  ml_idle_inj c c' : is_core c -> is_core c' -> s_IdleThread c = s_IdleThread c' -> c = c';
  ml_entry : IdleLoop_address <> 0 }.

(** Vectors of the inter-processor interrupts (Arch/CpuInterrupt.h). *)
Definition ASSASSIN : Z := 0x22.
Definition WAKEUP : Z := 0x23.

Record Thread := {
  m_Name : Z; m_Entry : Z; m_Argument : Z;
  m_Context : Context.Context; m_Dying : bool; m_StackTop : Z }.

(** Following a null pointer is undefined. *)
Definition deref (p : Z) : outcome unit := if p =? 0 then Fault "null pointer" else Ok tt.

Module Sched.
Section Operations.
Context {K : Type} {SA : StackAllocator K} {BB : Build} {CC : Context.Code} {MM : Machine}.

Record t := {
  links : Queue.links;                  (* Thread::m_QueueLink of every thread *)
  threads : Z -> Thread;
  stacks : K;
  memory : mem;
  m_ReadyQueue : Queue.t;
  m_ActiveThread : Z -> Z;              (* per core *)
  tss_stack : Z -> Z;                   (* Gdt::SetKernelStack, per core *)
  syscall_stack : Z -> Z;               (* Syscall::SetKernelStack, per core *)
  cpus : Z -> Context.registers;
  ipis : list (Z * Z) }.                (* destination, vector; newest last *)

Definition with_queue (s : t) (L : Queue.links) (q : Queue.t) : t :=
  {| links := L; threads := threads s; stacks := stacks s; memory := memory s;
     m_ReadyQueue := q; m_ActiveThread := m_ActiveThread s; tss_stack := tss_stack s;
     syscall_stack := syscall_stack s; cpus := cpus s; ipis := ipis s |}.
Definition with_thread (s : t) (x : Z) (th : Thread) : t :=
  {| links := links s; threads := upd (threads s) x th; stacks := stacks s; memory := memory s;
     m_ReadyQueue := m_ReadyQueue s; m_ActiveThread := m_ActiveThread s; tss_stack := tss_stack s;
     syscall_stack := syscall_stack s; cpus := cpus s; ipis := ipis s |}.
Definition with_stacks (s : t) (k : K) (m : mem) : t :=
  {| links := links s; threads := threads s; stacks := k; memory := m;
     m_ReadyQueue := m_ReadyQueue s; m_ActiveThread := m_ActiveThread s; tss_stack := tss_stack s;
     syscall_stack := syscall_stack s; cpus := cpus s; ipis := ipis s |}.
Definition with_active (s : t) (core x : Z) : t :=
  {| links := links s; threads := threads s; stacks := stacks s; memory := memory s;
     m_ReadyQueue := m_ReadyQueue s; m_ActiveThread := upd (m_ActiveThread s) core x;
     tss_stack := tss_stack s; syscall_stack := syscall_stack s; cpus := cpus s; ipis := ipis s |}.
Definition with_cpu (s : t) (core : Z) (r : Context.registers) : t :=
  {| links := links s; threads := threads s; stacks := stacks s; memory := memory s;
     m_ReadyQueue := m_ReadyQueue s; m_ActiveThread := m_ActiveThread s; tss_stack := tss_stack s;
     syscall_stack := syscall_stack s; cpus := upd (cpus s) core r; ipis := ipis s |}.

(** [LocalApic::Ipi::Send(Apic::GetLocalApicId(core), vector)] *)
Definition SendIpi (s : t) (core vector : Z) : t :=
  {| links := links s; threads := threads s; stacks := stacks s; memory := memory s;
     m_ReadyQueue := m_ReadyQueue s; m_ActiveThread := m_ActiveThread s; tss_stack := tss_stack s;
     syscall_stack := syscall_stack s; cpus := cpus s;
     ipis := ipis s ++ [(GetLocalApicId core, vector)] |}.

(** ** Thread *)

Definition IsDying (s : t) (x : Z) : bool := m_Dying (threads s x).
Definition StackTop (s : t) (x : Z) : Z := m_StackTop (threads s x).

Definition MarkDying (s : t) (x : Z) : t :=
  let th := threads s x in
  with_thread s x {| m_Name := m_Name th; m_Entry := m_Entry th; m_Argument := m_Argument th;
                     m_Context := m_Context th; m_Dying := true; m_StackTop := m_StackTop th |}.

Definition set_context (th : Thread) (c : Context.Context) : Thread :=
  {| m_Name := m_Name th; m_Entry := m_Entry th; m_Argument := m_Argument th;
     m_Context := c; m_Dying := m_Dying th; m_StackTop := m_StackTop th |}.

(** [Thread::Prepare()] *)
Definition Prepare (s : t) (x : Z) : outcome t :=
  let th := threads s x in
  if negb (m_StackTop th =? 0) then Ok s
  else
    let* _ := ASSERT (negb (m_Entry th =? 0)) "m_Entry != nullptr" in
    let* (top, k) := sa_Allocate (stacks s) in
    let '(c, m) := Context.PrepareContext (memory s) top Kickoff_address x 0 0 in
    Ok (with_thread (with_stacks s k m) x
          {| m_Name := m_Name th; m_Entry := m_Entry th; m_Argument := m_Argument th;
             m_Context := c; m_Dying := m_Dying th; m_StackTop := top |}).

(** [Thread::Prepare(InName, InEntry, InArgument)] *)
Definition PrepareAs (s : t) (x InName InEntry InArgument : Z) : outcome t :=
  let th := threads s x in
  if negb (m_StackTop th =? 0) then Ok s
  else Prepare (with_thread s x {| m_Name := InName; m_Entry := InEntry; m_Argument := InArgument;
                                   m_Context := m_Context th; m_Dying := m_Dying th;
                                   m_StackTop := m_StackTop th |}) x.

(** [Thread::Resume]: saves the registers of the core and switches to [InNext]. *)
Definition ThreadResume (core : Z) (s : t) (current InNext : Z) : outcome t :=
  let* _ := ASSERT (negb (InNext =? 0)) "InNext != nullptr" in
  let* _ := deref current in
  let* _ := deref InNext in
  let '(r, c) := Context.ContextSwitch (memory s) (m_Context (threads s InNext)) (cpus s core) in
  Ok (with_cpu (with_thread s current (set_context (threads s current) c)) core r).

(** [Thread::Go] *)
Definition ThreadGo (core : Z) (s : t) (x : Z) : t :=
  with_cpu s core (Context.ContextLaunch (memory s) (m_Context (threads s x)) (cpus s core)).

(** ** Dispatcher *)

Definition Active (core : Z) (s : t) : Z := m_ActiveThread s core.
Definition IsActive (s : t) (x core : Z) : bool := m_ActiveThread s core =? x.

Definition SetEntryStack (core : Z) (s : t) (x : Z) : t :=
  {| links := links s; threads := threads s; stacks := stacks s; memory := memory s;
     m_ReadyQueue := m_ReadyQueue s; m_ActiveThread := m_ActiveThread s;
     tss_stack := upd (tss_stack s) core (StackTop s x);
     syscall_stack := upd (syscall_stack s) core (StackTop s x); cpus := cpus s; ipis := ipis s |}.

Definition Go (core : Z) (s : t) (InFirst : Z) : outcome t :=
  let* _ := ASSERT (negb (InFirst =? 0)) "InFirst != nullptr" in
  let* _ := deref InFirst in
  let s := with_active s core InFirst in
  let s := SetEntryStack core s InFirst in
  Ok (ThreadGo core s InFirst).

Definition Dispatch (core : Z) (s : t) (InNext : Z) : outcome t :=
  let current := Active core s in
  let* _ := ASSERT (negb (InNext =? 0)) "InNext != nullptr" in
  let* _ := ASSERT (negb (current =? 0)) "current != nullptr" in
  if current =? InNext then Ok s
  else
    let* _ := deref InNext in
    let s := with_active s core InNext in
    let s := SetEntryStack core s InNext in
    ThreadResume core s current InNext.

(** ** Scheduler *)

Definition IsEmpty (s : t) : bool := Queue.IsEmpty (m_ReadyQueue s).

Definition IsIdle (s : t) (core : Z) : bool := IsActive s (s_IdleThread core) core.

(** The loop of [GetNext]: the first thread in the queue that is not dying, or 0. *)
Fixpoint GetNext_loop (fuel : nat) (dying : Z -> bool) (L : Queue.links) (q : Queue.t)
    : outcome (Z * Queue.links * Queue.t) :=
  match fuel with
  | O => Diverges
  | S k =>
      let '(next, L, q) := Queue.Dequeue L q in
      if next =? 0 then Ok (0, L, q)
      else if negb (dying next) then Ok (next, L, q)
      else GetNext_loop k dying L q
  end.

Definition GetNext (core : Z) (s : t) : outcome (Z * t) :=
  let* r := GetNext_loop (S MaxThreads) (IsDying s) (links s) (m_ReadyQueue s) in
  let '(next, L, q) := r in
  Ok (if next =? 0 then s_IdleThread core else next, with_queue s L q).

Definition Schedule (core : Z) (s : t) : outcome t :=
  let* s := PrepareAs s (s_IdleThread core) IdleName IdleLoop_address 0 in
  let* (next, s) := GetNext core s in
  Go core s next.

(** The first of the [n] cores from [core] on that satisfies [p]. *)
Fixpoint FirstCore (p : Z -> bool) (core : Z) (n : nat) : option Z :=
  match n with
  | O => None
  | S k => if p core then Some core else FirstCore p (core + 1) k
  end.

Definition Append (s : t) (x : Z) : t :=
  let '(_, L, q) := Queue.Append (links s) (m_ReadyQueue s) x in with_queue s L q.

Definition Ready (self : Z) (s : t) (InThread : Z) : outcome t :=
  let* _ := ASSERT (negb (InThread =? 0)) "InThread != nullptr" in
  let* _ := deref InThread in
  let* s := Prepare s InThread in
  let s := Append s InThread in
  Ok (match FirstCore (fun core => negb (core =? self) && IsIdle s core) 0 (Z.to_nat Count) with
      | Some core => SendIpi s core WAKEUP
      | None => s
      end).

Definition Resume (core : Z) (s : t) (InRequeue : bool) : outcome t :=
  let current := Active core s in
  let* _ := ASSERT (negb (current =? 0)) "current != nullptr" in
  let s := if InRequeue && negb (IsDying s current) && negb (current =? s_IdleThread core)
           then Append s current else s in
  let* (next, s) := GetNext core s in
  Dispatch core s next.

Definition Exit (core : Z) (s : t) : outcome t :=
  let* (next, s) := GetNext core s in
  Dispatch core s next.

Definition Kill (s : t) (InThread : Z) : outcome t :=
  let* _ := ASSERT (negb (InThread =? 0)) "InThread != nullptr" in
  let* _ := deref InThread in
  let s := MarkDying s InThread in
  let* r := Queue.Remove (S MaxThreads) (links s) (m_ReadyQueue s) InThread in
  let '(removed, L, q) := r in
  let s := with_queue s L q in
  if removed then Ok s
  else Ok (match FirstCore (fun core => IsActive s InThread core) 0 (Z.to_nat Count) with
           | Some core => SendIpi s core ASSASSIN
           | None => s
           end).

End Operations.
Arguments t : clear implicits.
End Sched.
