(* ===== verification/SchedSpec.v ===== *)
(** * The scheduler against an abstract round-robin scheduler

    The abstract scheduler is a list of ready threads, the thread each core runs and the
    set of dying threads.  [inv] ties it to the link store, the per-core arrays, the
    stacks and the stack allocator; every operation of Thread/Scheduler.cpp is shown to
    simulate its abstract counterpart and to keep [inv]. *)

From S2P Require Import Prelude Mem Queue Config Context Sched.
Import Sched.

(** ** The abstract scheduler *)

(** The first thread that is not dying, and what is behind it; dying threads in front of
    it are dropped. *)
Fixpoint pick (dying : Z -> bool) (ready : list Z) : option Z * list Z :=
  match ready with
  | [] => (None, [])
  | x :: l => if dying x then pick dying l else (Some x, l)
  end.

Record spec := { a_ready : list Z; a_running : Z -> Z; a_dying : Z -> bool }.

Section Abstract.
Context `{MM : Machine}.

Definition a_switch (c : Z) (ready : list Z) (a : spec) : spec :=
  {| a_ready := (pick (a_dying a) ready).2;
     a_running := upd (a_running a) c (default (s_IdleThread c) (pick (a_dying a) ready).1);
     a_dying := a_dying a |}.

Definition a_requeue (c : Z) (requeue : bool) (a : spec) : list Z :=
  if requeue && negb (a_dying a (a_running a c)) && negb (a_running a c =? s_IdleThread c)
  then a_ready a ++ [a_running a c] else a_ready a.

Definition a_resume (c : Z) (requeue : bool) (a : spec) : spec :=
  a_switch c (a_requeue c requeue a) a.

Definition a_exit (c : Z) (a : spec) : spec := a_switch c (a_ready a) a.

Definition a_make_ready (x : Z) (a : spec) : spec :=
  {| a_ready := a_ready a ++ [x]; a_running := a_running a; a_dying := a_dying a |}.

Definition a_kill (x : Z) (a : spec) : spec :=
  {| a_ready := filter (fun y => y <> x) (a_ready a); a_running := a_running a;
     a_dying := upd (a_dying a) x true |}.

End Abstract.

Lemma pick_spec dying ready :
  match pick dying ready with
  | (Some x, rest) => exists dead, ready = dead ++ x :: rest /\
      (forall y, y ∈ dead -> dying y = true) /\ dying x = false
  | (None, rest) => rest = [] /\ forall y, y ∈ ready -> dying y = true
  end.
Proof.
  induction ready as [|x l IH]; simpl; [set_solver|]. destruct (dying x) eqn:E.
  - destruct (pick dying l) as [[y|] rest].
    + destruct IH as (dead & -> & Hd & Hy). exists (x :: dead). split_and!; [done| |done].
      intros z [->|Hz]%elem_of_cons; auto.
    + destruct IH as [-> Hd]. split; [done|]. intros z [->|Hz]%elem_of_cons; auto.
  - exists []. split_and!; [done|set_solver|done].
Qed.

Lemma pick_suffix dying ready : exists front, ready = front ++ (pick dying ready).2.
Proof.
  pose proof (pick_spec dying ready) as H. destruct (pick dying ready) as [[x|] rest]; simpl.
  - destruct H as (dead & -> & _). exists (dead ++ [x]). by rewrite <- app_assoc.
  - destruct H as [-> _]. exists ready. by rewrite app_nil_r.
Qed.

(** ** The loop of GetNext *)

Lemma GetNext_loop_ok fuel dying L q ready :
  Queue.rep L q ready -> (length ready < fuel)%nat ->
  exists L' q', GetNext_loop fuel dying L q = Ok (default 0 (pick dying ready).1, L', q') /\
    Queue.rep L' q' (pick dying ready).2 /\
    (forall y, y ∉ ready -> L' y = L y) /\
    (forall y, y ∈ ready -> y ∉ (pick dying ready).2 -> L' y = 0).
Proof.
  revert L q ready; induction fuel as [|k IH]; intros L q ready Hr Hf; [lia|].
  cbn [GetNext_loop]. destruct ready as [|x l].
  { rewrite Queue.Dequeue_nil by done. exists L, q. split_and!; [done|done|done|set_solver]. }
  destruct (Queue.Dequeue_cons _ _ _ _ Hr) as (L1 & q1 & HD & Hr1 & Hx & Hoff).
  rewrite HD. assert (x <> 0) by (destruct Hr as [(_ & ? & _) _ _]; done). case_test.
  simpl. destruct (dying x) eqn:E; simpl.
  - destruct (IH L1 q1 l Hr1) as (L' & q' & HG & Hr' & Ho' & Hz'); [simpl in Hf; lia|].
    exists L', q'. split_and!; [done|done| |].
    + intros y Hy. rewrite Ho', Hoff by set_solver. done.
    + intros y [->|Hy]%elem_of_cons Hn; [|by apply Hz'].
      destruct (decide (x ∈ l)); [by apply Hz'|]. rewrite Ho' by done. done.
  - exists L1, q1. split_and!; [done|done| |].
    + intros y Hy. apply Hoff. set_solver.
    + intros y [->|Hy]%elem_of_cons Hn; done.
Qed.

Lemma FirstCore_spec p core n :
  match FirstCore p core n with
  | Some c => core <= c < core + Z.of_nat n /\ p c = true /\ forall c', core <= c' < c -> p c' = false
  | None => forall c', core <= c' < core + Z.of_nat n -> p c' = false
  end.
Proof.
  revert core; induction n as [|n IH]; intros core; cbn [FirstCore]; [intros; lia|].
  destruct (p core) eqn:E; [split_and!; [lia|lia|done|intros; lia]|].
  specialize (IH (core + 1)). destruct (FirstCore p (core + 1) n).
  - destruct IH as (? & ? & H). split_and!; [lia|lia|done|]. intros c' Hc.
    destruct (Z.eq_dec c' core) as [->|]; [done|]. apply H. lia.
  - intros c' Hc. destruct (Z.eq_dec c' core) as [->|]; [done|]. apply IH. lia.
Qed.

Lemma filter_drop_one (f g : Z -> Prop) `{!forall x, Decision (f x), !forall x, Decision (g x)} l x :
  NoDup l -> x ∈ l -> f x -> ~ g x -> (forall y, y <> x -> f y <-> g y) ->
  length (filter f l) = S (length (filter g l)).
Proof.
  intros Hn Hx Hf Hg He. induction l as [|y l IH]; [set_solver|].
  apply NoDup_cons in Hn as [Hy Hn]. rewrite !filter_cons. destruct (decide (y = x)) as [->|Hne].
  - rewrite decide_True, decide_False by done. simpl. f_equal. clear IH Hx Hn.
    induction l as [|z l IH]; [done|]. rewrite !filter_cons.
    assert (z <> x) by set_solver. specialize (IH ltac:(set_solver)).
    destruct (decide (f z)) as [Hz|Hz].
    + rewrite decide_True by (by apply He). simpl. by rewrite IH.
    + rewrite decide_False by (by rewrite <- He). done.
  - assert (x ∈ l) by set_solver. destruct (decide (f y)) as [Hz|Hz].
    + rewrite decide_True by (by apply He). simpl. by rewrite IH.
    + rewrite decide_False by (by rewrite <- He). by apply IH.
Qed.

(** ** The invariant *)

Section Spec.
Context {K : Type} {SA : StackAllocator K} {SL : StackAllocatorLaws K} {BB : Build} {CC : Context.Code}
        {MM : Machine} {ML : MachineLaws}.
Implicit Types (s : Sched.t K) (pop ready : list Z) (parked : Z -> Prop) (c x : Z).

Definition idle (x : Z) : Prop := exists c, is_core c /\ x = s_IdleThread c.
Definition top_of s x : Z := m_StackTop (threads s x).
Definition unprepared pop s : nat := length (filter (fun x => top_of s x = 0) pop).

(** [pop] is every thread of the system, idle threads included; [parked] are the threads
    that wait elsewhere.  A thread is in the ready queue, parked or active on one core,
    never in two of these places; links outside the queues are null; the entry stacks of
    a core follow its thread. *)
Record inv pop ready parked s : Prop := {
  i_nodup : NoDup pop;
  i_bound : (length pop <= MaxThreads)%nat;
  i_null : 0 ∉ pop;
  i_idle c : is_core c -> s_IdleThread c ∈ pop;
  i_rep : Queue.rep (links s) (m_ReadyQueue s) ready;
  i_off x : x ∉ ready -> ~ parked x -> links s x = 0;
  i_ready x : x ∈ ready -> x ∈ pop /\ ~ idle x /\ top_of s x <> 0 /\ ~ parked x /\
    forall c, is_core c -> m_ActiveThread s c <> x;
  i_parked x : parked x -> x ∈ pop /\ ~ idle x /\ top_of s x <> 0 /\
    forall c, is_core c -> m_ActiveThread s c <> x;
  i_active c : is_core c -> m_ActiveThread s c <> 0 ->
    m_ActiveThread s c ∈ pop /\ top_of s (m_ActiveThread s c) <> 0 /\
    top_of s (s_IdleThread c) <> 0 /\
    (idle (m_ActiveThread s c) -> m_ActiveThread s c = s_IdleThread c) /\
    tss_stack s c = top_of s (m_ActiveThread s c) /\
    syscall_stack s c = top_of s (m_ActiveThread s c);
  i_inj c c' : is_core c -> is_core c' -> m_ActiveThread s c <> 0 ->
    m_ActiveThread s c = m_ActiveThread s c' -> c = c';
  i_entry x : x ∈ pop -> ~ idle x -> m_Entry (threads s x) <> 0;
  i_room : sa_inv (unprepared pop s) (stacks s) }.

Lemma ready_short pop ready parked s : inv pop ready parked s -> (length ready <= MaxThreads)%nat.
Proof.
  intros HI. etransitivity; [|exact (i_bound _ _ _ _ HI)].
  apply submseteq_length, NoDup_submseteq; [exact (Queue.rep_nodup _ _ _ (i_rep _ _ _ _ HI))|].
  intros x Hx. by apply (i_ready _ _ _ _ HI).
Qed.

Lemma pop_nonzero pop ready parked s x : inv pop ready parked s -> x ∈ pop -> x <> 0.
Proof. intros HI Hx ->. by apply (i_null _ _ _ _ HI). Qed.

(** What a switch leaves alone. *)
Definition keeps s s' : Prop :=
  (forall x, IsDying s' x = IsDying s x) /\ (forall x, top_of s' x = top_of s x) /\
  (forall x, m_Entry (threads s' x) = m_Entry (threads s x)) /\
  stacks s' = stacks s /\ ipis s' = ipis s.

Lemma unprepared_same pop s s' :
  (forall x, top_of s' x = top_of s x) -> unprepared pop s' = unprepared pop s.
Proof.
  intros H. unfold unprepared. f_equal. apply list_filter_iff. intros x. by rewrite H.
Qed.

Lemma Dispatch_ok c s next :
  next <> 0 -> m_ActiveThread s c <> 0 ->
  exists s', Dispatch c s next = Ok s' /\ keeps s s' /\
    links s' = links s /\ m_ReadyQueue s' = m_ReadyQueue s /\
    (forall c', m_ActiveThread s' c' = upd (m_ActiveThread s) c next c') /\
    (m_ActiveThread s c = next -> s' = s) /\
    (m_ActiveThread s c <> next ->
       (forall c', tss_stack s' c' = upd (tss_stack s) c (top_of s next) c') /\
       (forall c', syscall_stack s' c' = upd (syscall_stack s) c (top_of s next) c')).
Proof.
  intros Hn Hc. unfold Dispatch, Active. destruct (Z.eqb_spec next 0); [done|].
  destruct (Z.eqb_spec (m_ActiveThread s c) 0); [done|]. simpl. rewrite !ASSERT_true. cbn [obind].
  destruct (Z.eqb_spec (m_ActiveThread s c) next) as [E|E].
  - exists s. split_and!; try done. intros c'. unfold upd. case_test; congruence.
  - unfold deref, ThreadResume. destruct (Z.eqb_spec next 0); [done|]. cbn [obind negb].
    rewrite ASSERT_true. cbn [obind]. unfold deref.
    destruct (Z.eqb_spec (m_ActiveThread s c) 0); [done|].
    destruct (Z.eqb_spec next 0); [done|]. cbn [obind].
    destruct (Context.ContextSwitch _ _ _) as [r ctx] eqn:EC. eexists. split; [done|].
    unfold keeps, IsDying, top_of. simpl.
    split_and!; try done; intros x; unfold upd; case_test; subst; done.
Qed.

(** Thread [x] may be moved while core [c] switches: it was ready, parked or running there. *)
Definition movable (ready : list Z) (parked : Z -> Prop) s c x : Prop :=
  x ∈ ready \/ parked x \/ x = m_ActiveThread s c /\ x <> 0 /\ ~ idle x.

Lemma movable_facts pop ready parked s c x :
  inv pop ready parked s -> is_core c -> movable ready parked s c x ->
  x ∈ pop /\ ~ idle x /\ top_of s x <> 0 /\
  forall c', is_core c' -> c' <> c -> m_ActiveThread s c' <> x.
Proof.
  intros HI Hc [Hx|[Hx|(-> & H0 & Hx)]].
  - destruct (i_ready _ _ _ _ HI x Hx) as (? & ? & ? & _ & Hact). split_and!; auto.
  - destruct (i_parked _ _ _ _ HI x Hx) as (? & ? & ? & Hact). split_and!; auto.
  - destruct (i_active _ _ _ _ HI c Hc H0) as (? & ? & _). split_and!; [done|done|done|].
    intros c' Hc' Hne E. apply Hne. apply (i_inj _ _ _ _ HI c' c); congruence.
Qed.

(** Putting core [c] to thread [next]: the new queues [ready'], [parked'] came out of the
    old ones and the thread the core was running, and [next] is in neither of them. *)
Lemma place pop ready parked s s' c ready' parked' next :
  inv pop ready parked s -> is_core c -> top_of s (s_IdleThread c) <> 0 ->
  Queue.rep (links s') (m_ReadyQueue s') ready' ->
  (forall x, x ∉ ready' -> ~ parked' x -> links s' x = 0) -> (forall x, x ∈ ready' -> ~ parked' x) ->
  (forall x, x ∈ ready' \/ parked' x -> movable ready parked s c x) ->
  next ∉ ready' -> ~ parked' next ->
  (next = s_IdleThread c \/ movable ready parked s c next) ->
  keeps s s' -> (forall c', m_ActiveThread s' c' = upd (m_ActiveThread s) c next c') ->
  (forall c', is_core c' -> m_ActiveThread s' c' <> 0 ->
     tss_stack s' c' = top_of s (m_ActiveThread s' c') /\
     syscall_stack s' c' = top_of s (m_ActiveThread s' c')) ->
  inv pop ready' parked' s'.
Proof.
  intros HI Hc Hit Hrep Hoff Hdis Hfrom Hnr Hnp Hnext (Hkd & Hkt & Hke & Hks & Hki) HA Hstk.
  assert (Hn : next ∈ pop /\ top_of s next <> 0 /\ (idle next -> next = s_IdleThread c) /\
               forall c', is_core c' -> c' <> c -> m_ActiveThread s c' <> next).
  { destruct Hnext as [->|Hm].
    - split_and!; [by apply (i_idle _ _ _ _ HI)|done|done|]. intros c' Hc' Hne E.
      destruct (i_active _ _ _ _ HI c' Hc') as (_ & _ & _ & Hi & _); [rewrite E; apply ml_idle|].
      rewrite E in Hi. apply Hne. apply ml_idle_inj; [done|done|]. symmetry. apply Hi. by exists c.
    - destruct (movable_facts _ _ _ _ _ _ HI Hc Hm) as (? & ? & ? & Hact). by split_and!. }
  destruct Hn as (Hnpop & Hntop & Hnidle & Hnact).
  assert (Hmove : forall x, x <> next -> movable ready parked s c x ->
    x ∈ pop /\ ~ idle x /\ top_of s' x <> 0 /\ forall c', is_core c' -> m_ActiveThread s' c' <> x).
  { intros x Hxn Hx. rewrite Hkt. destruct (movable_facts _ _ _ _ _ _ HI Hc Hx) as (? & ? & ? & Hact).
    split_and!; try done. intros c' Hc'. rewrite HA. unfold upd. case_test; [done|]. by apply Hact. }
  destruct HI. split; try done.
  - intros x Hx. destruct (Hmove x) as (? & ? & ? & ?); [congruence|by apply Hfrom; left|].
    split_and!; auto.
  - intros x Hx. apply Hmove; [congruence|by apply Hfrom; right].
  - intros c' Hc' H0. destruct (Hstk c' Hc' H0) as [-> ->]. rewrite !Hkt.
    rewrite HA in *. unfold upd in *. destruct (Z.eqb_spec c' c) as [->|].
    + split_and!; auto.
    + destruct (i_active0 c' Hc' H0) as (? & ? & ? & ? & ? & ?). split_and!; auto.
  - intros c1 c2 H1 H2. rewrite !HA. unfold upd. repeat case_test; subst; try done.
    + intros _ E. exfalso. by apply (Hnact c2).
    + intros _ E. exfalso. by apply (Hnact c1).
    + by apply i_inj0.
  - intros x Hx Hni. rewrite Hke. by apply i_entry0.
  - rewrite Hks, (unprepared_same pop s) by done. done.
Qed.

(** The stack registers after a switch. *)
Lemma entry_stacks pop ready parked s s' c next :
  inv pop ready parked s -> is_core c ->
  (forall c', m_ActiveThread s' c' = upd (m_ActiveThread s) c next c') ->
  (forall c', tss_stack s' c' = upd (tss_stack s) c (top_of s next) c') ->
  (forall c', syscall_stack s' c' = upd (syscall_stack s) c (top_of s next) c') ->
  forall c', is_core c' -> m_ActiveThread s' c' <> 0 ->
    tss_stack s' c' = top_of s (m_ActiveThread s' c') /\
    syscall_stack s' c' = top_of s (m_ActiveThread s' c').
Proof.
  intros HI Hc HA H1 H2 c' Hc'. rewrite HA, H1, H2. unfold upd. case_test; [done|].
  intros H0. by destruct (i_active _ _ _ _ HI c' Hc' H0) as (_ & _ & _ & _ & ? & ?).
Qed.

Lemma settle pop ready parked s c L q ready' parked' next :
  inv pop ready parked s -> is_core c -> m_ActiveThread s c <> 0 ->
  Queue.rep L q ready' -> (forall x, x ∉ ready' -> ~ parked' x -> L x = 0) ->
  (forall x, x ∈ ready' -> ~ parked' x) ->
  (forall x, x ∈ ready' \/ parked' x -> movable ready parked s c x) ->
  next ∉ ready' -> ~ parked' next ->
  (next = s_IdleThread c \/ movable ready parked s c next) ->
  exists s', Dispatch c (with_queue s L q) next = Ok s' /\ inv pop ready' parked' s' /\
    keeps s s' /\ links s' = L /\
    (forall c', m_ActiveThread s' c' = upd (m_ActiveThread s) c next c').
Proof.
  intros HI Hc Ha Hrep Hoff Hdis Hfrom Hnr Hnp Hnext.
  pose proof (i_active _ _ _ _ HI c Hc Ha) as (_ & _ & Hit & _ & Hs1 & Hs2).
  assert (next <> 0).
  { destruct Hnext as [->|Hm]; [apply ml_idle|].
    destruct (movable_facts _ _ _ _ _ _ HI Hc Hm) as (Hx & _). by apply (pop_nonzero pop ready parked s). }
  destruct (Dispatch_ok c (with_queue s L q) next) as (s' & HD & Hk & HL & HQ & HA & Hsame & Hdiff);
    [done|done|].
  exists s'. split; [done|]. split; [|by split_and!].
  apply (place pop ready parked s s' c ready' parked' next); try done.
  - by rewrite HL, HQ.
  - by rewrite HL.
  - destruct (decide (m_ActiveThread s c = next)) as [E|E].
    + rewrite (Hsame E). intros c' Hc'. simpl. intros H0.
      by destruct (i_active _ _ _ _ HI c' Hc' H0) as (_ & _ & _ & _ & ? & ?).
    + destruct (Hdiff E) as [H1 H2]. by apply (entry_stacks pop ready parked s s' c next).
Qed.

(** [GetNext] followed by [Dispatch], the tail of every operation that switches. *)
Lemma switch_ok pop ready parked s c L1 q1 ready1 (parked1 : Z -> Prop) :
  inv pop ready parked s -> is_core c -> m_ActiveThread s c <> 0 ->
  Queue.rep L1 q1 ready1 -> (forall x, x ∉ ready1 -> ~ parked1 x -> L1 x = 0) ->
  (forall x, x ∈ ready1 -> ~ parked1 x) ->
  (forall x, x ∈ ready1 \/ parked1 x -> movable ready parked s c x) ->
  exists s', (let* (next, s2) := GetNext c (with_queue s L1 q1) in Dispatch c s2 next) = Ok s' /\
    inv pop (pick (IsDying s) ready1).2 parked1 s' /\ keeps s s' /\
    (forall x, x ∉ ready1 -> links s' x = L1 x) /\
    (forall c', m_ActiveThread s' c' = upd (m_ActiveThread s) c
       (default (s_IdleThread c) (pick (IsDying s) ready1).1) c').
Proof.
  intros HI Hc Ha Hrep Hoff Hdis Hfrom.
  assert (Hsub : forall x, x ∈ ready1 -> x ∈ pop).
  { intros x Hx. by destruct (movable_facts _ _ _ _ _ _ HI Hc (Hfrom x (or_introl Hx))). }
  assert (Hlen : (length ready1 <= MaxThreads)%nat).
  { etransitivity; [|exact (i_bound _ _ _ _ HI)]. apply submseteq_length, NoDup_submseteq; [|done].
    exact (Queue.rep_nodup _ _ _ Hrep). }
  destruct (GetNext_loop_ok (S MaxThreads) (IsDying s) L1 q1 ready1 Hrep) as
    (L & q & HG & Hrep' & Ho & Hz); [lia|].
  unfold GetNext. change (IsDying (with_queue s L1 q1)) with (IsDying s).
  change (links (with_queue s L1 q1)) with L1. change (m_ReadyQueue (with_queue s L1 q1)) with q1.
  rewrite HG. cbn [obind]. pose proof (pick_spec (IsDying s) ready1) as Hpick.
  destruct (pick (IsDying s) ready1) as [next rest]. simpl in *.
  assert (Hrest : forall x, x ∈ rest -> x ∈ ready1).
  { intros x Hx. destruct next; [|destruct Hpick as [-> _]; set_solver].
    destruct Hpick as (dead & -> & _). set_solver. }
  replace (if default 0 next =? 0 then s_IdleThread c else default 0 next)
    with (default (s_IdleThread c) next).
  2:{ destruct next as [n|]; simpl; [|done]. case_test; [|done]. subst n. exfalso.
      apply (i_null _ _ _ _ HI), Hsub. destruct Hpick as (dead & -> & _). set_solver. }
  change (with_queue (with_queue s L1 q1) L q) with (with_queue s L q).
  destruct (settle pop ready parked s c L q rest parked1 (default (s_IdleThread c) next))
    as (s' & HD & HI' & Hk & HL & HA); try done.
  - intros x Hx Hn. destruct (decide (x ∈ ready1)); [by apply Hz|]. rewrite Ho by done. by apply Hoff.
  - intros x Hx. by apply Hdis, Hrest.
  - intros x [Hx|Hx]; apply Hfrom; [left; by apply Hrest|by right].
  - destruct next as [n|]; simpl; [|destruct Hpick as [-> _]; set_solver].
    destruct Hpick as (dead & -> & _). pose proof (Queue.rep_nodup _ _ _ Hrep) as Hn.
    apply NoDup_app in Hn as (_ & _ & [Hn _]%NoDup_cons). done.
  - destruct next as [n|]; simpl.
    + apply Hdis. destruct Hpick as (dead & -> & _). set_solver.
    + intros Hpi. destruct (movable_facts _ _ _ _ _ _ HI Hc (Hfrom _ (or_intror Hpi))) as (_ & Hni & _).
      apply Hni. by exists c.
  - destruct next as [n|]; simpl; [|by left]. right. apply Hfrom. left.
    destruct Hpick as (dead & -> & _). set_solver.
  - exists s'. split_and!; try done. intros x Hx. rewrite HL. by apply Ho.
Qed.

Lemma active_unlinked pop ready parked s c :
  inv pop ready parked s -> is_core c -> m_ActiveThread s c <> 0 ->
  Queue.unlinked (links s) ready (m_ActiveThread s c) /\ ~ parked (m_ActiveThread s c).
Proof.
  intros HI Hc Ha.
  assert (m_ActiveThread s c ∉ ready).
  { intros Hin. destruct (i_ready _ _ _ _ HI _ Hin) as (_ & _ & _ & _ & Hact). by apply (Hact c). }
  assert (~ parked (m_ActiveThread s c)).
  { intros Hin. destruct (i_parked _ _ _ _ HI _ Hin) as (_ & _ & _ & Hact). by apply (Hact c). }
  split; [|done]. split; [done|]. split; [|done]. by apply (i_off _ _ _ _ HI).
Qed.

Lemma Append_ready ready (parked : Z -> Prop) s x :
  Queue.rep (links s) (m_ReadyQueue s) ready -> (forall y, y ∉ ready -> ~ parked y -> links s y = 0) ->
  Queue.unlinked (links s) ready x ->
  exists L q, Append s x = with_queue s L q /\ Queue.rep L q (ready ++ [x]) /\
    (forall y, y ∉ ready ++ [x] -> ~ parked y -> L y = 0) /\
    (forall y, y ∉ ready ++ [x] -> L y = links s y).
Proof.
  intros Hr Hoff Hu. destruct (Queue.Append_unlinked _ _ _ _ Hr Hu) as (L & q & HA & Hr' & _ & Ho).
  unfold Append. rewrite HA. exists L, q. split_and!; [done|done| |].
  - intros y Hy Hp. rewrite Ho by set_solver. apply Hoff; [set_solver|done].
  - intros y Hy. apply Ho. set_solver.
Qed.

(** The requeueing part of [Resume]. *)
Definition requeued (s : Sched.t K) (ready : list Z) (c : Z) (b : bool) : list Z :=
  if b && negb (IsDying s (m_ActiveThread s c)) && negb (m_ActiveThread s c =? s_IdleThread c)
  then ready ++ [m_ActiveThread s c] else ready.

Lemma Resume_ok pop ready parked s c b :
  inv pop ready parked s -> is_core c -> m_ActiveThread s c <> 0 ->
  exists s', Resume c s b = Ok s' /\
    inv pop (pick (IsDying s) (requeued s ready c b)).2 parked s' /\ keeps s s' /\
    (forall x, x ∉ requeued s ready c b -> links s' x = links s x) /\
    (forall c', m_ActiveThread s' c' = upd (m_ActiveThread s) c
       (default (s_IdleThread c) (pick (IsDying s) (requeued s ready c b)).1) c').
Proof.
  intros HI Hc Ha. destruct (active_unlinked _ _ _ _ _ HI Hc Ha) as [Hu Hnp].
  unfold Resume, Active, requeued.
  destruct (Z.eqb_spec (m_ActiveThread s c) 0); [done|]. simpl. rewrite ASSERT_true. cbn [obind].
  destruct (b && negb (IsDying s (m_ActiveThread s c)) &&
            negb (m_ActiveThread s c =? s_IdleThread c)) eqn:E.
  - destruct (Append_ready ready parked s _ (i_rep _ _ _ _ HI) (i_off _ _ _ _ HI) Hu)
      as (L & q & -> & Hr & Hoff & Hsame).
    destruct (switch_ok pop ready parked s c L q (ready ++ [m_ActiveThread s c]) parked)
      as (s' & HS & HI' & Hk & HL & HA); try done.
    + intros x Hx. apply elem_of_app in Hx as [Hx|Hx]; [by apply (i_ready _ _ _ _ HI)|].
      apply list_elem_of_singleton in Hx as ->. done.
    + intros x [Hx|Hx]; [|right; by left]. apply elem_of_app in Hx as [Hx|Hx]; [by left|].
      apply list_elem_of_singleton in Hx as ->. right; right. split_and!; [done|done|]. intros Hi.
      destruct (i_active _ _ _ _ HI c Hc Ha) as (_ & _ & _ & Hid & _). rewrite (Hid Hi), Z.eqb_refl in E.
      simpl in E. rewrite andb_false_r in E. done.
    + exists s'. split_and!; try done. intros x Hx. by rewrite HL, Hsame.
  - destruct (switch_ok pop ready parked s c (links s) (m_ReadyQueue s) ready parked)
      as (s' & HS & HI' & Hk & HL & HA); try done.
    + exact (i_rep _ _ _ _ HI).
    + exact (i_off _ _ _ _ HI).
    + intros x Hx. by apply (i_ready _ _ _ _ HI).
    + intros x [Hx|Hx]; [by left|right; by left].
    + exists s'. by split_and!.
Qed.

(** [Exit] never requeues; it is the tail of [Resume(false)]. *)
Lemma Exit_Resume c s : m_ActiveThread s c <> 0 -> Exit c s = Resume c s false.
Proof.
  intros Ha. unfold Exit, Resume, Active. destruct (Z.eqb_spec (m_ActiveThread s c) 0); [done|].
  simpl. by rewrite ASSERT_true.
Qed.

(** [Prepare] gives a thread its stack once; a thread that has one is left alone. *)
Lemma Prepare_ok pop ready parked s x :
  inv pop ready parked s -> x ∈ pop -> m_Entry (threads s x) <> 0 \/ top_of s x <> 0 ->
  (exists s', Prepare s x = Ok s' /\ inv pop ready parked s' /\ top_of s' x <> 0 /\
     (forall y, IsDying s' y = IsDying s y) /\
     links s' = links s /\ m_ReadyQueue s' = m_ReadyQueue s /\
     m_ActiveThread s' = m_ActiveThread s /\ ipis s' = ipis s) \/
  (top_of s x = 0 /\ exists why, Prepare s x = Panic why).
Proof.
  intros HI Hx He. unfold Prepare. fold (top_of s x). destruct (Z.eqb_spec (top_of s x) 0) as [E|E]; cbn [negb].
  2:{ left. exists s. by split_and!. }
  destruct (Z.eqb_spec (m_Entry (threads s x)) 0); [naive_solver|]. cbn [negb]. rewrite ASSERT_true. cbn [obind].
  set (g := fun y => y <> x /\ top_of s y = 0).
  assert (Hcount : unprepared pop s = S (length (filter g pop))).
  { apply (filter_drop_one _ g pop x); [by eapply i_nodup|done|done| |]; unfold g; naive_solver. }
  pose proof (i_room _ _ _ _ HI) as Hroom. rewrite Hcount in Hroom.
  destruct (sa_Allocate_law _ _ Hroom) as [(top & k & -> & Hk & Ht)|[why ->]]; [|right; split; [done|by exists why]].
  left. cbn [obind]. destruct (Context.PrepareContext _ _ _ _ _ _) as [ctx m]. eexists. split; [done|].
  set (s' := with_thread _ _ _). simpl in *.
  assert (Htop : forall y, top_of s' y = if y =? x then top else top_of s y).
  { intros y. unfold top_of, s'. simpl. unfold upd. by destruct (y =? x). }
  assert (Hkeep : forall y, top_of s y <> 0 -> top_of s' y = top_of s y).
  { intros y Hy. rewrite Htop. case_test; [congruence|done]. }
  assert (Hd : forall y, IsDying s' y = IsDying s y).
  { intros y. unfold IsDying, s'. simpl. unfold upd. by case_test; subst. }
  split_and!; try done; [|rewrite Htop, Z.eqb_refl; lia].
  destruct HI. split; try done.
  - intros y Hy. destruct (i_ready0 y Hy) as (? & ? & ? & ? & ?). rewrite Hkeep by done. by split_and!.
  - intros y Hy. destruct (i_parked0 y Hy) as (? & ? & ? & ?). rewrite Hkeep by done. by split_and!.
  - intros c Hc H0. destruct (i_active0 c Hc H0) as (? & ? & ? & ? & ? & ?).
    change (m_ActiveThread s' c) with (m_ActiveThread s c). rewrite !Hkeep by done. by split_and!.
  - intros y Hy Hni. unfold s'. simpl. unfold upd. case_test; subst; by apply i_entry0.
  - change (stacks s') with k. replace (unprepared pop s') with (length (filter g pop)); [done|].
    unfold unprepared. f_equal. apply list_filter_iff. intros y. unfold g. rewrite Htop.
    case_test; [|naive_solver]. split; [naive_solver|lia].
Qed.

(** Sending an interrupt changes nothing the invariant is about. *)
Lemma inv_SendIpi pop ready parked s c v :
  inv pop ready parked s -> inv pop ready parked (SendIpi s c v).
Proof. intros []. by split. Qed.

(** Linking a thread that is in no queue into the ready queue. *)
Lemma inv_Append pop ready parked (parked' : Z -> Prop) s x L q :
  inv pop ready parked s ->
  (forall y, parked' y <-> parked y /\ y <> x) ->
  x ∈ pop -> ~ idle x -> top_of s x <> 0 -> (forall c, is_core c -> m_ActiveThread s c <> x) ->
  Queue.rep L q (ready ++ [x]) -> (forall y, y ∉ ready ++ [x] -> ~ parked y -> L y = 0) ->
  inv pop (ready ++ [x]) parked' (with_queue s L q).
Proof.
  intros [] Hp Hx Hi Ht Ha Hr Hoff. split; try done.
  - intros y Hy Hny. apply Hoff; [done|]. intros Hpy. apply Hny, Hp. split; [done|set_solver].
  - intros y [Hy|Hy%list_elem_of_singleton]%elem_of_app; [|subst y].
    + destruct (i_ready0 y Hy) as (? & ? & ? & ? & ?). split_and!; try done. rewrite Hp. naive_solver.
    + split_and!; try done. rewrite Hp. naive_solver.
  - intros y [Hy _]%Hp. by apply i_parked0.
Qed.

(** [Ready] of a thread that is in no queue and on no core: it ends up at the back of the
    ready queue, with a stack, and the lowest idle core other than the caller is woken.
    [parked x] covers a thread that was just taken off a wait queue. *)
Lemma Ready_ok pop ready parked (parked' : Z -> Prop) s self x :
  inv pop ready parked s -> (forall y, parked' y <-> parked y /\ y <> x) ->
  x ∈ pop -> ~ idle x -> Queue.unlinked (links s) ready x ->
  (forall c, is_core c -> m_ActiveThread s c <> x) ->
  (exists s', Ready self s x = Ok s' /\ inv pop (ready ++ [x]) parked' s' /\
     (forall y, IsDying s' y = IsDying s y) /\ m_ActiveThread s' = m_ActiveThread s /\
     (forall y, y ∉ ready ++ [x] -> links s' y = links s y) /\
     (forall c, is_core c -> c <> self -> m_ActiveThread s c = s_IdleThread c ->
        exists c', is_core c' /\ c' <= c /\ c' <> self /\ m_ActiveThread s c' = s_IdleThread c' /\
          ipis s' = ipis s ++ [(GetLocalApicId c', WAKEUP)])) \/
  (top_of s x = 0 /\ exists why, Ready self s x = Panic why).
Proof.
  intros HI Hp Hx Hi Hu Ha. pose proof (pop_nonzero _ _ _ _ _ HI Hx) as H0.
  unfold Ready, deref. destruct (Z.eqb_spec x 0); [done|]. simpl. rewrite ASSERT_true. cbn [obind].
  destruct (Prepare_ok _ _ _ _ x HI Hx) as [(s1 & HP & HI1 & Ht & Hd & HL & HQ & HA & Hip)|[H1 [why HP]]];
    [left; by eapply i_entry| |right; split; [done|exists why; by rewrite HP]].
  left. rewrite HP. cbn [obind]. rewrite <- HL in Hu.
  destruct (Append_ready ready parked s1 x (i_rep _ _ _ _ HI1) (i_off _ _ _ _ HI1) Hu)
    as (L & q & -> & Hr & Hoff & Hsame).
  assert (HI2 : inv pop (ready ++ [x]) parked' (with_queue s1 L q)).
  { apply (inv_Append pop ready parked); try done. by rewrite HA. }
  pose proof (FirstCore_spec (fun core => negb (core =? self) && IsIdle (with_queue s1 L q) core) 0 (Z.to_nat Count)) as HF.
  destruct (FirstCore _ 0 (Z.to_nat Count)) as [w|].
  - eexists. split; [done|]. split_and!; [by apply inv_SendIpi|done|done| |].
    + intros y Hy. simpl. by rewrite Hsame, HL.
    + destruct HF as (Hw & Hwi & Hmin). intros c Hc Hcs Hci. exists w.
      unfold IsIdle, IsActive in *. simpl in *. rewrite HA in *. rewrite andb_true_iff, negb_true_iff in Hwi.
      rewrite Z.eqb_neq, Z.eqb_eq in Hwi. destruct Hwi as [Hws Hwi]. pose proof ml_count.
      split_and!; [unfold is_core; lia| |done|done|by rewrite Hip].
      destruct (Z.le_gt_cases w c); [done|]. exfalso.
      specialize (Hmin c). rewrite Hci, Z.eqb_refl, andb_true_r, negb_false_iff, Z.eqb_eq in Hmin.
      unfold is_core in Hc. apply Hcs, Hmin. lia.
  - eexists. split; [done|]. split_and!; [done|done|done| |].
    + intros y Hy. simpl. by rewrite Hsame, HL.
    + intros c Hc Hcs Hci. exfalso. specialize (HF c). unfold IsIdle, IsActive in HF. simpl in HF.
      rewrite HA, Hci, Z.eqb_refl, andb_true_r, negb_false_iff, Z.eqb_eq in HF.
      unfold is_core in Hc. apply Hcs, HF. lia.
Qed.

Lemma filter_absent (l : list Z) (x : Z) : x ∉ l -> filter (fun y => y <> x) l = l.
Proof. intros Hx. apply filter_true. set_solver. Qed.

Lemma filter_remove (l1 l2 : list Z) (x : Z) :
  NoDup (l1 ++ x :: l2) -> filter (fun y => y <> x) (l1 ++ x :: l2) = l1 ++ l2.
Proof.
  intros Hn. rewrite filter_app, filter_cons_False by auto.
  apply NoDup_app in Hn as (_ & Hd & [Hx _]%NoDup_cons).
  rewrite !filter_absent; [done|done|]. intros Hx1. apply (Hd x Hx1). set_solver.
Qed.

Lemma inv_dying pop ready parked s x :
  inv pop ready parked s -> inv pop ready parked (MarkDying s x) /\
  forall y, IsDying (MarkDying s x) y = upd (IsDying s) x true y.
Proof.
  intros HI. assert (Ht : forall y, top_of (MarkDying s x) y = top_of s y).
  { intros y. unfold top_of, MarkDying. simpl. unfold upd. by case_test; subst. }
  split; [|intros y; unfold IsDying, MarkDying; simpl; unfold upd; by case_test; subst].
  destruct HI. split; try done; intros; rewrite ?Ht in *; auto.
  - by apply i_active0.
  - unfold MarkDying. simpl. unfold upd. case_test; subst; simpl; auto.
  - rewrite (unprepared_same pop s) by done. done.
Qed.

(** Taking threads out of the ready queue. *)
Lemma inv_dequeue pop ready parked s ready' L q :
  inv pop ready parked s -> Queue.rep L q ready' -> (forall x, x ∈ ready' -> x ∈ ready) ->
  (forall x, x ∉ ready' -> ~ parked x -> L x = 0) ->
  inv pop ready' parked (with_queue s L q).
Proof. intros [] Hr Hsub Hoff. split; try done. intros x Hx. by apply i_ready0, Hsub. Qed.

(** [Kill] marks the thread and takes it off the ready queue; if it was not there and runs
    on a core, that core is interrupted. *)
Lemma Kill_ok pop ready parked s x :
  inv pop ready parked s -> x ∈ pop ->
  exists s', Kill s x = Ok s' /\ inv pop (filter (fun y => y <> x) ready) parked s' /\
    (forall y, IsDying s' y = upd (IsDying s) x true y) /\ m_ActiveThread s' = m_ActiveThread s /\
    (forall y, y ∉ ready -> links s' y = links s y) /\
    (forall c, is_core c -> m_ActiveThread s c = x ->
       ipis s' = ipis s ++ [(GetLocalApicId c, ASSASSIN)]) /\
    (x ∈ ready -> ipis s' = ipis s).
Proof.
  intros HI Hx. pose proof (pop_nonzero _ _ _ _ _ HI Hx) as H0.
  destruct (inv_dying _ _ _ _ x HI) as [HI1 Hd]. pose proof (ready_short _ _ _ _ HI) as Hlen.
  unfold Kill, deref. destruct (Z.eqb_spec x 0); [done|]. simpl. rewrite ASSERT_true. cbn [obind].
  change (links (MarkDying s x)) with (links s).
  change (m_ReadyQueue (MarkDying s x)) with (m_ReadyQueue s).
  pose proof (i_rep _ _ _ _ HI) as Hr. destruct (decide (x ∈ ready)) as [Hin|Hin].
  - apply list_elem_of_split in Hin as (l1 & l2 & ->).
    rewrite length_app in Hlen. simpl in Hlen.
    destruct (Queue.Remove_member (S MaxThreads) _ _ l1 x l2 Hr) as (L & q & HR & Hr' & HLx & Ho); [lia|].
    rewrite HR. cbn [obind]. eexists. split; [done|].
    rewrite filter_remove by exact (Queue.rep_nodup _ _ _ Hr). split_and!; try done.
    + apply (inv_dequeue pop (l1 ++ x :: l2)); [done|done|set_solver|].
      intros y Hy Hp. destruct (decide (y = x)) as [->|]; [done|]. rewrite Ho by set_solver.
      apply (i_off _ _ _ _ HI); [set_solver|done].
    + intros c Hc E. exfalso. destruct (i_ready _ _ _ _ HI x) as (_ & _ & _ & _ & Hact); [set_solver|].
      by apply (Hact c).
  - rewrite (Queue.Remove_absent _ _ _ _ _ Hr) by (done || lia). cbn [obind].
    rewrite filter_absent by done.
    replace (with_queue (MarkDying s x) (links s) (m_ReadyQueue s)) with (MarkDying s x) by done.
    pose proof (FirstCore_spec (fun core => IsActive (MarkDying s x) x core) 0 (Z.to_nat Count)) as HF.
    unfold IsActive in HF. simpl in HF. destruct (FirstCore _ 0 _) as [w|].
    + eexists. split; [done|]. split_and!; [by apply inv_SendIpi|done|done|done| |done].
      intros c Hc E. destruct HF as (Hw & Hwx & _). apply Z.eqb_eq in Hwx.
      assert (c = w) as <-; [|done]. apply (i_inj _ _ _ _ HI); [done|unfold is_core; lia| |congruence].
      rewrite E. done.
    + eexists. split; [done|]. split_and!; try done. intros c Hc E. exfalso.
      specialize (HF c). rewrite E, Z.eqb_refl in HF. unfold is_core in Hc. discriminate HF. lia.
Qed.

(** The idle thread of a core is prepared by [Schedule], with its name and entry. *)
Lemma PrepareAs_idle pop ready parked s c :
  inv pop ready parked s -> is_core c ->
  (exists s1, PrepareAs s (s_IdleThread c) IdleName IdleLoop_address 0 = Ok s1 /\
      inv pop ready parked s1 /\ top_of s1 (s_IdleThread c) <> 0 /\
      (forall y, IsDying s1 y = IsDying s y) /\ links s1 = links s /\
      m_ReadyQueue s1 = m_ReadyQueue s /\ m_ActiveThread s1 = m_ActiveThread s /\ ipis s1 = ipis s) \/
  (exists why, PrepareAs s (s_IdleThread c) IdleName IdleLoop_address 0 = Panic why).
Proof.
  intros HI Hc. unfold PrepareAs. fold (top_of s (s_IdleThread c)).
  destruct (Z.eqb_spec (top_of s (s_IdleThread c)) 0) as [E|E]; cbn [negb]; [|left; by exists s; split_and!].
  set (s0 := with_thread _ _ _).
  assert (Ht : forall y, top_of s0 y = top_of s y).
  { intros y. unfold top_of, s0. simpl. unfold upd. by case_test; subst. }
  assert (Hd : forall y, IsDying s0 y = IsDying s y).
  { intros y. unfold IsDying, s0. simpl. unfold upd. by case_test; subst. }
  destruct (Prepare_ok pop ready parked s0 (s_IdleThread c)) as [(s1 & HP & HI1 & Ht1 & Hd1 & Hrest)|Hp].
  - destruct HI. split; try done; intros; rewrite ?Ht in *; auto.
    + by apply i_active0.
    + unfold s0. simpl. unfold upd. case_test; subst; simpl; auto. apply ml_entry.
    + rewrite (unprepared_same pop s) by done. done.
  - by apply (i_idle _ _ _ _ HI).
  - left. unfold s0. simpl. rewrite upd_eq. apply ml_entry.
  - left. exists s1. split_and!; try done; try apply Hrest. intros y. by rewrite Hd1, Hd.
  - right. apply Hp.
Qed.

(** The first switch of a core, off the boot stack. *)
Lemma Schedule_ok pop ready parked s c :
  inv pop ready parked s -> is_core c -> m_ActiveThread s c = 0 ->
  (exists s', Schedule c s = Ok s' /\ inv pop (pick (IsDying s) ready).2 parked s' /\
     (forall x, IsDying s' x = IsDying s x) /\
     (forall x, x ∉ ready -> links s' x = links s x) /\
     (forall c', m_ActiveThread s' c' = upd (m_ActiveThread s) c
        (default (s_IdleThread c) (pick (IsDying s) ready).1) c')) \/
  (exists why, Schedule c s = Panic why).
Proof.
  intros HI Hc Ha. unfold Schedule. pose proof (PrepareAs_idle _ _ _ _ c HI Hc) as HP.
  destruct HP as [(s1 & -> & HI1 & Ht1 & Hd1 & HL1 & HQ1 & HA1 & Hi1)|[why ->]]; [|right; by exists why].
  left. cbn [obind]. unfold GetNext. pose proof (ready_short _ _ _ _ HI1).
  destruct (GetNext_loop_ok (S MaxThreads) (IsDying s1) (links s1) (m_ReadyQueue s1) ready)
    as (L & q & -> & Hrep & Ho & Hz); [exact (i_rep _ _ _ _ HI1)|lia|].
  cbn [obind]. assert (Hpe : pick (IsDying s1) ready = pick (IsDying s) ready).
  { clear - Hd1. induction ready as [|y l IH]; [done|]. simpl. by rewrite Hd1, IH. }
  rewrite Hpe in *. pose proof (pick_spec (IsDying s) ready) as Hpick.
  destruct (pick (IsDying s) ready) as [next rest]. simpl in *.
  assert (Hrest : forall x, x ∈ rest -> x ∈ ready).
  { intros x Hx. destruct next; [|destruct Hpick as [-> _]; set_solver].
    destruct Hpick as (dead & -> & _). set_solver. }
  assert (Hnext : forall n, next = Some n -> n ∈ ready).
  { intros n ->. destruct Hpick as (dead & -> & _). set_solver. }
  replace (if default 0 next =? 0 then s_IdleThread c else default 0 next)
    with (default (s_IdleThread c) next).
  2:{ destruct next as [n|]; simpl; [|done]. case_test; [|done]. subst n. exfalso.
      apply (i_null _ _ _ _ HI). by apply (i_ready _ _ _ _ HI), Hnext. }
  set (n := default (s_IdleThread c) next).
  assert (n <> 0).
  { subst n. destruct next as [n|]; simpl; [|apply ml_idle].
    apply (pop_nonzero pop ready parked s); [done|]. by apply (i_ready _ _ _ _ HI), Hnext. }
  unfold Go, deref. destruct (Z.eqb_spec n 0); [done|]. cbn [negb]. rewrite ASSERT_true. cbn [obind].
  eexists. split; [done|]. set (s' := ThreadGo _ _ _).
  assert (HA : forall c', m_ActiveThread s' c' = upd (m_ActiveThread s1) c n c') by done.
  split; [|split_and!; [done|intros x Hx; simpl; by rewrite Ho, HL1|by rewrite <- HA1]].
  apply (place pop ready parked s1 s' c rest parked n); try done.
  - simpl. intros x Hx Hp. destruct (decide (x ∈ ready)); [by apply Hz|]. rewrite Ho by done.
    by apply (i_off _ _ _ _ HI1).
  - intros x Hx. by apply (i_ready _ _ _ _ HI), Hrest.
  - intros x [Hx|Hx]; [left; by apply Hrest|right; by left].
  - subst n. destruct next as [n|]; simpl; [|destruct Hpick as [-> _]; set_solver].
    destruct Hpick as (dead & -> & _). pose proof (Queue.rep_nodup _ _ _ (i_rep _ _ _ _ HI)) as Hn.
    apply NoDup_app in Hn as (_ & _ & [Hn _]%NoDup_cons). done.
  - subst n. destruct next as [n|]; simpl; [by apply (i_ready _ _ _ _ HI), Hnext|].
    intros Hp. destruct (i_parked _ _ _ _ HI _ Hp) as (_ & Hni & _). apply Hni. by exists c.
  - subst n. destruct next as [n|]; simpl; [|by left]. right; left. by apply Hnext.
  - by apply (entry_stacks pop ready parked s1 s' c n).
Qed.

(** ** Simulation *)

Record sim pop parked s (a : spec) : Prop := {
  sim_inv : inv pop (a_ready a) parked s;
  sim_running c : is_core c -> m_ActiveThread s c = a_running a c;
  sim_dying x : IsDying s x = a_dying a x }.

Lemma pick_ext (d d' : Z -> bool) l : (forall x, d x = d' x) -> pick d l = pick d' l.
Proof. intros H. induction l as [|x l IH]; [done|]. simpl. by rewrite H, IH. Qed.

(** A state that results from switching core [c], with ready queue [l] before the pick. *)
Lemma sim_switch pop parked s a s' c l :
  sim pop parked s a -> inv pop (pick (IsDying s) l).2 parked s' ->
  (forall x, IsDying s' x = IsDying s x) ->
  (forall c', m_ActiveThread s' c' = upd (m_ActiveThread s) c
     (default (s_IdleThread c) (pick (IsDying s) l).1) c') ->
  sim pop parked s' (a_switch c l a).
Proof.
  intros [HI Hrun Hdy] HI' Hd HA. assert (E : pick (IsDying s) l = pick (a_dying a) l) by (by apply pick_ext).
  rewrite E in *. split; [done| |].
  - intros c' Hc'. rewrite HA. simpl. unfold upd. case_test; [done|]. by apply Hrun.
  - intros x. by rewrite Hd, Hdy.
Qed.

(** The scheduler implements round robin over one ready list.  On a state that
    simulates the abstract scheduler, [Resume], [Exit] and [Kill] always return and
    [Schedule] and [Ready] return or panic for lack of memory for a stack; each leads to
    a state that simulates the corresponding abstract step.  [Ready] wakes the lowest
    idle core other than the caller whenever one exists; [Kill] interrupts exactly the
    core that runs the thread. *)
Theorem scheduler_refines_round_robin pop parked s a :
  sim pop parked s a ->
  (forall c b, is_core c -> a_running a c <> 0 ->
     exists s', Resume c s b = Ok s' /\ sim pop parked s' (a_resume c b a)) /\
  (forall c, is_core c -> a_running a c <> 0 ->
     exists s', Exit c s = Ok s' /\ sim pop parked s' (a_exit c a)) /\
  (forall c, is_core c -> a_running a c = 0 ->
     (exists s', Schedule c s = Ok s' /\ sim pop parked s' (a_exit c a)) \/
     (exists why, Schedule c s = Panic why)) /\
  (forall self x, x ∈ pop -> ~ idle x -> x ∉ a_ready a -> ~ parked x ->
     (forall c, is_core c -> a_running a c <> x) ->
     (exists s', Ready self s x = Ok s' /\ sim pop parked s' (a_make_ready x a) /\
        forall c, is_core c -> c <> self -> a_running a c = s_IdleThread c ->
          exists c', is_core c' /\ c' <= c /\ c' <> self /\ a_running a c' = s_IdleThread c' /\
            ipis s' = ipis s ++ [(GetLocalApicId c', WAKEUP)]) \/
     (exists why, Ready self s x = Panic why)) /\
  (forall x, x ∈ pop ->
     exists s', Kill s x = Ok s' /\ sim pop parked s' (a_kill x a) /\
       forall c, is_core c -> a_running a c = x -> ipis s' = ipis s ++ [(GetLocalApicId c, ASSASSIN)]).
Proof.
  intros HS. pose proof HS as [HI Hrun Hdy].
  assert (HR : forall c b, is_core c -> a_running a c <> 0 ->
     exists s', Resume c s b = Ok s' /\ sim pop parked s' (a_resume c b a)).
  { intros c b Hc Ha. rewrite <- Hrun in Ha by done.
    destruct (Resume_ok _ _ _ _ c b HI Hc Ha) as (s' & HR & HI' & Hk & _ & HA). exists s'. split; [done|].
    unfold a_resume. replace (a_requeue c b a) with (requeued s (a_ready a) c b).
    - by apply (sim_switch _ _ s); [done|done|apply Hk|].
    - unfold requeued, a_requeue. by rewrite Hrun, Hdy by done. }
  split_and!; [done|..].
  - intros c Hc Ha. destruct (HR c false Hc Ha) as (s' & HR' & HS'). exists s'. split; [|done].
    rewrite Exit_Resume; [done|]. by rewrite Hrun.
  - intros c Hc Ha. rewrite <- Hrun in Ha by done.
    destruct (Schedule_ok _ _ _ _ c HI Hc Ha) as [(s' & HR' & HI' & Hd & _ & HA)|Hp]; [|by right].
    left. exists s'. split; [done|]. by apply (sim_switch _ _ s).
  - intros self x Hx Hi Hnr Hnp Ha. pose proof (pop_nonzero _ _ _ _ _ HI Hx).
    destruct (Ready_ok pop (a_ready a) parked parked s self x) as [(s' & HR' & HI' & Hd & HA & _ & Hw)|Hp];
      try done; [| | |left|right; apply Hp].
    + intros y. split; [|naive_solver]. intros Hy. split; [done|]. by intros ->.
    + split; [done|]. split; [|done]. by apply (i_off _ _ _ _ HI).
    + intros c Hc. rewrite Hrun by done. by apply Ha.
    + exists s'. split_and!; [done| |].
      * split; [done| |]; intros; [rewrite HA; by apply Hrun|by rewrite Hd, Hdy].
      * intros c Hc Hcs Hci. rewrite <- Hrun in Hci by done.
        destruct (Hw c Hc Hcs Hci) as (c' & Hc' & ? & ? & Hi' & ?). exists c'. rewrite <- Hrun by done. done.
  - intros x Hx. destruct (Kill_ok _ _ _ _ x HI Hx) as (s' & HK & HI' & Hd & HA & _ & Hip & _).
    exists s'. split_and!; [done| |].
    + split; [done| |]; intros; [rewrite HA; by apply Hrun|]. rewrite Hd. simpl. unfold upd.
      case_test; [done|]. apply Hdy.
    + intros c Hc E. rewrite <- Hrun in E by done. by apply Hip.
Qed.
End Spec.

(** ** Witness: two cores, two threads, and stacks handed out upwards *)

Definition bump_Allocate (k : Z) : outcome (Z * Z) :=
  if k + 16384 <? 2 ^ 40 then Ok (k + 16384, k + 16384) else Panic "Out of memory for a kernel stack".
#[export] Instance bump_stacks : StackAllocator Z := {| sa_Allocate := bump_Allocate |}.
#[export] Instance bump_laws : StackAllocatorLaws Z.
Proof.
  refine {| sa_inv := fun _ k => 0 <= k |}.
  intros n k Hk. simpl. unfold bump_Allocate. case_test; [left|right; by eexists].
  eexists _, _. split; [done|]. lia.
Defined.

Definition demo_machine : Machine :=
  {| Count := 2; s_IdleThread := fun c => if c =? 0 then 0x1000 else 0x2000;
     IdleLoop_address := 0x500; IdleName := 0x600; Kickoff_address := 0x700;
     GetLocalApicId := fun c => c; MaxThreads := 4 |}.
Definition demo_code : Context.Code :=
  {| Context.KickoffReturned := 0x710; Context.FakeSystemVAbi_address := 0x720 |}.
Definition checked_build : Build := {| NDEBUG := false |}.
#[local] Existing Instances demo_machine demo_code checked_build.

#[export] Instance demo_machine_laws : MachineLaws.
Proof.
  split; simpl.
  - unfold Config.MAX_CORES. lia.
  - intros c. by destruct (c =? 0).
  - unfold is_core. simpl. intros c c' Hc Hc'. repeat case_test; lia.
  - done.
Qed.

Definition demo_pop : list Z := [0x100; 0x200; 0x1000; 0x2000].

(** Before the first core calls [Schedule]. *)
Definition demo_boot : Sched.t Z :=
  {| links := fun _ => 0;
     threads := fun x => {| m_Name := 0; m_Entry := 0x800; m_Argument := 0; m_Context := Context.Zero;
                            m_Dying := false; m_StackTop := 0 |};
     stacks := 0x10000; memory := fun _ => 0; m_ReadyQueue := Queue.Empty;
     m_ActiveThread := fun _ => 0; tss_stack := fun _ => 0; syscall_stack := fun _ => 0;
     cpus := fun _ => {| Context.saved := Context.Zero; Context.rdi := 0; Context.rsi := 0;
                         Context.rdx := 0; Context.rip := 0 |};
     ipis := [] |}.

Lemma demo_boot_inv : inv demo_pop [] (fun _ => False) demo_boot.
Proof.
  split; simpl; try done; try set_solver.
  - apply (bool_decide_unpack _). by vm_compute.
  - intros c Hc. unfold demo_pop. case_test; set_solver.
  - apply Queue.rep_Empty.
Qed.

Lemma demo_not_idle : ~ idle 0x100 /\ ~ idle 0x200.
Proof. split; intros (c & _ & E); simpl in E; by destruct (c =? 0). Qed.

Lemma scheduler_refines_round_robin_witness :
  let a := {| a_ready := []; a_running := fun _ => 0; a_dying := fun _ => false |} in
  sim demo_pop (fun _ => False) demo_boot a /\
  exists s1, Ready 0 demo_boot 0x100 = Ok s1 /\ sim demo_pop (fun _ => False) s1 (a_make_ready 0x100 a).
Proof.
  intros a. assert (HS : sim demo_pop (fun _ => False) demo_boot a).
  { split; [exact demo_boot_inv|done|done]. }
  split; [exact HS|].
  destruct (scheduler_refines_round_robin demo_pop (fun _ => False) demo_boot a HS) as (_ & _ & _ & HR & _).
  destruct (HR 0 0x100) as [(s1 & H1 & H2 & _)|[why HP]].
  - unfold demo_pop. set_solver.
  - apply demo_not_idle.
  - set_solver.
  - auto.
  - intros c _. simpl. lia.
  - exists s1. by split.
  - exfalso. assert (Hok : match Ready 0 demo_boot 0x100 with Panic _ => true | _ => false end = false)
      by (vm_compute; reflexivity).
    rewrite HP in Hok. discriminate.
Defined.
