(* ===== verification/StackInterface.v ===== *)
(** * The kernel stacks as the stack allocator of the threads

    Memory/KernelStack.cpp discharges what Thread/Thread.cpp asks of it: as long as fewer
    than 2^29 stacks are out, a call answers a 16-byte aligned top with room below it or
    panics. *)

From S2P Require Import Prelude Config FrameInterface Paging PagingSpec KernelStack Context Sched.

Section Instance_.
Context {F : Type} `{FL : FrameAllocatorLaws F}.

#[export] Instance kernel_stacks : StackAllocator (KernelStack.t F) :=
  {| sa_Allocate := KernelStack.Allocate |}.

#[export] Instance kernel_stack_laws : StackAllocatorLaws (KernelStack.t F).
Proof.
  refine {| sa_inv := fun n k => exists j, stacks j k /\ j + Z.of_nat n < 2 ^ 29 |}.
  intros n k (j & Hst & Hj). destruct (Allocate_stack j k Hst) as [Hp|(k' & HA & Hst')]; [lia|by right|].
  left. exists (KernelStack.s_NextSlot k + KernelStack.STRIDE), k'. split; [exact HA|].
  split; [exists (j + 1); split; [done|lia]|].
  pose proof (st_count _ _ Hst). rewrite (st_next _ _ Hst). destruct (slot_bounds j) as (Hs0 & Hs1 & _); [lia|].
  assert (Config.KERNEL_STACK_BASE + 2 ^ 46 = 2 ^ 64) by reflexivity.
  assert (0 < Config.KERNEL_STACK_BASE) by reflexivity. change KernelStack.STRIDE with 20480 in *. lia.
Defined.

(** The tops are 16-byte aligned, as [PrepareContext] requires. *)
Lemma stack_top_aligned j (k k' : KernelStack.t F) top :
  stacks j k -> j + 1 < 2 ^ 29 -> KernelStack.Allocate k = Ok (top, k') -> top mod 16 = 0.
Proof.
  intros Hst Hj HA. destruct (Allocate_stack j k Hst Hj) as [[why HP]|(k2 & HA2 & _)]; [congruence|].
  rewrite HA in HA2. injection HA2 as -> _. rewrite (st_next _ _ Hst).
  change KernelStack.STRIDE with (1280 * 16).
  replace (Config.KERNEL_STACK_BASE + j * (1280 * 16) + 1280 * 16)
    with (Config.KERNEL_STACK_BASE + (j * 1280 + 1280) * 16) by lia.
  rewrite Z.mod_add by lia. reflexivity.
Qed.
End Instance_.
