(* ===== verification/Sync.v ===== *)
(** * Sync/Semaphore.cpp and Sync/Bellringer.cpp

    The counting semaphore and the delta-coded list of sleepers, over the scheduler of
    Sched.v.  The bells live in a store of their own (they are objects on the sleepers'
    stacks); their links are a second link store. *)

From S2P Require Import Prelude Mem Queue Config Context Sched.

Module Semaphore.
Section Operations.
Context {K : Type} {SA : StackAllocator K} {BB : Build} {CC : Context.Code} {MM : Machine}.

Record t := { m_Counter : Z; m_Waiting : Queue.t }.

Definition Create (InInitialCount : Z) : t := {| m_Counter := InInitialCount; m_Waiting := Queue.Empty |}.

Definition with_links (s : Sched.t K) (L : Queue.links) : Sched.t K :=
  Sched.with_queue s L (Sched.m_ReadyQueue s).

Definition P (core : Z) (sem : t) (s : Sched.t K) : outcome (t * Sched.t K) :=
  if 0 <? m_Counter sem then
    Ok ({| m_Counter := m_Counter sem - 1; m_Waiting := m_Waiting sem |}, s)
  else
    let current := Sched.Active core s in
    let* _ := ASSERT (negb (current =? 0)) "current != nullptr" in
    let* _ := deref current in
    let '(_, L, q) := Queue.Append (Sched.links s) (m_Waiting sem) current in
    let* s := Sched.Resume core (with_links s L) false in
    Ok ({| m_Counter := m_Counter sem; m_Waiting := q |}, s).

Definition V (core : Z) (sem : t) (s : Sched.t K) : outcome (t * Sched.t K) :=
  let '(waiter, L, q) := Queue.Dequeue (Sched.links s) (m_Waiting sem) in
  if negb (waiter =? 0) then
    let* s := Sched.Ready core (with_links s L) waiter in
    Ok ({| m_Counter := m_Counter sem; m_Waiting := q |}, s)
  else
    Ok ({| m_Counter := u32 (m_Counter sem + 1); m_Waiting := q |}, with_links s L).

Definition GetCount (sem : t) : Z := m_Counter sem.
End Operations.
End Semaphore.

Module Bellringer.
Section Operations.
Context {K : Type} {SA : StackAllocator K} {BB : Build} {CC : Context.Code} {MM : Machine}.

Record Bell := { Owner : Z; Ticks : Z }.
Record t := { bells : Z -> Bell; bell_links : Queue.links; m_Bells : Queue.t }.

Definition set_Ticks (br : t) (b v : Z) : t :=
  {| bells := upd (bells br) b {| Owner := Owner (bells br b); Ticks := v |};
     bell_links := bell_links br; m_Bells := m_Bells br |}.

Definition HasPendingBells (br : t) : bool := negb (Queue.IsEmpty (m_Bells br)).

(** The bells that are due: everything behind a zero delta is due in the same tick. *)
Fixpoint Check_loop (fuel : nat) (core : Z) (br : t) (s : Sched.t K) : outcome (t * Sched.t K) :=
  match fuel with
  | O => Diverges
  | S k =>
      if negb (Queue.IsEmpty (m_Bells br)) && (Ticks (bells br (Queue.First (m_Bells br))) =? 0) then
        let '(bell, L, q) := Queue.Dequeue (bell_links br) (m_Bells br) in
        let* s := Sched.Ready core s (Owner (bells br bell)) in
        Check_loop k core {| bells := bells br; bell_links := L; m_Bells := q |} s
      else Ok (br, s)
  end.

Definition Check (core : Z) (br : t) (s : Sched.t K) : outcome (t * Sched.t K) :=
  if Queue.IsEmpty (m_Bells br) then Ok (br, s)
  else
    let head := Queue.First (m_Bells br) in
    let br := if 0 <? Ticks (bells br head) then set_Ticks br head (Ticks (bells br head) - 1) else br in
    Check_loop (S MaxThreads) core br s.

(** The walk of [Sleep]: the last bell that rings no later, and the ticks that remain
    behind it. *)
Fixpoint Sleep_loop (fuel : nat) (br : t) (current previous ticks : Z) : outcome (Z * Z) :=
  match fuel with
  | O => Diverges
  | S k =>
      if negb (current =? 0) && (Ticks (bells br current) <=? ticks) then
        Sleep_loop k br (Queue.Next (bell_links br) current) current
          (ticks -64 Ticks (bells br current))
      else Ok (previous, ticks)
  end.

(** [bell] is the address of the local variable of the same name. *)
Definition Sleep (core : Z) (br : t) (s : Sched.t K) (bell InMilliseconds : Z)
    : outcome (t * Sched.t K) :=
  if InMilliseconds =? 0 then Ok (br, s)
  else
    let wasEmpty := Queue.IsEmpty (m_Bells br) in
    let owner := Sched.Active core s in
    let ticks := InMilliseconds / Config.SCHEDULER_TICK_MS in
    let ticks := if ticks =? 0 then 1 else ticks in
    let* _ := ASSERT (negb (owner =? 0)) "bell.Owner != nullptr" in
    let* (previous, ticks) := Sleep_loop (S MaxThreads) br (Queue.First (m_Bells br)) 0 ticks in
    let successor := if previous =? 0 then Queue.First (m_Bells br)
                     else Queue.Next (bell_links br) previous in
    let br := if negb (successor =? 0)
              then set_Ticks br successor (Ticks (bells br successor) -64 ticks) else br in
    let B := upd (bells br) bell {| Owner := owner; Ticks := ticks |} in
    let L := Queue.set_link (bell_links br) bell 0 in
    let '(_, L, q) := if previous =? 0 then Queue.Prepend L (m_Bells br) bell
                      else Queue.InsertAfter L (m_Bells br) previous bell in
    let s := if wasEmpty && Sched.IsIdle s 0 then Sched.SendIpi s 0 WAKEUP else s in
    let* s := Sched.Resume core s false in
    Ok ({| bells := B; bell_links := L; m_Bells := q |}, s).

End Operations.
End Bellringer.

(** ** The shared state and its operations as one system *)

Module System.
Section Operations.
Context {K : Type} {SA : StackAllocator K} {BB : Build} {CC : Context.Code} {MM : Machine}.

Record t := { sched : Sched.t K; sems : Z -> Semaphore.t; bellringer : Bellringer.t }.

(** The calls a core makes while it holds the Guard. *)
Inductive event :=
| ESchedule (core : Z)
| EReady (core x : Z)
| EResume (core : Z)
| EExit (core : Z)
| EKill (x : Z)
| EP (core i : Z)
| EV (core i : Z)
| ESleep (core bell ms : Z)
| ECheck (core : Z).

Definition with_sched (y : t) (s : Sched.t K) : t :=
  {| sched := s; sems := sems y; bellringer := bellringer y |}.
Definition with_sem (y : t) (i : Z) (sem : Semaphore.t) (s : Sched.t K) : t :=
  {| sched := s; sems := upd (sems y) i sem; bellringer := bellringer y |}.
Definition with_bells (y : t) (br : Bellringer.t) (s : Sched.t K) : t :=
  {| sched := s; sems := sems y; bellringer := br |}.

Definition exec (e : event) (y : t) : outcome t :=
  match e with
  | ESchedule core => let* s := Sched.Schedule core (sched y) in Ok (with_sched y s)
  | EReady core x => let* s := Sched.Ready core (sched y) x in Ok (with_sched y s)
  | EResume core => let* s := Sched.Resume core (sched y) true in Ok (with_sched y s)
  | EExit core => let* s := Sched.Exit core (sched y) in Ok (with_sched y s)
  | EKill x => let* s := Sched.Kill (sched y) x in Ok (with_sched y s)
  | EP core i => let* (sem, s) := Semaphore.P core (sems y i) (sched y) in Ok (with_sem y i sem s)
  | EV core i => let* (sem, s) := Semaphore.V core (sems y i) (sched y) in Ok (with_sem y i sem s)
  | ESleep core bell ms =>
      let* (br, s) := Bellringer.Sleep core (bellringer y) (sched y) bell ms in Ok (with_bells y br s)
  | ECheck core =>
      let* (br, s) := Bellringer.Check core (bellringer y) (sched y) in Ok (with_bells y br s)
  end.

End Operations.
Arguments t : clear implicits.
End System.
