(* ===== verification/SyncSpec.v ===== *)
(** * Semaphores, sleepers and the scheduler as one system

    The bells' delta code against a list of absolute deadlines, the invariant that ties
    the ready queue, the wait queues and the bells together, and the properties of runs:
    a sequence of calls made by any core in any order, serialised by the Guard. *)

From S2P Require Import Prelude Mem Queue Config Context Sched SchedSpec Sync.
Import Sched Sync.

(** ** Deadlines *)

(** Owner and ticks to go of every bell, [acc] ticks being accounted for in front. *)
Fixpoint due (B : Z -> Bellringer.Bell) (acc : Z) (bl : list Z) : list (Z * Z) :=
  match bl with
  | [] => []
  | b :: l => (Bellringer.Owner (B b), acc + Bellringer.Ticks (B b)) ::
              due B (acc + Bellringer.Ticks (B b)) l
  end.

Definition span (B : Z -> Bellringer.Bell) (bl : list Z) : Z :=
  foldr (fun b n => Bellringer.Ticks (B b) + n) 0 bl.

(** The sorted insertion a sleeper asks for: behind everything that rings no later. *)
Fixpoint insert_due (x t : Z) (l : list (Z * Z)) : list (Z * Z) :=
  match l with
  | [] => [(x, t)]
  | (y, u) :: l' => if u <=? t then (y, u) :: insert_due x t l' else (x, t) :: l
  end.

(** One tick: everybody is one tick closer, and who had one tick to go is woken. *)
Definition rung (l : list (Z * Z)) : list Z := fst <$> filter (fun p => p.2 = 1) l.
Definition elapsed (l : list (Z * Z)) : list (Z * Z) :=
  (fun p => (p.1, p.2 - 1)) <$> filter (fun p => p.2 <> 1) l.

Lemma due_ext B B' acc bl : (forall b, b ∈ bl -> B' b = B b) -> due B' acc bl = due B acc bl.
Proof.
  revert acc; induction bl as [|b bl IH]; intros acc H; [done|]. simpl.
  rewrite (H b) by set_solver. f_equal. apply IH. set_solver.
Qed.

Lemma due_app B acc l1 l2 : due B acc (l1 ++ l2) = due B acc l1 ++ due B (acc + span B l1) l2.
Proof.
  revert acc; induction l1 as [|b l1 IH]; intros acc; simpl; [by rewrite Z.add_0_r|].
  rewrite IH. by rewrite Z.add_assoc.
Qed.

Lemma due_shift B acc d bl : due B (acc + d) bl = (fun p => (p.1, p.2 + d)) <$> due B acc bl.
Proof.
  revert acc; induction bl as [|b bl IH]; intros acc; [done|]. simpl. f_equal.
  - f_equal. lia.
  - rewrite <- IH. f_equal. lia.
Qed.

Lemma due_owners B acc bl : (due B acc bl).*1 = (fun b => Bellringer.Owner (B b)) <$> bl.
Proof. revert acc; induction bl as [|b bl IH]; intros acc; simpl; by f_equal. Qed.

Lemma due_ge B acc bl x t :
  (forall b, b ∈ bl -> 0 <= Bellringer.Ticks (B b)) -> (x, t) ∈ due B acc bl -> acc <= t.
Proof.
  revert acc; induction bl as [|b bl IH]; intros acc Ht; simpl; [set_solver|].
  pose proof (Ht b ltac:(set_solver)). intros [[= -> ->]|Hx]%elem_of_cons; [lia|].
  apply IH in Hx; [lia|]. set_solver.
Qed.

Lemma span_nonneg B bl : (forall b, b ∈ bl -> 0 <= Bellringer.Ticks (B b)) -> 0 <= span B bl.
Proof.
  induction bl as [|b bl IH]; intros H; simpl; [lia|].
  pose proof (H b ltac:(set_solver)). specialize (IH ltac:(set_solver)). lia.
Qed.

Lemma span_ext B B' bl : (forall b, b ∈ bl -> B' b = B b) -> span B' bl = span B bl.
Proof.
  induction bl as [|b bl IH]; intros H; [done|]. simpl. rewrite H by set_solver. f_equal.
  apply IH. set_solver.
Qed.

Lemma due_le_span B acc bl x t :
  (forall b, b ∈ bl -> 0 <= Bellringer.Ticks (B b)) -> (x, t) ∈ due B acc bl -> t <= acc + span B bl.
Proof.
  revert acc; induction bl as [|b bl IH]; intros acc Ht; simpl; [set_solver|].
  pose proof (span_nonneg B bl ltac:(set_solver)).
  intros [[= -> ->]|Hx]%elem_of_cons; [lia|]. apply IH in Hx; [lia|set_solver].
Qed.

Lemma insert_due_app x t l1 l2 :
  (forall p, p ∈ l1 -> p.2 <= t) -> (forall p, head l2 = Some p -> t < p.2) ->
  insert_due x t (l1 ++ l2) = l1 ++ (x, t) :: l2.
Proof.
  intros H1 H2. induction l1 as [|[y u] l1 IH]; simpl.
  - destruct l2 as [|[y u] l2]; [done|]. simpl. specialize (H2 _ eq_refl). simpl in H2. by case_test.
  - specialize (H1 (y, u) ltac:(set_solver)) as Hu. simpl in Hu. case_test. f_equal.
    apply IH. set_solver.
Qed.

Lemma elem_of_insert_due x t l y u :
  (y, u) ∈ insert_due x t l <-> (y, u) = (x, t) \/ (y, u) ∈ l.
Proof.
  induction l as [|[z v] l IH]; simpl; [set_solver|]. case_test; [|set_solver].
  rewrite !elem_of_cons, IH. naive_solver.
Qed.

(** Ringing splits the deadlines at the bells whose ticks are used up. *)
Lemma due_split B z rest :
  (forall b, b ∈ z -> Bellringer.Ticks (B b) = 0) -> (forall b, b ∈ rest -> 0 <= Bellringer.Ticks (B b)) ->
  (forall b, head rest = Some b -> 0 < Bellringer.Ticks (B b)) ->
  let l := due B 0 (z ++ rest) in
  ((fun p => p.1) <$> filter (fun p => p.2 = 0) l) = (fun b => Bellringer.Owner (B b)) <$> z /\
  filter (fun p => p.2 <> 0) l = due B 0 rest.
Proof.
  intros Hz Hr Hh. induction z as [|b z IH].
  - simpl. assert (Hpos : forall p, p ∈ due B 0 rest -> 0 < p.2).
    { destruct rest as [|b rest]; simpl; [set_solver|]. specialize (Hh b eq_refl).
      intros [x t] [[= -> ->]|Hp]%elem_of_cons; simpl; [lia|].
      apply due_ge in Hp; [lia|set_solver]. }
    split.
    + rewrite filter_false; [done|]. intros p Hp. specialize (Hpos p Hp). lia.
    + apply filter_true. intros p Hp. specialize (Hpos p Hp). lia.
  - simpl. rewrite (Hz b) by set_solver. destruct IH as [IH1 IH2]; [set_solver|].
    rewrite filter_cons_True by done. rewrite filter_cons_False by naive_solver. simpl.
    split; [by f_equal|done].
Qed.

(** ** The system invariant *)

Section Spec.
Context {K : Type} {SA : StackAllocator K} {SL : StackAllocatorLaws K} {BB : Build}
        {CC : Context.Code} {MM : Machine} {ML : MachineLaws}.

(** The thread whose stack an address lies in: bells are locals of the sleeper. *)
Variable stack_owner : Z -> Z.

Implicit Types (y : System.t K) (pop ready bl : list Z) (waits : Z -> list Z).

Definition owner_of y b : Z := Bellringer.Owner (Bellringer.bells (System.bellringer y) b).
Definition ticks_of y b : Z := Bellringer.Ticks (Bellringer.bells (System.bellringer y) b).
Definition deadlines y bl : list (Z * Z) := due (Bellringer.bells (System.bellringer y)) 0 bl.

Definition parked_in y waits bl (x : Z) : Prop :=
  (exists i, x ∈ waits i) \/ (exists b, b ∈ bl /\ owner_of y b = x).

(** [waits i] are the threads queued at semaphore [i], [bl] the pending bells. *)
Record sys_inv_from (lo : Z) pop ready waits bl y : Prop := {
  y_inv : inv pop ready (parked_in y waits bl) (System.sched y);
  y_wait i : Queue.rep (links (System.sched y)) (Semaphore.m_Waiting (System.sems y i)) (waits i);
  y_apart i j x : x ∈ waits i -> x ∈ waits j -> i = j;
  y_counter i : 0 <= Semaphore.m_Counter (System.sems y i) < 2 ^ 32 /\
    (waits i <> [] -> Semaphore.m_Counter (System.sems y i) = 0);
  y_bells : Queue.rep (Bellringer.bell_links (System.bellringer y))
                      (Bellringer.m_Bells (System.bellringer y)) bl;
  y_home b : b ∈ bl -> stack_owner b = owner_of y b;
  y_once b b' : b ∈ bl -> b' ∈ bl -> owner_of y b = owner_of y b' -> b = b';
  y_sleep b : b ∈ bl -> links (System.sched y) (owner_of y b) = 0 /\
    forall i, owner_of y b ∉ waits i;
  y_ticks b : b ∈ bl -> 0 <= ticks_of y b;
  y_due x t : (x, t) ∈ deadlines y bl -> lo <= t < 2 ^ 32 }.

(** Between two calls every bell has at least one tick to go. *)
Abbreviation sys_inv := (sys_inv_from 1).

(** A call of the scheduler alone: the wait queues and the bells stay. *)
Lemma sys_inv_sched pop ready ready' waits bl y s' :
  sys_inv pop ready waits bl y ->
  inv pop ready' (parked_in y waits bl) s' ->
  (forall x, parked_in y waits bl x -> links s' x = links (System.sched y) x) ->
  sys_inv pop ready' waits bl (System.with_sched y s').
Proof.
  intros [] HI HL. split; try done; simpl.
  - intros i. eapply Queue.rep_ext; [|apply y_wait0]. intros x Hx. apply HL. left. by exists i.
  - intros b Hb. destruct (y_sleep0 b Hb) as [H1 H2]. split; [|done].
    rewrite <- H1. apply HL. right. by exists b.
Qed.

Lemma parked_not_ready lo pop ready waits bl y x :
  sys_inv_from lo pop ready waits bl y -> parked_in y waits bl x -> x ∉ ready.
Proof.
  intros HY Hp Hr. by destruct (i_ready _ _ _ _ (y_inv _ _ _ _ _ _ HY) x Hr) as (_ & _ & _ & Hn & _).
Qed.

Lemma parked_not_active pop ready waits bl y x c :
  sys_inv pop ready waits bl y -> parked_in y waits bl x -> is_core c ->
  m_ActiveThread (System.sched y) c <> x.
Proof.
  intros HY Hp Hc. destruct (i_parked _ _ _ _ (y_inv _ _ _ _ _ _ HY) x Hp) as (_ & _ & _ & H). by apply H.
Qed.

(** The invariant depends on [parked] only up to equivalence. *)
Lemma inv_parked_iff pop ready (p p' : Z -> Prop) (s : Sched.t K) :
  (forall x, p' x <-> p x) -> inv pop ready p s -> inv pop ready p' s.
Proof.
  intros Hp []. split; try done.
  - intros x Hx Hn. apply i_off; [done|]. by rewrite <- Hp.
  - intros x Hx. destruct (i_ready x Hx) as (? & ? & ? & ? & ?). rewrite Hp. by split_and!.
  - intros x Hx%Hp. by apply i_parked.
Qed.

(** *** P *)

Definition P_waits y waits c i : Z -> list Z :=
  if 0 <? Semaphore.m_Counter (System.sems y i) then waits
  else upd waits i (waits i ++ [m_ActiveThread (System.sched y) c]).
Definition P_ready y ready i : list Z :=
  if 0 <? Semaphore.m_Counter (System.sems y i) then ready
  else (pick (IsDying (System.sched y)) ready).2.

Lemma elem_of_upd_snoc waits i x j z :
  z ∈ upd waits i (waits i ++ [x]) j <-> z ∈ waits j \/ (j = i /\ z = x).
Proof. unfold upd. case_test; subst; set_solver. Qed.

Lemma P_ok pop ready waits bl y c i :
  sys_inv pop ready waits bl y -> is_core c ->
  m_ActiveThread (System.sched y) c <> 0 -> ~ idle (m_ActiveThread (System.sched y) c) ->
  exists y', System.exec (System.EP c i) y = Ok y' /\
    sys_inv pop (P_ready y ready i) (P_waits y waits c i) bl y' /\
    System.bellringer y' = System.bellringer y /\
    (forall x, IsDying (System.sched y') x = IsDying (System.sched y) x) /\
    (forall c', m_ActiveThread (System.sched y') c' =
       if 0 <? Semaphore.m_Counter (System.sems y i) then m_ActiveThread (System.sched y) c'
       else upd (m_ActiveThread (System.sched y)) c
              (default (s_IdleThread c) (pick (IsDying (System.sched y)) ready).1) c') /\
    Semaphore.m_Counter (System.sems y' i) =
      (if 0 <? Semaphore.m_Counter (System.sems y i)
       then Semaphore.m_Counter (System.sems y i) - 1 else 0) /\
    (forall j, j <> i -> System.sems y' j = System.sems y j).
Proof.
  intros HY Hc Ha Hi. simpl. unfold Semaphore.P, P_ready, P_waits.
  pose proof (y_counter _ _ _ _ _ _ HY i) as [Hcnt Hcz].
  destruct (Z.ltb_spec 0 (Semaphore.m_Counter (System.sems y i))) as [Hpos|Hpos]; cbn [obind].
  { eexists. split; [done|]. assert (waits i = []) as Hw.
    { destruct (waits i); [done|]. specialize (Hcz ltac:(done)). lia. }
    split_and!; try done; simpl.
    - destruct HY. split; try done; simpl.
      + intros j. unfold upd. case_test; subst; simpl; apply y_wait0.
      + intros j. unfold upd. case_test; subst; simpl; [|apply y_counter0]. rewrite Hw. split; [lia|done].
    - rewrite upd_eq. done.
    - intros j Hj. by rewrite upd_ne. }
  set (cur := m_ActiveThread (System.sched y) c) in *. unfold Active, deref. fold cur.
  destruct (Z.eqb_spec cur 0); [done|]. cbn [negb]. rewrite ASSERT_true. cbn [obind].
  pose proof (y_inv _ _ _ _ _ _ HY) as HI.
  destruct (active_unlinked _ _ _ _ c HI Hc Ha) as [(_ & Hl & Hnr) Hnp]. fold cur in Hl, Hnr, Hnp.
  assert (Hu : Queue.unlinked (links (System.sched y)) (waits i) cur).
  { split; [done|]. split; [done|]. intros Hw. apply Hnp. left. by exists i. }
  destruct (Queue.Append_unlinked _ _ _ _ (y_wait _ _ _ _ _ _ HY i) Hu) as (L & q & -> & Hq & HLc & Ho).
  unfold Semaphore.with_links. rewrite <- Exit_Resume by done. unfold Exit.
  assert (Hsame : forall x, x <> cur -> x ∉ waits i -> L x = links (System.sched y) x).
  { intros x Hx Hw. apply Ho. set_solver. }
  set (waits' := upd waits i (waits i ++ [cur])).
  assert (Hpk : forall x, parked_in y waits' bl x <-> parked_in y waits bl x \/ x = cur).
  { intros x. unfold parked_in, waits'. setoid_rewrite elem_of_upd_snoc. naive_solver. }
  destruct (switch_ok pop ready (parked_in y waits bl) (System.sched y) c L
              (m_ReadyQueue (System.sched y)) ready (parked_in y waits' bl))
    as (s' & HS & HI' & (Hkd & _) & HL' & HA); try done.
  - eapply Queue.rep_ext; [|exact (i_rep _ _ _ _ HI)]. intros x Hx.
    apply Hsame; [by intros ->|]. intros Hw. apply (parked_not_ready _ _ _ _ _ _ x HY); [|done]. left. by exists i.
  - intros x Hx Hn. rewrite Hpk in Hn. rewrite Hsame; [|naive_solver|].
    + apply (i_off _ _ _ _ HI); [done|naive_solver].
    + intros Hw. apply Hn. left. left. by exists i.
  - intros x Hx. rewrite Hpk. intros [Hp| ->]; [|done]. by apply (parked_not_ready _ _ _ _ _ _ x HY).
  - intros x [Hx|[Hx|Hx]%Hpk]; [by left|right; by left|right; right; by subst].
  - rewrite HS. cbn [obind]. eexists. split; [done|].
    assert (HLw : forall x, x ∈ waits' i -> links s' x = L x).
    { intros x Hx. apply HL'. intros Hr. unfold waits' in Hx. rewrite upd_eq in Hx.
      apply elem_of_app in Hx as [Hx|Hx%list_elem_of_singleton]; [|by subst].
      apply (parked_not_ready _ _ _ _ _ _ x HY); [|done]. left. by exists i. }
    assert (HLo : forall x, parked_in y waits bl x -> x ∉ waits i -> links s' x = links (System.sched y) x).
    { intros x Hp Hw. rewrite HL' by (by apply (parked_not_ready _ _ _ _ _ _ x HY)).
      apply Hsame; [by intros ->|done]. }
    split_and!; try done; simpl.
    + destruct HY. split; try done; simpl.
      * intros j. unfold upd. destruct (Z.eqb_spec j i) as [->|Hj]; simpl.
        -- replace (waits' i) with (waits i ++ [cur]) in * by (by unfold waits'; rewrite upd_eq).
           eapply Queue.rep_ext; [|exact Hq]. done.
        -- unfold waits'. rewrite upd_ne by done. eapply Queue.rep_ext; [|apply y_wait0].
           intros x Hx. apply HLo; [left; by exists j|]. intros Hxi. apply Hj. by apply (y_apart0 j i x).
      * intros j k x. unfold waits'. rewrite !elem_of_upd_snoc.
        intros [Hj|[-> ->]] [Hk|[-> Hx]]; [by apply (y_apart0 j k x)| | |done]; exfalso; apply Hnp; left; subst; eauto.
      * intros j. unfold upd. destruct (Z.eqb_spec j i) as [->|Hj]; simpl; [split; [lia|intros; lia]|].
        unfold waits'. rewrite upd_ne by done. apply y_counter0.
      * intros b Hb. destruct (y_sleep0 b Hb) as [H1 H2]. split.
        -- rewrite <- H1. apply HLo; [right; by exists b|done].
        -- intros j. unfold waits'. rewrite elem_of_upd_snoc. intros [Hj|[_ E]]; [by apply (H2 j)|].
           apply Hnp. right. by exists b.
    + rewrite upd_eq. simpl. lia.
    + intros j Hj. by rewrite upd_ne.
Qed.

(** *** V *)

(** Links may change on threads that are parked without touching the scheduler. *)
Lemma inv_links pop ready (parked : Z -> Prop) (s : Sched.t K) L :
  inv pop ready parked s ->
  (forall x, ~ parked x -> L x = links s x) ->
  inv pop ready parked (Semaphore.with_links s L).
Proof.
  intros HI HL. destruct HI. split; try done; simpl.
  - eapply Queue.rep_ext; [|exact i_rep]. intros x Hx. apply HL. by apply i_ready.
  - intros x Hx Hn. rewrite HL by done. by apply i_off.
Qed.

Lemma elem_of_upd_tail waits i x l j z :
  (forall i j x, x ∈ waits i -> x ∈ waits j -> i = j) -> NoDup (x :: l) -> waits i = x :: l ->
  z ∈ upd waits i l j <-> z ∈ waits j /\ z <> x.
Proof.
  intros Hap Hn E. apply NoDup_cons in Hn as [Hx Hn]. unfold upd. case_test; subst.
  - rewrite E. set_solver.
  - split; [|naive_solver]. intros Hz. split; [done|]. intros ->.
    assert (j = i); [|done]. apply (Hap j i x); [done|]. rewrite E. set_solver.
Qed.

Lemma V_empty pop ready waits bl y c i :
  sys_inv pop ready waits bl y -> waits i = [] ->
  System.exec (System.EV c i) y = Ok (System.with_sem y i
    {| Semaphore.m_Counter := u32 (Semaphore.m_Counter (System.sems y i) + 1);
       Semaphore.m_Waiting := Semaphore.m_Waiting (System.sems y i) |} (System.sched y)) /\
  sys_inv pop ready waits bl (System.with_sem y i
    {| Semaphore.m_Counter := u32 (Semaphore.m_Counter (System.sems y i) + 1);
       Semaphore.m_Waiting := Semaphore.m_Waiting (System.sems y i) |} (System.sched y)).
Proof.
  intros HY Hw. pose proof (y_wait _ _ _ _ _ _ HY i) as Hr. rewrite Hw in Hr. split.
  - simpl. unfold Semaphore.V. rewrite Queue.Dequeue_nil by done. cbn [negb Z.eqb obind].
    unfold Semaphore.with_links. by destruct y as [[] ? ?].
  - destruct HY. split; try done; simpl; intros j; unfold upd; case_test; subst; simpl; auto.
    rewrite Hw. split; [|done]. apply (wrap_range 32). lia.
Qed.

Lemma V_wakes pop ready waits bl y c i x l :
  sys_inv pop ready waits bl y -> waits i = x :: l ->
  exists y', System.exec (System.EV c i) y = Ok y' /\
    sys_inv pop (ready ++ [x]) (upd waits i l) bl y' /\
    System.bellringer y' = System.bellringer y /\
    (forall z, IsDying (System.sched y') z = IsDying (System.sched y) z) /\
    m_ActiveThread (System.sched y') = m_ActiveThread (System.sched y) /\
    (forall j, Semaphore.m_Counter (System.sems y' j) = Semaphore.m_Counter (System.sems y j)).
Proof.
  intros HY Hw. pose proof (y_wait _ _ _ _ _ _ HY i) as Hr. rewrite Hw in Hr.
  pose proof (Queue.rep_nodup _ _ _ Hr) as Hnd.
  destruct (Queue.Dequeue_cons _ _ _ _ Hr) as (L & q & HD & Hq & HLx & Ho).
  simpl. unfold Semaphore.V. rewrite HD.
  assert (Hpx : parked_in y waits bl x) by (left; exists i; rewrite Hw; set_solver).
  pose proof (y_inv _ _ _ _ _ _ HY) as HI.
  destruct (i_parked _ _ _ _ HI x Hpx) as (Hxp & Hxi & Hxt & Hxa).
  pose proof (pop_nonzero _ _ _ _ _ HI Hxp) as Hx0. destruct (Z.eqb_spec x 0); [done|]. cbn [negb].
  assert (Hel : forall j z, z ∈ upd waits i l j <-> z ∈ waits j /\ z <> x).
  { intros j z. apply (elem_of_upd_tail waits i x l j z); [exact (y_apart _ _ _ _ _ _ HY)|done|done]. }
  assert (HI1 : inv pop ready (parked_in y waits bl) (Semaphore.with_links (System.sched y) L)).
  { apply inv_links; [done|]. intros z Hz. apply Ho. intros ->%list_elem_of_singleton. done. }
  assert (Hxb : forall b, b ∈ bl -> owner_of y b <> x).
  { intros b Hb E. destruct (y_sleep _ _ _ _ _ _ HY b Hb) as [_ Hn]. apply (Hn i). rewrite E, Hw. set_solver. }
  destruct (Ready_ok pop ready (parked_in y waits bl) (parked_in y (upd waits i l) bl)
              (Semaphore.with_links (System.sched y) L) c x)
    as [(s' & HR & HI' & Hd & HA & HL' & _)|[E _]]; try done.
  - intros z. unfold parked_in. setoid_rewrite Hel. naive_solver.
  - split; [done|]. split; [done|]. by apply (parked_not_ready _ _ _ _ _ _ x HY).
  - rewrite HR. cbn [obind]. eexists. split; [done|].
    assert (HLs : forall z, parked_in y waits bl z -> z <> x -> links s' z = links (System.sched y) z).
    { intros z Hz Hzx. pose proof (parked_not_ready _ _ _ _ _ _ z HY Hz). rewrite HL' by set_solver.
      simpl. apply Ho. set_solver. }
    split_and!; try done; simpl; [|intros j; unfold upd; case_test; by subst].
    pose proof HY as []. split; try done; simpl.
    + intros j. unfold upd. destruct (Z.eqb_spec j i) as [->|Hj]; simpl.
      * eapply Queue.rep_ext; [|exact Hq]. intros z Hz. apply HL'. assert (parked_in y waits bl z) by (left; exists i; rewrite Hw; set_solver).
        pose proof (parked_not_ready _ _ _ _ _ _ z HY H). apply NoDup_cons in Hnd. set_solver.
      * eapply Queue.rep_ext; [|apply y_wait0]. intros z Hz. apply HLs; [left; by exists j|].
        intros ->. apply Hj, (y_apart0 j i x); [done|]. rewrite Hw. set_solver.
    + intros j k z [Hj _]%Hel [Hk _]%Hel. by apply (y_apart0 j k z).
    + intros j. unfold upd. destruct (Z.eqb_spec j i) as [->|Hj]; simpl; [|apply y_counter0].
      split; [apply y_counter0|]. intros _. apply y_counter0. by rewrite Hw.
    + intros b Hb. destruct (y_sleep0 b Hb) as [H1 H2]. split.
      * rewrite <- H1. apply HLs; [right; by exists b|by apply Hxb].
      * intros j [Hj _]%Hel. by apply (H2 j).
Qed.

(** *** Sleep *)

Lemma Sleep_loop_ok fuel br l cur prev ticks :
  Queue.chain (Bellringer.bell_links br) cur l ->
  (forall b, b ∈ l -> 0 <= Bellringer.Ticks (Bellringer.bells br b)) -> 0 <= ticks < 2 ^ 64 ->
  (length l < fuel)%nat ->
  exists m1 m2, l = m1 ++ m2 /\
    Bellringer.Sleep_loop fuel br cur prev ticks =
      Ok (default prev (last m1), ticks - span (Bellringer.bells br) m1) /\
    0 <= ticks - span (Bellringer.bells br) m1 /\
    (forall b, head m2 = Some b -> ticks - span (Bellringer.bells br) m1 < Bellringer.Ticks (Bellringer.bells br b)).
Proof.
  revert l cur prev ticks; induction fuel as [|k IH]; intros l cur prev ticks Hc Ht Hk Hf; [lia|].
  cbn [Bellringer.Sleep_loop]. destruct l as [|b l].
  { simpl in Hc. subst cur. exists [], []. simpl. rewrite Z.sub_0_r. split_and!; [done|done|lia|done]. }
  destruct Hc as (-> & Hb & Hc). pose proof (Ht b ltac:(set_solver)).
  destruct (Z.eqb_spec b 0); [done|]. cbn [negb andb].
  destruct (Z.leb_spec (Bellringer.Ticks (Bellringer.bells br b)) ticks).
  - rewrite wrap_small by (unfold is_word; lia).
    destruct (IH l (Queue.Next (Bellringer.bell_links br) b) b
      (ticks - Bellringer.Ticks (Bellringer.bells br b))) as (m1 & m2 & -> & HS & H1 & H2);
      [done|set_solver|lia|simpl in Hf; lia|].
    exists (b :: m1), m2. rewrite HS. simpl in *.
    replace (ticks - (Bellringer.Ticks (Bellringer.bells br b) + span (Bellringer.bells br) m1))
      with (ticks - Bellringer.Ticks (Bellringer.bells br b) - span (Bellringer.bells br) m1) by lia.
    split_and!; try done. f_equal. f_equal. by destruct m1 as [|? ?] using rev_ind; [|rewrite app_comm_cons, !last_snoc].
  - exists [], (b :: l). simpl. rewrite Z.sub_0_r. split_and!; [done|done|lia|]. intros ? [= <-]. done.
Qed.

(** Linking the bell in behind [m1]. *)
Lemma Sleep_link L q m1 m2 bell :
  Queue.rep L q (m1 ++ m2) -> bell <> 0 -> bell ∉ m1 ++ m2 ->
  let previous := default 0 (last m1) in
  (if previous =? 0 then Queue.First q else Queue.Next L previous) = default 0 (head m2) /\
  exists L' q', (if previous =? 0 then Queue.Prepend (Queue.set_link L bell 0) q bell
                 else Queue.InsertAfter (Queue.set_link L bell 0) q previous bell) = (true, L', q') /\
    Queue.rep L' q' (m1 ++ bell :: m2).
Proof.
  intros Hr Hb Hn. assert (Hr0 : Queue.rep (Queue.set_link L bell 0) q (m1 ++ m2)).
  { eapply Queue.rep_ext; [|exact Hr]. intros z Hz. apply Queue.set_link_ne. by intros ->. }
  assert (Hu : Queue.unlinked (Queue.set_link L bell 0) (m1 ++ m2) bell).
  { split; [done|]. split; [apply Queue.set_link_same|done]. }
  destruct m1 as [|p m1 _] using rev_ind.
  - cbn [last default Z.eqb app] in *. split.
    + destruct Hr as [Hc _ _]. destruct m2; simpl in *; [done|by destruct Hc].
    + destruct (Queue.Prepend_unlinked _ _ _ _ Hr0 Hu) as (L' & q' & HP & Hr' & _). by exists L', q'.
  - rewrite last_snoc. change (default 0 (Some p)) with p. rewrite <- app_assoc in *. cbn [app] in *.
    assert (p <> 0) by (eapply Queue.chain_nonzero; [apply Hr|set_solver]).
    destruct (Z.eqb_spec p 0); [done|]. split.
    + destruct Hr as [Hc _ _]. by apply Queue.chain_link in Hc as [HL _].
    + destruct (Queue.InsertAfter_unlinked _ _ _ _ _ _ Hr0 Hu) as (L' & q' & HP & Hr' & _).
      by exists L', q'.
Qed.

(** The store of bells after [Sleep]: the new bell, and a successor that gives up the
    ticks the new bell accounts for. *)
Definition slept (B : Z -> Bellringer.Bell) (succ bell owner rest : Z) : Z -> Bellringer.Bell :=
  upd (if negb (succ =? 0)
       then upd B succ {| Bellringer.Owner := Bellringer.Owner (B succ);
                          Bellringer.Ticks := Bellringer.Ticks (B succ) - rest |}
       else B) bell {| Bellringer.Owner := owner; Bellringer.Ticks := rest |}.

Lemma slept_due B m1 m2 bell owner t :
  NoDup (m1 ++ m2) -> (forall b, b ∈ m1 ++ m2 -> b <> 0) -> bell ∉ m1 ++ m2 ->
  (forall b, b ∈ m1 ++ m2 -> 0 <= Bellringer.Ticks (B b)) -> 0 <= t - span B m1 ->
  (forall b, head m2 = Some b -> t - span B m1 < Bellringer.Ticks (B b)) ->
  due (slept B (default 0 (head m2)) bell owner (t - span B m1)) 0 (m1 ++ bell :: m2) =
    insert_due owner t (due B 0 (m1 ++ m2)).
Proof.
  intros Hn H0 Hb Ht Hr Hh. set (rest := t - span B m1) in *. set (B' := slept _ _ _ _ _).
  assert (Hm1 : forall b, b ∈ m1 -> B' b = B b).
  { intros b Hbm. unfold B', slept. rewrite upd_ne by set_solver. case_test; [done|]. cbn [negb].
    rewrite upd_ne; [done|]. intros ->. destruct m2 as [|c m2]; simpl in *; [done|].
    apply NoDup_app in Hn as (_ & Hd & _). apply (Hd c Hbm). set_solver. }
  assert (Hs1 : span B' m1 = span B m1).
  { by apply span_ext. }
  rewrite !due_app, (due_ext B B') by done. rewrite Hs1. rewrite insert_due_app.
  - f_equal. cbn [due]. replace (B' bell) with {| Bellringer.Owner := owner; Bellringer.Ticks := rest |}
      by (unfold B', slept; by rewrite upd_eq). cbn [Bellringer.Owner Bellringer.Ticks].
    f_equal; [f_equal; lia|]. destruct m2 as [|c m2]; [done|]. cbn [due].
    assert (c <> 0) by set_solver. assert (c <> bell) by set_solver.
    assert (B' c = {| Bellringer.Owner := Bellringer.Owner (B c); Bellringer.Ticks := Bellringer.Ticks (B c) - rest |}) as ->.
    { unfold B', slept. rewrite upd_ne by done. simpl. destruct (Z.eqb_spec c 0); [done|]. simpl. apply upd_eq. }
    cbn [Bellringer.Owner Bellringer.Ticks]. f_equal; [f_equal; lia|].
    rewrite (due_ext B B').
    + f_equal. lia.
    + intros b Hbm. unfold B', slept. rewrite upd_ne by set_solver. simpl.
      destruct (Z.eqb_spec c 0); [done|]. simpl. apply upd_ne. intros ->.
      apply NoDup_app in Hn as (_ & _ & [Hn _]%NoDup_cons). done.
  - intros [x u] Hx. apply due_le_span in Hx; [simpl; lia|set_solver].
  - intros p Hp. destruct m2 as [|c m2]; [done|]. simpl in Hp. injection Hp as <-. simpl.
    specialize (Hh c eq_refl). lia.
Qed.

Lemma due_ticks B acc bl b :
  (forall b, b ∈ bl -> 0 <= Bellringer.Ticks (B b)) -> 0 <= acc -> b ∈ bl ->
  exists t, (Bellringer.Owner (B b), t) ∈ due B acc bl /\ Bellringer.Ticks (B b) <= t.
Proof.
  revert acc; induction bl as [|c bl IH]; intros acc Ht Ha Hb; [set_solver|]. simpl.
  pose proof (Ht c ltac:(set_solver)). apply elem_of_cons in Hb as [->|Hb].
  - eexists. split; [left|lia].
  - destruct (IH (acc + Bellringer.Ticks (B c))) as (t & Hi & Hle); [set_solver|lia|done|].
    exists t. split; [by right|done].
Qed.

Lemma bells_short lo pop ready waits bl y :
  sys_inv_from lo pop ready waits bl y -> (length bl <= MaxThreads)%nat.
Proof.
  intros HY. pose proof (y_inv _ _ _ _ _ _ HY) as HI.
  rewrite <- (length_fmap (owner_of y) bl). etransitivity; [|exact (i_bound _ _ _ _ HI)].
  apply submseteq_length, NoDup_submseteq.
  - apply NoDup_fmap_2_strong; [|exact (Queue.rep_nodup _ _ _ (y_bells _ _ _ _ _ _ HY))].
    intros b b' Hb Hb' E. by apply (y_once _ _ _ _ _ _ HY).
  - intros x (b & -> & Hb)%list_elem_of_fmap. apply (i_parked _ _ _ _ HI). right. by exists b.
Qed.

Definition ticks_for (ms : Z) : Z :=
  if ms / Config.SCHEDULER_TICK_MS =? 0 then 1 else ms / Config.SCHEDULER_TICK_MS.

Lemma ticks_for_range ms : 1 <= ms < 2 ^ 32 -> 1 <= ticks_for ms < 2 ^ 32.
Proof.
  intros H. unfold ticks_for, Config.SCHEDULER_TICK_MS.
  assert (0 <= ms / 10 < 2 ^ 32) by (split; [apply Z.div_pos; lia|apply Z.div_lt_upper_bound; lia]).
  case_test; lia.
Qed.

(** What [Sleep] does to the bells, as one fact about the list. *)
Lemma Sleep_bells pop ready waits bl y c bell ms :
  sys_inv pop ready waits bl y -> m_ActiveThread (System.sched y) c <> 0 ->
  1 <= ms < 2 ^ 32 -> bell <> 0 -> bell ∉ bl ->
  exists br' m1 m2 s1, bl = m1 ++ m2 /\
    Bellringer.Sleep c (System.bellringer y) (System.sched y) bell ms =
      (let* s := Resume c s1 false in Ok (br', s)) /\
    (s1 = System.sched y \/ s1 = SendIpi (System.sched y) 0 WAKEUP) /\
    Queue.rep (Bellringer.bell_links br') (Bellringer.m_Bells br') (m1 ++ bell :: m2) /\
    (forall b, b ∈ bl -> Bellringer.Owner (Bellringer.bells br' b) = owner_of y b) /\
    Bellringer.Owner (Bellringer.bells br' bell) = m_ActiveThread (System.sched y) c /\
    (forall b, b ∈ m1 ++ bell :: m2 -> 0 <= Bellringer.Ticks (Bellringer.bells br' b)) /\
    due (Bellringer.bells br') 0 (m1 ++ bell :: m2) =
      insert_due (m_ActiveThread (System.sched y) c) (ticks_for ms) (deadlines y bl).
Proof.
  intros HY Ha Hms Hb0 Hb. pose proof (ticks_for_range ms Hms) as Htk.
  pose proof (y_bells _ _ _ _ _ _ HY) as Hr. pose proof (bells_short _ _ _ _ _ _ HY) as Hlen.
  set (cur := m_ActiveThread (System.sched y) c) in *. set (br := System.bellringer y) in *.
  set (B := Bellringer.bells br).
  assert (Hticks : forall b, b ∈ bl -> 0 <= Bellringer.Ticks (B b)) by exact (y_ticks _ _ _ _ _ _ HY).
  destruct (Sleep_loop_ok (S MaxThreads) br bl (Queue.First (Bellringer.m_Bells br)) 0 (ticks_for ms))
    as (m1 & m2 & -> & HS & Hpos & Hh); [apply Hr|done|lia|lia|].
  destruct (Sleep_link _ _ m1 m2 bell Hr Hb0 Hb) as (Hsucc & L' & q' & Hlk & Hr').
  fold B in HS, Hpos, Hh. set (rest := ticks_for ms - span B m1) in *.
  assert (Hwrap : forall b, head m2 = Some b -> Bellringer.Ticks (B b) -64 rest = Bellringer.Ticks (B b) - rest).
  { intros b Hbm. assert (b ∈ m1 ++ m2) as Hin.
    { destruct m2; [done|]. injection Hbm as ->. set_solver. }
    destruct (due_ticks B 0 (m1 ++ m2) b) as (t & Hd & Hle); [done|lia|done|].
    pose proof (y_due _ _ _ _ _ _ HY _ _ Hd). specialize (Hh b Hbm). apply wrap_small. unfold is_word. lia. }
  exists {| Bellringer.bells := slept B (default 0 (head m2)) bell cur rest;
            Bellringer.bell_links := L'; Bellringer.m_Bells := q' |}, m1, m2,
    (if Queue.IsEmpty (Bellringer.m_Bells br) && IsIdle (System.sched y) 0
     then SendIpi (System.sched y) 0 WAKEUP else System.sched y).
  split_and!; [done| |by destruct (_ && _); [right|left]|done| | | |].
  - unfold Bellringer.Sleep. destruct (Z.eqb_spec ms 0); [lia|]. fold (ticks_for ms). unfold Active. fold cur.
    destruct (Z.eqb_spec cur 0); [done|]. cbn [negb]. rewrite ASSERT_true. cbn [obind].
    rewrite HS. cbn [obind]. rewrite Hsucc. fold B. unfold slept.
    destruct m2 as [|b m2]; simpl head; simpl default.
    + cbn [Z.eqb negb]. fold B. by rewrite Hlk.
    + assert (b <> 0) by (eapply Queue.chain_nonzero; [apply Hr|set_solver]).
      destruct (Z.eqb_spec b 0); [done|]. cbn [negb Bellringer.set_Ticks Bellringer.bells Bellringer.bell_links Bellringer.m_Bells].
      fold B. rewrite Hwrap by done. by rewrite Hlk.
  - intros b Hbin. cbn [Bellringer.bells]. unfold slept. rewrite upd_ne by set_solver.
    case_test; [done|]. cbn [negb]. unfold upd. case_test; subst; done.
  - cbn [Bellringer.bells]. unfold slept. by rewrite upd_eq.
  - intros b Hbin. cbn [Bellringer.bells]. unfold slept. unfold upd at 1. case_test; [done|].
    assert (b ∈ m1 ++ m2) as Hin by set_solver.
    case_test; [by apply Hticks|]. cbn [negb]. unfold upd. case_test; [|by apply Hticks]. subst b. simpl.
    destruct m2 as [|b m2]; [done|]. simpl. specialize (Hh b eq_refl). lia.
  - cbn [Bellringer.bells]. unfold deadlines. fold br B. apply slept_due; try done; [apply Hr|].
    intros b Hbin. eapply Queue.chain_nonzero; [apply Hr|done].
Qed.

Lemma bell_fresh pop ready waits bl y c bell :
  sys_inv pop ready waits bl y -> is_core c ->
  stack_owner bell = m_ActiveThread (System.sched y) c -> bell ∉ bl.
Proof.
  intros HY Hc Ho Hb. pose proof (y_home _ _ _ _ _ _ HY bell Hb) as E.
  eapply (parked_not_active _ _ _ _ _ _ c HY); [right; exists bell; split; [done|reflexivity]|done|].
  congruence.
Qed.

Lemma Sleep_ok pop ready waits bl y c bell ms :
  sys_inv pop ready waits bl y -> is_core c ->
  m_ActiveThread (System.sched y) c <> 0 -> ~ idle (m_ActiveThread (System.sched y) c) ->
  1 <= ms < 2 ^ 32 -> bell <> 0 -> stack_owner bell = m_ActiveThread (System.sched y) c ->
  exists y' bl', System.exec (System.ESleep c bell ms) y = Ok y' /\
    sys_inv pop (pick (IsDying (System.sched y)) ready).2 waits bl' y' /\
    deadlines y' bl' = insert_due (m_ActiveThread (System.sched y) c) (ticks_for ms) (deadlines y bl) /\
    System.sems y' = System.sems y /\
    (forall x, IsDying (System.sched y') x = IsDying (System.sched y) x) /\
    (forall c', m_ActiveThread (System.sched y') c' = upd (m_ActiveThread (System.sched y)) c
       (default (s_IdleThread c) (pick (IsDying (System.sched y)) ready).1) c').
Proof.
  intros HY Hc Ha Hi Hms Hb0 Hho. pose proof (bell_fresh _ _ _ _ _ _ _ HY Hc Hho) as Hb.
  destruct (Sleep_bells _ _ _ _ _ c bell ms HY Ha Hms Hb0 Hb)
    as (br & m1 & m2 & s1 & Hbl & HS & Hs1 & Hr & Hown & Hcur & Htk & Hdue).
  simpl. rewrite HS. set (cur := m_ActiveThread (System.sched y) c) in *.
  assert (Hs1f : links s1 = links (System.sched y) /\ m_ReadyQueue s1 = m_ReadyQueue (System.sched y) /\
    m_ActiveThread s1 = m_ActiveThread (System.sched y) /\ IsDying s1 = IsDying (System.sched y) /\
    inv pop ready (parked_in y waits bl) s1).
  { pose proof (y_inv _ _ _ _ _ _ HY). destruct Hs1 as [-> | ->]; split_and!; try done. by apply inv_SendIpi. }
  destruct Hs1f as (HL1 & HQ1 & HA1 & HD1 & HI). rewrite <- Exit_Resume by (by rewrite HA1). unfold Exit.
  destruct (active_unlinked _ _ _ _ c HI Hc) as [(_ & Hl & Hnr) Hnp]; [by rewrite HA1|].
  rewrite HA1 in Hl, Hnr, Hnp. fold cur in Hl, Hnr, Hnp.
  set (bl' := m1 ++ bell :: m2) in *.
  assert (Hel : forall b, b ∈ bl' <-> b ∈ bl \/ b = bell) by (intros b; subst bl bl'; set_solver).
  set (y1 := System.with_bells y br s1).
  assert (Ho1 : forall b, b ∈ bl -> owner_of y1 b = owner_of y b) by exact Hown.
  assert (Hpk : forall x, parked_in y1 waits bl' x <-> parked_in y waits bl x \/ x = cur).
  { intros x. unfold parked_in. setoid_rewrite Hel. split.
    - intros [?|(b & [Hbb| ->] & <-)]; [by left; left| |by right]. left; right. exists b. by rewrite Ho1.
    - intros [[?|(b & Hbb & <-)]| ->]; [by left|right|right].
      + exists b. rewrite Ho1 by done. auto.
      + exists bell. auto. }
  destruct (switch_ok pop ready (parked_in y waits bl) s1 c (links s1) (m_ReadyQueue s1) ready (parked_in y1 waits bl'))
    as (s' & HSw & HI' & (Hkd & _) & HL' & HA); try done.
  - by rewrite HA1.
  - apply (i_rep _ _ _ _ HI).
  - intros x Hx Hn. rewrite Hpk in Hn. apply (i_off _ _ _ _ HI); naive_solver.
  - intros x Hx. rewrite Hpk. intros [Hp| ->]; [|done].
    by destruct (i_ready _ _ _ _ HI x Hx) as (_ & _ & _ & Hn & _).
  - unfold movable. rewrite HA1. fold cur. intros x [Hx|[Hx| ->]%Hpk]; auto.
  - replace (with_queue s1 (links s1) (m_ReadyQueue s1)) with s1 in HSw by (by destruct s1).
    rewrite HSw. cbn [obind]. exists (System.with_bells y br s'), bl'. rewrite HD1, HA1 in *.
    split_and!; try done. pose proof HY as [].
    assert (HLp : forall x, parked_in y waits bl x -> links s' x = links (System.sched y) x).
    { intros x Hx. rewrite HL', HL1; [done|]. by apply (parked_not_ready _ _ _ _ _ _ x HY). }
    split; try done.
    + intros i. eapply Queue.rep_ext; [|apply y_wait0]. intros x Hx. apply HLp. left. by exists i.
    + intros b [Hbb| ->]%Hel; [|exact (eq_trans Hho (eq_sym Hcur))].
      change (owner_of _ b) with (owner_of y1 b). rewrite Ho1 by done. by apply y_home0.
    + intros b b'. change (owner_of (System.with_bells y br s')) with (owner_of y1).
      intros [Hbb| ->]%Hel [Hbb'| ->]%Hel; [|rewrite (Ho1 b) by done|rewrite (Ho1 b') by done|done].
      * rewrite !Ho1 by done. by apply y_once0.
      * intros E. exfalso. apply Hnp. right. exists b. split; [done|]. exact (eq_trans E Hcur).
      * intros E. exfalso. apply Hnp. right. exists b'. split; [done|]. exact (eq_trans (eq_sym E) Hcur).
    + intros b. change (owner_of (System.with_bells y br s')) with (owner_of y1).
      intros [Hbb| ->]%Hel.
      * rewrite Ho1 by done. destruct (y_sleep0 b Hbb) as [H1 H2]. split; [|done].
        rewrite <- H1. apply HLp. right. by exists b.
      * change (owner_of y1 bell) with (Bellringer.Owner (Bellringer.bells br bell)). rewrite Hcur. split.
        -- simpl. rewrite HL' by done. done.
        -- intros i Hw. apply Hnp. left. by exists i.
    + intros x u. change (deadlines _ bl') with (due (Bellringer.bells br) 0 bl'). rewrite Hdue.
      intros [[= -> ->]|Hin]%elem_of_insert_due; [by apply ticks_for_range|by apply (y_due0 x)].
Qed.

(** *** Check *)

(** One round of the loop: the bell is taken off and its owner made ready. *)
Lemma ring_one pop ready waits b bl y c :
  sys_inv_from 0 pop ready waits (b :: bl) y -> ticks_of y b = 0 ->
  exists L q s', Queue.Dequeue (Bellringer.bell_links (System.bellringer y))
                               (Bellringer.m_Bells (System.bellringer y)) = (b, L, q) /\
    Ready c (System.sched y) (owner_of y b) = Ok s' /\
    sys_inv_from 0 pop (ready ++ [owner_of y b]) waits bl
      (System.with_bells y {| Bellringer.bells := Bellringer.bells (System.bellringer y);
                              Bellringer.bell_links := L; Bellringer.m_Bells := q |} s') /\
    (forall x, IsDying s' x = IsDying (System.sched y) x) /\
    m_ActiveThread s' = m_ActiveThread (System.sched y).
Proof.
  intros HY Ht. pose proof (y_bells _ _ _ _ _ _ HY) as Hr. pose proof (y_inv _ _ _ _ _ _ HY) as HI.
  destruct (Queue.Dequeue_cons _ _ _ _ Hr) as (L & q & HD & Hq & _ & _).
  set (x := owner_of y b). assert (Hpx : parked_in y waits (b :: bl) x) by (right; exists b; split; [left|done]).
  destruct (i_parked _ _ _ _ HI x Hpx) as (Hxp & Hxi & Hxt & Hxa).
  destruct (y_sleep _ _ _ _ _ _ HY b) as [HLx Hxw]; [left|]. fold x in HLx, Hxw.
  pose proof (parked_not_ready _ _ _ _ _ _ x HY Hpx) as Hxr.
  pose proof (Queue.rep_nodup _ _ _ Hr) as [Hb Hnd]%NoDup_cons.
  assert (Hone : forall b', b' ∈ bl -> owner_of y b' <> x).
  { intros b' Hb' E. assert (b' = b); [|by subst]. apply (y_once _ _ _ _ _ _ HY); [set_solver|left|done]. }
  assert (Hpk : forall z, parked_in y waits bl z <-> parked_in y waits (b :: bl) z /\ z <> x).
  { intros z. unfold parked_in. setoid_rewrite elem_of_cons. split.
    - intros [[i Hz]|(b' & Hb' & <-)]; (split; [by eauto|]); [by intros ->; apply (Hxw i)|by apply Hone].
    - intros [[Hz|(b' & [->|Hb'] & <-)] Hn]; [by left|done|right; by exists b']. }
  destruct (Ready_ok pop ready (parked_in y waits (b :: bl)) (parked_in y waits bl) (System.sched y) c x)
    as [(s' & HR & HI' & Hd & HA & HL & _)|[E _]]; try done.
  { split; [by apply (pop_nonzero _ _ _ _ _ HI)|done]. }
  exists L, q, s'. split_and!; try done. pose proof HY as [].
  assert (HLs : forall z, parked_in y waits bl z -> links s' z = links (System.sched y) z).
  { intros z [Hz Hzx]%Hpk. apply HL. pose proof (parked_not_ready _ _ _ _ _ _ z HY Hz). set_solver. }
  split; try done.
  - intros i. eapply Queue.rep_ext; [|apply y_wait0]. intros z Hz. apply HLs. left. by exists i.
  - intros b' Hb'. apply y_home0. by right.
  - intros b1 b2 H1 H2. apply y_once0; by right.
  - intros b' Hb'. destruct (y_sleep0 b') as [H1 H2]; [by right|]. split; [|done].
    rewrite <- H1. apply HLs. right. by exists b'.
  - intros b' Hb'. apply y_ticks0. by right.
  - intros z t Hz. apply (y_due0 z t). unfold deadlines. cbn [due]. right.
    fold (ticks_of y b). rewrite Ht. done.
Qed.

Lemma Check_loop_ok fuel pop ready waits bl y c :
  sys_inv_from 0 pop ready waits bl y -> (length bl < fuel)%nat ->
  exists z rest br' s', bl = z ++ rest /\
    Bellringer.Check_loop fuel c (System.bellringer y) (System.sched y) = Ok (br', s') /\
    (forall b, b ∈ z -> ticks_of y b = 0) /\ (forall b, head rest = Some b -> 0 < ticks_of y b) /\
    sys_inv_from 0 pop (ready ++ (owner_of y <$> z)) waits rest (System.with_bells y br' s') /\
    Bellringer.bells br' = Bellringer.bells (System.bellringer y) /\
    (forall x, IsDying s' x = IsDying (System.sched y) x) /\
    m_ActiveThread s' = m_ActiveThread (System.sched y).
Proof.
  revert ready bl y; induction fuel as [|k IH]; intros ready bl y HY Hf; [lia|].
  cbn [Bellringer.Check_loop]. pose proof (y_bells _ _ _ _ _ _ HY) as Hr. unfold Queue.IsEmpty, Queue.First.
  assert (Hstop : forall rest, (forall b, head rest = Some b -> 0 < ticks_of y b) -> bl = rest ->
    exists z rest' br' s', bl = z ++ rest' /\
      Ok (System.bellringer y, System.sched y) = Ok (br', s') /\
      (forall b, b ∈ z -> ticks_of y b = 0) /\ (forall b, head rest' = Some b -> 0 < ticks_of y b) /\
      sys_inv_from 0 pop (ready ++ (owner_of y <$> z)) waits rest' (System.with_bells y br' s') /\
      Bellringer.bells br' = Bellringer.bells (System.bellringer y) /\
      (forall x, IsDying s' x = IsDying (System.sched y) x) /\
      m_ActiveThread s' = m_ActiveThread (System.sched y)).
  { intros rest Hh ->. exists [], rest, (System.bellringer y), (System.sched y).
    split_and!; try done; [set_solver|]. simpl. rewrite app_nil_r. by destruct y. }
  destruct bl as [|b bl].
  { pose proof (proj2 (Queue.rep_empty_head _ _ _ Hr) eq_refl) as ->. by apply (Hstop []). }
  assert (Hhead : Queue.m_Head (Bellringer.m_Bells (System.bellringer y)) = b /\ b <> 0).
  { destruct Hr as [(-> & ? & _) _ _]. done. }
  destruct Hhead as [-> Hb0]. destruct (Z.eqb_spec b 0); [done|]. cbn [negb andb]. fold (ticks_of y b).
  destruct (Z.eqb_spec (ticks_of y b) 0) as [E|E].
  - destruct (ring_one _ _ _ _ _ _ c HY E) as (L & q & s' & HD & HR & HY' & Hd & HA).
    rewrite HD. fold (owner_of y b). rewrite HR. cbn [obind].
    destruct (IH _ _ _ HY') as (z & rest & br' & s'' & Hbl & HC & Hz & Hh & HY'' & HB & Hd' & HA');
      [simpl in Hf; lia|].
    exists (b :: z), rest, br', s''. split_and!; [by rewrite Hbl|exact HC| |done| |done| |by rewrite HA'].
    + intros b' [->|Hb']%elem_of_cons; [done|by apply Hz].
    + rewrite fmap_cons, cons_middle, app_assoc. exact HY''.
    + intros x. by rewrite Hd'.
  - apply (Hstop (b :: bl)); [|done]. intros b' [= <-]. pose proof (y_ticks _ _ _ _ _ _ HY b ltac:(left)). lia.
Qed.

Definition pred_tick (p : Z * Z) : Z * Z := (p.1, p.2 - 1).

Lemma filter_pred_tick (P Q : Z * Z -> Prop) `{!forall p, Decision (P p), !forall p, Decision (Q p)} (l : list (Z * Z)) :
  (forall p, P (pred_tick p) <-> Q p) ->
  filter P (pred_tick <$> l) = pred_tick <$> filter Q l.
Proof.
  intros HPQ. induction l as [|p l IH]; [done|]. rewrite fmap_cons. destruct (decide (Q p)).
  - rewrite (filter_cons_True Q), filter_cons_True by (done || by apply HPQ). by rewrite fmap_cons, IH.
  - rewrite (filter_cons_False Q), filter_cons_False by (done || by rewrite HPQ). done.
Qed.

(** The decrement of the head's delta brings every deadline one tick closer. *)
Lemma tick_deadlines B b bl :
  b ∉ bl ->
  due (upd B b {| Bellringer.Owner := Bellringer.Owner (B b); Bellringer.Ticks := Bellringer.Ticks (B b) - 1 |})
      0 (b :: bl) = pred_tick <$> due B 0 (b :: bl).
Proof.
  intros Hb. cbn [due]. rewrite upd_eq. cbn [Bellringer.Owner Bellringer.Ticks]. rewrite fmap_cons.
  f_equal.
  rewrite (due_ext B) by (intros b' Hb'; apply upd_ne; by intros ->).
  replace (0 + (Bellringer.Ticks (B b) - 1)) with (0 + Bellringer.Ticks (B b) + -1) by lia.
  rewrite due_shift. apply list_fmap_ext. intros _ p _. unfold pred_tick. f_equal. 
Qed.

Lemma sys_inv_tick pop ready waits b bl y :
  sys_inv pop ready waits (b :: bl) y ->
  let br := Bellringer.set_Ticks (System.bellringer y) b (ticks_of y b - 1) in
  sys_inv_from 0 pop ready waits (b :: bl) (System.with_bells y br (System.sched y)) /\
  deadlines (System.with_bells y br (System.sched y)) (b :: bl) = pred_tick <$> deadlines y (b :: bl).
Proof.
  intros HY br. set (y1 := System.with_bells y br (System.sched y)).
  pose proof (Queue.rep_nodup _ _ _ (y_bells _ _ _ _ _ _ HY)) as [Hb Hnd]%NoDup_cons.
  assert (Hd : deadlines y1 (b :: bl) = pred_tick <$> deadlines y (b :: bl)) by (by apply tick_deadlines).
  split; [|exact Hd].
  assert (Ho : forall b', owner_of y1 b' = owner_of y b').
  { intros b'. unfold owner_of. simpl. unfold upd. by case_test; subst. }
  assert (Hp : forall x, parked_in y1 waits (b :: bl) x <-> parked_in y waits (b :: bl) x).
  { intros x. unfold parked_in. setoid_rewrite Ho. done. }
  assert (H1 : 1 <= ticks_of y b).
  { apply (y_due _ _ _ _ _ _ HY (owner_of y b)). unfold deadlines. cbn [due]. rewrite Z.add_0_l. left. }
  pose proof HY as []. split; try done.
  - by apply (inv_parked_iff _ _ (parked_in y waits (b :: bl))).
  - intros b' Hb'. rewrite Ho. by apply y_home0.
  - intros b1 b2 Hb1 Hb2. rewrite !Ho. by apply y_once0.
  - intros b' Hb'. rewrite Ho. by apply y_sleep0.
  - intros b' Hb'. unfold ticks_of. simpl. unfold upd. case_test; [simpl; lia|by apply y_ticks0].
  - intros x u. rewrite Hd. intros ([x' u'] & [= -> ->] & Hin)%list_elem_of_fmap.
    specialize (y_due0 _ _ Hin). simpl. lia.
Qed.

Lemma Check_ok pop ready waits bl y c :
  sys_inv pop ready waits bl y ->
  exists y' bl', System.exec (System.ECheck c) y = Ok y' /\
    sys_inv pop (ready ++ rung (deadlines y bl)) waits bl' y' /\
    deadlines y' bl' = elapsed (deadlines y bl) /\ System.sems y' = System.sems y /\
    (forall x, IsDying (System.sched y') x = IsDying (System.sched y) x) /\
    m_ActiveThread (System.sched y') = m_ActiveThread (System.sched y).
Proof.
  intros HY. simpl. unfold Bellringer.Check, Queue.IsEmpty, Queue.First.
  pose proof (y_bells _ _ _ _ _ _ HY) as Hr. destruct bl as [|b bl].
  { pose proof (proj2 (Queue.rep_empty_head _ _ _ Hr) eq_refl) as ->. exists y, [].
    split_and!; try done; [by destruct y|]. unfold deadlines, rung. simpl. by rewrite app_nil_r. }
  destruct (sys_inv_tick _ _ _ _ _ _ HY) as [HY1 Hd1].
  assert (Hhead : Queue.m_Head (Bellringer.m_Bells (System.bellringer y)) = b /\ b <> 0).
  { destruct Hr as [(-> & ? & _) _ _]. done. }
  destruct Hhead as [-> Hb0]. destruct (Z.eqb_spec b 0); [done|]. fold (ticks_of y b).
  assert (H1 : 1 <= ticks_of y b).
  { apply (y_due _ _ _ _ _ _ HY (owner_of y b)). unfold deadlines. cbn [due]. rewrite Z.add_0_l. left. }
  destruct (Z.ltb_spec 0 (ticks_of y b)); [|lia].
  set (y1 := System.with_bells y _ (System.sched y)) in *.
  destruct (Check_loop_ok (S MaxThreads) _ _ _ _ _ c HY1) as
    (z & rest & br' & s' & Hbl & HC & Hz & Hh & HY2 & HB & Hd & HA).
  { pose proof (bells_short _ _ _ _ _ _ HY). lia. }
  change (System.bellringer y1) with
    (Bellringer.set_Ticks (System.bellringer y) b (ticks_of y b - 1)) in HC.
  change (System.sched y1) with (System.sched y) in HC. rewrite HC. cbn [obind].
  exists (System.with_bells y br' s'), rest.
  assert (Hticks : forall b', b' ∈ z ++ rest -> 0 <= ticks_of y1 b').
  { intros b' Hb'. apply (y_ticks _ _ _ _ _ _ HY1). by rewrite Hbl. }
  destruct (due_split (Bellringer.bells (System.bellringer y1)) z rest) as [Hs1 Hs2]; [done| |done|].
  { intros b' Hb'. apply Hticks. set_solver. }
  rewrite <- Hbl in Hs1, Hs2. fold (deadlines y1 (b :: bl)) in Hs1, Hs2. rewrite Hd1 in Hs1, Hs2.
  rewrite (filter_pred_tick _ (fun p => p.2 = 1)) in Hs1 by (intros p; simpl; lia).
  rewrite (filter_pred_tick _ (fun p => p.2 <> 1)) in Hs2 by (intros p; simpl; lia).
  assert (Hrung : rung (deadlines y (b :: bl)) = owner_of y1 <$> z).
  { unfold owner_of. rewrite <- Hs1. unfold rung. rewrite <- list_fmap_compose. by apply list_fmap_ext. }
  assert (Hel : deadlines (System.with_bells y br' s') rest = elapsed (deadlines y (b :: bl))).
  { unfold deadlines at 1. simpl. rewrite HB. symmetry. exact Hs2. }
  split_and!; try done. rewrite Hrung. destruct HY2. split; try done.
  intros x u Hin. specialize (y_due0 x u Hin). change (System.with_bells y1 br' s') with (System.with_bells y br' s') in *.
  rewrite Hel in Hin. unfold elapsed in Hin. apply list_elem_of_fmap in Hin as ([x' u'] & [= -> ->] & Hin).
  apply list_elem_of_filter in Hin as [Hne _]. simpl in *. lia.
Qed.

(** ** The abstract system

    Lists for the queues, absolute deadlines for the bells, and one deterministic step per
    call. *)

Record asys := {
  s_ready : list Z;
  s_waits : Z -> list Z;
  s_count : Z -> Z;
  s_due : list (Z * Z);
  s_run : Z -> Z;
  s_dead : Z -> bool }.

Definition a_set_ready (A : asys) l : asys :=
  {| s_ready := l; s_waits := s_waits A; s_count := s_count A; s_due := s_due A;
     s_run := s_run A; s_dead := s_dead A |}.

(** Core [c] takes the first live thread of [l], or its idle thread. *)
Definition s_switch (c : Z) (l : list Z) (A : asys) : asys :=
  {| s_ready := (pick (s_dead A) l).2; s_waits := s_waits A; s_count := s_count A; s_due := s_due A;
     s_run := upd (s_run A) c (default (s_IdleThread c) (pick (s_dead A) l).1); s_dead := s_dead A |}.

Definition a_set_count (A : asys) i n : asys :=
  {| s_ready := s_ready A; s_waits := s_waits A; s_count := upd (s_count A) i n;
     s_due := s_due A; s_run := s_run A; s_dead := s_dead A |}.
Definition a_set_waits (A : asys) i l : asys :=
  {| s_ready := s_ready A; s_waits := upd (s_waits A) i l; s_count := s_count A;
     s_due := s_due A; s_run := s_run A; s_dead := s_dead A |}.

Definition a_set_due (A : asys) d : asys :=
  {| s_ready := s_ready A; s_waits := s_waits A; s_count := s_count A; s_due := d;
     s_run := s_run A; s_dead := s_dead A |}.

Definition astep (e : System.event) (A : asys) : asys :=
  match e with
  | System.ESchedule c | System.EExit c => s_switch c (s_ready A) A
  | System.EReady _ x => a_set_ready A (s_ready A ++ [x])
  | System.EResume c =>
      s_switch c (if negb (s_dead A (s_run A c)) && negb (s_run A c =? s_IdleThread c)
                  then s_ready A ++ [s_run A c] else s_ready A) A
  | System.EKill x =>
      {| s_ready := filter (fun z => z <> x) (s_ready A); s_waits := s_waits A; s_count := s_count A;
         s_due := s_due A; s_run := s_run A; s_dead := upd (s_dead A) x true |}
  | System.EP c i =>
      if 0 <? s_count A i then a_set_count A i (s_count A i - 1)
      else s_switch c (s_ready A) (a_set_waits A i (s_waits A i ++ [s_run A c]))
  | System.EV _ i =>
      match s_waits A i with
      | [] => a_set_count A i (u32 (s_count A i + 1))
      | x :: l => a_set_ready (a_set_waits A i l) (s_ready A ++ [x])
      end
  | System.ESleep c _ ms =>
      if ms =? 0 then A
      else s_switch c (s_ready A) (a_set_due A (insert_due (s_run A c) (ticks_for ms) (s_due A)))
  | System.ECheck _ =>
      a_set_due (a_set_ready A (s_ready A ++ rung (s_due A))) (elapsed (s_due A))
  end.

(** [x] is queued nowhere and runs nowhere. *)
Definition nowhere (A : asys) (x : Z) : Prop :=
  x ∉ s_ready A /\ (forall i, x ∉ s_waits A i) /\ x ∉ (s_due A).*1 /\
  forall c, is_core c -> s_run A c <> x.

(** When a call may be made: threads are made ready once they are in no other place, and
    only a real thread blocks. *)
Definition enabled (pop : list Z) (e : System.event) (A : asys) : Prop :=
  match e with
  | System.ESchedule c => is_core c /\ s_run A c = 0
  | System.EReady c x => x ∈ pop /\ ~ idle x /\ nowhere A x
  | System.EResume c | System.EExit c => is_core c /\ s_run A c <> 0
  | System.EKill x => x ∈ pop
  | System.EP c i => is_core c /\ s_run A c <> 0 /\ ~ idle (s_run A c)
  | System.EV c i => True
  | System.ESleep c bell ms => is_core c /\ s_run A c <> 0 /\ ~ idle (s_run A c) /\
      0 <= ms < 2 ^ 32 /\ bell <> 0 /\ stack_owner bell = s_run A c
  | System.ECheck c => True
  end.

Record sys_sim (pop : list Z) (A : asys) y : Prop := {
  ss_inv : exists bl, sys_inv pop (s_ready A) (s_waits A) bl y /\ deadlines y bl = s_due A;
  ss_count i : Semaphore.m_Counter (System.sems y i) = s_count A i;
  ss_run c : is_core c -> m_ActiveThread (System.sched y) c = s_run A c;
  ss_dead x : IsDying (System.sched y) x = s_dead A x }.

Lemma due_member y bl x : x ∈ (deadlines y bl).*1 <-> exists b, b ∈ bl /\ owner_of y b = x.
Proof.
  unfold deadlines. rewrite due_owners, list_elem_of_fmap. unfold owner_of. naive_solver.
Qed.

(** The scheduler's own calls. *)
Lemma sim_sched pop A y bl s' ready' :
  sys_sim pop A y -> sys_inv pop (s_ready A) (s_waits A) bl y -> deadlines y bl = s_due A ->
  inv pop ready' (parked_in y (s_waits A) bl) s' ->
  (forall x, x ∉ s_ready A -> (forall c, is_core c -> m_ActiveThread (System.sched y) c <> x) ->
     parked_in y (s_waits A) bl x -> links s' x = links (System.sched y) x) ->
  sys_inv pop ready' (s_waits A) bl (System.with_sched y s').
Proof.
  intros HS HY Hd HI HL. apply (sys_inv_sched pop (s_ready A)); [done|done|].
  intros x Hx. apply HL; [by apply (parked_not_ready _ _ _ _ _ _ x HY)| |done].
  intros c Hc. by apply (parked_not_active _ _ _ _ _ x c HY).
Qed.

(** A switch of core [c], seen from both sides. *)
Lemma sim_switched pop A y y' c l :
  sys_sim pop A y ->
  (exists bl, sys_inv pop (pick (IsDying (System.sched y)) l).2 (s_waits A) bl y' /\ deadlines y' bl = s_due A) ->
  (forall i, Semaphore.m_Counter (System.sems y' i) = s_count A i) ->
  (forall x, IsDying (System.sched y') x = IsDying (System.sched y) x) ->
  (forall c', m_ActiveThread (System.sched y') c' = upd (m_ActiveThread (System.sched y)) c
     (default (s_IdleThread c) (pick (IsDying (System.sched y)) l).1) c') ->
  sys_sim pop (s_switch c l A) y'.
Proof.
  intros HS Hb Hc Hd HA. assert (E : pick (IsDying (System.sched y)) l = pick (s_dead A) l).
  { apply pick_ext. apply HS. }
  rewrite E in *. split; try done.
  - intros c' Hc'. rewrite HA. simpl. unfold upd. case_test; [done|]. by apply HS.
  - intros x. rewrite Hd. apply HS.
Qed.

Lemma sim_Resume pop A y c b :
  sys_sim pop A y -> is_core c -> s_run A c <> 0 ->
  exists s', Resume c (System.sched y) b = Ok s' /\
    sys_sim pop (s_switch c (if b && negb (s_dead A (s_run A c)) && negb (s_run A c =? s_IdleThread c)
                             then s_ready A ++ [s_run A c] else s_ready A) A) (System.with_sched y s').
Proof.
  intros HS Hc Ha. pose proof HS as [(bl & HY & Hd) Hcnt Hrun Hdy]. rewrite <- Hrun in Ha by done.
  destruct (Resume_ok _ _ _ _ c b (y_inv _ _ _ _ _ _ HY) Hc Ha) as (s' & HR & HI & (Hkd & _) & HL & HA).
  exists s'. split; [done|].
  assert (Hreq : requeued (System.sched y) (s_ready A) c b =
    if b && negb (s_dead A (s_run A c)) && negb (s_run A c =? s_IdleThread c)
    then s_ready A ++ [s_run A c] else s_ready A) by (unfold requeued; by rewrite Hrun, Hdy).
  rewrite Hreq in *. apply (sim_switched pop A y); try done. exists bl. split; [|done].
  apply (sim_sched pop A y bl); try done. intros x Hx Hact _. apply HL. case_match; [|done].
  rewrite elem_of_app, list_elem_of_singleton. intros [?| ->]; [done|]. apply (Hact c Hc). by apply Hrun.
Qed.

Lemma sim_Schedule pop A y c :
  sys_sim pop A y -> is_core c -> s_run A c = 0 ->
  (exists y', System.exec (System.ESchedule c) y = Ok y' /\ sys_sim pop (s_switch c (s_ready A) A) y') \/
  (exists why, System.exec (System.ESchedule c) y = Panic why).
Proof.
  intros HS Hc Ha. pose proof HS as [(bl & HY & Hd) Hcnt Hrun Hdy]. rewrite <- Hrun in Ha by done.
  simpl. destruct (Schedule_ok _ _ _ _ c (y_inv _ _ _ _ _ _ HY) Hc Ha)
    as [(s' & -> & HI & Hkd & HL & HA)|[why ->]]; [left|right; by exists why].
  cbn [obind]. eexists. split; [done|]. apply (sim_switched pop A y); try done. exists bl. split; [|done].
  apply (sim_sched pop A y bl); try done. intros x Hx _ _. by apply HL.
Qed.

Lemma sim_Ready pop A y c x :
  sys_sim pop A y -> x ∈ pop -> ~ idle x -> nowhere A x ->
  (exists y', System.exec (System.EReady c x) y = Ok y' /\ sys_sim pop (a_set_ready A (s_ready A ++ [x])) y') \/
  (exists why, System.exec (System.EReady c x) y = Panic why).
Proof.
  intros HS Hx Hi (Hnr & Hnw & Hnd & Hna). pose proof HS as [(bl & HY & Hd) Hcnt Hrun Hdy].
  pose proof (y_inv _ _ _ _ _ _ HY) as HI.
  assert (Hnp : ~ parked_in y (s_waits A) bl x).
  { intros [[i Hw]|Hb]; [by apply (Hnw i)|]. apply Hnd. rewrite <- Hd. by apply due_member. }
  simpl. destruct (Ready_ok pop (s_ready A) (parked_in y (s_waits A) bl) (parked_in y (s_waits A) bl)
    (System.sched y) c x) as [(s' & -> & HI' & Hkd & HA & HL & _)|[_ [why ->]]]; try done.
  - intros z. split; [|naive_solver]. intros Hz. split; [done|]. by intros ->.
  - split; [by apply (pop_nonzero _ _ _ _ _ HI)|]. split; [by apply (i_off _ _ _ _ HI)|done].
  - intros c' Hc'. rewrite Hrun by done. by apply Hna.
  - left. cbn [obind]. eexists. split; [done|]. split; simpl; try done.
    + exists bl. split; [|done]. apply (sim_sched pop A y bl); try done. intros z Hz _ Hp. apply HL.
      rewrite elem_of_app, list_elem_of_singleton. intros [?| ->]; done.
    + intros c' Hc'. rewrite HA. by apply Hrun.
    + intros z. by rewrite Hkd.
  - right. by exists why.
Qed.

Lemma sim_Kill pop A y x :
  sys_sim pop A y -> x ∈ pop ->
  exists y', System.exec (System.EKill x) y = Ok y' /\ sys_sim pop (astep (System.EKill x) A) y'.
Proof.
  intros HS Hx. pose proof HS as [(bl & HY & Hd) Hcnt Hrun Hdy]. simpl.
  destruct (Kill_ok _ _ _ _ x (y_inv _ _ _ _ _ _ HY) Hx) as (s' & -> & HI & Hkd & HA & HL & _).
  cbn [obind]. eexists. split; [done|]. split; simpl; try done.
  - exists bl. split; [|done]. apply (sim_sched pop A y bl); try done. intros z Hz _ _. by apply HL.
  - intros c Hc. rewrite HA. by apply Hrun.
  - intros z. rewrite Hkd. unfold upd. case_test; [done|]. apply Hdy.
Qed.

Lemma sim_P pop A y c i :
  sys_sim pop A y -> is_core c -> s_run A c <> 0 -> ~ idle (s_run A c) ->
  exists y', System.exec (System.EP c i) y = Ok y' /\ sys_sim pop (astep (System.EP c i) A) y'.
Proof.
  intros HS Hc Ha Hi. pose proof HS as [(bl & HY & Hd) Hcnt Hrun Hdy]. rewrite <- (Hrun c Hc) in Ha, Hi.
  destruct (P_ok _ _ _ _ _ c i HY Hc Ha Hi) as (y' & HE & HY' & Hbr & Hkd & HA & Hcn & Hse).
  exists y'. split; [done|]. unfold P_ready, P_waits in HY'. rewrite Hcnt in *. cbn [astep].
  assert (Hcnt' : forall j, Semaphore.m_Counter (System.sems y' j) =
    if j =? i then (if 0 <? s_count A i then s_count A i - 1 else 0) else s_count A j).
  { intros j. destruct (Z.eqb_spec j i) as [->|Hj]; [done|]. by rewrite Hse. }
  assert (Hd' : deadlines y' bl = s_due A) by (unfold deadlines; by rewrite Hbr).
  destruct (Z.ltb_spec 0 (s_count A i)) as [Hp|Hp].
  - split; simpl.
    + by exists bl.
    + intros j. rewrite Hcnt'. unfold upd. by case_test.
    + intros c' Hc'. rewrite HA. by apply Hrun.
    + intros x. by rewrite Hkd.
  - rewrite Hrun in HY' by done. 
    assert (E : pick (IsDying (System.sched y)) (s_ready A) = pick (s_dead A) (s_ready A)) by (by apply pick_ext).
    rewrite E in *. split; simpl.
    + by exists bl.
    + intros j. rewrite Hcnt'. pose proof (y_counter _ _ _ _ _ _ HY i) as [Hci _].
      rewrite Hcnt in Hci. case_test; [subst; lia|done].
    + intros c' Hc'. rewrite HA. unfold upd. case_test; [done|]. by apply Hrun.
    + intros x. by rewrite Hkd.
Qed.

Lemma sim_V pop A y c i :
  sys_sim pop A y ->
  exists y', System.exec (System.EV c i) y = Ok y' /\ sys_sim pop (astep (System.EV c i) A) y'.
Proof.
  intros HS. pose proof HS as [(bl & HY & Hd) Hcnt Hrun Hdy]. cbn [astep].
  destruct (s_waits A i) as [|x l] eqn:Hw.
  - destruct (V_empty _ _ _ _ _ c i HY Hw) as [HE HY']. eexists. split; [exact HE|].
    split; simpl; try done; [by exists bl|]. intros j. unfold upd. case_test; simpl; by rewrite Hcnt.
  - destruct (V_wakes _ _ _ _ _ c i x l HY Hw) as (y' & HE & HY' & Hbr & Hkd & HA & Hcn).
    exists y'. split; [done|]. split; simpl.
    + exists bl. split; [done|]. unfold deadlines. by rewrite Hbr.
    + intros j. by rewrite Hcn.
    + intros c' Hc'. rewrite HA. by apply Hrun.
    + intros z. by rewrite Hkd.
Qed.

Lemma sim_Sleep pop A y c bell ms :
  sys_sim pop A y -> enabled pop (System.ESleep c bell ms) A ->
  exists y', System.exec (System.ESleep c bell ms) y = Ok y' /\
    sys_sim pop (astep (System.ESleep c bell ms) A) y'.
Proof.
  intros HS (Hc & Ha & Hi & Hms & Hb & Ho). pose proof HS as [(bl & HY & Hd) Hcnt Hrun Hdy]. cbn [astep].
  destruct (Z.eqb_spec ms 0) as [->|Hm].
  { exists y. split; [|done]. simpl. by destruct y. }
  rewrite <- (Hrun c Hc) in Ha, Hi, Ho.
  destruct (Sleep_ok _ _ _ _ _ c bell ms HY Hc Ha Hi) as (y' & bl' & HE & HY' & Hd' & Hse & Hkd & HA);
    [lia|done|done|].
  exists y'. split; [done|]. rewrite Hd, Hrun in Hd' by done.
  assert (E : pick (IsDying (System.sched y)) (s_ready A) = pick (s_dead A) (s_ready A)) by (by apply pick_ext).
  rewrite E in *. split; simpl.
  - by exists bl'.
  - intros i. by rewrite Hse.
  - intros c' Hc'. rewrite HA. unfold upd. case_test; [done|]. by apply Hrun.
  - intros x. by rewrite Hkd.
Qed.

Lemma sim_Check pop A y c :
  sys_sim pop A y ->
  exists y', System.exec (System.ECheck c) y = Ok y' /\ sys_sim pop (astep (System.ECheck c) A) y'.
Proof.
  intros HS. pose proof HS as [(bl & HY & Hd) Hcnt Hrun Hdy].
  destruct (Check_ok _ _ _ _ _ c HY) as (y' & bl' & HE & HY' & Hd' & Hse & Hkd & HA).
  exists y'. split; [done|]. rewrite Hd in *. split; simpl.
  - by exists bl'.
  - intros i. by rewrite Hse.
  - intros c' Hc'. rewrite HA. by apply Hrun.
  - intros x. by rewrite Hkd.
Qed.

(** Calls that may have to allocate a stack. *)
Definition may_panic (e : System.event) : bool :=
  match e with System.ESchedule _ | System.EReady _ _ => true | _ => false end.

Lemma exec_refines pop A y e :
  sys_sim pop A y -> enabled pop e A ->
  (exists y', System.exec e y = Ok y' /\ sys_sim pop (astep e A) y') \/
  (may_panic e = true /\ exists why, System.exec e y = Panic why).
Proof.
  intros HS He. destruct e; cbn [enabled may_panic] in *.
  - destruct He as [Hc Ha]. destruct (sim_Schedule pop A y core HS Hc Ha); auto.
  - destruct He as (? & ? & ?). destruct (sim_Ready pop A y core x HS); auto.
  - left. destruct He as [Hc Ha]. destruct (sim_Resume pop A y core true HS Hc Ha) as (s' & HR & HS').
    simpl. rewrite HR. cbn [obind]. by eexists.
  - left. destruct He as [Hc Ha]. destruct (sim_Resume pop A y core false HS Hc Ha) as (s' & HR & HS').
    simpl. rewrite Exit_Resume, HR by (by rewrite (ss_run _ _ _ HS)). cbn [obind]. by eexists.
  - left. by apply sim_Kill.
  - left. destruct He as (? & ? & ?). by apply sim_P.
  - left. by apply sim_V.
  - left. by apply sim_Sleep.
  - left. by apply sim_Check.
Qed.

(** ** Runs *)

Inductive steps (pop : list Z) : list System.event -> asys -> System.t K -> asys -> System.t K -> Prop :=
| steps_nil A y : steps pop [] A y A y
| steps_cons e es A y y1 A' y' :
    enabled pop e A -> System.exec e y = Ok y1 ->
    steps pop es (astep e A) y1 A' y' -> steps pop (e :: es) A y A' y'.

Lemma steps_sim pop es A y A' y' :
  sys_sim pop A y -> steps pop es A y A' y' -> sys_sim pop A' y'.
Proof.
  intros HS Hst. induction Hst as [|e es A y y1 A' y' He HE _ IH]; [done|]. apply IH.
  destruct (exec_refines pop A y e HS He) as [(y2 & HE2 & HS2)|[_ [why HP]]]; congruence.
Qed.

Lemma steps_app pop es1 es2 A y A1 y1 A2 y2 :
  steps pop es1 A y A1 y1 -> steps pop es2 A1 y1 A2 y2 -> steps pop (es1 ++ es2) A y A2 y2.
Proof. intros H1 H2. induction H1; [done|]. simpl. econstructor; eauto. Qed.
End Spec.
