(* ===== verification/SystemSpec.v ===== *)
(** * Properties of the scheduler, the semaphores and the Bellringer in concert

    Every statement is about runs of [System.exec] from a state that satisfies the system
    invariant, made of any calls by any cores in any order. *)

From S2P Require Import Prelude Mem Queue Config Context Sched SchedSpec Sync SyncSpec.
Import Sched Sync.

Section Properties.
Context {K : Type} {SA : StackAllocator K} {SL : StackAllocatorLaws K} {BB : Build}
        {CC : Context.Code} {MM : Machine} {ML : MachineLaws}.
Variable stack_owner : Z -> Z.
Implicit Types (A : asys) (y : System.t K) (e : System.event).

Abbreviation sys_sim := (sys_sim stack_owner).
Abbreviation enabled := (enabled stack_owner).
Abbreviation steps := (steps stack_owner).

(** C1: Scheduler, semaphores and Bellringer together implement the abstract system of
    lists and deadlines: an enabled call on a state that simulates the abstract state [A]
    returns a state that simulates [astep e A]; no assertion fires, no loop runs out of
    its bound, and only [Schedule] and [Ready], which may need a stack, can panic. *)
Theorem system_refines_spec pop A y e :
  sys_sim pop A y -> enabled pop e A ->
  (exists y', System.exec e y = Ok y' /\ sys_sim pop (astep e A) y') \/
  (may_panic e = true /\ exists why, System.exec e y = Panic why).
Proof. intros HS He. destruct (exec_refines stack_owner pop A y e HS He); auto. Qed.

(** C2: A thread is only ever in one place.  In every state a run reaches, the ready
    queue, the wait queues and the sleepers hold each thread at most once, no two of them
    share a thread, none of them holds a thread that is running, and no thread runs on
    two cores; the stack a core enters the kernel on is the running thread's. *)
Theorem system_thread_in_one_place pop es A0 y0 A y x :
  sys_sim pop A0 y0 -> steps pop es A0 y0 A y ->
  (NoDup (s_ready A) /\ (forall i, NoDup (s_waits A i)) /\ NoDup (s_due A).*1) /\
  (x ∈ s_ready A -> (forall i, x ∉ s_waits A i) /\ x ∉ (s_due A).*1 /\
     forall c, is_core c -> m_ActiveThread (System.sched y) c <> x) /\
  (forall i, x ∈ s_waits A i -> (forall j, j <> i -> x ∉ s_waits A j) /\ x ∉ (s_due A).*1 /\
     forall c, is_core c -> m_ActiveThread (System.sched y) c <> x) /\
  (x ∈ (s_due A).*1 -> forall c, is_core c -> m_ActiveThread (System.sched y) c <> x) /\
  (forall c c', is_core c -> is_core c' -> m_ActiveThread (System.sched y) c <> 0 ->
     m_ActiveThread (System.sched y) c = m_ActiveThread (System.sched y) c' -> c = c') /\
  (forall c, is_core c -> m_ActiveThread (System.sched y) c <> 0 ->
     tss_stack (System.sched y) c = StackTop (System.sched y) (m_ActiveThread (System.sched y) c) /\
     syscall_stack (System.sched y) c = StackTop (System.sched y) (m_ActiveThread (System.sched y) c)).
Proof.
  intros HS0 Hst. destruct (steps_sim stack_owner _ _ _ _ _ _ HS0 Hst) as [(bl & HY & Hd) _ _ _].
  pose proof (y_inv _ _ _ _ _ _ _ HY) as HI.
  assert (Hdue : forall z, z ∈ (s_due A).*1 -> parked_in y (s_waits A) bl z).
  { intros z Hz. rewrite <- Hd in Hz. right. by apply (due_member stack_owner). }
  split_and!.
  - apply (i_rep _ _ _ _ HI).
  - intros i. apply (y_wait _ _ _ _ _ _ _ HY i).
  - rewrite <- Hd. unfold deadlines. rewrite due_owners. apply NoDup_fmap_2_strong; [|apply (y_bells _ _ _ _ _ _ _ HY)].
    intros b b' Hb Hb' E. by apply (y_once _ _ _ _ _ _ _ HY).
  - intros Hx. destruct (i_ready _ _ _ _ HI x Hx) as (_ & _ & _ & Hnp & Ha). split_and!; [| |done].
    + intros i Hi. apply Hnp. left. by exists i.
    + intros Hz. by apply Hnp, Hdue.
  - intros i Hx. split_and!.
    + intros j Hj Hxj. apply Hj. by apply (y_apart _ _ _ _ _ _ _ HY j i x).
    + intros Hz. rewrite <- Hd in Hz. apply (due_member stack_owner) in Hz as (b & Hb & <-).
      destruct (y_sleep _ _ _ _ _ _ _ HY b Hb) as [_ Hn]. by apply (Hn i).
    + apply (i_parked _ _ _ _ HI x). left. by exists i.
  - intros Hx. by apply (i_parked _ _ _ _ HI x), Hdue.
  - intros c c' Hc Hc'. by apply (i_inj _ _ _ _ HI).
  - intros c Hc H0. by destruct (i_active _ _ _ _ HI c Hc H0) as (_ & _ & _ & _ & ? & ?).
Qed.

Lemma run_after e A c x :
  s_run (astep e A) c <> s_run A c -> s_run (astep e A) c = x ->
  x = s_IdleThread c \/ s_dead A x = false.
Proof.
  assert (Hsw : forall c0 l A1, s_run A1 = s_run A -> s_dead A1 = s_dead A ->
    s_run (s_switch c0 l A1) c <> s_run A c -> s_run (s_switch c0 l A1) c = x ->
    x = s_IdleThread c \/ s_dead A x = false).
  { intros c0 l A1 Hr Hdd. simpl. rewrite Hr, Hdd. unfold upd. destruct (Z.eqb_spec c c0) as [->|]; [|done].
    pose proof (pick_spec (s_dead A) l) as Hp. destruct (pick (s_dead A) l) as [[n|] rest]; simpl.
    - intros _ <-. right. by destruct Hp as (_ & _ & _ & ?).
    - intros _ <-. by left. }
  destruct e; cbn [astep]; try (by apply Hsw); try done.
  - destruct (0 <? s_count A i); [done|by apply Hsw].
  - by destruct (s_waits A i).
  - destruct (ms =? 0); [done|by apply Hsw].
Qed.

(** A thread marked by [Kill] is never switched to again: whenever a call puts a core
    on another thread, that thread is not dying, or it is the core's idle thread. *)
Theorem dying_thread_never_dispatched pop A y e y' c :
  sys_sim pop A y -> enabled pop e A -> System.exec e y = Ok y' -> is_core c ->
  m_ActiveThread (System.sched y') c <> m_ActiveThread (System.sched y) c ->
  m_ActiveThread (System.sched y') c = s_IdleThread c \/
  IsDying (System.sched y) (m_ActiveThread (System.sched y') c) = false.
Proof.
  intros HS He HE Hc Hne.
  destruct (exec_refines stack_owner pop A y e HS He) as [(y2 & HE2 & HS2)|[_ [why HP]]]; [|congruence].
  rewrite HE in HE2. injection HE2 as <-. rewrite (ss_run _ _ _ _ HS2), (ss_run _ _ _ _ HS) in Hne by done.
  rewrite (ss_run _ _ _ _ HS2), (ss_dead _ _ _ _ HS) by done. by apply (run_after e A c).
Qed.

(** ** Fairness *)

Definition is_switch e : bool :=
  match e with System.ESchedule _ | System.EResume _ | System.EExit _ => true | _ => false end.
Definition count_events (p : System.event -> bool) (es : list System.event) : nat :=
  length (List.filter p es).

Lemma pick_position dead l n x :
  l !! n = Some x -> dead x = false ->
  (pick dead l).1 = Some x \/ exists m, (m < n)%nat /\ (pick dead l).2 !! m = Some x.
Proof.
  revert n; induction l as [|z l IH]; intros n Hn Hx; [done|]. simpl. destruct (dead z) eqn:Hz.
  - destruct n as [|n]; simpl in Hn; [congruence|]. destruct (IH n Hn Hx) as [?|(m & ? & ?)]; [by left|].
    right. exists m. split; [lia|done].
  - destruct n as [|n]; simpl in Hn; [left; simpl; congruence|]. right. exists n. split; [lia|done].
Qed.

Lemma filter_position (P : Z -> Prop) `{!forall x, Decision (P x)} (l : list Z) n x :
  l !! n = Some x -> P x -> exists m, (m <= n)%nat /\ filter P l !! m = Some x.
Proof.
  revert n; induction l as [|z l IH]; intros n Hn Hx; [done|]. rewrite filter_cons.
  destruct n as [|n]; simpl in Hn.
  - injection Hn as ->. rewrite decide_True by done. by exists 0%nat.
  - destruct (IH n Hn Hx) as (m & Hm & E). destruct (decide (P z)).
    + exists (S m). split; [lia|done].
    + exists m. split; [lia|done].
Qed.

(** One call moves a waiting thread forward, and every switch by at least one place. *)
Lemma astep_position pop e A n x :
  enabled pop e A -> s_ready A !! n = Some x -> s_dead A x = false -> e <> System.EKill x ->
  s_dead (astep e A) x = false /\
  ((exists c, is_core c /\ s_run (astep e A) c = x) \/
   exists m, (m <= n)%nat /\ (is_switch e = true -> (m < n)%nat) /\ s_ready (astep e A) !! m = Some x).
Proof.
  intros He Hn Hx Hk.
  assert (Hsw : forall c l A1, is_core c -> s_dead A1 = s_dead A -> l !! n = Some x ->
    s_dead (s_switch c l A1) x = false /\
    ((exists c', is_core c' /\ s_run (s_switch c l A1) c' = x) \/
     exists m, (m <= n)%nat /\ (is_switch e = true -> (m < n)%nat) /\ s_ready (s_switch c l A1) !! m = Some x)).
  { intros c l A1 Hc Hd Hl. simpl. rewrite Hd. split; [done|].
    destruct (pick_position (s_dead A) l n x Hl Hx) as [E|(m & Hm & E)].
    - left. exists c. rewrite E, upd_eq. done.
    - right. exists m. split_and!; [lia|lia|done]. }
  assert (Happ : forall l', (s_ready A ++ l') !! n = Some x) by (intros l'; by apply lookup_app_l_Some).
  assert (Hstay : forall l', exists m, (m <= n)%nat /\ (false = true -> (m < n)%nat) /\ (s_ready A ++ l') !! m = Some x).
  { intros l'. exists n. split_and!; [lia|done|apply Happ]. }
  assert (Hstay0 : exists m, (m <= n)%nat /\ (false = true -> (m < n)%nat) /\ s_ready A !! m = Some x).
  { exists n. split_and!; [lia|done|done]. }
  destruct e; cbn [astep enabled SyncSpec.enabled] in *.
  - by apply Hsw; try apply He.
  - split; [done|]. right. apply Hstay.
  - apply Hsw; [apply He|done|]. by destruct (_ && _).
  - by apply Hsw; try apply He.
  - assert (x <> x0) by congruence. simpl. rewrite upd_ne by done. split; [done|]. right.
    destruct (filter_position (fun z => z <> x0) (s_ready A) n x) as (m & ? & ?); [done|done|].
    exists m. split_and!; [done|done|done].
  - destruct (0 <? s_count A i); [|by apply Hsw; try apply He]. split; [done|]. right. apply Hstay0.
  - destruct (s_waits A i); (split; [done|]); right; [apply Hstay0|apply Hstay].
  - destruct (ms =? 0); [|by apply Hsw; try apply He]. split; [done|]. right. apply Hstay0.
  - split; [done|]. right. apply Hstay.
Qed.

(** C27: Round robin is fair.  A live thread at position [n] of the ready queue gets a core
    after at most [n + 1] rescheduling calls ([Resume], [Exit], [Schedule]), whatever
    cores make them and whatever other calls come in between, unless it is killed. *)
Theorem scheduler_round_robin_fair pop es A y A' y' n x :
  sys_sim pop A y -> steps pop es A y A' y' ->
  s_ready A !! n = Some x -> IsDying (System.sched y) x = false -> System.EKill x ∉ es ->
  (n < count_events is_switch es)%nat ->
  exists es1 es2 A1 y1 c, es = es1 ++ es2 /\ steps pop es1 A y A1 y1 /\ is_core c /\
    m_ActiveThread (System.sched y1) c = x.
Proof.
  intros HS Hst Hn Hx Hk Hcnt. rewrite (ss_dead _ _ _ _ HS) in Hx.
  revert n HS Hn Hx Hk Hcnt; induction Hst as [|e es A y y1 A' y' He HE Hst IH];
    intros n HS Hn Hx Hk Hcnt; [unfold count_events in Hcnt; simpl in Hcnt; lia|].
  destruct (exec_refines stack_owner pop A y e HS He) as [(y2 & HE2 & HS2)|[_ [why HP]]]; [|congruence].
  rewrite HE in HE2. injection HE2 as <-.
  destruct (astep_position pop e A n x He Hn Hx) as [Hx' [(c & Hc & Hr)|(m & Hm & Hsw & Hn')]]; [set_solver| |].
  - exists [e], es, (astep e A), y1, c. split_and!; [done| |done|by rewrite (ss_run _ _ _ _ HS2)].
    econstructor; [done|done|constructor].
  - destruct (IH m HS2 Hn' Hx') as (es1 & es2 & A1 & y2 & c & -> & Hs1 & Hc & Hr); [set_solver| |].
    + unfold count_events in *. simpl in Hcnt. destruct (is_switch e); simpl in Hcnt; [|lia].
      specialize (Hsw eq_refl). lia.
    + exists (e :: es1), es2, A1, y2, c. split_and!; [done| |done|done]. by econstructor.
Qed.

(** ** Semaphores *)

Definition is_P (i : Z) e : bool := match e with System.EP _ j => j =? i | _ => false end.
Definition is_V (i : Z) e : bool := match e with System.EV _ j => j =? i | _ => false end.

Definition balance A i : Z := s_count A i - Z.of_nat (length (s_waits A i)).

Lemma astep_balance pop e A y i :
  sys_sim pop A y -> s_count A i + (if is_V i e then 1 else 0) < 2 ^ 32 ->
  balance (astep e A) i =
    balance A i + (if is_V i e then 1 else 0) - (if is_P i e then 1 else 0) /\
  s_count (astep e A) i <= s_count A i + (if is_V i e then 1 else 0).
Proof.
  intros HS. destruct (ss_inv _ _ _ _ HS) as (bl & HY & _).
  pose proof (proj1 (y_counter _ _ _ _ _ _ _ HY i)) as Hc. rewrite (ss_count _ _ _ _ HS) in Hc.
  unfold balance. destruct e as [c|c x|c|c|x|c j|c j|c b ms|c]; cbn [is_V is_P astep]; intros Hb.
  1-5,9: simpl; lia.
  - destruct (Z.ltb_spec 0 (s_count A j)); simpl; unfold upd; rewrite (Z.eqb_sym j i);
      (destruct (Z.eqb_spec i j) as [->|]; [|lia]); [lia|]. rewrite length_app. simpl. lia.
  - rewrite (Z.eqb_sym j i) in *. destruct (s_waits A j) as [|x l] eqn:Hw; simpl; unfold upd;
      (destruct (Z.eqb_spec i j) as [->|]; [|lia]); rewrite ?Hw; cbn [length] in *.
    + rewrite wrap_small by (unfold is_word; lia). lia.
    + lia.
  - destruct (ms =? 0); simpl; lia.
Qed.

(** A semaphore neither loses nor invents units.  Over any run in which its counter
    cannot overflow, counter minus number of waiters changes by the number of [V] minus
    the number of [P] calls, so every [V] lets exactly one [P] through; and nobody waits
    while the counter is positive. *)
Theorem semaphore_conserves_units pop es A y A' y' i :
  sys_sim pop A y -> steps pop es A y A' y' ->
  Semaphore.m_Counter (System.sems y i) + Z.of_nat (count_events (is_V i) es) < 2 ^ 32 ->
  Semaphore.m_Counter (System.sems y' i) - Z.of_nat (length (s_waits A' i)) =
    Semaphore.m_Counter (System.sems y i) - Z.of_nat (length (s_waits A i)) +
    Z.of_nat (count_events (is_V i) es) - Z.of_nat (count_events (is_P i) es) /\
  (0 < Semaphore.m_Counter (System.sems y' i) -> s_waits A' i = []).
Proof.
  intros HS Hst Hb. pose proof (steps_sim stack_owner _ _ _ _ _ _ HS Hst) as HS'.
  rewrite (ss_count _ _ _ _ HS), (ss_count _ _ _ _ HS') in *. split.
  - fold (balance A' i). fold (balance A i). clear HS'. unfold count_events in *.
    induction Hst as [A y|e es A y y1 A' y' He HE Hst IH]; [simpl; lia|].
    destruct (exec_refines stack_owner pop A y e HS He) as [(y2 & HE2 & HS2)|[_ [why HP]]]; [|congruence].
    rewrite HE in HE2. injection HE2 as <-. cbn [List.filter] in *.
    destruct (astep_balance pop e A y i HS) as [Hba Hco].
    { destruct (is_V i e); cbn [length] in Hb; lia. }
    rewrite IH; [|done|destruct (is_V i e); cbn [length] in Hb; lia]. rewrite Hba.
    destruct (is_V i e), (is_P i e); cbn [length]; lia.
  - intros Hpos. destruct (ss_inv _ _ _ _ HS') as (bl & HY & _).
    pose proof (proj2 (y_counter _ _ _ _ _ _ _ HY i)) as Hz. rewrite (ss_count _ _ _ _ HS') in Hz.
    destruct (s_waits A' i); [done|]. specialize (Hz ltac:(done)). lia.
Qed.

(** A killed thread that waits on a semaphore still takes the next [V] with it: the
    call answers, the counter stays at zero and the threads behind it keep waiting,
    although the woken thread is dying and will never be dispatched. *)
Theorem killed_waiter_consumes_wakeup pop A y c i x l :
  sys_sim pop A y -> s_waits A i = x :: l ->
  exists y1 y2, System.exec (System.EKill x) y = Ok y1 /\ System.exec (System.EV c i) y1 = Ok y2 /\
    sys_sim pop (astep (System.EV c i) (astep (System.EKill x) A)) y2 /\
    s_waits (astep (System.EV c i) (astep (System.EKill x) A)) i = l /\
    Semaphore.m_Counter (System.sems y2 i) = 0 /\ IsDying (System.sched y2) x = true /\
    (forall l', (pick (IsDying (System.sched y2)) l').1 <> Some x).
Proof.
  intros HS Hw. destruct (ss_inv _ _ _ _ HS) as (bl & HY & _).
  assert (Hx : x ∈ pop).
  { apply (i_parked _ _ _ _ (y_inv _ _ _ _ _ _ _ HY)). left. exists i. rewrite Hw. set_solver. }
  destruct (sim_Kill stack_owner pop A y x HS Hx) as (y1 & H1 & HS1).
  destruct (sim_V stack_owner pop _ y1 c i HS1) as (y2 & H2 & HS2).
  assert (Hdead : IsDying (System.sched y2) x = true).
  { rewrite (ss_dead _ _ _ _ HS2). cbn [astep s_waits]. rewrite Hw. simpl. apply upd_eq. }
  exists y1, y2. split_and!; try done.
  - cbn [astep s_waits]. rewrite Hw. simpl. apply upd_eq.
  - rewrite (ss_count _ _ _ _ HS2). cbn [astep s_waits]. rewrite Hw. simpl.
    rewrite <- (ss_count _ _ _ _ HS). apply (y_counter _ _ _ _ _ _ _ HY i). by rewrite Hw.
  - intros l' E. pose proof (pick_spec (IsDying (System.sched y2)) l') as Hp.
    destruct (pick _ l') as [o rest]. simpl in E. subst o. destruct Hp as (_ & _ & _ & Hp). congruence.
Qed.

(** ** Sleeping *)

Definition is_tick e : bool := match e with System.ECheck _ => true | _ => false end.

Lemma astep_due e A x d :
  (x, d) ∈ s_due A -> 1 <= d ->
  (is_tick e = false -> (x, d) ∈ s_due (astep e A)) /\
  (is_tick e = true -> if d =? 1 then x ∈ s_ready (astep e A) else (x, d - 1) ∈ s_due (astep e A)).
Proof.
  intros Hd H1. split.
  - destruct e; cbn [is_tick astep]; try done; intros _.
    + by destruct (0 <? s_count A i).
    + by destruct (s_waits A i).
    + destruct (ms =? 0); [done|]. simpl. apply elem_of_insert_due. by right.
  - destruct e; cbn [is_tick astep]; try done. intros _. simpl. destruct (Z.eqb_spec d 1) as [->|Hd1].
    + apply elem_of_app. right. unfold rung. apply list_elem_of_fmap. exists (x, 1). split; [done|].
      by apply list_elem_of_filter.
    + unfold elapsed. apply list_elem_of_fmap. exists (x, d). split; [done|].
      by apply list_elem_of_filter.
Qed.

(** C28: A sleep ends exactly on time.  The thread that called [Sleep] for [ms]
    milliseconds stays asleep, with the remaining ticks counted exactly, until the
    [ticks_for ms]-th [Check], which puts it into the ready queue, no matter which other
    threads go to sleep, wake up or switch in between. *)
Theorem sleep_ends_on_time pop c bell ms es c' A y A' y' x :
  sys_sim pop A y -> 1 <= ms -> m_ActiveThread (System.sched y) c = x ->
  steps pop (System.ESleep c bell ms :: es) A y A' y' ->
  (Z.of_nat (count_events is_tick es) < ticks_for ms ->
     (x, ticks_for ms - Z.of_nat (count_events is_tick es)) ∈ s_due A') /\
  (Z.of_nat (count_events is_tick es) + 1 = ticks_for ms ->
     enabled pop (System.ECheck c') A' /\ exists y2, System.exec (System.ECheck c') y' = Ok y2 /\
       sys_sim pop (astep (System.ECheck c') A') y2 /\ x ∈ s_ready (astep (System.ECheck c') A')).
Proof.
  intros HS Hms Hx Hst. inversion Hst as [|e0 es0 A0 y0 y1 A1 y1' He HE Hst1]; subst.
  pose proof He as (Hc & _ & _ & Hms2 & _).
  rewrite (ss_run _ _ _ _ HS) by done. set (x := s_run A c).
  destruct (exec_refines stack_owner pop A y _ HS He) as [(y2 & HE2 & HS1)|[_ [why HP]]]; [|congruence].
  rewrite HE in HE2. injection HE2 as <-.
  assert (Hin : (x, ticks_for ms) ∈ s_due (astep (System.ESleep c bell ms) A)).
  { cbn [astep]. destruct (Z.eqb_spec ms 0); [lia|]. simpl. apply elem_of_insert_due. by left. }
  assert (Hrun : forall es B z B' z' d, steps pop es B z B' z' -> (x, d) ∈ s_due B ->
    Z.of_nat (count_events is_tick es) < d -> (x, d - Z.of_nat (count_events is_tick es)) ∈ s_due B').
  { clear. intros es B z B' z' d Hst. revert d. unfold count_events.
    induction Hst as [B z|e es B z z1 B' z' He HE Hst IH]; intros d Hd Hlt.
    - simpl. by rewrite Z.sub_0_r.
    - cbn [List.filter] in *. destruct (astep_due e B x d Hd ltac:(lia)) as [H0 H1].
      destruct (is_tick e); cbn [length] in *; [|by apply IH; [apply H0|]].
      specialize (H1 eq_refl). destruct (Z.eqb_spec d 1); [lia|].
      replace (d - Z.of_nat (S (length (List.filter is_tick es))))
        with (d - 1 - Z.of_nat (length (List.filter is_tick es))) by lia.
      apply IH; [done|lia]. }
  split; [by apply (Hrun es _ _ _ _ _ Hst1)|]. intros Hlast. split; [done|].
  destruct (sim_Check stack_owner pop A' y' c' (steps_sim stack_owner _ _ _ _ _ _ HS1 Hst1)) as (y2 & H2 & HS2).
  exists y2. split_and!; [done|done|]. pose proof (Hrun es _ _ _ _ _ Hst1 Hin ltac:(lia)) as Hd.
  replace (ticks_for ms - Z.of_nat (count_events is_tick es)) with 1 in Hd by lia.
  by apply (astep_due (System.ECheck c') A' x 1).
Qed.
End Properties.

(** ** Witnesses: two cores and two threads, from boot on *)

#[local] Existing Instances demo_machine demo_code checked_build.

Definition demo_owner (b : Z) : Z := if b =? 0x9000 then 0x100 else 0x200.

Definition demo_sys : System.t Z :=
  {| System.sched := demo_boot; System.sems := fun _ => Semaphore.Create 0;
     System.bellringer := {| Bellringer.bells := fun _ => {| Bellringer.Owner := 0; Bellringer.Ticks := 0 |};
                             Bellringer.bell_links := fun _ => 0; Bellringer.m_Bells := Queue.Empty |} |}.

Definition demo_abs : asys :=
  {| s_ready := []; s_waits := fun _ => []; s_count := fun _ => 0; s_due := [];
     s_run := fun _ => 0; s_dead := fun _ => false |}.

Lemma demo_sim : sys_sim demo_owner demo_pop demo_abs demo_sys.
Proof.
  split; try done. exists []. split; [|done]. split; try done; simpl; try set_solver; try (intros; apply Queue.rep_Empty).
  apply (inv_parked_iff _ _ (fun _ => False)); [|exact demo_boot_inv].
  intros x. split; [|done]. intros [[i Hi]|(b & Hb & _)]; set_solver.
Qed.

(** The state after a call that returns. *)
Definition after (e : System.event) (y : System.t Z) : System.t Z :=
  match System.exec e y with Ok y' => y' | _ => y end.
Definition returns (e : System.event) (y : System.t Z) : bool :=
  match System.exec e y with Ok _ => true | _ => false end.

Lemma after_ok e y : returns e y = true -> System.exec e y = Ok (after e y).
Proof. unfold returns, after. by destruct (System.exec e y). Qed.

Definition demo_ready : list System.event := [System.EReady 0 0x100; System.EReady 0 0x200].
Definition demo_y1 : System.t Z := after (System.EReady 0 0x100) demo_sys.
Definition demo_y2 : System.t Z := after (System.EReady 0 0x200) demo_y1.
Definition demo_y3 : System.t Z := after (System.ESchedule 0) demo_y2.
Definition demo_y4 : System.t Z := after (System.ESchedule 1) demo_y3.
Definition demo_A2 : asys := astep (System.EReady 0 0x200) (astep (System.EReady 0 0x100) demo_abs).

Lemma demo_started : steps demo_owner demo_pop demo_ready demo_abs demo_sys demo_A2 demo_y2.
Proof.
  eapply (steps_cons _ _ _ _ _ _ demo_y1).
  - cbn. split_and!; [set_solver|apply demo_not_idle|]. split_and!; [set_solver|set_solver|set_solver|].
    intros c _. simpl. lia.
  - apply after_ok. vm_compute. reflexivity.
  - eapply (steps_cons _ _ _ _ _ _ demo_y2).
    + cbn. split_and!; [set_solver|apply demo_not_idle|]. split_and!; [set_solver|set_solver|set_solver|].
      intros c _. simpl. lia.
    + apply after_ok. vm_compute. reflexivity.
    + constructor.
Qed.

Lemma demo_core c : 0 <= c < 2 -> is_core c.
Proof. done. Qed.

Lemma demo_scheduled :
  steps demo_owner demo_pop [System.ESchedule 0; System.ESchedule 1] demo_A2 demo_y2
    (astep (System.ESchedule 1) (astep (System.ESchedule 0) demo_A2)) demo_y4.
Proof.
  eapply (steps_cons _ _ _ _ _ _ demo_y3).
  - cbn. split; [apply demo_core; lia|done].
  - apply after_ok. vm_compute. reflexivity.
  - eapply (steps_cons _ _ _ _ _ _ demo_y4); [|apply after_ok; vm_compute; reflexivity|constructor].
    cbn. split; [apply demo_core; lia|done].
Qed.

Lemma demo_sim2 : sys_sim demo_owner demo_pop demo_A2 demo_y2.
Proof. exact (steps_sim _ _ _ _ _ _ _ demo_sim demo_started). Qed.

Definition demo_A4 : asys := astep (System.ESchedule 1) (astep (System.ESchedule 0) demo_A2).

Lemma demo_sim4 : sys_sim demo_owner demo_pop demo_A4 demo_y4.
Proof. exact (steps_sim _ _ _ _ _ _ _ demo_sim2 demo_scheduled). Qed.

Lemma system_refines_spec_witness :
  exists y', System.exec (System.EResume 0) demo_y4 = Ok y' /\
    sys_sim demo_owner demo_pop (astep (System.EResume 0) demo_A4) y'.
Proof.
  destruct (system_refines_spec demo_owner demo_pop demo_A4 demo_y4 (System.EResume 0) demo_sim4) as [H|[H _]].
  - cbn. split; [apply demo_core; lia|done].
  - exact H.
  - discriminate H.
Defined.

Lemma system_thread_in_one_place_witness :
  s_ready demo_A2 = [0x100; 0x200] /\
  (forall c, is_core c -> m_ActiveThread (System.sched demo_y2) c <> 0x100).
Proof.
  split; [reflexivity|].
  destruct (system_thread_in_one_place demo_owner demo_pop demo_ready demo_abs demo_sys demo_A2 demo_y2 0x100
              demo_sim demo_started) as (_ & H & _).
  apply H. vm_compute. left.
Defined.

Lemma dying_thread_never_dispatched_witness :
  m_ActiveThread (System.sched demo_y3) 0 = s_IdleThread 0 \/
  IsDying (System.sched demo_y2) (m_ActiveThread (System.sched demo_y3) 0) = false.
Proof.
  apply (dying_thread_never_dispatched demo_owner demo_pop demo_A2 demo_y2 (System.ESchedule 0) demo_y3 0 demo_sim2).
  - cbn. split; [apply demo_core; lia|done].
  - apply after_ok. vm_compute. reflexivity.
  - apply demo_core. lia.
  - vm_compute. discriminate.
Defined.

Lemma scheduler_round_robin_fair_witness :
  exists es1 es2 A1 y1 c, [System.ESchedule 0; System.ESchedule 1] = es1 ++ es2 /\
    steps demo_owner demo_pop es1 demo_A2 demo_y2 A1 y1 /\ is_core c /\
    m_ActiveThread (System.sched y1) c = 0x200.
Proof.
  apply (scheduler_round_robin_fair demo_owner demo_pop _ demo_A2 demo_y2 _ demo_y4 1 0x200
           demo_sim2 demo_scheduled).
  - reflexivity.
  - vm_compute. reflexivity.
  - intros H. repeat (apply elem_of_cons in H as [H|H]; [discriminate|]). by apply elem_of_nil in H.
  - vm_compute. lia.
Defined.

Definition demo_y5 : System.t Z := after (System.EP 0 7) demo_y4.
Definition demo_A5 : asys := astep (System.EP 0 7) demo_A4.

Lemma demo_blocked : steps demo_owner demo_pop [System.EP 0 7] demo_A4 demo_y4 demo_A5 demo_y5.
Proof.
  eapply (steps_cons _ _ _ _ _ _ demo_y5); [|apply after_ok; vm_compute; reflexivity|constructor].
  cbn. split_and!; [apply demo_core; lia|done|apply demo_not_idle].
Qed.

Lemma semaphore_conserves_units_witness :
  Semaphore.m_Counter (System.sems demo_y5 7) - Z.of_nat (length (s_waits demo_A5 7)) = -1.
Proof.
  destruct (semaphore_conserves_units demo_owner demo_pop _ demo_A4 demo_y4 demo_A5 demo_y5 7
              demo_sim4 demo_blocked) as [H _].
  - vm_compute. reflexivity.
  - rewrite H. vm_compute. reflexivity.
Defined.

Lemma killed_waiter_consumes_wakeup_witness :
  exists y1 y2, System.exec (System.EKill 0x100) demo_y5 = Ok y1 /\
    System.exec (System.EV 1 7) y1 = Ok y2 /\ Semaphore.m_Counter (System.sems y2 7) = 0 /\
    IsDying (System.sched y2) 0x100 = true.
Proof.
  destruct (killed_waiter_consumes_wakeup demo_owner demo_pop demo_A5 demo_y5 1 7 0x100 []
    (steps_sim _ _ _ _ _ _ _ demo_sim4 demo_blocked)) as (y1 & y2 & H1 & H2 & _ & _ & H3 & H4 & _).
  - vm_compute. reflexivity.
  - exists y1, y2. exact (conj H1 (conj H2 (conj H3 H4))).
Defined.

Definition demo_y6 : System.t Z := after (System.ESleep 0 0x9000 25) demo_y4.
Definition demo_A6 : asys := astep (System.ESleep 0 0x9000 25) demo_A4.

Lemma sleep_ends_on_time_witness : (0x100, 2) ∈ s_due demo_A6.
Proof.
  destruct (sleep_ends_on_time demo_owner demo_pop 0 0x9000 25 [] 0 demo_A4 demo_y4 demo_A6 demo_y6 0x100
              demo_sim4) as [H _].
  - lia.
  - vm_compute. reflexivity.
  - eapply (steps_cons _ _ _ _ _ _ demo_y6); [|apply after_ok; vm_compute; reflexivity|constructor].
    cbn. split_and!; try done. apply demo_not_idle.
  - apply H. vm_compute. reflexivity.
Defined.
