(* ===== verification/Locks.v ===== *)
(** * Sync/TicketLock.h and Sync/SpinLock.h

    The atomic operations of the two locks and, for each, the cores that contend for it
    as a step relation: every atomic access is one step, so all interleavings are
    covered.  The ticket counters are 32 bits wide and wrap around. *)

From S2P Require Import Prelude.

(** ** TicketLock *)

Module TicketLock.

Record t := { m_NowServing : Z; m_NextTicket : Z }.
Definition Create : t := {| m_NowServing := 0; m_NextTicket := 0 |}.

(** [Lock]: the [fetch_add] that draws a ticket, and the test of the waiting loop. *)
Definition Draw (l : t) : Z * t :=
  (m_NextTicket l, {| m_NowServing := m_NowServing l; m_NextTicket := u32 (m_NextTicket l + 1) |}).
Definition Served (l : t) (ticket : Z) : bool := m_NowServing l =? ticket.

Definition Unlock (l : t) : t :=
  {| m_NowServing := u32 (m_NowServing l + 1); m_NextTicket := m_NextTicket l |}.

Definition IsLocked (l : t) : bool := negb (m_NowServing l =? m_NextTicket l).

(** Where a core is with respect to the lock. *)
Inductive stage := Out | Waiting (ticket : Z) | Holding.

Record contention := {
  lock : t;
  stages : Z -> stage;
  drawn : list Z;       (* cores in the order they drew a ticket *)
  acquired : list Z }.  (* cores in the order they got the lock *)

Definition start : contention :=
  {| lock := Create; stages := fun _ => Out; drawn := []; acquired := [] |}.

(** One atomic access by core [c]; a failed test of the loop changes nothing. *)
Inductive step (cores : Z) : Z -> contention -> contention -> Prop :=
| step_draw c s : 0 <= c < cores -> stages s c = Out ->
    step cores c s {| lock := (Draw (lock s)).2; stages := upd (stages s) c (Waiting (Draw (lock s)).1);
                      drawn := drawn s ++ [c]; acquired := acquired s |}
| step_acquire c s ticket : stages s c = Waiting ticket -> Served (lock s) ticket = true ->
    step cores c s {| lock := lock s; stages := upd (stages s) c Holding;
                      drawn := drawn s; acquired := acquired s ++ [c] |}
| step_release c s : stages s c = Holding ->
    step cores c s {| lock := Unlock (lock s); stages := upd (stages s) c Out;
                      drawn := drawn s; acquired := acquired s |}.

(** The queue [q] behind the counters: the core at position [k] has the ticket that is
    [k] behind the one being served. *)
Record inv (cores : Z) (q : list Z) (s : contention) : Prop := {
  inv_serving : is_word 32 (m_NowServing (lock s));
  inv_next : m_NextTicket (lock s) = u32 (m_NowServing (lock s) + Z.of_nat (length q));
  inv_queue k c : q !! k = Some c ->
    0 <= c < cores /\
    (stages s c = Waiting (u32 (m_NowServing (lock s) + Z.of_nat k)) \/ (k = 0%nat /\ stages s c = Holding));
  inv_out c : c ∉ q -> stages s c = Out;
  inv_nodup : NoDup q;
  inv_order : drawn s = acquired s ++ (match q with
    | c :: q' => match stages s c with Holding => q' | _ => c :: q' end | [] => [] end) }.

Lemma queue_short cores q s : 0 <= cores -> inv cores q s -> Z.of_nat (length q) <= cores.
Proof.
  intros Hc HI. assert (length q <= length (seqZ 0 cores))%nat as Hl; [|rewrite length_seqZ in Hl; lia].
  apply submseteq_length, NoDup_submseteq; [apply HI|]. intros c Hq.
  apply list_elem_of_lookup in Hq as [k Hk]. apply elem_of_seqZ.
  destruct (inv_queue _ _ _ HI k c Hk) as [? _]. lia.
Qed.

Lemma ticket_distinct n i j :
  0 <= i < 2 ^ 32 -> 0 <= j < 2 ^ 32 -> u32 (n + i) = u32 (n + j) -> i = j.
Proof.
  intros Hi Hj E. unfold wrap in E. 
  assert ((n + i - (n + j)) mod 2 ^ 32 = 0) as H0 by (rewrite Zminus_mod, E, Z.sub_diag; done).
  replace (n + i - (n + j)) with (i - j) in H0 by lia.
  apply Z.mod_divide in H0 as [k Hk]; [|lia]. nia.
Qed.

Lemma inv_start cores : inv cores [] start.
Proof. split; simpl; try done. constructor. Qed.

Lemma inv_draw cores q s c :
  0 <= cores < 2 ^ 32 -> 0 <= c < cores -> inv cores q s -> stages s c = Out ->
  inv cores (q ++ [c]) {| lock := (Draw (lock s)).2; stages := upd (stages s) c (Waiting (Draw (lock s)).1);
                          drawn := drawn s ++ [c]; acquired := acquired s |}.
Proof.
  intros Hcs Hc HI Hout. assert (Hq : c ∉ q).
  { intros [k Hk]%list_elem_of_lookup. destruct (inv_queue _ _ _ HI k c Hk) as [_ [E|[_ E]]]; congruence. }
  destruct HI as [H1 H2 H3 H4 H5 H6]. split; simpl.
  - done.
  - rewrite H2, length_app. simpl. rewrite wrap_add_l by lia. f_equal. lia.
  - intros k c'. rewrite lookup_app_Some, list_lookup_singleton_Some.
    intros [Hk|(Hle & Hk & <-)].
    + rewrite upd_ne by (intros ->; apply Hq; by apply list_elem_of_lookup_2 in Hk). by apply H3.
    + split; [done|]. left. rewrite upd_eq, H2. f_equal. f_equal. f_equal. lia.
  - intros c' Hc'. rewrite upd_ne by set_solver. apply H4. set_solver.
  - apply NoDup_app. split_and!; [done|set_solver|apply NoDup_singleton].
  - rewrite H6, <- app_assoc. f_equal. destruct q as [|d q]; simpl.
    + by rewrite upd_eq.
    + rewrite upd_ne by set_solver. by destruct (stages s d).
Qed.

Lemma inv_acquire cores q s c ticket :
  0 <= cores < 2 ^ 32 -> inv cores q s -> stages s c = Waiting ticket -> Served (lock s) ticket = true ->
  inv cores q {| lock := lock s; stages := upd (stages s) c Holding;
                 drawn := drawn s; acquired := acquired s ++ [c] |} /\ exists q', q = c :: q'.
Proof.
  intros Hcs HI Hw Hs. unfold Served in Hs. apply Z.eqb_eq in Hs. pose proof (queue_short _ _ _ (proj1 Hcs) HI) as Hlen.
  destruct (decide (c ∈ q)) as [Hq|Hq]; [|rewrite (inv_out _ _ _ HI) in Hw by done; done].
  apply list_elem_of_lookup in Hq as [k Hk]. pose proof (lookup_lt_Some _ _ _ Hk).
  pose proof HI as [H1 H2 H3 H4 H5 H6].
  assert (k = 0)%nat as ->.
  { destruct (H3 k c Hk) as [_ [E|[? E]]]; [|done]. rewrite Hw in E. injection E as E.
    assert (Z.of_nat k = 0); [|lia]. apply (ticket_distinct (m_NowServing (lock s))); [lia|lia|].
    rewrite <- E, Z.add_0_r, wrap_small by done. done. }
  destruct q as [|d q]; [done|]. simpl in Hk. injection Hk as ->. split; [|by exists q].
  split; simpl; try done.
  - intros [|k] c' Hk; simpl in Hk.
    + injection Hk as <-. rewrite upd_eq. split; [by apply (H3 0%nat)|by right].
    + rewrite upd_ne; [by apply (H3 (S k))|]. intros ->.
      apply NoDup_cons in H5 as [H5 _]. apply H5. by apply list_elem_of_lookup_2 in Hk.
  - intros c' Hc'. rewrite upd_ne by set_solver. by apply H4.
  - rewrite upd_eq, H6. rewrite Hw. by rewrite <- app_assoc.
Qed.

Lemma inv_holder cores q s c : inv cores q s -> stages s c = Holding -> exists q', q = c :: q'.
Proof.
  intros HI Hh. destruct (decide (c ∈ q)) as [Hq|Hq]; [|rewrite (inv_out _ _ _ HI) in Hh by done; done].
  apply list_elem_of_lookup in Hq as [k Hk]. destruct (inv_queue _ _ _ HI k c Hk) as [_ [E|[-> _]]]; [congruence|].
  destruct q as [|d q]; [done|]. simpl in Hk. injection Hk as ->. by exists q.
Qed.

Lemma inv_release cores q s c :
  inv cores (c :: q) s -> stages s c = Holding ->
  inv cores q {| lock := Unlock (lock s); stages := upd (stages s) c Out;
                 drawn := drawn s; acquired := acquired s |}.
Proof.
  intros [H1 H2 H3 H4 H5 H6] Hh. apply NoDup_cons in H5 as [H5 Hn]. rewrite Hh in H6. split; simpl.
  - apply (wrap_range 32). lia.
  - rewrite H2. simpl. rewrite wrap_add_l by lia. f_equal. lia.
  - intros k c' Hk. assert (c' <> c) by (intros ->; apply H5; by apply list_elem_of_lookup_2 in Hk).
    rewrite upd_ne by done. destruct (H3 (S k) c' Hk) as [Hr [E|[? _]]]; [|done]. split; [done|]. left.
    rewrite E, wrap_add_l by lia. f_equal. f_equal. lia.
  - intros c' Hc'. unfold upd. destruct (Z.eqb_spec c' c); [done|]. apply H4. set_solver.
  - done.
  - rewrite H6. f_equal. destruct q as [|d q]; [done|].
    destruct (H3 1%nat d eq_refl) as [_ [E|[? _]]]; [|done].
    rewrite upd_ne by (intros ->; apply H5; left). by rewrite E.
Qed.

Lemma inv_step cores c q s s' :
  0 <= cores < 2 ^ 32 -> inv cores q s -> step cores c s s' -> exists q', inv cores q' s'.
Proof.
  intros Hcs HI Hst. destruct Hst as [c s Hc Ho|c s ticket Hw Hs|c s Hh].
  - eexists. by apply inv_draw.
  - exists q. by eapply inv_acquire.
  - destruct (inv_holder _ _ _ _ HI Hh) as [q' ->]. exists q'. by apply inv_release.
Qed.

(** Any number of steps of any cores. *)
Definition any_step (cores : Z) (s s' : contention) : Prop := exists c, step cores c s s'.

Lemma inv_reachable cores s :
  0 <= cores < 2 ^ 32 -> rtc (any_step cores) start s -> exists q, inv cores q s.
Proof.
  intros Hcs Hr. apply (rtc_ind_r (R := any_step cores) (fun s => exists q, inv cores q s) start);
    [exists []; apply inv_start| |done].
  intros s1 s2 _ [c Hst] [q HI]. by eapply inv_step.
Qed.

Lemma holders_unique cores q s c c' :
  inv cores q s -> stages s c = Holding -> stages s c' = Holding -> c = c'.
Proof.
  intros HI H1 H2. destruct (inv_holder _ _ _ _ HI H1) as [q1 ->].
  destruct (inv_holder _ _ _ _ HI H2) as [q2 E]. by injection E.
Qed.

(** C26: The ticket lock is a fair lock for any number of cores below 2^32 although its
    counters wrap: at most one core holds it, cores get it in exactly the order in which
    they drew their tickets, [IsLocked] tells whether anyone holds or waits for it, and
    while someone waits and nobody holds it some waiter's test succeeds. *)
Theorem ticket_lock_mutual_exclusion_fifo cores s :
  0 <= cores < 2 ^ 32 -> rtc (any_step cores) start s ->
  (forall c c', stages s c = Holding -> stages s c' = Holding -> c = c') /\
  acquired s `prefix_of` drawn s /\
  (IsLocked (lock s) = false <-> forall c, stages s c = Out) /\
  ((forall c, stages s c <> Holding) -> forall c ticket, stages s c = Waiting ticket ->
     exists c' ticket', stages s c' = Waiting ticket' /\ Served (lock s) ticket' = true).
Proof.
  intros Hcs Hr. destruct (inv_reachable cores s Hcs Hr) as [q HI]. pose proof (queue_short _ _ _ (proj1 Hcs) HI) as Hlen.
  pose proof HI as [H1 H2 H3 H4 H5 H6]. split_and!.
  - intros c c'. by apply (holders_unique cores q).
  - rewrite H6. by eexists.
  - unfold IsLocked. rewrite negb_false_iff, Z.eqb_eq, H2.
    rewrite <- (wrap_small 32 (m_NowServing (lock s))) at 1 by done.
    rewrite <- (Z.add_0_r (m_NowServing (lock s))) at 1. split.
    + intros E c. apply ticket_distinct in E; [|lia|lia]. apply H4.
      destruct q; [set_solver|simpl in E; lia].
    + intros Hall. destruct q as [|c q]; [done|]. exfalso.
      destruct (H3 0%nat c eq_refl) as [_ [E|[_ E]]]; rewrite Hall in E; done.
  - intros Hno c ticket Hw. destruct q as [|d q]; [rewrite H4 in Hw by set_solver; done|].
    destruct (H3 0%nat d eq_refl) as [_ [E|[_ E]]]; [|by destruct (Hno d)].
    rewrite Z.add_0_r, wrap_small in E by done. exists d, (m_NowServing (lock s)). split; [done|].
    unfold Served. by rewrite Z.eqb_refl.
Qed.
End TicketLock.

Lemma ticket_lock_mutual_exclusion_fifo_witness :
  exists s, rtc (TicketLock.any_step 2) TicketLock.start s /\ TicketLock.stages s 1 = TicketLock.Holding /\
    TicketLock.stages s 0 = TicketLock.Waiting 1 /\ TicketLock.acquired s `prefix_of` TicketLock.drawn s.
Proof.
  assert (H : exists s, rtc (TicketLock.any_step 2) TicketLock.start s /\
    TicketLock.stages s 1 = TicketLock.Holding /\ TicketLock.stages s 0 = TicketLock.Waiting 1).
  { eexists. split.
    - eapply rtc_l; [exists 1; by apply (TicketLock.step_draw 2 1)|].
      eapply rtc_l; [exists 0; by apply (TicketLock.step_draw 2 0)|].
      eapply rtc_l; [exists 1; by apply (TicketLock.step_acquire 2 1 _ 0)|]. apply rtc_refl.
    - by vm_compute. }
  destruct H as (s & Hr & H1 & H0). exists s.
  destruct (TicketLock.ticket_lock_mutual_exclusion_fifo 2 s ltac:(lia) Hr) as (_ & Hp & _).
  by split_and!.
Defined.

(** ** SpinLock *)

Module SpinLock.

Record t := { m_Locked : Z }.
Definition Create : t := {| m_Locked := 0 |}.

(** [__atomic_test_and_set]: answers the old value and sets the byte. *)
Definition TestAndSet (l : t) : bool * t := (negb (m_Locked l =? 0), {| m_Locked := 1 |}).

(** One round of the loop of [Lock], and [TryLock]: true when the lock was taken. *)
Definition TryLock (l : t) : bool * t := (negb (TestAndSet l).1, (TestAndSet l).2).
Definition Unlock (l : t) : t := {| m_Locked := 0 |}.

Record contention := { lock : t; holders : list Z }.

Inductive step : contention -> contention -> Prop :=
| step_taken c s : (TryLock (lock s)).1 = true ->
    step s {| lock := (TryLock (lock s)).2; holders := c :: holders s |}
| step_busy s : (TryLock (lock s)).1 = false ->
    step s {| lock := (TryLock (lock s)).2; holders := holders s |}
| step_unlock c s : c ∈ holders s ->
    step s {| lock := Unlock (lock s); holders := filter (fun d => d <> c) (holders s) |}.

(** At most one core holds the lock, and the byte is set exactly then. *)
Definition inv (s : contention) : Prop :=
  if m_Locked (lock s) =? 0 then holders s = [] else exists c, holders s = [c].

Lemma spin_inv_step s s' : inv s -> step s s' -> inv s'.
Proof.
  unfold inv. intros HI Hst. destruct Hst as [c s H|s H|c s H]; simpl in *.
  - destruct (Z.eqb_spec (m_Locked (lock s)) 0); [|done]. rewrite HI. by exists c.
  - by destruct (Z.eqb_spec (m_Locked (lock s)) 0).
  - destruct (Z.eqb_spec (m_Locked (lock s)) 0) as [E|E].
    + rewrite HI in H. set_solver.
    + destruct HI as [d Ed]. rewrite Ed in *. apply list_elem_of_singleton in H as ->.
      rewrite filter_cons_False by auto. done.
Qed.

Lemma spin_reachable s :
  rtc step {| lock := Create; holders := [] |} s -> inv s.
Proof.
  intros Hr. apply (rtc_ind_r (R := step) inv {| lock := Create; holders := [] |}); [done| |done].
  intros s1 s2 _ Hst HI. by apply (spin_inv_step s1).
Qed.
End SpinLock.
