(* ===== verification/Guard.v ===== *)
(** * Interrupt/Guard.cpp: prologues, epilogues and the critical section

    Each core has a flag (somebody on this core is at epilogue level) and a queue of
    epilogues; one ticket lock covers the whole system.  The code that runs with
    interrupts off is atomic for its core and becomes one step; between steps any core
    may run and an interrupt may arrive wherever interrupts are enabled.  Interrupts are
    also admitted at the points where a prologue keeps them off, which only adds
    behaviours. *)

From S2P Require Import Prelude Config RingBuffer Locks.

(** Interrupt/Epilogue.h: the epilogues the handlers relay. *)
Inductive Epilogue := Keyboard | Timer | Assassin | Wakeup.
#[export] Instance epilogue_inhabited : Inhabited Epilogue := populate Timer.
#[export] Instance epilogue_eq_dec : EqDecision Epilogue.
Proof. solve_decision. Defined.

Module Guard.

Abbreviation QSIZE := Config.EPILOGUE_QUEUE_SIZE.

(** The per-core statics. *)
Record core := { s_InEpilogue : bool; s_EpilogueQueue : RingBuffer.t Epilogue }.

Definition Create : core := {| s_InEpilogue := false; s_EpilogueQueue := RingBuffer.Empty QSIZE |}.

(** [Enter], up to the lock. *)
Definition Enter (k : core) : core := {| s_InEpilogue := true; s_EpilogueQueue := s_EpilogueQueue k |}.

(** One round of the loop of [Leave], with interrupts off: the next epilogue, or the end
    of the epilogue level. *)
Definition Drain (k : core) : option Epilogue * core :=
  match RingBuffer.Consume QSIZE (s_EpilogueQueue k) with
  | (Some next, q) => (Some next, {| s_InEpilogue := s_InEpilogue k; s_EpilogueQueue := q |})
  | (None, q) => (None, {| s_InEpilogue := false; s_EpilogueQueue := q |})
  end.

(** [Relay], up to the lock: answers whether this prologue has to run the queue itself. *)
Definition Relay `{Build} (k : core) (InEpilogue : Epilogue) : outcome (bool * core) :=
  let levelBusy := s_InEpilogue k in
  let '(queued, q) := RingBuffer.Produce QSIZE (s_EpilogueQueue k) InEpilogue in
  let* _ := ASSERT queued "queued" in
  if levelBusy then Ok (false, {| s_InEpilogue := levelBusy; s_EpilogueQueue := q |})
  else Ok (true, {| s_InEpilogue := true; s_EpilogueQueue := q |}).

(** Where the code of a core is. *)
Inductive point :=
| Free                       (* at thread level *)
| Wants                      (* flag set, about to take the lock *)
| Inside                     (* in the critical section: a thread, or Relay before Leave *)
| LoopTop                    (* in the loop of Leave, the lock released *)
| Popped (e : Epilogue)      (* took an epilogue off the queue, about to take the lock *)
| Running (e : Epilogue).    (* runs it *)

Record sys := {
  cores : Z -> core;
  points : Z -> point;
  lock : TicketLock.contention;
  relayed : Z -> list (Epilogue * nat); (* every call of Relay on this core, in order, with
                                           the number of epilogues that were waiting *)
  executed : Z -> list Epilogue }.   (* run by this core, in order *)

Definition boot : sys :=
  {| cores := fun _ => Create; points := fun _ => Free; lock := TicketLock.start;
     relayed := fun _ => []; executed := fun _ => [] |}.

(** The calls of [Relay] that found room: a queue of 64 slots takes 63 epilogues. *)
Definition ROOM : nat := Z.to_nat (QSIZE - 1).
Definition accepted (l : list (Epilogue * nat)) : list Epilogue :=
  omap (fun x => if (x.2 <? ROOM)%nat then Some x.1 else None) l.

Section Steps.
Context {BB : Build}.
Variable count : Z.

Definition move (s : sys) (c : Z) (k : core) (p : point) (l : TicketLock.contention) : sys :=
  {| cores := upd (cores s) c k; points := upd (points s) c p; lock := l;
     relayed := relayed s; executed := executed s |}.

Inductive step : sys -> sys -> Prop :=
| step_enter c s :
    0 <= c < count -> points s c = Free ->
    step s (move s c (Enter (cores s c)) Wants (lock s))
| step_wants_draw c s l' p :
    points s c = p -> p = Wants \/ (exists e, p = Popped e) ->
    TicketLock.stages (lock s) c = TicketLock.Out -> TicketLock.step count c (lock s) l' ->
    step s (move s c (cores s c) p l')
| step_locked c s l' t :
    points s c = Wants -> TicketLock.stages (lock s) c = TicketLock.Waiting t ->
    TicketLock.step count c (lock s) l' -> step s (move s c (cores s c) Inside l')
| step_locked_run c s l' t e :
    points s c = Popped e -> TicketLock.stages (lock s) c = TicketLock.Waiting t ->
    TicketLock.step count c (lock s) l' -> step s (move s c (cores s c) (Running e) l')
| step_leave c s l' :
    points s c = Inside -> TicketLock.step count c (lock s) l' ->
    step s (move s c (cores s c) LoopTop l')
| step_drain c s :
    points s c = LoopTop ->
    step s (move s c (Drain (cores s c)).2
              (match (Drain (cores s c)).1 with Some e => Popped e | None => Free end) (lock s))
| step_done c s l' e :
    points s c = Running e -> TicketLock.step count c (lock s) l' ->
    step s {| cores := cores s; points := upd (points s) c LoopTop; lock := l';
              relayed := relayed s; executed := upd (executed s) c (executed s c ++ [e]) |}
| step_interrupt c s e first k :
    0 <= c < count -> Relay (cores s c) e = Ok (first, k) ->
    step s {| cores := upd (cores s) c k;
              points := upd (points s) c (if first then Wants else points s c); lock := lock s;
              relayed := upd (relayed s) c
                (relayed s c ++ [(e, length (RingBuffer.contents QSIZE (s_EpilogueQueue (cores s c))))]);
              executed := executed s |}.

(** What the point of a core says about the lock and about the epilogues in its hands. *)
Definition holds (p : point) : Prop := match p with Inside | Running _ => True | _ => False end.
Definition in_hand (p : point) : list Epilogue :=
  match p with Popped e | Running e => [e] | _ => [] end.
Definition may_wait (p : point) : Prop := match p with Wants | Popped _ => True | _ => False end.

Record inv (s : sys) : Prop := {
  g_lock : exists q, TicketLock.inv count q (lock s);
  g_held c : TicketLock.stages (lock s) c = TicketLock.Holding <-> holds (points s c);
  g_wait c t : TicketLock.stages (lock s) c = TicketLock.Waiting t -> may_wait (points s c);
  g_flag c : s_InEpilogue (cores s c) = false <-> points s c = Free;
  g_wf c : RingBuffer.wf QSIZE (s_EpilogueQueue (cores s c));
  g_free c : points s c = Free -> RingBuffer.contents QSIZE (s_EpilogueQueue (cores s c)) = [];
  g_fifo c : accepted (relayed s c) = executed s c ++ in_hand (points s c) ++
    RingBuffer.contents QSIZE (s_EpilogueQueue (cores s c));
  g_debug c : NDEBUG = false -> Forall (fun x => (x.2 < ROOM)%nat) (relayed s c) }.

Lemma accepted_app l l' : accepted (l ++ l') = accepted l ++ accepted l'.
Proof. unfold accepted. by rewrite omap_app. Qed.

Lemma accepted_all l : Forall (fun x => (x.2 < ROOM)%nat) l -> accepted l = l.*1.
Proof.
  induction 1 as [|x l Hx _ IH]; [done|]. change (x :: l) with ([x] ++ l). rewrite accepted_app, IH.
  unfold accepted. simpl. by rewrite (proj2 (Nat.ltb_lt _ _) Hx).
Qed.

Lemma queue_capacity : 1 < QSIZE < 2 ^ 32.
Proof. unfold Config.EPILOGUE_QUEUE_SIZE. lia. Qed.

(** The effect of one access to the lock on the stages. *)
Lemma lock_step c l l' :
  TicketLock.step count c l l' ->
  (forall d, d <> c -> TicketLock.stages l' d = TicketLock.stages l d) /\
  match TicketLock.stages l c with
  | TicketLock.Out => exists t, TicketLock.stages l' c = TicketLock.Waiting t
  | TicketLock.Waiting _ => TicketLock.stages l' c = TicketLock.Holding
  | TicketLock.Holding => TicketLock.stages l' c = TicketLock.Out
  end.
Proof.
  intros Hst. destruct Hst as [c s Hc Ho|c s t Hw Hs|c s Hh]; simpl;
    (split; [intros d Hd; by apply upd_ne|]); rewrite ?Ho, ?Hw, ?Hh, upd_eq; [by eexists|done|done].
Qed.

(** One core moves; the obligations are those of that core. *)
Lemma inv_update s s' c k p r x :
  inv s -> (exists q, TicketLock.inv count q (lock s')) ->
  (forall d, cores s' d = upd (cores s) c k d) -> (forall d, points s' d = upd (points s) c p d) ->
  (forall d, relayed s' d = upd (relayed s) c r d) -> (forall d, executed s' d = upd (executed s) c x d) ->
  (forall d, d <> c -> TicketLock.stages (lock s') d = TicketLock.stages (lock s) d) ->
  (TicketLock.stages (lock s') c = TicketLock.Holding <-> holds p) ->
  (forall t, TicketLock.stages (lock s') c = TicketLock.Waiting t -> may_wait p) ->
  (s_InEpilogue k = false <-> p = Free) -> RingBuffer.wf QSIZE (s_EpilogueQueue k) ->
  (p = Free -> RingBuffer.contents QSIZE (s_EpilogueQueue k) = []) ->
  accepted r = x ++ in_hand p ++ RingBuffer.contents QSIZE (s_EpilogueQueue k) ->
  (NDEBUG = false -> Forall (fun x => (x.2 < ROOM)%nat) r) -> inv s'.
Proof.
  intros [] Hq Hk Hp Hr Hx Hl Hh Hw Hf Hwf He Hfifo Hdbg.
  split; [done|intros d..]; rewrite ?Hk, ?Hp, ?Hr, ?Hx; unfold upd;
    destruct (Z.eqb_spec d c) as [->|Hd]; rewrite ?Hl by done; eauto.
Qed.

Lemma upd_same {A} (f : Z -> A) c d : f d = upd f c (f c) d.
Proof. unfold upd. by destruct (Z.eqb_spec d c) as [->|]. Qed.

Lemma Drain_ok s c :
  inv s -> points s c = LoopTop ->
  let k := (Drain (cores s c)).2 in
  let p := match (Drain (cores s c)).1 with Some e => Popped e | None => Free end in
  (s_InEpilogue k = false <-> p = Free) /\ RingBuffer.wf QSIZE (s_EpilogueQueue k) /\
  (p = Free -> RingBuffer.contents QSIZE (s_EpilogueQueue k) = []) /\
  accepted (relayed s c) = executed s c ++ in_hand p ++ RingBuffer.contents QSIZE (s_EpilogueQueue k).
Proof.
  intros HI Hp. pose proof (g_fifo _ HI c) as Hf. rewrite Hp in Hf. simpl in Hf.
  assert (Hflag : s_InEpilogue (cores s c) = true).
  { destruct (s_InEpilogue (cores s c)) eqn:E; [done|]. apply (g_flag _ HI) in E. congruence. }
  destruct (RingBuffer.Consume_fifo QSIZE queue_capacity _ (g_wf _ HI c)) as [Hwf Hc].
  unfold Drain. destruct (RingBuffer.Consume _ _) as [[e|] q]; simpl in *.
  - split_and!; [|done|done|].
    + rewrite Hflag. done.
    + rewrite Hf. f_equal. destruct (RingBuffer.contents QSIZE (s_EpilogueQueue (cores s c))); simpl in Hc; [done|].
      injection Hc as -> <-. done.
  - assert (Hc' : RingBuffer.contents QSIZE (s_EpilogueQueue (cores s c)) = [] /\ RingBuffer.contents QSIZE q = []).
    { destruct (RingBuffer.contents QSIZE (s_EpilogueQueue (cores s c))); simpl in Hc; [|done]. by injection Hc as <-. }
    destruct Hc' as [E1 E2]. rewrite E1 in Hf. rewrite E2. by split_and!.
Qed.

(** [Relay] queues the epilogue, or loses it: with 63 waiting a debug build stops, and a
    release build goes on as if nothing had been asked for. *)
Lemma Relay_ok s c e first k :
  inv s -> Relay (cores s c) e = Ok (first, k) ->
  let waiting := RingBuffer.contents QSIZE (s_EpilogueQueue (cores s c)) in
  s_InEpilogue k = true /\ first = negb (s_InEpilogue (cores s c)) /\
  RingBuffer.wf QSIZE (s_EpilogueQueue k) /\
  RingBuffer.contents QSIZE (s_EpilogueQueue k) = waiting ++ accepted [(e, length waiting)] /\
  (NDEBUG = false -> (length waiting < ROOM)%nat).
Proof.
  intros HI HR waiting. destruct (RingBuffer.Produce_fifo QSIZE queue_capacity _ e (g_wf _ HI c)) as [Hwf Hc].
  unfold Relay in HR. destruct (RingBuffer.Produce _ _ _) as [queued q]. simpl in *.
  unfold RingBuffer.fifo_produce in Hc. fold waiting in Hc. change (Z.to_nat (QSIZE - 1)) with ROOM in Hc.
  assert (Hq : RingBuffer.contents QSIZE q = waiting ++ accepted [(e, length waiting)] /\ (NDEBUG = false -> (length waiting < ROOM)%nat)).
  { unfold accepted. cbn [omap list_omap fst snd]. destruct (decide _) as [Hroom|Hfull]; injection Hc as <- <-.
    - by rewrite (proj2 (Nat.ltb_lt _ _) Hroom).
    - rewrite (proj2 (Nat.ltb_ge _ _)) by lia. rewrite app_nil_r. split; [done|]. intros Hd. unfold ASSERT in HR.
      rewrite Hd in HR. done. }
  destruct Hq as [Hq Hd].
  assert (HR' : first = negb (s_InEpilogue (cores s c)) /\ k = {| s_InEpilogue := true; s_EpilogueQueue := q |}).
  { destruct (ASSERT queued "queued"); cbn [obind] in HR; try done. destruct (s_InEpilogue (cores s c)); by injection HR as <- <-. }
  destruct HR' as [-> ->]. by split_and!.
Qed.

(** In a release build an epilogue relayed to a full queue is lost. *)
Theorem relay_to_full_queue_loses k e :
  NDEBUG = true -> RingBuffer.wf QSIZE (s_EpilogueQueue k) -> s_InEpilogue k = true ->
  length (RingBuffer.contents QSIZE (s_EpilogueQueue k)) = ROOM ->
  exists k', Relay k e = Ok (false, k') /\
    RingBuffer.contents QSIZE (s_EpilogueQueue k') = RingBuffer.contents QSIZE (s_EpilogueQueue k).
Proof.
  intros HN Hw Hb Hfull. destruct (RingBuffer.Produce_fifo QSIZE queue_capacity _ e Hw) as [_ Hc]. unfold Relay.
  destruct (RingBuffer.Produce _ _ _) as [queued q]. simpl in *. unfold RingBuffer.fifo_produce in Hc.
  change (Z.to_nat (QSIZE - 1)) with ROOM in Hc. rewrite decide_False in Hc by lia. injection Hc as <- Hq.
  unfold ASSERT. rewrite HN, Hb. cbn [obind]. by eexists.
Qed.

(** A core that accesses the lock on its way from [p] to [p']. *)
Lemma inv_lock_move s c l' p p' :
  0 <= count < 2 ^ 32 -> inv s -> points s c = p -> p <> Free -> p' <> Free -> in_hand p' = in_hand p ->
  TicketLock.step count c (lock s) l' ->
  (TicketLock.stages l' c = TicketLock.Holding <-> holds p') ->
  (forall t, TicketLock.stages l' c = TicketLock.Waiting t -> may_wait p') ->
  inv (move s c (cores s c) p' l').
Proof.
  intros Hcnt HI Hp Hpf Hpf' Hh Hl H1 H2. destruct (lock_step _ _ _ Hl) as [Hne _].
  pose proof (g_flag _ HI c) as Hf. pose proof (g_fifo _ HI c) as Hff. rewrite Hp in *.
  apply (inv_update s _ c (cores s c) p' (relayed s c) (executed s c)); try done;
    try (intros; apply upd_same); try apply HI; simpl.
  - destruct (g_lock _ HI) as [q Hq]. by eapply TicketLock.inv_step.
  - rewrite Hf. done.
  - by rewrite Hh.
Qed.

(** A core that takes the lock or gives it back has reached the stage its point says. *)
Lemma stage_taken c l l' t :
  TicketLock.stages l c = TicketLock.Waiting t -> TicketLock.step count c l l' ->
  TicketLock.stages l' c = TicketLock.Holding.
Proof. intros Hw Hl. destruct (lock_step _ _ _ Hl) as [_ Hc]. by rewrite Hw in Hc. Qed.

Lemma stage_released s c l' :
  inv s -> holds (points s c) -> TicketLock.step count c (lock s) l' ->
  TicketLock.stages l' c = TicketLock.Out.
Proof.
  intros HI Hh Hl. destruct (lock_step _ _ _ Hl) as [_ Hc].
  by rewrite (proj2 (g_held _ HI c) Hh) in Hc.
Qed.

Lemma inv_interrupt s c e first k :
  inv s -> Relay (cores s c) e = Ok (first, k) ->
  inv {| cores := upd (cores s) c k;
         points := upd (points s) c (if first then Wants else points s c); lock := lock s;
         relayed := upd (relayed s) c
           (relayed s c ++ [(e, length (RingBuffer.contents QSIZE (s_EpilogueQueue (cores s c))))]);
         executed := executed s |}.
Proof.
  intros HI HR. destruct (Relay_ok s c e first k HI HR) as (Hk & -> & Hwf & Hcont & Hdbg).
  set (n := length _) in *.
  pose proof (g_held _ HI c) as Hh. pose proof (g_wait _ HI c) as Hwt. pose proof (g_flag _ HI c) as Hf.
  pose proof (g_fifo _ HI c) as Hff. pose proof (g_free _ HI c) as Hfr.
  set (p := if negb (s_InEpilogue (cores s c)) then Wants else points s c).
  assert (Hpc : points s c = Free /\ p = Wants \/ p = points s c /\ p <> Free).
  { subst p. destruct (s_InEpilogue (cores s c)) eqn:E; simpl; [right|left; split; [by apply Hf|done]].
    split; [done|]. intros E'. apply Hf in E'. done. }
  apply (inv_update s _ c k p (relayed s c ++ [(e, n)]) (executed s c)); try done;
    try (intros; apply upd_same); try apply HI; simpl; rewrite ?Hk, ?Hcont.
  - destruct Hpc as [[E ->]|[-> _]]; [|done]. by rewrite E in Hh.
  - destruct Hpc as [[E ->]|[-> _]]; [done|done].
  - split; [done|]. destruct Hpc as [[_ ->]|[_ ?]]; done.
  - destruct Hpc as [[_ ->]|[_ ?]]; done.
  - rewrite accepted_app, Hff, <- !app_assoc. destruct Hpc as [[E ->]|[-> _]]; [by rewrite E|done].
  - intros Hd. apply Forall_app. split; [by apply (g_debug _ HI)|]. apply Forall_singleton. by apply Hdbg.
Qed.

Lemma inv_drain s c :
  inv s -> points s c = LoopTop ->
  inv (move s c (Drain (cores s c)).2
         (match (Drain (cores s c)).1 with Some e => Popped e | None => Free end) (lock s)).
Proof.
  intros HI Hp. destruct (Drain_ok s c HI Hp) as (H1 & H2 & H3 & H4).
  pose proof (g_held _ HI c) as Hh. pose proof (g_wait _ HI c) as Hwt. rewrite Hp in Hh, Hwt. simpl in Hh, Hwt.
  apply (inv_update s _ c (Drain (cores s c)).2
    (match (Drain (cores s c)).1 with Some e => Popped e | None => Free end) (relayed s c) (executed s c));
    try done; try (intros; apply upd_same); try apply HI; simpl; by destruct (Drain (cores s c)).1.
Qed.

Lemma inv_done s c l' e :
  0 <= count < 2 ^ 32 -> inv s -> points s c = Running e -> TicketLock.step count c (lock s) l' ->
  inv {| cores := cores s; points := upd (points s) c LoopTop; lock := l';
         relayed := relayed s; executed := upd (executed s) c (executed s c ++ [e]) |}.
Proof.
  intros Hcnt HI Hp Hl. destruct (lock_step _ _ _ Hl) as [Hne _].
  assert (Hc : TicketLock.stages l' c = TicketLock.Out) by (apply (stage_released s); [done|by rewrite Hp|done]).
  pose proof (g_flag _ HI c) as Hf. pose proof (g_fifo _ HI c) as Hff. rewrite Hp in *.
  apply (inv_update s _ c (cores s c) LoopTop (relayed s c) (executed s c ++ [e])); try done;
    try (intros; apply upd_same); try apply HI; simpl; try (rewrite Hc; done).
  - destruct (g_lock _ HI) as [q Hq]. by eapply TicketLock.inv_step.
  - rewrite Hf. done.
  - rewrite Hff. by rewrite <- app_assoc.
Qed.

Lemma guard_inv_step s s' : 0 <= count < 2 ^ 32 -> inv s -> step s s' -> inv s'.
Proof.
  intros Hcnt HI Hst.
  destruct Hst as [c s Hc Hp|c s l' p Hp Hpp Ho Hl|c s l' t Hp Hw Hl|c s l' t e Hp Hw Hl|c s l' Hp Hl|c s Hp|
                   c s l' e Hp Hl|c s e first k Hc HR].
  - pose proof (g_held _ HI c) as Hh. pose proof (g_wait _ HI c) as Hwt. rewrite Hp in *. simpl in *.
    apply (inv_update s _ c (Enter (cores s c)) Wants (relayed s c) (executed s c)); try done;
      try (intros; apply upd_same); try apply HI. rewrite (g_fifo _ HI c), Hp. done.
  - destruct (lock_step _ _ _ Hl) as [_ Hc]. rewrite Ho in Hc. destruct Hc as [t Hc].
    apply (inv_lock_move s c l' p p); try done; try rewrite Hc; try (intros ? _);
      destruct Hpp as [->|[e ->]]; done.
  - apply (inv_lock_move s c l' Wants); try done; by rewrite (stage_taken c (lock s) l' t).
  - apply (inv_lock_move s c l' (Popped e)); try done; by rewrite (stage_taken c (lock s) l' t).
  - apply (inv_lock_move s c l' Inside); try done; rewrite (stage_released s c l'); rewrite ?Hp; done.
  - by apply inv_drain.
  - by apply inv_done.
  - by apply inv_interrupt.
Qed.

Lemma inv_boot : inv boot.
Proof.
  split; simpl; try done.
  exists []. apply TicketLock.inv_start.
Qed.

Lemma guard_reachable s : 0 <= count < 2 ^ 32 -> rtc step boot s -> inv s.
Proof.
  intros Hc Hr. apply (rtc_ind_r (R := step) inv boot); [apply inv_boot| |done].
  intros s1 s2 _ Hst HI. by apply (guard_inv_step s1).
Qed.

(** C6: The prologue/epilogue model keeps its promises under every interleaving of cores
    and interrupts.  At most one core in the system is in the critical section or runs
    an epilogue; every epilogue that was relayed while fewer than 63 were waiting on its core
    is run exactly once, in order, by that core (what has run, what is in hand and what is
    queued are those); when a core is back at thread level its queue is empty, so none of
    them is left stranded.  An epilogue relayed to a full queue is lost; in a debug build
    the assertion stops the machine instead, so none is. *)
Theorem guard_runs_every_epilogue_once s :
  0 <= count < 2 ^ 32 -> rtc step boot s ->
  (forall c c', holds (points s c) -> holds (points s c') -> c = c') /\
  (forall c, accepted (relayed s c) = executed s c ++ in_hand (points s c) ++
     RingBuffer.contents QSIZE (s_EpilogueQueue (cores s c))) /\
  (forall c, points s c = Free -> s_InEpilogue (cores s c) = false /\ accepted (relayed s c) = executed s c) /\
  (NDEBUG = false -> forall c, accepted (relayed s c) = (relayed s c).*1).
Proof.
  intros Hcnt Hr. pose proof (guard_reachable s Hcnt Hr) as HI. split_and!.
  - intros c c' H1 H2. destruct (g_lock _ HI) as [q Hq].
    apply (TicketLock.holders_unique count q (lock s)); [done|by apply (g_held _ HI)..].
  - apply (g_fifo _ HI).
  - intros c Hp. split; [by apply (g_flag _ HI)|].
    by rewrite (g_fifo _ HI c), (g_free _ HI c Hp), Hp, app_nil_r.
  - intros Hd c. by apply accepted_all, (g_debug _ HI).
Qed.
End Steps.
End Guard.

Lemma guard_runs_every_epilogue_once_witness :
  exists s, rtc (Guard.step (BB := {| NDEBUG := false |}) 2) Guard.boot s /\
    Guard.points s 1 = Guard.Wants /\ Guard.relayed s 1 = [(Keyboard, 0%nat)] /\
    Guard.executed s 1 ++ RingBuffer.contents Config.EPILOGUE_QUEUE_SIZE
      (Guard.s_EpilogueQueue (Guard.cores s 1)) = [Keyboard].
Proof.
  assert (H : exists s, rtc (Guard.step (BB := {| NDEBUG := false |}) 2) Guard.boot s /\
    Guard.points s 1 = Guard.Wants /\ Guard.relayed s 1 = [(Keyboard, 0%nat)]).
  { eexists. split.
    - eapply rtc_l; [|apply rtc_refl].
      apply (Guard.step_interrupt (BB := {| NDEBUG := false |}) 2 1 Guard.boot Keyboard true
               {| Guard.s_InEpilogue := true;
                  Guard.s_EpilogueQueue := (RingBuffer.Produce 64 (RingBuffer.Empty 64) Keyboard).2 |});
        [lia|vm_compute; reflexivity].
    - by vm_compute. }
  destruct H as (s & Hr & H1 & H2). exists s.
  destruct (Guard.guard_runs_every_epilogue_once (BB := {| NDEBUG := false |}) 2 s ltac:(lia) Hr) as (_ & Hf & _).
  split_and!; [exact Hr|exact H1|exact H2|]. specialize (Hf 1). rewrite H1, H2 in Hf. symmetry. exact Hf.
Defined.
