(* ===== verification/Device.v ===== *)
(** * Hardware the kernel drives

    The interface to I/O ports (Arch/IoPort.h) and memory mapped registers, the state
    monad in which driver code is written, and the bit fields that the register unions
    of the drivers are made of. *)

From S2P Require Import Prelude.

Create Rewrite HintDb hk_io.

(** ** Driver code

    A driver function reads and writes a state and returns, panics or keeps spinning. *)

Definition M (S A : Type) : Type := S -> outcome (A * S).

Definition dret {S A} (a : A) : M S A := fun s => Ok (a, s).
Definition dbind {S A B} (m : M S A) (k : A -> M S B) : M S B :=
  fun s => let* (a, s) := m s in k a s.
Definition dget {S} : M S S := fun s => Ok (s, s).
Definition dput {S} (s : S) : M S unit := fun _ => Ok (tt, s).
Definition dlift {S A} (o : outcome A) : M S A := fun s => let* a := o in Ok (a, s).

Notation "x <- m ;; k" := (dbind m (fun x => k))
  (at level 100, m at next level, right associativity) : hk_scope.
Notation "' p <- m ;; k" := (dbind m (fun x => let p := x in k))
  (at level 100, p pattern, m at next level, right associativity) : hk_scope.
Notation "m ;;; k" := (dbind m (fun _ => k))
  (at level 100, right associativity) : hk_scope.

Lemma dbind_Ok {S A B} (m : M S A) (k : A -> M S B) s r :
  dbind m k s = Ok r <-> exists a s', m s = Ok (a, s') /\ k a s' = Ok r.
Proof.
  unfold dbind. rewrite obind_Ok. split.
  - intros ([a s'] & H1 & H2). eauto.
  - intros (a & s' & H1 & H2). by exists (a, s').
Qed.

(** ** Ports and registers

    [D] is the state of everything outside the processor.  A read can change it (a
    status register that clears itself, a data port that pops a byte), and what it
    returns has the width of the access. *)

Class Hardware (D : Type) := {
  port_in : Z -> Z -> D -> Z * D;              (* width, port *)
  port_out : Z -> Z -> Z -> D -> D;            (* width, port, value *)
  mmio_read : Z -> D -> Z * D;                 (* 32-bit register at an address *)
  mmio_write : Z -> Z -> D -> D }.             (* address, value *)

Class HardwareLaws (D : Type) {HW : Hardware D} : Prop := {
  port_in_word w p d : 0 <= w -> is_word w (port_in w p d).1;
  mmio_read_word a d : is_word 32 (mmio_read a d).1 }.

Module IoPort.
Section Ports.
Context {D : Type} {HW : Hardware D}.

Definition OutB (m_Address InValue : Z) : M D unit := fun d => Ok (tt, port_out 8 m_Address (u8 InValue) d).
Definition OutW (m_Address InValue : Z) : M D unit := fun d => Ok (tt, port_out 16 m_Address (u16 InValue) d).
Definition OutL (m_Address InValue : Z) : M D unit := fun d => Ok (tt, port_out 32 m_Address (u32 InValue) d).
Definition InB (m_Address : Z) : M D Z := fun d => Ok (port_in 8 m_Address d).
Definition InW (m_Address : Z) : M D Z := fun d => Ok (port_in 16 m_Address d).
Definition InL (m_Address : Z) : M D Z := fun d => Ok (port_in 32 m_Address d).

(** A write to the unused POST port. *)
Definition Wait : M D unit := OutB 0x80 0.
End Ports.
End IoPort.

Definition mmio_load {D} {HW : Hardware D} (a : Z) : M D Z := fun d => Ok (mmio_read a d).
Definition mmio_store {D} {HW : Hardware D} (a v : Z) : M D unit :=
  fun d => Ok (tt, mmio_write a (u32 v) d).

(** Running driver code: an access, then the rest. *)
Section Run.
Context {D B : Type} {HW : Hardware D}.

Lemma run_OutB p v (k : unit -> M D B) d :
  dbind (IoPort.OutB p v) k d = k tt (port_out 8 p (u8 v) d).
Proof. done. Qed.
Lemma run_InB p (k : Z -> M D B) d :
  dbind (IoPort.InB p) k d = k (port_in 8 p d).1 (port_in 8 p d).2.
Proof. unfold dbind, IoPort.InB. by destruct (port_in 8 p d). Qed.
Lemma run_load a (k : Z -> M D B) d :
  dbind (mmio_load a) k d = k (mmio_read a d).1 (mmio_read a d).2.
Proof. unfold dbind, mmio_load. by destruct (mmio_read a d). Qed.
Lemma run_store a v (k : unit -> M D B) d :
  dbind (mmio_store a v) k d = k tt (mmio_write a (u32 v) d).
Proof. done. Qed.
Lemma run_ret {A} (a : A) (k : A -> M D B) d : dbind (dret a) k d = k a d.
Proof. done. Qed.
Lemma run_bind {A C} (m : M D A) (f : A -> M D C) (k : C -> M D B) d :
  dbind (dbind m f) k d = dbind m (fun a => dbind (f a) k) d.
Proof. unfold dbind. by destruct (m d) as [[a s]| | | |]. Qed.
End Run.

#[global] Hint Rewrite @run_bind @run_OutB @run_InB @run_load @run_store @run_ret : hk_io.

(** ** Bit fields

    [get lo n v] is a field of [n] bits at bit [lo], and [set lo n x v] an assignment to
    it; the value is cut to the width of the field, as the language does. *)

Module Field.
Definition get (lo n v : Z) : Z := wrap n (Z.shiftr v lo).
Definition set (lo n x v : Z) : Z :=
  Z.lor (Z.ldiff v (Z.shiftl (Z.ones n) lo)) (Z.shiftl (wrap n x) lo).

Lemma testbit_get lo n v i : 0 <= lo -> 0 <= n -> 0 <= i ->
  Z.testbit (get lo n v) i = (i <? n) && Z.testbit v (i + lo).
Proof. intros. unfold get. rewrite testbit_wrap, Z.shiftr_spec by lia. done. Qed.

Lemma testbit_set lo n x v i : 0 <= lo -> 0 <= n -> 0 <= i ->
  Z.testbit (set lo n x v) i =
  if (lo <=? i) && (i <? lo + n) then Z.testbit x (i - lo) else Z.testbit v i.
Proof.
  intros. unfold set. rewrite Z.lor_spec, Z.ldiff_spec, !Z.shiftl_spec by lia.
  destruct (Z.leb_spec lo i); simpl.
  - rewrite testbit_wrap by lia. destruct (Z.ltb_spec i (lo + n)).
    + rewrite Z.ones_spec_low by lia. replace (i - lo <? n) with true by lia.
      by rewrite andb_false_r, orb_false_l.
    + rewrite Z.ones_spec_high by lia. replace (i - lo <? n) with false by lia.
      by rewrite andb_true_r, orb_false_r.
  - rewrite !(Z.testbit_neg_r _ (i - lo)) by lia. by rewrite andb_true_r, orb_false_r.
Qed.

Lemma get_set_same lo n x v : 0 <= lo -> 0 <= n -> get lo n (set lo n x v) = wrap n x.
Proof.
  intros. apply Z.bits_inj'. intros i Hi. rewrite testbit_get, testbit_set, testbit_wrap by lia.
  destruct (Z.ltb_spec i n); simpl; [|done].
  replace (lo <=? i + lo) with true by lia. replace (i + lo <? lo + n) with true by lia. simpl.
  f_equal. lia.
Qed.

Lemma get_set_other lo n lo' n' x v :
  0 <= lo -> 0 <= n -> 0 <= lo' -> 0 <= n' -> lo + n <= lo' \/ lo' + n' <= lo ->
  get lo n (set lo' n' x v) = get lo n v.
Proof.
  intros. apply Z.bits_inj'. intros i Hi. rewrite !testbit_get by lia.
  destruct (Z.ltb_spec i n); simpl; [|done]. rewrite testbit_set by lia.
  destruct (Z.leb_spec lo' (i + lo)), (Z.ltb_spec (i + lo) (lo' + n')); simpl; try done. lia.
Qed.

Lemma set_nonneg lo n x v : 0 <= lo -> 0 <= n -> 0 <= v -> 0 <= set lo n x v.
Proof.
  intros. unfold set. apply Z.lor_nonneg. split.
  - apply Z.ldiff_nonneg. by left.
  - apply Z.shiftl_nonneg. by apply wrap_range.
Qed.

Lemma set_word w lo n x v :
  0 <= lo -> 0 <= n -> lo + n <= w -> is_word w v -> is_word w (set lo n x v).
Proof.
  intros Hlo Hn Hw Hv. apply is_word_bits; [lia|apply set_nonneg; try lia; apply Hv|].
  intros i Hi. rewrite testbit_set by lia. replace (i <? lo + n) with false by lia.
  rewrite andb_false_r. apply (testbit_above w); [done|lia].
Qed.

Lemma get_word lo n v : 0 <= n -> is_word n (get lo n v).
Proof. intros. by apply wrap_range. Qed.

(** A word is determined by its low and high halves. *)
Lemma halves_eq w lo v v' :
  0 <= lo <= w -> is_word w v -> is_word w v' ->
  get 0 lo v = get 0 lo v' -> get lo (w - lo) v = get lo (w - lo) v' -> v = v'.
Proof.
  intros Hlo Hv Hv' H1 H2. apply Z.bits_inj'. intros i Hi.
  destruct (Z.ltb_spec i lo).
  - apply (f_equal (fun z => Z.testbit z i)) in H1. rewrite !testbit_get in H1 by lia.
    replace (i <? lo) with true in H1 by lia. simpl in H1. by rewrite Z.add_0_r in H1.
  - destruct (Z.ltb_spec i w); [|by rewrite !(testbit_above w) by (done || lia)].
    apply (f_equal (fun z => Z.testbit z (i - lo))) in H2. rewrite !testbit_get in H2 by lia.
    replace (i - lo <? w - lo) with true in H2 by lia. simpl in H2.
    by replace (i - lo + lo) with i in H2 by lia.
Qed.
End Field.

#[export] Hint Resolve Field.get_word Field.set_word : hk.

(** Reads every field of a chain of assignments. *)
Ltac fields :=
  repeat first [ rewrite Field.get_set_same by lia | rewrite Field.get_set_other by lia ].

(** ** Reading fields through masks and halves *)

Module FieldMore.
Import Field.

Lemma get_get lo n lo' n' v : 0 <= lo -> 0 <= n -> 0 <= lo' -> lo + n <= n' ->
  get lo n (get lo' n' v) = get (lo' + lo) n v.
Proof.
  intros. apply Z.bits_inj'. intros i Hi. rewrite !testbit_get by lia.
  destruct (Z.ltb_spec i n); simpl; [|done]. replace (i + lo <? n') with true by lia. simpl.
  f_equal. lia.
Qed.

(** A mask that covers the field does not change it. *)
Definition covers (mask lo n : Z) : bool :=
  forallb (fun i => Z.testbit mask (lo + Z.of_nat i)) (seq 0 (Z.to_nat n)).

Lemma get_land mask lo n v : 0 <= lo -> 0 <= n -> covers mask lo n = true ->
  get lo n (Z.land v mask) = get lo n v.
Proof.
  intros Hlo Hn Hm. unfold covers in Hm. rewrite forallb_forall in Hm.
  apply Z.bits_inj'. intros i Hi. rewrite !testbit_get, Z.land_spec by lia.
  destruct (Z.ltb_spec i n); simpl; [|done].
  specialize (Hm (Z.to_nat i)). rewrite Z2Nat.id in Hm by lia. rewrite (Z.add_comm i lo), Hm;
    [by rewrite andb_true_r|]. apply in_seq. lia.
Qed.

(** Two 32-bit registers as one 64-bit value. *)
Definition join (low high : Z) : Z := Z.lor low (Z.shiftl high 32).

Lemma get_join_low lo n low high : 0 <= lo -> 0 <= n -> lo + n <= 32 ->
  get lo n (join low high) = get lo n low.
Proof.
  intros. apply Z.bits_inj'. intros i Hi. unfold join.
  rewrite !testbit_get, Z.lor_spec, Z.shiftl_spec by lia.
  destruct (Z.ltb_spec i n); simpl; [|done].
  rewrite (Z.testbit_neg_r high) by lia. by rewrite orb_false_r.
Qed.

Lemma get_join_high lo n low high : 32 <= lo -> 0 <= n -> is_word 32 low ->
  get lo n (join low high) = get (lo - 32) n high.
Proof.
  intros Hlo Hn Hw. apply Z.bits_inj'. intros i Hi. unfold join.
  rewrite !testbit_get, Z.lor_spec, Z.shiftl_spec by lia.
  destruct (Z.ltb_spec i n); simpl; [|done].
  rewrite (testbit_above 32 low) by (done || lia). simpl. f_equal. lia.
Qed.
End FieldMore.

(** ** Arch/CpuInterrupt.h: interrupt vectors *)

Inductive Vector :=
| DIVIDE_ERROR | DEBUG | NON_MASKABLE_INTERRUPT | BREAKPOINT | OVERFLOW | BOUND_RANGE_EXCEEDED
| INVALID_OPCODE | DEVICE_NOT_AVAILABLE | DOUBLE_FAULT | INVALID_TSS | SEGMENT_NOT_PRESENT
| STACK_SEGMENT_FAULT | GENERAL_PROTECTION_FAULT | PAGE_FAULT | FLOATING_POINT_EXCEPTION
| ALIGNMENT_CHECK | MACHINE_CHECK | SIMD_FP_EXCEPTION | VIRTUALIZATION_EXCEPTION
| CONTROL_PROTECTION | SECURITY_EXCEPTION | TIMER | KEYBOARD | VASSASSIN | VWAKEUP | PANIC | SPURIOUS.

Definition VectorNumber (v : Vector) : Z :=
  match v with
  | DIVIDE_ERROR => 0 | DEBUG => 1 | NON_MASKABLE_INTERRUPT => 2 | BREAKPOINT => 3 | OVERFLOW => 4
  | BOUND_RANGE_EXCEEDED => 5 | INVALID_OPCODE => 6 | DEVICE_NOT_AVAILABLE => 7 | DOUBLE_FAULT => 8
  | INVALID_TSS => 10 | SEGMENT_NOT_PRESENT => 11 | STACK_SEGMENT_FAULT => 12
  | GENERAL_PROTECTION_FAULT => 13 | PAGE_FAULT => 14 | FLOATING_POINT_EXCEPTION => 16
  | ALIGNMENT_CHECK => 17 | MACHINE_CHECK => 18 | SIMD_FP_EXCEPTION => 19
  | VIRTUALIZATION_EXCEPTION => 20 | CONTROL_PROTECTION => 21 | SECURITY_EXCEPTION => 30
  | TIMER => 0x20 | KEYBOARD => 0x21 | VASSASSIN => 0x22 | VWAKEUP => 0x23
  | PANIC => 0xf2 | SPURIOUS => 0xff
  end.

Definition VECTOR_COUNT : Z := 256.
