(* ===== verification/Keyboard.v ===== *)
(** * Device/Key.h and Device/Key.cpp, Device/KeyDecoder.h and Device/KeyDecoder.cpp

    A keystroke and its US layout character, and the decoder that turns the scan code
    bytes of the keyboard into keystrokes while it tracks the modifiers.  The decoder
    switches LEDs through the controller; that call is a parameter of the decoder, with
    the controller's state passed along. *)

From S2P Require Import Prelude.

(** ** Key *)

Module Key.

(** Scan code set 1 make codes, in numeric order; a one-letter name of the source has an
    underscore here. *)
Inductive ScanCode :=
| INVALID | ESCAPE | DIGIT_1 | DIGIT_2 | DIGIT_3 | DIGIT_4 | DIGIT_5 | DIGIT_6 | DIGIT_7
| DIGIT_8 | DIGIT_9 | DIGIT_0 | MINUS | EQUAL | BACKSPACE | TAB | Q_ | W_ | E_ | R_ | T_ | Y_ | U_
| I_ | O_ | P_ | OPEN_BRACKET | CLOSE_BRACKET | ENTER | LEFT_CTRL | A_ | S_ | D_ | F_ | G_ | H_ | J_
| K_ | L_ | SEMICOLON | APOSTROPHE | GRAVE | LEFT_SHIFT | BACKSLASH | Z_ | X_ | C_ | V_ | B_ | N_
| M_ | COMMA | PERIOD | SLASH | RIGHT_SHIFT | KP_STAR | LEFT_ALT | SPACE | CAPS_LOCK | F1
| F2 | F3 | F4 | F5 | F6 | F7 | F8 | F9 | F10 | NUM_LOCK | SCROLL_LOCK | KP_7 | KP_8 | KP_9
| KP_MINUS | KP_4 | KP_5 | KP_6 | KP_PLUS | KP_1 | KP_2 | KP_3 | KP_0 | KP_PERIOD | SYSREQ
| EUROPE_2 | F11 | F12 | KP_EQUAL | COUNT.

Definition ToUnderlying (c : ScanCode) : Z :=
  match c with
  | INVALID => 0 | ESCAPE => 1 | DIGIT_1 => 2 | DIGIT_2 => 3 | DIGIT_3 => 4 | DIGIT_4 => 5
  | DIGIT_5 => 6 | DIGIT_6 => 7 | DIGIT_7 => 8 | DIGIT_8 => 9 | DIGIT_9 => 10 | DIGIT_0 => 11
  | MINUS => 12 | EQUAL => 13 | BACKSPACE => 14 | TAB => 15 | Q_ => 16 | W_ => 17 | E_ => 18
  | R_ => 19 | T_ => 20 | Y_ => 21 | U_ => 22 | I_ => 23 | O_ => 24 | P_ => 25 | OPEN_BRACKET => 26
  | CLOSE_BRACKET => 27 | ENTER => 28 | LEFT_CTRL => 29 | A_ => 30 | S_ => 31 | D_ => 32
  | F_ => 33 | G_ => 34 | H_ => 35 | J_ => 36 | K_ => 37 | L_ => 38 | SEMICOLON => 39
  | APOSTROPHE => 40 | GRAVE => 41 | LEFT_SHIFT => 42 | BACKSLASH => 43 | Z_ => 44 | X_ => 45
  | C_ => 46 | V_ => 47 | B_ => 48 | N_ => 49 | M_ => 50 | COMMA => 51 | PERIOD => 52
  | SLASH => 53 | RIGHT_SHIFT => 54 | KP_STAR => 55 | LEFT_ALT => 56 | SPACE => 57
  | CAPS_LOCK => 58 | F1 => 59 | F2 => 60 | F3 => 61 | F4 => 62 | F5 => 63 | F6 => 64
  | F7 => 65 | F8 => 66 | F9 => 67 | F10 => 68 | NUM_LOCK => 69 | SCROLL_LOCK => 70
  | KP_7 => 71 | KP_8 => 72 | KP_9 => 73 | KP_MINUS => 74 | KP_4 => 75 | KP_5 => 76
  | KP_6 => 77 | KP_PLUS => 78 | KP_1 => 79 | KP_2 => 80 | KP_3 => 81 | KP_0 => 82
  | KP_PERIOD => 83 | SYSREQ => 84 | EUROPE_2 => 85 | F11 => 86 | F12 => 87 | KP_EQUAL => 88
  | COUNT => 89
  end.

(** The cursor block shares these codes with the keypad. *)
Definition DELETE := KP_PERIOD.
Definition UP := KP_8.
Definition DOWN := KP_2.
Definition LEFT := KP_4.
Definition RIGHT := KP_6.

(** [Code] is the [uint8_t] behind the enum: the decoder casts any byte to it. *)
Record Key := {
  Code : Z;
  Shift : bool; AltLeft : bool; AltRight : bool; CtrlLeft : bool; CtrlRight : bool;
  CapsLock : bool; NumLock : bool; ScrollLock : bool }.

Definition Create : Key :=
  {| Code := 0; Shift := false; AltLeft := false; AltRight := false; CtrlLeft := false;
     CtrlRight := false; CapsLock := false; NumLock := false; ScrollLock := false |}.

Definition IsValid (k : Key) : bool :=
  negb (Code k =? ToUnderlying INVALID) && (Code k <? ToUnderlying COUNT).

Definition with_Code (k : Key) (c : Z) : Key :=
  {| Code := c; Shift := Shift k; AltLeft := AltLeft k; AltRight := AltRight k; CtrlLeft := CtrlLeft k;
     CtrlRight := CtrlRight k; CapsLock := CapsLock k; NumLock := NumLock k; ScrollLock := ScrollLock k |}.
Definition Invalidate (k : Key) : Key := with_Code k (ToUnderlying INVALID).

Definition Alt (k : Key) : bool := AltLeft k || AltRight k.
Definition Ctrl (k : Key) : bool := CtrlLeft k || CtrlRight k.

Record AsciiEntry := E { Normal : Z; Shifted : Z }.
Definition ch (s : string) : Z :=
  match s with String a _ => Z.of_N (Ascii.N_of_ascii a) | EmptyString => 0 end.

(** US layout, indexed by scan code. *)
Definition ASCII_TABLE : list AsciiEntry := [
  E 0 0; (* INVALID *) E 27 27; (* ESCAPE *) E (ch "1") (ch "!"); (* DIGIT_1 *)
  E (ch "2") (ch "@"); (* DIGIT_2 *) E (ch "3") (ch "#"); (* DIGIT_3 *)
  E (ch "4") (ch "$"); (* DIGIT_4 *) E (ch "5") (ch "%"); (* DIGIT_5 *)
  E (ch "6") (ch "^"); (* DIGIT_6 *) E (ch "7") (ch "&"); (* DIGIT_7 *)
  E (ch "8") (ch "*"); (* DIGIT_8 *) E (ch "9") (ch "("); (* DIGIT_9 *)
  E (ch "0") (ch ")"); (* DIGIT_0 *) E (ch "-") (ch "_"); (* MINUS *)
  E (ch "=") (ch "+"); (* EQUAL *) E 8 8; (* BACKSPACE *) E 9 9; (* TAB *)
  E (ch "q") (ch "Q"); (* Q_ *) E (ch "w") (ch "W"); (* W_ *) E (ch "e") (ch "E"); (* E_ *)
  E (ch "r") (ch "R"); (* R_ *) E (ch "t") (ch "T"); (* T_ *) E (ch "y") (ch "Y"); (* Y_ *)
  E (ch "u") (ch "U"); (* U_ *) E (ch "i") (ch "I"); (* I_ *) E (ch "o") (ch "O"); (* O_ *)
  E (ch "p") (ch "P"); (* P_ *) E (ch "[") (ch "{"); (* OPEN_BRACKET *)
  E (ch "]") (ch "}"); (* CLOSE_BRACKET *) E 10 10; (* ENTER *) E 0 0; (* LEFT_CTRL *)
  E (ch "a") (ch "A"); (* A_ *) E (ch "s") (ch "S"); (* S_ *) E (ch "d") (ch "D"); (* D_ *)
  E (ch "f") (ch "F"); (* F_ *) E (ch "g") (ch "G"); (* G_ *) E (ch "h") (ch "H"); (* H_ *)
  E (ch "j") (ch "J"); (* J_ *) E (ch "k") (ch "K"); (* K_ *) E (ch "l") (ch "L"); (* L_ *)
  E (ch ";") (ch ":"); (* SEMICOLON *) E 39 34; (* APOSTROPHE *)
  E (ch "`") (ch "~"); (* GRAVE *) E 0 0; (* LEFT_SHIFT *) E 92 (ch "|"); (* BACKSLASH *)
  E (ch "z") (ch "Z"); (* Z_ *) E (ch "x") (ch "X"); (* X_ *) E (ch "c") (ch "C"); (* C_ *)
  E (ch "v") (ch "V"); (* V_ *) E (ch "b") (ch "B"); (* B_ *) E (ch "n") (ch "N"); (* N_ *)
  E (ch "m") (ch "M"); (* M_ *) E (ch ",") (ch "<"); (* COMMA *)
  E (ch ".") (ch ">"); (* PERIOD *) E (ch "/") (ch "?"); (* SLASH *) E 0 0; (* RIGHT_SHIFT *)
  E (ch "*") (ch "*"); (* KP_STAR *) E 0 0; (* LEFT_ALT *) E (ch " ") (ch " "); (* SPACE *)
  E 0 0; (* CAPS_LOCK *) E 0 0; (* F1 *) E 0 0; (* F2 *) E 0 0; (* F3 *) E 0 0; (* F4 *)
  E 0 0; (* F5 *) E 0 0; (* F6 *) E 0 0; (* F7 *) E 0 0; (* F8 *) E 0 0; (* F9 *)
  E 0 0; (* F10 *) E 0 0; (* NUM_LOCK *) E 0 0; (* SCROLL_LOCK *) E 0 (ch "7"); (* KP_7 *)
  E 0 (ch "8"); (* KP_8 *) E 0 (ch "9"); (* KP_9 *) E (ch "-") (ch "-"); (* KP_MINUS *)
  E 0 (ch "4"); (* KP_4 *) E 0 (ch "5"); (* KP_5 *) E 0 (ch "6"); (* KP_6 *)
  E (ch "+") (ch "+"); (* KP_PLUS *) E 0 (ch "1"); (* KP_1 *) E 0 (ch "2"); (* KP_2 *)
  E 0 (ch "3"); (* KP_3 *) E 0 (ch "0"); (* KP_0 *) E 127 (ch "."); (* KP_PERIOD *)
  E 0 0; (* SYSREQ *) E 92 (ch "|"); (* EUROPE_2 *) E 0 0; (* F11 *) E 0 0; (* F12 *)
  E (ch "=") (ch "=") (* KP_EQUAL *) ].

Definition between (lo hi : ScanCode) (c : Z) : bool := (ToUnderlying lo <=? c) && (c <=? ToUnderlying hi).
Definition IsLetter (c : Z) : bool := between Q_ P_ c || between A_ L_ c || between Z_ M_ c.
Definition IsKeypadDigit (c : Z) : bool := between KP_7 KP_PERIOD c.

Definition Ascii (k : Key) : Z :=
  if negb (IsValid k) then 0
  else
    let useShifted := Shift k || (CapsLock k && IsLetter (Code k)) || (NumLock k && IsKeypadDigit (Code k)) in
    let entry := nth (Z.to_nat (Code k)) ASCII_TABLE (E 0 0) in
    if useShifted then Shifted entry else Normal entry.

End Key.

(** ** KeyDecoder *)

(** [Ps2Controller::Led]; the prefix keeps the names apart from the scan codes. *)
Inductive Led := LED_SCROLL_LOCK | LED_NUM_LOCK | LED_CAPS_LOCK.

Module KeyDecoder.
Import Key.

Definition BREAK_BIT : Z := 0x80.
Definition PREFIX_EXTENDED : Z := 0xe0.
Definition PREFIX_PAUSE : Z := 0xe1.

Record t := { m_Prefix : Z; m_Modifiers : Key; m_Pressed : list bool }.

Definition Fresh : t :=
  {| m_Prefix := 0; m_Modifiers := Key.Create;
     m_Pressed := replicate (Z.to_nat (ToUnderlying COUNT)) false |}.

Definition IsPressed (d : t) (InCode : Z) : bool :=
  (InCode <? ToUnderlying COUNT) && default false (m_Pressed d !! Z.to_nat InCode).

(** Assignments to one field of a [Key]. *)
Definition set_Shift (k : Key) (b : bool) : Key :=
  {| Code := Code k; Shift := b; AltLeft := AltLeft k; AltRight := AltRight k; CtrlLeft := CtrlLeft k;
     CtrlRight := CtrlRight k; CapsLock := CapsLock k; NumLock := NumLock k; ScrollLock := ScrollLock k |}.
Definition set_AltLeft (k : Key) (b : bool) : Key :=
  {| Code := Code k; Shift := Shift k; AltLeft := b; AltRight := AltRight k; CtrlLeft := CtrlLeft k;
     CtrlRight := CtrlRight k; CapsLock := CapsLock k; NumLock := NumLock k; ScrollLock := ScrollLock k |}.
Definition set_AltRight (k : Key) (b : bool) : Key :=
  {| Code := Code k; Shift := Shift k; AltLeft := AltLeft k; AltRight := b; CtrlLeft := CtrlLeft k;
     CtrlRight := CtrlRight k; CapsLock := CapsLock k; NumLock := NumLock k; ScrollLock := ScrollLock k |}.
Definition set_CtrlLeft (k : Key) (b : bool) : Key :=
  {| Code := Code k; Shift := Shift k; AltLeft := AltLeft k; AltRight := AltRight k; CtrlLeft := b;
     CtrlRight := CtrlRight k; CapsLock := CapsLock k; NumLock := NumLock k; ScrollLock := ScrollLock k |}.
Definition set_CtrlRight (k : Key) (b : bool) : Key :=
  {| Code := Code k; Shift := Shift k; AltLeft := AltLeft k; AltRight := AltRight k; CtrlLeft := CtrlLeft k;
     CtrlRight := b; CapsLock := CapsLock k; NumLock := NumLock k; ScrollLock := ScrollLock k |}.
Definition set_CapsLock (k : Key) (b : bool) : Key :=
  {| Code := Code k; Shift := Shift k; AltLeft := AltLeft k; AltRight := AltRight k; CtrlLeft := CtrlLeft k;
     CtrlRight := CtrlRight k; CapsLock := b; NumLock := NumLock k; ScrollLock := ScrollLock k |}.
Definition set_NumLock (k : Key) (b : bool) : Key :=
  {| Code := Code k; Shift := Shift k; AltLeft := AltLeft k; AltRight := AltRight k; CtrlLeft := CtrlLeft k;
     CtrlRight := CtrlRight k; CapsLock := CapsLock k; NumLock := b; ScrollLock := ScrollLock k |}.
Definition set_ScrollLock (k : Key) (b : bool) : Key :=
  {| Code := Code k; Shift := Shift k; AltLeft := AltLeft k; AltRight := AltRight k; CtrlLeft := CtrlLeft k;
     CtrlRight := CtrlRight k; CapsLock := CapsLock k; NumLock := NumLock k; ScrollLock := b |}.

(** The first [switch] of [Decode]: the modifiers it leaves, and [isModifier]. *)
Definition Modify (m : Key) (prefix code : Z) (pressed : bool) : bool * Key :=
  if (code =? ToUnderlying LEFT_SHIFT) || (code =? ToUnderlying RIGHT_SHIFT) then
    (true, set_Shift m pressed)
  else if code =? ToUnderlying LEFT_ALT then
    (true, if prefix =? PREFIX_EXTENDED then set_AltRight m pressed else set_AltLeft m pressed)
  else if code =? ToUnderlying LEFT_CTRL then
    (true, if prefix =? PREFIX_EXTENDED then set_CtrlRight m pressed else set_CtrlLeft m pressed)
  else (false, m).

(** The second [switch]: a key that is not a modifier went down. *)
Definition Press {L} (SetLed : Led -> bool -> L -> L) (m key : Key) (prefix code : Z) (l : L) : Key * Key * L :=
  if code =? ToUnderlying Key.CAPS_LOCK then
    let m := set_CapsLock m (negb (CapsLock m)) in (key, m, SetLed LED_CAPS_LOCK (CapsLock m) l)
  else if code =? ToUnderlying Key.SCROLL_LOCK then
    let m := set_ScrollLock m (negb (ScrollLock m)) in (key, m, SetLed LED_SCROLL_LOCK (ScrollLock m) l)
  else if code =? ToUnderlying Key.NUM_LOCK then
    if CtrlLeft m then (with_Code key code, m, l)
    else let m := set_NumLock m (negb (NumLock m)) in (key, m, SetLed LED_NUM_LOCK (NumLock m) l)
  else if code =? ToUnderlying SLASH then
    let key := with_Code key code in
    (if prefix =? PREFIX_EXTENDED then set_Shift key false else key, m, l)
  else
    let key := with_Code key code in
    (if NumLock m && (prefix =? PREFIX_EXTENDED) then set_NumLock key false else key, m, l).

Definition Decode {L} (SetLed : Led -> bool -> L -> L) (InCode : Z) (d : t) (l : L) : Key * t * L :=
  let key := m_Modifiers d in
  if (InCode =? PREFIX_EXTENDED) || (InCode =? PREFIX_PAUSE) then
    (key, {| m_Prefix := InCode; m_Modifiers := m_Modifiers d; m_Pressed := m_Pressed d |}, l)
  else
    let pressed := Z.land InCode BREAK_BIT =? 0 in
    let code := Z.land InCode (Z.lnot BREAK_BIT) in
    if code <? ToUnderlying COUNT then
      let down := <[Z.to_nat code := pressed]> (m_Pressed d) in
      let '(isModifier, m) := Modify (m_Modifiers d) (m_Prefix d) code pressed in
      let '(key, m, l) :=
        if pressed && negb isModifier then Press SetLed m key (m_Prefix d) code l else (key, m, l) in
      (key, {| m_Prefix := 0; m_Modifiers := m; m_Pressed := down |}, l)
    else (key, {| m_Prefix := 0; m_Modifiers := m_Modifiers d; m_Pressed := m_Pressed d |}, l).

(** *** What the keyboard said

    A byte stream is a sequence of events: a key, whether the 0xe0 prefix came before it, and
    whether it went down or up.  The history of a stream keeps its events, the newest
    first, and the prefix that is pending at its end. *)

Record event := { ev_extended : bool; ev_code : Z; ev_down : bool }.

Definition is_prefix (b : Z) : bool := (b =? PREFIX_EXTENDED) || (b =? PREFIX_PAUSE).
Definition is_byte (b : Z) : Prop := 0 <= b < 256.
Definition event_of (prefix b : Z) : event :=
  {| ev_extended := prefix =? PREFIX_EXTENDED; ev_code := b mod 128; ev_down := b <? 128 |}.

Definition extend (h : Z * list event) (b : Z) : Z * list event :=
  if is_prefix b then (b, h.2)
  else (0, if b mod 128 <? ToUnderlying COUNT then event_of h.1 b :: h.2 else h.2).
Definition history (bs : list Z) : Z * list event := foldl extend (0, []) bs.

(** The state of the newest event a predicate selects: a key is down when that event is a
    press. *)
Fixpoint held (p : event -> bool) (past : list event) : bool :=
  match past with
  | [] => false
  | e :: past => if p e then ev_down e else held p past
  end.

Definition on (c : ScanCode) (e : event) : bool := ev_code e =? ToUnderlying c.
Definition is_shift (e : event) : bool := on LEFT_SHIFT e || on RIGHT_SHIFT e.
Definition on_left (c : ScanCode) (e : event) : bool := on c e && negb (ev_extended e).
Definition on_right (c : ScanCode) (e : event) : bool := on c e && ev_extended e.
Definition press (c : ScanCode) (e : event) : bool := on c e && ev_down e.

(** A lock flips with every press of its key; num lock not while the left control key is
    down, which is how the pause key arrives. *)
Definition flips (c : ScanCode) (past : list event) (e : event) : bool :=
  press c e && negb (on Key.NUM_LOCK e && held (on_left LEFT_CTRL) past).
Fixpoint locked (c : ScanCode) (past : list event) : bool :=
  match past with
  | [] => false
  | e :: past => xorb (flips c past e) (locked c past)
  end.

Definition modifiers (past : list event) : Key :=
  {| Code := 0; Shift := held is_shift past;
     AltLeft := held (on_left LEFT_ALT) past; AltRight := held (on_right LEFT_ALT) past;
     CtrlLeft := held (on_left LEFT_CTRL) past; CtrlRight := held (on_right LEFT_CTRL) past;
     CapsLock := locked Key.CAPS_LOCK past; NumLock := locked Key.NUM_LOCK past;
     ScrollLock := locked Key.SCROLL_LOCK past |}.

(** The keystroke an event reports, if it reports one: a press of a key that is neither a
    modifier nor a lock, or num lock as the pause key. *)
Definition is_modifier (e : event) : bool := is_shift e || on LEFT_ALT e || on LEFT_CTRL e.
Definition reports (past : list event) (e : event) : bool :=
  ev_down e && negb (ev_code e =? 0) && negb (is_modifier e) && negb (on Key.CAPS_LOCK e) &&
  negb (on Key.SCROLL_LOCK e) && negb (flips Key.NUM_LOCK past e).
Definition keystroke (past : list event) (e : event) : Key :=
  let m := modifiers past in
  {| Code := ev_code e; Shift := Shift m && negb (ev_extended e && on SLASH e);
     AltLeft := AltLeft m; AltRight := AltRight m; CtrlLeft := CtrlLeft m; CtrlRight := CtrlRight m;
     CapsLock := CapsLock m;
     NumLock := NumLock m && negb (ev_extended e && negb (on SLASH e) && negb (on Key.NUM_LOCK e));
     ScrollLock := ScrollLock m |}.
Fixpoint keystrokes (past : list event) : list Key :=
  match past with
  | [] => []
  | e :: past => if reports past e then keystroke past e :: keystrokes past else keystrokes past
  end.

(** The LED requests, the newest first. *)
Definition led_of (past : list event) (e : event) : list (Led * bool) :=
  if flips Key.CAPS_LOCK past e then [(LED_CAPS_LOCK, locked Key.CAPS_LOCK (e :: past))]
  else if flips Key.SCROLL_LOCK past e then [(LED_SCROLL_LOCK, locked Key.SCROLL_LOCK (e :: past))]
  else if flips Key.NUM_LOCK past e then [(LED_NUM_LOCK, locked Key.NUM_LOCK (e :: past))]
  else [].
Fixpoint led_requests (past : list event) : list (Led * bool) :=
  match past with [] => [] | e :: past => led_of past e ++ led_requests past end.

Definition represents (d : t) (h : Z * list event) : Prop :=
  m_Prefix d = h.1 /\ m_Modifiers d = modifiers h.2 /\
  m_Pressed d = (fun c => held (fun e => ev_code e =? Z.of_nat c) h.2) <$> seq 0 89.

Section Feed.
Context {L : Type} (SetLed : Led -> bool -> L -> L).

(** The stream fed byte by byte; the valid keys come out newest first. *)
Definition feed_step (s : list Key * t * L) (b : Z) : list Key * t * L :=
  let '(ks, d, l) := s in
  let '(k, d, l) := Decode SetLed b d l in (if IsValid k then k :: ks else ks, d, l).
Definition feed (bs : list Z) (l : L) : list Key * t * L := foldl feed_step ([], Fresh, l) bs.

Definition apply_leds (l : L) (rs : list (Led * bool)) : L :=
  foldr (fun r l => SetLed r.1 r.2 l) l rs.

Lemma apply_leds_app l rs qs : apply_leds l (rs ++ qs) = apply_leds (apply_leds l qs) rs.
Proof. unfold apply_leds. by rewrite foldr_app. Qed.

Lemma byte_code b : is_byte b ->
  Z.land b (Z.lnot BREAK_BIT) = b mod 128 /\ (Z.land b BREAK_BIT =? 0) = (b <? 128).
Proof.
  intros Hb. assert (Hall : forallb (fun n => let b := Z.of_nat n in
    (Z.land b (Z.lnot BREAK_BIT) =? b mod 128) && eqb (Z.land b BREAK_BIT =? 0) (b <? 128))
    (seq 0 256) = true) by (vm_compute; reflexivity).
  rewrite forallb_forall in Hall. specialize (Hall (Z.to_nat b)).
  rewrite Z2Nat.id in Hall by (unfold is_byte in *; lia).
  apply andb_true_iff in Hall as [H1 H2].
  - split; [by apply Z.eqb_eq | by apply eqb_prop].
  - apply in_seq. unfold is_byte in *. lia.
Qed.

Lemma pressed_insert (past : list event) (e : event) :
  0 <= ev_code e < 89 ->
  <[Z.to_nat (ev_code e) := ev_down e]>
    ((fun c => held (fun e => ev_code e =? Z.of_nat c) past) <$> seq 0 89) =
  (fun c => held (fun e => ev_code e =? Z.of_nat c) (e :: past)) <$> seq 0 89.
Proof.
  intros He. apply list_eq. intros i.
  destruct (decide (i = Z.to_nat (ev_code e))) as [->|Hi].
  - rewrite list_lookup_insert_eq by (rewrite length_fmap, length_seq; lia).
    rewrite list_lookup_fmap, lookup_seq_lt by lia. simpl.
    rewrite Z2Nat.id by lia. by rewrite Z.eqb_refl.
  - rewrite list_lookup_insert_ne by done. rewrite !list_lookup_fmap.
    destruct (decide (i < 89)%nat).
    + rewrite lookup_seq_lt by lia. simpl.
      by rewrite (proj2 (Z.eqb_neq _ _)) by lia.
    + by rewrite lookup_seq_ge by lia.
Qed.

(** The two switches against the history, one event at a time. *)
Definition fresh_keystroke (past : list event) (e : event) : list Key :=
  if reports past e then [keystroke past e] else [].

Lemma Modify_ok prefix past e :
  ev_extended e = (prefix =? PREFIX_EXTENDED) ->
  let '(isModifier, m) := Modify (modifiers past) prefix (ev_code e) (ev_down e) in
  isModifier = is_modifier e /\
  m = {| Code := 0; Shift := held is_shift (e :: past);
         AltLeft := held (on_left LEFT_ALT) (e :: past); AltRight := held (on_right LEFT_ALT) (e :: past);
         CtrlLeft := held (on_left LEFT_CTRL) (e :: past); CtrlRight := held (on_right LEFT_CTRL) (e :: past);
         CapsLock := locked Key.CAPS_LOCK past; NumLock := locked Key.NUM_LOCK past;
         ScrollLock := locked Key.SCROLL_LOCK past |}.
Proof.
  intros Hx. unfold Modify, is_modifier, is_shift, on_left, on_right, on. cbn [held].
  unfold is_shift, on. rewrite Hx.
  destruct (Z.eqb_spec (ev_code e) (ToUnderlying LEFT_SHIFT)) as [->|];
    [split; reflexivity|].
  destruct (Z.eqb_spec (ev_code e) (ToUnderlying RIGHT_SHIFT)) as [->|];
    [split; reflexivity|].
  destruct (Z.eqb_spec (ev_code e) (ToUnderlying LEFT_ALT)) as [->|];
    [destruct (prefix =? PREFIX_EXTENDED); split; reflexivity|].
  destruct (Z.eqb_spec (ev_code e) (ToUnderlying LEFT_CTRL)) as [_|];
    [destruct (prefix =? PREFIX_EXTENDED); split; reflexivity|].
  split; reflexivity.
Qed.

(** An event on a key that is not a modifier leaves the held modifiers as they are. *)
Lemma held_not_modifier past e : is_modifier e = false ->
  held is_shift (e :: past) = held is_shift past /\
  held (on_left LEFT_ALT) (e :: past) = held (on_left LEFT_ALT) past /\
  held (on_right LEFT_ALT) (e :: past) = held (on_right LEFT_ALT) past /\
  held (on_left LEFT_CTRL) (e :: past) = held (on_left LEFT_CTRL) past /\
  held (on_right LEFT_CTRL) (e :: past) = held (on_right LEFT_CTRL) past.
Proof.
  unfold is_modifier, on_left, on_right. intros H. apply orb_false_iff in H as [H Hc].
  apply orb_false_iff in H as [Hs Ha]. simpl. by rewrite Hs, Ha, Hc.
Qed.

Lemma modifiers_cons_plain past e : is_modifier e = false ->
  modifiers (e :: past) =
  {| Code := 0; Shift := held is_shift past;
     AltLeft := held (on_left LEFT_ALT) past; AltRight := held (on_right LEFT_ALT) past;
     CtrlLeft := held (on_left LEFT_CTRL) past; CtrlRight := held (on_right LEFT_CTRL) past;
     CapsLock := locked Key.CAPS_LOCK (e :: past); NumLock := locked Key.NUM_LOCK (e :: past);
     ScrollLock := locked Key.SCROLL_LOCK (e :: past) |}.
Proof. intros H. unfold modifiers. by destruct (held_not_modifier past e H) as (-> & -> & -> & -> & ->). Qed.

Lemma Press_ok prefix past e l :
  ev_extended e = (prefix =? PREFIX_EXTENDED) -> ev_down e = true -> is_modifier e = false ->
  0 <= ev_code e < 89 ->
  let '(k, m, l') := Press SetLed (modifiers past) (modifiers past) prefix (ev_code e) l in
  (if IsValid k then [k] else []) = fresh_keystroke past e /\
  m = modifiers (e :: past) /\ l' = apply_leds l (led_of past e).
Proof.
  intros Hx Hd Hm Hc. rewrite modifiers_cons_plain by done.
  unfold Press, fresh_keystroke, reports, led_of. rewrite Hm, Hd. cbn [locked]. unfold flips, press. rewrite Hd.
  unfold on. cbn [CtrlLeft modifiers].
  destruct (Z.eqb_spec (ev_code e) (ToUnderlying Key.CAPS_LOCK)) as [->|H1]; [by split_and!|].
  destruct (Z.eqb_spec (ev_code e) (ToUnderlying Key.SCROLL_LOCK)) as [->|H2]; [by split_and!|].
  destruct (Z.eqb_spec (ev_code e) (ToUnderlying Key.NUM_LOCK)) as [En|H3].
  { destruct (held (on_left LEFT_CTRL) past) eqn:Ec; rewrite En.
    - split_and!; [|unfold modifiers; by rewrite Ec|done]. unfold keystroke, on. rewrite En. simpl.
      by rewrite !andb_false_r, !andb_true_r.
    - split_and!; [done|unfold set_NumLock; simpl; by rewrite Ec|done]. }
  assert (Hv : IsValid (with_Code (modifiers past) (ev_code e)) = negb (ev_code e =? 0)).
  { unfold IsValid. simpl. replace (ev_code e <? 89) with true by lia. by rewrite andb_true_r. }
  unfold keystroke, on. rewrite Hx.
  destruct (Z.eqb_spec (ev_code e) (ToUnderlying SLASH)) as [Es|H4].
  - simpl. split_and!; try done. rewrite Es in *. simpl.
    destruct (prefix =? PREFIX_EXTENDED); simpl; by rewrite ?andb_false_r, ?andb_true_r.
  - replace (ev_code e =? ToUnderlying Key.NUM_LOCK) with false by (symmetry; by apply Z.eqb_neq).
    simpl. split_and!; try done.
    destruct (prefix =? PREFIX_EXTENDED); simpl; rewrite ?andb_false_r, ?andb_true_r.
    + destruct (locked Key.NUM_LOCK past) eqn:El; unfold IsValid in *; simpl in *; rewrite Hv;
        destruct (ev_code e =? 0); simpl; unfold with_Code, set_NumLock; simpl; by rewrite ?El.
    + destruct (locked Key.NUM_LOCK past) eqn:El; unfold IsValid in *; simpl in *; rewrite Hv;
        destruct (ev_code e =? 0); simpl; unfold with_Code; simpl; by rewrite ?El.
Qed.

(** One byte: the decoder follows the history, and reports the keystroke of its event. *)
Definition byte_keystroke (h : Z * list event) (b : Z) : list Key :=
  if is_prefix b || negb (b mod 128 <? ToUnderlying COUNT) then []
  else fresh_keystroke h.2 (event_of h.1 b).
Definition byte_leds (h : Z * list event) (b : Z) : list (Led * bool) :=
  if is_prefix b || negb (b mod 128 <? ToUnderlying COUNT) then [] else led_of h.2 (event_of h.1 b).

Lemma not_reported past e : ev_down e && negb (is_modifier e) = false ->
  fresh_keystroke past e = [] /\ led_of past e = [] /\
  forall c, c = Key.CAPS_LOCK \/ c = Key.SCROLL_LOCK \/ c = Key.NUM_LOCK -> flips c past e = false.
Proof.
  intros Hn.
  assert (Hf : forall c, c = Key.CAPS_LOCK \/ c = Key.SCROLL_LOCK \/ c = Key.NUM_LOCK -> flips c past e = false).
  { intros c Hc. unfold flips, press. destruct (ev_down e); simpl in Hn; [|by rewrite andb_false_r].
    apply negb_false_iff in Hn. unfold is_modifier, is_shift, on in *.
    replace (ev_code e =? ToUnderlying c) with false; [done|].
    symmetry. apply Z.eqb_neq. intros E. rewrite E in Hn. by destruct Hc as [-> | [-> | ->]]. }
  split_and!; [|unfold led_of; by rewrite !Hf by tauto|done].
  unfold fresh_keystroke, reports. destruct (ev_down e), (is_modifier e); simpl in *; try done.
  by rewrite !andb_false_r.
Qed.

Lemma Decode_ok b d h l :
  is_byte b -> represents d h ->
  let '(k, d', l') := Decode SetLed b d l in
  represents d' (extend h b) /\ (if IsValid k then [k] else []) = byte_keystroke h b /\
  l' = apply_leds l (byte_leds h b).
Proof.
  intros Hb (Hp & Hm & Hd). destruct (byte_code b Hb) as [Ec Ed].
  unfold Decode, byte_keystroke, byte_leds, represents, extend. fold (is_prefix b).
  destruct (is_prefix b); cbn [orb m_Prefix m_Modifiers m_Pressed fst snd]; [by rewrite Hm|].
  rewrite Ec, Ed, Hm. change (ToUnderlying COUNT) with 89.
  destruct (Z.ltb_spec (b mod 128) 89) as [Hc|Hc];
    cbn [orb negb m_Prefix m_Modifiers m_Pressed fst snd]; [|by rewrite ?Hm].
  set (e := event_of h.1 b).
  assert (He : 0 <= ev_code e < 89) by (unfold e, event_of; simpl; pose proof (Z.mod_pos_bound b 128); lia).
  change (b mod 128) with (ev_code e). change (b <? 128) with (ev_down e).
  assert (Hx : ev_extended e = (m_Prefix d =? PREFIX_EXTENDED)) by (by rewrite Hp).
  pose proof (Modify_ok (m_Prefix d) h.2 e Hx) as HM.
  destruct (Modify _ _ _ _) as [isModifier m]. destruct HM as [-> ->].
  destruct (ev_down e && negb (is_modifier e)) eqn:En.
  - apply andb_true_iff in En as [Hdown Hnm]. apply negb_true_iff in Hnm.
    destruct (held_not_modifier h.2 e Hnm) as (-> & -> & -> & -> & ->).
    pose proof (Press_ok (m_Prefix d) h.2 e l Hx Hdown Hnm He) as HP.
    fold (modifiers h.2). destruct (Press _ _ _ _ _ _) as [[k m] l']. destruct HP as (-> & -> & ->).
    cbn [m_Prefix m_Modifiers m_Pressed fst snd]. split_and!; try done. by rewrite Hd, pressed_insert.
  - destruct (not_reported h.2 e En) as (-> & -> & Hf).
    cbn [m_Prefix m_Modifiers m_Pressed fst snd]. split_and!; try done.
    + unfold modifiers. cbn [locked]. by rewrite !Hf by tauto.
    + by rewrite Hd, pressed_insert.
Qed.

Lemma feed_ok bs l :
  Forall is_byte bs ->
  let '(ks, d, l') := feed bs l in
  represents d (history bs) /\ ks = keystrokes (history bs).2 /\
  l' = apply_leds l (led_requests (history bs).2).
Proof.
  induction bs as [|b bs IH] using rev_ind; intros Hbs; [done|].
  apply Forall_app in Hbs as [Hbs Hb]. apply Forall_inv in Hb. specialize (IH Hbs).
  unfold feed, history in *. rewrite !foldl_app. simpl.
  destruct (foldl feed_step ([], Fresh, l) bs) as [[ks d] l1]. destruct IH as (Hr & -> & ->).
  set (h := foldl extend (0, []) bs) in *. simpl.
  pose proof (Decode_ok b d h (apply_leds l (led_requests h.2)) Hb Hr) as HD.
  destruct (Decode SetLed b d _) as [[k d'] l2]. destruct HD as (Hr' & Hk & ->). split_and!; [done|..].
  - assert (Hk' : (if IsValid k then k :: keystrokes h.2 else keystrokes h.2) =
                  (if IsValid k then [k] else []) ++ keystrokes h.2) by (by destruct (IsValid k)).
    rewrite Hk', Hk. unfold byte_keystroke, extend. destruct (is_prefix b); [done|].
    destruct (b mod 128 <? ToUnderlying COUNT); simpl; [|done]. unfold fresh_keystroke.
    by destruct (reports _ _).
  - unfold byte_leds, extend. destruct (is_prefix b); [done|].
    destruct (b mod 128 <? ToUnderlying COUNT); simpl; [|done]. by rewrite apply_leds_app.
Qed.

End Feed.

(** C29: The decoder tracks the keyboard exactly, for every byte stream from power-on: the
    valid keys it returns are the keystrokes of the stream's events in order, each with
    the modifiers held and the locks set at that moment; a key counts as pressed exactly
    when its newest event was a press; the modifiers and locks it keeps are those of the
    history; and the LED requests are one per lock that flipped, with its new state. *)
Theorem decoder_follows_keyboard {L} (SetLed : Led -> bool -> L -> L) (bs : list Z) (l : L) :
  Forall is_byte bs ->
  let '(keys, d, l') := feed SetLed bs l in
  keys = keystrokes (history bs).2 /\
  (forall c, 0 <= c < ToUnderlying COUNT ->
     IsPressed d c = held (fun e => ev_code e =? c) (history bs).2) /\
  m_Modifiers d = modifiers (history bs).2 /\
  l' = apply_leds SetLed l (led_requests (history bs).2).
Proof.
  intros Hbs. pose proof (feed_ok SetLed bs l Hbs) as H.
  destruct (feed SetLed bs l) as [[ks d] l']. destruct H as ((_ & Hm & Hd) & -> & ->).
  split_and!; try done. intros c Hc. simpl in Hc. unfold IsPressed. simpl.
  replace (c <? 89) with true by lia. rewrite Hd, list_lookup_fmap, lookup_seq_lt by lia. simpl.
  by rewrite Z2Nat.id by lia.
Qed.

(** Caps lock, then the prefixed (right) control key, then A. *)
Lemma decoder_follows_keyboard_witness :
  let bs := [0x3a; 0xba; 0xe0; 0x1d; 0x1e] in
  Forall is_byte bs /\
  (let '(keys, d, l') := feed (fun led on l => (led, on) :: l) bs [] in
   (fun k => (Code k, CtrlRight k, CtrlLeft k, Ascii k)) <$> keys = [(30, true, false, 65)] /\
   keys = keystrokes (history bs).2 /\
   (forall c, 0 <= c < ToUnderlying COUNT ->
      IsPressed d c = held (fun e => ev_code e =? c) (history bs).2) /\
   m_Modifiers d = modifiers (history bs).2 /\
   l' = apply_leds (fun led on l => (led, on) :: l) [] (led_requests (history bs).2)).
Proof.
  assert (H : Forall is_byte [0x3a; 0xba; 0xe0; 0x1d; 0x1e]) by (repeat constructor; unfold is_byte; lia).
  pose proof (decoder_follows_keyboard (fun led on l => (led, on) :: l) _ [] H) as T.
  split; [exact H|]. split; [vm_compute; reflexivity|exact T].
Defined.

(** The scan code table has no entry for the unused code 0x55, so everything behind
    it is off by one: in scan code set 1 the key F11 sends 0x57 and F12 sends 0x58. *)
Lemma function_keys_off_by_one :
  let '(f11, _, _) := Decode (fun _ _ l => l) 0x57 Fresh tt in
  let '(f12, _, _) := Decode (fun _ _ l => l) 0x58 Fresh tt in
  Code f11 = ToUnderlying F12 /\ Code f12 = ToUnderlying KP_EQUAL /\ Ascii f12 = ch "=".
Proof. vm_compute. by split_and!. Qed.

(** With num lock on, keyboards wrap a cursor key into the fake shift 0xe0 0x2a; the
    decoder takes it for a real one, and cursor up types an 8. *)
Lemma fake_shift_types_digit :
  let '(keys, _, _) := feed (fun _ _ l => l) [0x45; 0xc5; 0xe0; 0x2a; 0xe0; 0x48] tt in
  Ascii <$> keys = [ch "8"].
Proof. vm_compute. reflexivity. Qed.

End KeyDecoder.
