(* ===== verification/IoApic.v ===== *)
(** * Arch/IoApic.cpp and Arch/IoApicRegisters.h: the interrupt router

    The redirection table is reached through a select and a window register.  What the
    driver relies on of the chip is the class [IoApicDevice]: the selected register is
    read and written through the window, and a write sticks on the bits the data sheet
    calls writable.  Against it the driver refines a table of routes. *)

From S2P Require Import Prelude Device.
Import FieldMore.

Module IoApic.

(** The values of the enum classes of IoApicRegisters.h. *)
Definition IDENTIFICATION : Z := 0x00.
Definition VERSION : Z := 0x01.
Definition REDIRECTION_TABLE : Z := 0x10.
Inductive DeliveryMode := FIXED | LOWEST_PRIORITY | SMI | NMI | INIT | EXTERNAL.
Definition DeliveryValue (m : DeliveryMode) : Z :=
  match m with FIXED => 0 | LOWEST_PRIORITY => 1 | SMI => 2 | NMI => 4 | INIT => 5 | EXTERNAL => 7 end.
Inductive DestinationMode := PHYSICAL | LOGICAL.
Definition DestinationValue (m : DestinationMode) : Z := match m with PHYSICAL => 0 | LOGICAL => 1 end.
Inductive Polarity := HIGH | LOW.
Definition PolarityValue (p : Polarity) : Z := match p with HIGH => 0 | LOW => 1 end.
Inductive TriggerMode := EDGE | LEVEL.
Definition TriggerValue (t : TriggerMode) : Z := match t with EDGE => 0 | LEVEL => 1 end.
Inductive InterruptMask := UNMASKED | MASKED.
Definition MaskValue (m : InterruptMask) : Z := match m with UNMASKED => 0 | MASKED => 1 end.

(** [union Identification] and [union RedirectionTableEntry]: a field is its first bit
    and its width; the entry is the 64-bit value of both halves. *)
Definition set_Id (x v : Z) : Z := Field.set 24 4 x v.

Definition RedirectionTableEntry (InLow InHigh : Z) : Z := join InLow InHigh.
Definition ValueLow (e : Z) : Z := Field.get 0 32 e.
Definition ValueHigh (e : Z) : Z := Field.get 32 32 e.
Definition set_Vector (x e : Z) : Z := Field.set 0 8 x e.
Definition set_Delivery (x : DeliveryMode) (e : Z) : Z := Field.set 8 3 (DeliveryValue x) e.
Definition set_Destination (x : DestinationMode) (e : Z) : Z := Field.set 11 1 (DestinationValue x) e.
Definition set_Polarity (x : Polarity) (e : Z) : Z := Field.set 13 1 (PolarityValue x) e.
Definition set_Trigger (x : TriggerMode) (e : Z) : Z := Field.set 15 1 (TriggerValue x) e.
Definition set_Mask (x : InterruptMask) (e : Z) : Z := Field.set 16 1 (MaskValue x) e.
Definition set_DestinationId (x e : Z) : Z := Field.set 56 8 x e.
Definition get_Mask (e : Z) : Z := Field.get 16 1 e.

Definition PIN_COUNT : Z := 24.

(** The two static pointers. *)
Record regs := { s_RegisterSelect : Z; s_RegisterWindow : Z }.

Section Driver.
Context {D : Type} {HW : Hardware D}.
Variable r : regs.

Definition ReadRegister (InIndex : Z) : M D Z :=
  mmio_store (s_RegisterSelect r) InIndex ;;; mmio_load (s_RegisterWindow r).

Definition WriteRegister (InIndex InValue : Z) : M D unit :=
  mmio_store (s_RegisterSelect r) InIndex ;;; mmio_store (s_RegisterWindow r) InValue.

(** The language leaves the order of the two reads open; the low half comes first here. *)
Definition ReadEntry (InPin : Z) : M D Z :=
  let low := u32 (REDIRECTION_TABLE + 2 * InPin) in
  l <- ReadRegister low ;; h <- ReadRegister (u32 (low + 1)) ;; dret (RedirectionTableEntry l h).

Definition WriteEntry (InPin InEntry : Z) : M D unit :=
  let low := u32 (REDIRECTION_TABLE + 2 * InPin) in
  WriteRegister (u32 (low + 1)) (ValueHigh InEntry) ;;; WriteRegister low (ValueLow InEntry).

Definition InitialEntry (allCores : Z) : Z :=
  set_DestinationId allCores (set_Mask MASKED (set_Trigger EDGE (set_Destination LOGICAL
    (set_Delivery LOWEST_PRIORITY (set_Vector (VectorNumber PANIC) (RedirectionTableEntry 0 0)))))).

(** The loop of [Initialize], from [pin] on, with the pins that are left. *)
Fixpoint Initialize_loop (left_ : nat) (pin allCores : Z) : M D unit :=
  match left_ with
  | O => dret tt
  | S k => WriteEntry pin (InitialEntry allCores) ;;; Initialize_loop k (u8 (pin + 1)) allCores
  end.

(** [Initialize] once the pointers are set; [id] is [Apic::GetIoApicId()] and [count]
    [Cpu::Count()]. *)
Definition Initialize (id count : Z) : M D unit :=
  identification <- ReadRegister IDENTIFICATION ;;
  WriteRegister IDENTIFICATION (set_Id id identification) ;;;
  Initialize_loop (Z.to_nat PIN_COUNT) 0 ((1 <<64 count) -64 1).

Definition Configure (InPin InVector : Z) (InTriggerMode : TriggerMode) (InPolarity : Polarity) : M D unit :=
  if PIN_COUNT <=? InPin then dret tt
  else
    entry <- ReadEntry InPin ;;
    WriteEntry InPin (set_Polarity InPolarity (set_Trigger InTriggerMode (set_Vector InVector entry))).

Definition Allow (InPin : Z) : M D unit :=
  if PIN_COUNT <=? InPin then dret tt
  else entry <- ReadEntry InPin ;; WriteEntry InPin (set_Mask UNMASKED entry).

Definition Forbid (InPin : Z) : M D unit :=
  if PIN_COUNT <=? InPin then dret tt
  else entry <- ReadEntry InPin ;; WriteEntry InPin (set_Mask MASKED entry).

Definition IsAllowed (InPin : Z) : M D bool :=
  if InPin <? PIN_COUNT then
    entry <- ReadEntry InPin ;; dret (get_Mask entry =? MaskValue UNMASKED)
  else dret false.

End Driver.

(** [Initialize] sets the pointers from [Apic::GetIoApicAddress()]. *)
Definition pointers (base : Z) : regs :=
  {| s_RegisterSelect := base; s_RegisterWindow := base +64 0x10 |}.

(** ** The chip

    [writable i] has the bits of register [i] that a write sets: not the delivery status
    and the remote IRR of an entry, and not the reserved bits. *)

Definition writable (i : Z) : Z :=
  if i =? IDENTIFICATION then 0x0f000000
  else if (i <? REDIRECTION_TABLE) || (REDIRECTION_TABLE + 2 * PIN_COUNT <=? i) then 0
  else if Z.even i then 0x1afff else 0xff000000.

Definition agree (i a b : Z) : Prop := Z.land a (writable i) = Z.land b (writable i).

Class IoApicDevice (D : Type) {HW : Hardware D} (base : Z) := {
  selected : D -> Z;
  register : D -> Z -> Z;
  register_word d i : is_word 32 (register d i);
  select_selects i d : 0 <= i < 256 -> selected (mmio_write base i d) = i;
  select_keeps i d j : agree j (register (mmio_write base i d) j) (register d j);
  window_reads d : (mmio_read (base +64 0x10) d).1 = register d (selected d);
  window_read_keeps d j : agree j (register (mmio_read (base +64 0x10) d).2 j) (register d j);
  window_writes v d j : is_word 32 v ->
    agree j (register (mmio_write (base +64 0x10) v d) j) (if j =? selected d then v else register d j) }.

(** ** The table of routes the driver maintains *)

Record route := {
  vector : Z; delivery : Z; destination_mode : Z; polarity : Z; trigger : Z; mask : Z;
  destination : Z }.

Definition route_of (e : Z) : route :=
  {| vector := Field.get 0 8 e; delivery := Field.get 8 3 e; destination_mode := Field.get 11 1 e;
     polarity := Field.get 13 1 e; trigger := Field.get 15 1 e; mask := Field.get 16 1 e;
     destination := Field.get 56 8 e |}.

Inductive op :=
| OConfigure (pin : Z) (v : Z) (t : TriggerMode) (p : Polarity)
| OAllow (pin : Z)
| OForbid (pin : Z).

Definition op_pin (o : op) : Z := match o with OConfigure p _ _ _ | OAllow p | OForbid p => p end.

Definition exec {D} {HW : Hardware D} (r : regs) (o : op) : M D unit :=
  match o with
  | OConfigure pin v t p => Configure r pin v t p
  | OAllow pin => Allow r pin
  | OForbid pin => Forbid r pin
  end.

Fixpoint exec_all {D} {HW : Hardware D} (r : regs) (os : list op) : M D unit :=
  match os with [] => dret tt | o :: os => exec r o ;;; exec_all r os end.

Definition with_mask (x : route) (m : InterruptMask) : route :=
  {| vector := vector x; delivery := delivery x; destination_mode := destination_mode x;
     polarity := polarity x; trigger := trigger x; mask := MaskValue m; destination := destination x |}.

Definition apply_op (o : op) (x : route) : route :=
  match o with
  | OConfigure _ v t p =>
      {| vector := u8 v; delivery := delivery x; destination_mode := destination_mode x;
         polarity := PolarityValue p; trigger := TriggerValue t; mask := mask x;
         destination := destination x |}
  | OAllow _ => with_mask x UNMASKED
  | OForbid _ => with_mask x MASKED
  end.

(** The route of one pin after a sequence of operations. *)
Definition routed (pin : Z) (x : route) (os : list op) : route :=
  foldl (fun x o => if op_pin o =? pin then apply_op o x else x) x os.

(** Every core may take it, nothing fires, and a stray one lands in the panic handler. *)
Definition parked (count : Z) : route :=
  {| vector := VectorNumber PANIC; delivery := DeliveryValue LOWEST_PRIORITY;
     destination_mode := DestinationValue LOGICAL; polarity := PolarityValue HIGH;
     trigger := TriggerValue EDGE; mask := MaskValue MASKED; destination := 2 ^ count - 1 |}.

Section Refinement.
Context {D : Type} {HW : Hardware D} {base : Z} {CH : IoApicDevice D base}.

Abbreviation r := (pointers base).
Definition low_of (pin : Z) : Z := REDIRECTION_TABLE + 2 * pin.
Definition routes (d : D) (pin : Z) : route :=
  route_of (join (register d (low_of pin)) (register d (low_of pin + 1))).
Definition same (d d' : D) : Prop := forall j, agree j (register d' j) (register d j).

(** An entry read from its two registers. *)
Lemma route_of_join l h : is_word 32 l ->
  route_of (join l h) =
  {| vector := Field.get 0 8 l; delivery := Field.get 8 3 l; destination_mode := Field.get 11 1 l;
     polarity := Field.get 13 1 l; trigger := Field.get 15 1 l; mask := Field.get 16 1 l;
     destination := Field.get 24 8 h |}.
Proof.
  intros Hl. unfold route_of. rewrite (get_join_high 56 8) by (done || lia).
  by rewrite !get_join_low by lia.
Qed.

Lemma route_of_agree l h l' h' : is_word 32 l -> is_word 32 l' ->
  Z.land l 0x1afff = Z.land l' 0x1afff -> Z.land h 0xff000000 = Z.land h' 0xff000000 ->
  route_of (join l h) = route_of (join l' h').
Proof.
  intros Hl Hl' E1 E2. rewrite !route_of_join by done.
  assert (Hlow : forall lo n, 0 <= lo -> 0 <= n -> covers 0x1afff lo n = true ->
    Field.get lo n l = Field.get lo n l').
  { intros lo n ? ? Hc. rewrite <- (get_land 0x1afff lo n l), E1, get_land; done. }
  assert (Hhigh : Field.get 24 8 h = Field.get 24 8 h').
  { rewrite <- (get_land 0xff000000 24 8 h), E2, get_land; done. }
  rewrite (Hlow 0 8), (Hlow 8 3), (Hlow 11 1), (Hlow 13 1), (Hlow 15 1), (Hlow 16 1) by (done || lia).
  by rewrite Hhigh.
Qed.

Lemma writable_entry pin : 0 <= pin < PIN_COUNT ->
  writable (low_of pin) = 0x1afff /\ writable (low_of pin + 1) = 0xff000000.
Proof.
  unfold PIN_COUNT, writable, low_of, IDENTIFICATION, REDIRECTION_TABLE, PIN_COUNT. intros Hp.
  replace (16 + 2 * pin =? 0) with false by lia. replace (16 + 2 * pin + 1 =? 0) with false by lia.
  replace (16 + 2 * pin <? 16) with false by lia. replace (16 + 2 * 24 <=? 16 + 2 * pin) with false by lia.
  replace (16 + 2 * pin + 1 <? 16) with false by lia.
  replace (16 + 2 * 24 <=? 16 + 2 * pin + 1) with false by lia.
  replace (16 + 2 * pin) with (2 * (8 + pin)) by lia. rewrite Z.even_mul.
  replace (2 * (8 + pin) + 1) with (Z.succ (2 * (8 + pin))) by lia.
  rewrite Z.even_succ, <- Z.negb_even, Z.even_mul. done.
Qed.

Lemma same_refl d : same d d.
Proof. intros j. done. Qed.
Lemma same_trans d d' d'' : same d d' -> same d' d'' -> same d d''.
Proof. intros H H' j. unfold same, agree in *. by rewrite H', H. Qed.

Lemma same_routes d d' pin : same d d' -> 0 <= pin < PIN_COUNT -> routes d' pin = routes d pin.
Proof.
  intros Hs Hp. destruct (writable_entry pin Hp) as [W1 W2].
  pose proof (Hs (low_of pin)) as H1. pose proof (Hs (low_of pin + 1)) as H2.
  unfold agree in *. rewrite W1 in H1. rewrite W2 in H2.
  apply route_of_agree; eauto using register_word.
Qed.

Lemma ReadRegister_ok i d : 0 <= i < 256 ->
  exists d', ReadRegister r i d = Ok (register (mmio_write base i d) i, d') /\ same d d'.
Proof.
  intros Hi. unfold ReadRegister, dbind, mmio_store, mmio_load. simpl.
  rewrite (wrap_small 32 i) by (unfold is_word; lia). rewrite (surjective_pairing (mmio_read _ _)), window_reads.
  rewrite select_selects by done. eexists. split; [reflexivity|].
  intros j. unfold agree. rewrite window_read_keeps. apply select_keeps.
Qed.

Lemma WriteRegister_ok i v d : 0 <= i < 256 -> is_word 32 v ->
  exists d', WriteRegister r i v d = Ok (tt, d') /\
    forall j, agree j (register d' j) (if j =? i then v else register d j).
Proof.
  intros Hi Hv. unfold WriteRegister, dbind, mmio_store. simpl.
  rewrite (wrap_small 32 i), (wrap_small 32 v) by (done || (unfold is_word; lia)).
  eexists. split; [reflexivity|]. intros j. unfold agree. rewrite window_writes by done. rewrite select_selects by done.
  destruct (j =? i); [done|]. apply select_keeps.
Qed.

Lemma low_of_wrap pin : 0 <= pin < PIN_COUNT ->
  u32 (REDIRECTION_TABLE + 2 * pin) = low_of pin /\ 0 <= low_of pin < 255 /\
  u32 (low_of pin + 1) = low_of pin + 1.
Proof.
  unfold PIN_COUNT, low_of, REDIRECTION_TABLE. intros Hp.
  split_and!; try (apply wrap_small; unfold is_word); lia.
Qed.

Lemma ReadEntry_ok pin d : 0 <= pin < PIN_COUNT ->
  exists e d', ReadEntry r pin d = Ok (e, d') /\ route_of e = routes d pin /\ same d d'.
Proof.
  intros Hp. destruct (low_of_wrap pin Hp) as (E1 & Hb & E2). destruct (writable_entry pin Hp) as [W1 W2].
  unfold ReadEntry. rewrite E1, E2.
  destruct (ReadRegister_ok (low_of pin) d) as (d1 & R1 & S1); [lia|].
  destruct (ReadRegister_ok (low_of pin + 1) d1) as (d2 & R2 & S2); [lia|].
  unfold dbind. rewrite R1. cbn [obind]. rewrite R2. cbn [obind]. eexists _, d2. split; [reflexivity|].
  split; [|by eapply same_trans]. apply route_of_agree; try apply register_word.
  - rewrite <- W1. apply select_keeps.
  - rewrite <- W2. unfold same, agree in S1. rewrite <- S1. apply select_keeps.
Qed.

Lemma WriteEntry_ok pin e d : 0 <= pin < PIN_COUNT ->
  exists d', WriteEntry r pin e d = Ok (tt, d') /\ routes d' pin = route_of e /\
    forall q, 0 <= q < PIN_COUNT -> q <> pin -> routes d' q = routes d q.
Proof.
  intros Hp. destruct (low_of_wrap pin Hp) as (E1 & Hb & E2). destruct (writable_entry pin Hp) as [W1 W2].
  unfold WriteEntry. rewrite E1, E2.
  destruct (WriteRegister_ok (low_of pin + 1) (ValueHigh e) d) as (d1 & R1 & S1); [lia|by apply Field.get_word|].
  destruct (WriteRegister_ok (low_of pin) (ValueLow e) d1) as (d2 & R2 & S2); [lia|by apply Field.get_word|].
  unfold dbind. rewrite R1. cbn [obind]. rewrite R2. exists d2. split; [reflexivity|]. split.
  - pose proof (S2 (low_of pin)) as H1. pose proof (S2 (low_of pin + 1)) as H2.
    pose proof (S1 (low_of pin + 1)) as H3. unfold agree in *.
    rewrite Z.eqb_refl in *. replace (low_of pin + 1 =? low_of pin) with false in H2 by lia.
    rewrite H3 in H2. rewrite W1 in H1. rewrite W2 in H2. unfold routes.
    rewrite (route_of_agree _ _ (ValueLow e) (ValueHigh e)); try done;
      [|apply register_word|by apply Field.get_word].
    rewrite route_of_join by (by apply Field.get_word). unfold route_of, ValueLow, ValueHigh.
    by rewrite !get_get by lia.
  - intros q Hq Hne. destruct (writable_entry q Hq) as [V1 V2].
    pose proof (S2 (low_of q)) as H1. pose proof (S2 (low_of q + 1)) as H2.
    pose proof (S1 (low_of q)) as H3. pose proof (S1 (low_of q + 1)) as H4. unfold agree, low_of in *.
    rewrite (proj2 (Z.eqb_neq _ _)) in H1 by lia. rewrite (proj2 (Z.eqb_neq _ _)) in H2 by lia.
    rewrite (proj2 (Z.eqb_neq _ _)) in H3 by lia. rewrite (proj2 (Z.eqb_neq _ _)) in H4 by lia.
    rewrite H3 in H1. rewrite H4 in H2. rewrite V1 in H1. rewrite V2 in H2.
    apply route_of_agree; eauto using register_word.
Qed.

(** What one operation does to one entry. *)
Lemma exec_routes o d : 0 <= op_pin o ->
  exists d', exec r o d = Ok (tt, d') /\
    forall q, 0 <= q < PIN_COUNT -> routes d' q = if op_pin o =? q then apply_op o (routes d q) else routes d q.
Proof.
  intros Ho.
  assert (Hrmw : forall f pin, 0 <= pin -> op_pin o = pin -> (forall e, route_of (f e) = apply_op o (route_of e)) ->
    exists d', (if PIN_COUNT <=? pin then dret tt else entry <- ReadEntry r pin ;; WriteEntry r pin (f entry)) d
      = Ok (tt, d') /\
    forall q, 0 <= q < PIN_COUNT -> routes d' q = if op_pin o =? q then apply_op o (routes d q) else routes d q).
  { intros f pin Hpin Eo Hf. rewrite Eo. destruct (Z.leb_spec PIN_COUNT pin).
    - exists d. split; [done|]. intros q Hq. by rewrite (proj2 (Z.eqb_neq _ _)) by lia.
    - destruct (ReadEntry_ok pin d) as (e & d1 & R1 & He & S1); [lia|].
      destruct (WriteEntry_ok pin (f e) d1) as (d2 & R2 & E2 & O2); [lia|].
      exists d2. unfold dbind. rewrite R1. cbn [obind]. split; [done|]. intros q Hq.
      destruct (Z.eqb_spec pin q) as [<-|Hne]; [by rewrite E2, Hf, He|].
      rewrite O2 by (done || lia). by apply same_routes. }
  destruct o as [pin v t p|pin|pin]; simpl in Ho |- *.
  - apply (Hrmw (fun e => set_Polarity p (set_Trigger t (set_Vector v e))) pin Ho eq_refl).
    intros e. unfold route_of, apply_op, set_Polarity, set_Trigger, set_Vector. simpl. fields.
    by destruct t, p.
  - apply (Hrmw (set_Mask UNMASKED) pin Ho eq_refl). intros e. unfold route_of, set_Mask. simpl. fields. done.
  - apply (Hrmw (set_Mask MASKED) pin Ho eq_refl). intros e. unfold route_of, set_Mask. simpl. fields. done.
Qed.

Lemma exec_all_ok os d : Forall (fun o => 0 <= op_pin o) os ->
  exists d', exec_all r os d = Ok (tt, d') /\
    forall q, 0 <= q < PIN_COUNT -> routes d' q = routed q (routes d q) os.
Proof.
  revert d. induction os as [|o os IH]; intros d Hos; [by exists d|].
  apply Forall_cons in Hos as [Ho Hos]. destruct (exec_routes o d Ho) as (d1 & R1 & H1).
  destruct (IH d1 Hos) as (d2 & R2 & H2). exists d2. simpl. unfold dbind. rewrite R1. cbn [obind].
  split; [done|]. intros q Hq. by rewrite H2, H1.
Qed.

Lemma route_of_initial count : 0 <= count <= 8 ->
  route_of (InitialEntry ((1 <<64 count) -64 1)) = parked count.
Proof.
  intros Hc. assert (Hall : forallb (fun n => bool_decide (2 ^ Z.of_nat n - 1 =
    Field.get 56 8 (InitialEntry ((1 <<64 Z.of_nat n) -64 1)))) (seq 0 9) = true) by (vm_compute; reflexivity).
  rewrite forallb_forall in Hall. specialize (Hall (Z.to_nat count)).
  assert (E : 2 ^ count - 1 = Field.get 56 8 (InitialEntry ((1 <<64 count) -64 1))).
  { rewrite Z2Nat.id in Hall by lia. eapply bool_decide_eq_true, Hall. apply in_seq. lia. }
  unfold route_of, parked. rewrite E. f_equal;
    unfold InitialEntry, set_DestinationId, set_Mask, set_Trigger, set_Destination, set_Delivery, set_Vector;
    fields; done.
Qed.

Lemma Initialize_loop_ok count n pin d : 0 <= count <= 8 -> 0 <= pin -> pin + Z.of_nat n = PIN_COUNT ->
  exists d', Initialize_loop r n pin ((1 <<64 count) -64 1) d = Ok (tt, d') /\
    forall q, 0 <= q < PIN_COUNT -> routes d' q = if pin <=? q then parked count else routes d q.
Proof.
  intros Hc. revert pin d. induction n as [|n IH]; intros pin d Hp Hn.
  - exists d. split; [done|]. intros q Hq. by replace (pin <=? q) with false by lia.
  - destruct (WriteEntry_ok pin (InitialEntry ((1 <<64 count) -64 1)) d) as (d1 & R1 & E1 & O1); [lia|].
    destruct (IH (pin + 1) d1) as (d2 & R2 & H2); [lia..|]. exists d2. cbn [Initialize_loop]. unfold dbind.
    rewrite R1. cbn [obind]. rewrite (wrap_small 8) by (unfold is_word, PIN_COUNT in *; lia).
    split; [done|]. intros q Hq. rewrite H2 by done.
    destruct (Z.leb_spec (pin + 1) q), (Z.leb_spec pin q); try lia; try done.
    + replace q with pin by lia. by rewrite E1, route_of_initial.
    + apply O1; lia.
Qed.

Lemma Initialize_routes id count d : 0 <= count <= 8 ->
  exists d', Initialize r id count d = Ok (tt, d') /\
    forall q, 0 <= q < PIN_COUNT -> routes d' q = parked count.
Proof.
  intros Hc. destruct (ReadRegister_ok IDENTIFICATION d) as (d1 & R1 & _); [done|].
  set (v := register (mmio_write base IDENTIFICATION d) IDENTIFICATION) in *.
  destruct (WriteRegister_ok IDENTIFICATION (set_Id id v) d1) as (d2 & R2 & _); [done| |].
  { apply Field.set_word; try lia. apply register_word. }
  destruct (Initialize_loop_ok count (Z.to_nat PIN_COUNT) 0 d2) as (d3 & R3 & H3); [done..|].
  exists d3. unfold Initialize, dbind. rewrite R1. cbn [obind]. rewrite R2. cbn [obind].
  split; [done|]. intros q Hq. rewrite H3 by done. by replace (0 <=? q) with true by lia.
Qed.

Lemma IsAllowed_ok pin d : 0 <= pin < PIN_COUNT ->
  exists d', IsAllowed r pin d = Ok (mask (routes d pin) =? MaskValue UNMASKED, d') /\ same d d'.
Proof.
  intros Hp. unfold IsAllowed. replace (pin <? PIN_COUNT) with true by lia.
  destruct (ReadEntry_ok pin d) as (e & d' & R & He & S); [done|]. exists d'.
  unfold dbind. rewrite R. cbn [obind]. split; [|done]. by rewrite <- He.
Qed.

(** C32: The I/O APIC driver maintains a routing table.  Against any chip that behaves as
    its data sheet says, on a machine with up to eight cores: [Initialize] followed by
    any sequence of [Configure], [Allow] and [Forbid] returns, and leaves every pin with
    the route the sequence asks for, starting from a masked entry that points at the
    panic vector and names every core; operations on one pin never touch another, and
    pins beyond the table are ignored.  [IsAllowed] answers from that table and changes
    no route. *)
Theorem ioapic_refines_routing_table id count os d :
  0 <= count <= 8 -> Forall (fun o => 0 <= op_pin o) os ->
  exists d', (Initialize r id count ;;; exec_all r os) d = Ok (tt, d') /\
    forall q, 0 <= q < PIN_COUNT ->
      routes d' q = routed q (parked count) os /\
      exists d'', IsAllowed r q d' = Ok (mask (routed q (parked count) os) =? MaskValue UNMASKED, d'') /\
        forall p, 0 <= p < PIN_COUNT -> routes d'' p = routes d' p.
Proof.
  intros Hc Hos. destruct (Initialize_routes id count d Hc) as (d1 & R1 & H1).
  destruct (exec_all_ok os d1 Hos) as (d2 & R2 & H2). exists d2. unfold dbind. rewrite R1.
  split; [done|]. intros q Hq. rewrite H2, H1 by done. split; [done|].
  destruct (IsAllowed_ok q d2 Hq) as (d3 & R3 & S3). exists d3. rewrite R3, H2, H1 by done.
  split; [done|]. intros p Hp. by apply same_routes.
Qed.

End Refinement.

(** A chip: the select register and the register file, writable bits only. *)
Record chip := { sel : Z; file : Z -> Z }.
Definition chip_base : Z := 0xfec00000.

#[export] Instance chip_hardware : Hardware chip := {
  port_in w p d := (0, d);
  port_out w p v d := d;
  mmio_read a d := (if a =? chip_base + 16 then wrap 32 (file d (sel d)) else 0, d);
  mmio_write a v d :=
    if a =? chip_base then {| sel := v; file := file d |}
    else if a =? chip_base + 16 then {| sel := sel d; file := upd (file d) (sel d) (Z.land v (writable (sel d))) |}
    else d }.

Lemma chip_window_writes (v : Z) (d : chip) (j : Z) : is_word 32 v ->
  agree j (wrap 32 (file (mmio_write (chip_base +64 16) v d) j))
          (if j =? sel d then v else wrap 32 (file d j)).
Proof.
  intros Hv. unfold mmio_write, chip_hardware.
  replace (chip_base +64 16 =? chip_base) with false by reflexivity.
  replace (chip_base +64 16 =? chip_base + 16) with true by reflexivity. cbn [file].
  unfold upd, agree. destruct (Z.eqb_spec j (sel d)) as [->|]; [|done].
  apply Z.bits_inj'. intros i Hi. rewrite !Z.land_spec, testbit_wrap, Z.land_spec by lia.
  destruct (Z.ltb_spec i 32); simpl; [btauto|]. by rewrite (testbit_above 32 v) by (done || lia).
Qed.

#[export] Instance chip_is_ioapic : IoApicDevice chip chip_base.
Proof.
  apply (Build_IoApicDevice chip _ chip_base sel (fun d i => wrap 32 (file d i))).
  - intros d i. apply wrap_range. lia.
  - intros i d _. reflexivity.
  - intros i d j. reflexivity.
  - intros d. reflexivity.
  - intros d j. done.
  - exact chip_window_writes.
Defined.

(** The keyboard routed to pin 1 and allowed; a pin beyond the table is ignored. *)
Definition demo_ops : list op := [OConfigure 1 0x21 LEVEL HIGH; OAllow 1; OForbid 2; OAllow 30].

Lemma ioapic_refines_routing_table_witness :
  (0 <= 4 <= 8 /\ Forall (fun o => 0 <= op_pin o) demo_ops) /\
  exists d', (Initialize (pointers chip_base) 0 4 ;;; exec_all (pointers chip_base) demo_ops)
               {| sel := 0; file := fun _ => 0 |} = Ok (tt, d') /\
    forall q, 0 <= q < PIN_COUNT ->
      routes d' q = routed q (parked 4) demo_ops /\
      exists d'', IsAllowed (pointers chip_base) q d' =
          Ok (mask (routed q (parked 4) demo_ops) =? MaskValue UNMASKED, d'') /\
        forall p, 0 <= p < PIN_COUNT -> routes d'' p = routes d' p.
Proof.
  assert (H : Forall (fun o => 0 <= op_pin o) demo_ops) by (repeat constructor; simpl; lia).
  split; [split; [lia|exact H]|].
  apply (ioapic_refines_routing_table (CH := chip_is_ioapic)); [lia|exact H].
Defined.

End IoApic.
