(* ===== verification/Pit.v ===== *)
(** * Arch/Pit.cpp: the interval timer

    Sequences of port accesses; [patience] bounds the polls of the one loop that has no
    bound of its own. *)

From S2P Require Import Prelude Device.

Module Pit.

Definition CHANNEL : Z := 2.
Definition BASE_FREQUENCY : Z := 1193182.
Definition s_Data : Z := 0x40 + CHANNEL.
Definition s_ModeRegister : Z := 0x43.
Definition s_ControlRegister : Z := 0x61.

Inductive AccessMode := LATCH_COUNT | LOW_BYTE | HIGH_BYTE | LOW_AND_HIGH_BYTE.
Definition AccessValue (a : AccessMode) : Z :=
  match a with LATCH_COUNT => 0 | LOW_BYTE => 1 | HIGH_BYTE => 2 | LOW_AND_HIGH_BYTE => 3 end.
Inductive OperatingMode :=
| INTERRUPT_ON_TERMINAL_COUNT | PROGRAMMABLE_ONE_SHOT | RATE_GENERATOR | SQUARE_WAVE_GENERATOR
| SOFTWARE_TRIGGERED_STROBE | HARDWARE_TRIGGERED_STROBE.
Definition OperatingValue (o : OperatingMode) : Z :=
  match o with
  | INTERRUPT_ON_TERMINAL_COUNT => 0 | PROGRAMMABLE_ONE_SHOT => 1 | RATE_GENERATOR => 2
  | SQUARE_WAVE_GENERATOR => 3 | SOFTWARE_TRIGGERED_STROBE => 4 | HARDWARE_TRIGGERED_STROBE => 5
  end.
Inductive Format := BINARY | BCD.
Definition FormatValue (f : Format) : Z := match f with BINARY => 0 | BCD => 1 end.

(** [union Mode]: its two constructors. *)
Definition Mode (a : AccessMode) (o : OperatingMode) (f : Format) : Z :=
  Field.set 6 2 CHANNEL (Field.set 4 2 (AccessValue a) (Field.set 1 3 (OperatingValue o)
    (Field.set 0 1 (FormatValue f) 0))).
Definition LatchMode : Z := Field.set 6 2 CHANNEL 0.

(** Fields of [union Control]. *)
Definition EnableTimerCounter2 (v : Z) : Z := Field.get 0 1 v.
Definition EnableSpeakerData (v : Z) : Z := Field.get 1 1 v.
Definition StatusTimerCounter2 (v : Z) : Z := Field.get 5 1 v.
Definition set_EnableTimerCounter2 (x v : Z) : Z := Field.set 0 1 x v.
Definition set_EnableSpeakerData (x v : Z) : Z := Field.set 1 1 x v.

Section Driver.
Context {D : Type} {HW : Hardware D}.

Definition WriteMode (Value : Z) : M D unit := IoPort.OutB s_ModeRegister Value.
Definition Control : M D Z := IoPort.InB s_ControlRegister.
Definition WriteControl (Value : Z) : M D unit := IoPort.OutB s_ControlRegister (Z.land Value 0x0f).

Definition Set_ (InMicroseconds : Z) : M D bool :=
  let counter := (BASE_FREQUENCY *64 InMicroseconds) / 1000000 in
  if 0xffff <? counter then dret false
  else
    control <- Control ;;
    WriteControl (set_EnableTimerCounter2 1 (set_EnableSpeakerData 0 control)) ;;;
    WriteMode (Mode LOW_AND_HIGH_BYTE INTERRUPT_ON_TERMINAL_COUNT BINARY) ;;;
    IoPort.OutB s_Data (Z.land counter 0xff) ;;;
    IoPort.OutB s_Data (Z.land (Z.shiftr counter 8) 0xff) ;;;
    dret true.

Definition Get : M D Z :=
  WriteMode LatchMode ;;;
  low <- IoPort.InB s_Data ;;
  high <- IoPort.InB s_Data ;;
  dret (u16 (Z.lor low (Z.shiftl high 8))).

Definition IsActive : M D bool :=
  control <- Control ;;
  dret ((EnableTimerCounter2 control =? 1) && (StatusTimerCounter2 control =? 0)).

Fixpoint WaitForTimeout (patience : nat) : M D bool :=
  match patience with
  | O => fun _ => Diverges
  | S k =>
      control <- Control ;;
      if EnableTimerCounter2 control =? 0 then dret false
      else if StatusTimerCounter2 control =? 1 then dret true
      else WaitForTimeout k
  end.

Definition Delay (patience : nat) (InMicroseconds : Z) : M D bool :=
  armed <- Set_ InMicroseconds ;;
  if armed then WaitForTimeout patience else dret false.

Definition Disable : M D unit :=
  control <- Control ;;
  WriteControl (set_EnableTimerCounter2 0 (set_EnableSpeakerData 0 control)).

Definition PcSpeaker (InFrequency : Z) : M D unit :=
  if InFrequency =? 0 then Disable
  else
    control <- Control ;;
    let divisor := BASE_FREQUENCY / InFrequency in
    let divisor := if 0xffff <? divisor then 0xffff else divisor in
    let alreadyPlaying := negb (EnableSpeakerData control =? 0) in
    (if negb alreadyPlaying then WriteMode (Mode LOW_AND_HIGH_BYTE SQUARE_WAVE_GENERATOR BINARY)
     else dret tt) ;;;
    IoPort.OutB s_Data (Z.land divisor 0xff) ;;;
    IoPort.OutB s_Data (Z.land (Z.shiftr divisor 8) 0xff) ;;;
    (if negb alreadyPlaying
     then WriteControl (set_EnableTimerCounter2 1 (set_EnableSpeakerData 1 control))
     else dret tt).

(** The period fits the 16-bit counter up to 54.9 ms, and [Set_] answers so. *)
Lemma Set_range InMicroseconds d : 0 <= InMicroseconds < 2 ^ 16 ->
  exists d', Set_ InMicroseconds d = Ok (InMicroseconds <=? 54925, d').
Proof.
  intros Hu. unfold Set_, BASE_FREQUENCY. rewrite wrap_small by (unfold is_word; lia).
  pose proof (Z.div_mod (1193182 * InMicroseconds) 1000000 ltac:(lia)).
  pose proof (Z.mod_pos_bound (1193182 * InMicroseconds) 1000000 ltac:(lia)).
  destruct (Z.ltb_spec 0xffff (1193182 * InMicroseconds / 1000000)) as [Hlt|Hlt].
  - replace (InMicroseconds <=? 54925) with false by lia. eexists. reflexivity.
  - replace (InMicroseconds <=? 54925) with true by lia. unfold Control, WriteControl, WriteMode.
    autorewrite with hk_io. eexists. reflexivity.
Qed.

End Driver.
End Pit.
