(* ===== verification/LocalApic.v ===== *)
(** * Arch/LocalApic.cpp, LocalApicIpi.cpp and LocalApicTimer.cpp

    The register block of the core's own interrupt controller: identification and
    set-up, the end of an interrupt, inter-processor interrupts, and the timer with its
    calibration against the PIT.  A register union reads on construction and writes back
    on destruction; a scoped block of the source is one read, the field assignments and
    one write.  [patience] bounds the polls of the two loops that wait for hardware. *)

From S2P Require Import Prelude Config Device Pit.

Module LocalApic.

(** [enum Index]. *)
Definition IDENTIFICATION : Z := 0x020.
Definition VERSION : Z := 0x030.
Definition TASK_PRIORITY : Z := 0x080.
Definition END_OF_INTERRUPT : Z := 0x0b0.
Definition LOGICAL_DESTINATION : Z := 0x0d0.
Definition DESTINATION_FORMAT : Z := 0x0e0.
Definition SPURIOUS_INTERRUPT_VECTOR : Z := 0x0f0.
Definition IN_SERVICE : Z := 0x100.
Definition INTERRUPT_COMMAND_LOW : Z := 0x300.
Definition INTERRUPT_COMMAND_HIGH : Z := 0x310.
Definition TIMER_CONTROL : Z := 0x320.
Definition TIMER_INITIAL_COUNT : Z := 0x380.
Definition TIMER_CURRENT_COUNT : Z := 0x390.
Definition TIMER_DIVIDE_CONFIGURATION : Z := 0x3e0.

Definition FLAT : Z := 0xf.

(** [__builtin_clz] on a non-zero 32-bit value. *)
Definition clz (x : Z) : Z := 31 - Z.log2 x.

Section Driver.
Context {D : Type} {HW : Hardware D}.
Variable s_BaseAddress : Z.

Definition Read (InIndex : Z) : M D Z := mmio_load (s_BaseAddress +64 InIndex).
Definition Write (InIndex InValue : Z) : M D unit := mmio_store (s_BaseAddress +64 InIndex) InValue.

Definition GetId : M D Z := v <- Read IDENTIFICATION ;; dret (Field.get 24 8 v).
(** The destructor of the register union writes the value back. *)
Definition GetLogicalId : M D Z :=
  v <- Read LOGICAL_DESTINATION ;; Write LOGICAL_DESTINATION v ;;; dret (Field.get 24 8 v).
Definition GetVersion : M D Z := v <- Read VERSION ;; dret (Field.get 0 8 v).

Definition Initialize (InLogicalId : Z) : M D unit :=
  ldr <- Read LOGICAL_DESTINATION ;;
  Write LOGICAL_DESTINATION (Field.set 24 8 InLogicalId ldr) ;;;
  dfr <- Read DESTINATION_FORMAT ;;
  Write DESTINATION_FORMAT (Field.set 28 4 FLAT dfr) ;;;
  tpr <- Read TASK_PRIORITY ;;
  Write TASK_PRIORITY (Field.set 0 4 0 (Field.set 4 4 0 tpr)) ;;;
  svr <- Read SPURIOUS_INTERRUPT_VECTOR ;;
  Write SPURIOUS_INTERRUPT_VECTOR (Field.set 9 1 1 (Field.set 8 1 1 (Field.set 0 8 0xff svr))).

Definition EndOfInterrupt : M D unit :=
  Read SPURIOUS_INTERRUPT_VECTOR ;;; Write END_OF_INTERRUPT 0.

(** The scan of [GetInServiceVector] over the words below [left_]. *)
Fixpoint InService_loop (left_ : nat) : M D Z :=
  match left_ with
  | O => dret 0
  | S k =>
      let word := Z.of_nat k in
      bits <- Read (IN_SERVICE + word * 0x10) ;;
      if negb (bits =? 0) then dret (u16 (word * 32 + (31 - clz bits))) else InService_loop k
  end.
Definition GetInServiceVector : M D Z := InService_loop 8.

(** ** Inter-processor interrupts *)

Inductive DeliveryMode := FIXED | LOWEST_PRIORITY | SMI | NMI | INIT | STARTUP.
Definition DeliveryValue (m : DeliveryMode) : Z :=
  match m with FIXED => 0 | LOWEST_PRIORITY => 1 | SMI => 2 | NMI => 4 | INIT => 5 | STARTUP => 6 end.
Inductive DestinationMode := PHYSICAL | LOGICAL.
Definition DestinationValue (m : DestinationMode) : Z := match m with PHYSICAL => 0 | LOGICAL => 1 end.
Inductive Level := DEASSERT | ASSERT_.
Definition LevelValue (l : Level) : Z := match l with DEASSERT => 0 | ASSERT_ => 1 end.
Inductive TriggerMode := EDGE | LEVEL.
Definition TriggerValue (t : TriggerMode) : Z := match t with EDGE => 0 | LEVEL => 1 end.
Inductive Shorthand := NONE | SELF | ALL_INCLUDING_SELF | ALL_EXCLUDING_SELF.
Definition ShorthandValue (s : Shorthand) : Z :=
  match s with NONE => 0 | SELF => 1 | ALL_INCLUDING_SELF => 2 | ALL_EXCLUDING_SELF => 3 end.

(** [union InterruptCommand] as the 64-bit value of both registers; the assignments of
    its two constructors. *)
Definition Command (value vector : Z) (delivery : DeliveryMode) (destination : DestinationMode)
    (level : Level) (trigger : TriggerMode) (shorthand : Shorthand) (id : Z) : Z :=
  Field.set 56 8 id (Field.set 18 2 (ShorthandValue shorthand) (Field.set 15 1 (TriggerValue trigger)
    (Field.set 14 1 (LevelValue level) (Field.set 11 1 (DestinationValue destination)
      (Field.set 8 3 (DeliveryValue delivery) (Field.set 0 8 vector value)))))).

Definition IsSendPending : M D (bool * Z) :=
  ValueLow <- Read INTERRUPT_COMMAND_LOW ;; dret (Field.get 12 1 ValueLow =? 1, ValueLow).

Fixpoint WaitForIdle (patience : nat) : M D Z :=
  match patience with
  | O => fun _ => Diverges
  | S k =>
      ' (pending, ValueLow) <- IsSendPending ;;
      if pending then WaitForIdle k
      else ValueHigh <- Read INTERRUPT_COMMAND_HIGH ;; dret (FieldMore.join ValueLow ValueHigh)
  end.

Definition SendCommand (c : Z) : M D unit :=
  Write INTERRUPT_COMMAND_HIGH (Field.get 32 32 c) ;;;
  Write INTERRUPT_COMMAND_LOW (Field.get 0 32 c).

Section Ipi.
Variable patience : nat.

Definition ToDestination (id vector : Z) (m : DestinationMode) : M D unit :=
  value <- WaitForIdle patience ;; SendCommand (Command value vector FIXED m ASSERT_ EDGE NONE id).
Definition ToShorthand (s : Shorthand) (vector : Z) (delivery : DeliveryMode) (trigger : TriggerMode)
    (level : Level) : M D unit :=
  value <- WaitForIdle patience ;; SendCommand (Command value vector delivery PHYSICAL level trigger s 0).

Definition IsDelivered : M D bool :=
  Read INTERRUPT_COMMAND_LOW ;;; ' (pending, _) <- IsSendPending ;; dret (negb pending).
Definition Send (InDestinationApicId InVector : Z) : M D unit :=
  ToDestination InDestinationApicId InVector PHYSICAL.
Definition SendGroup (InLogicalDestination InVector : Z) : M D unit :=
  ToDestination InLogicalDestination InVector LOGICAL.
Definition SendAll (InVector : Z) : M D unit := ToShorthand ALL_INCLUDING_SELF InVector FIXED EDGE ASSERT_.
Definition SendOthers (InVector : Z) : M D unit := ToShorthand ALL_EXCLUDING_SELF InVector FIXED EDGE ASSERT_.
Definition SendInit (InAssert : bool) : M D unit :=
  ToShorthand ALL_EXCLUDING_SELF 0 INIT (if InAssert then EDGE else LEVEL)
    (if InAssert then ASSERT_ else DEASSERT).
Definition SendStartup (InVector : Z) : M D unit := ToShorthand ALL_EXCLUDING_SELF InVector STARTUP EDGE ASSERT_.
End Ipi.

(** ** The timer *)

Inductive Mode := ONE_SHOT | PERIODIC | DEADLINE.
Definition ModeValue (m : Mode) : Z := match m with ONE_SHOT => 0 | PERIODIC => 1 | DEADLINE => 2 end.

Definition INVALID_DIVIDE : Z := 0xff.
Definition EncodeDivide (InDivide : Z) : Z :=
  if InDivide =? 1 then 0xb else if InDivide =? 2 then 0x0 else if InDivide =? 4 then 0x1
  else if InDivide =? 8 then 0x2 else if InDivide =? 16 then 0x3 else if InDivide =? 32 then 0x8
  else if InDivide =? 64 then 0x9 else if InDivide =? 128 then 0xa else INVALID_DIVIDE.

(** [union ControlRegister] as [Set] fills it. *)
Definition TimerControl (vector : Z) (masked periodic : bool) : Z :=
  Field.set 17 2 (ModeValue (if periodic then PERIODIC else ONE_SHOT))
    (Field.set 16 1 (if masked then 1 else 0) (Field.set 0 8 vector 0)).

Definition Set_ (InCounter InDivide InVector : Z) (InPeriodic InMasked : bool) : M D unit :=
  let divide := EncodeDivide InDivide in
  if divide =? INVALID_DIVIDE then dret tt
  else
    Write TIMER_DIVIDE_CONFIGURATION divide ;;;
    Write TIMER_CONTROL (TimerControl InVector InMasked InPeriodic) ;;;
    Write TIMER_INITIAL_COUNT InCounter.

Definition SAMPLE_MICROSECONDS : Z := 50000.

Definition MeasureTickRate (patience : nat) : M D Z :=
  Pit.Set_ SAMPLE_MICROSECONDS ;;;
  Set_ UINT32_MAX 1 (VectorNumber TIMER) false true ;;;
  start <- Read TIMER_CURRENT_COUNT ;;
  Pit.WaitForTimeout patience ;;;
  end_ <- Read TIMER_CURRENT_COUNT ;;
  dret (u32 (start - end_) / (SAMPLE_MICROSECONDS / 1000)).

(** The statics of the timer. *)
Record timer := { s_Counter : Z; s_Divider : Z; s_IntervalMicroseconds : Z }.
Definition unset : timer := {| s_Counter := 0; s_Divider := 1; s_IntervalMicroseconds := 0 |}.

(** The loop of [Setup]: the divider doubles at most seven times. *)
Fixpoint Setup_loop (fuel : nat) (ticks divider counter : Z) : outcome (Z * Z) :=
  match fuel with
  | O => Diverges
  | S k =>
      if (UINT32_MAX <? counter) && (divider <? 128) then
        let divider := u8 (divider * 2) in Setup_loop k ticks divider (ticks / divider)
      else Ok (divider, counter)
  end.

Definition Setup (patience : nat) (InMicroseconds : Z) (t : timer) : M D (bool * timer) :=
  ticksPerMillisecond <- MeasureTickRate patience ;;
  let ticks := (InMicroseconds *64 ticksPerMillisecond) / 1000 in
  ' (divider, counter) <- dlift (Setup_loop 8 ticks 1 ticks) ;;
  if (UINT32_MAX <? counter) || (counter =? 0) then dret (false, t)
  else dret (true, {| s_Counter := u32 counter; s_Divider := divider;
                      s_IntervalMicroseconds := InMicroseconds |}).

Definition Interval (t : timer) : Z := s_IntervalMicroseconds t.

Definition Activate (t : timer) : M D unit := Set_ (s_Counter t) (s_Divider t) (VectorNumber TIMER) true false.

Definition SetMasked (InMasked : bool) : M D unit :=
  v <- Read TIMER_CONTROL ;; Write TIMER_CONTROL (Field.set 16 1 (if InMasked then 1 else 0) v).

End Driver.
(** ** Interrupt commands on the wire *)

Section Properties.
Context {D : Type} {HW : Hardware D}.
Variable base : Z.

Lemma WaitForIdle_bind {B} n (k : Z -> M D B) d value d1 :
  WaitForIdle base n d = Ok (value, d1) -> dbind (WaitForIdle base n) k d = k value d1.
Proof. intros H. unfold dbind. by rewrite H. Qed.

(** What a command carries in its two registers; the unnamed bits keep what they had. *)
Lemma Command_fields value vector delivery destination level trigger shorthand id :
  let c := Command value vector delivery destination level trigger shorthand id in
  let lo := Field.get 0 32 c in
  Field.get 0 8 lo = u8 vector /\ Field.get 8 3 lo = DeliveryValue delivery /\
  Field.get 11 1 lo = DestinationValue destination /\ Field.get 14 1 lo = LevelValue level /\
  Field.get 15 1 lo = TriggerValue trigger /\ Field.get 18 2 lo = ShorthandValue shorthand /\
  Field.get 24 8 (Field.get 32 32 c) = u8 id.
Proof.
  cbv zeta. rewrite !FieldMore.get_get by lia. unfold Command. split_and!; fields; try done.
  - by destruct delivery.
  - by destruct destination.
  - by destruct level.
  - by destruct trigger.
  - by destruct shorthand.
Qed.

(** ** The timer's divider *)

Lemma Setup_loop_ok ticks fuel k :
  0 <= ticks -> 0 <= k -> k + Z.of_nat fuel = 8 -> (0 < fuel)%nat ->
  exists j, k <= j <= 7 /\ Setup_loop fuel ticks (2 ^ k) (ticks / 2 ^ k) = Ok (2 ^ j, ticks / 2 ^ j) /\
    (forall i, k <= i < j -> UINT32_MAX < ticks / 2 ^ i) /\ (ticks / 2 ^ j <= UINT32_MAX \/ j = 7).
Proof.
  intros Ht. revert k. induction fuel as [|fuel IH]; intros k Hk Hf Hp; [lia|]. simpl.
  assert (Hpow : 2 ^ k <= 2 ^ 7) by (apply Z.pow_le_mono_r; lia).
  destruct (Z.ltb_spec UINT32_MAX (ticks / 2 ^ k)) as [Hbig|Hsmall]; simpl;
    [|exists k; split_and!; try lia; done].
  destruct (Z.ltb_spec (2 ^ k) 128) as [Hlt|Hge]; simpl.
  - assert (k < 7). { destruct (Z.eq_dec k 7) as [->|]; [done|lia]. }
    rewrite wrap_small by (unfold is_word; lia).
    replace (2 ^ k * 2) with (2 ^ (k + 1)) by (rewrite Z.pow_add_r by lia; lia).
    destruct (IH (k + 1)) as (j & Hj & Ej & Hmin & Hend); [lia..|].
    exists j. split_and!; try lia; try done. intros i Hi.
    destruct (Z.eq_dec i k) as [->|]; [done|]. apply Hmin. lia.
  - assert (k = 7). { destruct (Z.eq_dec k 7); [done|]. assert (2 ^ k <= 2 ^ 6) by (apply Z.pow_le_mono_r; lia). lia. }
    subst k. exists 7. split_and!; try lia; done.
Qed.

(** The divider the loop ends with decides both refusals. *)
Lemma divider_range ticks j :
  0 <= ticks -> 0 <= j <= 7 -> (forall i, 0 <= i < j -> UINT32_MAX < ticks / 2 ^ i) ->
  ticks / 2 ^ j <= UINT32_MAX \/ j = 7 ->
  0 <= ticks / 2 ^ j /\ (ticks / 2 ^ j <= UINT32_MAX <-> ticks < 2 ^ 39) /\ (ticks / 2 ^ j = 0 -> ticks = 0).
Proof.
  intros Ht Hj Hmin Hend. unfold UINT32_MAX in *.
  pose proof (Z.div_mod ticks (2 ^ j) ltac:(lia)) as Hdm.
  pose proof (Z.mod_pos_bound ticks (2 ^ j) ltac:(lia)) as Hmod.
  split_and!; [by apply Z.div_pos; lia|split; intros H|intros H].
  - assert (2 ^ j <= 2 ^ 7) by (apply Z.pow_le_mono_r; lia). nia.
  - destruct Hend as [|E]; [done|]. subst j.
    assert (ticks / 2 ^ 7 < 2 ^ 32) by (apply Z.div_lt_upper_bound; lia). lia.
  - destruct (Z.eq_dec j 0) as [E|]; [by rewrite E, Z.div_1_r in H|].
    specialize (Hmin (j - 1) ltac:(lia)). exfalso.
    assert (E : 2 ^ j = 2 * 2 ^ (j - 1)).
    { replace j with (Z.succ (j - 1)) at 1 by lia. by rewrite Z.pow_succ_r by lia. }
    pose proof (Z.div_mod ticks (2 ^ (j - 1)) ltac:(lia)).
    pose proof (Z.mod_pos_bound ticks (2 ^ (j - 1)) ltac:(lia)). nia.
Qed.

Lemma MeasureTickRate_range patience d rate d1 :
  MeasureTickRate base patience d = Ok (rate, d1) -> 0 <= rate < 2 ^ 32.
Proof.
  unfold MeasureTickRate. intros H. repeat apply dbind_Ok in H as (? & ? & _ & H).
  injection H as <- <-. match goal with |- 0 <= u32 ?x / _ < _ => pose proof (wrap_range 32 x ltac:(lia)) end.
  unfold is_word in *. change (SAMPLE_MICROSECONDS / 1000) with 50. split.
  - apply Z.div_pos; lia.
  - apply Z.div_lt_upper_bound; lia.
Qed.

Lemma EncodeDivide_valid j : 0 <= j <= 7 -> EncodeDivide (2 ^ j) <> INVALID_DIVIDE.
Proof.
  intros Hj. assert (Hall : forallb (fun n => negb (EncodeDivide (2 ^ Z.of_nat n) =? INVALID_DIVIDE))
    (seq 0 8) = true) by reflexivity.
  rewrite forallb_forall in Hall. specialize (Hall (Z.to_nat j)). rewrite Z2Nat.id in Hall by lia.
  apply Z.eqb_neq, negb_true_iff, Hall, in_seq. lia.
Qed.

Lemma Set_valid counter j vector periodic masked d : 0 <= j <= 7 ->
  Set_ base counter (2 ^ j) vector periodic masked d =
  Ok (tt, mmio_write (base +64 TIMER_INITIAL_COUNT) (u32 counter)
            (mmio_write (base +64 TIMER_CONTROL) (u32 (TimerControl vector masked periodic))
               (mmio_write (base +64 TIMER_DIVIDE_CONFIGURATION) (u32 (EncodeDivide (2 ^ j))) d))).
Proof.
  intros Hj. unfold Set_. by rewrite (proj2 (Z.eqb_neq _ _) (EncodeDivide_valid j Hj)).
Qed.

(** C38: The timer set-up never truncates the period.  Once the tick rate is measured,
    [Setup] refuses exactly the periods of no tick at all and those that overflow the
    32-bit counter even at the largest divider; otherwise it stores a counter between 1
    and [2^32 - 1] with the smallest divider at which the period fits, losing less than
    one divided tick, the product with the measured rate does not wrap, and [Activate]
    finds an encoding for the divider and arms the timer with exactly these values,
    writing the initial count last. *)
Theorem timer_setup_exact patience us t d rate d1 :
  0 <= us < 2 ^ 32 -> MeasureTickRate base patience d = Ok (rate, d1) ->
  let ticks := us * rate / 1000 in
  exists ok t', Setup base patience us t d = Ok ((ok, t'), d1) /\
    (ok = false <-> ticks = 0 \/ 2 ^ 39 <= ticks) /\ (ok = false -> t' = t) /\
    (ok = true -> exists j, 0 <= j <= 7 /\ s_Divider t' = 2 ^ j /\ 0 < s_Counter t' < 2 ^ 32 /\
       s_Counter t' * 2 ^ j <= ticks < s_Counter t' * 2 ^ j + 2 ^ j /\
       (forall i, 0 <= i < j -> 2 ^ 32 <= ticks / 2 ^ i) /\ Interval t' = us /\
       forall e, Activate base t' e =
         Ok (tt, mmio_write (base +64 TIMER_INITIAL_COUNT) (s_Counter t')
                   (mmio_write (base +64 TIMER_CONTROL) (u32 (TimerControl (VectorNumber TIMER) false true))
                      (mmio_write (base +64 TIMER_DIVIDE_CONFIGURATION) (u32 (EncodeDivide (2 ^ j))) e)))).
Proof.
  intros Hus HM. cbv zeta. pose proof (MeasureTickRate_range _ _ _ _ HM) as Hr.
  unfold Setup, dbind at 1. rewrite HM. cbn [obind]. rewrite wrap_small by (unfold is_word; nia).
  set (ticks := us * rate / 1000). assert (Ht : 0 <= ticks) by (apply Z.div_pos; nia).
  destruct (Setup_loop_ok ticks 8 0) as (j & Hj & Ej & Hmin & Hend); [lia..|].
  change (2 ^ 0) with 1 in Ej. rewrite Z.div_1_r in Ej. rewrite Ej. cbn [dlift dbind obind].
  pose proof (Z.div_mod ticks (2 ^ j) ltac:(lia)) as Hdm.
  pose proof (Z.mod_pos_bound ticks (2 ^ j) ltac:(lia)) as Hmod.
  destruct (divider_range ticks j Ht Hj Hmin Hend) as (Hq & Hfit & Hzero).
  unfold dlift, dbind. cbn [obind].
  destruct (Z.ltb_spec UINT32_MAX (ticks / 2 ^ j)) as [Hbig|Hsmall]; cbn [orb].
  { exists false, t. split_and!; try done. split; [|done]. intros _. right. lia. }
  destruct (Z.eqb_spec (ticks / 2 ^ j) 0) as [Hz|Hz]; cbn [orb].
  { exists false, t. split_and!; try done. split; [|done]. intros _. left. by apply Hzero. }
  eexists true, _. split; [reflexivity|]. unfold UINT32_MAX in *.
  split; [split; [done|intros [E|?]; [|lia]; rewrite E, Z.div_0_l in Hz; lia]|]. split; [done|].
  intros _. exists j. cbn [s_Divider s_Counter Interval s_IntervalMicroseconds].
  rewrite (wrap_small 32 (ticks / 2 ^ j)) by (unfold is_word; lia).
  split_and!; try lia; try done.
  - intros i Hi. specialize (Hmin i Hi). lia.
  - intros e. unfold Activate. cbn [s_Divider s_Counter]. rewrite Set_valid by lia.
    rewrite (wrap_small 32 (ticks / 2 ^ j)) by (unfold is_word; lia). done.
Qed.

(** ** The vector in service *)

(** Reference: the highest of the 256 vectors whose bit is set. *)
Definition in_service (isr : Z -> Z) (v : Z) : bool := Z.testbit (isr (v / 32)) (v mod 32).
Fixpoint highest (p : Z -> bool) (n : nat) : Z :=
  match n with
  | O => 0
  | S k => if p (Z.of_nat k) then Z.of_nat k else highest p k
  end.

Lemma highest_skip p n k : (forall i, Z.of_nat n <= i < Z.of_nat (n + k) -> p i = false) ->
  highest p (n + k) = highest p n.
Proof.
  induction k as [|k IH]; intros H; [by rewrite Nat.add_0_r|].
  rewrite Nat.add_succ_r. simpl. rewrite H by lia. apply IH. intros i Hi. apply H. lia.
Qed.

Lemma highest_hit p n v : 0 <= v < Z.of_nat n -> p v = true ->
  (forall i, v < i < Z.of_nat n -> p i = false) -> highest p n = v.
Proof.
  intros Hv Hp H. replace n with (S (Z.to_nat v) + (n - S (Z.to_nat v)))%nat by lia.
  rewrite highest_skip by (intros i Hi; apply H; lia). simpl. rewrite Z2Nat.id by lia. by rewrite Hp.
Qed.

(** The bits of one word. *)
Lemma in_service_word isr w b : 0 <= b < 32 -> in_service isr (w * 32 + b) = Z.testbit (isr w) b.
Proof.
  intros Hb. unfold in_service. rewrite Z.div_add_l, Z.div_small, Z.add_0_r by lia.
  rewrite Z.add_comm, Z.mod_add, Z.mod_small by lia. done.
Qed.

Lemma InService_loop_ok isr d n :
  (forall w e, 0 <= w < 8 -> mmio_read (base +64 (IN_SERVICE + w * 0x10)) e = (isr w, e)) ->
  (forall w, is_word 32 (isr w)) -> (n <= 8)%nat ->
  InService_loop base n d = Ok (highest (in_service isr) (n * 32), d).
Proof.
  intros Hisr Hw. induction n as [|n IH]; intros Hn; [done|]. cbn [InService_loop].
  unfold Read. rewrite run_load, Hisr by lia. cbn [fst snd].
  destruct (Z.eqb_spec (isr (Z.of_nat n)) 0) as [E|E]; cbn [negb].
  - rewrite IH by lia. replace (S n * 32)%nat with (n * 32 + 32)%nat by lia.
    rewrite highest_skip; [done|]. intros i Hi.
    replace i with (Z.of_nat n * 32 + (i - Z.of_nat n * 32)) by lia.
    rewrite in_service_word, E by lia. apply Z.bits_0.
  - specialize (Hw (Z.of_nat n)). unfold is_word in Hw.
    pose proof (Z.log2_nonneg (isr (Z.of_nat n))) as Hl.
    assert (Hl' : Z.log2 (isr (Z.of_nat n)) < 32) by (apply Z.log2_lt_pow2; lia).
    unfold clz. replace (31 - (31 - Z.log2 (isr (Z.of_nat n)))) with (Z.log2 (isr (Z.of_nat n))) by lia.
    rewrite wrap_small by (unfold is_word; lia). unfold dret. do 2 f_equal. symmetry. apply highest_hit; [lia| |].
    + rewrite in_service_word by lia. apply Z.bit_log2. lia.
    + intros i Hi. replace i with (Z.of_nat n * 32 + (i - Z.of_nat n * 32)) by lia.
      rewrite in_service_word by lia. apply Z.bits_above_log2; lia.
Qed.

(** C39: [GetInServiceVector], which scans eight registers from the top and uses the
    position of the highest bit, is equivalent to the plain search for the highest of
    the 256 vectors whose in-service bit is set, and answers 0 when there is none. *)
Theorem in_service_scan_equivalent isr d :
  (forall w e, 0 <= w < 8 -> mmio_read (base +64 (IN_SERVICE + w * 0x10)) e = (isr w, e)) ->
  (forall w, is_word 32 (isr w)) ->
  GetInServiceVector base d = Ok (highest (in_service isr) 256, d).
Proof. intros H1 H2. by apply (InService_loop_ok isr d 8 H1 H2). Qed.

(** Sending an interrupt to another core: once the previous command is accepted, the
    driver writes the register with the target first and the one that fires second, and
    the command carries exactly the target, the vector, fixed delivery, edge trigger and
    no shorthand, whatever the registers held before. *)
Theorem ipi_targets_one_core patience dest vector d value d1 :
  WaitForIdle base patience d = Ok (value, d1) -> is_word 8 dest -> is_word 8 vector ->
  exists lo hi,
    Send base patience dest vector d =
      Ok (tt, mmio_write (base +64 INTERRUPT_COMMAND_LOW) lo
                (mmio_write (base +64 INTERRUPT_COMMAND_HIGH) hi d1)) /\
    is_word 32 lo /\ is_word 32 hi /\
    Field.get 24 8 hi = dest /\ Field.get 0 8 lo = vector /\ Field.get 8 3 lo = DeliveryValue FIXED /\
    Field.get 11 1 lo = DestinationValue PHYSICAL /\ Field.get 14 1 lo = LevelValue ASSERT_ /\
    Field.get 15 1 lo = TriggerValue EDGE /\ Field.get 18 2 lo = ShorthandValue NONE.
Proof.
  intros Hidle Hd Hv. set (c := Command value vector FIXED PHYSICAL ASSERT_ EDGE NONE dest).
  exists (Field.get 0 32 c), (Field.get 32 32 c).
  pose proof (Command_fields value vector FIXED PHYSICAL ASSERT_ EDGE NONE dest) as H.
  fold c in H. cbv zeta in H. destruct H as (H1 & H2 & H3 & H4 & H5 & H6 & H7).
  rewrite (wrap_small 8 vector Hv) in H1. rewrite (wrap_small 8 dest Hd) in H7.
  split; [|split; [by apply Field.get_word|split; [by apply Field.get_word|done]]].
  unfold Send, ToDestination. rewrite (WaitForIdle_bind _ _ _ _ _ Hidle). fold c.
  unfold SendCommand, Write. rewrite run_store. unfold mmio_store.
  by rewrite (wrap_small 32 (Field.get 0 32 c)), (wrap_small 32 (Field.get 32 32 c)) by (by apply Field.get_word).
Qed.

End Properties.

(** ** A register block for the witnesses: the timer counts down between reads, vector
    0x41 is in service, the PIT has expired. *)
Definition demo_base : Z := 0xfee00000.
#[local] Instance demo_block : Hardware Z := {
  port_in w p d := (0x21, d);
  port_out w p v d := d;
  mmio_read a d :=
    if a =? demo_base + TIMER_CURRENT_COUNT then (u32 d, d - 50000000)
    else if a =? demo_base + IN_SERVICE + 0x20 then (2, d) else (0, d);
  mmio_write a v d := if a =? demo_base + TIMER_INITIAL_COUNT then v else d }.

(** A ten second period needs the divider 4 at a million ticks per millisecond. *)
Lemma timer_setup_exact_witness :
  (0 <= 10000000 < 2 ^ 32 /\
   MeasureTickRate demo_base 1 (0 : Z) = Ok (1000000, UINT32_MAX - 100000000)) /\
  exists t', Setup demo_base 1 10000000 unset (0 : Z) = Ok ((true, t'), UINT32_MAX - 100000000) /\
    s_Divider t' = 4 /\ 0 < s_Counter t' < 2 ^ 32.
Proof.
  assert (HM : MeasureTickRate demo_base 1 (0 : Z) = Ok (1000000, UINT32_MAX - 100000000)) by reflexivity.
  split; [split; [lia|exact HM]|].
  destruct (timer_setup_exact demo_base 1 10000000 unset 0 _ _ ltac:(lia) HM) as (ok & t' & E & Hf & _ & Ht).
  destruct ok; [|exfalso; destruct (proj1 Hf eq_refl) as [H|H]; vm_compute in H; congruence].
  exists t'. split; [exact E|]. destruct (Ht eq_refl) as (j & Hj & Ej & Hc & _).
  split; [|exact Hc]. injection E as <-. reflexivity.
Defined.

Lemma in_service_scan_equivalent_witness :
  GetInServiceVector demo_base (0 : Z) = Ok (65, 0) /\
  highest (in_service (fun w => if w =? 2 then 2 else 0)) 256 = 65.
Proof.
  assert (H : GetInServiceVector demo_base (0 : Z) =
    Ok (highest (in_service (fun w => if w =? 2 then 2 else 0)) 256, 0)).
  { apply in_service_scan_equivalent.
    - intros w e Hw. assert (w = 0 \/ w = 1 \/ w = 2 \/ w = 3 \/ w = 4 \/ w = 5 \/ w = 6 \/ w = 7) as H by lia.
      destruct H as [-> | [-> | [-> | [-> | [-> | [-> | [-> | ->]]]]]]]; reflexivity.
    - intros w. unfold is_word. destruct (w =? 2); lia. }
  split; [|reflexivity]. rewrite H. reflexivity.
Defined.

Lemma ipi_targets_one_core_witness :
  (WaitForIdle demo_base 1 (0 : Z) = Ok (0, 0) /\ is_word 8 3 /\ is_word 8 0x23) /\
  exists lo hi,
    Send demo_base 1 3 0x23 (0 : Z) =
      Ok (tt, mmio_write (demo_base +64 INTERRUPT_COMMAND_LOW) lo
                (mmio_write (demo_base +64 INTERRUPT_COMMAND_HIGH) hi 0)) /\
    Field.get 24 8 hi = 3 /\ Field.get 0 8 lo = 0x23.
Proof.
  assert (H : WaitForIdle demo_base 1 (0 : Z) = Ok (0, 0)) by reflexivity.
  assert (H1 : is_word 8 3) by (unfold is_word; lia). assert (H2 : is_word 8 0x23) by (unfold is_word; lia).
  split; [exact (conj H (conj H1 H2))|].
  destruct (ipi_targets_one_core demo_base 1 3 0x23 0 0 0 H H1 H2) as (lo & hi & E & _ & _ & F1 & F2 & _).
  exists lo, hi. exact (conj E (conj F1 F2)).
Defined.

End LocalApic.
