(* ===== verification/Legacy.v ===== *)
(** * Arch/Pic.cpp and Arch/Cmos.cpp: the masked-off interrupt controller and the clock chip

    Sequences of port accesses; the CMOS driver keeps the NMI mask, which shares its index
    port. *)

From S2P Require Import Prelude Device.

Module Pic.
Section Driver.
Context {D : Type} {HW : Hardware D}.

Definition ICW4_NEEDED : Z := 1.
Definition ALWAYS_ONE : Z := 16.
Definition MODE_8086 : Z := 1.
Definition AUTO_EOI : Z := 2.
Definition CASCADE_PIN : Z := 2.

Definition Initialize : M D unit :=
  let primaryCommand := 0x20 in
  let primaryData := 0x21 in
  let secondaryCommand := 0xa0 in
  let secondaryData := 0xa1 in
  let icw1 := Z.lor ICW4_NEEDED ALWAYS_ONE in
  IoPort.OutB primaryCommand icw1 ;;;
  IoPort.OutB secondaryCommand icw1 ;;;
  IoPort.OutB primaryData 0x20 ;;;
  IoPort.OutB secondaryData 0x28 ;;;
  IoPort.OutB primaryData (Z.shiftl 1 CASCADE_PIN) ;;;
  IoPort.OutB secondaryData CASCADE_PIN ;;;
  let icw4 := Z.lor MODE_8086 AUTO_EOI in
  IoPort.OutB primaryData icw4 ;;;
  IoPort.OutB secondaryData icw4 ;;;
  IoPort.OutB secondaryData 0xff ;;;
  IoPort.OutB primaryData 0xff.
End Driver.
End Pic.

Module Cmos.

Inductive Register :=
| SECOND | ALARM_SECOND | MINUTE | ALARM_MINUTE | HOUR | ALARM_HOUR | WEEKDAY | DAY_OF_MONTH
| MONTH | YEAR | STATUS_A | STATUS_B | STATUS_C | STATUS_D | STATUS_DIAGNOSE | STATUS_SHUTDOWN.
Definition RegisterValue (x : Register) : Z :=
  match x with
  | SECOND => 0 | ALARM_SECOND => 1 | MINUTE => 2 | ALARM_MINUTE => 3 | HOUR => 4 | ALARM_HOUR => 5
  | WEEKDAY => 6 | DAY_OF_MONTH => 7 | MONTH => 8 | YEAR => 9 | STATUS_A => 10 | STATUS_B => 11
  | STATUS_C => 12 | STATUS_D => 13 | STATUS_DIAGNOSE => 14 | STATUS_SHUTDOWN => 15
  end.

Definition s_Address : Z := 0x70.
Definition s_Data : Z := 0x71.
Definition MASK : Z := 0x80.

Section Driver.
Context {D : Type} {HW : Hardware D}.

(** The device and [Nmi::s_Disabled]. *)
Definition state : Type := D * bool.
Definition onto {A} (m : M D A) : M state A :=
  fun s => let* (a, d) := m s.1 in Ok (a, (d, s.2)).
Definition set_Disabled (b : bool) : M state unit := fun s => Ok (tt, (s.1, b)).
Definition s_Disabled : M state bool := fun s => Ok (s.2, s).

Definition Enable : M state unit :=
  v <- onto (IoPort.InB s_Address) ;;
  onto (IoPort.OutB s_Address (Z.land v (Z.lnot MASK))) ;;;
  set_Disabled false.

Definition Disable : M state unit :=
  v <- onto (IoPort.InB s_Address) ;;
  onto (IoPort.OutB s_Address (Z.lor v MASK)) ;;;
  set_Disabled true.

Definition IsEnabled : M state bool :=
  v <- onto (IoPort.InB s_Address) ;;
  set_Disabled (negb (Z.land v MASK =? 0)) ;;;
  disabled <- s_Disabled ;;
  dret (negb disabled).

Definition SelectRegister (InRegister : Register) : M state unit :=
  disabled <- s_Disabled ;;
  let value := RegisterValue InRegister in
  let value := if (disabled : bool) then Z.lor value MASK else Z.land value (Z.lnot MASK) in
  onto (IoPort.OutB s_Address value).

Definition Read (InRegister : Register) : M state Z :=
  SelectRegister InRegister ;;; onto (IoPort.InB s_Data).

Definition Write (InRegister : Register) (InValue : Z) : M state unit :=
  SelectRegister InRegister ;;; onto (IoPort.OutB s_Data InValue).

End Driver.
End Cmos.
