(* ===== verification/Ps2.v ===== *)
(** * Device/Ps2Controller.cpp: the keyboard controller

    The polling primitives never fail, so they are plain functions on the device state;
    only [Initialize], which also programs the I/O APIC, is driver code in [M].  The
    theorem counts device accesses: no hardware, present, absent or broken, can hold the
    kernel in one of these loops. *)

From S2P Require Import Prelude Config RingBuffer Device Keyboard IoApic.

Module Ps2.

Definition s_ControlPort : Z := 0x64.
Definition s_DataPort : Z := 0x60.

(** [enum Status]. *)
Definition HAS_OUTPUT : Z := Z.shiftl 1 0.
Definition INPUT_PENDING : Z := Z.shiftl 1 1.
Definition IS_MOUSE : Z := Z.shiftl 1 5.

(** [enum ControllerCommand]. *)
Definition READ_CONFIGURATION : Z := 0x20.
Definition WRITE_CONFIGURATION : Z := 0x60.
Definition DISABLE_MOUSE_PORT : Z := 0xa7.
Definition DISABLE_KEYBOARD_PORT : Z := 0xad.
Definition ENABLE_KEYBOARD_PORT : Z := 0xae.

(** [enum Configuration]. *)
Definition KEYBOARD_INTERRUPT : Z := Z.shiftl 1 0.
Definition MOUSE_INTERRUPT : Z := Z.shiftl 1 1.
Definition KEYBOARD_CLOCK_OFF : Z := Z.shiftl 1 4.
Definition MOUSE_CLOCK_OFF : Z := Z.shiftl 1 5.
Definition TRANSLATE_TO_SET1 : Z := Z.shiftl 1 6.

(** [enum KeyboardCommand] and [enum Reply]. *)
Definition SET_LED : Z := 0xed.
Definition SET_REPEAT_RATE : Z := 0xf3.
Definition ENABLE_SCANNING : Z := 0xf4.
Definition ACKNOWLEDGE : Z := 0xfa.
Definition RESEND : Z := 0xfe.

Definition LedValue (l : Led) : Z :=
  match l with LED_SCROLL_LOCK => 1 | LED_NUM_LOCK => 2 | LED_CAPS_LOCK => 4 end.
Inductive Speed := CPS_30 | CPS_20 | CPS_10 | CPS_2.
Definition SpeedValue (s : Speed) : Z :=
  match s with CPS_30 => 0x00 | CPS_20 => 0x04 | CPS_10 => 0x0c | CPS_2 => 0x1f end.
Inductive Delay := MS_250 | MS_500 | MS_750 | MS_1000.
Definition DelayValue (d : Delay) : Z :=
  match d with MS_250 => 0 | MS_500 => 1 | MS_750 => 2 | MS_1000 => 3 end.

Definition SPIN_LIMIT : Z := 100000.
Definition RAW_SIZE : Z := 64.

Section Driver.
Context {D : Type} {HW : Hardware D}.

Definition In (p : Z) (d : D) : Z * D := port_in 8 p d.
Definition Out (p v : Z) (d : D) : D := port_out 8 p (u8 v) d.

Fixpoint WaitWritable_loop (attempts : nat) (d : D) : bool * D :=
  match attempts with
  | O => (false, d)
  | S k => let '(status, d) := In s_ControlPort d in
           if Z.land status INPUT_PENDING =? 0 then (true, d) else WaitWritable_loop k d
  end.
Definition WaitWritable (d : D) : bool * D := WaitWritable_loop (Z.to_nat SPIN_LIMIT) d.

Fixpoint WaitReadable_loop (attempts : nat) (d : D) : bool * D :=
  match attempts with
  | O => (false, d)
  | S k => let '(status, d) := In s_ControlPort d in
           if negb (Z.land status HAS_OUTPUT =? 0) then (true, d) else WaitReadable_loop k d
  end.
Definition WaitReadable (d : D) : bool * D := WaitReadable_loop (Z.to_nat SPIN_LIMIT) d.

Definition SendCommand (InCommand : Z) (d : D) : D :=
  let '(ready, d) := WaitWritable d in if (ready : bool) then Out s_ControlPort InCommand d else d.

Definition SendData (InValue : Z) (d : D) : D :=
  let '(ready, d) := WaitWritable d in if (ready : bool) then Out s_DataPort InValue d else d.

Definition ReadData (d : D) : Z * D :=
  let '(ready, d) := WaitReadable d in if (ready : bool) then In s_DataPort d else (-1, d).

Fixpoint SendToKeyboard_loop (attempts : nat) (InByte : Z) (d : D) : bool * D :=
  match attempts with
  | O => (false, d)
  | S k =>
      let d := SendData InByte d in
      let '(reply, d) := ReadData d in
      if reply =? ACKNOWLEDGE then (true, d)
      else if negb (reply =? RESEND) then (false, d)
      else SendToKeyboard_loop k InByte d
  end.
Definition SendToKeyboard (InByte : Z) (d : D) : bool * D := SendToKeyboard_loop 3 InByte d.

Definition SetRepeatRate (InSpeed : Speed) (InDelay : Delay) (d : D) : D :=
  let parameter := Z.lor (SpeedValue InSpeed) (u8 (Z.shiftl (DelayValue InDelay) 5)) in
  let '(_, d) := SendToKeyboard SET_REPEAT_RATE d in
  (SendToKeyboard parameter d).2.

Fixpoint DrainBuffer_loop (attempts : nat) (d : D) : D :=
  match attempts with
  | O => d
  | S k =>
      let '(status, d) := In s_ControlPort d in
      if Z.land status HAS_OUTPUT =? 0 then d
      else let '(_, d) := In s_DataPort d in DrainBuffer_loop k d
  end.
Definition DrainBuffer (d : D) : D := DrainBuffer_loop 32 d.

(** The statics of the driver, with the device. *)
Record t := { device : D; s_Decoder : KeyDecoder.t; s_Leds : Z; s_RawBytes : RingBuffer.t Z }.

Definition with_device (s : t) (d : D) : t :=
  {| device := d; s_Decoder := s_Decoder s; s_Leds := s_Leds s; s_RawBytes := s_RawBytes s |}.
Definition with_Leds (s : t) (v : Z) : t :=
  {| device := device s; s_Decoder := s_Decoder s; s_Leds := v; s_RawBytes := s_RawBytes s |}.
Definition with_RawBytes (s : t) (b : RingBuffer.t Z) : t :=
  {| device := device s; s_Decoder := s_Decoder s; s_Leds := s_Leds s; s_RawBytes := b |}.

(** The device and [s_Leds], which is all [SetLed] touches. *)
Definition SetLed (InLed : Led) (InOn : bool) (s : D * Z) : D * Z :=
  let leds := if InOn then Z.lor s.2 (LedValue InLed) else Z.land s.2 (Z.lnot (LedValue InLed)) in
  (SendData leds (SendData SET_LED s.1), leds).

Definition Configured (configuration : Z) : Z :=
  let configuration := Z.lor configuration (Z.lor (Z.lor KEYBOARD_INTERRUPT TRANSLATE_TO_SET1) MOUSE_CLOCK_OFF) in
  Z.land configuration (Z.lnot (Z.lor KEYBOARD_CLOCK_OFF MOUSE_INTERRUPT)).

(** [pin] is [Apic::GetIoApicPin(Apic::Device::KEYBOARD)]. *)
Definition Initialize (ioapic : IoApic.regs) (pin : Z) (s : t) : outcome t :=
  let d := device s in
  let d := SendCommand DISABLE_KEYBOARD_PORT d in
  let d := SendCommand DISABLE_MOUSE_PORT d in
  let d := DrainBuffer d in
  let d := SendCommand READ_CONFIGURATION d in
  let '(configuration, d) := ReadData d in
  if configuration <? 0 then Ok (with_device s d)
  else
    let d := SendCommand WRITE_CONFIGURATION d in
    let d := SendData (u8 (Configured configuration)) d in
    let d := SendCommand ENABLE_KEYBOARD_PORT d in
    let '(_, d) := SendToKeyboard ENABLE_SCANNING d in
    let d := SetRepeatRate CPS_30 MS_250 d in
    let s := with_Leds s 0 in
    let '(_, d) := SendToKeyboard SET_LED d in
    let '(_, d) := SendToKeyboard (s_Leds s) d in
    let d := DrainBuffer d in
    let* (_, d) := (IoApic.Configure ioapic pin (VectorNumber KEYBOARD) IoApic.LEVEL IoApic.HIGH ;;;
                    IoApic.Allow ioapic pin) d in
    Ok (with_device s d).

(** The prologue half. *)
Fixpoint DrainToQueue_loop (attempts : nat) (d : D) (b : RingBuffer.t Z) : D * RingBuffer.t Z :=
  match attempts with
  | O => (d, b)
  | S k =>
      let '(status, d) := In s_ControlPort d in
      if Z.land status HAS_OUTPUT =? 0 then (d, b)
      else
        let '(code, d) := In s_DataPort d in
        let b := if Z.land status IS_MOUSE =? 0 then (RingBuffer.Produce RAW_SIZE b code).2 else b in
        DrainToQueue_loop k d b
  end.
Definition DrainToQueue (s : t) : t :=
  let '(d, b) := DrainToQueue_loop 16 (device s) (s_RawBytes s) in with_RawBytes (with_device s d) b.

(** The epilogue half: [None] when the raw queue ran dry. *)
Fixpoint Fetch (fuel : nat) (s : t) : outcome (option Key.Key * t) :=
  match fuel with
  | O => Diverges
  | S k =>
      match RingBuffer.Consume RAW_SIZE (s_RawBytes s) with
      | (None, b) => Ok (None, with_RawBytes s b)
      | (Some code, b) =>
          let s := with_RawBytes s b in
          if (code =? ACKNOWLEDGE) || (code =? RESEND) then Fetch k s
          else
            let '(key, decoder, (d, leds)) :=
              KeyDecoder.Decode SetLed code (s_Decoder s) (device s, s_Leds s) in
            Ok (Some key, {| device := d; s_Decoder := decoder; s_Leds := leds; s_RawBytes := s_RawBytes s |})
      end
  end.

(** [InjectForTest], the test seam. *)
Definition InjectForTest (InCode : Z) (s : t) : t :=
  with_RawBytes s (RingBuffer.Produce RAW_SIZE (s_RawBytes s) InCode).2.

End Driver.
Arguments t : clear implicits.

(** ** No hardware hangs the driver *)

(** Any hardware, with a counter of the accesses made to it. *)
#[local] Instance counted (D : Type) (HW : Hardware D) : Hardware (D * Z) := {
  port_in w p d := let '(v, d') := port_in w p d.1 in (v, (d', d.2 + 1));
  port_out w p v d := (port_out w p v d.1, d.2 + 1);
  mmio_read a d := let '(v, d') := mmio_read a d.1 in (v, (d', d.2 + 1));
  mmio_write a v d := (mmio_write a v d.1, d.2 + 1) }.

Section Bounded.
Context {D : Type} {HW : Hardware D}.
Implicit Types d : D * Z.

Definition within (d : D * Z) (n : Z) (d' : D * Z) : Prop := d.2 <= d'.2 <= d.2 + n.

Lemma within_refl d n : 0 <= n -> within d n d.
Proof. unfold within. lia. Qed.
Lemma within_trans d d1 d2 n m : within d n d1 -> within d1 m d2 -> within d (n + m) d2.
Proof. unfold within. lia. Qed.
Lemma within_le d d' n m : within d n d' -> n <= m -> within d m d'.
Proof. unfold within. lia. Qed.

Lemma In_within p d : within d 1 (In p d).2.
Proof. unfold In. simpl. destruct (port_in 8 p d.1). unfold within. simpl. lia. Qed.
Lemma Out_within p v d : within d 1 (Out p v d).
Proof. unfold within. simpl. lia. Qed.

(** A polling loop makes one access per attempt. *)
Lemma wait_within (loop : nat -> D * Z -> bool * (D * Z)) (stop : Z -> bool) :
  (forall d, loop O d = (false, d)) ->
  (forall n d, loop (S n) d = let '(status, d) := In s_ControlPort d in
     if stop status then (true, d) else loop n d) ->
  forall n d, within d (Z.of_nat n) (loop n d).2.
Proof.
  intros H0 HS n. induction n as [|n IH]; intros d; [rewrite H0; by apply within_refl|].
  rewrite HS. pose proof (In_within s_ControlPort d) as H. destruct (In s_ControlPort d) as [status d1].
  destruct (stop status); [eapply within_le; [exact H|lia]|].
  eapply within_le; [eapply within_trans; [exact H|apply IH]|lia].
Qed.

Lemma WaitWritable_within d : within d SPIN_LIMIT (WaitWritable d).2.
Proof.
  apply (wait_within WaitWritable_loop (fun status => Z.land status INPUT_PENDING =? 0)); reflexivity.
Qed.
Lemma WaitReadable_within d : within d SPIN_LIMIT (WaitReadable d).2.
Proof.
  apply (wait_within WaitReadable_loop (fun status => negb (Z.land status HAS_OUTPUT =? 0))); reflexivity.
Qed.

(** Waiting and then one write. *)
Lemma SendCommand_within v d : within d (SPIN_LIMIT + 1) (SendCommand v d).
Proof.
  unfold SendCommand. pose proof (WaitWritable_within d) as H. destruct (WaitWritable d) as [[] d1].
  - eapply within_trans; [exact H|apply Out_within].
  - eapply within_le; [exact H|lia].
Qed.
Lemma SendData_within v d : within d (SPIN_LIMIT + 1) (SendData v d).
Proof.
  unfold SendData. pose proof (WaitWritable_within d) as H. destruct (WaitWritable d) as [[] d1].
  - eapply within_trans; [exact H|apply Out_within].
  - eapply within_le; [exact H|lia].
Qed.
Lemma ReadData_within d : within d (SPIN_LIMIT + 1) (ReadData d).2.
Proof.
  unfold ReadData. pose proof (WaitReadable_within d) as H. destruct (WaitReadable d) as [[] d1].
  - eapply within_trans; [exact H|apply In_within].
  - eapply within_le; [exact H|lia].
Qed.

Abbreviation STK := (3 * (2 * SPIN_LIMIT + 2)).

Lemma SendToKeyboard_loop_within n v d :
  within d (Z.of_nat n * (2 * SPIN_LIMIT + 2)) (SendToKeyboard_loop n v d).2.
Proof.
  revert d. induction n as [|n IH]; intros d; [by apply within_refl|].
  cbn [SendToKeyboard_loop]. pose proof (SendData_within v d) as H1.
  pose proof (ReadData_within (SendData v d)) as H2. destruct (ReadData (SendData v d)) as [reply d2].
  pose proof (within_trans _ _ _ _ _ H1 H2) as H. unfold SPIN_LIMIT in *.
  destruct (reply =? ACKNOWLEDGE); [eapply within_le; [exact H|lia]|].
  destruct (negb (reply =? RESEND)); [eapply within_le; [exact H|lia]|].
  eapply within_le; [eapply within_trans; [exact H|apply IH]|lia].
Qed.
Lemma SendToKeyboard_within v d : within d STK (SendToKeyboard v d).2.
Proof. apply (SendToKeyboard_loop_within 3). Qed.

Lemma SetRepeatRate_within sp dl d : within d (2 * STK) (SetRepeatRate sp dl d).
Proof.
  unfold SetRepeatRate. pose proof (SendToKeyboard_within SET_REPEAT_RATE d) as H1.
  destruct (SendToKeyboard _ d) as [ok d1].
  eapply within_le; [eapply within_trans; [exact H1|apply SendToKeyboard_within]|lia].
Qed.

Lemma DrainBuffer_loop_within n d : within d (2 * Z.of_nat n) (DrainBuffer_loop n d).
Proof.
  revert d. induction n as [|n IH]; intros d; [by apply within_refl|]. cbn [DrainBuffer_loop].
  pose proof (In_within s_ControlPort d) as H1. destruct (In s_ControlPort d) as [status d1].
  destruct (_ =? 0); [eapply within_le; [exact H1|lia]|].
  pose proof (In_within s_DataPort d1) as H2. destruct (In s_DataPort d1) as [code d2].
  eapply within_le; [eapply within_trans; [eapply within_trans; [exact H1|exact H2]|apply IH]|lia].
Qed.
Lemma DrainBuffer_within d : within d 64 (DrainBuffer d).
Proof. apply (DrainBuffer_loop_within 32). Qed.

Lemma DrainToQueue_loop_within n d b : within d (2 * Z.of_nat n) (DrainToQueue_loop n d b).1.
Proof.
  revert d b. induction n as [|n IH]; intros d b; [by apply within_refl|]. cbn [DrainToQueue_loop].
  pose proof (In_within s_ControlPort d) as H1. destruct (In s_ControlPort d) as [status d1].
  destruct (_ =? 0); [eapply within_le; [exact H1|lia]|].
  pose proof (In_within s_DataPort d1) as H2. destruct (In s_DataPort d1) as [code d2].
  eapply within_le; [eapply within_trans; [eapply within_trans; [exact H1|exact H2]|apply IH]|lia].
Qed.

(** One entry of the redirection table read and written back: eight accesses. *)
Lemma rmw_within r pin f d :
  exists d', (if IoApic.PIN_COUNT <=? pin then dret tt
              else entry <- IoApic.ReadEntry r pin ;; IoApic.WriteEntry r pin (f entry)) d = Ok (tt, d') /\
    within d 8 d'.
Proof.
  destruct (_ <=? pin); [exists d; split; [done|by apply within_refl]|].
  unfold IoApic.ReadEntry, IoApic.WriteEntry, IoApic.ReadRegister, IoApic.WriteRegister.
  autorewrite with hk_io. unfold mmio_store. eexists. split; [reflexivity|]. unfold within. simpl.
  repeat (match goal with |- context [mmio_read ?a ?e] => destruct (mmio_read a e) end; simpl). lia.
Qed.

(** Steps in sequence add up. *)
Ltac step_within H :=
  match goal with
  | Hd : within ?d ?n ?d1 |- _ =>
      let H' := fresh in pose proof (within_trans _ _ _ _ _ Hd H) as H'; clear Hd; rename H' into Hd
  end.

(** C34: The keyboard driver cannot be hung by its hardware: whatever the ports answer,
    even nothing at all, [Initialize] returns after at most 3,700,181 device accesses,
    and never fails; switching an LED from the keyboard epilogue takes at most 200,002,
    and emptying the controller in the prologue, with interrupts off, at most 32. *)
Theorem ps2_never_hangs (r : IoApic.regs) (pin : Z) (s : t (D * Z)) (led : Led) (b : bool) :
  (exists s', Initialize r pin s = Ok s' /\ within (device s) 3700181 (device s')) /\
  within (device s) 200002 (SetLed led b (device s, s_Leds s)).1 /\
  within (device s) 32 (device (DrainToQueue s)).
Proof.
  split_and!.
  - unfold Initialize.
    pose proof (SendCommand_within DISABLE_KEYBOARD_PORT (device s)) as H.
    set (d1 := SendCommand DISABLE_KEYBOARD_PORT (device s)) in *.
    step_within (SendCommand_within DISABLE_MOUSE_PORT d1). set (d2 := SendCommand DISABLE_MOUSE_PORT d1) in *.
    step_within (DrainBuffer_within d2). set (d3 := DrainBuffer d2) in *.
    step_within (SendCommand_within READ_CONFIGURATION d3). set (d4 := SendCommand READ_CONFIGURATION d3) in *.
    step_within (ReadData_within d4). destruct (ReadData d4) as [conf d5]; cbn [snd] in H.
    unfold SPIN_LIMIT in *.
    destruct (conf <? 0).
    { eexists. split; [reflexivity|]. eapply within_le; [exact H|lia]. }
    step_within (SendCommand_within WRITE_CONFIGURATION d5). set (d6 := SendCommand WRITE_CONFIGURATION d5) in *.
    step_within (SendData_within (u8 (Configured conf)) d6). set (d7 := SendData _ d6) in *.
    step_within (SendCommand_within ENABLE_KEYBOARD_PORT d7). set (d8 := SendCommand ENABLE_KEYBOARD_PORT d7) in *.
    step_within (SendToKeyboard_within ENABLE_SCANNING d8). destruct (SendToKeyboard _ d8) as [? d9]; cbn [snd] in H.
    step_within (SetRepeatRate_within CPS_30 MS_250 d9). set (d10 := SetRepeatRate _ _ d9) in *.
    step_within (SendToKeyboard_within SET_LED d10). destruct (SendToKeyboard _ d10) as [? d11]; cbn [snd] in H.
    cbn [s_Leds with_Leds].
    step_within (SendToKeyboard_within 0 d11). destruct (SendToKeyboard _ d11) as [? d12]; cbn [snd] in H.
    step_within (DrainBuffer_within d12). set (d13 := DrainBuffer d12) in *.
    destruct (rmw_within r pin (fun e => IoApic.set_Polarity IoApic.HIGH (IoApic.set_Trigger IoApic.LEVEL
      (IoApic.set_Vector (VectorNumber KEYBOARD) e))) d13) as (d14 & E14 & H14).
    destruct (rmw_within r pin (IoApic.set_Mask IoApic.UNMASKED) d14) as (d15 & E15 & H15).
    step_within H14. step_within H15. unfold dbind at 1, IoApic.Configure, IoApic.Allow.
    rewrite E14. cbn [obind]. rewrite E15. cbn [obind]. eexists. split; [reflexivity|].
    eapply within_le; [exact H|unfold SPIN_LIMIT; lia].
  - unfold SetLed. cbn [fst snd].
    eapply within_le; [eapply within_trans; apply SendData_within|unfold SPIN_LIMIT; lia].
  - unfold DrainToQueue. pose proof (DrainToQueue_loop_within 16 (device s) (s_RawBytes s)) as H.
    destruct (DrainToQueue_loop _ _ _) as [d b']. exact H.
Qed.

End Bounded.
End Ps2.
