(* ===== verification/Epilogues.v ===== *)
(** * Interrupt/Epilogue.cpp, Arch/System.cpp and the Vault of Interrupt/Guard.h

    The second halves of the interrupt handlers, over everything they share: the
    scheduler, the semaphores, the Bellringer, the keyboard driver and the key buffer.
    An epilogue runs with the Guard held, so no other core touches that state, and is
    modelled as one function; bytes that a prologue adds while it runs reach the next one.
    The theorem follows a keystroke from the controller to the thread that waits for it. *)

From S2P Require Import Prelude Mem Queue Config RingBuffer Context Sched SchedSpec Sync SyncSpec.
From S2P Require Import SystemSpec Device Keyboard IoApic LocalApic Legacy Ps2.

#[export] Instance key_inhabited : Inhabited Key.Key := populate Key.Create.

(** Arch/System.cpp, over the device and the NMI flag of the CMOS driver. *)
Module Power.
Section Driver.
Context {D : Type} {HW : Hardware D}.

(** [Reboot] does not return: after the reset it halts the core. *)
Definition Reboot : M (Cmos.state (D := D)) unit :=
  Cmos.Write Cmos.STATUS_SHUTDOWN 0 ;;; Cmos.onto (IoPort.OutB 0x92 0x03).

Definition Shutdown : M D unit :=
  IoPort.OutW 0x604 0x2000 ;;; IoPort.OutW 0xb004 0x2000 ;;; IoPort.OutW 0x4004 0x3400.
End Driver.
End Power.

Module Epilogues.
Abbreviation KEYS := Config.KEY_BUFFER_SIZE.

Section Epilogues.
Context {K : Type} {SA : StackAllocator K} {BB : Build} {CC : Context.Code} {MM : Machine}.
Context {D : Type} {HW : Hardware D}.

(** [struct Vault], less the two text windows; the semaphores of [System.t] are indexed,
    and this one is [KeysAvailable]. *)
Definition KeysAvailable : Z := 0.
Record Vault := {
  system : System.t K;
  ps2 : Ps2.t D;
  Keys : RingBuffer.t Key.Key;
  nmi_disabled : bool }.

Definition with_system (v : Vault) (y : System.t K) : Vault :=
  {| system := y; ps2 := ps2 v; Keys := Keys v; nmi_disabled := nmi_disabled v |}.
Definition with_ps2 (v : Vault) (p : Ps2.t D) : Vault :=
  {| system := system v; ps2 := p; Keys := Keys v; nmi_disabled := nmi_disabled v |}.
Definition with_keys (v : Vault) (b : RingBuffer.t Key.Key) : Vault :=
  {| system := system v; ps2 := ps2 v; Keys := b; nmi_disabled := nmi_disabled v |}.

Definition reboots (k : Key.Key) : bool :=
  Key.Ctrl k && Key.Alt k && (Key.Code k =? Key.ToUnderlying Key.DELETE).

(** The answer is [true] when the machine was reset. *)
Fixpoint Keyboard_loop (fuel : nat) (core : Z) (v : Vault) : outcome (bool * Vault) :=
  match fuel with
  | O => Diverges
  | S n =>
      let* (fetched, p) := Ps2.Fetch (Z.to_nat Ps2.RAW_SIZE) (ps2 v) in
      let v := with_ps2 v p in
      match fetched with
      | None => Ok (false, v)
      | Some key =>
          if negb (Key.IsValid key) then Keyboard_loop n core v
          else if reboots key then
            let* (_, (d, nmi)) := Power.Reboot (Ps2.device p, nmi_disabled v) in
            Ok (true, {| system := system v; ps2 := Ps2.with_device p d; Keys := Keys v; nmi_disabled := nmi |})
          else
            let '(produced, b) := RingBuffer.Produce KEYS (Keys v) key in
            let v := with_keys v b in
            if (produced : bool) then
              let* y := System.exec (System.EV core KeysAvailable) (system v) in
              Keyboard_loop n core (with_system v y)
            else Keyboard_loop n core v
      end
  end.

(** The raw queue holds fewer bytes than its size, so that many rounds are enough. *)
Definition Keyboard (core : Z) (v : Vault) : outcome (bool * Vault) :=
  Keyboard_loop (Z.to_nat Ps2.RAW_SIZE) core v.

Definition Timer (core : Z) (v : Vault) : outcome Vault :=
  let* y := if core =? 0 then System.exec (System.ECheck core) (system v) else Ok (system v) in
  let* y := System.exec (System.EResume core) y in
  Ok (with_system v y).

Definition Assassin (core : Z) (v : Vault) : outcome Vault :=
  let* y := System.exec (System.EResume core) (system v) in Ok (with_system v y).

(** [lapic] is the base address of the local APIC. *)
Definition Wakeup (lapic core : Z) (v : Vault) : outcome Vault :=
  let* (_, d) := LocalApic.SetMasked lapic false (Ps2.device (ps2 v)) in
  let v := with_ps2 v (Ps2.with_device (ps2 v) d) in
  let* y := System.exec (System.EResume core) (system v) in Ok (with_system v y).

End Epilogues.
Arguments Vault : clear implicits.
End Epilogues.

(** ** The controller's output buffer

    What the prologue relies on: the status port tells whether a byte waits and whether
    it comes from the mouse, and reading the data port takes it. *)
Class Controller (D : Type) {HW : Hardware D} := {
  pending : D -> list (Z * bool);        (* byte, from the mouse *)
  status_keeps d : pending (port_in 8 Ps2.s_ControlPort d).2 = pending d;
  status_output d : negb (Z.land (port_in 8 Ps2.s_ControlPort d).1 Ps2.HAS_OUTPUT =? 0) =
    match pending d with [] => false | _ => true end;
  status_mouse d b m l : pending d = (b, m) :: l ->
    negb (Z.land (port_in 8 Ps2.s_ControlPort d).1 Ps2.IS_MOUSE =? 0) = m;
  data_takes d b m l : pending d = (b, m) :: l ->
    (port_in 8 Ps2.s_DataPort d).1 = b /\ pending (port_in 8 Ps2.s_DataPort d).2 = l }.

Module Delivery.
Import KeyDecoder Epilogues.

(** The bytes of the keyboard among those the controller holds. *)
Definition scan_codes (l : list (Z * bool)) : list Z := (filter (fun p => p.2 = false) l).*1.

(** Acknowledgements share the stream and mean nothing. *)
Definition is_reply (b : Z) : bool := (b =? Ps2.ACKNOWLEDGE) || (b =? Ps2.RESEND).

(** The keystrokes of a stream of bytes that continues a history, the oldest first, and
    the history behind them. *)
Fixpoint typed (h : Z * list event) (bs : list Z) : list Key.Key :=
  match bs with
  | [] => []
  | b :: bs => if is_reply b then typed h bs else byte_keystroke h b ++ typed (extend h b) bs
  end.
Fixpoint heard (h : Z * list event) (bs : list Z) : Z * list event :=
  match bs with
  | [] => h
  | b :: bs => if is_reply b then heard h bs else heard (extend h b) bs
  end.

Lemma raw_capacity : 1 < Ps2.RAW_SIZE < 2 ^ 32.
Proof. unfold Ps2.RAW_SIZE. lia. Qed.
Lemma key_capacity : 1 < KEYS < 2 ^ 32.
Proof. unfold Config.KEY_BUFFER_SIZE. lia. Qed.

Abbreviation raw s := (RingBuffer.contents Ps2.RAW_SIZE (Ps2.s_RawBytes s)).

Section Raw.
Context {D : Type} {HW : Hardware D}.
Implicit Types s : Ps2.t D.

Lemma raw_consume (b : RingBuffer.t Z) : RingBuffer.wf Ps2.RAW_SIZE b ->
  match RingBuffer.contents Ps2.RAW_SIZE b with
  | [] => RingBuffer.Consume Ps2.RAW_SIZE b = (None, b)
  | x :: l => exists b', RingBuffer.Consume Ps2.RAW_SIZE b = (Some x, b') /\
      RingBuffer.wf Ps2.RAW_SIZE b' /\ RingBuffer.contents Ps2.RAW_SIZE b' = l
  end.
Proof. apply RingBuffer.Consume_cases, raw_capacity. Qed.

Definition key_list (k : Key.Key) : list Key.Key := if Key.IsValid k then [k] else [].

(** One call of [Fetch] consumes up to the first byte that is not a reply. *)
Lemma Fetch_ok fuel s h :
  RingBuffer.wf Ps2.RAW_SIZE (Ps2.s_RawBytes s) -> represents (Ps2.s_Decoder s) h ->
  Forall is_byte (raw s) -> (length (raw s) < fuel)%nat ->
  exists r s', Ps2.Fetch fuel s = Ok (r, s') /\ RingBuffer.wf Ps2.RAW_SIZE (Ps2.s_RawBytes s') /\
    match r with
    | None => raw s' = [] /\ typed h (raw s) = [] /\ heard h (raw s) = h /\ represents (Ps2.s_Decoder s') h
    | Some k => exists b, typed h (raw s) = key_list k ++ typed (extend h b) (raw s') /\
        heard h (raw s) = heard (extend h b) (raw s') /\ represents (Ps2.s_Decoder s') (extend h b) /\
        Forall is_byte (raw s') /\ (length (raw s') < length (raw s))%nat
    end.
Proof.
  revert s. induction fuel as [|fuel IH]; intros s Hw Hr Hb Hf; [lia|]. cbn [Ps2.Fetch].
  pose proof (raw_consume _ Hw) as Hc. destruct (raw s) as [|b l] eqn:El.
  - rewrite Hc. exists None, s. split; [by destruct s|]. split_and!; try done.
  - destruct Hc as (b' & -> & Hw' & El'). apply Forall_cons in Hb as [Hb Hl]. fold (is_reply b).
    simpl in Hf. destruct (is_reply b) eqn:Ea.
    + destruct (IH (Ps2.with_RawBytes s b')) as (r & s' & HF & Hw'' & HR); simpl; rewrite ?El'; try done; [lia|].
      exists r, s'. split_and!; [done..|]. destruct r as [k|]; simpl in HR |- *; rewrite Ea; rewrite El' in HR; [|done].
      destruct HR as (c & H1 & H2 & H3 & H4 & H5). exists c. split_and!; try done. lia.
    + cbn [Ps2.device Ps2.s_Decoder Ps2.s_Leds Ps2.with_RawBytes].
      pose proof (Decode_ok Ps2.SetLed b (Ps2.s_Decoder s) h (Ps2.device s, Ps2.s_Leds s) Hb Hr) as HD.
      destruct (Decode _ _ _ _) as [[k d'] [dv leds]]. destruct HD as (Hr' & Hk & _).
      eexists (Some k), _. split; [reflexivity|]. cbn [Ps2.s_RawBytes Ps2.s_Decoder Ps2.with_RawBytes].
      split; [done|]. rewrite El'. exists b. simpl. rewrite Ea. unfold key_list. rewrite Hk. split_and!; try done. lia.
Qed.

(** The prologue moves up to sixteen pending bytes into the raw queue, as far as there is
    room, and drops those of the mouse. *)
Context {CT : Controller D}.

Lemma produce_raw (b : RingBuffer.t Z) x n : RingBuffer.wf Ps2.RAW_SIZE b ->
  (length (RingBuffer.contents Ps2.RAW_SIZE b) + S n <= 63)%nat ->
  RingBuffer.wf Ps2.RAW_SIZE (RingBuffer.Produce Ps2.RAW_SIZE b x).2 /\
  RingBuffer.contents Ps2.RAW_SIZE (RingBuffer.Produce Ps2.RAW_SIZE b x).2 =
    RingBuffer.contents Ps2.RAW_SIZE b ++ [x].
Proof.
  intros Hb Hn. destruct (RingBuffer.Produce_fifo Ps2.RAW_SIZE raw_capacity b x Hb) as [Hw Hc].
  split; [done|]. unfold RingBuffer.fifo_produce in Hc.
  rewrite decide_True in Hc by (change (Z.to_nat (Ps2.RAW_SIZE - 1)) with 63%nat; lia). by injection Hc.
Qed.

Lemma DrainToQueue_loop_ok n d b :
  RingBuffer.wf Ps2.RAW_SIZE b -> (length (pending d) <= n)%nat ->
  (length (RingBuffer.contents Ps2.RAW_SIZE b) + length (scan_codes (pending d)) <= 63)%nat ->
  let '(d', b') := Ps2.DrainToQueue_loop n d b in
  pending d' = [] /\ RingBuffer.wf Ps2.RAW_SIZE b' /\
  RingBuffer.contents Ps2.RAW_SIZE b' = RingBuffer.contents Ps2.RAW_SIZE b ++ scan_codes (pending d).
Proof.
  revert d b. induction n as [|n IH]; intros d b Hw Hn Hroom.
  { destruct (pending d) eqn:E; simpl in *; [|lia]. by rewrite app_nil_r. }
  cbn [Ps2.DrainToQueue_loop]. unfold Ps2.In at 1. pose proof (status_keeps d) as Hk. pose proof (status_output d) as Ho.
  pose proof (fun b m l => status_mouse d b m l) as Hm.
  destruct (port_in 8 Ps2.s_ControlPort d) as [status d1]. simpl in Hk, Ho, Hm.
  destruct (pending d) as [|[x m] l] eqn:E.
  { apply negb_false_iff in Ho. rewrite Ho. rewrite Hk. simpl. by rewrite app_nil_r. }
  apply negb_true_iff in Ho. rewrite Ho. specialize (Hm x m l eq_refl).
  unfold Ps2.In. destruct (data_takes d1 x m l Hk) as [Hx Hl].
  destruct (port_in 8 Ps2.s_DataPort d1) as [code d2]. simpl in Hx, Hl. subst code.
  simpl in Hn. destruct (Z.land status Ps2.IS_MOUSE =? 0); simpl in Hm; subst m; unfold scan_codes in *.
  - rewrite filter_cons_True in Hroom |- * by done. rewrite fmap_cons in Hroom |- *. cbn [length] in Hroom.
    destruct (produce_raw b x (length (filter (fun p : Z * bool => p.2 = false) l)) Hw) as [Hw' Hc'].
    { rewrite length_fmap in Hroom. lia. }
    specialize (IH d2 _ Hw'). rewrite Hl, Hc', length_app in IH. simpl in IH.
    destruct (Ps2.DrainToQueue_loop n d2 _) as [d' b']. destruct IH as (? & ? & Hc''); [lia|lia|].
    split_and!; try done. by rewrite Hc'', <- app_assoc.
  - rewrite filter_cons_False in Hroom |- * by done. specialize (IH d2 b Hw). rewrite Hl in IH. apply IH; [lia|done].
Qed.

End Raw.

(** ** The epilogue *)

Section Keyboard.
Context {K : Type} {SA : StackAllocator K} {SL : StackAllocatorLaws K} {BB : Build}
        {CC : Context.Code} {MM : Machine} {ML : MachineLaws}.
Context {D : Type} {HW : Hardware D} {CT : Controller D}.
Variable stack_owner : Z -> Z.
Implicit Types (v : Vault K D) (A : asys).

Abbreviation buffered v := (RingBuffer.contents KEYS (Keys v)).
Definition room v : nat := 31 - length (buffered v).

(** One [V] of [KeysAvailable] per key. *)
Definition announce (core : Z) (n : nat) A : asys := Nat.iter n (astep (System.EV core KeysAvailable)) A.

Record ready_for (pop : list Z) A (h : Z * list event) v : Prop := {
  r_sys : sys_sim stack_owner pop A (system v);
  r_raw : RingBuffer.wf Ps2.RAW_SIZE (Ps2.s_RawBytes (ps2 v));
  r_keys : RingBuffer.wf KEYS (Keys v);
  r_decoder : represents (Ps2.s_Decoder (ps2 v)) h }.

Lemma produce_key v k :
  RingBuffer.wf KEYS (Keys v) ->
  let '(produced, b) := RingBuffer.Produce KEYS (Keys v) k in
  RingBuffer.wf KEYS b /\
  if (produced : bool) then room v = S (room (with_keys v b)) /\
                            RingBuffer.contents KEYS b = buffered v ++ [k]
  else room v = O /\ RingBuffer.contents KEYS b = buffered v.
Proof.
  intros Hw. destruct (RingBuffer.Produce_fifo KEYS key_capacity _ k Hw) as [Hw' Hc].
  destruct (RingBuffer.Produce KEYS (Keys v) k) as [produced b]. simpl in Hw', Hc. split; [done|].
  unfold RingBuffer.fifo_produce in Hc. unfold room. cbn [Keys with_keys].
  change (Z.to_nat (KEYS - 1)) with 31%nat in Hc.
  destruct (decide _); injection Hc as <- <-; rewrite ?length_app; simpl; split; try done; lia.
Qed.

Lemma Keyboard_loop_ok fuel core pop A h v :
  ready_for pop A h v -> Forall is_byte (raw (ps2 v)) ->
  (length (raw (ps2 v)) < fuel)%nat -> (length (raw (ps2 v)) < 64)%nat ->
  Forall (fun k => reboots k = false) (typed h (raw (ps2 v))) ->
  let keys := take (room v) (typed h (raw (ps2 v))) in
  exists v', Keyboard_loop fuel core v = Ok (false, v') /\
    ready_for pop (announce core (length keys) A) (heard h (raw (ps2 v))) v' /\
    raw (ps2 v') = [] /\ buffered v' = buffered v ++ keys.
Proof.
  revert A h v. induction fuel as [|fuel IH]; intros A h v [Hsys Hraw Hkeys Hdec] Hb Hf Hl Hr; [lia|].
  cbn [Keyboard_loop]. change (Z.to_nat Ps2.RAW_SIZE) with 64%nat.
  destruct (Fetch_ok 64 (ps2 v) h Hraw Hdec Hb Hl) as (r & p & -> & Hraw' & HR). cbn [obind].
  destruct r as [k|].
  2: { destruct HR as (E1 & E2 & E3 & E4). rewrite E2, take_nil, E3. eexists. split; [reflexivity|].
       split_and!; [by split|done|by rewrite app_nil_r]. }
  destruct HR as (b & E1 & E2 & Hdec' & Hb' & Hlt). rewrite E1 in Hr |- *. rewrite E2. unfold key_list in *.
  destruct (Key.IsValid k); cbn [negb app] in *.
  2: { destruct (IH A (extend h b) (with_ps2 v p)) as (v' & HK & HR' & Hn & Hc); try done; cbn; [lia|lia|].
       by exists v'. }
  apply Forall_cons in Hr as [Hk Hr]. rewrite Hk.
  pose proof (produce_key (with_ps2 v p) k Hkeys) as HP.
  destruct (RingBuffer.Produce KEYS (Keys (with_ps2 v p)) k) as [produced bk].
  destruct HP as [Hkeys' HP]. destruct produced; destruct HP as [Hroom Hcont].
  - change (room (with_ps2 v p)) with (room v) in Hroom. rewrite Hroom. cbn [take length].
    destruct (sim_V stack_owner pop A (system (with_keys (with_ps2 v p) bk)) core KeysAvailable Hsys) as (y & HE & Hy).
    rewrite HE. cbn [obind].
    destruct (IH _ (extend h b) (with_system (with_keys (with_ps2 v p) bk) y) ltac:(by split))
      as (v' & HK & HR' & Hn & Hc); [done|cbn; lia|cbn; lia|done|].
    exists v'. split_and!; [done| |done|].
    + unfold announce. rewrite Nat.iter_succ_r. exact HR'.
    + rewrite Hc. cbn [Keys with_system with_keys with_ps2 ps2 system]. rewrite Hcont. cbn [Keys with_ps2].
      by rewrite <- app_assoc.
  - change (room (with_ps2 v p)) with (room v) in Hroom. rewrite Hroom.
    destruct (IH A (extend h b) (with_keys (with_ps2 v p) bk) ltac:(by split))
      as (v' & HK & HR' & Hn & Hc); [done|cbn; lia|cbn; lia|done|].
    assert (H0 : room (with_keys (with_ps2 v p) bk) = O).
    { unfold room. cbn [Keys with_keys]. rewrite Hcont. exact Hroom. }
    rewrite H0 in *. exists v'. split_and!; try done. rewrite Hc. cbn [Keys with_keys]. by rewrite Hcont.
Qed.

(** C33: A keystroke reaches whoever waits for it.  When the keyboard interrupts, with at
    most sixteen bytes in the controller, at most 63 bytes in all with those that are still in
    the raw queue, and no Ctrl+Alt+Del among the keystrokes they stand for, the prologue and
    the epilogue together empty the controller and the raw queue and return.  Of the
    keystrokes of the bytes (mouse bytes and acknowledgements skipped, decoded in the
    context of everything heard before) the first ones, as many as fit behind those already
    waiting in the 31 places of the key buffer, enter it in order, each with one [V] that
    wakes a waiting thread or counts up; the later ones are dropped.  The scheduler and the
    semaphores stay consistent. *)
Theorem keyboard_interrupt_delivers core pop A h v :
  ready_for pop A h v ->
  let bytes := raw (ps2 v) ++ scan_codes (pending (Ps2.device (ps2 v))) in
  Forall is_byte bytes -> (length bytes <= 63)%nat ->
  (length (pending (Ps2.device (ps2 v))) <= 16)%nat ->
  Forall (fun k => reboots k = false) (typed h bytes) ->
  let keys := take (room v) (typed h bytes) in
  pending (Ps2.device (Ps2.DrainToQueue (ps2 v))) = [] /\
  exists v', Keyboard core (with_ps2 v (Ps2.DrainToQueue (ps2 v))) = Ok (false, v') /\
    ready_for pop (announce core (length keys) A) (heard h bytes) v' /\
    raw (ps2 v') = [] /\ buffered v' = buffered v ++ keys.
Proof.
  intros [Hsys Hraw Hkeys Hdec] bytes Hb Hl Hp Hr keys.
  assert (Hl' : (length (raw (ps2 v)) + length (scan_codes (pending (Ps2.device (ps2 v)))) <= 63)%nat).
  { subst bytes. rewrite length_app in Hl. done. }
  pose proof (DrainToQueue_loop_ok 16 _ _ Hraw Hp Hl') as HD. unfold Ps2.DrainToQueue.
  destruct (Ps2.DrainToQueue_loop 16 _ _) as [d b]. destruct HD as (Hpend & Hw & Hc).
  split; [exact Hpend|].
  set (v1 := with_ps2 v (Ps2.with_RawBytes (Ps2.with_device (ps2 v) d) b)).
  assert (Hr1 : ready_for pop A h v1) by (by split).
  assert (E : raw (ps2 v1) = bytes) by exact Hc.
  pose proof (Keyboard_loop_ok (Z.to_nat Ps2.RAW_SIZE) core pop A h v1 Hr1) as HK. rewrite E in HK.
  change (Z.to_nat Ps2.RAW_SIZE) with 64%nat in HK. apply HK; try done; lia.
Qed.

End Keyboard.
End Delivery.

(** ** Witness: a controller that holds a list of bytes *)

#[local] Existing Instances demo_machine demo_code checked_build.

#[local] Instance shelf_hardware : Hardware (list (Z * bool)) := {
  port_in w p d :=
    if p =? Ps2.s_ControlPort
    then (match d with [] => 0 | (_, m) :: _ => if (m : bool) then 0x21 else 1 end, d)
    else if p =? Ps2.s_DataPort
    then match d with [] => (0, d) | (b, _) :: d' => (b, d') end
    else (0, d);
  port_out w p v d := d;
  mmio_read a d := (0, d);
  mmio_write a v d := d }.

#[local] Instance shelf_controller : Controller (list (Z * bool)).
Proof.
  apply (Build_Controller _ _ (fun d => d)).
  - intros d. reflexivity.
  - intros [|[b []] d]; reflexivity.
  - intros d b m l ->. destruct m; reflexivity.
  - intros d b m l ->. split; reflexivity.
Defined.

Import Epilogues Delivery.

(** A mouse byte, an acknowledgement, shift down, and A down and up. *)
Definition demo_vault : Vault Z (list (Z * bool)) :=
  {| system := demo_y4;
     ps2 := {| Ps2.device := [(0x33, true); (0xfa, false); (0x2a, false); (0x1e, false); (0x9e, false)];
               Ps2.s_Decoder := KeyDecoder.Fresh; Ps2.s_Leds := 0; Ps2.s_RawBytes := RingBuffer.Empty Ps2.RAW_SIZE |};
     Keys := RingBuffer.Empty KEYS; nmi_disabled := false |}.

Lemma demo_vault_ready : ready_for demo_owner demo_pop demo_A4 (0, []) demo_vault.
Proof.
  split; [exact demo_sim4| | |by split_and!]; split; vm_compute; try reflexivity; split; (discriminate || reflexivity).
Qed.

Lemma keyboard_interrupt_delivers_witness :
  exists v', Keyboard 0 (with_ps2 demo_vault (Ps2.DrainToQueue (ps2 demo_vault))) = Ok (false, v') /\
    Key.Ascii <$> RingBuffer.contents KEYS (Keys v') = [65] /\
    ready_for demo_owner demo_pop (announce 0 1 demo_A4)
      (heard (0, []) [0xfa; 0x2a; 0x1e; 0x9e]) v'.
Proof.
  destruct (keyboard_interrupt_delivers demo_owner 0 demo_pop demo_A4 (0, []) demo_vault demo_vault_ready)
    as (_ & v' & HK & HR & _ & Hb).
  - change (Forall KeyDecoder.is_byte [0xfa; 0x2a; 0x1e; 0x9e]).
    repeat constructor; unfold KeyDecoder.is_byte; lia.
  - vm_compute. lia.
  - vm_compute. lia.
  - vm_compute. repeat constructor.
  - exists v'. split; [exact HK|]. split; [rewrite Hb; vm_compute; reflexivity|exact HR].
Defined.
