(* ===== verification/Idle.v ===== *)
(** * IdleLoop (Thread/Scheduler.cpp): sleeping cores and the interrupts that wake them

    Every core is a small machine around the shared system of Sync.v: where its idle loop
    stands, whether its timer is masked, whether it is at epilogue level, and the interrupts
    its local APIC holds.  The loop is cut where the code reads or writes something another
    core can see; calls under the guard and epilogues are one step each, as the guard makes
    them.  An interrupt that comes while its core is at epilogue level is queued and run before
    the level is left, so it counts as taken at that level.  Cores have come through MainAp
    when the runs begin: the timer is on and the guard is held. *)

From S2P Require Import Prelude Mem Queue Config Context Sched SchedSpec Sync SyncSpec SystemSpec Device Ps2 Epilogues.
Import Sched Sync.

Module Idle.

(** Where the idle thread of a core stands: before the test of the ready queue; behind it,
    having seen it empty; with the timer set, before [sti; hlt]; halted; with the timer on and
    interrupts on, before it enters the guard to reschedule. *)
Inductive place := Test | Quiet | Drowsy | Halted | Entering.
#[export] Instance place_eq_dec : EqDecision place.
Proof. solve_decision. Defined.

(** The idle thread has seen an empty queue and not looked since. *)
Definition dozing (p : place) : bool := match p with Quiet | Drowsy | Halted => true | _ => false end.
(** Interrupts are off in the loop from the test to [sti; hlt]. *)
Definition open_ (p : place) : bool := match p with Halted | Entering => true | _ => false end.
(** The timer is still to be decided on. *)
Definition undecided (p : place) : bool := match p with Test | Quiet => true | _ => false end.

Record local := { masked : bool; level : bool; at_ : place; pending : list Z }.
Definition Started : local := {| masked := false; level := true; at_ := Test; pending := [] |}.

Definition at_place (p : place) (l : local) : local :=
  {| masked := masked l; level := level l; at_ := p; pending := pending l |}.
Definition SetMasked (b : bool) (l : local) : local :=
  {| masked := b; level := level l; at_ := at_ l; pending := pending l |}.
Definition at_level (b : bool) (l : local) : local :=
  {| masked := masked l; level := b; at_ := at_ l; pending := pending l |}.
Definition raise (v : Z) (l : local) : local :=
  {| masked := masked l; level := level l; at_ := at_ l; pending := v :: pending l |}.
Definition acknowledge (v : Z) (l : local) : local :=
  {| masked := masked l; level := level l; at_ := at_ l; pending := filter (fun w => w <> v) (pending l) |}.

Definition TIMER_VECTOR : Z := VectorNumber TIMER.
Definition KEYBOARD_VECTOR : Z := VectorNumber KEYBOARD.

Section Model.
Context {K : Type} {SA : StackAllocator K} {SL : StackAllocatorLaws K} {BB : Build}
        {CC : Context.Code} {MM : Machine} {ML : MachineLaws}.

Record t := { sys : System.t K; cores : Z -> local }.

(** The interrupts sent since [y] reach the local APICs they name. *)
Definition post (sent : list (Z * Z)) (f : Z -> local) : Z -> local := fun c =>
  foldl (fun l '(apic, v) => if GetLocalApicId c =? apic then raise v l else l) (f c) sent.

Fixpoint run (es : list System.event) (y : System.t K) : outcome (System.t K) :=
  match es with [] => Ok y | e :: es => let* y := System.exec e y in run es y end.

(** Core [c] makes the calls [es] under the guard and its own state changes by [f]. *)
Definition guarded (c : Z) (f : local -> local) (es : list System.event) (s : t) : option t :=
  match run es (sys s) with
  | Ok y => Some {| sys := y;
                    cores := post (drop (length (ipis (System.sched (sys s)))) (ipis (System.sched y)))
                                  (upd (cores s) c (f (cores s c))) |}
  | _ => None
  end.
Definition locally (c : Z) (f : local -> local) (s : t) : t := {| sys := sys s; cores := upd (cores s) c (f (cores s c)) |}.

Definition idle_on (s : t) (c : Z) : bool := IsIdle (System.sched (sys s)) c.

(** One step of the loop of the idle thread of core [c]. *)
Definition IdleLoop (c : Z) (s : t) : option t :=
  match at_ (cores s c) with
  | Test =>
      if negb (IsEmpty (System.sched (sys s))) then Some (locally c (fun l => at_place Entering (SetMasked false l)) s)
      else Some (locally c (at_place Quiet) s)
  | Entering => guarded c (fun l => at_place Test (at_level true l)) [System.EResume c] s
  | Quiet =>
      let keepTicking := (c =? 0) && Bellringer.HasPendingBells (System.bellringer (sys s)) in
      Some (locally c (fun l => at_place Drowsy (SetMasked (negb keepTicking) l)) s)
  | Drowsy => Some (locally c (at_place Halted) s)
  | Halted => None
  end.

(** What the epilogue of a vector calls; [keys] is the number of keys a keyboard interrupt
    brings in. *)
Definition epilogue (v c : Z) (keys : nat) : list System.event :=
  if v =? TIMER_VECTOR then (if c =? 0 then [System.ECheck c] else []) ++ [System.EResume c]
  else if v =? KEYBOARD_VECTOR then replicate keys (System.EV c Epilogues.KeysAvailable)
  else [System.EResume c].

Definition interruptible (s : t) (c : Z) : bool :=
  level (cores s c) || negb (idle_on s c) || open_ (at_ (cores s c)).

(** An interrupt ends [hlt]; the wake-up epilogue switches the timer on. *)
Definition interrupt (v : Z) (l : local) : local :=
  let l := acknowledge v l in
  let l := if bool_decide (at_ l = Halted) then at_place Test l else l in
  at_level true (if v =? WAKEUP then SetMasked false l else l).

Inductive label :=
| Loop (c : Z)                                 (* the idle loop *)
| Take (c v : Z) (keys : nat)                  (* a pending interrupt and its epilogue *)
| Leave (c : Z)                                (* Guard::Leave *)
| Call (c : Z) (e : System.event)              (* a thread calls into the guard *)
| Tick (c : Z) | Key (c : Z).                  (* the hardware *)

(** Calls threads make. *)
Definition callable (c : Z) (e : System.event) : bool :=
  match e with
  | System.EReady c' _ | System.EResume c' | System.EExit c' | System.EP c' _ | System.EV c' _
  | System.ESleep c' _ _ => c' =? c
  | System.EKill _ => true
  | System.ESchedule _ | System.ECheck _ => false
  end.

Definition events (l : label) (s : t) : list System.event :=
  match l with
  | Loop c => match at_ (cores s c) with Entering => [System.EResume c] | _ => [] end
  | Take c v keys => epilogue v c keys
  | Call _ e => [e]
  | Leave _ | Tick _ | Key _ => []
  end.

Definition step (l : label) (s : t) : option t :=
  match l with
  | Loop c => if idle_on s c && negb (level (cores s c)) then IdleLoop c s else None
  | Take c v keys =>
      if bool_decide (v ∈ pending (cores s c)) && interruptible s c
      then guarded c (interrupt v) (epilogue v c keys) s else None
  | Leave c => if level (cores s c) then Some (locally c (at_level false) s) else None
  | Call c e => if negb (idle_on s c) && callable c e then guarded c (at_level true) [e] s else None
  | Tick c => if negb (masked (cores s c)) then Some (locally c (raise TIMER_VECTOR) s) else None
  | Key c => Some (locally c (raise KEYBOARD_VECTOR) s)
  end.

Definition label_core (l : label) : Z :=
  match l with Loop c | Take c _ _ | Leave c | Call c _ | Tick c | Key c => c end.

(** Runs, along with the abstract system of SyncSpec.v. *)
Variable stack_owner : Z -> Z.
Fixpoint all_enabled (pop : list Z) (es : list System.event) (A : asys) : Prop :=
  match es with [] => True | e :: es => enabled stack_owner pop e A /\ all_enabled pop es (astep e A) end.
Definition asteps (es : list System.event) (A : asys) : asys := foldl (fun A e => astep e A) A es.

Inductive reachable (pop : list Z) : asys -> t -> Prop :=
| reach_start A y : sys_sim stack_owner pop A y -> (forall c, is_core c -> s_run A c <> 0) ->
    reachable pop A {| sys := y; cores := fun _ => Started |}
| reach_step A s l s' : reachable pop A s -> is_core (label_core l) -> all_enabled pop (events l s) A ->
    step l s = Some s' -> reachable pop (asteps (events l s) A) s'.

(** ** What has to hold *)

(** A core that does not doze: it runs a thread, is at epilogue level, is on its way to the test
    of the ready queue, or has an interrupt to take.  An idle one will look at the queue without
    anybody's help; a thread may keep its core for as long as it likes if the timer is masked there
    ([clock_can_stop]). *)
Definition awake (s : t) (c : Z) : Prop :=
  idle_on s c = false \/ level (cores s c) = true \/ dozing (at_ (cores s c)) = false \/ pending (cores s c) <> [].

(** Core 0 ticks, or will decide again whether it has to. *)
Definition clock_runs (s : t) : Prop :=
  masked (cores s 0) = false \/ WAKEUP ∈ pending (cores s 0) \/ undecided (at_ (cores s 0)) = true.

(** ** Lemmas *)

Lemma post_keeps sent f c : masked (post sent f c) = masked (f c) /\ level (post sent f c) = level (f c) /\
  at_ (post sent f c) = at_ (f c) /\ (forall v, v ∈ pending (f c) -> v ∈ pending (post sent f c)).
Proof.
  unfold post. generalize (f c). induction sent as [|[a v] sent IH]; intros l; [done|]. simpl.
  destruct (IH (if GetLocalApicId c =? a then raise v l else l)) as (H1 & H2 & H3 & H4).
  rewrite H1, H2, H3. destruct (GetLocalApicId c =? a); split_and!; try done.
  intros w Hw. apply H4. by apply elem_of_cons; right.
Qed.

Lemma post_sent sent f c v : (GetLocalApicId c, v) ∈ sent -> v ∈ pending (post sent f c).
Proof.
  unfold post. generalize (f c). induction sent as [|[a w] sent IH]; intros l Hin; [by apply elem_of_nil in Hin|].
  simpl. apply elem_of_cons in Hin as [E|Hin]; [|by apply IH]. injection E as <- <-. rewrite Z.eqb_refl.
  apply (post_keeps sent (fun _ => raise v l) c). by left.
Qed.

(** Only the calling core's thread changes. *)
Definition event_core (e : System.event) : option Z :=
  match e with
  | System.ESchedule c | System.EResume c | System.EExit c | System.EP c _ | System.ESleep c _ _ => Some c
  | _ => None
  end.

Lemma astep_run_other e A c : event_core e <> Some c -> s_run (astep e A) c = s_run A c.
Proof.
  intros H. destruct e; simpl in *; try done; try (rewrite upd_ne by congruence; done).
  - destruct (0 <? s_count A i); [done|]. simpl. by rewrite upd_ne by congruence.
  - by destruct (s_waits A i).
  - destruct (ms =? 0); [done|]. simpl. by rewrite upd_ne by congruence.
Qed.

Lemma asteps_run_other es A c : Forall (fun e => event_core e <> Some c) es -> s_run (asteps es A) c = s_run A c.
Proof.
  revert A. induction es as [|e es IH]; intros A H; [done|]. apply Forall_cons_1 in H as [He Hes].
  unfold asteps. simpl. fold (asteps es (astep e A)). by rewrite IH, astep_run_other.
Qed.

(** Sleepers come from [Sleep] only. *)
Lemma no_sleep_no_due e A : (forall c b ms, e <> System.ESleep c b ms) -> s_due A = [] -> s_due (astep e A) = [].
Proof.
  intros H Hd. destruct e; simpl; try done.
  - by destruct (0 <? s_count A i).
  - by destruct (s_waits A i).
  - by destruct (H core bell ms).
  - by rewrite Hd.
Qed.

Lemma run_sim pop es : forall A y y', sys_sim stack_owner pop A y -> all_enabled pop es A -> run es y = Ok y' ->
  sys_sim stack_owner pop (asteps es A) y'.
Proof.
  induction es as [|e es IH]; intros A y y' HS He Hr; simpl in Hr; [by injection Hr as <-|].
  destruct He as [He Hes]. destruct (exec_refines stack_owner pop A y e HS He) as [(y1 & HE & HS1)|[_ [why HP]]].
  - rewrite HE in Hr. by apply (IH _ y1).
  - by rewrite HP in Hr.
Qed.

(** A core that has started keeps a thread. *)
Lemma ready_nonzero pop A y x : sys_sim stack_owner pop A y -> x ∈ s_ready A -> x <> 0.
Proof.
  intros HS Hx ->. destruct (ss_inv _ _ _ _ HS) as (bl & HI & _). pose proof (y_inv _ _ _ _ _ _ _ HI) as Hi.
  apply (i_null _ _ _ _ Hi). by apply (i_ready _ _ _ _ Hi).
Qed.

Lemma pick_nonzero (dead : Z -> bool) l c : (forall x, x ∈ l -> x <> 0) -> default (s_IdleThread c) (pick dead l).1 <> 0.
Proof.
  intros Hl. induction l as [|x l IH]; simpl; [apply ml_idle|].
  destruct (dead x); [apply IH; set_solver|]. simpl. apply Hl. set_solver.
Qed.

Lemma astep_live pop e A y c : sys_sim stack_owner pop A y -> s_run A c <> 0 -> s_run (astep e A) c <> 0.
Proof.
  intros HS Hc.
  assert (Hsw : forall c' l A', (forall x, x ∈ l -> x <> 0) -> s_run A' c <> 0 -> s_run (s_switch c' l A') c <> 0).
  { intros c' l A' Hl H. simpl. destruct (decide (c = c')) as [->|]; [rewrite upd_eq; by apply pick_nonzero|by rewrite upd_ne]. }
  assert (Hr : forall x, x ∈ s_ready A -> x <> 0) by (intros x; by apply (ready_nonzero pop A y)).
  destruct e; cbn [astep]; try done; try (by apply Hsw).
  - destruct (decide (core = c)) as [->|Hn]; [|simpl; by rewrite upd_ne by congruence].
    apply Hsw; [|done]. intros x Hx. destruct (_ && _); [|by apply Hr].
    apply elem_of_app in Hx as [Hx|Hx]; [by apply Hr|]. apply list_elem_of_singleton in Hx as ->. done.
  - destruct (0 <? s_count A i); [done|by apply Hsw].
  - by destruct (s_waits A i).
  - destruct (ms =? 0); [done|by apply Hsw].
Qed.

Lemma asteps_live pop es : forall A y y' c, sys_sim stack_owner pop A y -> all_enabled pop es A -> run es y = Ok y' ->
  s_run A c <> 0 -> s_run (asteps es A) c <> 0.
Proof.
  induction es as [|e es IH]; intros A y y' c HS He Hr Hc; [done|]. destruct He as [He Hes]. simpl in Hr.
  destruct (exec_refines stack_owner pop A y e HS He) as [(y1 & HE & HS1)|[_ [why HP]]]; [|by rewrite HP in Hr].
  rewrite HE in Hr. apply (IH (astep e A) y1 y'); [done..|]. by apply (astep_live pop _ A y).
Qed.

Lemma sim_idle pop A s c : sys_sim stack_owner pop A (sys s) -> is_core c -> idle_on s c = (s_run A c =? s_IdleThread c).
Proof. intros HS Hc. unfold idle_on, IsIdle, IsActive. by rewrite (ss_run _ _ _ _ HS). Qed.

Lemma rep_empty L q l : Queue.rep L q l -> Queue.IsEmpty q = bool_decide (l = []).
Proof.
  intros [Hc _ _]. unfold Queue.IsEmpty. destruct l as [|x l]; simpl in Hc.
  - by rewrite Hc.
  - destruct Hc as (-> & Hx & _). rewrite bool_decide_false by done. by apply Z.eqb_neq.
Qed.

Lemma sim_ready_empty pop A y : sys_sim stack_owner pop A y -> IsEmpty (System.sched y) = bool_decide (s_ready A = []).
Proof. intros HS. destruct (ss_inv _ _ _ _ HS) as (bl & [Hi _ _ _ _ _ _ _ _ _] & _). apply (rep_empty _ _ _ (i_rep _ _ _ _ Hi)). Qed.

Lemma sim_bells pop A y : sys_sim stack_owner pop A y ->
  Bellringer.HasPendingBells (System.bellringer y) = bool_decide (s_due A <> []).
Proof.
  intros HS. destruct (ss_inv _ _ _ _ HS) as (bl & HI & <-). unfold Bellringer.HasPendingBells.
  rewrite (rep_empty _ _ _ (y_bells _ _ _ _ _ _ _ HI)). destruct bl as [|b bl]; [done|].
  by rewrite (bool_decide_false (b :: bl = [])), bool_decide_true.
Qed.

(** *** The interrupt [Sleep] sends *)

Lemma Dispatch_ipis c (s : Sched.t K) n s' : Dispatch c s n = Ok s' -> ipis s' = ipis s.
Proof.
  unfold Dispatch, ThreadResume. intros H. repeat (apply obind_Ok in H as (? & ? & H)).
  destruct (Active c s =? n); [by injection H as <-|]. repeat (apply obind_Ok in H as (? & ? & H)).
  destruct (Context.ContextSwitch _ _ _). by injection H as <-.
Qed.

Lemma Resume_ipis c (s : Sched.t K) b s' : Resume c s b = Ok s' -> ipis s' = ipis s.
Proof.
  unfold Resume. intros H. apply obind_Ok in H as (_ & _ & H). apply obind_Ok in H as ([n s2] & HG & H).
  apply Dispatch_ipis in H as ->. unfold GetNext in HG. apply obind_Ok in HG as ([[x L] q] & _ & HG).
  injection HG as _ <-. simpl. destruct (b && _ && _); [|done]. unfold Append.
  by destruct (Queue.Append _ _ _) as [[? ?] ?].
Qed.

Lemma Sleep_wakes_clock c b ms y y' : System.exec (System.ESleep c b ms) y = Ok y' -> ms <> 0 ->
  Bellringer.HasPendingBells (System.bellringer y) = false -> IsIdle (System.sched y) 0 = true ->
  (GetLocalApicId 0, WAKEUP) ∈ drop (length (ipis (System.sched y))) (ipis (System.sched y')).
Proof.
  intros H Hms Hb Hi. cbn [System.exec] in H. apply obind_Ok in H as ([br s] & HS & H). injection H as <-.
  unfold Bellringer.Sleep in HS. rewrite (proj2 (Z.eqb_neq _ _) Hms) in HS.
  unfold Bellringer.HasPendingBells in Hb. apply negb_false_iff in Hb. rewrite Hb, Hi in HS. cbv zeta in HS.
  apply obind_Ok in HS as (_ & _ & HS). apply obind_Ok in HS as ([prev ticks] & _ & HS).
  destruct (if prev =? 0 then _ else _) as [[? ?] ?]. apply obind_Ok in HS as (s' & HR & HS).
  injection HS as _ <-. apply Resume_ipis in HR. simpl. rewrite HR. simpl. rewrite drop_app_length. by left.
Qed.

(** ** The invariant *)

Record wf (pop : list Z) (A : asys) (s : t) : Prop := {
  wf_sim : sys_sim stack_owner pop A (sys s);
  wf_live c : is_core c -> s_run A c <> 0;
  wf_quiet c : is_core c -> dozing (at_ (cores s c)) = true ->
    s_run A c = s_IdleThread c /\ level (cores s c) = false;
  wf_enter c : is_core c -> at_ (cores s c) = Entering -> masked (cores s c) = false;
  wf_clock : s_due A <> [] -> s_run A 0 = s_IdleThread 0 -> clock_runs s;
  wf_awake : s_ready A <> [] -> exists c, is_core c /\ awake s c }.


(** A step that changes one core's own state. *)
Lemma locally_other c f s c' : c' <> c -> cores (locally c f s) c' = cores s c'.
Proof. intros. simpl. by rewrite upd_ne. Qed.
Lemma locally_self c f s : cores (locally c f s) c = f (cores s c).
Proof. simpl. by rewrite upd_eq. Qed.

Lemma wf_locally pop A s c f : wf pop A s -> is_core c ->
  (dozing (at_ (f (cores s c))) = true -> s_run A c = s_IdleThread c /\ level (f (cores s c)) = false) ->
  (at_ (f (cores s c)) = Entering -> masked (f (cores s c)) = false) ->
  (c = 0 -> s_due A <> [] -> s_run A 0 = s_IdleThread 0 -> clock_runs (locally 0 f s)) ->
  (s_ready A <> [] -> awake s c -> awake (locally c f s) c) ->
  wf pop A (locally c f s).
Proof.
  intros [W1 W2 W3 W4 W5 W6] Hc H1 H2 H3 H4. split; [done|done|..].
  - intros c' Hc'. destruct (decide (c' = c)) as [->|]; [by rewrite locally_self|]. rewrite locally_other by done. by apply W3.
  - intros c' Hc'. destruct (decide (c' = c)) as [->|]; [by rewrite locally_self|]. rewrite locally_other by done. by apply W4.
  - intros Hd Hr. destruct (decide (c = 0)) as [->|]; [by apply H3|]. unfold clock_runs.
    rewrite !locally_other by done. by apply W5.
  - intros Hr. destruct (W6 Hr) as (w & Hw & Ha). exists w. split; [done|].
    destruct (decide (w = c)) as [->|]; [by apply H4|]. unfold awake in *. by rewrite !locally_other.
Qed.

(** A step under the guard: its core comes out at epilogue level, so it is awake. *)
Lemma wf_guarded pop A s s' c f es : wf pop A s -> is_core c -> guarded c f es s = Some s' ->
  all_enabled pop es A -> Forall (fun e => forall c', event_core e = Some c' -> c' = c) es ->
  level (f (cores s c)) = true -> dozing (at_ (f (cores s c))) = false ->
  (at_ (f (cores s c)) = Entering -> masked (f (cores s c)) = false) ->
  (c <> 0 -> s_due A = [] -> s_due (asteps es A) <> [] -> s_run A 0 = s_IdleThread 0 -> WAKEUP ∈ pending (cores s' 0)) ->
  wf pop (asteps es A) s'.
Proof.
  intros [W1 W2 W3 W4 W5 W6] Hc Hg He Hes Hl Hp Hm Hwake. unfold guarded in Hg.
  destruct (run es (sys s)) as [y| | | |] eqn:Er; try done. injection Hg as Hs'.
  pose proof (run_sim pop es A (sys s) y W1 He Er) as HS.
  assert (Hother : forall c', c' <> c -> s_run (asteps es A) c' = s_run A c').
  { intros c' Hn. apply asteps_run_other. eapply Forall_impl; [exact Hes|]. intros e H E. by apply Hn, H. }
  assert (Hloc : forall c', masked (cores s' c') = masked (upd (cores s) c (f (cores s c)) c') /\
    level (cores s' c') = level (upd (cores s) c (f (cores s c)) c') /\
    at_ (cores s' c') = at_ (upd (cores s) c (f (cores s c)) c') /\
    forall v, v ∈ pending (upd (cores s) c (f (cores s c)) c') -> v ∈ pending (cores s' c')).
  { intros c'. rewrite <- Hs'. apply post_keeps. }
  split.
  - rewrite <- Hs'. exact HS.
  - intros c' Hc'. destruct (decide (c' = c)) as [->|]; [|rewrite Hother by done; by apply W2].
    apply (asteps_live pop es A (sys s) y); [done..|by apply W2].
  - intros c' Hc'. destruct (Hloc c') as (_ & -> & -> & _). destruct (decide (c' = c)) as [->|Hn].
    + rewrite upd_eq, Hp. done.
    + rewrite upd_ne, Hother by done. by apply W3.
  - intros c' Hc'. destruct (Hloc c') as (-> & _ & -> & _). destruct (decide (c' = c)) as [->|Hn]; [by rewrite upd_eq|].
    rewrite upd_ne by done. by apply W4.
  - intros Hd Hr. unfold clock_runs. destruct (Hloc 0) as (-> & _ & -> & Hpe).
    destruct (decide (c = 0)) as [->|Hn].
    + rewrite upd_eq. destruct (at_ (f (cores s 0))) eqn:Ea; try done; [by right; right|left; by apply Hm].
    + rewrite upd_ne in * by done. rewrite Hother in Hr by done.
      destruct (decide (s_due A = [])) as [Hz|Hz]; [right; left; by apply Hwake|].
      destruct (W5 Hz Hr) as [H|[H|H]]; [by left|right; left; by apply Hpe|by right; right].
  - intros _. exists c. split; [done|]. right; left. destruct (Hloc c) as (_ & -> & _). by rewrite upd_eq.
Qed.


Lemma epilogue_core v c keys : Forall (fun e => forall c', event_core e = Some c' -> c' = c) (epilogue v c keys).
Proof.
  unfold epilogue. repeat case_match; simpl; repeat constructor; simpl; try (by intros ? [= <-]); try done.
  apply Forall_replicate. done.
Qed.

Lemma epilogue_due v c keys A : s_due A = [] -> s_due (asteps (epilogue v c keys) A) = [].
Proof.
  assert (H : Forall (fun e => forall c b ms, e <> System.ESleep c b ms) (epilogue v c keys)).
  { unfold epilogue. repeat case_match; simpl; repeat constructor; try done. by apply Forall_replicate. }
  revert A. induction H as [|e es He _ IH]; intros A Hd; [done|]. unfold asteps. simpl. apply IH. by apply no_sleep_no_due.
Qed.

Lemma loop_wf pop A s c s' : wf pop A s -> is_core c -> idle_on s c = true -> level (cores s c) = false ->
  all_enabled pop (events (Loop c) s) A -> IdleLoop c s = Some s' -> wf pop (asteps (events (Loop c) s) A) s'.
Proof.
  intros W Hc Hi Hl He Hs. pose proof (wf_sim _ _ _ W) as HS.
  pose proof Hi as Hrun. rewrite (sim_idle pop A s c HS Hc), Z.eqb_eq in Hrun.
  unfold IdleLoop in Hs. unfold events in *. destruct (at_ (cores s c)) eqn:Ea; simpl in He.
  - rewrite (sim_ready_empty pop A _ HS) in Hs. case_bool_decide as Hq; injection Hs as <-.
    + apply wf_locally; [done..| | |]; unfold clock_runs, awake; rewrite ?locally_self; try done. by right; right.
    + apply wf_locally; [done..| | |]; unfold clock_runs, awake; rewrite ?locally_self; try done; [by left|].
      intros _ _. by right; right; left.
  - rewrite (sim_bells pop A _ HS) in Hs. injection Hs as <-. apply wf_locally; [done..| | |].
    + done.
    + intros -> Hd _. unfold clock_runs. rewrite locally_self. left. simpl. by rewrite bool_decide_true.
    + intros _. unfold awake. rewrite locally_self, Hl, Ea. simpl. change (idle_on (locally c _ s) c) with (idle_on s c).
      intros [H|[H|[H|H]]]; [congruence|done|done|by right; right; right].
  - injection Hs as <-. apply wf_locally; [done..| | |].
    + done.
    + intros -> Hd Hr. destruct (wf_clock _ _ _ W Hd Hr) as [H|[H|H]]; unfold clock_runs; rewrite locally_self;
        [by left|by right; left|by rewrite Ea in H].
    + intros _. unfold awake. rewrite locally_self, Hl, Ea. simpl. change (idle_on (locally c _ s) c) with (idle_on s c).
      intros [H|[H|[H|H]]]; [congruence|done|done|by right; right; right].
  - done.
  - apply (wf_guarded pop A s s' c _ _ W Hc Hs He); try done.
    repeat constructor. simpl. by intros ? [= <-].
Qed.

Lemma interrupt_at v l : at_ (interrupt v l) = if bool_decide (at_ l = Halted) then Test else at_ l.
Proof. unfold interrupt. simpl. destruct (v =? WAKEUP); by case_bool_decide. Qed.
Lemma interrupt_masked v l : masked l = false -> masked (interrupt v l) = false.
Proof. unfold interrupt. simpl. destruct (v =? WAKEUP), (bool_decide _); done. Qed.

Lemma take_wf pop A s c v keys s' : wf pop A s -> is_core c -> interruptible s c = true ->
  all_enabled pop (epilogue v c keys) A -> guarded c (interrupt v) (epilogue v c keys) s = Some s' ->
  wf pop (asteps (epilogue v c keys) A) s'.
Proof.
  intros W Hc Hi He Hs. pose proof (wf_quiet _ _ _ W c Hc) as Q.
  assert (Hd : dozing (at_ (cores s c)) = true -> at_ (cores s c) = Halted).
  { intros Hd. destruct (Q Hd) as [Q1 Q2]. unfold interruptible in Hi. rewrite Q2 in Hi.
    rewrite (sim_idle pop A s c (wf_sim _ _ _ W) Hc), Q1, Z.eqb_refl in Hi. by destruct (at_ (cores s c)). }
  apply (wf_guarded pop A s s' c _ _ W Hc Hs He); [apply epilogue_core|done|..].
  - rewrite interrupt_at. case_bool_decide as Hh; [done|]. destruct (dozing (at_ (cores s c))) eqn:E; [|done].
    by destruct Hh; apply Hd.
  - rewrite interrupt_at. case_bool_decide; [done|]. intros E. apply interrupt_masked. by apply (wf_enter _ _ _ W c Hc).
  - intros _ Hz Hn. by rewrite epilogue_due in Hn.
Qed.

Lemma call_wf pop A s c e s' : wf pop A s -> is_core c -> idle_on s c = false -> callable c e = true ->
  all_enabled pop [e] A -> guarded c (at_level true) [e] s = Some s' -> wf pop (asteps [e] A) s'.
Proof.
  intros W Hc Hi Hcall He Hs. pose proof (wf_sim _ _ _ W) as HS.
  assert (Hd : dozing (at_ (cores s c)) = false).
  { destruct (dozing (at_ (cores s c))) eqn:E; [|done]. destruct (wf_quiet _ _ _ W c Hc E) as [Q1 _].
    rewrite (sim_idle pop A s c HS Hc), Q1, Z.eqb_refl in Hi. done. }
  apply (wf_guarded pop A s s' c _ _ W Hc Hs He); try done.
  - repeat constructor. destruct e; simpl in *; try done; intros ? [= <-]; by apply Z.eqb_eq.
  - apply (wf_enter _ _ _ W c Hc).
  - intros Hc0 Hz Hn Hr.
    assert (Hsl : (exists c' b ms, e = System.ESleep c' b ms) \/ (forall c' b ms, e <> System.ESleep c' b ms))
      by (destruct e; solve [right; done|left; eauto]).
    destruct Hsl as [(c' & b & ms & ->)|Hno]; [|exfalso; apply Hn; by apply no_sleep_no_due].
    unfold guarded in Hs. cbn [run] in Hs. destruct (System.exec (System.ESleep c' b ms) (sys s)) as [y| | | |] eqn:Ee; try done.
    injection Hs as <-. apply post_sent. apply (Sleep_wakes_clock c' b ms); [done|..].
    + intros ->. apply Hn. done.
    + by rewrite (sim_bells pop A _ HS), Hz.
    + change (idle_on s 0 = true). rewrite (sim_idle pop A s 0 HS); [by apply Z.eqb_eq|]. unfold is_core in *. lia.
Qed.


Lemma idle_step_wf pop A s l s' : wf pop A s -> is_core (label_core l) -> all_enabled pop (events l s) A ->
  step l s = Some s' -> wf pop (asteps (events l s) A) s'.
Proof.
  intros W Hc He Hs. pose proof (wf_sim _ _ _ W) as HS. destruct l as [c|c v keys|c|c e|c|c]; simpl in Hc, Hs.
  - destruct (idle_on s c && negb (level (cores s c))) eqn:Eb; [|done]. apply andb_true_iff in Eb as [E1 E2].
    apply loop_wf; try done. by apply negb_true_iff.
  - destruct (bool_decide _ && interruptible s c) eqn:Eb; [|done]. apply andb_true_iff in Eb as [_ E2].
    by apply (take_wf pop A s c v keys).
  - destruct (level (cores s c)) eqn:El; [|done]. injection Hs as <-.
    assert (Hd : dozing (at_ (cores s c)) = false).
    { destruct (dozing (at_ (cores s c))) eqn:Ed; [|done]. destruct (wf_quiet _ _ _ W c Hc Ed). congruence. }
    apply wf_locally; [done|done|..].
    + simpl. by rewrite Hd.
    + apply (wf_enter _ _ _ W c Hc).
    + intros -> Hu Hr. unfold clock_runs. rewrite locally_self. by apply (wf_clock _ _ _ W).
    + intros _ _. right; right; left. by rewrite locally_self.
  - destruct (negb (idle_on s c) && callable c e) eqn:Eb; [|done]. apply andb_true_iff in Eb as [E1 E2].
    apply (call_wf pop A s c e); try done. by apply negb_true_iff.
  - destruct (masked (cores s c)) eqn:Em; [done|]. injection Hs as <-. apply wf_locally; [done|done|..].
    + apply (wf_quiet _ _ _ W c Hc).
    + apply (wf_enter _ _ _ W c Hc).
    + intros -> _ _. left. by rewrite locally_self.
    + intros _ _. right; right; right. by rewrite locally_self.
  - injection Hs as <-. apply wf_locally; [done|done|..].
    + apply (wf_quiet _ _ _ W c Hc).
    + apply (wf_enter _ _ _ W c Hc).
    + intros -> Hu Hr. unfold clock_runs. rewrite locally_self. destruct (wf_clock _ _ _ W Hu Hr) as [H|[H|H]];
        [by left|right; left; by right|by right; right].
    + intros _ _. right; right; right. by rewrite locally_self.
Qed.


Lemma reachable_wf pop A s : reachable pop A s -> wf pop A s.
Proof.
  induction 1 as [A y HS Hl|A s l s' _ IH Hc He Hs]; [|by apply (idle_step_wf pop A s l)].
  split; try done.
  - intros _ _. by right; right.
  - intros _. exists 0. split; [|by right; left]. pose proof ml_count. unfold is_core. lia.
Qed.


(** C14: No wake-up is lost to a dozing core.  However the cores interleave, and whatever interrupts
    come when: while a thread is ready not every core dozes, that is, some core runs a thread, is
    at epilogue level, has an interrupt to take or is about to test the queue again (if it runs a
    thread with its timer masked, it comes back to the queue only when that thread calls the
    scheduler); and while a thread sleeps and core 0, whose timer counts for the sleepers, has nothing
    to run, its timer is on, or the interrupt that turns it on is pending, or its idle loop has
    yet to decide. *)
Theorem no_wakeup_is_lost pop A s : reachable pop A s ->
  (IsEmpty (System.sched (sys s)) = false -> exists c, is_core c /\ awake s c) /\
  (Bellringer.HasPendingBells (System.bellringer (sys s)) = true -> idle_on s 0 = true -> clock_runs s).
Proof.
  intros HR. pose proof (reachable_wf _ _ _ HR) as W. pose proof (wf_sim _ _ _ W) as HS. split.
  - rewrite (sim_ready_empty pop A _ HS). intros Hq. apply (wf_awake _ _ _ W). by apply bool_decide_eq_false_1 in Hq.
  - rewrite (sim_bells pop A _ HS). intros Hb Hi. apply bool_decide_eq_true_1 in Hb. apply (wf_clock _ _ _ W Hb).
    rewrite (sim_idle pop A s 0 HS), Z.eqb_eq in Hi; [done|]. pose proof ml_count. unfold is_core. lia.
Qed.

(** A run as a list of steps. *)
Definition next (l : label) (s : t) : t := default s (step l s).
Fixpoint playable (ls : list label) (s : t) : bool :=
  match ls with [] => true | l :: ls => bool_decide (is_Some (step l s)) && playable ls (next l s) end.
Definition play (ls : list label) (s : t) : t := foldl (fun s l => next l s) s ls.
Fixpoint permitted (pop : list Z) (ls : list label) (A : asys) (s : t) : Prop :=
  match ls with
  | [] => True
  | l :: ls => is_core (label_core l) /\ all_enabled pop (events l s) A /\
               permitted pop ls (asteps (events l s) A) (next l s)
  end.

Lemma permitted_take pop n ls : forall A s, permitted pop ls A s -> permitted pop (take n ls) A s.
Proof.
  revert ls. induction n as [|n IH]; intros [|l ls] A s H; try done. destruct H as (? & ? & ?). simpl. auto.
Qed.

Lemma idle_play_reachable pop ls : forall A s, reachable pop A s -> permitted pop ls A s -> playable ls s = true ->
  exists A', reachable pop A' (play ls s).
Proof.
  induction ls as [|l ls IH]; intros A s HR HP HB; [by exists A|]. destruct HP as (Hc & He & HP). simpl in HB.
  apply andb_true_iff in HB as [Hs HB]. apply bool_decide_eq_true_1 in Hs as [s' Hs].
  apply (IH (asteps (events l s) A)); [|done..]. unfold next. rewrite Hs. by apply (reach_step pop A s l).
Qed.
End Model.
Arguments t : clear implicits.


(** The epilogues of Epilogues.v make the calls of [epilogue]. *)
Section Epilogues.
Context {K D : Type} {SA : StackAllocator K} {BB : Build} {CC : Context.Code} {MM : Machine} {HW : Hardware D}.

Lemma timer_epilogue c (v : Epilogues.Vault K D) keys :
  Epilogues.Timer c v =
  let* y := run (epilogue TIMER_VECTOR c keys) (Epilogues.system v) in Ok (Epilogues.with_system v y).
Proof.
  unfold Epilogues.Timer, epilogue. rewrite Z.eqb_refl. destruct (c =? 0); cbn [app run].
  - destruct (System.exec (System.ECheck c) _) as [y| | | |]; try done. cbn [obind].
    by destruct (System.exec (System.EResume c) y).
  - cbn [obind]. by destruct (System.exec (System.EResume c) _).
Qed.

Lemma assassin_epilogue c (v : Epilogues.Vault K D) keys :
  Epilogues.Assassin c v =
  let* y := run (epilogue ASSASSIN c keys) (Epilogues.system v) in Ok (Epilogues.with_system v y).
Proof.
  change (epilogue ASSASSIN c keys) with [System.EResume c]. unfold Epilogues.Assassin. cbn [run].
  by destruct (System.exec (System.EResume c) _).
Qed.
End Epilogues.

(** ** Two cores *)
#[local] Existing Instances demo_machine demo_code checked_build.

Definition demo_start : t Z := {| sys := demo_y4; cores := fun _ => Started |}.

(** Thread 0x100 waits for a key on core 0, which dozes off while its timer interrupt is already
    pending; a key and the tick are taken together, and core 0 resumes the thread through the
    timer epilogue, which leaves the timer masked.  Then thread 0x200 sleeps on core 1. *)
Definition stopping_run : list label :=
  [Leave 0; Leave 1; Call 0 (System.EP 0 Epilogues.KeysAvailable); Leave 0; Loop 0; Tick 0; Loop 0; Loop 0; Key 0;
   Take 0 KEYBOARD_VECTOR 1; Take 0 TIMER_VECTOR 0; Leave 0;
   Call 1 (System.ESleep 1 0x9008 1000); Leave 1; Loop 1; Loop 1; Loop 1].

Lemma demo_start_reachable : reachable demo_owner demo_pop demo_A4 demo_start.
Proof.
  constructor; [apply demo_sim4|]. intros c Hc. destruct Hc as [H1 H2]. change Count with 2 in H2.
  assert (c = 0 \/ c = 1) as [-> | ->] by lia; vm_compute; discriminate.
Qed.

Lemma stopping_run_permitted : permitted demo_owner demo_pop stopping_run demo_A4 demo_start.
Proof.
  unfold stopping_run. cbn [permitted].
  repeat match goal with |- is_core _ /\ _ => split; [by apply demo_core|]; split; [try exact I|] end; try exact I.
  - split; [|done]. split_and!; [by apply demo_core|vm_compute; discriminate|]. change (~ idle 0x100). apply demo_not_idle.
  - exact (conj I I).
  - split; [exact I|]. split; [|done]. split; [by apply demo_core|vm_compute; discriminate].
  - split; [|done]. split_and!; [by apply demo_core|vm_compute; discriminate| |done..].
    change (~ idle 0x200). apply demo_not_idle.
Qed.

(** The clock can stop: the timer and assassin epilogues may take an idle core to a thread without
    switching its timer on again.  After the run above a thread sleeps, core 0 runs the other
    with its timer masked, core 1 is halted, and nothing happens any more but by that thread or by a key:
    the sleeper waits for as long as the thread computes, although its delay ends. *)
Theorem clock_can_stop :
  let s := play stopping_run demo_start in
  (exists A, reachable demo_owner demo_pop A s) /\
  Bellringer.HasPendingBells (System.bellringer (sys s)) = true /\
  (forall l s', is_core (label_core l) -> step l s = Some s' -> (exists e, l = Call 0 e) \/ (exists c, l = Key c)).
Proof.
  cbv zeta. split; [|split].
  - apply (idle_play_reachable demo_owner demo_pop stopping_run demo_A4); [exact demo_start_reachable|exact stopping_run_permitted|].
    vm_compute. reflexivity.
  - vm_compute. reflexivity.
  - intros l s' Hc Hs. assert (Hc' : label_core l = 0 \/ label_core l = 1) by (unfold is_core in Hc; change Count with 2 in Hc; lia).
    assert (Hx : forall c, c = 0 \/ c = 1 -> let s := play stopping_run demo_start in
      masked (cores s c) = true /\ level (cores s c) = false /\ pending (cores s c) = [] /\
      (idle_on s c && negb (bool_decide (at_ (cores s c) = Halted))) = false /\ idle_on s c = (c =? 1)).
    { intros c [-> | ->]; vm_compute; done. }
    generalize dependent (play stopping_run demo_start). intros s Hs Hx.
    destruct (Hx _ Hc') as (H1 & H2 & H3 & H4 & H5).
    destruct l as [c|c v keys|c|c e|c|c]; simpl in *; rewrite ?H1, ?H2, ?H3 in Hs; try done.
    + destruct (idle_on s c) eqn:Ei; [|done]. simpl in *. apply negb_false_iff, bool_decide_eq_true_1 in H4.
      unfold IdleLoop in Hs. by rewrite H4 in Hs.
    + destruct Hc' as [-> | ->]; [left; by eexists|]. by rewrite H5 in Hs.
    + right. by eexists.
Qed.

(** Dozing core, ready thread: the run up to the keyboard's epilogue. *)
Lemma no_wakeup_is_lost_witness :
  let s := play (take 10 stopping_run) demo_start in
  IsEmpty (System.sched (sys s)) = false /\ (exists c, is_core c /\ awake s c).
Proof.
  cbv zeta. split; [vm_compute; reflexivity|].
  destruct (idle_play_reachable demo_owner demo_pop (take 10 stopping_run) demo_A4 demo_start demo_start_reachable) as [A HR].
  - apply permitted_take, stopping_run_permitted.
  - vm_compute. reflexivity.
  - apply (no_wakeup_is_lost demo_owner demo_pop A _ HR). vm_compute. reflexivity.
Defined.

End Idle.
