(* ===== verification/Output.v ===== *)
(** * Lib/StringBuffer.h and Lib/OutputStream.cpp: buffered, formatted output

    A stream collects characters in a fixed buffer and hands blocks to its backend, a
    virtual call.  The blocks handed over are recorded in order; a backend (the text
    screen, the serial line) is a function of them.  Numbers are printed most significant
    digit first, without a second buffer; the two loops are translated with the iteration
    bound of 65 that a 64-bit value never exceeds. *)

From S2P Require Import Prelude.

(** The characters of a literal. *)
Definition codes (s : string) : list Z :=
  (fun a => Z.of_N (Ascii.N_of_ascii a)) <$> String.list_ascii_of_string s.

Module StringBuffer.

Definition BUFFER_SIZE : Z := 128.

Record t := { m_Buffer : list Z; m_Position : Z; flushed : list (list Z) }.

Definition Create : t :=
  {| m_Buffer := replicate (Z.to_nat (BUFFER_SIZE + 1)) 0; m_Position := 0; flushed := [] |}.

(** [m_Buffer[0 .. m_Position)] *)
Definition pending (b : t) : list Z := take (Z.to_nat (m_Position b)) (m_Buffer b).

(** The virtual call: hands the pending characters over and resets [m_Position]. *)
Definition Flush (b : t) : t :=
  {| m_Buffer := m_Buffer b; m_Position := 0; flushed := flushed b ++ [pending b] |}.

Definition Put (InChar : Z) (b : t) : outcome t :=
  let b := if m_Position b =? BUFFER_SIZE then Flush b else b in
  if m_Position b <? BUFFER_SIZE + 1
  then Ok {| m_Buffer := <[Z.to_nat (m_Position b) := u8 InChar]> (m_Buffer b);
             m_Position := m_Position b + 1; flushed := flushed b |}
  else Fault "m_Buffer".

(** Null terminates in place; answers the buffer. *)
Definition Terminated (b : t) : outcome t :=
  if m_Position b <? BUFFER_SIZE + 1
  then Ok {| m_Buffer := <[Z.to_nat (m_Position b) := 0]> (m_Buffer b);
             m_Position := m_Position b; flushed := flushed b |}
  else Fault "m_Buffer".

Record wf (b : t) : Prop := {
  wf_size : length (m_Buffer b) = Z.to_nat (BUFFER_SIZE + 1);
  wf_pos : 0 <= m_Position b <= BUFFER_SIZE }.

(** Everything written so far. *)
Definition text (b : t) : list Z := concat (flushed b) ++ pending b.

Lemma Create_wf : wf Create.
Proof. split; [done|unfold BUFFER_SIZE; simpl; lia]. Qed.

Lemma Flush_ok b : wf b -> wf (Flush b) /\ text (Flush b) = text b /\ pending (Flush b) = [].
Proof.
  intros [Hs Hp]. split; [split; simpl; [done|unfold BUFFER_SIZE; lia]|].
  unfold text. simpl. rewrite concat_app. simpl. by rewrite !app_nil_r.
Qed.

Lemma store_pending b x p : length (m_Buffer b) = Z.to_nat (BUFFER_SIZE + 1) -> 0 <= p < BUFFER_SIZE + 1 ->
  take (Z.to_nat (p + 1)) (<[Z.to_nat p := x]> (m_Buffer b)) = take (Z.to_nat p) (m_Buffer b) ++ [x].
Proof.
  intros Hs Hp. replace (Z.to_nat (p + 1)) with (S (Z.to_nat p)) by lia.
  rewrite (take_S_r _ _ x) by (apply list_lookup_insert_eq; lia). by rewrite take_insert_ge by lia.
Qed.

Lemma Put_ok c b : wf b ->
  exists b', Put c b = Ok b' /\ wf b' /\ text b' = text b ++ [u8 c].
Proof.
  intros Hb. unfold Put. set (b1 := if _ =? _ then Flush b else b).
  assert (H1 : wf b1 /\ text b1 = text b /\ 0 <= m_Position b1 < BUFFER_SIZE).
  { subst b1. destruct (Z.eqb_spec (m_Position b) BUFFER_SIZE).
    - destruct (Flush_ok b Hb) as (? & ? & _). split_and!; try done.
    - destruct Hb. split_and!; try done; lia. }
  destruct H1 as ([Hs _] & Ht & Hp). replace (_ <? BUFFER_SIZE + 1) with true by lia.
  eexists. split; [reflexivity|]. split.
  - split; simpl; [by rewrite length_insert|lia].
  - rewrite <- Ht. unfold text, pending. simpl. rewrite store_pending by (done || lia). by rewrite app_assoc.
Qed.
End StringBuffer.

Module OutputStream.
Import StringBuffer.

Record t := { buffer : StringBuffer.t; m_Base : Z }.

Definition Create : t := {| buffer := StringBuffer.Create; m_Base := 10 |}.
Definition with_base (s : t) (b : Z) : t := {| buffer := buffer s; m_Base := b |}.

Definition PutChar (InChar : Z) (s : t) : outcome t :=
  let* b := Put InChar (buffer s) in Ok {| buffer := b; m_Base := m_Base s |}.

(** The characters of a string up to its terminator; [None] is the null pointer. *)
Fixpoint PutString_loop (InString : list Z) (s : t) : outcome t :=
  match InString with
  | [] => Ok s
  | c :: rest => if c =? 0 then Ok s else let* s := PutChar c s in PutString_loop rest s
  end.
Definition PutString (InString : option (list Z)) (s : t) : outcome t :=
  match InString with
  | None => PutString_loop (codes "(null)") s
  | Some l => PutString_loop l s
  end.

Definition PutBool (InValue : bool) (s : t) : outcome t :=
  PutString (Some (codes (if InValue then "true" else "false"))) s.

(** The two loops of [operator<<(unsigned long long)]. *)
Definition DIGITS : nat := 65.
Fixpoint Divisor_loop (fuel : nat) (InValue base divisor : Z) : outcome Z :=
  match fuel with
  | O => Diverges
  | S k => if base <=? InValue / divisor then Divisor_loop k InValue base (divisor *64 base) else Ok divisor
  end.

Definition DigitChar (digit : Z) : Z := if digit <? 10 then 48 + digit else 97 + digit - 10.

Fixpoint Digits_loop (fuel : nat) (InValue base divisor : Z) (s : t) : outcome t :=
  match fuel with
  | O => Diverges
  | S k =>
      if 0 <? divisor then
        let digit := InValue / divisor in
        let* s := PutChar (DigitChar digit) s in
        Digits_loop k (InValue mod divisor) base (divisor / base) s
      else Ok s
  end.

Definition PutPrefix (base : Z) (s : t) : outcome t :=
  if base =? 2 then PutString (Some (codes "0b")) s
  else if base =? 8 then PutChar 48 s
  else if base =? 16 then PutString (Some (codes "0x")) s
  else Ok s.

Definition PutUnsigned (InValue : Z) (s : t) : outcome t :=
  let base := u64 (if m_Base s <? 2 then 16 else m_Base s) in
  let* s := PutPrefix base s in
  let* divisor := Divisor_loop DIGITS InValue base 1 in
  Digits_loop (S DIGITS) InValue base divisor s.

(** [InValue] is the signed value. *)
Definition PutSigned (InValue : Z) (s : t) : outcome t :=
  if (InValue <? 0) && (m_Base s =? 10) then
    let* s := PutChar 45 s in PutUnsigned ((~64 (u64 InValue)) +64 1) s
  else PutUnsigned (u64 InValue) s.

Definition PutPointer (InPointer : Z) (s : t) : outcome t :=
  let previousBase := m_Base s in
  let* s := PutUnsigned InPointer (with_base s 16) in
  Ok (with_base s previousBase).

(** The manipulators. *)
Definition Flush (s : t) : t := {| buffer := StringBuffer.Flush (buffer s); m_Base := m_Base s |}.
Definition EndLine (s : t) : outcome t := let* s := PutChar 10 s in Ok (Flush s).
Definition Bin (s : t) : t := with_base s 2.
Definition Oct (s : t) : t := with_base s 8.
Definition Dec (s : t) : t := with_base s 10.
Definition Hex (s : t) : t := with_base s 16.

Abbreviation wf s := (StringBuffer.wf (buffer s)).
Abbreviation text s := (StringBuffer.text (buffer s)).

(** [writes f cs]: the operation succeeds, appends exactly [cs] and keeps the base. *)
Definition writes (f : t -> outcome t) (cs : list Z) : Prop :=
  forall s, wf s -> exists s', f s = Ok s' /\ wf s' /\ text s' = text s ++ cs /\ m_Base s' = m_Base s.

Lemma PutChar_writes c : writes (PutChar c) [u8 c].
Proof.
  intros s Hs. unfold PutChar. destruct (Put_ok c (buffer s) Hs) as (b & -> & Hb & Ht).
  by eexists.
Qed.

Definition plain (cs : list Z) : Prop := Forall (fun c => 0 < c < 256) cs.

Lemma PutString_loop_writes cs : plain cs -> writes (PutString_loop cs) cs.
Proof.
  induction cs as [|c cs IH]; intros Hc s Hs; [exists s; by rewrite app_nil_r|].
  apply Forall_cons in Hc as [Hc Hcs]. simpl. replace (c =? 0) with false by lia.
  destruct (PutChar_writes c s Hs) as (s1 & -> & Hs1 & Ht1 & Hb1). cbn [obind].
  destruct (IH Hcs s1 Hs1) as (s2 & -> & Hs2 & Ht2 & Hb2). exists s2. split_and!; try done; [|congruence].
  rewrite Ht2, Ht1, wrap_small by (unfold is_word; lia). by rewrite <- app_assoc.
Qed.

(** ** Numbers *)

(** The value of a digit sequence, most significant first, and of one character. *)
Definition value (base : Z) (ds : list Z) : Z := foldl (fun v d => v * base + d) 0 ds.
Definition CharDigit (c : Z) : Z := if c <? 58 then c - 48 else c - 97 + 10.

Lemma value_app base ds d : value base (ds ++ [d]) = value base ds * base + d.
Proof. unfold value. by rewrite foldl_app. Qed.

Lemma CharDigit_DigitChar d : 0 <= d < 16 -> CharDigit (DigitChar d) = d /\ 0 < DigitChar d < 128.
Proof. intros Hd. unfold CharDigit, DigitChar. repeat case_test; lia. Qed.

(** The digits of [v] below [base ^ S n]. *)
Fixpoint digits (n : nat) (base v : Z) : list Z :=
  match n with
  | O => [v]
  | S k => v / base ^ Z.of_nat n :: digits k base (v mod base ^ Z.of_nat n)
  end.

Section Base.
Variable base : Z.
Hypothesis Hbase : 2 <= base <= 16.

Lemma pow_succ n : base ^ Z.of_nat (S n) = base * base ^ Z.of_nat n.
Proof. rewrite Nat2Z.inj_succ, Z.pow_succ_r by lia. done. Qed.
Lemma pow_pos n : 0 < base ^ Z.of_nat n.
Proof. apply Z.pow_pos_nonneg; lia. Qed.

Lemma digits_range n v : 0 <= v < base ^ Z.of_nat (S n) -> Forall (fun d => 0 <= d < base) (digits n base v).
Proof.
  revert v. induction n as [|n IH]; intros v Hv; cbn [digits].
  - constructor; [|constructor]. rewrite pow_succ in Hv. simpl in Hv. lia.
  - pose proof (pow_pos (S n)). constructor.
    + split; [apply Z.div_pos; lia|]. apply Z.div_lt_upper_bound; [lia|]. rewrite pow_succ in Hv. lia.
    + apply IH. apply Z.mod_pos_bound. lia.
Qed.

Lemma foldl_value ds v0 : foldl (fun v d => v * base + d) v0 ds = v0 * base ^ Z.of_nat (length ds) + value base ds.
Proof.
  induction ds as [|d ds IH] using rev_ind; [unfold value; simpl; lia|].
  rewrite foldl_app, value_app, length_app. simpl. rewrite IH.
  replace (length ds + 1)%nat with (S (length ds)) by lia. rewrite pow_succ. lia.
Qed.

Lemma digits_length n v : length (digits n base v) = S n.
Proof. revert v. induction n as [|n IH]; intros v; simpl; [done|]. by rewrite IH. Qed.

Lemma digits_value n v : 0 <= v < base ^ Z.of_nat (S n) -> value base (digits n base v) = v.
Proof.
  revert v. induction n as [|n IH]; intros v Hv; [done|]. cbn [digits].
  pose proof (pow_pos (S n)) as Hp. pose proof (Z.mod_pos_bound v (base ^ Z.of_nat (S n)) Hp).
  unfold value. cbn [foldl]. rewrite foldl_value, digits_length, IH by lia.
  pose proof (Z.div_mod v (base ^ Z.of_nat (S n)) ltac:(lia)). lia.
Qed.

(** The first loop finds the weight of the leading digit. *)
Lemma Divisor_loop_ok v k n : is_word 64 v -> (k + n)%nat = DIGITS ->
  base ^ Z.of_nat k <= Z.max 1 v -> (0 < n)%nat ->
  exists m, Divisor_loop n v base (base ^ Z.of_nat k) = Ok (base ^ Z.of_nat m) /\
    (m < 64)%nat /\ base ^ Z.of_nat m <= Z.max 1 v /\ v < base ^ Z.of_nat (S m).
Proof.
  intros Hv. revert k. induction n as [|n IH]; intros k Hk Hle Hn; [lia|]. cbn [Divisor_loop].
  pose proof (pow_pos k) as Hp. unfold DIGITS in *.
  assert (Hk64 : (k < 64)%nat).
  { destruct (decide (k < 64)%nat); [done|]. exfalso.
    assert (2 ^ 64 <= base ^ Z.of_nat k).
    { transitivity (2 ^ Z.of_nat k); [apply Z.pow_le_mono_r; lia|apply Z.pow_le_mono_l; lia]. }
    unfold is_word in Hv. lia. }
  destruct (Z.leb_spec base (v / base ^ Z.of_nat k)) as [Hge|Hlt].
  - assert (Hm : base ^ Z.of_nat k * base <= v).
    { pose proof (Z.mul_div_le v (base ^ Z.of_nat k) Hp). nia. }
    rewrite wrap_small by (unfold is_word in *; lia).
    replace (base ^ Z.of_nat k * base) with (base ^ Z.of_nat (S k)) in * by (rewrite pow_succ; lia).
    destruct (decide (n = 0)%nat); [subst; lia|]. apply IH; lia.
  - exists k. split_and!; try done. rewrite pow_succ. unfold is_word in Hv.
    pose proof (Z.div_mod v (base ^ Z.of_nat k) ltac:(lia)). pose proof (Z.mod_pos_bound v (base ^ Z.of_nat k) Hp).
    nia.
Qed.

(** The second loop prints the digits. *)
Lemma Digits_loop_ok m n v : 0 <= v < base ^ Z.of_nat (S m) -> (m + 1 < n)%nat ->
  writes (Digits_loop n v base (base ^ Z.of_nat m)) (DigitChar <$> digits m base v).
Proof.
  revert n v. induction m as [|m IH]; intros n v Hv Hn s Hs.
  - destruct n as [|[|n]]; [lia|lia|]. cbn [Digits_loop]. change (base ^ Z.of_nat 0) with 1.
    replace (0 <? 1) with true by lia. rewrite Z.div_1_r. replace (1 / base) with 0 by (symmetry; apply Z.div_small; lia).
    change (0 <? 0) with false. cbv iota. rewrite pow_succ in Hv. change (base ^ Z.of_nat 0) with 1 in Hv.
    destruct (PutChar_writes (DigitChar v) s Hs) as (s1 & -> & Hs1 & Ht1 & Hb1). cbn [obind]. exists s1.
    rewrite Ht1. destruct (CharDigit_DigitChar v); [lia|]. rewrite wrap_small by (unfold is_word; lia). by split_and!.
  - destruct n as [|n]; [lia|]. cbn [Digits_loop]. pose proof (pow_pos (S m)) as Hp.
    rewrite (proj2 (Z.ltb_lt _ _) Hp). cbv zeta.
    destruct (PutChar_writes (DigitChar (v / base ^ Z.of_nat (S m))) s Hs) as (s1 & -> & Hs1 & Ht1 & Hb1). cbn [obind].
    replace (base ^ Z.of_nat (S m) / base) with (base ^ Z.of_nat m)
      by (rewrite pow_succ, Z.mul_comm, Z.div_mul by lia; done).
    destruct (IH n (v mod base ^ Z.of_nat (S m)) (Z.mod_pos_bound _ _ Hp) ltac:(lia) s1 Hs1) as (s2 & -> & Hs2 & Ht2 & Hb2).
    exists s2. split_and!; try done; [|congruence]. rewrite Ht2, Ht1. cbn [digits]. rewrite fmap_cons, <- app_assoc.
    simpl. pose proof (digits_range (S m) v Hv) as Hd. cbn [digits] in Hd. apply Forall_inv in Hd.
    destruct (CharDigit_DigitChar (v / base ^ Z.of_nat (S m))); [lia|].
    rewrite wrap_small by (unfold is_word; lia). done.
Qed.

Lemma value_chars ds : Forall (fun d => 0 <= d < base) ds ->
  value base (CharDigit <$> (DigitChar <$> ds)) = value base ds.
Proof.
  intros Hd. f_equal. rewrite <- list_fmap_compose. rewrite <- (list_fmap_id ds) at 2. apply list_fmap_ext.
  intros i d Hi. rewrite Forall_lookup in Hd. specialize (Hd i d Hi). simpl.
  apply (CharDigit_DigitChar d). lia.
Qed.

End Base.

(** What introduces a number in each base. *)
Definition number_prefix (base : Z) : list Z :=
  if base =? 2 then [48; 98] else if base =? 8 then [48] else if base =? 16 then [48; 120] else [].
Definition is_radix (base : Z) : Prop := base = 2 \/ base = 8 \/ base = 10 \/ base = 16.

Lemma PutPrefix_writes base : is_radix base -> writes (PutPrefix base) (number_prefix base).
Proof.
  intros [-> | [-> | [-> | ->]]].
  - apply (PutString_loop_writes [48; 98]). repeat constructor; lia.
  - apply (PutChar_writes 48).
  - intros s Hs. exists s. by rewrite app_nil_r.
  - apply (PutString_loop_writes [48; 120]). repeat constructor; lia.
Qed.

(** [reads base cs v]: a canonical spelling of [v], without leading zeros. *)
Definition reads (base : Z) (cs : list Z) (v : Z) : Prop :=
  (1 <= length cs <= 64)%nat /\ value base (CharDigit <$> cs) = v /\ (v <> 0 -> head cs <> Some 48).

Lemma PutUnsigned_ok v s : is_radix (m_Base s) -> is_word 64 v -> wf s ->
  exists s' cs, PutUnsigned v s = Ok s' /\ wf s' /\ text s' = text s ++ number_prefix (m_Base s) ++ cs /\
    m_Base s' = m_Base s /\ reads (m_Base s) cs v.
Proof.
  intros Hr Hv Hs. assert (Hb : 2 <= m_Base s <= 16) by (unfold is_radix in Hr; lia).
  unfold PutUnsigned. replace (m_Base s <? 2) with false by lia. rewrite wrap_small by (unfold is_word; lia).
  destruct (PutPrefix_writes _ Hr s Hs) as (s1 & -> & Hs1 & Ht1 & Hb1). cbn [obind].
  destruct (Divisor_loop_ok (m_Base s) Hb v 0 DIGITS Hv) as (m & Hd & Hm & Hle & Hlt); [done|simpl; lia|unfold DIGITS; lia|].
  change (m_Base s ^ Z.of_nat 0) with 1 in Hd. rewrite Hd. cbn [obind].
  assert (Hv' : 0 <= v < m_Base s ^ Z.of_nat (S m)) by (unfold is_word in Hv; lia).
  destruct (Digits_loop_ok (m_Base s) Hb m (S DIGITS) v Hv' ltac:(unfold DIGITS; lia) s1 Hs1) as (s2 & -> & Hs2 & Ht2 & Hb2).
  pose proof (digits_range _ Hb m v Hv') as Hrange.
  exists s2, (DigitChar <$> digits m (m_Base s) v). split_and!; try done.
  - rewrite Ht2, Ht1. by rewrite <- app_assoc.
  - congruence.
  - split_and!; [rewrite length_fmap, digits_length; lia..| |].
    + rewrite value_chars, digits_value by done. done.
    + intros Hv0 Hh. destruct m as [|m]; simpl in Hh, Hrange; injection Hh as Hh; apply Forall_inv in Hrange.
      * destruct (CharDigit_DigitChar v) as [E _]; [lia|]. rewrite Hh in E. change (CharDigit 48) with 0 in E. lia.
      * destruct (CharDigit_DigitChar (v / m_Base s ^ Z.of_nat (S m))) as [E _]; [lia|].
        rewrite Hh in E. change (CharDigit 48) with 0 in E.
        assert (1 <= v / m_Base s ^ Z.of_nat (S m)); [|lia]. apply Z.div_le_lower_bound; [by apply pow_pos|].
        unfold is_word in Hv. lia.
Qed.

(** C37: Numbers print and read back.  In each of the four bases every unsigned 64-bit
    value prints, without running out of the buffer or of iterations, as the prefix of
    the base and between 1 and 64 digits that denote it and have no leading zero; every
    signed value prints in decimal as an optional minus sign and its magnitude, the
    smallest one included, and in the other bases as its machine word; the base of the
    stream is kept. *)
Theorem numbers_print_and_read_back s v : is_radix (m_Base s) -> wf s ->
  (is_word 64 v ->
     exists s' cs, PutUnsigned v s = Ok s' /\ wf s' /\
       text s' = text s ++ number_prefix (m_Base s) ++ cs /\ m_Base s' = m_Base s /\
       reads (m_Base s) cs v) /\
  (- 2 ^ 63 <= v < 2 ^ 63 ->
     exists s' cs, PutSigned v s = Ok s' /\ wf s' /\ m_Base s' = m_Base s /\
       if m_Base s =? 10
       then text s' = text s ++ (if v <? 0 then [45] else []) ++ cs /\ reads 10 cs (Z.abs v)
       else text s' = text s ++ number_prefix (m_Base s) ++ cs /\ reads (m_Base s) cs (u64 v)).
Proof.
  intros Hr Hs. split; [intros Hv; by apply PutUnsigned_ok|]. intros Hv.
  assert (Hu : is_word 64 (u64 v)) by (by apply wrap_range). unfold PutSigned.
  destruct (Z.eqb_spec (m_Base s) 10) as [E|E]; [|rewrite andb_false_r].
  2: { destruct (PutUnsigned_ok (u64 v) s Hr Hu Hs) as (s' & cs & ? & ? & ? & ? & ?). by exists s', cs. }
  destruct (Z.ltb_spec v 0) as [Hneg|Hpos]; cbn [andb].
  - destruct (PutChar_writes 45 s Hs) as (s1 & -> & Hs1 & Ht1 & Hb1). cbn [obind].
    assert (Ev : (~64 (u64 v)) +64 1 = Z.abs v).
    { rewrite wrap_add_l by lia. replace (Z.lnot (u64 v) + 1) with (- u64 v) by (unfold Z.lnot; lia).
      unfold wrap. rewrite <- (Z.mod_unique v (2 ^ 64) (-1) (v + 2 ^ 64)) by lia.
      symmetry. apply Z.mod_unique with (-1); lia. }
    rewrite Ev. destruct (PutUnsigned_ok (Z.abs v) s1) as (s' & cs & ? & ? & Ht & Hb & Hrd);
      [by rewrite Hb1|unfold is_word; lia|done|].
    exists s', cs. rewrite Hb1, E in *. split_and!; try done. rewrite Ht, Ht1. by rewrite <- app_assoc.
  - rewrite (wrap_small 64 v) by (unfold is_word; lia).
    destruct (PutUnsigned_ok v s) as (s' & cs & ? & ? & Ht & Hb & Hrd); [done|unfold is_word; lia|done|].
    exists s', cs. rewrite E in *. rewrite Z.abs_eq by lia. by split_and!.
Qed.

(** The most negative value, and a value in hexadecimal. *)
Lemma numbers_print_and_read_back_witness :
  (is_radix (m_Base Create) /\ wf Create) /\
  exists s' cs, PutSigned (- 2 ^ 63) Create = Ok s' /\ text s' = [45] ++ cs /\ reads 10 cs (2 ^ 63) /\
    text s' = codes "-9223372036854775808".
Proof.
  assert (H : is_radix (m_Base Create)) by (unfold is_radix; simpl; lia).
  pose proof StringBuffer.Create_wf as Hw. split; [exact (conj H Hw)|].
  destruct (numbers_print_and_read_back Create (- 2 ^ 63) H Hw) as [_ Hs].
  destruct (Hs ltac:(lia)) as (s' & cs & E & _ & _ & Ht & Hrd). exists s', cs.
  split; [exact E|]. split; [exact Ht|]. split; [exact Hrd|].
  vm_compute in E. injection E as <-. vm_compute. reflexivity.
Defined.

End OutputStream.
