(* ===== verification/Format.v ===== *)
(** * Lib/OutputStream.cpp: insertions in a row

    [out << a << b << ...] as a list of insertions, one constructor per overload of the operator
    and one per manipulator, with the text it stands for as a plain function of the list.  The
    reports of the components are such lists. *)

From S2P Require Import Prelude Output.

(** ** The spelling of a number, least significant digit last *)

Fixpoint to_base (fuel : nat) (base v : Z) : list Z :=
  match fuel with
  | O => []
  | S k => if v <? base then [v] else to_base k base (v / base) ++ [v mod base]
  end.
Definition spell (base v : Z) : list Z :=
  OutputStream.number_prefix base ++ (OutputStream.DigitChar <$> to_base 64 base v).

(** ** Insertions *)

Inductive item :=
| Char (c : Z) | UChar (c : Z) | Str (s : option (list Z)) | Bool (b : bool)
| Short (v : Z) | UShort (v : Z) | Int (v : Z) | UInt (v : Z) | Long (v : Z) | ULong (v : Z)
| LongLong (v : Z) | ULongLong (v : Z) | Pointer (p : Z)
| Flush | EndLine | Bin | Oct | Dec | Hex.

(** A literal. *)
Definition Lit (s : string) : item := Str (Some (codes s)).

Definition Insert (i : item) (s : OutputStream.t) : outcome OutputStream.t :=
  match i with
  | Char c => OutputStream.PutChar c s
  | UChar c => OutputStream.PutChar c s
  | Str l => OutputStream.PutString l s
  | Bool b => OutputStream.PutBool b s
  | Short v | Int v | Long v | LongLong v => OutputStream.PutSigned v s
  | UShort v | UInt v | ULong v | ULongLong v => OutputStream.PutUnsigned v s
  | Pointer p => OutputStream.PutPointer p s
  | Flush => Ok (OutputStream.Flush s)
  | EndLine => OutputStream.EndLine s
  | Bin => Ok (OutputStream.Bin s)
  | Oct => Ok (OutputStream.Oct s)
  | Dec => Ok (OutputStream.Dec s)
  | Hex => Ok (OutputStream.Hex s)
  end.

Fixpoint Inserts (l : list item) (s : OutputStream.t) : outcome OutputStream.t :=
  match l with [] => Ok s | i :: l => let* s := Insert i s in Inserts l s end.

(** ** What they stand for *)

Fixpoint until_nul (l : list Z) : list Z :=
  match l with [] => [] | c :: l => if c =? 0 then [] else u8 c :: until_nul l end.

Definition signed_text (base v : Z) : list Z :=
  if (v <? 0) && (base =? 10) then 45 :: spell 10 (Z.abs v) else spell base (u64 v).

Definition item_text (base : Z) (i : item) : list Z :=
  match i with
  | Char c | UChar c => [u8 c]
  | Str (Some l) => until_nul l
  | Str None => codes "(null)"
  | Bool b => codes (if b then "true" else "false")
  | Short v | Int v | Long v | LongLong v => signed_text base v
  | UShort v | UInt v | ULong v | ULongLong v => spell base v
  | Pointer p => spell 16 p
  | EndLine => [10]
  | Flush | Bin | Oct | Dec | Hex => []
  end.
Definition item_base (base : Z) (i : item) : Z :=
  match i with Bin => 2 | Oct => 8 | Dec => 10 | Hex => 16 | _ => base end.

Fixpoint rendered (base : Z) (l : list item) : list Z :=
  match l with [] => [] | i :: l => item_text base i ++ rendered (item_base base i) l end.
Definition last_base (base : Z) (l : list item) : Z := foldl item_base base l.

(** The values the overloads take. *)
Definition item_ok (i : item) : Prop :=
  match i with
  | Short v => - 2 ^ 15 <= v < 2 ^ 15
  | UShort v => is_word 16 v
  | Int v => - 2 ^ 31 <= v < 2 ^ 31
  | UInt v => is_word 32 v
  | Long v | LongLong v => - 2 ^ 63 <= v < 2 ^ 63
  | ULong v | ULongLong v | Pointer v => is_word 64 v
  | _ => True
  end.

(** What hands the buffer over. *)
Definition handed_over (i : item) : Prop := i = EndLine \/ i = Flush.

(** ** Proofs *)

Lemma to_base_range fuel base v : 2 <= base -> 0 <= v -> Forall (fun d => 0 <= d < base) (to_base fuel base v).
Proof.
  intros Hb. revert v. induction fuel as [|k IH]; intros v Hv; simpl; [constructor|].
  destruct (Z.ltb_spec v base); [by repeat constructor|]. apply Forall_app. split; [apply IH; apply Z.div_pos; lia|].
  constructor; [apply Z.mod_pos_bound; lia|constructor].
Qed.

Lemma digits_snoc base : 2 <= base -> forall m v, 0 <= v < base ^ Z.of_nat (S (S m)) ->
  OutputStream.digits (S m) base v = OutputStream.digits m base (v / base) ++ [v mod base].
Proof.
  intros Hb. induction m as [|m IH]; intros v Hv.
  - cbn [OutputStream.digits app]. change (Z.of_nat 1) with 1. by rewrite Z.pow_1_r.
  - change (OutputStream.digits (S (S m)) base v) with
      (v / base ^ Z.of_nat (S (S m)) :: OutputStream.digits (S m) base (v mod base ^ Z.of_nat (S (S m)))).
    change (OutputStream.digits (S m) base (v / base)) with
      (v / base / base ^ Z.of_nat (S m) :: OutputStream.digits m base ((v / base) mod base ^ Z.of_nat (S m))).
    assert (Hp : 0 < base ^ Z.of_nat (S m)) by (apply Z.pow_pos_nonneg; lia).
    assert (E : base ^ Z.of_nat (S (S m)) = base * base ^ Z.of_nat (S m))
      by (rewrite (Nat2Z.inj_succ (S m)), Z.pow_succ_r by lia; done).
    rewrite E. simpl app. rewrite Z.div_div by lia. f_equal.
    assert (Em : v mod (base * base ^ Z.of_nat (S m)) = v mod base + base * ((v / base) mod base ^ Z.of_nat (S m)))
      by (by rewrite Z.rem_mul_r by lia).
    pose proof (Z.mod_pos_bound v base ltac:(lia)) as Hm.
    rewrite IH by (rewrite E; apply Z.mod_pos_bound; lia). rewrite Em. f_equal; [f_equal|f_equal].
    + rewrite Z.mul_comm, Z.div_add by lia. rewrite (Z.div_small (v mod base)) by lia. lia.
    + rewrite Z.mul_comm, Z.mod_add by lia. apply Z.mod_small. lia.
Qed.

(** The digits the two loops print are the spelling. *)
Lemma digits_spelling base : 2 <= base -> forall m fuel v, (m < fuel)%nat -> base ^ Z.of_nat m <= Z.max 1 v ->
  0 <= v < base ^ Z.of_nat (S m) -> OutputStream.digits m base v = to_base fuel base v.
Proof.
  intros Hb. induction m as [|m IH]; intros [|k] v Hk Hle Hv; try lia; cbn [to_base].
  - rewrite Z.pow_1_r in Hv. rewrite (proj2 (Z.ltb_lt _ _)) by lia. done.
  - assert (Hp : 0 < base ^ Z.of_nat m) by (apply Z.pow_pos_nonneg; lia).
    assert (E : base ^ Z.of_nat (S m) = base * base ^ Z.of_nat m) by (rewrite Nat2Z.inj_succ, Z.pow_succ_r by lia; done).
    assert (E' : base ^ Z.of_nat (S (S m)) = base * base ^ Z.of_nat (S m))
      by (rewrite (Nat2Z.inj_succ (S m)), Z.pow_succ_r by lia; done).
    assert (base <= v) by nia. rewrite (proj2 (Z.ltb_ge _ _)) by lia. rewrite digits_snoc by done. f_equal.
    apply IH; [lia| |].
    + assert (base ^ Z.of_nat m <= v / base); [|lia]. apply Z.div_le_lower_bound; lia.
    + split; [apply Z.div_pos; lia|]. apply Z.div_lt_upper_bound; lia.
Qed.

Section Writes.
Import OutputStream.

(** Only blocks of at most the buffer's size were handed over in between. *)
Definition extends (b b' : StringBuffer.t) : Prop :=
  exists blocks, StringBuffer.flushed b' = StringBuffer.flushed b ++ blocks /\ Forall (fun x => (length x <= 128)%nat) blocks.
#[local] Instance extends_preorder : PreOrder extends.
Proof.
  split.
  - intros b. exists []. rewrite app_nil_r. by split.
  - intros b1 b2 b3 (l1 & E1 & H1) (l2 & E2 & H2). exists (l1 ++ l2). rewrite E2, E1, app_assoc. split; [done|]. by apply Forall_app.
Qed.

(** [prints f base cs base']: on a stream with that base the operation succeeds, appends [cs],
    leaves the blocks already handed over alone and sets the base. *)
Definition prints (f : t -> outcome t) (base : Z) (cs : list Z) (base' : Z) : Prop :=
  forall s, wf s -> m_Base s = base ->
  exists s', f s = Ok s' /\ wf s' /\ text s' = text s ++ cs /\ m_Base s' = base' /\
    extends (buffer s) (buffer s').

Lemma prints_bind f g base cs base' ds base'' : prints f base cs base' -> prints g base' ds base'' ->
  prints (fun s => let* s := f s in g s) base (cs ++ ds) base''.
Proof.
  intros Hf Hg s Hs Hb. destruct (Hf s Hs Hb) as (s1 & -> & Hs1 & Ht1 & Hb1 & Hp1). cbn [obind].
  destruct (Hg s1 Hs1 Hb1) as (s2 & -> & Hs2 & Ht2 & Hb2 & Hp2). exists s2. split_and!; try done.
  - by rewrite Ht2, Ht1, app_assoc.
  - by etransitivity.
Qed.

Lemma handed_block b : StringBuffer.m_Position b <= 128 -> extends b (StringBuffer.Flush b).
Proof.
  intros Hp. exists [StringBuffer.pending b]. split; [done|]. constructor; [|constructor].
  unfold StringBuffer.pending. rewrite length_take. lia.
Qed.

Lemma PutChar_extends c s s' : PutChar c s = Ok s' -> extends (buffer s) (buffer s').
Proof.
  unfold PutChar, StringBuffer.Put. set (b := if _ =? _ then _ else _).
  assert (Hb : extends (buffer s) b).
  { subst b. destruct (Z.eqb_spec (StringBuffer.m_Position (buffer s)) StringBuffer.BUFFER_SIZE) as [E|E]; [|done].
    apply handed_block. unfold StringBuffer.BUFFER_SIZE in E. lia. }
  destruct (StringBuffer.m_Position b <? _); [|done]. intros [= <-]. done.
Qed.

Lemma PutChar_prints c base : prints (PutChar c) base [u8 c] base.
Proof.
  intros s Hs Hb. destruct (PutChar_writes c s Hs) as (s' & E & Hs' & Ht & Hb').
  exists s'. split_and!; try done; [congruence|by apply (PutChar_extends c)].
Qed.

Lemma nothing_prints base : prints Ok base [] base.
Proof. intros s Hs Hb. exists s. rewrite app_nil_r. split_and!; done. Qed.

Lemma PutString_prints base l : prints (PutString_loop l) base (until_nul l) base.
Proof.
  induction l as [|c l IH]; [apply nothing_prints|]. cbn [until_nul PutString_loop].
  destruct (c =? 0); [apply nothing_prints|].
  apply (prints_bind (PutChar c) (PutString_loop l) base [u8 c] base _ base); [apply PutChar_prints|exact IH].
Qed.

Lemma literal_text s : until_nul (codes s) = codes s \/ In 0 (codes s).
Proof.
  unfold codes. induction (String.list_ascii_of_string s) as [|a l IH]; [by left|]. rewrite fmap_cons. cbn [until_nul].
  destruct (Z.eqb_spec (Z.of_N (Ascii.N_of_ascii a)) 0) as [E|E]; [right; rewrite E; by left|].
  destruct IH as [->|H]; [left|right; by right]. rewrite wrap_small; [done|]. split; [lia|].
  pose proof (Ascii.N_ascii_bounded a). lia.
Qed.

Lemma digits_print base m n v : 2 <= base <= 16 -> 0 <= v < base ^ Z.of_nat (S m) -> (m + 1 < n)%nat ->
  prints (Digits_loop n v base (base ^ Z.of_nat m)) base (DigitChar <$> digits m base v) base.
Proof.
  intros Hb Hv Hn s Hs Eb. destruct (Digits_loop_ok base Hb m n v Hv Hn s Hs) as (s' & E & Hs' & Ht & Hb').
  exists s'. split_and!; try done; [congruence|]. clear -E.
  remember (base ^ Z.of_nat m) as d. clear Heqd. revert d v s E.
  induction n as [|n IH]; intros d v s E; [done|]. cbn [Digits_loop] in E. destruct (0 <? d); [|by injection E as <-].
  cbv zeta in E. destruct (PutChar _ s) as [s1| | | |] eqn:E1; try done. apply PutChar_extends in E1.
  etransitivity; [exact E1|]. by apply (IH (d / base) (v mod d)).
Qed.

Lemma PutUnsigned_prints base v : is_radix base -> is_word 64 v -> prints (PutUnsigned v) base (spell base v) base.
Proof.
  intros Hr Hv s Hs Eb. assert (Hb : 2 <= base <= 16) by (unfold is_radix in Hr; lia).
  unfold PutUnsigned. rewrite Eb. replace (base <? 2) with false by lia. rewrite wrap_small by (unfold is_word; lia).
  destruct (Divisor_loop_ok base Hb v 0 DIGITS Hv) as (m & Hd & Hm & Hle & Hlt); [done|simpl; lia|unfold DIGITS; lia|].
  change (base ^ Z.of_nat 0) with 1 in Hd. rewrite Hd. cbn [obind].
  assert (Hv' : 0 <= v < base ^ Z.of_nat (S m)) by (unfold is_word in Hv; lia).
  unfold spell. rewrite <- (digits_spelling base ltac:(lia) m 64 v ltac:(lia) Hle Hv').
  refine (prints_bind (PutPrefix base) (Digits_loop (S DIGITS) v base (base ^ Z.of_nat m)) base _ base _ base _ _ s Hs Eb).
  - destruct Hr as [-> | [-> | [-> | ->]]].
    + apply (PutString_prints 2 [48; 98]).
    + apply (PutChar_prints 48).
    + apply nothing_prints.
    + apply (PutString_prints 16 [48; 120]).
  - apply digits_print; [done..|]. unfold DIGITS. lia.
Qed.

Lemma PutSigned_prints base v : is_radix base -> - 2 ^ 63 <= v < 2 ^ 63 ->
  prints (PutSigned v) base (signed_text base v) base.
Proof.
  intros Hr Hv s Hs Eb. unfold PutSigned, signed_text. rewrite Eb.
  destruct (Z.ltb_spec v 0) as [Hneg|Hpos], (Z.eqb_spec base 10) as [E|E]; cbn [andb];
    try (apply PutUnsigned_prints; [done|by apply wrap_range|done..]).
  assert (Ev : (~64 (u64 v)) +64 1 = Z.abs v).
  { rewrite wrap_add_l by lia. replace (Z.lnot (u64 v) + 1) with (- u64 v) by (unfold Z.lnot; lia).
    unfold wrap. rewrite <- (Z.mod_unique v (2 ^ 64) (-1) (v + 2 ^ 64)) by lia.
    symmetry. apply Z.mod_unique with (-1); lia. }
  rewrite Ev. rewrite E in *. clear E. refine (prints_bind (PutChar 45) (PutUnsigned (Z.abs v)) 10 [45] 10 _ 10 _ _ s Hs Eb).
  - apply (PutChar_prints 45).
  - apply PutUnsigned_prints; [done|unfold is_word; lia].
Qed.

Lemma with_base_prints base base' : prints (fun s => Ok (with_base s base')) base [] base'.
Proof. intros s Hs Hb. eexists. split; [reflexivity|]. rewrite app_nil_r. split_and!; done. Qed.

Lemma PutPointer_prints base p : is_word 64 p -> prints (PutPointer p) base (spell 16 p) base.
Proof.
  intros Hp s Hs Hb. unfold PutPointer. rewrite Hb.
  destruct (PutUnsigned_prints 16 p ltac:(unfold is_radix; lia) Hp (with_base s 16) Hs eq_refl) as (s' & -> & Hs' & Ht & _ & Hf).
  eexists. split; [reflexivity|]. done.
Qed.

Lemma Flush_prints base : prints (fun s => Ok (OutputStream.Flush s)) base [] base.
Proof.
  intros s Hs Hb. destruct (StringBuffer.Flush_ok (buffer s) Hs) as (Hw & Ht & _).
  eexists. split; [reflexivity|]. rewrite app_nil_r. split_and!; try done. apply handed_block. apply Hs.
Qed.

Lemma Insert_prints i base : is_radix base -> item_ok i ->
  prints (Insert i) base (item_text base i) (item_base base i) /\ is_radix (item_base base i).
Proof.
  intros Hr Hi. split; [|destruct i; simpl; unfold is_radix; auto].
  destruct i; simpl in *.
  1,2: apply PutChar_prints.
  1: destruct s as [l|]; [apply PutString_prints|apply (PutString_prints base (codes "(null)"))].
  1: destruct b; [apply (PutString_prints base (codes "true"))|apply (PutString_prints base (codes "false"))].
  1,3,5,7: apply PutSigned_prints; [done|lia].
  1-4: apply PutUnsigned_prints; [done|unfold is_word in *; lia].
  - by apply PutPointer_prints.
  - apply Flush_prints.
  - apply (prints_bind (PutChar 10) (fun s => Ok (OutputStream.Flush s)) base [10] base [] base);
      [apply (PutChar_prints 10)|apply Flush_prints].
  - apply with_base_prints.
  - apply with_base_prints.
  - apply with_base_prints.
  - apply with_base_prints.
Qed.

Lemma Inserts_prints l : forall base, is_radix base -> Forall item_ok l ->
  prints (Inserts l) base (rendered base l) (last_base base l) /\ is_radix (last_base base l).
Proof.
  induction l as [|i l IH]; intros base Hr Hl; [split; [apply nothing_prints|done]|].
  apply Forall_cons in Hl as [Hi Hl]. destruct (Insert_prints i base Hr Hi) as [H1 H2].
  destruct (IH _ H2 Hl) as [H3 H4]. split; [|done]. by apply (prints_bind (Insert i) (Inserts l) base _ (item_base base i)).
Qed.

Lemma Inserts_app l l' s : Inserts (l ++ l') s = let* s := Inserts l s in Inserts l' s.
Proof. revert s. induction l as [|i l IH]; intros s; [done|]. simpl. destruct (Insert i s); simpl; [apply IH|done..]. Qed.

(** A row of insertions that ends with a flush leaves nothing pending: the blocks it hands over
    are what was pending and what it prints. *)
Lemma Inserts_delivered l i s : is_radix (m_Base s) -> wf s -> Forall item_ok l -> handed_over i ->
  exists s' blocks, Inserts (l ++ [i]) s = Ok s' /\ wf s' /\ StringBuffer.pending (buffer s') = [] /\
    StringBuffer.flushed (buffer s') = StringBuffer.flushed (buffer s) ++ blocks /\
    Forall (fun x => (length x <= 128)%nat) blocks /\
    concat blocks = StringBuffer.pending (buffer s) ++ rendered (m_Base s) (l ++ [i]) /\
    m_Base s' = last_base (m_Base s) l /\ is_radix (m_Base s').
Proof.
  intros Hr Hs Hl Hi. assert (Hli : Forall item_ok (l ++ [i])).
  { apply Forall_app. split; [done|]. constructor; [|constructor]. by destruct Hi as [-> | ->]. }
  destruct (Inserts_prints (l ++ [i]) (m_Base s) Hr Hli) as [H Hr'].
  destruct (H s Hs eq_refl) as (s' & E & Hs' & Ht & Hb & blocks & Hp & Hsmall). exists s', blocks.
  assert (Hn : StringBuffer.pending (buffer s') = []).
  { rewrite Inserts_app in E. destruct (Inserts l s) as [s1| | | |]; try done. simpl in E.
    destruct Hi as [-> | ->]; simpl in E.
    - unfold OutputStream.EndLine in E. destruct (PutChar 10 s1); try done. by injection E as <-.
    - by injection E as <-. }
  split_and!; try done.
  - unfold text in Ht. rewrite Hn, app_nil_r, Hp, concat_app, <- app_assoc in Ht. by apply app_inv_head in Ht.
  - rewrite Hb. unfold last_base. rewrite foldl_app. by destruct Hi as [-> | ->].
  - by rewrite Hb.
Qed.
End Writes.
