(* ===== verification/Serial.v ===== *)
(** * Arch/Serial.cpp and Device/SerialStream.cpp: the serial console

    The UART's registers sit at eight consecutive ports; the two lowest ones lead to the
    baud rate divisor while a bit of the line control register is set.  The stream's
    backend sends the pending characters over the line, and the VT100 sequences that
    position and colour text are built from digits.  What the driver relies on of the chip
    is the class [Uart]; that nothing hangs is shown for any hardware. *)

From S2P Require Import Prelude Device Ps2 Output.

Module Serial.

Inductive ComPort := COM1 | COM2 | COM3 | COM4.
Definition PortValue (p : ComPort) : Z :=
  match p with COM1 => 0x3f8 | COM2 => 0x2f8 | COM3 => 0x3e8 | COM4 => 0x2e8 end.

Inductive BaudRate := B300 | B600 | B1200 | B2400 | B4800 | B9600 | B19200 | B38400 | B57600 | B115200.
Definition BaudValue (b : BaudRate) : Z :=
  match b with
  | B300 => 384 | B600 => 192 | B1200 => 96 | B2400 => 48 | B4800 => 24
  | B9600 => 12 | B19200 => 6 | B38400 => 3 | B57600 => 2 | B115200 => 1
  end.

Inductive DataBits := D5 | D6 | D7 | D8.
Definition DataValue (d : DataBits) : Z := match d with D5 => 0 | D6 => 1 | D7 => 2 | D8 => 3 end.
Inductive StopBits := S1 | S2.
Definition StopValue (s : StopBits) : Z := match s with S1 => 0 | S2 => 4 end.
Inductive Parity := NONE | ODD | EVEN | MARK | SPACE.
Definition ParityValue (p : Parity) : Z :=
  match p with NONE => 0 | ODD => 8 | EVEN => 24 | MARK => 40 | SPACE => 56 end.

(** [RegisterIndex]; the first two names of an index share a port. *)
Definition RECEIVE_BUFFER : Z := 0.
Definition TRANSMIT_BUFFER : Z := 0.
Definition DIVISOR_LOW : Z := 0.
Definition INTERRUPT_ENABLE : Z := 1.
Definition DIVISOR_HIGH : Z := 1.
Definition FIFO_CONTROL : Z := 2.
Definition LINE_CONTROL : Z := 3.
Definition MODEM_CONTROL : Z := 4.
Definition LINE_STATUS : Z := 5.

(** [RegisterMask] *)
Definition ENABLE_FIFO : Z := 1.
Definition CLEAR_RECEIVE_FIFO : Z := 2.
Definition CLEAR_TRANSMIT_FIFO : Z := 4.
Definition DIVISOR_LATCH_ACCESS : Z := 128.
Definition DATA_TERMINAL_READY : Z := 1.
Definition REQUEST_TO_SEND : Z := 2.
Definition OUT_2 : Z := 8.
Definition DATA_READY : Z := 1.
Definition OVERRUN_ERROR : Z := 2.
Definition PARITY_ERROR : Z := 4.
Definition FRAMING_ERROR : Z := 8.
Definition TRANSMIT_HOLDING_EMPTY : Z := 32.

Section Driver.
Context {D : Type} {HW : Hardware D}.
Variable m_Port : ComPort.

Definition ReadRegister (InRegister : Z) (d : D) : Z * D := Ps2.In (u16 (PortValue m_Port + InRegister)) d.
Definition WriteRegister (InRegister InValue : Z) (d : D) : D :=
  Ps2.Out (u16 (PortValue m_Port + InRegister)) InValue d.

(** The constructor. *)
Definition Construct (InBaudRate : BaudRate) (InDataBits : DataBits) (InStopBits : StopBits)
    (InParity : Parity) (d : D) : D :=
  let d := WriteRegister INTERRUPT_ENABLE 0 d in
  let d := WriteRegister LINE_CONTROL DIVISOR_LATCH_ACCESS d in
  let d := WriteRegister DIVISOR_LOW (Z.land (BaudValue InBaudRate) 0xff) d in
  let d := WriteRegister DIVISOR_HIGH (Z.land (Z.shiftr (BaudValue InBaudRate) 8) 0xff) d in
  let d := WriteRegister LINE_CONTROL
             (Z.lor (Z.lor (DataValue InDataBits) (StopValue InStopBits)) (ParityValue InParity)) d in
  let d := WriteRegister FIFO_CONTROL
             (Z.lor (Z.lor ENABLE_FIFO CLEAR_RECEIVE_FIFO) CLEAR_TRANSMIT_FIFO) d in
  WriteRegister MODEM_CONTROL (Z.lor (Z.lor DATA_TERMINAL_READY REQUEST_TO_SEND) OUT_2) d.

(** The polling loop of [Write]; [attempts] counts down to the [-1]. *)
Fixpoint WaitEmpty_loop (attempts : nat) (d : D) : bool * D :=
  match attempts with
  | O => (false, d)
  | S k =>
      let '(status, d) := ReadRegister LINE_STATUS d in
      if Z.land status TRANSMIT_HOLDING_EMPTY =? 0 then WaitEmpty_loop k d else (true, d)
  end.

Definition ATTEMPTS : Z := 1000000.
Definition ERRORS : Z := Z.lor (Z.lor OVERRUN_ERROR PARITY_ERROR) FRAMING_ERROR.

Definition Write (InByte : Z) (d : D) : Z * D :=
  let '(ready, d) := WaitEmpty_loop (Z.to_nat ATTEMPTS) d in
  if (ready : bool) then
    let d := WriteRegister TRANSMIT_BUFFER InByte d in
    let '(status, d) := ReadRegister LINE_STATUS d in
    (if negb (Z.land status ERRORS =? 0) then -1 else InByte, d)
  else (-1, d).

Definition Read (d : D) : Z * D :=
  let '(status, d) := ReadRegister LINE_STATUS d in
  if Z.land status DATA_READY =? 0 then (-1, d) else ReadRegister RECEIVE_BUFFER d.

End Driver.
End Serial.

Module SerialStream.
Import Serial.

Inductive Attribute := RESET | BRIGHT | DIM | ITALIC | UNDERSCORE | BLINK | REVERSE | HIDDEN.
Definition AttributeValue (a : Attribute) : Z :=
  match a with
  | RESET => 0 | BRIGHT => 1 | DIM => 2 | ITALIC => 3 | UNDERSCORE => 4 | BLINK => 5 | REVERSE => 7 | HIDDEN => 8
  end.
Inductive Color := BLACK | RED | GREEN | YELLOW | BLUE | MAGENTA | CYAN | WHITE | DEFAULT.
Definition ColorValue (c : Color) : Z :=
  match c with
  | BLACK => 0 | RED => 1 | GREEN => 2 | YELLOW => 3 | BLUE => 4 | MAGENTA => 5 | CYAN => 6 | WHITE => 7
  | DEFAULT => 9
  end.

Section Stream.
Context {D : Type} {HW : Hardware D}.
Variable m_Port : ComPort.

(** [Serial::Write] with its result dropped, as all callers here do. *)
Abbreviation Send c d := (Write m_Port c d).2.

Fixpoint Flush_loop (cs : list Z) (d : D) : D :=
  match cs with
  | [] => d
  | c :: rest => let d := if c =? 10 then Send 13 d else d in Flush_loop rest (Send (u8 c) d)
  end.
Definition Flush (s : OutputStream.t) (d : D) : OutputStream.t * D :=
  (OutputStream.Flush s, Flush_loop (StringBuffer.pending (OutputStream.buffer s)) d).

(** A sequence with its terminator. *)
Fixpoint WriteEscape_loop (InSequence : list Z) (d : D) : D :=
  match InSequence with
  | [] => d
  | c :: rest => if c =? 0 then d else WriteEscape_loop rest (Send (u8 c) d)
  end.
Definition WriteEscape (InSequence : list Z) (d : D) : D := WriteEscape_loop InSequence (Send 91 (Send 0x1b d)).

(** The [do] loop: [room] slots of [digits] are left; the newest digit is in front. *)
Fixpoint Digits_loop (room : nat) (InValue : Z) (digits : list Z) : list Z :=
  match room with
  | O => digits
  | S k =>
      let digits := 48 + InValue mod 10 :: digits in
      let InValue := InValue / 10 in
      if 0 <? InValue then Digits_loop k InValue digits else digits
  end.
Fixpoint SendDigits_loop (digits : list Z) (d : D) : D :=
  match digits with [] => d | c :: rest => SendDigits_loop rest (Send (u8 c) d) end.
Definition WriteNumber (InValue : Z) (d : D) : D := SendDigits_loop (Digits_loop 12 InValue []) d.

Definition SetForeground (InColor : Color) (s : OutputStream.t) (d : D) : OutputStream.t * D :=
  let '(s, d) := Flush s d in (s, WriteEscape [51; 48 + ColorValue InColor; 109; 0] d).
Definition SetBackground (InColor : Color) (s : OutputStream.t) (d : D) : OutputStream.t * D :=
  let '(s, d) := Flush s d in (s, WriteEscape [52; 48 + ColorValue InColor; 109; 0] d).
Definition SetAttribute (InAttribute : Attribute) (s : OutputStream.t) (d : D) : OutputStream.t * D :=
  let '(s, d) := Flush s d in (s, WriteEscape [48 + AttributeValue InAttribute; 109; 0] d).
Definition ResetAttribute (InAttribute : Attribute) (s : OutputStream.t) (d : D) : OutputStream.t * D :=
  let '(s, d) := Flush s d in (s, WriteEscape [50; 48 + AttributeValue InAttribute; 109; 0] d).

Definition SetPosition (InColumn InRow : Z) (s : OutputStream.t) (d : D) : OutputStream.t * D :=
  let '(s, d) := Flush s d in
  let d := Send 91 (Send 0x1b d) in
  let d := WriteNumber InRow d in
  let d := Send 59 d in
  let d := WriteNumber InColumn d in
  (s, Send 72 d).

Definition Reset (s : OutputStream.t) (d : D) : OutputStream.t * D :=
  let '(s, d) := Flush s d in
  let d := WriteEscape [50; 74; 0] d in
  let '(s, d) := SetForeground DEFAULT s d in
  let '(s, d) := SetBackground DEFAULT s d in
  let '(s, d) := SetAttribute RESET s d in
  SetPosition 1 1 s d.

End Stream.

(** ** No line hangs the kernel *)

#[local] Existing Instance Ps2.counted.

Section Bounded.
Context {D : Type} {HW : Hardware D} (p : ComPort).
Implicit Types d : D * Z.

Lemma WaitEmpty_within n d : Ps2.within d (Z.of_nat n) (WaitEmpty_loop p n d).2.
Proof.
  revert d. induction n as [|n IH]; intros d; [by apply Ps2.within_refl|]. cbn [WaitEmpty_loop].
  unfold ReadRegister. pose proof (Ps2.In_within (u16 (PortValue p + LINE_STATUS)) d) as H.
  destruct (Ps2.In _ d) as [status d1]. destruct (_ =? 0); cbn [snd].
  - eapply Ps2.within_le; [eapply Ps2.within_trans; [exact H|apply IH]|lia].
  - eapply Ps2.within_le; [exact H|lia].
Qed.

Lemma Write_within c d : Ps2.within d (ATTEMPTS + 2) (Write p c d).2.
Proof.
  unfold Write. pose proof (WaitEmpty_within (Z.to_nat ATTEMPTS) d) as H.
  rewrite Z2Nat.id in H by (unfold ATTEMPTS; lia).
  destruct (WaitEmpty_loop p _ d) as [[] d1]; cbn [snd] in *; [|eapply Ps2.within_le; [exact H|lia]].
  pose proof (Ps2.within_trans _ _ _ _ _ H (Ps2.Out_within (u16 (PortValue p + TRANSMIT_BUFFER)) c d1)) as H1.
  change (Ps2.Out _ c d1) with (WriteRegister p TRANSMIT_BUFFER c d1) in H1.
  pose proof (Ps2.within_trans _ _ _ _ _ H1
    (Ps2.In_within (u16 (PortValue p + LINE_STATUS)) (WriteRegister p TRANSMIT_BUFFER c d1))) as H2.
  unfold ReadRegister. destruct (Ps2.In _ _) as [status d2]. cbn [snd] in *.
  eapply Ps2.within_le; [exact H2|lia].
Qed.

Lemma Flush_loop_within cs d :
  Ps2.within d (Z.of_nat (length cs) * (2 * (ATTEMPTS + 2))) (Flush_loop p cs d).
Proof.
  revert d. induction cs as [|c cs IH]; intros d; [by apply Ps2.within_refl|]. cbn [Flush_loop length].
  eapply Ps2.within_le; [eapply Ps2.within_trans; [|apply IH]|].
  - eapply Ps2.within_trans; [|apply Write_within]. instantiate (1 := ATTEMPTS + 2).
    destruct (_ =? 10); [apply Write_within|apply Ps2.within_refl; unfold ATTEMPTS; lia].
  - unfold ATTEMPTS. lia.
Qed.

(** Whatever is behind the port, or nothing: a flush returns after at most 256,000,512
    port accesses. *)
Lemma Flush_returns s d : StringBuffer.wf (OutputStream.buffer s) ->
  Ps2.within d 256000512 (Flush p s d).2.
Proof.
  intros [Hs Hp]. unfold Flush. cbn [snd].
  eapply Ps2.within_le; [apply Flush_loop_within|]. unfold StringBuffer.pending. rewrite length_take.
  unfold StringBuffer.BUFFER_SIZE, ATTEMPTS in *. lia.
Qed.
End Bounded.

(** ** A working line *)

(** What the chip holds, and what has left it. *)
Record line := { divisor : Z; format : Z; interrupts : Z; fifo : Z; modem : Z; wire : list Z }.

(** The divisor latch is open. *)
Definition latch (l : line) : bool := Z.testbit (format l) 7.

(** A write to register [reg], as the data sheet has it. *)
Definition line_write (reg v : Z) (l : line) : line :=
  if reg =? 0 then
    if latch l then {| divisor := divisor l / 256 * 256 + v; format := format l; interrupts := interrupts l;
                       fifo := fifo l; modem := modem l; wire := wire l |}
    else {| divisor := divisor l; format := format l; interrupts := interrupts l; fifo := fifo l;
            modem := modem l; wire := wire l ++ [v] |}
  else if reg =? 1 then
    if latch l then {| divisor := v * 256 + divisor l mod 256; format := format l; interrupts := interrupts l;
                       fifo := fifo l; modem := modem l; wire := wire l |}
    else {| divisor := divisor l; format := format l; interrupts := v; fifo := fifo l; modem := modem l;
            wire := wire l |}
  else if reg =? 2 then {| divisor := divisor l; format := format l; interrupts := interrupts l; fifo := v;
                           modem := modem l; wire := wire l |}
  else if reg =? 3 then {| divisor := divisor l; format := v; interrupts := interrupts l; fifo := fifo l;
                           modem := modem l; wire := wire l |}
  else {| divisor := divisor l; format := format l; interrupts := interrupts l; fifo := fifo l; modem := v;
          wire := wire l |}.

(** A UART behind [p]: [busy d] more status reads find the transmitter occupied, which
    never lasts as long as the driver is willing to wait; a character written to the free
    transmitter goes out. *)
Class Uart {D : Type} {HW : Hardware D} (p : ComPort) (view : D -> line) (busy : D -> nat) : Prop := {
  uart_out reg v d : 0 <= reg <= 4 -> is_word 8 v -> (reg = 0 -> latch (view d) = false -> busy d = O) ->
    view (port_out 8 (PortValue p + reg) v d) = line_write reg v (view d);
  uart_status d : view (port_in 8 (PortValue p + 5) d).2 = view d /\
    busy (port_in 8 (PortValue p + 5) d).2 = pred (busy d) /\
    (Z.land (port_in 8 (PortValue p + 5) d).1 TRANSMIT_HOLDING_EMPTY = 0 <-> busy d <> O);
  uart_fast d : Z.of_nat (busy d) < ATTEMPTS }.

(** Line feeds go out as carriage return and line feed. *)
Definition crlf (cs : list Z) : list Z := cs ≫= (fun c => if c =? 10 then [13; 10] else [c]).

Definition with_wire (l : line) (cs : list Z) : line :=
  {| divisor := divisor l; format := format l; interrupts := interrupts l; fifo := fifo l; modem := modem l;
     wire := cs |}.

(** Opening the latch, writing both halves of the divisor and closing it with the format. *)
Lemma line_setup l lo hi f ff m : 0 <= lo < 256 ->
  line_write 4 m (line_write 2 ff (line_write 3 f (line_write 1 hi (line_write 0 lo
    (line_write 3 128 (line_write 1 0 l)))))) =
  {| divisor := hi * 256 + lo; format := f; interrupts := if latch l then interrupts l else 0; fifo := ff;
     modem := m; wire := wire l |}.
Proof.
  intros Hlo. assert (E : forall x, (x * 256 + lo) mod 256 = lo).
  { intros x. rewrite Z.add_comm, Z.mod_add by lia. by apply Z.mod_small. }
  destruct l as [dv fm ir old mo wi].
  assert (H1 : line_write 1 0 (Build_line dv fm ir old mo wi) =
    Build_line (if Z.testbit fm 7 then 0 * 256 + dv mod 256 else dv) fm
      (if Z.testbit fm 7 then ir else 0) old mo wi).
  { unfold line_write, latch. cbn [format]. by destruct (Z.testbit fm 7). }
  rewrite H1. unfold latch. cbn [format interrupts wire]. clear H1.
  generalize (if Z.testbit fm 7 then 0 * 256 + dv mod 256 else dv), (if Z.testbit fm 7 then ir else 0).
  intros dv' ir'.
  change (line_write 3 128 (Build_line dv' fm ir' old mo wi)) with (Build_line dv' 128 ir' old mo wi).
  change (line_write 0 lo (Build_line dv' 128 ir' old mo wi)) with
    (Build_line (dv' / 256 * 256 + lo) 128 ir' old mo wi).
  generalize (dv' / 256), (E (dv' / 256)). intros x Ex.
  change (line_write 1 hi (Build_line (x * 256 + lo) 128 ir' old mo wi)) with
    (Build_line (hi * 256 + (x * 256 + lo) mod 256) 128 ir' old mo wi).
  rewrite Ex. reflexivity.
Qed.

Section Working.
Context {D : Type} {HW : Hardware D} (p : ComPort) (view : D -> line) (busy : D -> nat) {U : Uart p view busy}.

Lemma port_in_range r : 0 <= r <= 5 -> u16 (PortValue p + r) = PortValue p + r.
Proof. intros. apply wrap_small. unfold is_word. destruct p; simpl; lia. Qed.

Lemma WaitEmpty_ok n d : (busy d < n)%nat ->
  exists d', WaitEmpty_loop p n d = (true, d') /\ view d' = view d /\ busy d' = O.
Proof.
  revert d. induction n as [|n IH]; intros d Hd; [lia|]. cbn [WaitEmpty_loop].
  unfold ReadRegister, Ps2.In, LINE_STATUS. rewrite port_in_range by lia.
  destruct (uart_status d) as (Hv & Hb & Hs). destruct (port_in 8 _ d) as [status d1]. simpl in *.
  destruct (Z.eqb_spec (Z.land status TRANSMIT_HOLDING_EMPTY) 0) as [E|E].
  - apply Hs in E. destruct (IH d1 ltac:(lia)) as (d' & -> & Hv' & Hb'). exists d'.
    split_and!; [done|congruence|done].
  - exists d1. split_and!; try done. destruct (decide (busy d = O)); [lia|]. tauto.
Qed.

(** A character reaches the wire. *)
Lemma Write_sends c d : is_word 8 c -> latch (view d) = false ->
  view (Write p c d).2 = with_wire (view d) (wire (view d) ++ [c]).
Proof.
  intros Hc Hl. unfold Write.
  destruct (WaitEmpty_ok (Z.to_nat ATTEMPTS) d) as (d' & -> & Hv & Hb).
  { pose proof (uart_fast d). unfold ATTEMPTS in *. lia. }
  unfold ReadRegister, WriteRegister, Ps2.In, Ps2.Out, LINE_STATUS, TRANSMIT_BUFFER.
  rewrite !port_in_range by lia. rewrite (wrap_small 8 c) by done.
  destruct (uart_status (port_out 8 (PortValue p + 0) c d')) as (Hv' & _ & _).
  destruct (port_in 8 _ _) as [status d2]. simpl in *.
  rewrite Hv', uart_out by (lia || done). unfold line_write. simpl. rewrite Hv, Hl. done.
Qed.

(** [sends f cs]: on a working line with the latch closed, [f] sends exactly [cs]. *)
Definition sends (f : D -> D) (cs : list Z) : Prop :=
  forall d, latch (view d) = false -> view (f d) = with_wire (view d) (wire (view d) ++ cs).

Lemma sends_nil : sends id [].
Proof. intros d _. rewrite app_nil_r. unfold id. by destruct (view d). Qed.
Lemma sends_seq f g cs cs' : sends f cs -> sends g cs' -> sends (fun d => g (f d)) (cs ++ cs').
Proof.
  intros Hf Hg d Hl. rewrite Hg by (rewrite Hf by done; exact Hl). rewrite Hf by done. simpl.
  by rewrite app_assoc.
Qed.
Lemma sends_one c : is_word 8 c -> sends (fun d => (Write p c d).2) [c].
Proof. intros Hc d Hl. by apply Write_sends. Qed.

Lemma sends_cons c f cs : is_word 8 c -> sends f cs -> sends (fun d => f (Write p c d).2) (c :: cs).
Proof. intros Hc Hf. by apply (sends_seq (fun d => (Write p c d).2) f [c] cs); [apply sends_one|]. Qed.
Lemma sends_snoc c f cs : is_word 8 c -> sends f cs -> sends (fun d => (Write p c (f d)).2) (cs ++ [c]).
Proof. intros Hc Hf. by apply (sends_seq f (fun d => (Write p c d).2) cs [c]); [|apply sends_one]. Qed.

Lemma Flush_loop_sends cs : Forall (is_word 8) cs -> sends (Flush_loop p cs) (crlf cs).
Proof.
  induction cs as [|c cs IH]; intros Hcs; [apply sends_nil|]. apply Forall_cons in Hcs as [Hc Hcs].
  cbn [Flush_loop]. change (crlf (c :: cs)) with ((if c =? 10 then [13; 10] else [c]) ++ crlf cs).
  rewrite wrap_small by done. pose proof (sends_cons c _ _ Hc (IH Hcs)) as H.
  destruct (Z.eqb_spec c 10) as [->|]; [|exact H].
  apply (sends_cons 13 (fun d => Flush_loop p cs (Write p 10 d).2)); [unfold is_word; lia|exact H].
Qed.

Lemma WriteEscape_sends cs : OutputStream.plain cs -> sends (WriteEscape p (cs ++ [0])) (0x1b :: 91 :: cs).
Proof.
  intros Hcs. unfold WriteEscape.
  apply (sends_cons 0x1b (fun d => WriteEscape_loop p (cs ++ [0]) (Write p 91 d).2)); [unfold is_word; lia|].
  apply sends_cons; [unfold is_word; lia|].
  induction cs as [|c cs IH]; [apply sends_nil|]. apply Forall_cons in Hcs as [Hc Hcs]. simpl app.
  cbn [WriteEscape_loop]. replace (c =? 0) with false by lia. rewrite wrap_small by (unfold is_word; lia).
  apply sends_cons; [unfold is_word; lia|by apply IH].
Qed.

Lemma SendDigits_sends cs : Forall (is_word 8) cs -> sends (SendDigits_loop p cs) cs.
Proof.
  induction cs as [|c cs IH]; intros Hcs; [apply sends_nil|]. apply Forall_cons in Hcs as [Hc Hcs].
  cbn [SendDigits_loop]. rewrite wrap_small by done. by apply sends_cons; [|apply IH].
Qed.

(** The digits of a number below [10 ^ room], in front of [ds]. *)
Lemma SendDigits_value room v ds : 0 <= v < 10 ^ Z.of_nat room -> (0 < room)%nat ->
  exists cs, Digits_loop room v ds = cs ++ ds /\ (1 <= length cs <= room)%nat /\
    Forall (fun c => 48 <= c < 58) cs /\ OutputStream.value 10 (OutputStream.CharDigit <$> cs) = v /\
    (v <> 0 -> head cs <> Some 48).
Proof.
  revert v ds. induction room as [|n IH]; intros v ds Hv Hn; [lia|]. cbn [Digits_loop].
  pose proof (Z.mod_pos_bound v 10 ltac:(lia)) as Hm. pose proof (Z.div_mod v 10 ltac:(lia)) as Hdm.
  assert (Hc : OutputStream.CharDigit (48 + v mod 10) = v mod 10).
  { unfold OutputStream.CharDigit. rewrite (proj2 (Z.ltb_lt _ _)); lia. }
  destruct (Z.ltb_spec 0 (v / 10)) as [Hpos|Hz].
  - assert (Hn' : (0 < n)%nat) by (destruct n; [simpl in Hv; lia|lia]).
    destruct (IH (v / 10) (48 + v mod 10 :: ds)) as (cs & -> & Hl & Hr & Hval & Hh); [|done|].
    { rewrite Nat2Z.inj_succ, Z.pow_succ_r in Hv by lia. split; [lia|]. apply Z.div_lt_upper_bound; lia. }
    exists (cs ++ [48 + v mod 10]). split_and!; [by rewrite <- app_assoc|rewrite length_app; simpl; lia..| | |].
    + apply Forall_app. split; [done|]. constructor; [lia|done].
    + rewrite fmap_app. simpl. rewrite OutputStream.value_app, Hval, Hc. lia.
    + intros _. destruct cs as [|c cs]; [simpl in Hl; lia|]. simpl in *. apply Hh. lia.
  - exists [48 + v mod 10]. split_and!; [done|simpl; lia..| | |].
    + constructor; [lia|done].
    + unfold OutputStream.value. simpl. rewrite Hc. lia.
    + intros Hv0. simpl. intros [=]. lia.
Qed.

Lemma WriteNumber_sends v : is_word 32 v ->
  exists cs, sends (WriteNumber p v) cs /\ OutputStream.reads 10 cs v.
Proof.
  intros Hv. destruct (SendDigits_value 12 v []) as (cs & E & Hl & Hr & Hval & Hh);
    [unfold is_word in Hv; simpl; lia|lia|].
  exists cs. split; [|split_and!; [lia..|done|done]]. unfold WriteNumber. rewrite E, app_nil_r.
  apply SendDigits_sends. eapply Forall_impl; [exact Hr|]. intros c Hc. unfold is_word. simpl in *. lia.
Qed.

(** The constructor sets the line up.  The interrupts are only switched off when the
    firmware left the latch closed. *)
Lemma Construct_line b ds sb pa d :
  let l := view (Construct p b ds sb pa d) in
  divisor l = BaudValue b /\ format l = DataValue ds + StopValue sb + ParityValue pa /\ latch l = false /\
  fifo l = 7 /\ modem l = 11 /\ wire l = wire (view d) /\
  interrupts l = if latch (view d) then interrupts (view d) else 0.
Proof.
  cbv zeta. unfold Construct, WriteRegister, Ps2.Out, INTERRUPT_ENABLE, LINE_CONTROL, DIVISOR_LOW, DIVISOR_HIGH,
    FIFO_CONTROL, MODEM_CONTROL.
  rewrite !port_in_range by lia.
  assert (H8 : forall x, is_word 8 (u8 x)) by (intros; by apply wrap_range).
  rewrite (uart_out 4), (uart_out 2), (uart_out 3) by (lia || done).
  rewrite (uart_out 1) by (lia || done).
  assert (E3 : view (port_out 8 (PortValue p + 3) (u8 DIVISOR_LATCH_ACCESS) (port_out 8 (PortValue p + 1) (u8 0) d)) =
    line_write 3 128 (line_write 1 0 (view d))).
  { by rewrite (uart_out 3), (uart_out 1) by (lia || done). }
  rewrite (uart_out 0) by (try lia; try done; rewrite E3; done).
  rewrite E3, line_setup by (by apply wrap_range). cbn [divisor format interrupts fifo modem wire].
  destruct b, ds, sb, pa; split_and!; reflexivity.
Qed.

(** Choosing a colour sends its sequence behind the pending text. *)
Lemma SetForeground_sends c s : Forall (is_word 8) (StringBuffer.pending (OutputStream.buffer s)) ->
  sends (fun d => (SetForeground p c s d).2)
    (crlf (StringBuffer.pending (OutputStream.buffer s)) ++ [0x1b; 91; 51; 48 + ColorValue c; 109]).
Proof.
  intros Hs. unfold SetForeground, Flush. cbn [snd].
  apply (sends_seq _ (WriteEscape p ([51; 48 + ColorValue c; 109] ++ [0]))); [by apply Flush_loop_sends|].
  apply WriteEscape_sends. repeat constructor; destruct c; simpl; lia.
Qed.

(** The serial console carries the kernel's text.  With a working UART the constructor
    sets speed, format, queues and modem lines as asked and closes the divisor latch
    again; a flush then sends every pending byte once and in order, each line feed behind
    a carriage return; and positioning the cursor sends, behind the pending text, the
    VT100 sequence whose two decimal numbers read back as row and column.  None of it
    changes the line's settings. *)
Theorem serial_console_carries_text b ds sb pa s column row d :
  Forall (is_word 8) (StringBuffer.pending (OutputStream.buffer s)) -> is_word 32 column -> is_word 32 row ->
  let d' := (SetPosition p column row s (Construct p b ds sb pa d)).2 in
  divisor (view d') = BaudValue b /\ format (view d') = DataValue ds + StopValue sb + ParityValue pa /\
  latch (view d') = false /\ fifo (view d') = 7 /\ modem (view d') = 11 /\
  exists rs cs, OutputStream.reads 10 rs row /\ OutputStream.reads 10 cs column /\
    wire (view d') = wire (view d) ++ crlf (StringBuffer.pending (OutputStream.buffer s)) ++
      [0x1b; 91] ++ rs ++ [59] ++ cs ++ [72].
Proof.
  intros Hs Hc Hr. destruct (Construct_line b ds sb pa d) as (Hd & Hf & Hl & Hff & Hm & Hw & _).
  destruct (WriteNumber_sends row Hr) as (rs & Srs & Rrs). destruct (WriteNumber_sends column Hc) as (cs & Scs & Rcs).
  assert (S : sends (fun d => (SetPosition p column row s d).2)
    (crlf (StringBuffer.pending (OutputStream.buffer s)) ++ (0x1b :: 91 :: rs ++ 59 :: cs ++ [72]))).
  { unfold SetPosition, Flush. cbn [snd].
    apply (sends_seq _ (fun d => (Write p 72 (WriteNumber p column (Write p 59 (WriteNumber p row
      (Write p 91 (Write p 0x1b d).2).2)).2)).2)); [by apply Flush_loop_sends|].
    apply (sends_cons 0x1b (fun d => (Write p 72 (WriteNumber p column (Write p 59 (WriteNumber p row
      (Write p 91 d).2)).2)).2)); [unfold is_word; lia|].
    apply (sends_cons 91 (fun d => (Write p 72 (WriteNumber p column (Write p 59 (WriteNumber p row d)).2)).2));
      [unfold is_word; lia|].
    apply (sends_seq _ (fun d => (Write p 72 (WriteNumber p column (Write p 59 d).2)).2) rs (59 :: cs ++ [72]));
      [exact Srs|].
    apply (sends_cons 59 (fun d => (Write p 72 (WriteNumber p column d)).2)); [unfold is_word; lia|].
    apply sends_snoc; [unfold is_word; lia|exact Scs]. }
  cbv zeta. rewrite (S _ Hl). unfold with_wire, latch in *. cbn [divisor format interrupts fifo modem wire].
  split_and!; try done. exists rs, cs. rewrite Hw. by split_and!.
Qed.

End Working.

(** A UART whose transmitter is occupied for one status read after each character. *)
Definition demo_line : line :=
  {| divisor := 12; format := 0; interrupts := 1; fifo := 0; modem := 0; wire := [] |}.
#[local] Instance demo_uart : Hardware (line * bool) := {
  port_in w p d := if p =? 0x3fd then (if (d.2 : bool) then 0 else 32, (d.1, false)) else (0, d);
  port_out w p v d := if (0x3f8 <=? p) && (p <=? 0x3fc)
    then (line_write (p - 0x3f8) v d.1, if (p =? 0x3f8) && negb (latch d.1) then true else d.2) else d;
  mmio_read a d := (0, d);
  mmio_write a v d := d }.

#[local] Instance demo_uart_ok : Uart COM1 fst (fun d : line * bool => if d.2 then 1%nat else O).
Proof.
  split.
  - intros reg v [l b] Hr _ _. cbn [port_out demo_uart PortValue].
    replace (_ <=? 0x3f8 + reg) with true by lia. replace (0x3f8 + reg <=? _) with true by lia. cbn [andb fst].
    f_equal. lia.
  - intros [l b]. cbn. by destruct b; split_and!.
  - intros [l []]; unfold ATTEMPTS; simpl; lia.
Qed.

Definition demo_text : OutputStream.t :=
  match OutputStream.PutString (Some (codes "up" ++ [10])) OutputStream.Create with
  | Ok s => s
  | _ => OutputStream.Create
  end.

Lemma serial_console_carries_text_witness :
  Forall (is_word 8) (StringBuffer.pending (OutputStream.buffer demo_text)) /\
  let d' := (SetPosition COM1 80 25 demo_text (Construct COM1 B115200 D8 S1 NONE (demo_line, false))).2 in
  wire d'.1 = [117; 112; 13; 10; 0x1b; 91; 50; 53; 59; 56; 48; 72] /\ divisor d'.1 = 1.
Proof.
  assert (H : Forall (is_word 8) (StringBuffer.pending (OutputStream.buffer demo_text)))
    by (vm_compute; repeat constructor; discriminate).
  destruct (serial_console_carries_text COM1 fst _ B115200 D8 S1 NONE demo_text 80 25 (demo_line, false) H)
    as (Hd & _); [unfold is_word; lia..|].
  split; [exact H|]. split; [vm_compute; reflexivity|exact Hd].
Defined.

End SerialStream.
