(* ===== verification/Console.v ===== *)
(** * Debug/Output.cpp and Debug/CopyStream.h: where debug output goes

    The bare writer that works before anything is constructed, the stream of each core,
    and the stream that copies into two others.  Streams are objects in a store, because a
    core's stream is a pointer. *)

From S2P Require Import Prelude Config Device Ps2 Output Serial.

Module EarlySerialStream.
Import Serial SerialStream.

Definition PORT : Z := 0x3f8.

Section Stream.
Context {D : Type} {HW : Hardware D}.

Definition Configure (d : D) : D :=
  let d := Ps2.Out (PORT + 1) 0x00 d in
  let d := Ps2.Out (PORT + 3) 0x80 d in
  let d := Ps2.Out (PORT + 0) 0x01 d in
  let d := Ps2.Out (PORT + 1) 0x00 d in
  let d := Ps2.Out (PORT + 3) 0x03 d in
  let d := Ps2.Out (PORT + 2) 0xc7 d in
  Ps2.Out (PORT + 4) 0x03 d.

Fixpoint WriteByte_loop (attempts : nat) (d : D) : D :=
  match attempts with
  | O => d
  | S k => let '(status, d) := Ps2.In (PORT + 5) d in
           if negb (Z.land status 0x20 =? 0) then d else WriteByte_loop k d
  end.
Definition ATTEMPTS : Z := 100000.
Definition WriteByte (InByte : Z) (d : D) : D := Ps2.Out PORT InByte (WriteByte_loop (Z.to_nat ATTEMPTS) d).

Record t := { stream : OutputStream.t; m_Initialized : bool }.

Fixpoint Flush_loop (cs : list Z) (d : D) : D :=
  match cs with
  | [] => d
  | c :: rest => let d := if c =? 10 then WriteByte 13 d else d in Flush_loop rest (WriteByte (u8 c) d)
  end.
Definition Flush (s : t) (d : D) : t * D :=
  let d := if m_Initialized s then d else Configure d in
  ({| stream := OutputStream.Flush (stream s); m_Initialized := true |},
   Flush_loop (StringBuffer.pending (OutputStream.buffer (stream s))) d).
End Stream.

Section Working.
Context {D : Type} {HW : Hardware D} (view : D -> line) (busy : D -> nat) {U : Uart COM1 view busy}.
Context (fast : forall d, Z.of_nat (busy d) < ATTEMPTS).

Lemma WriteByte_ready n d : (busy d < n)%nat ->
  view (WriteByte_loop n d) = view d /\ busy (WriteByte_loop n d) = O.
Proof.
  revert d. induction n as [|n IH]; intros d Hd; [lia|]. cbn [WriteByte_loop]. unfold Ps2.In.
  destruct (uart_status d) as (Hv & Hb & Hs). change (PortValue COM1 + 5) with (PORT + 5) in *.
  destruct (port_in 8 (PORT + 5) d) as [status d1]. cbn [fst snd] in *.
  change TRANSMIT_HOLDING_EMPTY with 0x20 in Hs.
  destruct (Z.eqb_spec (Z.land status 0x20) 0) as [E|E]; cbn [negb].
  - apply Hs in E. destruct (IH d1 ltac:(lia)) as [Hv' Hb']. split; [congruence|done].
  - split; [done|]. destruct (decide (busy d = O)); [lia|]. tauto.
Qed.

Lemma WriteByte_sends c d : is_word 8 c -> latch (view d) = false ->
  view (WriteByte c d) = with_wire (view d) (wire (view d) ++ [c]).
Proof.
  intros Hc Hl. unfold WriteByte, Ps2.Out. rewrite (wrap_small 8 c) by done.
  destruct (WriteByte_ready (Z.to_nat ATTEMPTS) d) as [Hv Hb].
  { pose proof (fast d). unfold ATTEMPTS in *. lia. }
  change PORT with (PortValue COM1 + 0). rewrite uart_out by (lia || done). rewrite Hv.
  unfold line_write. change (0 =? 0) with true. cbv iota. by rewrite Hl.
Qed.

Lemma early_loop cs d : Forall (is_word 8) cs -> latch (view d) = false ->
  view (Flush_loop cs d) = with_wire (view d) (wire (view d) ++ crlf cs).
Proof.
  revert d. induction cs as [|c cs IH]; intros d Hcs Hl.
  { simpl. rewrite app_nil_r. by destruct (view d). }
  apply Forall_cons in Hcs as [Hc Hcs]. cbn [Flush_loop]. rewrite (wrap_small 8 c) by done.
  change (crlf (c :: cs)) with ((if c =? 10 then [13; 10] else [c]) ++ crlf cs).
  assert (H13 : is_word 8 13) by (unfold is_word; lia). destruct (Z.eqb_spec c 10) as [->|].
  - pose proof (WriteByte_sends 13 d H13 Hl) as E1.
    pose proof (WriteByte_sends 10 _ Hc ltac:(rewrite E1; exact Hl)) as E2.
    rewrite IH by (done || (rewrite E2, E1; exact Hl)). rewrite E2, E1. unfold with_wire. simpl.
    by rewrite <- !app_assoc.
  - pose proof (WriteByte_sends c d Hc Hl) as E1.
    rewrite IH by (done || (rewrite E1; exact Hl)). rewrite E1. unfold with_wire. simpl. by rewrite <- app_assoc.
Qed.

Lemma Configure_line d : view (Configure d) =
  {| divisor := 1; format := 3; interrupts := if latch (view d) then interrupts (view d) else 0;
     fifo := 0xc7; modem := 3; wire := wire (view d) |}.
Proof.
  unfold Configure, Ps2.Out. change PORT with (PortValue COM1).
  rewrite (uart_out 4), (uart_out 2), (uart_out 3), (uart_out 1) by (lia || done).
  assert (E : view (port_out 8 (PortValue COM1 + 3) (u8 0x80) (port_out 8 (PortValue COM1 + 1) (u8 0x00) d)) =
    line_write 3 128 (line_write 1 0 (view d))) by (by rewrite (uart_out 3), (uart_out 1) by (lia || done)).
  rewrite (uart_out 0) by (try lia; try done; rewrite E; done).
  rewrite E. by apply line_setup.
Qed.

(** From power-on, the first flush sets the line up and sends the text. *)
Lemma early_flush s d : m_Initialized s = false ->
  Forall (is_word 8) (StringBuffer.pending (OutputStream.buffer (stream s))) ->
  m_Initialized (Flush s d).1 = true /\ divisor (view (Flush s d).2) = 1 /\ format (view (Flush s d).2) = 3 /\
  wire (view (Flush s d).2) = wire (view d) ++ crlf (StringBuffer.pending (OutputStream.buffer (stream s))).
Proof.
  intros Hi Hs. unfold Flush. rewrite Hi. cbn [fst snd m_Initialized].
  rewrite early_loop by (done || by rewrite Configure_line). rewrite Configure_line. done.
Qed.
End Working.
End EarlySerialStream.

Module Debug.

(** [s_Streams]: the address of each core's stream, 0 for none; [early] is the address of
    [s_EarlyStream]. *)
Definition Out (early core : Z) (s_Streams : Z -> Z) : Z :=
  let stream := if core <? Config.MAX_CORES then s_Streams core else 0 in
  if negb (stream =? 0) then stream else early.

Definition SetStream (InCoreId InStream : Z) (s_Streams : Z -> Z) : Z -> Z :=
  if InCoreId <? Config.MAX_CORES then upd s_Streams InCoreId InStream else s_Streams.

(** A registered stream is used by its core and no other; a null pointer brings the early
    writer back; cores beyond the table always use it. *)
Lemma Out_SetStream early core c stream ss : 0 <= c ->
  Out early c (SetStream core stream ss) =
    if (c =? core) && (core <? Config.MAX_CORES) then (if stream =? 0 then early else stream)
    else Out early c ss.
Proof.
  intros Hc. unfold Out, SetStream, upd. destruct (Z.ltb_spec core Config.MAX_CORES); rewrite ?andb_true_r, ?andb_false_r; [|done].
  destruct (Z.eqb_spec c core) as [->|]; [|by destruct (c <? _)].
  rewrite (proj2 (Z.ltb_lt _ _)) by done. by destruct (stream =? 0).
Qed.
End Debug.

Module CopyStream.
Import StringBuffer.

(** The object: its own stream half and the two sinks, by address (0 for null). *)
Record copy := { copied : OutputStream.t; m_First : Z; m_Second : Z }.

(** [*sink << text << ::Flush] on the streams of a store. *)
Definition Forward (sink : Z) (text : list Z) (st : Z -> OutputStream.t) : outcome (Z -> OutputStream.t) :=
  if negb (sink =? 0) then
    let* o := OutputStream.PutString (Some text) (st sink) in Ok (upd st sink (OutputStream.Flush o))
  else Ok st.

Definition CopyFlush (s : copy) (st : Z -> OutputStream.t) : outcome (copy * (Z -> OutputStream.t)) :=
  let* b := Terminated (OutputStream.buffer (copied s)) in
  let text := m_Buffer b in
  let b' := {| m_Buffer := m_Buffer b; m_Position := 0; flushed := flushed b ++ [pending (OutputStream.buffer (copied s))] |} in
  let* st := Forward (m_First s) text st in
  let* st := Forward (m_Second s) text st in
  Ok ({| copied := {| OutputStream.buffer := b'; OutputStream.m_Base := OutputStream.m_Base (copied s) |};
         m_First := m_First s; m_Second := m_Second s |}, st).

(** Printing a terminated string prints what is in front of the terminator. *)
Lemma PutString_terminated cs rest : OutputStream.plain cs ->
  OutputStream.writes (OutputStream.PutString_loop (cs ++ 0 :: rest)) cs.
Proof.
  intros Hcs s Hs. destruct (OutputStream.PutString_loop_writes cs Hcs s Hs) as (s' & E & H).
  exists s'. split; [|exact H]. clear H Hs. revert s E. induction cs as [|c cs IH]; intros s E; [exact E|].
  apply Forall_cons in Hcs as [Hc Hcs]. cbn [app OutputStream.PutString_loop] in *.
  destruct (c =? 0); [done|]. destruct (OutputStream.PutChar c s); [|done..]. cbn [obind] in *. by apply IH.
Qed.

Lemma Forward_ok sink cs rest st : OutputStream.plain cs -> (forall a, StringBuffer.wf (OutputStream.buffer (st a))) ->
  exists st', Forward sink (cs ++ 0 :: rest) st = Ok st' /\ (forall a, StringBuffer.wf (OutputStream.buffer (st' a))) /\
    forall a, StringBuffer.text (OutputStream.buffer (st' a)) =
      StringBuffer.text (OutputStream.buffer (st a)) ++ (if (a =? sink) && negb (sink =? 0) then cs else []).
Proof.
  intros Hcs Hw. unfold Forward. destruct (Z.eqb_spec sink 0) as [->|Hn]; cbn [negb].
  { exists st. split_and!; [done..|]. intros a. by rewrite andb_false_r, app_nil_r. }
  destruct (PutString_terminated cs rest Hcs (st sink) (Hw sink)) as (o & E & Hwo & Ht & _).
  cbn [OutputStream.PutString]. rewrite E. cbn [obind]. eexists. split; [reflexivity|].
  destruct (StringBuffer.Flush_ok (OutputStream.buffer o) Hwo) as (Hw' & Ht' & _). split.
  - intros a. unfold upd. destruct (a =? sink); [exact Hw'|apply Hw].
  - intros a. unfold upd. rewrite andb_true_r. destruct (Z.eqb_spec a sink) as [->|]; [|by rewrite app_nil_r].
    cbn [OutputStream.Flush OutputStream.buffer]. by rewrite Ht', Ht.
Qed.

(** A copy stream hands its text to both sinks, once each and in full, and leaves every
    other stream alone. *)
Lemma copy_reaches_both s st : StringBuffer.wf (OutputStream.buffer (copied s)) ->
  OutputStream.plain (pending (OutputStream.buffer (copied s))) ->
  (forall a, StringBuffer.wf (OutputStream.buffer (st a))) -> m_First s <> m_Second s ->
  exists s' st', CopyFlush s st = Ok (s', st') /\ pending (OutputStream.buffer (copied s')) = [] /\
    forall a, StringBuffer.text (OutputStream.buffer (st' a)) = StringBuffer.text (OutputStream.buffer (st a)) ++
      (if negb (a =? 0) && ((a =? m_First s) || (a =? m_Second s)) then pending (OutputStream.buffer (copied s)) else []).
Proof.
  intros [Hs Hp] Hpl Hw Hne. unfold CopyFlush, Terminated. unfold BUFFER_SIZE in *.
  rewrite (proj2 (Z.ltb_lt _ _)) by lia. cbn [obind m_Buffer]. set (b := OutputStream.buffer (copied s)) in *.
  assert (Htext : <[Z.to_nat (m_Position b) := 0]> (m_Buffer b) =
    pending b ++ 0 :: drop (S (Z.to_nat (m_Position b))) (m_Buffer b)).
  { unfold pending. apply insert_take_drop. lia. }
  rewrite Htext.
  destruct (Forward_ok (m_First s) (pending b) (drop (S (Z.to_nat (m_Position b))) (m_Buffer b)) st Hpl Hw) as (st1 & -> & Hw1 & H1).
  cbn [obind].
  destruct (Forward_ok (m_Second s) (pending b) (drop (S (Z.to_nat (m_Position b))) (m_Buffer b)) st1 Hpl Hw1) as (st2 & -> & Hw2 & H2).
  cbn [obind]. eexists _, st2. split; [reflexivity|]. split; [done|]. intros a. rewrite H2, H1, <- app_assoc. f_equal.
  destruct (Z.eqb_spec a (m_First s)) as [E1|E1], (Z.eqb_spec a (m_Second s)) as [E2|E2];
    [congruence|rewrite <- E1|rewrite <- E2|]; cbn [andb orb]; rewrite ?andb_true_r, ?andb_false_r, ?app_nil_r; done.
Qed.
End CopyStream.
