(* ===== verification/Screen.v ===== *)
(** * Arch/Cga.cpp, Arch/TextWindow.cpp and Device/TextStream.h: the text screen

    The frame buffer is an array of cells, the hardware cursor a register pair of the CRT
    controller, and a window a rectangle with a cursor of its own.  Windows are objects in
    a store, because activating one deactivates another through a static pointer.  The
    main theorem: a window is a terminal, confined to its rectangle. *)

From S2P Require Import Prelude Config Device Output.

(** [for (i = 0; i < n; i++) a = f(i, a)] *)
Fixpoint For {A} (n : nat) (f : Z -> A -> A) (a : A) : A :=
  match n with O => a | S k => f (Z.of_nat k) (For k f a) end.

(** Its invariant. *)
Lemma For_ind {A} (P : Z -> A -> Prop) (f : Z -> A -> A) n a :
  P 0 a -> (forall i a, 0 <= i < Z.of_nat n -> P i a -> P (i + 1) (f i a)) -> P (Z.of_nat n) (For n f a).
Proof.
  intros H0 HS. induction n as [|n IH]; [done|]. simpl For.
  replace (Z.of_nat (S n)) with (Z.of_nat n + 1) by lia. apply HS; [lia|].
  apply IH. intros i b Hi. apply HS. lia.
Qed.

Module Cga.

Definition ROWS : Z := 25.
Definition COLUMNS : Z := 80.

Inductive Color :=
| BLACK | BLUE | GREEN | CYAN | RED | MAGENTA | BROWN | LIGHT_GREY | DARK_GREY | LIGHT_BLUE
| LIGHT_GREEN | LIGHT_CYAN | LIGHT_RED | LIGHT_MAGENTA | YELLOW | WHITE.
Definition ColorValue (c : Color) : Z :=
  match c with
  | BLACK => 0 | BLUE => 1 | GREEN => 2 | CYAN => 3 | RED => 4 | MAGENTA => 5 | BROWN => 6 | LIGHT_GREY => 7
  | DARK_GREY => 8 | LIGHT_BLUE => 9 | LIGHT_GREEN => 10 | LIGHT_CYAN => 11 | LIGHT_RED => 12
  | LIGHT_MAGENTA => 13 | YELLOW => 14 | WHITE => 15
  end.

(** [union Attribute] as its byte. *)
Definition Attribute (InForeground InBackground : Color) (InBlink : bool) : Z :=
  Field.set 7 1 (if InBlink then 1 else 0) (Field.set 4 3 (ColorValue InBackground)
    (Field.set 0 4 (ColorValue InForeground) 0)).
Definition DefaultAttribute : Z := Attribute LIGHT_GREY BLACK false.

Record Cell := { Character : Z; CellAttribute : Z }.
Definition Blank : Cell := {| Character := 32; CellAttribute := DefaultAttribute |}.

Definition s_IndexPort : Z := 0x3d4.
Definition s_DataPort : Z := 0x3d5.
Definition CURSOR_LOCATION_HIGH : Z := 14.
Definition CURSOR_LOCATION_LOW : Z := 15.

Definition ToOffset (InColumn InRow : Z) : Z := u32 (InRow * COLUMNS + InColumn).

Section Driver.
Context {D : Type} {HW : Hardware D}.

Definition WriteCrtc (InRegister InValue : Z) (d : D) : D :=
  port_out 8 s_DataPort (u8 InValue) (port_out 8 s_IndexPort (u8 InRegister) d).
Definition ReadCrtc (InRegister : Z) (d : D) : Z * D :=
  port_in 8 s_DataPort (port_out 8 s_IndexPort (u8 InRegister) d).

Definition SetCursor (InColumn InRow : Z) (d : D) : D :=
  let offset := u16 (ToOffset InColumn InRow) in
  let d := WriteCrtc CURSOR_LOCATION_HIGH (Z.land (Z.shiftr offset 8) 0xff) d in
  WriteCrtc CURSOR_LOCATION_LOW (Z.land offset 0xff) d.

(** Answers column and row. *)
Definition GetCursor (d : D) : Z * Z * D :=
  let '(high, d) := ReadCrtc CURSOR_LOCATION_HIGH d in
  let '(low, d) := ReadCrtc CURSOR_LOCATION_LOW d in
  let offset := Z.lor (u16 (Z.shiftl high 8)) low in
  (offset mod COLUMNS, offset / COLUMNS, d).
End Driver.

(** The cells of [TEXT_BUFFER] by offset. *)
Definition buffer := Z -> Cell.

Definition Show (InColumn InRow InCharacter InAttribute : Z) (b : buffer) : buffer :=
  if (COLUMNS <=? InColumn) || (ROWS <=? InRow) then b
  else upd b (ToOffset InColumn InRow) {| Character := InCharacter; CellAttribute := InAttribute |}.

Definition Get (InColumn InRow : Z) (b : buffer) : Cell :=
  if (COLUMNS <=? InColumn) || (ROWS <=? InRow) then Blank else b (ToOffset InColumn InRow).

Definition on_screen (x y : Z) : Prop := 0 <= x < COLUMNS /\ 0 <= y < ROWS.

Lemma ToOffset_inj x y x' y' : on_screen x y -> on_screen x' y' ->
  ToOffset x y = ToOffset x' y' -> x = x' /\ y = y'.
Proof.
  unfold on_screen, ToOffset, COLUMNS, ROWS. intros [Hx Hy] [Hx' Hy'].
  rewrite !wrap_small by (unfold is_word; lia). lia.
Qed.

Lemma Get_Show x y x' y' c a b : on_screen x y -> on_screen x' y' ->
  Get x' y' (Show x y c a b) =
  if (x =? x') && (y =? y') then {| Character := c; CellAttribute := a |} else Get x' y' b.
Proof.
  intros H H'. pose proof H as H0. unfold on_screen, COLUMNS, ROWS in H0. pose proof H' as H0'.
  unfold on_screen, COLUMNS, ROWS in H0'. unfold Get, Show, COLUMNS, ROWS.
  replace (80 <=? x) with false by lia. replace (25 <=? y) with false by lia.
  replace (80 <=? x') with false by lia. replace (25 <=? y') with false by lia. simpl.
  unfold upd. destruct (Z.eqb_spec (ToOffset x' y') (ToOffset x y)) as [E|E].
  - apply ToOffset_inj in E as [-> ->]; [|done|done]. by rewrite !Z.eqb_refl.
  - destruct (Z.eqb_spec x x') as [->|], (Z.eqb_spec y y') as [->|]; simpl; done.
Qed.

(** A CRT controller: an index register in front of a register file. *)
Class Crtc (D : Type) {HW : Hardware D} := {
  crtc_index : D -> Z;
  crtc_file : D -> Z -> Z;
  crtc_select i d : crtc_index (port_out 8 s_IndexPort i d) = i;
  crtc_select_keeps i d : crtc_file (port_out 8 s_IndexPort i d) = crtc_file d;
  crtc_write v d : crtc_file (port_out 8 s_DataPort v d) = upd (crtc_file d) (crtc_index d) v;
  crtc_read d : (port_in 8 s_DataPort d).1 = crtc_file d (crtc_index d);
  crtc_read_keeps d : crtc_file (port_in 8 s_DataPort d).2 = crtc_file d }.

(** The cursor comes back where it was put. *)
Lemma cursor_roundtrip {D} {HW : Hardware D} {C : Crtc D} x y (d : D) : on_screen x y ->
  (GetCursor (SetCursor x y d)).1 = (x, y).
Proof.
  intros H. unfold on_screen, COLUMNS, ROWS in H. unfold GetCursor, SetCursor, WriteCrtc, ReadCrtc, ToOffset, COLUMNS.
  rewrite (wrap_small 32), (wrap_small 16) by (unfold is_word; lia). set (o := y * 80 + x).
  set (hi := u8 (Z.land (o ≫ 8) 255)). set (lo := u8 (Z.land o 255)).
  rewrite (surjective_pairing (port_in 8 _ _)). rewrite (surjective_pairing (port_in 8 _ _)). cbn [fst snd].
  repeat first [rewrite crtc_read | rewrite crtc_select | rewrite crtc_select_keeps
               | rewrite crtc_read_keeps | rewrite crtc_write].
  change (u8 CURSOR_LOCATION_HIGH) with 14. change (u8 CURSOR_LOCATION_LOW) with 15.
  rewrite upd_eq, upd_ne, upd_eq by lia.
  assert (Ho : 0 <= o < 2000) by (subst o; lia).
  pose proof (Z.div_mod o 256 ltac:(lia)). pose proof (Z.mod_pos_bound o 256 ltac:(lia)).
  assert (E : Z.lor (u16 (hi ≪ 8)) lo = o).
  { assert (Hhi : hi = o / 256).
    { subst hi. change 255 with (Z.ones 8). rewrite Z.land_ones, Z.shiftr_div_pow2 by lia.
      unfold wrap. rewrite Z.mod_mod by lia. apply Z.mod_small. change (2 ^ 8) with 256. lia. }
    assert (Hlo : lo = o mod 256).
    { subst lo. change 255 with (Z.ones 8). rewrite Z.land_ones by lia. unfold wrap. by rewrite Z.mod_mod by lia. }
    rewrite Hhi, Hlo, Z.shiftl_mul_pow2 by lia. rewrite wrap_small by (unfold is_word; change (2 ^ 8) with 256; lia).
    change (o mod 256) with (o mod 2 ^ 8). rewrite <- Z.land_ones, <- Z.shiftl_mul_pow2 by lia.
    apply Z.bits_inj'. intros i Hi. rewrite Z.lor_spec, Z.land_spec.
    destruct (Z_lt_dec i 8).
    - rewrite Z.shiftl_spec_low, Z.ones_spec_low by lia. by rewrite andb_true_r.
    - rewrite Z.shiftl_spec, Z.ones_spec_high by lia. rewrite andb_false_r, orb_false_r.
      change 256 with (2 ^ 8). rewrite <- Z.shiftr_div_pow2, Z.shiftr_spec by lia. f_equal. lia. }
  rewrite E. subst o. f_equal; [rewrite Z.add_comm, Z.mod_add, Z.mod_small by lia; done|].
  rewrite Z.div_add_l, Z.div_small by lia. lia.
Qed.
End Cga.

Module TextWindow.
Import Cga.

Record window := {
  m_FromColumn : Z; m_ToColumn : Z; m_FromRow : Z; m_ToRow : Z;
  m_CursorColumn : Z; m_CursorRow : Z; m_IsActive : bool }.

Definition with_cursor (w : window) (c r : Z) : window :=
  {| m_FromColumn := m_FromColumn w; m_ToColumn := m_ToColumn w; m_FromRow := m_FromRow w; m_ToRow := m_ToRow w;
     m_CursorColumn := c; m_CursorRow := r; m_IsActive := m_IsActive w |}.
Definition with_active (w : window) (a : bool) : window :=
  {| m_FromColumn := m_FromColumn w; m_ToColumn := m_ToColumn w; m_FromRow := m_FromRow w; m_ToRow := m_ToRow w;
     m_CursorColumn := m_CursorColumn w; m_CursorRow := m_CursorRow w; m_IsActive := a |}.

Definition GetWidth (w : window) : Z := u32 (m_ToColumn w - m_FromColumn w).
Definition GetHeight (w : window) : Z := u32 (m_ToRow w - m_FromRow w).
Definition AbsoluteColumn (w : window) (InColumn : Z) : Z := u32 (m_FromColumn w + InColumn).
Definition AbsoluteRow (w : window) (InRow : Z) : Z := u32 (m_FromRow w + InRow).

(** The loops over the rectangle; they only change cells. *)
Definition Scroll (w : window) (InAttribute : Z) (b : buffer) : buffer :=
  let copy row column b :=
    let cell := Get (AbsoluteColumn w column) (AbsoluteRow w row) b in
    Show (AbsoluteColumn w column) (AbsoluteRow w (u32 (row - 1))) (Character cell) (CellAttribute cell) b in
  let b := For (Z.to_nat (GetHeight w) - 1)
             (fun i b => For (Z.to_nat (GetWidth w)) (copy (i + 1)) b) b in
  For (Z.to_nat (GetWidth w))
    (fun column b => Show (AbsoluteColumn w column) (AbsoluteRow w (u32 (GetHeight w - 1))) 32 InAttribute b) b.

Definition Fill (w : window) (InFillCharacter InAttribute : Z) (b : buffer) : buffer :=
  For (Z.to_nat (GetHeight w)) (fun row b =>
    For (Z.to_nat (GetWidth w)) (fun column b =>
      Show (AbsoluteColumn w column) (AbsoluteRow w row) InFillCharacter InAttribute b) b) b.

(** One character of [Print]: the cells and the cursor. *)
Definition PrintChar (w : window) (c InAttribute : Z) (b : buffer) : window * buffer :=
  let '(w, b) :=
    if c =? 10 then (with_cursor w 0 (u32 (m_CursorRow w + 1)), b)
    else
      let b := Show (AbsoluteColumn w (m_CursorColumn w)) (AbsoluteRow w (m_CursorRow w)) c InAttribute b in
      let column := u32 (m_CursorColumn w + 1) in
      if GetWidth w <=? column then (with_cursor w 0 (u32 (m_CursorRow w + 1)), b)
      else (with_cursor w column (m_CursorRow w), b) in
  if GetHeight w <=? m_CursorRow w
  then (with_cursor w (m_CursorColumn w) (u32 (GetHeight w - 1)), Scroll w InAttribute b)
  else (w, b).

(** [InText] is the memory behind the pointer: running off its end is a fault. *)
Fixpoint Print_loop (InText : list Z) (InAttribute InLength : Z) (w : window) (b : buffer)
    : outcome (window * buffer) :=
  match InText with
  | [] => Fault "InText"
  | c :: rest =>
      if negb (c =? 0) && (0 <? InLength) then
        let '(w, b) := PrintChar w c InAttribute b in Print_loop rest InAttribute (InLength -64 1) w b
      else Ok (w, b)
  end.

Section Display.
Context {D : Type} {HW : Hardware D}.

Record display := { cells : buffer; crtc : D; windows : Z -> window; s_ActiveWindow : Z }.

Definition with_cells (d : display) (b : buffer) : display :=
  {| cells := b; crtc := crtc d; windows := windows d; s_ActiveWindow := s_ActiveWindow d |}.
Definition with_window (d : display) (this : Z) (w : window) : display :=
  {| cells := cells d; crtc := crtc d; windows := upd (windows d) this w; s_ActiveWindow := s_ActiveWindow d |}.
Definition move_cursor (this : Z) (d : display) : display :=
  let w := windows d this in
  {| cells := cells d;
     crtc := SetCursor (AbsoluteColumn w (m_CursorColumn w)) (AbsoluteRow w (m_CursorRow w)) (crtc d);
     windows := windows d; s_ActiveWindow := s_ActiveWindow d |}.

Definition SetPosition (this InColumn InRow : Z) (d : display) : display :=
  let d := with_window d this (with_cursor (windows d this) InColumn InRow) in
  if m_IsActive (windows d this) then move_cursor this d else d.

(** The overload for [int]: negative coordinates count from the far edge. *)
Definition SetPositionSigned (this InColumn InRow : Z) (d : display) : display :=
  let w := windows d this in
  let InColumn := if InColumn <? 0 then to_signed 32 (InColumn + to_signed 32 (GetWidth w)) else InColumn in
  let InRow := if InRow <? 0 then to_signed 32 (InRow + to_signed 32 (GetHeight w)) else InRow in
  SetPosition this (u32 InColumn) (u32 InRow) d.

Definition GetPosition (this : Z) (d : display) : Z * Z :=
  (m_CursorColumn (windows d this), m_CursorRow (windows d this)).

Definition Print (this : Z) (InText : list Z) (InAttribute InLength : Z) (d : display) : outcome display :=
  let* (w, b) := Print_loop InText InAttribute InLength (windows d this) (cells d) in
  Ok (SetPosition this (m_CursorColumn w) (m_CursorRow w) (with_cells (with_window d this w) b)).

Definition Reset (this InFillCharacter InAttribute : Z) (d : display) : display :=
  SetPosition this 0 0 (with_cells d (Fill (windows d this) InFillCharacter InAttribute (cells d))).

Definition Activate (this : Z) (d : display) : display :=
  let d := if negb (s_ActiveWindow d =? 0)
           then with_window d (s_ActiveWindow d) (with_active (windows d (s_ActiveWindow d)) false) else d in
  let d := {| cells := cells d; crtc := crtc d; windows := windows d; s_ActiveWindow := this |} in
  let d := with_window d this (with_active (windows d this) true) in
  move_cursor this d.

Definition Create (this InFromColumn InToColumn InFromRow InToRow : Z) (InUseHardwareCursor : bool)
    (d : display) : display :=
  let d := with_window d this
    {| m_FromColumn := InFromColumn; m_ToColumn := InToColumn; m_FromRow := InFromRow; m_ToRow := InToRow;
       m_CursorColumn := 0; m_CursorRow := 0; m_IsActive := false |} in
  let d := if InUseHardwareCursor then Activate this d else d in
  Reset this 32 DefaultAttribute d.

Definition Destroy (this : Z) (d : display) : display :=
  if s_ActiveWindow d =? this
  then {| cells := cells d; crtc := crtc d; windows := windows d; s_ActiveWindow := 0 |} else d.

End Display.
Arguments display : clear implicits.

(** ** A window is a terminal *)

(** Reference: a grid of [width] by [height] cells and a cursor. *)
Record terminal := { grid : Z -> Z -> Cell; column : Z; row : Z }.

Definition roll (height InAttribute : Z) (t : terminal) : terminal :=
  if row t <? height then t
  else {| grid := fun x y => if y =? height - 1 then {| Character := 32; CellAttribute := InAttribute |}
                             else grid t x (y + 1);
          column := column t; row := height - 1 |}.

Definition terminal_char (width height c InAttribute : Z) (t : terminal) : terminal :=
  roll height InAttribute
    (if c =? 10 then {| grid := grid t; column := 0; row := row t + 1 |}
     else
       let g := fun x y => if (x =? column t) && (y =? row t)
                           then {| Character := c; CellAttribute := InAttribute |} else grid t x y in
       if width <=? column t + 1 then {| grid := g; column := 0; row := row t + 1 |}
       else {| grid := g; column := column t + 1; row := row t |}).

Definition terminal_print (width height InAttribute : Z) (cs : list Z) (t : terminal) : terminal :=
  foldl (fun t c => terminal_char width height c InAttribute t) t cs.

(** The rectangle lies on the screen, the cursor in the rectangle. *)
Record wf (w : window) : Prop := {
  wf_columns : 0 <= m_FromColumn w < m_ToColumn w /\ m_ToColumn w <= COLUMNS;
  wf_rows : 0 <= m_FromRow w < m_ToRow w /\ m_ToRow w <= ROWS;
  wf_cursor : 0 <= m_CursorColumn w < m_ToColumn w - m_FromColumn w /\
              0 <= m_CursorRow w < m_ToRow w - m_FromRow w }.

Definition same_place (w w' : window) : Prop :=
  m_FromColumn w' = m_FromColumn w /\ m_ToColumn w' = m_ToColumn w /\
  m_FromRow w' = m_FromRow w /\ m_ToRow w' = m_ToRow w /\ m_IsActive w' = m_IsActive w.

Definition inside (w : window) (x y : Z) : Prop :=
  m_FromColumn w <= x < m_ToColumn w /\ m_FromRow w <= y < m_ToRow w.

(** The window shows the terminal. *)
Record shows (w : window) (b : buffer) (t : terminal) : Prop := {
  sh_cells x y : 0 <= x < m_ToColumn w - m_FromColumn w -> 0 <= y < m_ToRow w - m_FromRow w ->
    Get (m_FromColumn w + x) (m_FromRow w + y) b = grid t x y;
  sh_column : column t = m_CursorColumn w;
  sh_row : row t = m_CursorRow w }.

Section Geometry.
Variable w : window.
Hypothesis Hw : wf w.

Lemma wf_small : GetWidth w = m_ToColumn w - m_FromColumn w /\ GetHeight w = m_ToRow w - m_FromRow w /\
  0 < GetWidth w <= 80 /\ 0 < GetHeight w <= 25.
Proof.
  destruct Hw as [Hc Hr _]. unfold COLUMNS, ROWS in *.
  assert (E1 : GetWidth w = m_ToColumn w - m_FromColumn w) by (apply wrap_small; unfold is_word; lia).
  assert (E2 : GetHeight w = m_ToRow w - m_FromRow w) by (apply wrap_small; unfold is_word; lia).
  rewrite E1, E2. lia.
Qed.

Lemma absolute x y : 0 <= x < GetWidth w -> 0 <= y < GetHeight w ->
  AbsoluteColumn w x = m_FromColumn w + x /\ AbsoluteRow w y = m_FromRow w + y /\
  on_screen (m_FromColumn w + x) (m_FromRow w + y).
Proof.
  intros Hx Hy. destruct wf_small as (E1 & E2 & _). destruct Hw as [Hc Hr _]. unfold COLUMNS, ROWS in *.
  unfold AbsoluteColumn, AbsoluteRow, on_screen, COLUMNS, ROWS.
  rewrite !wrap_small by (unfold is_word; lia). lia.
Qed.

(** Filling one row of the rectangle. *)
Lemma row_loop y (f : Z -> buffer -> Cell) b :
  0 <= y < GetHeight w ->
  (forall i c, 0 <= i < GetWidth w -> (forall x v, on_screen x v -> v <> m_FromRow w + y -> Get x v c = Get x v b) ->
     f i c = f i b) ->
  let b' := For (Z.to_nat (GetWidth w)) (fun i c =>
    Show (AbsoluteColumn w i) (AbsoluteRow w y) (Character (f i c)) (CellAttribute (f i c)) c) b in
  forall x v, on_screen x v ->
    Get x v b' = if (v =? m_FromRow w + y) && (m_FromColumn w <=? x) && (x <? m_ToColumn w)
                 then f (x - m_FromColumn w) b else Get x v b.
Proof.
  intros Hy Hf b'. destruct wf_small as (E1 & E2 & Hww & Hhh).
  assert (Hinv : forall x v, on_screen x v ->
    Get x v b' = if (v =? m_FromRow w + y) && (m_FromColumn w <=? x) && (x <? m_FromColumn w + Z.of_nat (Z.to_nat (GetWidth w)))
                 then f (x - m_FromColumn w) b else Get x v b).
  { subst b'. apply (For_ind (fun i c => forall x v, on_screen x v -> Get x v c =
      if (v =? m_FromRow w + y) && (m_FromColumn w <=? x) && (x <? m_FromColumn w + i)
      then f (x - m_FromColumn w) b else Get x v b)).
    - intros x v _. destruct (Z.leb_spec (m_FromColumn w) x), (Z.ltb_spec x (m_FromColumn w + 0)); try lia;
        by rewrite ?andb_false_r, ?andb_false_l.
    - intros i c Hi IH x v Hxv. destruct (absolute i y) as (Ex & Ey & Hon); [lia|lia|].
      assert (Efc : f i c = f i b).
      { apply Hf; [lia|]. intros x' v' Hon' Hne. rewrite IH by done. by replace (v' =? m_FromRow w + y) with false by lia. }
      rewrite Ex, Ey, Efc, Get_Show by done.
      destruct (Z.eqb_spec (m_FromColumn w + i) x) as [<-|Hne]; simpl.
      + rewrite (Z.eqb_sym v). destruct (Z.eqb_spec (m_FromRow w + y) v) as [<-|Hv]; simpl.
        * replace (m_FromColumn w <=? m_FromColumn w + i) with true by lia.
          replace (m_FromColumn w + i <? m_FromColumn w + (i + 1)) with true by lia. simpl.
          replace (m_FromColumn w + i - m_FromColumn w) with i by lia. by destruct (f i b).
        * rewrite IH by done. by replace (v =? m_FromRow w + y) with false by lia.
      + rewrite IH by done. destruct (v =? m_FromRow w + y); simpl; [|done].
        destruct (Z.leb_spec (m_FromColumn w) x); simpl; [|done].
        by replace (x <? m_FromColumn w + (i + 1)) with (x <? m_FromColumn w + i) by lia. }
  intros x v Hxv. rewrite Hinv by done. rewrite Z2Nat.id, E1 by lia.
  by replace (m_FromColumn w + (m_ToColumn w - m_FromColumn w)) with (m_ToColumn w) by lia.
Qed.

(** Membership of a cell in the rectangle, as the loops test it. *)
Definition in_columns (x : Z) : bool := (m_FromColumn w <=? x) && (x <? m_ToColumn w).
Definition in_rows (lo hi v : Z) : bool := (m_FromRow w + lo <=? v) && (v <? m_FromRow w + hi).

Lemma Scroll_cells a b x v : on_screen x v ->
  Get x v (Scroll w a b) =
  if in_columns x && in_rows 0 (GetHeight w) v
  then if v =? m_ToRow w - 1 then {| Character := 32; CellAttribute := a |} else Get x (v + 1) b
  else Get x v b.
Proof.
  intros Hxv. destruct wf_small as (E1 & E2 & Hww & Hhh). unfold Scroll.
  set (b1 := For (Z.to_nat (GetHeight w) - 1) _ b).
  assert (H1 : forall x v, on_screen x v -> Get x v b1 =
    if in_columns x && in_rows 0 (Z.of_nat (Z.to_nat (GetHeight w) - 1)) v then Get x (v + 1) b else Get x v b).
  { subst b1. apply (For_ind (fun i c => forall x v, on_screen x v -> Get x v c =
      if in_columns x && in_rows 0 i v then Get x (v + 1) b else Get x v b)).
    - intros x' v' _. unfold in_rows. destruct (Z.leb_spec (m_FromRow w + 0) v'), (Z.ltb_spec v' (m_FromRow w + 0));
        try lia; by rewrite ?andb_false_r, ?andb_false_l.
    - intros i c Hi IH x' v' Hxv'. rewrite (wrap_small 32 (i + 1 - 1)) by (unfold is_word; lia).
      replace (i + 1 - 1) with i by lia.
      rewrite (row_loop i (fun k e => Get (AbsoluteColumn w k) (AbsoluteRow w (i + 1)) e) c); [|lia| |done].
      2: { intros k e Hk He. destruct (absolute k (i + 1)) as (Ex & Ey & Hon); [lia|lia|].
           rewrite Ex, Ey. apply He; [done|lia]. }
      fold (in_columns x'). rewrite <- andb_assoc. fold (in_columns x'). unfold in_rows.
      destruct (Z.eqb_spec v' (m_FromRow w + i)) as [->|Hv]; simpl.
      + replace (m_FromRow w + 0 <=? m_FromRow w + i) with true by lia.
        replace (m_FromRow w + i <? m_FromRow w + (i + 1)) with true by lia. rewrite andb_true_r.
        destruct (in_columns x') eqn:Ec; [|rewrite IH by done; by rewrite Ec].
        unfold in_columns in Ec. destruct (absolute (x' - m_FromColumn w) (i + 1)) as (Ex & Ey & Hon); [lia|lia|].
        rewrite Ex, Ey, IH by done. unfold in_rows.
        replace (m_FromRow w + (i + 1) <? m_FromRow w + i) with false by lia. rewrite !andb_false_r.
        f_equal; lia.
      + rewrite IH by done. unfold in_rows. destruct (in_columns x'); simpl; [|done].
        by replace (v' <? m_FromRow w + (i + 1)) with (v' <? m_FromRow w + i) by lia. }
  rewrite (wrap_small 32 (GetHeight w - 1)) by (unfold is_word; lia).
  rewrite (row_loop (GetHeight w - 1) (fun _ _ => {| Character := 32; CellAttribute := a |}) b1); [|lia|done|done].
  rewrite <- andb_assoc. fold (in_columns x). rewrite H1 by done. unfold in_rows.
  replace (Z.of_nat (Z.to_nat (GetHeight w) - 1)) with (GetHeight w - 1) by lia. rewrite E2.
  replace (m_FromRow w + (m_ToRow w - m_FromRow w - 1)) with (m_ToRow w - 1) by lia.
  replace (m_FromRow w + (m_ToRow w - m_FromRow w)) with (m_ToRow w) by lia.
  destruct (in_columns x); rewrite ?andb_true_r, ?andb_false_r; simpl; [|done].
  destruct (Z.eqb_spec v (m_ToRow w - 1)) as [->|Hv].
  - replace (m_FromRow w + 0 <=? m_ToRow w - 1) with true by lia.
    by replace (m_ToRow w - 1 <? m_ToRow w) with true by lia.
  - by replace (v <? m_ToRow w) with (v <? m_ToRow w - 1) by lia.
Qed.

(** Scrolling on the terminal, and nothing outside. *)
Lemma Scroll_shows a b g :
  (forall x y, 0 <= x < GetWidth w -> 0 <= y < GetHeight w ->
     Get (m_FromColumn w + x) (m_FromRow w + y) b = g x y) ->
  (forall x y, 0 <= x < GetWidth w -> 0 <= y < GetHeight w ->
     Get (m_FromColumn w + x) (m_FromRow w + y) (Scroll w a b) =
     if y =? GetHeight w - 1 then {| Character := 32; CellAttribute := a |} else g x (y + 1)) /\
  (forall x v, on_screen x v -> ~ inside w x v -> Get x v (Scroll w a b) = Get x v b).
Proof.
  intros Hg. destruct wf_small as (E1 & E2 & Hww & Hhh). split.
  - intros x y Hx Hy. destruct (absolute x y Hx Hy) as (_ & _ & Hon). rewrite Scroll_cells by done.
    unfold in_columns, in_rows. replace (m_FromColumn w <=? m_FromColumn w + x) with true by lia.
    replace (m_FromColumn w + x <? m_ToColumn w) with true by lia.
    replace (m_FromRow w + 0 <=? m_FromRow w + y) with true by lia.
    replace (m_FromRow w + y <? m_FromRow w + GetHeight w) with true by lia. simpl.
    replace (m_FromRow w + y =? m_ToRow w - 1) with (y =? GetHeight w - 1) by lia.
    destruct (Z.eqb_spec y (GetHeight w - 1)); [done|].
    replace (m_FromRow w + y + 1) with (m_FromRow w + (y + 1)) by lia. apply Hg; lia.
  - intros x v Hon Hout. rewrite Scroll_cells by done. unfold inside in Hout. unfold in_columns, in_rows.
    destruct (_ && _) eqn:E; [|done]. exfalso. apply Hout. lia.
Qed.

Definition confined (b b' : buffer) : Prop :=
  forall x v, on_screen x v -> ~ inside w x v -> Get x v b' = Get x v b.

(** The end of [PrintChar]: the cursor may stand below the last row. *)
Lemma roll_ok col r a b t :
  0 <= col < GetWidth w -> 0 <= r <= GetHeight w ->
  (forall x y, 0 <= x < GetWidth w -> 0 <= y < GetHeight w ->
     Get (m_FromColumn w + x) (m_FromRow w + y) b = grid t x y) ->
  column t = col -> row t = r ->
  let '(w', b') := if GetHeight w <=? r
                   then (with_cursor w col (u32 (GetHeight w - 1)), Scroll w a b)
                   else (with_cursor w col r, b) in
  wf w' /\ same_place w w' /\ shows w' b' (roll (GetHeight w) a t) /\ confined b b'.
Proof.
  intros Hcol Hr Hg Hct Hrt. destruct wf_small as (E1 & E2 & Hww & Hhh). destruct Hw as [Hc' Hr' _].
  rewrite wrap_small by (unfold is_word; lia). unfold roll. rewrite Hrt.
  destruct (Z.leb_spec (GetHeight w) r) as [Hfull|Hfree].
  - replace (r <? GetHeight w) with false by lia. destruct (Scroll_shows a b (grid t) Hg) as [Hin Hout].
    split_and!; [split; simpl; lia|done| |done]. split; simpl; [|done|done].
    intros x y Hx Hy. rewrite <- E1 in Hx. rewrite <- E2 in Hy. by apply Hin.
  - replace (r <? GetHeight w) with true by lia. split_and!; [split; simpl; lia|done| |done].
    split; simpl; [|done|done]. intros x y Hx Hy. apply Hg; lia.
Qed.

Lemma PrintChar_ok c a b t : shows w b t ->
  let '(w', b') := PrintChar w c a b in
  wf w' /\ same_place w w' /\ shows w' b' (terminal_char (GetWidth w) (GetHeight w) c a t) /\ confined b b'.
Proof.
  intros [Hg Hct Hrt]. destruct wf_small as (E1 & E2 & Hww & Hhh). pose proof (wf_cursor _ Hw) as [Hcc Hcr].
  assert (Hg' : forall x y, 0 <= x < GetWidth w -> 0 <= y < GetHeight w ->
    Get (m_FromColumn w + x) (m_FromRow w + y) b = grid t x y) by (intros x y Hx Hy; apply Hg; lia).
  unfold PrintChar, terminal_char. rewrite !(wrap_small 32 (m_CursorRow w + 1)) by (unfold is_word; lia).
  rewrite !(wrap_small 32 (m_CursorColumn w + 1)) by (unfold is_word; lia). rewrite Hct, Hrt.
  destruct (c =? 10).
  { apply (roll_ok 0 (m_CursorRow w + 1)); simpl; try done; lia. }
  destruct (absolute (m_CursorColumn w) (m_CursorRow w)) as (Ex & Ey & Hon); [lia|lia|]. rewrite Ex, Ey.
  set (b1 := Show _ _ c a b).
  assert (Hg1 : forall x y, 0 <= x < GetWidth w -> 0 <= y < GetHeight w ->
    Get (m_FromColumn w + x) (m_FromRow w + y) b1 =
    if (x =? m_CursorColumn w) && (y =? m_CursorRow w) then {| Character := c; CellAttribute := a |} else grid t x y).
  { intros x y Hx Hy. destruct (absolute x y Hx Hy) as (_ & _ & Hon'). subst b1. rewrite Get_Show by done.
    rewrite Hg' by done. replace (m_FromColumn w + m_CursorColumn w =? m_FromColumn w + x) with (x =? m_CursorColumn w) by lia.
    by replace (m_FromRow w + m_CursorRow w =? m_FromRow w + y) with (y =? m_CursorRow w) by lia. }
  assert (Hout : confined b b1).
  { intros x v Hxv Hni. subst b1. rewrite Get_Show by done. unfold inside in Hni.
    destruct (Z.eqb_spec (m_FromColumn w + m_CursorColumn w) x), (Z.eqb_spec (m_FromRow w + m_CursorRow w) v); simpl; try done.
    exfalso. apply Hni. lia. }
  assert (Hmono : forall b2, confined b1 b2 -> confined b b2).
  { intros b2 H2 x v Hxv Hni. rewrite H2 by done. by apply Hout. }
  destruct (Z.leb_spec (GetWidth w) (m_CursorColumn w + 1)).
  - pose proof (roll_ok 0 (m_CursorRow w + 1) a b1 {| grid := fun x y => if (x =? m_CursorColumn w) && (y =? m_CursorRow w)
      then {| Character := c; CellAttribute := a |} else grid t x y; column := 0; row := m_CursorRow w + 1 |}
      ltac:(lia) ltac:(lia) Hg1 eq_refl eq_refl) as HR. cbn [m_CursorRow m_CursorColumn with_cursor]. change (GetHeight (with_cursor w 0 _)) with (GetHeight w).
    destruct (GetHeight w <=? m_CursorRow w + 1); destruct HR as (? & ? & ? & ?); split_and!; eauto.
  - pose proof (roll_ok (m_CursorColumn w + 1) (m_CursorRow w) a b1 {| grid := fun x y => if (x =? m_CursorColumn w) && (y =? m_CursorRow w)
      then {| Character := c; CellAttribute := a |} else grid t x y; column := m_CursorColumn w + 1; row := m_CursorRow w |}
      ltac:(lia) ltac:(lia) Hg1 eq_refl eq_refl) as HR. cbn [m_CursorRow m_CursorColumn with_cursor]. change (GetHeight (with_cursor w _ _)) with (GetHeight w).
    destruct (GetHeight w <=? m_CursorRow w); destruct HR as (? & ? & ? & ?); split_and!; eauto.
Qed.

End Geometry.

(** Characters that [Print] puts on the screen. *)
Definition printable (cs : list Z) : Prop := Forall (fun c => c <> 0) cs.

Lemma Print_loop_ok cs z rest a w b t :
  wf w -> shows w b t -> printable cs -> Z.of_nat (length cs) < 2 ^ 64 ->
  exists w' b', Print_loop (cs ++ z :: rest) a (Z.of_nat (length cs)) w b = Ok (w', b') /\
    wf w' /\ same_place w w' /\ shows w' b' (terminal_print (GetWidth w) (GetHeight w) a cs t) /\ confined w b b'.
Proof.
  revert w b t. induction cs as [|c cs IH]; intros w b t Hw Ht Hp Hl.
  { exists w, b. simpl. rewrite andb_false_r. split_and!; try done. }
  apply Forall_cons in Hp as [Hc Hp]. cbn [app Print_loop].
  rewrite (proj2 (Z.eqb_neq c 0) Hc), (proj2 (Z.ltb_lt 0 (Z.of_nat (length (c :: cs))))) by (cbn [length]; lia). cbn [negb andb].
  pose proof (PrintChar_ok w Hw c a b t Ht) as HC. destruct (PrintChar w c a b) as [w1 b1].
  destruct HC as (Hw1 & Hp1 & Ht1 & Hc1).
  replace (Z.of_nat (length (c :: cs)) -64 1) with (Z.of_nat (length cs))
    by (cbn [length] in *; rewrite wrap_small; [lia|unfold is_word; lia]).
  destruct (IH w1 b1 _ Hw1 Ht1 Hp) as (w2 & b2 & -> & Hw2 & Hp2 & Ht2 & Hc2); [cbn [length] in Hl; lia|].
  destruct Hp1 as (P1 & P2 & P3 & P4 & P5). destruct Hp2 as (Q1 & Q2 & Q3 & Q4 & Q5).
  exists w2, b2. split_and!; try done; try congruence.
  - unfold same_place. split_and!; congruence.
  - replace (GetWidth w) with (GetWidth w1) by (unfold GetWidth; congruence).
    replace (GetHeight w) with (GetHeight w1) by (unfold GetHeight; congruence).
    assert (E : terminal_print (GetWidth w1) (GetHeight w1) a (c :: cs) t =
      terminal_print (GetWidth w1) (GetHeight w1) a cs (terminal_char (GetWidth w) (GetHeight w) c a t)).
    { unfold terminal_print. simpl. f_equal. unfold GetWidth, GetHeight. by rewrite P1, P2, P3, P4. }
    by rewrite E.
  - intros x v Hxv Hni. rewrite Hc2 by (try done; unfold inside in *; rewrite P1, P2, P3, P4; done). by apply Hc1.
Qed.

End TextWindow.

Module TextStream.
Import Cga TextWindow.

Section Stream.
Context {D : Type} {HW : Hardware D}.

(** The stream half of the object, the address of its window half, and the colour. *)
Record t := { stream : OutputStream.t; this : Z; m_Attribute : Z }.

Definition Create (w InFromColumn InToColumn InFromRow InToRow : Z) (InUseHardwareCursor : bool)
    (d : display D) : t * display D :=
  ({| stream := OutputStream.Create; this := w; m_Attribute := DefaultAttribute |},
   TextWindow.Create w InFromColumn InToColumn InFromRow InToRow InUseHardwareCursor d).

Definition Flush (s : t) (d : display D) : outcome (t * display D) :=
  let* b := StringBuffer.Terminated (OutputStream.buffer (stream s)) in
  let length := StringBuffer.m_Position b in
  let b' := {| StringBuffer.m_Buffer := StringBuffer.m_Buffer b; StringBuffer.m_Position := 0;
               StringBuffer.flushed := StringBuffer.flushed b ++ [StringBuffer.pending b] |} in
  let* d := Print (this s) (StringBuffer.m_Buffer b) (m_Attribute s) length d in
  Ok ({| stream := {| OutputStream.buffer := b'; OutputStream.m_Base := OutputStream.m_Base (stream s) |};
         this := this s; m_Attribute := m_Attribute s |}, d).

Definition SetAttribute (InAttribute : Z) (s : t) : t :=
  {| stream := stream s; this := this s; m_Attribute := InAttribute |}.

Lemma terminated_split l n : length l = 129%nat -> (n <= 128)%nat ->
  <[n := 0]> l = take n l ++ 0 :: drop (S n) (<[n := 0]> l).
Proof.
  intros Hl Hn. rewrite <- (take_drop n (<[n := 0]> l)) at 1. rewrite take_insert_ge by lia. f_equal.
  apply drop_S. apply list_lookup_insert_eq. lia.
Qed.

(** Writing the cursor back changes neither cells nor other windows. *)
Lemma SetPosition_ok a w' b (d : display D) :
  let d' := SetPosition a (m_CursorColumn w') (m_CursorRow w') (with_cells (with_window d a w') b) in
  cells d' = b /\ windows d' a = w' /\ (forall o, o <> a -> windows d' o = windows d o).
Proof.
  cbv zeta. unfold SetPosition. cbn [windows with_cells with_window]. rewrite !upd_eq.
  assert (E : with_cursor w' (m_CursorColumn w') (m_CursorRow w') = w') by (by destruct w').
  rewrite E. cbn [m_IsActive]. destruct (m_IsActive w'); simpl; rewrite upd_eq; split_and!; try done;
    intros o Ho; by rewrite !upd_ne.
Qed.

(** A text stream is a terminal.  Flushing hands the pending characters to the window
    without reading past the buffer, and the window then shows exactly what a terminal of
    its size shows after printing them, with wrapping at the right edge, new lines and
    scrolling; the cursor stays inside the window, no cell outside its rectangle and no
    other window changes, and nothing is left pending. *)
Theorem text_stream_is_terminal s d t :
  StringBuffer.wf (OutputStream.buffer (stream s)) ->
  printable (StringBuffer.pending (OutputStream.buffer (stream s))) ->
  wf (windows d (this s)) -> shows (windows d (this s)) (cells d) t ->
  let w := windows d (this s) in
  exists s' d', Flush s d = Ok (s', d') /\
    StringBuffer.wf (OutputStream.buffer (stream s')) /\
    StringBuffer.pending (OutputStream.buffer (stream s')) = [] /\
    wf (windows d' (this s)) /\ same_place w (windows d' (this s)) /\
    shows (windows d' (this s)) (cells d')
      (terminal_print (GetWidth w) (GetHeight w) (m_Attribute s)
         (StringBuffer.pending (OutputStream.buffer (stream s))) t) /\
    confined w (cells d) (cells d') /\ (forall o, o <> this s -> windows d' o = windows d o).
Proof.
  intros Hb Hp Hw Ht w. set (b := OutputStream.buffer (stream s)) in *. destruct Hb as [Hsz Hpos].
  unfold StringBuffer.BUFFER_SIZE in *. unfold Flush, StringBuffer.Terminated. fold b.
  unfold StringBuffer.BUFFER_SIZE. replace (StringBuffer.m_Position b <? 128 + 1) with true by lia. cbn [obind].
  cbn [StringBuffer.m_Buffer StringBuffer.m_Position].
  set (n := Z.to_nat (StringBuffer.m_Position b)).
  assert (Hlen : length (StringBuffer.pending b) = n).
  { unfold StringBuffer.pending. rewrite length_take. lia. }
  unfold Print. rewrite (terminated_split (StringBuffer.m_Buffer b) n) by lia.
  fold (StringBuffer.pending b).
  replace (StringBuffer.m_Position b) with (Z.of_nat (length (StringBuffer.pending b))) by (rewrite Hlen; lia).
  destruct (Print_loop_ok (StringBuffer.pending b) 0 (drop (S n) (<[n := 0]> (StringBuffer.m_Buffer b)))
    (m_Attribute s) _ _ t Hw Ht Hp) as (w' & b' & E & Hw' & Hpl & Ht' & Hc'); [rewrite Hlen; lia|].
  unfold n at 1. fold (StringBuffer.pending b). rewrite E. cbn [obind].
  destruct (SetPosition_ok (this s) w' b' d) as (Hcells & Hwin & Hoth). eexists _, _. split; [reflexivity|].
  cbn [stream OutputStream.buffer]. rewrite Hcells, Hwin. split_and!; try done.
  split; simpl; [|unfold StringBuffer.BUFFER_SIZE; lia]. unfold StringBuffer.BUFFER_SIZE.
  rewrite <- terminated_split by lia. rewrite length_insert. lia.
Qed.

End Stream.

(** A window of three columns and two rows in the middle of the screen, and five
    characters: the first line wraps and scrolls out. *)
#[local] Instance no_hardware : Hardware unit := {
  port_in w p d := (0, d); port_out w p v d := d; mmio_read a d := (0, d); mmio_write a v d := d }.

Definition demo_display : TextWindow.display unit :=
  TextWindow.Create 1 10 13 5 7 false
    {| cells := fun _ => Blank; crtc := tt;
       windows := fun _ => {| m_FromColumn := 0; m_ToColumn := 80; m_FromRow := 0; m_ToRow := 25;
                              m_CursorColumn := 0; m_CursorRow := 0; m_IsActive := false |};
       s_ActiveWindow := 0 |}.
Definition demo_stream : t :=
  match OutputStream.PutString (Some (codes "abcdefg")) OutputStream.Create with
  | Ok s => {| stream := s; this := 1; m_Attribute := 7 |}
  | _ => {| stream := OutputStream.Create; this := 1; m_Attribute := 7 |}
  end.
Definition demo_terminal : terminal := {| grid := fun _ _ => Blank; column := 0; row := 0 |}.

Lemma demo_shows : shows (windows demo_display 1) (cells demo_display) demo_terminal.
Proof.
  split; [|reflexivity|reflexivity]. intros x y Hx Hy. simpl in Hx, Hy.
  assert (x = 0 \/ x = 1 \/ x = 2) as Hx' by lia. assert (y = 0 \/ y = 1) as Hy' by lia.
  destruct Hx' as [-> | [-> | ->]], Hy' as [-> | ->]; vm_compute; reflexivity.
Qed.

Lemma text_stream_is_terminal_witness :
  exists s' d', Flush demo_stream demo_display = Ok (s', d') /\
    Character <$> [Get 10 5 (cells d'); Get 11 5 (cells d'); Get 12 5 (cells d'); Get 10 6 (cells d')] =
      codes "defg" /\ GetPosition 1 d' = (1, 1).
Proof.
  destruct (text_stream_is_terminal demo_stream demo_display demo_terminal) as
    (s' & d' & E & _ & _ & _ & _ & [Hg Hc Hr] & _).
  - split; vm_compute; [reflexivity|split; discriminate].
  - unfold printable. vm_compute. repeat (constructor; [discriminate|]). constructor.
  - split; vm_compute; (split; [split; [discriminate|reflexivity]|]);
      (discriminate || (split; [discriminate|reflexivity])).
  - exact demo_shows.
  - exists s', d'. split; [exact E|]. vm_compute in E. injection E as <- <-. split; vm_compute; reflexivity.
Defined.

End TextStream.
