(* ===== verification/Layout.v ===== *)
(** * Main.cpp and Interrupt/Guard.cpp: the windows of the screen, and App/CounterThread.cpp

    Ten text streams share the screen: a debug window for every core, the window of the vault
    and that of the user program.  Their constructors run in whatever order the linker chose.
    Insertions go through the buffers of Format.v, and the blocks handed over are printed with
    TextWindow.  Each window shows what was inserted into its own stream. *)

From S2P Require Import Prelude Config Device Output Format Serial Screen Console.
Import Cga TextWindow.

Module Layout.

(** ** The rectangles *)

Record rectangle := { FromColumn : Z; ToColumn : Z; FromRow : Z; ToRow : Z }.
Definition Rect (a b c d : Z) : rectangle := {| FromColumn := a; ToColumn := b; FromRow := c; ToRow := d |}.

Definition s_DebugWindow : list rectangle :=
  [Rect 0 39 4 9; Rect 41 80 4 9; Rect 0 39 9 14; Rect 41 80 9 14;
   Rect 0 39 14 19; Rect 41 80 14 19; Rect 0 39 19 24; Rect 41 80 19 24].
(** [Vault::Vault()] *)
Definition VaultOutput : rectangle := Rect 0 COLUMNS 2 4.
Definition VaultUserOutput : rectangle := Rect 0 COLUMNS 0 2.

(** The addresses of the objects. *)
Definition DEBUG (core : Z) : Z := 1 + core.
Definition OUTPUT : Z := 9.
Definition USER_OUTPUT : Z := 10.
Definition place (this : Z) : option rectangle := (s_DebugWindow ++ [VaultOutput; VaultUserOutput]) !! Z.to_nat (this - 1).
Definition objects : list Z := [1; 2; 3; 4; 5; 6; 7; 8; 9; 10].

(** ** Debug::SetStream for every core *)

(** [s_BootstrapOutput] and [s_Serial]. *)
Definition BOOTSTRAP_OUTPUT : Z := 11.
Definition SERIAL : Z := 12.
Definition s_BootstrapOutput : CopyStream.copy :=
  {| CopyStream.copied := OutputStream.Create; CopyStream.m_First := DEBUG 0; CopyStream.m_Second := SERIAL |}.

Fixpoint Register_loop (n : nat) (core : Z) (ss : Z -> Z) : Z -> Z :=
  match n with O => ss | S k => Register_loop k (core + 1) (Debug.SetStream core (DEBUG core) ss) end.
Definition RegisterDebugStreams (ss : Z -> Z) : Z -> Z :=
  Register_loop (Z.to_nat (Config.MAX_CORES - 1)) 1 (Debug.SetStream 0 BOOTSTRAP_OUTPUT ss).

(** Every core prints through a stream of its own: core 0 through the one that copies to its
    window and the serial line, the others through their windows. *)
Theorem debug_streams_private early ss c : 0 <= c < Config.MAX_CORES ->
  Debug.Out early c (RegisterDebugStreams ss) = if c =? 0 then BOOTSTRAP_OUTPUT else DEBUG c.
Proof.
  unfold Config.MAX_CORES. intros Hc. assert (c ∈ [0; 1; 2; 3; 4; 5; 6; 7]) as H by (repeat (rewrite elem_of_cons); lia).
  repeat (apply elem_of_cons in H as [->|H]; [reflexivity|]). by apply elem_of_nil in H.
Qed.

(** ** The screen *)

Section Screen.
Context {D : Type} {HW : Hardware D}.

Record screen := { streams : Z -> OutputStream.t; attributes : Z -> Z; shown : display D }.

Definition with_shown (s : screen) (d : display D) : screen :=
  {| streams := streams s; attributes := attributes s; shown := d |}.

(** The constructor of the stream at [this]. *)
Definition Construct (this : Z) (s : screen) : screen :=
  match place this with
  | Some r =>
      let '(stream, d) := TextStream.Create this (FromColumn r) (ToColumn r) (FromRow r) (ToRow r) false (shown s) in
      {| streams := upd (streams s) this (TextStream.stream stream);
         attributes := upd (attributes s) this (TextStream.m_Attribute stream); shown := d |}
  | None => s
  end.

(** The blocks a stream hands over, printed one after the other.  What the buffer holds behind a
    block is not looked at. *)
Fixpoint PrintBlocks (this InAttribute : Z) (blocks : list (list Z)) (d : display D) : outcome (display D) :=
  match blocks with
  | [] => Ok d
  | b :: bs => let* d := Print this (b ++ [0]) InAttribute (Z.of_nat (length b)) d in PrintBlocks this InAttribute bs d
  end.

Definition Say (this : Z) (l : list item) (s : screen) : outcome screen :=
  let* o := Inserts l (streams s this) in
  let blocks := drop (length (StringBuffer.flushed (OutputStream.buffer (streams s this))))
                     (StringBuffer.flushed (OutputStream.buffer o)) in
  let* d := PrintBlocks this (attributes s this) blocks (shown s) in
  Ok {| streams := upd (streams s) this o; attributes := attributes s; shown := d |}.

(** ** DBG: an insertion into the stream of a core *)

(** What is inserted into [s_Serial] leaves on the line. *)
Definition SaySerial (l : list item) (s : screen) : outcome screen :=
  let* o := Inserts l (streams s SERIAL) in
  let blocks := drop (length (StringBuffer.flushed (OutputStream.buffer (streams s SERIAL))))
                     (StringBuffer.flushed (OutputStream.buffer o)) in
  let d := shown s in
  Ok {| streams := upd (streams s) SERIAL o; attributes := attributes s;
        shown := {| cells := cells d; crtc := foldl (fun d b => SerialStream.Flush_loop Serial.COM1 b d) (crtc d) blocks;
                    windows := windows d; s_ActiveWindow := s_ActiveWindow d |} |}.

(** [CopyStream::Flush] for each block: [*m_First << text << ::Flush], then [*m_Second]. *)
Fixpoint CopyBlocks (blocks : list (list Z)) (s : screen) : outcome screen :=
  match blocks with
  | [] => Ok s
  | b :: bs =>
      let* s := Say (CopyStream.m_First s_BootstrapOutput) [Str (Some b); Flush] s in
      let* s := SaySerial [Str (Some b); Flush] s in
      CopyBlocks bs s
  end.
Definition SayCopy (l : list item) (s : screen) : outcome screen :=
  let* o := Inserts l (streams s BOOTSTRAP_OUTPUT) in
  let blocks := drop (length (StringBuffer.flushed (OutputStream.buffer (streams s BOOTSTRAP_OUTPUT))))
                     (StringBuffer.flushed (OutputStream.buffer o)) in
  CopyBlocks blocks {| streams := upd (streams s) BOOTSTRAP_OUTPUT o; attributes := attributes s; shown := shown s |}.

(** [DBG << ...] on [core] once [RegisterDebugStreams] has run; [EARLY] is [s_EarlyStream], which no
    core below [MAX_CORES] uses any more. *)
Definition EARLY : Z := 13.
Definition DBG (core : Z) (l : list item) (s : screen) : outcome screen :=
  let out := Debug.Out EARLY core (RegisterDebugStreams (fun _ => 0)) in
  if out =? BOOTSTRAP_OUTPUT then SayCopy l s else Say out l s.

Definition SetAttribute (this InAttribute : Z) (s : screen) : screen :=
  {| streams := streams s; attributes := upd (attributes s) this InAttribute; shown := shown s |}.
Definition Move (this InColumn InRow : Z) (s : screen) : screen :=
  with_shown s (SetPosition this InColumn InRow (shown s)).

Inductive event :=
| ESay (this : Z) (l : list item) (i : item)
| EAttribute (this InAttribute : Z)
| EMove (this InColumn InRow : Z).

Definition exec (e : event) (s : screen) : outcome screen :=
  match e with
  | ESay this l i => Say this (l ++ [i]) s
  | EAttribute this a => Ok (SetAttribute this a s)
  | EMove this x y => Ok (Move this x y s)
  end.
Fixpoint execs (es : list event) (s : screen) : outcome screen :=
  match es with [] => Ok s | e :: es => let* s := exec e s in execs es s end.

(** ** App/CounterThread.cpp *)

Record Counter := { Label : string; CounterAttribute : Z; Row : Z; Value : Z }.
(** A round of the thread on [core], in front of its sleep. *)
Definition CounterRound (core : Z) (c : Counter) : list event * Counter :=
  ([EAttribute OUTPUT (CounterAttribute c); EMove OUTPUT 0 (Row c);
    ESay OUTPUT [Lit (Label c); Char 32; Dec; ULongLong (Value c); Lit " on core "; UInt core; Lit "   "] Flush],
   {| Label := Label c; CounterAttribute := CounterAttribute c; Row := Row c; Value := u64 (Value c + 1) |}).

(** ** What a window shows: a terminal of its own *)

Record term := { tty : terminal; colour : Z; radix : Z }.
Definition fresh_term : term :=
  {| tty := {| grid := fun _ _ => Blank; column := 0; row := 0 |}; colour := DefaultAttribute; radix := 10 |}.

Definition width (this : Z) : Z := match place this with Some r => ToColumn r - FromColumn r | None => 0 end.
Definition height (this : Z) : Z := match place this with Some r => ToRow r - FromRow r | None => 0 end.
Definition event_on (e : event) : Z := match e with ESay this _ _ | EAttribute this _ | EMove this _ _ => this end.

Definition astep (t : term) (e : event) : term :=
  match e with
  | ESay this l i =>
      {| tty := terminal_print (width this) (height this) (colour t) (rendered (radix t) (l ++ [i])) (tty t);
         colour := colour t; radix := last_base (radix t) l |}
  | EAttribute _ a => {| tty := tty t; colour := a; radix := radix t |}
  | EMove _ x y => {| tty := {| grid := grid (tty t); column := x; row := y |}; colour := colour t; radix := radix t |}
  end.

(** No null bytes among the characters. *)
Definition clean (i : item) : Prop :=
  match i with
  | Char c | UChar c => u8 c <> 0
  | Str (Some l) => Forall (fun c => c = 0 \/ u8 c <> 0) l
  | _ => True
  end.
Definition valid (e : event) : Prop :=
  event_on e ∈ objects /\
  match e with
  | ESay _ l i => Forall item_ok l /\ Forall clean l /\ handed_over i
  | EAttribute _ _ => True
  | EMove this x y => 0 <= x < width this /\ 0 <= y < height this
  end.

Lemma spell_printable base v : OutputStream.is_radix base -> 0 <= v -> printable (spell base v).
Proof.
  intros Hr Hv. assert (2 <= base <= 16) as Hb by (unfold OutputStream.is_radix in Hr; lia).
  unfold printable, spell. apply Forall_app. split.
  - unfold OutputStream.number_prefix. repeat case_match; repeat constructor; lia.
  - apply Forall_fmap. eapply Forall_impl; [apply (to_base_range 64 base v); lia|]. intros d Hd.
    cbv beta in Hd. destruct (OutputStream.CharDigit_DigitChar d) as [_ H]; [lia|]. simpl. lia.
Qed.

Lemma item_printable base i : OutputStream.is_radix base -> item_ok i -> clean i -> printable (item_text base i).
Proof.
  unfold printable. assert (Hsig : forall v, OutputStream.is_radix base -> printable (signed_text base v)).
  { intros v Hr. unfold signed_text. case_match; [constructor; [done|]|]; apply spell_printable; try done; try lia.
    - unfold OutputStream.is_radix. lia.
    - pose proof (wrap_range 64 v ltac:(lia)) as H'. unfold is_word in H'. lia. }
  intros Hr Hi Hc. destruct i; simpl in *; try (by repeat constructor); try (by apply Hsig);
    try (apply spell_printable; [done|unfold is_word in Hi; lia]).
  - destruct s as [l|]; [|by refine (bool_decide_eq_true_1 _ _)].
    induction l as [|c l IH]; [constructor|]. apply Forall_cons in Hc as [Hc Hl]. simpl.
    destruct (Z.eqb_spec c 0); [constructor|]. constructor; [by destruct Hc|by apply IH].
  - destruct b; by refine (bool_decide_eq_true_1 _ _).
  - apply spell_printable; [unfold OutputStream.is_radix; lia|unfold is_word in Hi; lia].
Qed.

Lemma rendered_printable l : forall base, OutputStream.is_radix base -> Forall item_ok l -> Forall clean l ->
  printable (rendered base l).
Proof.
  induction l as [|i l IH]; intros base Hr Hi Hc; [constructor|]. apply Forall_cons in Hi as [Hi Hl], Hc as [Hc Hcl].
  simpl. apply Forall_app. split; [by apply item_printable|]. apply IH; [|done..].
  by apply (Insert_prints i base Hr Hi).
Qed.

(** ** Windows do not overlap *)

Definition disjoint (r r' : rectangle) : bool :=
  (ToColumn r <=? FromColumn r') || (ToColumn r' <=? FromColumn r) || (ToRow r <=? FromRow r') || (ToRow r' <=? FromRow r).
Definition on_screen_rect (r : rectangle) : bool :=
  (0 <=? FromColumn r) && (FromColumn r <? ToColumn r) && (ToColumn r <=? COLUMNS) &&
  (0 <=? FromRow r) && (FromRow r <? ToRow r) && (ToRow r <=? ROWS).

Lemma layout_checked :
  forallb (fun a => forallb (fun b => (a =? b) || match place a, place b with
    | Some r, Some r' => disjoint r r' && on_screen_rect r | _, _ => false end) objects) objects = true.
Proof. reflexivity. Qed.

Lemma object_place this : this ∈ objects -> exists r, place this = Some r /\ on_screen_rect r = true.
Proof.
  intros H. repeat (apply elem_of_cons in H as [->|H]; [by eexists|]). by apply elem_of_nil in H.
Qed.

Lemma objects_disjoint a b r r' : a ∈ objects -> b ∈ objects -> a <> b -> place a = Some r -> place b = Some r' ->
  disjoint r r' = true.
Proof.
  intros Ha Hb Hn Er Er'. pose proof layout_checked as H. rewrite forallb_forall in H.
  specialize (H a (proj1 (list_elem_of_In _ _) Ha)). rewrite forallb_forall in H.
  specialize (H b (proj1 (list_elem_of_In _ _) Hb)). rewrite (proj2 (Z.eqb_neq _ _) Hn), Er, Er' in H. simpl in H.
  by apply andb_true_iff in H as [H _].
Qed.

(** Window [w] is the one laid out at [r]. *)
Record at_rect (w : window) (r : rectangle) : Prop := {
  ar_fc : m_FromColumn w = FromColumn r; ar_tc : m_ToColumn w = ToColumn r;
  ar_fr : m_FromRow w = FromRow r; ar_tr : m_ToRow w = ToRow r; ar_active : m_IsActive w = false }.

Lemma same_place_rect w w' r : same_place w w' -> at_rect w r -> at_rect w' r.
Proof. intros (E1 & E2 & E3 & E4 & E5) [A1 A2 A3 A4 A5]. split; congruence. Qed.

(** Changes confined to one window do not show in another. *)
Lemma confined_elsewhere w w' r r' b b' t : at_rect w r -> at_rect w' r' -> disjoint r r' = true -> on_screen_rect r' = true ->
  confined w b b' -> shows w' b t -> shows w' b' t.
Proof.
  intros [A1 A2 A3 A4 _] [B1 B2 B3 B4 _] Hd Hon Hc [H1 H2 H3]. split; [|done..].
  intros x y Hx Hy. rewrite <- H1 by done. unfold on_screen_rect, disjoint in *. unfold COLUMNS, ROWS in *.
  apply Hc; unfold on_screen, inside, COLUMNS, ROWS; lia.
Qed.

Lemma Fill_cells w c a b x v : wf w -> on_screen x v ->
  Get x v (Fill w c a b) =
  if in_columns w x && in_rows w 0 (GetHeight w) v then {| Character := c; CellAttribute := a |} else Get x v b.
Proof.
  intros Hw Hon. destruct (wf_small w Hw) as (E1 & E2 & Hww & Hhh). unfold Fill.
  assert (Hinv : forall x v, on_screen x v -> Get x v (For (Z.to_nat (GetHeight w)) (fun row b =>
      For (Z.to_nat (GetWidth w)) (fun column b => Show (AbsoluteColumn w column) (AbsoluteRow w row) c a b) b) b) =
    if in_columns w x && in_rows w 0 (Z.of_nat (Z.to_nat (GetHeight w))) v then {| Character := c; CellAttribute := a |} else Get x v b).
  { apply (For_ind (fun i b' => forall x v, on_screen x v -> Get x v b' =
      if in_columns w x && in_rows w 0 i v then {| Character := c; CellAttribute := a |} else Get x v b)).
    - intros x' v' _. unfold in_rows. destruct (Z.leb_spec (m_FromRow w + 0) v'), (Z.ltb_spec v' (m_FromRow w + 0)); try lia;
        by rewrite ?andb_false_r, ?andb_false_l.
    - intros i b1 Hi IH x' v' Hon'.
      rewrite (row_loop w Hw i (fun _ _ => {| Character := c; CellAttribute := a |}) b1) by (done || lia).
      rewrite IH by done. unfold in_columns, in_rows.
      destruct (Z.leb_spec (m_FromColumn w) x'), (Z.ltb_spec x' (m_ToColumn w)), (Z.eqb_spec v' (m_FromRow w + i)),
        (Z.leb_spec (m_FromRow w + 0) v'), (Z.ltb_spec v' (m_FromRow w + i)), (Z.ltb_spec v' (m_FromRow w + (i + 1)));
        cbn [andb]; try done; lia. }
  rewrite Hinv by done. by rewrite Z2Nat.id by lia.
Qed.

(** ** The invariant *)

Record object_ok (t : term) (this : Z) (s : screen) : Prop := {
  ok_rect r : place this = Some r -> at_rect (windows (shown s) this) r;
  ok_wf : wf (windows (shown s) this);
  ok_shows : shows (windows (shown s) this) (cells (shown s)) (tty t);
  ok_stream : StringBuffer.wf (OutputStream.buffer (streams s this));
  ok_pending : StringBuffer.pending (OutputStream.buffer (streams s this)) = [];
  ok_radix : OutputStream.m_Base (streams s this) = radix t /\ OutputStream.is_radix (radix t);
  ok_colour : attributes s this = colour t }.

(** Something happened to [this] only. *)
Record local_change (this : Z) (s s' : screen) : Prop := {
  lc_cells : confined (windows (shown s) this) (cells (shown s)) (cells (shown s'));
  lc_windows o : o <> this -> windows (shown s') o = windows (shown s) o;
  lc_streams o : o <> this -> streams s' o = streams s o;
  lc_attributes o : o <> this -> attributes s' o = attributes s o }.

Lemma local_change_other this o t t0 s s' : this ∈ objects -> o ∈ objects -> o <> this ->
  object_ok t0 this s -> local_change this s s' -> object_ok t o s -> object_ok t o s'.
Proof.
  intros Hthis Ho Hn Hok [C1 C2 C3 C4] [H1 H2 H3 H4 H5 H6 H7].
  destruct (object_place this Hthis) as (r & Er & _), (object_place o Ho) as (r' & Er' & Hon).
  split; rewrite ?C2, ?C3, ?C4 by done; try done.
  apply (confined_elsewhere (windows (shown s) this) _ r r' (cells (shown s))); try done.
  - by apply (ok_rect _ _ _ Hok).
  - by apply H1.
  - by apply (objects_disjoint this o).
Qed.

Lemma rect_size this r w : place this = Some r -> at_rect w r -> wf w -> GetWidth w = width this /\ GetHeight w = height this.
Proof.
  intros Er [A1 A2 A3 A4 _] Hw. destruct (wf_small w Hw) as (-> & -> & _). unfold width, height. rewrite Er. lia.
Qed.

Lemma SetPosition_inactive this x y d : m_IsActive (windows d this) = false ->
  SetPosition this x y d = with_window d this (with_cursor (windows d this) x y).
Proof. intros H. unfold SetPosition. cbn [windows with_window]. rewrite upd_eq. cbn [m_IsActive with_cursor]. by rewrite H. Qed.

Lemma confined_trans w w' b b' b'' : same_place w w' -> confined w b b' -> confined w' b' b'' -> confined w b b''.
Proof.
  intros (E1 & E2 & E3 & E4 & _) H1 H2 x v Hon Hout. rewrite H2; [by apply H1|done|].
  unfold inside in *. by rewrite E1, E2, E3, E4.
Qed.

Lemma PrintBlocks_ok this a blocks : forall d t, wf (windows d this) -> m_IsActive (windows d this) = false ->
  shows (windows d this) (cells d) t -> printable (concat blocks) -> Forall (fun x => (length x <= 128)%nat) blocks ->
  exists d', PrintBlocks this a blocks d = Ok d' /\ wf (windows d' this) /\ same_place (windows d this) (windows d' this) /\
    shows (windows d' this) (cells d')
      (terminal_print (GetWidth (windows d this)) (GetHeight (windows d this)) a (concat blocks) t) /\
    confined (windows d this) (cells d) (cells d') /\ (forall o, o <> this -> windows d' o = windows d o).
Proof.
  induction blocks as [|b bs IH]; intros d t Hw Ha Ht Hp Hl; cbn [PrintBlocks].
  - exists d. split_and!; try done.
  - cbn [concat] in *. apply Forall_app in Hp as [Hpb Hp]. apply Forall_cons in Hl as [Hlb Hl]. unfold Print.
    destruct (Print_loop_ok b 0 [] a _ _ t Hw Ht Hpb ltac:(lia)) as (w' & b' & -> & Hw' & Hpl & Ht' & Hc'). cbn [obind].
    destruct (TextStream.SetPosition_ok this w' b' d) as (E1 & E2 & E3). cbv zeta in *.
    set (d1 := SetPosition this _ _ _) in *. clearbody d1.
    destruct (IH d1 (terminal_print (GetWidth (windows d this)) (GetHeight (windows d this)) a b t)) as
      (d' & -> & H1 & H2 & H3 & H4 & H5); [by rewrite E2| | |done|done|].
    + rewrite E2. destruct Hpl as (_ & _ & _ & _ & ->). done.
    + by rewrite E1, E2.
    + exists d'. rewrite E1, E2 in *. destruct Hpl as (P1 & P2 & P3 & P4 & P5).
      assert (EW : GetWidth w' = GetWidth (windows d this)) by (unfold GetWidth; by rewrite P1, P2).
      assert (EH : GetHeight w' = GetHeight (windows d this)) by (unfold GetHeight; by rewrite P3, P4).
      split_and!; try done.
      * destruct H2 as (Q1 & Q2 & Q3 & Q4 & Q5). unfold same_place. split_and!; congruence.
      * rewrite EW, EH in H3. unfold terminal_print in *. by rewrite foldl_app.
      * by apply (confined_trans _ w' _ b').
      * intros o Ho. by rewrite H5, E3.
Qed.

Lemma Say_ok this l i t s : this ∈ objects -> Forall item_ok l -> Forall clean l -> handed_over i -> object_ok t this s ->
  exists s', Say this (l ++ [i]) s = Ok s' /\ object_ok (astep t (ESay this l i)) this s' /\ local_change this s s'.
Proof.
  intros Hthis Hl Hc Hi [H1 H2 H3 H4 H5 [H6 H6'] H7]. destruct (object_place this Hthis) as (r & Er & _).
  assert (Hr : OutputStream.is_radix (OutputStream.m_Base (streams s this))) by (by rewrite H6).
  destruct (Inserts_delivered l i (streams s this) Hr H4 Hl Hi) as (o & blocks & E & Ho & Hp & Hf & Hsm & Hcat & Hb & Hrad).
  unfold Say. rewrite E. cbn [obind]. rewrite Hf, drop_app_length.
  rewrite H5, H6 in Hcat. simpl in Hcat. pose proof (H1 r Er) as Hrect.
  destruct (PrintBlocks_ok this (attributes s this) blocks (shown s) (tty t) H2 (ar_active _ _ Hrect) H3) as
    (d' & -> & D1 & D2 & D3 & D4 & D5); [|done|].
  { rewrite Hcat. apply rendered_printable; [done|..]; apply Forall_app; (split; [done|]); destruct Hi as [-> | ->]; by repeat constructor. }
  cbn [obind]. eexists. split; [reflexivity|]. destruct (rect_size this r _ Er Hrect H2) as [EW EH]. split.
  - split; cbn [shown streams attributes astep tty radix colour]; rewrite ?upd_eq; try done.
    + intros r' Er'. rewrite Er in Er'. injection Er' as <-. by apply (same_place_rect _ _ _ D2).
    + by rewrite <- EW, <- EH, <- H7, <- Hcat.
    + rewrite Hb, H6. split; [done|]. by rewrite <- H6, <- Hb.
  - split; cbn [shown streams attributes]; try done. intros o' Ho'. by rewrite upd_ne.
Qed.

Lemma exec_ok e t s : valid e -> object_ok t (event_on e) s ->
  exists s', exec e s = Ok s' /\ object_ok (astep t e) (event_on e) s' /\ local_change (event_on e) s s'.
Proof.
  intros [Hon Hv] Hok. destruct e as [this l i|this a|this x y]; cbn [event_on exec] in *.
  - destruct Hv as (? & ? & ?). by apply Say_ok.
  - eexists. split; [reflexivity|]. destruct Hok as [H1 H2 H3 H4 H5 H6 H7]. split.
    + split; simpl; try done. by rewrite upd_eq.
    + split; simpl; try done. intros o Ho. by rewrite upd_ne.
  - eexists. split; [reflexivity|]. destruct Hok as [H1 H2 H3 H4 H5 H6 H7]. destruct (object_place this Hon) as (r & Er & _).
    pose proof (H1 r Er) as Hrect. destruct (rect_size this r _ Er Hrect H2) as [EW EH]. destruct (wf_small _ H2) as (W1 & W2 & _).
    unfold Move, with_shown. rewrite SetPosition_inactive by apply Hrect. split.
    + destruct H2 as [Hc Hr' _], H3 as [Hg _ _], Hrect as [A1 A2 A3 A4 A5].
      split; cbn [shown windows with_window streams attributes]; rewrite ?upd_eq; try done.
      * intros r' Er'. rewrite Er in Er'. injection Er' as <-. by split.
      * split; simpl; [done..|]. lia.
    + split; cbn [shown windows with_window streams attributes cells]; try done. intros o Ho. by rewrite upd_ne.
Qed.

Lemma execs_ok es : forall T s, Forall valid es -> (forall this, this ∈ objects -> object_ok (T this) this s) ->
  exists s', execs es s = Ok s' /\
    forall this, this ∈ objects -> object_ok (foldl astep (T this) (filter (fun e => event_on e = this) es)) this s'.
Proof.
  induction es as [|e es IH]; intros T s Hv Hok; [by exists s|]. apply Forall_cons in Hv as [He Hv]. cbn [execs].
  pose proof (proj1 He) as Hon.
  destruct (exec_ok e (T (event_on e)) s He (Hok _ Hon)) as (s1 & -> & H1 & H2). cbn [obind].
  destruct (IH (upd T (event_on e) (astep (T (event_on e)) e)) s1 Hv) as (s' & E & H').
  - intros this Hthis. destruct (decide (this = event_on e)) as [->|Hn]; [by rewrite upd_eq|]. rewrite upd_ne by done.
    apply (local_change_other (event_on e) this _ (T (event_on e)) s s1); try done; by apply Hok.
  - exists s'. split; [done|]. intros this Hthis. specialize (H' this Hthis). rewrite filter_cons.
    destruct (decide (event_on e = this)) as [<-|Hn]; [by rewrite upd_eq in H'|]. by rewrite upd_ne in H' by done.
Qed.

(** *** DBG *)

(** A stream with nothing pending that prints decimal numbers. *)
Record quiet (o : OutputStream.t) : Prop := {
  qu_wf : StringBuffer.wf (OutputStream.buffer o);
  qu_pending : StringBuffer.pending (OutputStream.buffer o) = [];
  qu_base : OutputStream.m_Base o = 10 }.

(** Every window shows its terminal, and the debug streams are at rest. *)
Record debug_ok (T : Z -> term) (s : screen) : Prop := {
  do_objects this : this ∈ objects -> object_ok (T this) this s;
  do_base core : 0 <= core < Config.MAX_CORES -> radix (T (DEBUG core)) = 10;
  do_copy : quiet (streams s BOOTSTRAP_OUTPUT);
  do_serial : quiet (streams s SERIAL) }.

Lemma debug_object core : 0 <= core < Config.MAX_CORES -> DEBUG core ∈ objects.
Proof. unfold Config.MAX_CORES, DEBUG, objects. intros H. rewrite !elem_of_cons. lia. Qed.
Lemma object_range this : this ∈ objects -> 1 <= this <= 10.
Proof. intros H. repeat (apply elem_of_cons in H as [->|H]; [lia|]). by apply elem_of_nil in H. Qed.

Lemma object_ok_other t this s s' : streams s' this = streams s this -> attributes s' = attributes s ->
  windows (shown s') = windows (shown s) -> cells (shown s') = cells (shown s) -> object_ok t this s -> object_ok t this s'.
Proof. intros E1 E2 E3 E4 [H1 H2 H3 H4 H5 H6 H7]. by split; rewrite ?E1, ?E2, ?E3, ?E4. Qed.

Lemma radix10 : OutputStream.is_radix 10.
Proof. unfold OutputStream.is_radix. lia. Qed.

Lemma SaySerial_ok l i T s : Forall item_ok l -> handed_over i -> last_base 10 l = 10 -> debug_ok T s ->
  exists s', SaySerial (l ++ [i]) s = Ok s' /\ debug_ok T s'.
Proof.
  intros Hl Hi Hb [D1 D2 D3 [Q1 Q2 Q3]]. unfold SaySerial.
  destruct (Inserts_delivered l i (streams s SERIAL)) as (o & blocks & -> & Ho & Hp & _ & _ & _ & Hb' & _);
    [rewrite Q3; apply radix10|done..|]. cbn [obind].
  eexists. split; [reflexivity|]. split; [|done|done|].
  - intros this Hthis. refine (object_ok_other _ _ s _ _ _ _ _ (D1 this Hthis)); try done. cbn [streams].
    apply upd_ne. pose proof (object_range this Hthis). unfold SERIAL. lia.
  - cbn [streams]. rewrite upd_eq. split; [done|done|]. by rewrite Hb', Q3, Hb.
Qed.

(** Printing on a window as far as all the streams are concerned. *)
Lemma Say_debug this l i T s : this ∈ objects -> Forall item_ok l -> Forall clean l -> handed_over i ->
  last_base 10 l = 10 -> radix (T this) = 10 -> debug_ok T s ->
  exists s', Say this (l ++ [i]) s = Ok s' /\ debug_ok (upd T this (astep (T this) (ESay this l i))) s'.
Proof.
  intros Hthis Hl Hc Hi Hb Hr [D1 D2 D3 D4].
  destruct (Say_ok this l i (T this) s Hthis Hl Hc Hi (D1 this Hthis)) as (s' & -> & H1 & H2).
  exists s'. split; [done|]. split.
  - intros o Ho. destruct (decide (o = this)) as [->|Hn]; [by rewrite upd_eq|]. rewrite upd_ne by done.
    apply (local_change_other this o _ (T this) s s'); try done; by apply D1.
  - intros core Hcore. unfold upd. destruct (Z.eqb_spec (DEBUG core) this); [|by apply D2]. cbn [astep radix]. by rewrite Hr.
  - rewrite (lc_streams _ _ _ H2); [done|]. pose proof (object_range this Hthis). unfold BOOTSTRAP_OUTPUT. lia.
  - rewrite (lc_streams _ _ _ H2); [done|]. pose proof (object_range this Hthis). unfold SERIAL. lia.
Qed.

(** A terminal after some text. *)
Definition printed (this : Z) (cs : list Z) (t : term) : term :=
  {| tty := terminal_print (width this) (height this) (colour t) cs (tty t); colour := colour t; radix := radix t |}.

Lemma printed_app this cs cs' t : printed this (cs ++ cs') t = printed this cs' (printed this cs t).
Proof. unfold printed, terminal_print. cbn [tty colour radix]. by rewrite foldl_app. Qed.
Lemma astep_say this l i t : radix t = 10 -> last_base 10 l = 10 ->
  astep t (ESay this l i) = printed this (rendered 10 (l ++ [i])) t.
Proof. intros Hr Hb. cbn [astep]. unfold printed. by rewrite Hr, Hb. Qed.

Lemma debug_ok_ext T T' s : (forall o, T o = T' o) -> debug_ok T s -> debug_ok T' s.
Proof. intros E [D1 D2 D3 D4]. split; try done; intros; rewrite <- E; auto. Qed.

Lemma until_nul_printable b : printable b -> Forall (is_word 8) b -> until_nul b = b.
Proof.
  intros Hp Hw. induction b as [|c b IH]; [done|]. apply Forall_cons in Hp as [Hc Hp], Hw as [Hw' Hw]. cbn [until_nul].
  rewrite (proj2 (Z.eqb_neq _ _)) by done. rewrite wrap_small by done. f_equal. by apply IH.
Qed.

Lemma CopyBlocks_ok blocks : forall T s, printable (concat blocks) -> Forall (is_word 8) (concat blocks) -> debug_ok T s ->
  exists s', CopyBlocks blocks s = Ok s' /\
    debug_ok (upd T (DEBUG 0) (printed (DEBUG 0) (concat blocks) (T (DEBUG 0)))) s'.
Proof.
  induction blocks as [|b bs IH]; intros T s Hp Hw HD; cbn [CopyBlocks concat] in *.
  - exists s. split; [done|]. eapply debug_ok_ext; [|exact HD]. intros o. unfold upd.
    destruct (Z.eqb_spec o (DEBUG 0)) as [->|]; [|done]. by destruct (T (DEBUG 0)).
  - apply Forall_app in Hp as [Hpb Hp]. apply Forall_app in Hw as [Hwb Hw].
    assert (Hok : Forall item_ok [Str (Some b)]) by (by repeat constructor).
    assert (Hcl : Forall clean [Str (Some b)]).
    { constructor; [|constructor]. simpl. apply Forall_forall. intros c Hc. right.
      rewrite Forall_forall in Hpb, Hwb. rewrite wrap_small by (by apply Hwb). by apply Hpb. }
    assert (H0 : radix (T (DEBUG 0)) = 10) by (apply HD; done).
    destruct (Say_debug (DEBUG 0) [Str (Some b)] Flush T s (debug_object 0 ltac:(done)) Hok Hcl (or_intror eq_refl)
                eq_refl H0 HD) as (s1 & E1 & D1).
    change (CopyStream.m_First s_BootstrapOutput) with (DEBUG 0). cbn [app] in E1. rewrite E1. cbn [obind].
    destruct (SaySerial_ok [Str (Some b)] Flush _ s1 Hok (or_intror eq_refl) eq_refl D1) as (s2 & E2 & D2).
    cbn [app] in E2. rewrite E2. cbn [obind]. destruct (IH _ s2 Hp Hw D2) as (s' & E & D3). exists s'. split; [done|].
    eapply debug_ok_ext; [|exact D3]. intros o. unfold upd. rewrite Z.eqb_refl.
    destruct (Z.eqb_spec o (DEBUG 0)); [|done]. rewrite astep_say by done. rewrite printed_app.
    cbn [rendered app item_text]. by rewrite app_nil_r, until_nul_printable.
Qed.

(** The text of insertions consists of bytes. *)
Lemma spell_bytes base v : OutputStream.is_radix base -> 0 <= v -> Forall (is_word 8) (spell base v).
Proof.
  intros Hr Hv. assert (2 <= base <= 16) as Hb by (unfold OutputStream.is_radix in Hr; lia). unfold spell. apply Forall_app. split.
  - unfold OutputStream.number_prefix. repeat case_match; repeat constructor; (done || lia).
  - apply Forall_fmap. eapply Forall_impl; [apply (to_base_range 64 base v); lia|]. intros d Hd. cbv beta in Hd.
    destruct (OutputStream.CharDigit_DigitChar d) as [_ H]; [lia|]. simpl. unfold is_word. lia.
Qed.

Lemma until_nul_bytes l : Forall (is_word 8) (until_nul l).
Proof. induction l as [|c l IH]; [constructor|]. cbn [until_nul]. case_match; constructor; [apply wrap_range; lia|done]. Qed.

Lemma item_bytes base i : OutputStream.is_radix base -> item_ok i -> Forall (is_word 8) (item_text base i).
Proof.
  assert (Hsig : forall v, OutputStream.is_radix base -> Forall (is_word 8) (signed_text base v)).
  { intros v Hr. unfold signed_text. case_match; [constructor; [done|]|]; apply spell_bytes; try done; try lia; try apply radix10.
    apply (wrap_range 64 v). lia. }
  intros Hr Hi. destruct i; cbn [item_text item_ok] in *; try (by apply Hsig); try (apply spell_bytes; [done|unfold is_word in Hi; lia]);
    try (by apply Forall_nil); try (constructor; [apply wrap_range; lia|constructor]).
  - destruct s; [apply until_nul_bytes|by refine (bool_decide_eq_true_1 _ _)].
  - destruct b; by refine (bool_decide_eq_true_1 _ _).
  - apply spell_bytes; [unfold OutputStream.is_radix; lia|unfold is_word in Hi; lia].
  - by repeat constructor.
Qed.

Lemma rendered_bytes l : forall base, OutputStream.is_radix base -> Forall item_ok l -> Forall (is_word 8) (rendered base l).
Proof.
  induction l as [|i l IH]; intros base Hr Hi; [constructor|]. apply Forall_cons in Hi as [Hi Hl].
  simpl. apply Forall_app. split; [by apply item_bytes|]. apply IH; [|done]. by apply (Insert_prints i base Hr Hi).
Qed.

(** A row of insertions that ends with a flush and prints decimal numbers afterwards. *)
Record line_ok (l : list item) : Prop := {
  li_items : Forall item_ok l; li_clean : Forall clean l; li_base : last_base 10 l = 10 }.

Lemma line_ok_snoc l i : line_ok l -> handed_over i -> Forall item_ok (l ++ [i]) /\ Forall clean (l ++ [i]).
Proof.
  intros [H1 H2 _] Hi. split; apply Forall_app; (split; [done|]); destruct Hi as [-> | ->]; by repeat constructor.
Qed.

(** DBG on a core prints the text on the window of that core and changes no other. *)
Lemma DBG_ok core l i T s : 0 <= core < Config.MAX_CORES -> line_ok l -> handed_over i -> debug_ok T s ->
  exists s', DBG core (l ++ [i]) s = Ok s' /\
    debug_ok (upd T (DEBUG core) (printed (DEBUG core) (rendered 10 (l ++ [i])) (T (DEBUG core)))) s'.
Proof.
  intros Hcore HL Hi HD. pose proof HL as [L1 L2 L3]. unfold DBG. rewrite debug_streams_private by done.
  pose proof (do_base _ _ HD core Hcore) as Hr. destruct (Z.eqb_spec core 0) as [->|Hn].
  - rewrite Z.eqb_refl. destruct HD as [D1 D2 [Q1 Q2 Q3] D4]. unfold SayCopy.
    destruct (Inserts_delivered l i (streams s BOOTSTRAP_OUTPUT)) as (o & blocks & -> & Ho & Hp & Hf & _ & Hcat & Hb & _);
      [rewrite Q3; apply radix10|done..|]. cbn [obind]. rewrite Hf, drop_app_length. rewrite Q2, Q3 in Hcat. cbn [app] in Hcat.
    rewrite <- Hcat. destruct (line_ok_snoc l i HL Hi) as [HI HC]. apply CopyBlocks_ok.
    + rewrite Hcat. apply rendered_printable; [apply radix10|done..].
    + rewrite Hcat. apply rendered_bytes; [apply radix10|done].
    + split; try done; cbn [streams].
      * intros this Hthis. refine (object_ok_other _ _ s _ _ _ _ _ (D1 this Hthis)); try done. cbn [streams].
        apply upd_ne. pose proof (object_range this Hthis). unfold BOOTSTRAP_OUTPUT. lia.
      * rewrite upd_eq. split; [done|done|]. by rewrite Hb, Q3.
  - rewrite (proj2 (Z.eqb_neq (DEBUG core) _)) by (unfold DEBUG, BOOTSTRAP_OUTPUT, Config.MAX_CORES in *; lia).
    destruct (Say_debug (DEBUG core) l i T s (debug_object core Hcore) L1 L2 Hi L3 Hr HD) as (s' & -> & D1). exists s'.
    split; [done|]. by rewrite <- (astep_say _ l i).
Qed.


(** *** The constructors *)

Lemma Construct_ok this s : this ∈ objects ->
  object_ok fresh_term this (Construct this s) /\
  forall o t, o ∈ objects -> o <> this -> object_ok t o s -> object_ok t o (Construct this s).
Proof.
  intros Hthis. destruct (object_place this Hthis) as (r & Er & Hr). unfold Construct. rewrite Er.
  cbn [TextStream.Create TextStream.stream TextStream.m_Attribute].
  set (w0 := {| m_FromColumn := FromColumn r; m_ToColumn := ToColumn r; m_FromRow := FromRow r; m_ToRow := ToRow r;
                m_CursorColumn := 0; m_CursorRow := 0; m_IsActive := false |}).
  assert (Hw0 : wf w0) by (unfold on_screen_rect in Hr; split; simpl; lia).
  assert (Hat : at_rect w0 r) by (by split).
  assert (E : TextWindow.Create this (FromColumn r) (ToColumn r) (FromRow r) (ToRow r) false (shown s) =
    with_window (with_cells (with_window (shown s) this w0) (Fill w0 32 DefaultAttribute (cells (shown s)))) this w0).
  { unfold TextWindow.Create, Reset. rewrite SetPosition_inactive; cbn [windows with_cells with_window]; by rewrite ?upd_eq. }
  rewrite E. set (s' := {| streams := _; attributes := _; shown := _ |}).
  assert (Hfill : forall x v, on_screen x v -> Get x v (cells (shown s')) =
    if in_columns w0 x && in_rows w0 0 (GetHeight w0) v then Blank else Get x v (cells (shown s)))
    by (intros x v Hon; apply (Fill_cells w0 32 DefaultAttribute _ x v Hw0 Hon)).
  destruct (wf_small w0 Hw0) as (W1 & W2 & _). unfold in_columns, in_rows in Hfill. rewrite W2 in Hfill.
  assert (Hok : object_ok fresh_term this s').
  { split; cbn [shown windows with_window streams attributes cells s']; rewrite ?upd_eq; try done.
    - intros r' Er'. rewrite Er in Er'. by injection Er' as <-.
    - split; [|done..]. intros x y Hx Hy. cbn [fresh_term tty grid].
      pose proof Hr as Hr0. unfold on_screen_rect in Hr0. unfold w0 in Hx, Hy. cbn [m_FromColumn m_ToColumn m_FromRow m_ToRow] in Hx, Hy.
      etransitivity; [apply (Hfill (m_FromColumn w0 + x) (m_FromRow w0 + y)); unfold on_screen; simpl; lia|].
      by replace ((m_FromColumn w0 <=? m_FromColumn w0 + x) && (m_FromColumn w0 + x <? m_ToColumn w0) &&
        ((m_FromRow w0 + 0 <=? m_FromRow w0 + y) && (m_FromRow w0 + y <? m_FromRow w0 + (m_ToRow w0 - m_FromRow w0))))
        with true by (simpl; lia).
    - split; [done|]. unfold OutputStream.is_radix. simpl. lia. }
  split; [exact Hok|]. intros o t Ho Hn [H1 H2 H3 H4 H5 H6 H7]. destruct (object_place o Ho) as (r' & Er' & Hr').
  split; cbn [shown windows with_window with_cells streams attributes s']; rewrite ?upd_ne by done; try done.
  refine (confined_elsewhere w0 _ r r' (cells (shown s)) _ _ Hat (H1 r' Er') (objects_disjoint this o r r' Hthis Ho ltac:(done) Er Er') Hr' _ H3).
  intros x v Hon Hout. etransitivity; [by apply Hfill|]. destruct (_ && _) eqn:E1; [|done].
  exfalso. apply Hout. unfold inside. lia.
Qed.

Lemma constructors_ok order : forall s, NoDup order -> (forall this, this ∈ order -> this ∈ objects) ->
  forall built : list Z, (forall this, this ∈ built -> this ∈ objects /\ object_ok fresh_term this s) ->
  (forall this, this ∈ built \/ this ∈ order -> object_ok fresh_term this (foldl (fun s this => Construct this s) s order)).
Proof.
  induction order as [|x order IH]; intros s Hn Ho built Hb this Hthis; simpl.
  - destruct Hthis as [H|H]; [by apply Hb|by apply elem_of_nil in H].
  - apply NoDup_cons in Hn as [Hx Hn]. destruct (Construct_ok x s (Ho x ltac:(set_solver))) as [C1 C2].
    apply (IH (Construct x s) Hn ltac:(set_solver) (x :: built)); [|set_solver].
    intros o [->|H]%elem_of_cons; [split; [by apply Ho; set_solver|done]|]. destruct (Hb o H) as [Hoo Hok].
    split; [done|]. destruct (decide (o = x)) as [->|]; [done|]. by apply C2.
Qed.

(** C31: One window per core keeps output apart.  Whatever the screen memory held and in whatever
    order the constructors of the ten text streams run: after any sequence of rows of insertions,
    colours and cursor moves that is [valid] (each row ends with a flush or a new line and contains
    no null byte, and each move stays inside its window) every operation has succeeded, and every
    window shows exactly what a terminal of its size shows after the operations on its own stream
    alone, in their order: text of one core never lands in the window of another, of the vault or
    of the user program.  The condition on moves is needed, since SetPosition does not check its
    arguments: [move_outside_interferes]. *)
Theorem windows_do_not_interfere order s0 es : order ≡ₚ objects -> Forall valid es ->
  exists s, execs es (foldl (fun s this => Construct this s) s0 order) = Ok s /\
    forall this, this ∈ objects ->
      shows (windows (shown s) this) (cells (shown s))
        (tty (foldl astep fresh_term (filter (fun e => event_on e = this) es))).
Proof.
  intros Hp Hv. destruct (execs_ok es (fun _ => fresh_term) (foldl (fun s this => Construct this s) s0 order) Hv) as (s & E & H).
  - intros this Hthis. apply (constructors_ok order s0) with (built := []).
    + rewrite Hp. by refine (bool_decide_eq_true_1 _ _).
    + intros o Ho. by rewrite <- Hp.
    + intros o Ho. by apply elem_of_nil in Ho.
    + right. by rewrite Hp.
  - exists s. split; [done|]. intros this Hthis. by apply (ok_shows _ _ _ (H this Hthis)).
Qed.
End Screen.
Arguments screen : clear implicits.

(** ** The counters *)

Lemma to_base_length base fuel : 2 <= base -> forall k v, (0 < k)%nat -> v < base ^ Z.of_nat k -> (length (to_base fuel base v) <= k)%nat.
Proof.
  intros Hb. induction fuel as [|n IH]; intros k v Hk Hv; simpl; [lia|].
  destruct (Z.ltb_spec v base); simpl; [lia|]. rewrite length_app. simpl.
  destruct k as [|[|k]]; [lia|simpl in Hv; lia|].
  assert (length (to_base n base (v / base)) <= S k)%nat; [|lia]. apply IH; [lia|].
  apply Z.div_lt_upper_bound; [lia|]. rewrite (Nat2Z.inj_succ (S k)), Z.pow_succ_r in Hv by lia. lia.
Qed.

(** Text that fits behind the cursor stays in its row. *)
Lemma terminal_line w h a cs : forall t, Forall (fun c => c <> 10) cs -> 0 <= row t < h -> column t + Z.of_nat (length cs) < w ->
  let t' := terminal_print w h a cs t in
  row t' = row t /\ column t' = column t + Z.of_nat (length cs) /\ forall x y, y <> row t -> grid t' x y = grid t x y.
Proof.
  induction cs as [|c cs IH]; intros t Hc Hr Hw; [simpl; split_and!; [done|lia|done]|].
  apply Forall_cons in Hc as [Hc Hcs]. cbn [length] in Hw. cbv zeta. unfold terminal_print. cbn [foldl].
  fold (terminal_print w h a cs (terminal_char w h c a t)).
  assert (E : terminal_char w h c a t = {| grid := fun x y => if (x =? column t) && (y =? row t)
      then {| Character := c; CellAttribute := a |} else grid t x y; column := column t + 1; row := row t |}).
  { unfold terminal_char, roll. rewrite (proj2 (Z.eqb_neq _ _) Hc), (proj2 (Z.leb_gt _ _)) by lia. cbn [row].
    by rewrite (proj2 (Z.ltb_lt _ _)) by lia. }
  rewrite E. destruct (IH {| grid := fun x y => if (x =? column t) && (y =? row t)
      then {| Character := c; CellAttribute := a |} else grid t x y; column := column t + 1; row := row t |} Hcs) as (H1 & H2 & H3);
    [simpl; lia..|].
  cbn [row column grid] in *. split_and!; [done|cbn [length]; lia|]. intros x y Hy. rewrite H3 by done.
  by rewrite (proj2 (Z.eqb_neq y _) Hy), andb_false_r.
Qed.

Lemma digits_no_newline fuel base v : 2 <= base <= 16 -> 0 <= v ->
  Forall (fun c => c <> 10) (OutputStream.DigitChar <$> to_base fuel base v).
Proof.
  intros Hb Hv. apply Forall_fmap. eapply Forall_impl; [apply (to_base_range fuel base v); lia|]. intros d Hd. cbv beta in Hd. simpl.
  unfold OutputStream.DigitChar. destruct (Z.ltb_spec d 10); lia.
Qed.

(** A counter prints into its own row of the vault's window: the other row is untouched. *)
Theorem counter_keeps_its_row core c t : is_word 32 core -> is_word 64 (Value c) -> 0 <= Row c < 2 ->
  (length (until_nul (codes (Label c))) <= 30)%nat -> Forall (fun x => x <> 10) (until_nul (codes (Label c))) ->
  let t' := foldl astep t (CounterRound core c).1 in
  row (tty t') = Row c /\ forall x y, y <> Row c -> grid (tty t') x y = grid (tty t) x y.
Proof.
  intros Hcore Hv Hr Hl Hn. cbn [CounterRound fst foldl astep tty colour radix].
  assert (HT : rendered (radix t) ([Lit (Label c); Char 32; Dec; ULongLong (Value c); Lit " on core "; UInt core; Lit "   "] ++ [Flush]) =
    until_nul (codes (Label c)) ++ [32] ++ (OutputStream.DigitChar <$> to_base 64 10 (Value c)) ++ codes " on core " ++
    (OutputStream.DigitChar <$> to_base 64 10 core) ++ [32; 32; 32]).
  { cbn [app rendered Lit item_text item_base]. unfold spell. change (OutputStream.number_prefix 10) with (@nil Z). cbn [app].
    rewrite app_nil_r. reflexivity. }
  rewrite HT. clear HT.
  match goal with |- context [terminal_print ?w ?h ?a ?cs ?u] => destruct (terminal_line w h a cs u) as (H1 & _ & H3) end.
  - unfold is_word in *. repeat apply Forall_app_2; try (apply digits_no_newline; lia); [done|by refine (bool_decide_eq_true_1 _ _)..].
  - exact Hr.
  - assert (length (to_base 64 10 (Value c)) <= 20)%nat by (apply to_base_length; [lia|lia|unfold is_word in *; lia]).
    assert (length (to_base 64 10 core) <= 10)%nat by (apply to_base_length; [lia|lia|unfold is_word in *; lia]).
    rewrite !length_app, !length_fmap. change (length (codes " on core ")) with 9%nat. cbn [length column].
    change (width OUTPUT) with 80. lia.
  - split; [exact H1|exact H3].
Qed.

(** Two cores and the vault. *)
#[local] Instance no_hardware : Hardware unit := {
  port_in w p d := (0, d); port_out w p v d := d; mmio_read a d := (0, d); mmio_write a v d := d }.

Definition demo_screen : screen unit :=
  {| streams := fun _ => OutputStream.Create; attributes := fun _ => 0;
     shown := {| cells := fun _ => {| Character := 88; CellAttribute := 1 |}; crtc := tt;
       windows := fun _ => {| m_FromColumn := 0; m_ToColumn := 80; m_FromRow := 0; m_ToRow := 25;
                              m_CursorColumn := 0; m_CursorRow := 0; m_IsActive := false |};
       s_ActiveWindow := 0 |} |}.
Definition demo_events : list event :=
  [ESay (DEBUG 1) [Lit "core "; UInt 1] EndLine; ESay (DEBUG 2) [Lit "x="; Hex; UInt 255; Dec] EndLine;
   EAttribute OUTPUT 7; EMove OUTPUT 3 1; ESay OUTPUT [Lit "ok"] Flush].

(** A cursor moved below the window of core 0 makes the next character appear in that of core 2. *)
Theorem move_outside_interferes :
  exists s, execs [EMove (DEBUG 0) 0 (height (DEBUG 0)); ESay (DEBUG 0) [Lit "x"] Flush]
      (foldl (fun s this => Construct this s) demo_screen objects) = Ok s /\
    Get 0 9 (cells (shown s)) = {| Character := 120; CellAttribute := DefaultAttribute |} /\
    FromColumn <$> place (DEBUG 2) = Some 0 /\ FromRow <$> place (DEBUG 2) = Some 9.
Proof. eexists. split; [vm_compute; reflexivity|]. split; vm_compute; [reflexivity|by split]. Qed.

Lemma windows_do_not_interfere_witness :
  exists s, execs demo_events (foldl (fun s this => Construct this s) demo_screen objects) = Ok s /\
    (forall this, this ∈ objects -> shows (windows (shown s) this) (cells (shown s))
        (tty (foldl astep fresh_term (filter (fun e => event_on e = this) demo_events)))) /\
    Character <$> [Get 41 4 (cells (shown s)); Get 0 9 (cells (shown s)); Get 2 9 (cells (shown s)); Get 3 3 (cells (shown s))] =
      codes "cx0o".
Proof.
  destruct (windows_do_not_interfere objects demo_screen demo_events) as (s & E & H).
  - reflexivity.
  - repeat (apply Forall_cons; split); try done; (split; [set_solver|]); try (by split);
      (split; [repeat constructor; done|split; [|by (left + right)]]);
      repeat (apply Forall_cons; split); try done; by refine (bool_decide_eq_true_1 _ _).
  - exists s. split; [exact E|]. split; [exact H|]. vm_compute in E. injection E as <-. vm_compute. reflexivity.
Defined.

End Layout.
