(* ===== verification/User.v ===== *)
(** * ABI/C/HK.h, User/Elf.h and User/Task.cpp: ring 3 programs

    The constants and key encoding shared with user programs, the loader of an ELF image
    and the one way the kernel reads user memory.  The state is that of the page tables
    (whose byte memory is indexed by kernel virtual address and holds the image) and the
    watermark of the user stacks.  A user address is read through the page tables. *)

From S2P Require Import Prelude Mem Config FrameInterface Paging PagingSpec.
Import Paging.

Module Abi.

Definition HK_USER_MIN : Z := 0x1000.
Definition HK_USER_IMAGE_BASE : Z := 0x400000.
Definition HK_USER_STACK_TOP : Z := 0x7FFFFFFFF000.
Definition HK_USER_STACK_SIZE : Z := 64 * 1024.
Definition HK_USER_MAX : Z := 0x800000000000.
Definition HK_USER_CODE_SELECTOR : Z := 0x2b.
Definition HK_USER_DATA_SELECTOR : Z := 0x23.

Inductive hk_syscall := HK_SYS_EXIT | HK_SYS_WRITE | HK_SYS_YIELD | HK_SYS_GET_KEY.
Definition HK_SYS_COUNT : Z := 4.

Inductive hk_error :=
| HK_OK | HK_EPERM | HK_ENOSYS | HK_EINVAL | HK_EFAULT | HK_EBADF | HK_EAGAIN | HK_ERANGE.
Definition error_value (e : hk_error) : Z :=
  match e with
  | HK_OK => 0 | HK_EPERM => 1 | HK_ENOSYS => 2 | HK_EINVAL => 3 | HK_EFAULT => 4 | HK_EBADF => 5
  | HK_EAGAIN => 6 | HK_ERANGE => 7
  end.

Definition HK_STDOUT : Z := 1.
Definition HK_WRITE_MAX : Z := 1024.
Definition HK_EXIT_FAULT_BASE : Z := 128.

Definition HK_MOD_SHIFT : Z := 0x01.
Definition HK_MOD_ALT_LEFT : Z := 0x02.
Definition HK_MOD_ALT_RIGHT : Z := 0x04.
Definition HK_MOD_CTRL_LEFT : Z := 0x08.
Definition HK_MOD_CTRL_RIGHT : Z := 0x10.
Definition HK_MOD_CAPS_LOCK : Z := 0x20.
Definition HK_MOD_NUM_LOCK : Z := 0x40.
Definition HK_MOD_SCROLL_LOCK : Z := 0x80.

Definition hk_key_ascii (InKey : Z) : Z := u8 (Z.land InKey 0xff).
Definition hk_key_code (InKey : Z) : Z := u8 (Z.land (Z.shiftr InKey 8) 0xff).
Definition hk_key_modifiers (InKey : Z) : Z := u8 (Z.land (Z.shiftr InKey 16) 0xff).
Definition hk_key_has (InKey InModifiers : Z) : bool := negb (Z.land (hk_key_modifiers InKey) InModifiers =? 0).
Definition hk_key_pack (InCode InAscii InModifiers : Z) : Z :=
  u32 (Z.lor (Z.lor InAscii (Z.shiftl InCode 8)) (Z.shiftl InModifiers 16)).

Definition hk_failed (InResult : Z) : bool := InResult <? 0.
Definition hk_error_of (InResult : Z) : Z := if InResult <? 0 then - InResult else error_value HK_OK.

(** The three bytes of a packed key come back. *)
Lemma key_pack_bytes c a m : is_word 8 c -> is_word 8 a -> is_word 8 m ->
  hk_key_code (hk_key_pack c a m) = c /\ hk_key_ascii (hk_key_pack c a m) = a /\
  hk_key_modifiers (hk_key_pack c a m) = m.
Proof.
  intros Hc Ha Hm. unfold hk_key_code, hk_key_ascii, hk_key_modifiers, hk_key_pack.
  assert (Hbits : forall x n i, is_word 8 x -> 0 <= n -> 0 <= i ->
    Z.testbit (Z.shiftl x n) i = (n <=? i) && (i <? n + 8) && Z.testbit x (i - n)).
  { intros x n i Hx Hn Hi. rewrite Z.shiftl_spec by lia. destruct (Z.leb_spec n i); simpl;
      [|by rewrite Z.testbit_neg_r by lia]. destruct (Z.ltb_spec i (n + 8)); simpl; [done|].
    by apply (testbit_above 8); [|lia]. }
  assert (Hlow : forall x i, is_word 8 x -> 0 <= i -> Z.testbit x i = (i <? 8) && Z.testbit x i).
  { intros x i Hx Hi. destruct (Z.ltb_spec i 8); simpl; [done|]. by apply (testbit_above 8); [|lia]. }
  split_and!; (apply Z.bits_inj'; intros i Hi; change 255 with (Z.ones 8));
    rewrite testbit_wrap, Z.land_spec, ?Z.shiftr_spec, testbit_wrap, !Z.lor_spec, !Hbits by (done || lia);
    (destruct (Z.ltb_spec i 8) as [Hi8|Hi8]; simpl; [rewrite Z.ones_spec_low by lia|by symmetry; apply (testbit_above 8); [|lia]]).
  - rewrite (Hlow a (i + 8)) by (done || lia). replace (i + 8 <? 8) with false by lia.
    replace (8 <=? i + 8) with true by lia. replace (i + 8 <? 8 + 8) with true by lia.
    replace (16 <=? i + 8) with false by lia. replace (i + 8 <? 32) with true by lia.
    simpl. rewrite andb_true_r, orb_false_r. f_equal. lia.
  - replace (8 <=? i) with false by lia. replace (16 <=? i) with false by lia. replace (i <? 32) with true by lia.
    simpl. by rewrite !orb_false_r, andb_true_r.
  - rewrite (Hlow a (i + 16)) by (done || lia). replace (i + 16 <? 8) with false by lia.
    replace (i + 16 <? 8 + 8) with false by lia. replace (16 <=? i + 16) with true by lia.
    replace (i + 16 <? 16 + 8) with true by lia. replace (i + 16 <? 32) with true by lia.
    rewrite andb_false_r. simpl. rewrite andb_true_r. f_equal. lia.
Qed.
End Abi.

Module Elf.

Definition CLASS_64 : Z := 2.
Definition DATA_LITTLE_ENDIAN : Z := 1.
Definition TYPE_EXECUTABLE : Z := 2.
Definition MACHINE_X86_64 : Z := 0x3e.
Definition PT_LOAD : Z := 1.
Definition PF_EXECUTE : Z := Z.shiftl 1 0.
Definition PF_WRITE : Z := Z.shiftl 1 1.
Definition PF_READ : Z := Z.shiftl 1 2.

(** [struct Header], packed, as it lies in memory at [a]. *)
Record Header := {
  Magic : list Z; Class_ : Z; Data : Z; HType : Z; Machine_ : Z; Entry : Z;
  ProgramHeaderOffset : Z; ProgramHeaderEntrySize : Z; ProgramHeaderCount : Z }.
Definition SIZEOF_HEADER : Z := 64.
Definition ReadHeader (m : mem) (a : Z) : Header :=
  {| Magic := [load8 m a; load8 m (a + 1); load8 m (a + 2); load8 m (a + 3)];
     Class_ := load8 m (a + 4); Data := load8 m (a + 5);
     HType := load16 m (a + 16); Machine_ := load16 m (a + 18);
     Entry := load64 m (a + 24); ProgramHeaderOffset := load64 m (a + 32);
     ProgramHeaderEntrySize := load16 m (a + 54); ProgramHeaderCount := load16 m (a + 56) |}.

Record ProgramHeader := {
  Type_ : Z; Flags : Z; Offset : Z; VirtualAddress : Z; PhysicalAddress : Z; FileSize : Z;
  MemorySize : Z; Alignment : Z }.
Definition SIZEOF_PROGRAM_HEADER : Z := 56.
Definition ReadProgramHeader (m : mem) (a : Z) : ProgramHeader :=
  {| Type_ := load32 m a; Flags := load32 m (a + 4); Offset := load64 m (a + 8);
     VirtualAddress := load64 m (a + 16); PhysicalAddress := load64 m (a + 24);
     FileSize := load64 m (a + 32); MemorySize := load64 m (a + 40); Alignment := load64 m (a + 48) |}.
End Elf.

Module User.
Import Abi.

Definition GUARD_SIZE : Z := PAGE_SIZE.
Definition STACK_STRIDE : Z := HK_USER_STACK_SIZE + GUARD_SIZE.

Section Operations.
Context {F : Type} {FA : FrameAllocator F}.

(** The page tables with memory and frames, and [s_NextStackTop]. *)
Record t := { paging : Paging.t F; s_NextStackTop : Z }.
Definition Boot (p : Paging.t F) : t := {| paging := p; s_NextStackTop := HK_USER_STACK_TOP |}.
Definition with_paging (u : t) (p : Paging.t F) : t := {| paging := p; s_NextStackTop := s_NextStackTop u |}.

Definition with_frames (p : Paging.t F) (f : F) : Paging.t F := with_table p (memory p) f (s_TableCount p).

(** [Frame::Allocate] on the frame allocator behind the page tables. *)
Definition AllocateFrames (count : Z) (p : Paging.t F) : outcome (Z * Paging.t F) :=
  let* (r, f) := fa_Allocate count (frames p) in Ok (r, with_frames p f).

Definition AllocateStack (u : t) : outcome (Z * t) :=
  let top := s_NextStackTop u in
  let u := {| paging := paging u; s_NextStackTop := s_NextStackTop u -64 STACK_STRIDE |} in
  let* (fr, p) := AllocateFrames (HK_USER_STACK_SIZE / PAGE_SIZE) (paging u) in
  let u := with_paging u p in
  if fr =? 0 then Ok (0, u)
  else
    let bottom := top -64 HK_USER_STACK_SIZE in
    let p := with_memory p (CString.memset (memory p) (ToVirtual fr) 0 HK_USER_STACK_SIZE) in
    let* (ok, p) := Map bottom fr HK_USER_STACK_SIZE READ_WRITE USER_ NORMAL p in
    Ok (if (ok : bool) then top else 0, with_paging u p).

Definition AccessFor (InFlags : Z) : Access :=
  if negb (Z.land InFlags Elf.PF_EXECUTE =? 0) then READ_EXECUTE
  else if negb (Z.land InFlags Elf.PF_WRITE =? 0) then READ_WRITE
  else READ_ONLY.

Definition InUserHalf (InStart InLength : Z) : bool :=
  let end_ := InStart +64 InLength in
  (HK_USER_MIN <=? InStart) && (InStart <=? end_) && (end_ <=? HK_USER_MAX).

(** [InImage] is the kernel address of the image. *)
Definition LoadSegment (InImage : Z) (h : Elf.ProgramHeader) (p : Paging.t F) : outcome (bool * Paging.t F) :=
  let start := page_base (Elf.VirtualAddress h) in
  let end_ := Math.AlignUp (Elf.VirtualAddress h +64 Elf.MemorySize h) PAGE_SIZE in
  let size := end_ -64 start in
  let* (fr, p) := AllocateFrames (size / PAGE_SIZE) p in
  if fr =? 0 then Ok (false, p)
  else
    let target := ToVirtual fr in
    let m := CString.memset (memory p) target 0 size in
    let m := CString.memcpy m (target +64 (Elf.VirtualAddress h -64 start)) (InImage +64 Elf.Offset h) (Elf.FileSize h) in
    Map start fr size (AccessFor (Elf.Flags h)) USER_ NORMAL (with_memory p m).

Definition IsRunnable (h : Elf.Header) (InSize : Z) : bool :=
  (Elf.SIZEOF_HEADER <=? InSize) && bool_decide (Elf.Magic h = [0x7f; 69; 76; 70]) &&
  (Elf.Class_ h =? Elf.CLASS_64) && (Elf.Data h =? Elf.DATA_LITTLE_ENDIAN) &&
  (Elf.HType h =? Elf.TYPE_EXECUTABLE) && (Elf.Machine_ h =? Elf.MACHINE_X86_64) &&
  (Elf.ProgramHeaderEntrySize h =? Elf.SIZEOF_PROGRAM_HEADER) && (0 <? Elf.ProgramHeaderCount h).

Definition writable_code (h : Elf.ProgramHeader) : bool :=
  negb (Z.land (Elf.Flags h) Elf.PF_WRITE =? 0) && negb (Z.land (Elf.Flags h) Elf.PF_EXECUTE =? 0).
Definition bad_bounds (h : Elf.ProgramHeader) (InSize : Z) : bool :=
  (InSize <? Elf.Offset h +64 Elf.FileSize h) || (Elf.MemorySize h <? Elf.FileSize h) ||
  negb (InUserHalf (Elf.VirtualAddress h) (Elf.MemorySize h)).

(** The loop over the program headers.  The header is a reference into the image, so its
    fields are read from memory each time; the count has 16 bits. *)
Fixpoint Load_loop (fuel : nat) (InImage InSize index : Z) (p : Paging.t F) : outcome (bool * Paging.t F) :=
  match fuel with
  | O => Diverges
  | S k =>
      let header := Elf.ReadHeader (memory p) InImage in
      if index <? Elf.ProgramHeaderCount header then
        let segment := Elf.ReadProgramHeader (memory p)
          ((InImage +64 Elf.ProgramHeaderOffset header) +64 (index *64 Elf.SIZEOF_PROGRAM_HEADER)) in
        if negb (Elf.Type_ segment =? Elf.PT_LOAD) || (Elf.MemorySize segment =? 0) then
          Load_loop k InImage InSize (u32 (index + 1)) p
        else if writable_code segment then Ok (false, p)
        else if bad_bounds segment InSize then Ok (false, p)
        else
          let* (ok, p) := LoadSegment InImage segment p in
          if (ok : bool) then Load_loop k InImage InSize (u32 (index + 1)) p else Ok (false, p)
      else Ok (true, p)
  end.
Definition LOAD_ROUNDS : nat := Z.to_nat (2 ^ 16).

Record Task := { TaskEntry : Z; StackTop : Z }.

(** Answers the task on success. *)
Definition Load (InImage InSize : Z) (u : t) : outcome (option Task * t) :=
  if negb (IsRunnable (Elf.ReadHeader (memory (paging u)) InImage) InSize) then Ok (None, u)
  else
    let* (ok, p) := Load_loop LOAD_ROUNDS InImage InSize 0 (paging u) in
    let u := with_paging u p in
    let header := Elf.ReadHeader (memory p) InImage in
    if negb ok then Ok (None, u)
    else if negb (InUserHalf (Elf.Entry header) 1) || negb (IsExecutable p (Elf.Entry header)) then Ok (None, u)
    else
      let* (top, u) := AllocateStack u in
      Ok (if top =? 0 then None else Some {| TaskEntry := Elf.Entry header; StackTop := top |}, u).

(** What ring 3 sees at address [a]. *)
Definition user_byte (p : Paging.t F) (a : Z) : Z := load8 (memory p) (ToVirtual (Translate p a)).

Fixpoint CopyIn_loop (fuel : nat) (p : Paging.t F) (page end_ : Z) : outcome bool :=
  match fuel with
  | O => Diverges
  | S k =>
      if page <? end_ then
        if negb (IsUserReadable p page) then Ok false else CopyIn_loop k p (page +64 PAGE_SIZE) end_
      else Ok true
  end.

(** The bytes that end up in [OutDestination]. *)
Definition CopyIn (p : Paging.t F) (InSource InLength : Z) : outcome (option (list Z)) :=
  if InLength =? 0 then Ok (Some [])
  else if negb (InUserHalf InSource InLength) then Ok None
  else
    let* ok := CopyIn_loop (Z.to_nat (InLength / PAGE_SIZE + 3)) p (page_base InSource) (InSource +64 InLength) in
    Ok (if (ok : bool) then Some ((fun i => user_byte p (InSource + Z.of_nat i)) <$> seq 0 (Z.to_nat InLength)) else None).

End Operations.
Arguments t : clear implicits.

(** [s_TerminationCount] and [s_LastStatus]. *)
Record Termination := { Count : Z; Status : Z }.
Definition NoTermination : Termination := {| Count := 0; Status := 0 |}.
Definition Record_ (InStatus : Z) (x : Termination) : Termination :=
  {| Count := u32 (Count x + 1); Status := InStatus |}.

End User.
