(* ===== verification/Termination.v ===== *)
(** * User/Task.cpp: the status of ended tasks, read while tasks end

    [User::Terminate] stores the status and then counts with release order;
    [User::LastTermination] loads the count with acquire order and then the status.  Any number
    of cores do both at once, one access at a time. *)

From S2P Require Import Prelude User.
Import User.

Module TerminationRace.

(** The two variables; the cores that stored and did not count yet; the cores that loaded the
    count and did not load the status yet; the statuses stored so far and the answers given. *)
Record shared := {
  now : Termination;
  storing : gset Z;
  reading : gmap Z Z;
  stored : list Z;
  answers : list Termination }.

Definition start : shared := {| now := NoTermination; storing := ∅; reading := ∅; stored := []; answers := [] |}.

(** The two accesses of [Terminate]. *)
Definition StoreStatus (core InStatus : Z) (s : shared) : shared :=
  {| now := {| Count := Count (now s); Status := InStatus |}; storing := storing s ∪ {[core]}; reading := reading s;
     stored := stored s ++ [InStatus]; answers := answers s |}.
Definition AddCount (core : Z) (s : shared) : shared :=
  {| now := {| Count := u32 (Count (now s) + 1); Status := Status (now s) |}; storing := storing s ∖ {[core]};
     reading := reading s; stored := stored s; answers := answers s |}.
(** The two accesses of [LastTermination]. *)
Definition LoadCount (core : Z) (s : shared) : shared :=
  {| now := now s; storing := storing s; reading := <[core := Count (now s)]> (reading s); stored := stored s;
     answers := answers s |}.
Definition LoadStatus (core count : Z) (s : shared) : shared :=
  {| now := now s; storing := storing s; reading := delete core (reading s); stored := stored s;
     answers := answers s ++ [{| Count := count; Status := Status (now s) |}] |}.

Inductive step (s : shared) : shared -> Prop :=
| step_store core status : core ∉ storing s -> step s (StoreStatus core status s)
| step_count core : core ∈ storing s -> step s (AddCount core s)
| step_load core : step s (LoadCount core s)
| step_answer core count : reading s !! core = Some count -> step s (LoadStatus core count s).

(** The two accesses of a core with nobody in between are the operation. *)
Lemma alone core status s : core ∉ storing s ->
  now (AddCount core (StoreStatus core status s)) = Record_ status (now s).
Proof. done. Qed.

(** The status of the [k]-th store, or none. *)
Definition status_after (k : nat) (l : list Z) : Z := default 0 (last (take k l)).

(** An answer with a count is good: it has the status of that store or of a later one. *)
Definition good (l : list Z) (x : Termination) : Prop :=
  exists k : nat, Count x <= Z.of_nat k <= Z.of_nat (length l) /\ Status x = status_after k l.

Record consistent (s : shared) : Prop := {
  cs_count : Count (now s) = Z.of_nat (length (stored s)) - Z.of_nat (size (storing s));
  cs_positive : 0 <= Count (now s);
  cs_status : Status (now s) = status_after (length (stored s)) (stored s);
  cs_reading : map_Forall (fun _ n => n <= Z.of_nat (length (stored s))) (reading s);
  cs_answers : Forall (good (stored s)) (answers s) }.

Lemma status_after_app k l l' : (k <= length l)%nat -> status_after k (l ++ l') = status_after k l.
Proof. intros Hk. unfold status_after. by rewrite take_app_le. Qed.

Lemma good_app l l' x : good l x -> good (l ++ l') x.
Proof. intros (k & Hk & E). exists k. rewrite length_app, status_after_app by lia. split; [lia|done]. Qed.

Lemma step_consistent s s' : step s s' -> Z.of_nat (length (stored s')) < 2 ^ 32 -> consistent s -> consistent s'.
Proof.
  intros Hs Hlen [H1 H2 H3 H4 H5]. destruct Hs as [core status Hn|core Hin|core|core n Hn]; split; simpl in *; try done.
  - rewrite length_app, size_union, size_singleton by set_solver. simpl. lia.
  - unfold status_after. by rewrite take_ge, last_snoc by done.
  - apply (map_Forall_impl _ _ _ H4). intros _ n Hle. rewrite length_app. lia.
  - apply (Forall_impl _ _ _ H5). intros x. apply good_app.
  - assert (Hsz : size (storing s) = S (size (storing s ∖ {[core]}))).
    { rewrite size_difference, size_singleton by set_solver. assert (size {[core]} <= size (storing s))%nat by (apply subseteq_size; set_solver).
      rewrite size_singleton in *. lia. }
    rewrite wrap_small by (unfold is_word; lia). lia.
  - rewrite wrap_small; unfold is_word; [lia|]. split; [lia|]. assert (size (storing s) <> 0)%nat; [|lia].
    intros E. apply size_empty_inv in E. set_solver.
  - apply map_Forall_insert_2; [lia|done].
  - by apply map_Forall_delete.
  - apply Forall_app. split; [done|]. apply Forall_singleton. exists (length (stored s)). simpl.
    split; [split; [by apply (H4 core)|lia]|done].
Qed.

Lemma stored_grows s s' : rtc step s s' -> (length (stored s) <= length (stored s'))%nat.
Proof.
  induction 1 as [|s s1 s2 Hs _ IH]; [done|]. etrans; [|exact IH]. destruct Hs; simpl; rewrite ?length_app; simpl; lia.
Qed.

Lemma run_consistent s s' : rtc step s s' -> Z.of_nat (length (stored s')) < 2 ^ 32 -> consistent s -> consistent s'.
Proof.
  induction 1 as [|s s1 s2 Hs Hr IH]; intros Hlen HC; [done|]. apply IH; [done|].
  apply (step_consistent s); [done| |done]. pose proof (stored_grows _ _ Hr). lia.
Qed.

(** However stores, counts and reads of up to [2^32 - 1] terminations interleave, every answer
    of [LastTermination] has the status of some termination that is at least as late as its
    count says: a reader that sees the count has the status too. *)
Theorem last_termination_never_stale s x :
  rtc step start s -> Z.of_nat (length (stored s)) < 2 ^ 32 -> x ∈ answers s -> good (stored s) x.
Proof.
  intros Hs Hlen Hx. assert (HC : consistent s) by (by apply (run_consistent start)).
  pose proof (cs_answers _ HC) as HA. rewrite Forall_forall in HA. by apply HA.
Qed.

(** One task ends with status 139 and another core asks. *)
Example last_termination_reads_back :
  exists s, rtc step start s /\ answers s = [{| Count := 1; Status := 139 |}].
Proof.
  exists (LoadStatus 7 1 (LoadCount 7 (AddCount 3 (StoreStatus 3 139 start)))). split; [|reflexivity].
  eapply rtc_l; [apply (step_store _ 3 139); set_solver|]. eapply rtc_l; [apply (step_count _ 3); set_solver|].
  eapply rtc_l; [apply (step_load _ 7)|]. apply rtc_once, step_answer. reflexivity.
Qed.

End TerminationRace.
