(* ===== verification/UserSpec.v ===== *)
(** * What the user loader and the user copy promise

    [CopyIn] reads exactly what ring 3 could read itself; [Load] only ever changes user
    pages, keeps them from being writable and executable, and never touches a page table
    or the kernel's half. *)

From S2P Require Import Prelude Mem Config FrameInterface Paging PagingSpec User.
Import Paging Abi User.

(** ** The user half *)

Lemma InUserHalf_spec s l : is_word 64 s -> is_word 64 l ->
  InUserHalf s l = true <-> HK_USER_MIN <= s /\ s + l <= HK_USER_MAX.
Proof.
  unfold is_word, InUserHalf, HK_USER_MIN, HK_USER_MAX. intros Hs Hl.
  rewrite !andb_true_iff, !Z.leb_le.
  destruct (Z_lt_dec (s + l) (2 ^ 64)) as [Hn|Hn].
  - rewrite wrap_small by (unfold is_word; lia). lia.
  - assert (E : s +64 l = s + l - 2 ^ 64).
    { unfold wrap. symmetry. apply Z.mod_unique with 1; lia. }
    rewrite E. lia.
Qed.

Section Spec.
Context {F : Type} {FA : FrameAllocator F} {FL : FrameAllocatorLaws F}.
Implicit Types p : Paging.t F.

(** A page is readable as a whole. *)
Lemma IsUserReadable_page own p a b : tree own p -> 0 <= a -> 0 <= b -> a / 4096 = b / 4096 ->
  IsUserReadable p a = IsUserReadable p b.
Proof.
  intros Ht Ha Hb E. assert (Hm : mapping p a = mapping p b).
  { apply mapping_vpn; try done. unfold vpn. by rewrite E. }
  pose proof (queries_exact own p a Ht Ha) as Q. pose proof (queries_exact own p b Ht Hb) as Q'.
  rewrite Hm in Q. destruct (mapping p b); destruct Q, Q'; congruence.
Qed.

Lemma CopyIn_loop_ok fuel p page end_ :
  0 <= page -> page mod 4096 = 0 -> end_ <= 2 ^ 47 -> end_ - page <= (Z.of_nat fuel - 1) * 4096 -> (0 < fuel)%nat ->
  exists b, CopyIn_loop fuel p page end_ = Ok b /\
    (b = true <-> forall q, page <= q < end_ -> q mod 4096 = 0 -> IsUserReadable p q = true).
Proof.
  revert page. induction fuel as [|fuel IH]; intros page Hp Hm He Hf Hz; [lia|]. cbn [CopyIn_loop].
  destruct (Z.ltb_spec page end_) as [Hlt|Hge].
  - destruct (IsUserReadable p page) eqn:E; cbn [negb].
    + change PAGE_SIZE with 4096. rewrite wrap_small by (unfold is_word; lia).
      assert (Hm' : (page + 4096) mod 4096 = 0).
      { replace (page + 4096) with (page + 1 * 4096) by lia. by rewrite Z.mod_add by lia. }
      destruct (IH (page + 4096)) as (b & -> & Hb); try done; try lia. exists b. split; [done|].
      rewrite Hb. split; intros H q Hq Hqm; [|apply H; [lia|done]].
      destruct (Z.eq_dec q page) as [->|]; [done|]. apply H; [|done].
      pose proof (Z.div_mod q 4096 ltac:(lia)). pose proof (Z.div_mod page 4096 ltac:(lia)). lia.
    + exists false. split; [done|]. split; [done|]. intros H. rewrite H in E; [done|lia|done].
  - exists true. split; [done|]. split; [|done]. intros _ q Hq. lia.
Qed.

Lemma CopyIn_ok own p src len :
  tree own p -> is_word 64 src -> is_word 64 len ->
  exists r, CopyIn p src len = Ok r /\
    (r <> None <-> len = 0 \/
       (HK_USER_MIN <= src /\ src + len <= HK_USER_MAX /\
        forall a, src <= a < src + len -> IsUserReadable p a = true)) /\
    (forall bytes, r = Some bytes -> length bytes = Z.to_nat len /\
       forall i, 0 <= i < len -> bytes !! Z.to_nat i = Some (user_byte p (src + i))).
Proof.
  intros Ht Hs Hl. unfold CopyIn. destruct (Z.eqb_spec len 0) as [->|Hlen].
  { exists (Some []). split_and!; [done| |]; [split; [by left|done]|]. intros ? [= <-]. split; [done|]. lia. }
  pose proof (InUserHalf_spec src len Hs Hl) as HU. destruct (InUserHalf src len) eqn:EU; cbn [negb].
  2: { exists None. split_and!; [done| |done]. split; [done|]. intros [?|(H1 & H2 & _)]; [lia|].
       exfalso. assert (false = true) by (apply HU; lia). done. }
  destruct (proj1 HU eq_refl) as [Hmin Hmax]. unfold HK_USER_MIN, HK_USER_MAX, is_word in *.
  rewrite (wrap_small 64 (src + len)) by (unfold is_word; lia). rewrite page_base_eq by lia.
  pose proof (Z.div_mod src 4096 ltac:(lia)). pose proof (Z.mod_pos_bound src 4096 ltac:(lia)).
  pose proof (Z.div_mod len 4096 ltac:(lia)). pose proof (Z.mod_pos_bound len 4096 ltac:(lia)).
  assert (0 <= len / 4096) by (apply Z.div_pos; lia). assert (0 <= src / 4096) by (apply Z.div_pos; lia).
  change PAGE_SIZE with 4096.
  destruct (CopyIn_loop_ok (Z.to_nat (len / 4096 + 3)) p (src / 4096 * 4096) (src + len)) as (b & -> & Hb);
    [lia|by apply Z.mod_mul|lia|rewrite Z2Nat.id; lia|lia|]. cbn [obind].
  assert (Hall : b = true <-> forall a, src <= a < src + len -> IsUserReadable p a = true).
  { rewrite Hb. split; intros Hr q Hq.
    - pose proof (Z.div_mod q 4096 ltac:(lia)). pose proof (Z.mod_pos_bound q 4096 ltac:(lia)).
      rewrite (IsUserReadable_page own p q (q / 4096 * 4096) Ht) by (rewrite ?Z.div_mul by lia; lia).
      apply Hr; [|by apply Z.mod_mul]. assert (src / 4096 <= q / 4096) by (apply Z.div_le_mono; lia). lia.
    - intros Hqm. destruct (Z_lt_dec q src); [|apply Hr; lia].
      rewrite (IsUserReadable_page own p q src Ht); [apply Hr; lia|lia|lia|].
      pose proof (Z.div_mod q 4096 ltac:(lia)). apply Z.le_antisymm; [apply Z.div_le_mono; lia|].
      apply Z.div_le_lower_bound; lia. }
  destruct b; (eexists; split; [reflexivity|]; split; [|]).
  - split; [|done]. intros _. right. split_and!; try lia. by apply Hall.
  - intros bytes [= <-]. split; [by rewrite length_fmap, length_seq|]. intros i Hi.
    rewrite list_lookup_fmap, lookup_seq_lt by lia. simpl. by rewrite Z2Nat.id by lia.
  - split; [done|]. intros [?|(_ & _ & Hr)]; [lia|]. exfalso. apply Hall in Hr. done.
  - done.
Qed.

(** C9: The kernel reads user memory only where the user could: [CopyIn] always returns,
    succeeds exactly for the empty range and for ranges that lie in the user half
    (address arithmetic that wraps around included) and whose every byte is mapped
    readable for ring 3, and then delivers the bytes ring 3 sees there. *)
Theorem copy_in_reads_only_user_memory own p src len :
  tree own p -> is_word 64 src -> is_word 64 len ->
  exists r, CopyIn p src len = Ok r /\
    (r <> None <-> len = 0 \/
       (HK_USER_MIN <= src /\ src + len <= HK_USER_MAX /\
        forall a, src <= a < src + len -> IsUserReadable p a = true)) /\
    (forall bytes, r = Some bytes -> length bytes = Z.to_nat len /\
       forall i, 0 <= i < len -> bytes !! Z.to_nat i = Some (user_byte p (src + i))).
Proof. apply CopyIn_ok. Qed.

(** ** Memory behind the tables' back *)

Definition same_tables (own : Z -> option (nat * Z)) (m m' : mem) : Prop :=
  forall q n pre i, own q = Some (n, pre) -> 0 <= i < 512 -> ent m' q i = ent m q i.

Lemma walk_same own p m' v n q pre :
  tree own p -> same_tables own (memory p) m' -> 0 <= v -> (n <= 3)%nat -> own q = Some (n, pre) ->
  walk m' v n q = walk (memory p) v n q.
Proof.
  intros Ht Hs Hv. revert q pre. induction n as [|n IH]; intros q pre Hn Hq.
  - unfold walk, read_leaf. cbn [leaf_of]. by rewrite (Hs q _ _ (IndexAt v 1) Hq (IndexAt_range _ _)).
  - rewrite !walk_S. cbv zeta. rewrite (Hs q _ _ _ Hq (IndexAt_range _ _)).
    destruct (Z.testbit (ent (memory p) q _) 0) eqn:E; [|done].
    destruct (tr_child _ _ Ht q n pre _ Hq (IndexAt_range v _) E) as [Hc _].
    by rewrite (IH _ _ ltac:(lia) Hc).
Qed.

(** Data written outside the tables, and frames taken, keep the tree and the mapping. *)
Lemma tree_data own p m' f' :
  tree own p -> same_tables own (memory p) m' -> fa_inv f' ->
  (forall q, fa_free f' q -> fa_free (frames p) q) ->
  tree own (with_table p m' f' (s_TableCount p)) /\
  forall v, 0 <= v -> mapping (with_table p m' f' (s_TableCount p)) v = mapping p v.
Proof.
  intros Ht Hs Hf Hfree.
  assert (Hw : forall v, 0 <= v -> walk m' v 3 (s_Root p) = walk (memory p) v 3 (s_Root p)).
  { intros v Hv. by apply (walk_same own p m' v 3 _ 0 Ht Hs Hv ltac:(lia) (tr_root _ _ Ht)). }
  split; [split; cbn [frames memory s_Root with_table]|].
  - done.
  - apply (tr_root _ _ Ht).
  - intros q n pre Hq. destruct (tr_own _ _ Ht q n pre Hq) as [? Hn]. split; [done|]. intros ?. by apply Hn, Hfree.
  - intros q n pre i Hq Hi. cbv zeta. rewrite (Hs q _ _ i Hq Hi). by apply (tr_child _ _ Ht q n pre i).
  - intros v u leaf Hv. rewrite Hw by done. by apply (tr_user _ _ Ht).
  - intros v Hv. unfold mapping. cbn [memory s_Root with_table]. by rewrite Hw.
Qed.

(** The direct map of a run of frames. *)
Lemma ToVirtual_eq r n : 0 <= r -> r + n <= 2 ^ 47 -> 0 < n -> ToVirtual r = r + Config.DIRECT_MAP_BASE.
Proof. intros. apply wrap_small. unfold is_word, Config.DIRECT_MAP_BASE. lia. Qed.

Lemma run_same_tables own p r count m' :
  tree own p -> 0 < r -> r mod 4096 = 0 -> 0 < count -> r + count * 4096 <= 2 ^ 47 ->
  (forall q, in_run r count q -> fa_free (frames p) q) ->
  (forall a, ~ (ToVirtual r <= a < ToVirtual r + count * 4096) -> load8 m' a = load8 (memory p) a) ->
  same_tables own (memory p) m'.
Proof.
  intros Ht Hr Hrm Hc Hre Hfree Hm q n pre i Hq Hi. destruct (tr_own _ _ Ht q n pre Hq) as [Hd Hn].
  unfold ent, entry_of. rewrite slot_eq by done. apply load_ext. intros j Hj.
  apply Hm. rewrite (ToVirtual_eq r (count * 4096)) by lia.
  intros Hin. apply Hn, Hfree. destruct Hd as [Hqm Hqr]. split; [done|].
  pose proof (Z.div_mod q 4096 ltac:(lia)). pose proof (Z.div_mod r 4096 ltac:(lia)). lia.
Qed.

Lemma copy_up_out n m dest src i a : ~ (dest + i <= a < dest + i + Z.of_nat n) ->
  load8 (CString.copy_up n m dest src i) a = load8 m a.
Proof.
  revert m i. induction n as [|n IH]; intros m i Ha; [done|]. cbn [CString.copy_up].
  rewrite IH by lia. apply load8_store8_ne. lia.
Qed.

Lemma memset_out m dest v n a : 0 <= n -> ~ (dest <= a < dest + n) -> load8 (CString.memset m dest v n) a = load8 m a.
Proof.
  intros Hn Ha. unfold CString.memset. rewrite CString.memset_loop_spec, Z.add_0_r, Z2Nat.id by lia.
  destruct (Z.leb_spec dest a), (Z.ltb_spec a (dest + n)); simpl; try done. lia.
Qed.

(** ** Giving pages to the user *)

(** [v] lies in the lower half, above page zero, and the entry of its page lets ring 3 in,
    is not both writable and executable, and names a frame that was free in [p]. *)
Record user_leaf (p : Paging.t F) (v leaf : Z) : Prop := {
  ul_range : 1 <= vpn v < 2 ^ 35;
  ul_user : Z.testbit leaf 2 = true;
  ul_wx : s_NoExecuteAvailable p = true -> Z.testbit leaf 1 = true -> Z.testbit leaf 63 = true;
  ul_frame : fa_free (frames p) (addr_of leaf) }.

(** All a loader may do to the page tables. *)
Record loads (p p' : Paging.t F) : Prop := {
  ld_tree : exists own, tree own p';
  ld_nx : s_NoExecuteAvailable p' = s_NoExecuteAvailable p;
  ld_free q : fa_free (frames p') q -> fa_free (frames p) q;
  ld_map v : 0 <= v -> mapping p' v = mapping p v \/ exists leaf, mapping p' v = Some leaf /\ user_leaf p v leaf }.

Lemma loads_refl own p : tree own p -> loads p p.
Proof. intros. split; eauto. Qed.

Lemma loads_trans p1 p2 p3 : loads p1 p2 -> loads p2 p3 -> loads p1 p3.
Proof.
  intros [T1 X1 F1 M1] [T2 X2 F2 M2]. split; [done|congruence|auto|]. intros v Hv.
  destruct (M2 v Hv) as [->|(leaf & -> & [R U W Fr])]; [by apply M1|]. right. exists leaf. split; [done|].
  split; [done|done|by rewrite <- X1|auto].
Qed.

Lemma page_distance_in start k w :
  0 <= start -> start mod 4096 = 0 -> start + k * 4096 <= 2 ^ 47 -> page_distance start w < k ->
  vpn w = start / 4096 + page_distance start w /\ 0 <= page_distance start w.
Proof.
  intros Hs Hm Hk Hd. pose proof (Z.div_mod start 4096 ltac:(lia)).
  assert (0 <= page_distance start w) by (apply Z.mod_pos_bound; lia). split; [|done].
  assert (Hv : vpn start = start / 4096) by (apply Z.mod_small; lia).
  assert (0 <= vpn w < 2 ^ 36) by (apply Z.mod_pos_bound; lia).
  unfold page_distance in *. rewrite Hv in *. pose proof (Z.div_mod (vpn w - start / 4096) (2 ^ 36) ltac:(lia)). nia.
Qed.

Lemma page_distance_of start k w : start mod 4096 = 0 -> 0 <= start -> start <= w < start + k * 4096 ->
  start + k * 4096 <= 2 ^ 47 -> page_distance start w < k.
Proof.
  intros Hm Hs Hw Hk. pose proof (Z.div_mod start 4096 ltac:(lia)). pose proof (Z.div_mod w 4096 ltac:(lia)).
  pose proof (Z.mod_pos_bound w 4096 ltac:(lia)). unfold page_distance, vpn.
  rewrite (Z.mod_small (w / 4096)), (Z.mod_small (start / 4096)) by lia. rewrite Z.mod_small by lia. lia.
Qed.

(** [a] is granted over all of [[start, start + size)]. *)
Definition granted_range (p : Paging.t F) (a : Access) (start size : Z) : Prop :=
  forall w, start <= w < start + size ->
    IsUserReadable p w = true /\ IsUserWritable p w = bool_decide (a = READ_WRITE) /\
    IsExecutable p w = negb (s_NoExecuteAvailable p) || bool_decide (a = READ_EXECUTE).

(** A run of frames [r] taken from the allocator and filled is mapped for the user. *)
Lemma map_user_run own p r count f' m' start a :
  tree own p -> fa_inv f' -> 4096 <= start -> start mod 4096 = 0 -> 0 < count -> start + count * 4096 <= 2 ^ 47 ->
  0 < r -> r mod 4096 = 0 -> r + count * 4096 <= 2 ^ 47 ->
  (forall q, fa_free f' q <-> fa_free (frames p) q /\ ~ in_run r count q) ->
  (forall q, in_run r count q -> fa_free (frames p) q) ->
  (forall x, ~ (ToVirtual r <= x < ToVirtual r + count * 4096) -> load8 m' x = load8 (memory p) x) ->
  exists ok p', Map start r (count * 4096) a USER_ NORMAL (with_table p m' f' (s_TableCount p)) = Ok (ok, p') /\
    loads p p' /\ (ok = true -> granted_range p' a start (count * 4096)) /\
    (forall w, 0 <= w -> ~ (start <= w mod 2 ^ 48 < start + count * 4096) -> mapping p' w = mapping p w).
Proof.
  intros Ht Hf' Hs Hsm Hc Hse Hr Hrm Hre Hfree Hin Hm.
  assert (HT : same_tables own (memory p) m') by (by apply (run_same_tables own p r count)).
  destruct (tree_data own p m' f' Ht HT Hf') as [Ht1 Hmap1]; [by intros q [Hq _]%Hfree|].
  set (p1 := with_table p m' f' _) in *.
  assert (Hr1 : range_ok start r (count * 4096)) by (split; lia).
  destruct (Map_ok own p1 start r (count * 4096) a USER_ NORMAL Ht1 Hr1)
    as (ok & p' & HM & [(own' & Ht' & _) _ HX (k & Hk & Hok & _ & Hmap) Hfr']).
  exists ok, p'. split; [done|].
  assert (Hpc : page_count start (count * 4096) = count).
  { unfold page_count. rewrite Hsm. replace (0 + count * 4096 + 4095) with (4095 + count * 4096) by lia.
    by rewrite Z.div_add. }
  assert (Hpb : page_base start = start).
  { rewrite page_base_eq by lia. pose proof (Z.div_mod start 4096 ltac:(lia)). lia. }
  assert (Hrb : page_base r = r).
  { rewrite page_base_eq by lia. pose proof (Z.div_mod r 4096 ltac:(lia)). lia. }
  rewrite Hpc, Hpb, Hrb in *. split_and!.
  - split; [by eauto|done|intros q Hq; by apply Hfr', Hfree in Hq as []|]. intros v Hv.
    rewrite Hmap by done. unfold mapped_range. destruct (Z.ltb_spec (page_distance start v) k) as [Hd|Hd];
      [right|left; by apply Hmap1].
    eexists. split; [done|]. pose proof (page_distance_in start k v ltac:(lia) Hsm ltac:(lia) Hd) as [Hv1 Hd0].
    pose proof (Z.div_mod start 4096 ltac:(lia)).
    assert (Hfm : is_frame (r + page_distance start v * 4096)).
    { split; [|lia]. by rewrite Z.mod_add by lia. }
    split; rewrite ?Z.lor_spec, ?FlagsFor_bits, ?(frame_bits _ _ Hfm) by lia.
    + lia.
    + done.
    + change (s_NoExecuteAvailable p1) with (s_NoExecuteAvailable p). intros -> Ha.
      destruct a; try done. 
    + rewrite addr_of_lor; [|done|].
      * apply Hin. split; [by rewrite Z.mod_add by lia|lia].
      * intros i Hi. rewrite FlagsFor_bits by lia. by rewrite !(bool_decide_false (i = _)) by lia.
  - intros Hb. rewrite Hok in Hmap by done. intros w Hw.
    pose proof (page_distance_of start count w Hsm ltac:(lia) Hw Hse) as Hd.
    pose proof (page_distance_in start count w ltac:(lia) Hsm ltac:(lia) Hd) as [Hv1 Hd0].
    assert (Hfm : is_frame (r + page_distance start w * 4096)).
    { split; [|lia]. by rewrite Z.mod_add by lia. }
    pose proof (queries_exact own' p' w Ht' ltac:(lia)) as Q. rewrite Hmap in Q by lia. unfold mapped_range in Q.
    rewrite (proj2 (Z.ltb_lt _ _) Hd) in Q.
    rewrite ?Z.lor_spec, ?FlagsFor_bits, ?(frame_bits _ _ Hfm) in Q by lia.
    change (s_NoExecuteAvailable p1) with (s_NoExecuteAvailable p) in *. rewrite HX in *.
    destruct Q as [_ _ -> -> ->]. by destruct a, (s_NoExecuteAvailable p).
  - intros w Hw0 Hw. rewrite Hmap by done. unfold mapped_range.
    destruct (Z.ltb_spec (page_distance start w) k) as [Hd|Hd]; [|by apply Hmap1]. exfalso. apply Hw.
    pose proof (page_distance_in start k w ltac:(lia) Hsm ltac:(lia) Hd) as [Hv1 Hd0].
    assert (Hvm : vpn w = w mod 2 ^ 48 / 4096).
    { unfold vpn. change (2 ^ 48) with (4096 * 2 ^ 36). rewrite Z.rem_mul_r, Z.add_comm, Z.mul_comm by lia.
      rewrite Z.div_add_l, (Z.div_small (w mod 4096)) by (apply Z.mod_pos_bound || lia; lia). lia. }
    pose proof (Z.div_mod (w mod 2 ^ 48) 4096 ltac:(lia)). pose proof (Z.mod_pos_bound (w mod 2 ^ 48) 4096 ltac:(lia)).
    pose proof (Z.div_mod start 4096 ltac:(lia)). lia.
Qed.

Lemma AllocateFrames_ok own p count : tree own p -> 0 < count < 2 ^ 64 ->
  exists r f', AllocateFrames count p = Ok (r, with_frames p f') /\ fa_inv f' /\
    ((r = 0 /\ with_frames p f' = p) \/
     (0 < r /\ r mod 4096 = 0 /\ r + count * 4096 <= 2 ^ 47 /\
      (forall q, fa_free f' q <-> fa_free (frames p) q /\ ~ in_run r count q) /\
      (forall q, in_run r count q -> fa_free (frames p) q))).
Proof.
  intros Ht Hc. destruct (fa_Allocate_law (frames p) count (tr_frames _ _ Ht) Hc) as (r & f' & HA & Hf & Hr).
  unfold AllocateFrames. rewrite HA. exists r, f'. split; [done|]. split; [done|].
  destruct Hr as [[-> ->]|[(? & ? & ? & ?) ?]]; [left|right; done]. split; [done|]. by destruct p.
Qed.

Lemma AlignUp_page a : 0 <= a -> a + 4096 < 2 ^ 64 -> Math.AlignUp a 4096 = (a + 4095) / 4096 * 4096.
Proof.
  intros Ha Hb. unfold Math.AlignUp. rewrite (wrap_small 64 (a + 4096)) by (unfold is_word; lia).
  rewrite (wrap_small 64 (a + 4096 - 1)) by (unfold is_word; lia). replace (a + 4096 - 1) with (a + 4095) by lia.
  pose proof (Z.div_mod (a + 4095) 4096 ltac:(lia)). pose proof (Z.mod_pos_bound (a + 4095) 4096 ltac:(lia)).
  apply wrap_small. unfold is_word. lia.
Qed.

(** The pages of a segment that passed the checks. *)
Lemma segment_pages va ms : is_word 64 va -> 0 < ms -> HK_USER_MIN <= va -> va + ms <= HK_USER_MAX ->
  let start := page_base va in
  let size := Math.AlignUp (va +64 ms) PAGE_SIZE -64 start in
  exists count, size = count * 4096 /\ 0 < count /\ 4096 <= start /\ start mod 4096 = 0 /\
    start + count * 4096 <= 2 ^ 47 /\ start <= va /\ va + ms <= start + count * 4096 /\
    va - start < 4096 /\ start + count * 4096 < va + ms + 4096.
Proof.
  unfold HK_USER_MIN, HK_USER_MAX, is_word. intros Hw Hms Hmin Hmax. cbv zeta.
  rewrite (wrap_small 64 (va + ms)) by (unfold is_word; lia). rewrite page_base_eq by lia.
  change PAGE_SIZE with 4096. rewrite AlignUp_page by lia.
  pose proof (Z.div_mod va 4096 ltac:(lia)). pose proof (Z.mod_pos_bound va 4096 ltac:(lia)).
  pose proof (Z.div_mod (va + ms + 4095) 4096 ltac:(lia)). pose proof (Z.mod_pos_bound (va + ms + 4095) 4096 ltac:(lia)).
  exists ((va + ms + 4095) / 4096 - va / 4096).
  rewrite wrap_small by (unfold is_word; lia). rewrite Z.mod_mul by lia. lia.
Qed.

Lemma LoadSegment_ok own p image h : tree own p ->
  is_word 64 (Elf.VirtualAddress h) -> is_word 64 (Elf.MemorySize h) -> is_word 64 (Elf.FileSize h) ->
  Elf.MemorySize h <> 0 -> Elf.FileSize h <= Elf.MemorySize h ->
  InUserHalf (Elf.VirtualAddress h) (Elf.MemorySize h) = true ->
  exists ok p', LoadSegment image h p = Ok (ok, p') /\ loads p p' /\
    (ok = true -> granted_range p' (AccessFor (Elf.Flags h)) (Elf.VirtualAddress h) (Elf.MemorySize h)).
Proof.
  intros Ht Hva Hms Hfs Hm0 Hle HU. apply InUserHalf_spec in HU as [Hmin Hmax]; [|done..].
  destruct (segment_pages _ (Elf.MemorySize h) Hva ltac:(unfold is_word in *; lia) Hmin Hmax)
    as (count & Esize & Hc & Hs & Hsm & Hse & Hsv & Hve & Hoff & _).
  unfold LoadSegment. cbv zeta. rewrite Esize. change PAGE_SIZE with 4096. rewrite Z.div_mul by lia.
  destruct (AllocateFrames_ok own p count Ht ltac:(lia)) as (r & f' & -> & Hf' & Hr). cbn [obind].
  destruct Hr as [[-> ->]|(Hr & Hrm & Hre & Hfree & Hin)].
  { exists false, p. split; [done|]. split; [by eapply loads_refl|done]. }
  replace (r =? 0) with false by lia. unfold is_word in *.
  assert (Htv : ToVirtual r = r + Config.DIRECT_MAP_BASE) by (apply (ToVirtual_eq r (count * 4096)); lia).
  destruct (map_user_run own p r count f'
    (CString.memcpy (CString.memset (memory p) (ToVirtual r) 0 (count * 4096))
       (ToVirtual r +64 (Elf.VirtualAddress h -64 page_base (Elf.VirtualAddress h)))
       (image +64 Elf.Offset h) (Elf.FileSize h))
    (page_base (Elf.VirtualAddress h)) (AccessFor (Elf.Flags h)) Ht Hf') as (ok & p' & HM & Hl & Hg & _); try done.
  - intros x Hx. rewrite (wrap_small 64 (_ - _)) by (unfold is_word; lia).
    rewrite Htv in *. unfold Config.DIRECT_MAP_BASE in *. rewrite wrap_small by (unfold is_word; lia).
    unfold CString.memcpy. rewrite copy_up_out by lia. apply memset_out; lia.
  - exists ok, p'. split; [exact HM|]. split; [done|]. intros Hb w Hw. apply (Hg Hb). lia.
Qed.

(** ** The loader *)

Lemma header_words m a : is_word 64 (Elf.VirtualAddress (Elf.ReadProgramHeader m a)) /\
  is_word 64 (Elf.MemorySize (Elf.ReadProgramHeader m a)) /\ is_word 64 (Elf.FileSize (Elf.ReadProgramHeader m a)).
Proof. split_and!; apply load64_range. Qed.

Lemma header_count m a : is_word 16 (Elf.ProgramHeaderCount (Elf.ReadHeader m a)).
Proof. apply load16_range. Qed.

Lemma Load_loop_ok fuel own p image size index :
  tree own p -> 0 <= index -> 2 ^ 16 <= Z.of_nat fuel + index -> (0 < fuel)%nat -> index < 2 ^ 16 ->
  exists ok p', Load_loop fuel image size index p = Ok (ok, p') /\ loads p p'.
Proof.
  revert own p index. induction fuel as [|fuel IH]; intros own p index Ht H0 Hf Hfp Hi; [lia|].
  cbn [Load_loop]. cbv zeta. pose proof (header_count (memory p) image) as Hcount. unfold is_word in Hcount.
  destruct (Z.ltb_spec index (Elf.ProgramHeaderCount (Elf.ReadHeader (memory p) image))) as [Hlt|];
    [|exists true, p; split; [done|]; by eapply loads_refl].
  assert (Hnext : u32 (index + 1) = index + 1) by (apply (wrap_small 32); unfold is_word; lia). rewrite Hnext.
  set (seg := Elf.ReadProgramHeader _ _). pose proof (header_words (memory p)
    ((image +64 Elf.ProgramHeaderOffset (Elf.ReadHeader (memory p) image)) +64 (index *64 Elf.SIZEOF_PROGRAM_HEADER)))
    as (Hva & Hms & Hfs). fold seg in Hva, Hms, Hfs.
  assert (Hstep : forall own' p', tree own' p' -> exists ok p2, Load_loop fuel image size (index + 1) p' = Ok (ok, p2) /\ loads p' p2).
  { intros own' p' Ht'. apply (IH own'); try done; lia. }
  destruct (negb (Elf.Type_ seg =? Elf.PT_LOAD)); cbn [orb]; [by eapply Hstep|].
  destruct (Z.eqb_spec (Elf.MemorySize seg) 0) as [|Hm0]; [by eapply Hstep|].
  destruct (writable_code seg); [exists false, p; split; [done|]; by eapply loads_refl|].
  destruct (bad_bounds seg size) eqn:EB; [exists false, p; split; [done|]; by eapply loads_refl|].
  unfold bad_bounds in EB. rewrite !orb_false_iff, negb_false_iff in EB. destruct EB as [[_ Hle] HU].
  destruct (LoadSegment_ok own p image seg Ht Hva Hms Hfs Hm0 ltac:(lia) HU) as (ok & p1 & -> & Hl & _). cbn [obind].
  destruct ok; [|by exists false, p1]. destruct (ld_tree _ _ Hl) as [own1 Ht1].
  destruct (Hstep own1 p1 Ht1) as (ok & p2 & -> & Hl2). exists ok, p2. split; [done|]. by eapply loads_trans.
Qed.

(** Where the next user stack may start. *)
Definition watermark (top : Z) : Prop :=
  top mod 4096 = 0 /\ HK_USER_MIN + STACK_STRIDE <= top <= HK_USER_MAX.

Lemma AllocateStack_ok own u : tree own (paging u) -> watermark (s_NextStackTop u) ->
  let top := s_NextStackTop u in
  exists r u', AllocateStack u = Ok (r, u') /\ loads (paging u) (paging u') /\
    s_NextStackTop u' = top - STACK_STRIDE /\
    (r = 0 \/ (r = top /\ granted_range (paging u') READ_WRITE (top - HK_USER_STACK_SIZE) HK_USER_STACK_SIZE)) /\
    (forall w, 0 <= w -> ~ (top - HK_USER_STACK_SIZE <= w mod 2 ^ 48 < top) -> mapping (paging u') w = mapping (paging u) w).
Proof.
  intros Ht [Hm Hr]. cbv zeta. set (top := s_NextStackTop u) in *. unfold AllocateStack. fold top.
  change STACK_STRIDE with 69632 in *. change HK_USER_STACK_SIZE with (16 * 4096) in *.
  unfold HK_USER_MIN, HK_USER_MAX in Hr. cbn [paging with_paging].
  rewrite (wrap_small 64 (top - 69632)) by (unfold is_word; lia).
  change (16 * 4096 / PAGE_SIZE) with 16.
  destruct (AllocateFrames_ok own (paging u) 16 Ht ltac:(lia)) as (r & f' & -> & Hf' & Hcase). cbn [obind].
  destruct Hcase as [[-> ->]|(Hr0 & Hrm & Hre & Hfree & Hin)].
  { exists 0. eexists. split; [done|]. cbn [paging with_paging s_NextStackTop].
    split; [by eapply loads_refl|]. split_and!; [done|by left|done]. }
  replace (r =? 0) with false by lia. rewrite (wrap_small 64 (top - _)) by (unfold is_word; lia).
  assert (Hbm : (top - 16 * 4096) mod 4096 = 0).
  { replace (top - 16 * 4096) with (top + -16 * 4096) by lia. by rewrite Z.mod_add by lia. }
  destruct (map_user_run own (paging u) r 16 f' (CString.memset (memory (paging u)) (ToVirtual r) 0 (16 * 4096))
    (top - 16 * 4096) READ_WRITE Ht Hf') as (ok & p' & HM & Hl & Hg & Hsame); try done; try lia.
  { intros x Hx. apply memset_out; lia. }
  unfold with_frames. cbn [with_memory with_table memory frames s_TableCount] in *.
  change (with_memory _ _) with (with_table (paging u) (CString.memset (memory (paging u)) (ToVirtual r) 0 (16 * 4096)) f'
    (s_TableCount (paging u))). rewrite HM. cbn [obind].
  eexists _, _. split; [done|]. cbn [paging with_paging s_NextStackTop]. split; [done|]. split; [done|]. split.
  - destruct ok; [right|by left]. split; [done|]. by apply Hg.
  - intros w Hw Hn. apply Hsame; [done|]. intros ?. apply Hn. lia.
Qed.

(** [Load] on every branch. *)
(** The task's stack. *)
Definition on_stack (task : Task) (v : Z) : bool :=
  (StackTop task - HK_USER_STACK_SIZE <=? v) && (v <? StackTop task).

(** What the check of the entry point achieves, from the tables [p] before the load to [p']
    after it.  [IsExecutable] does not ask for whom a page is executable, and the stack is
    mapped behind the check. *)
Record entry_ok (p p' : Paging.t F) (task : Task) : Prop := {
  eo_half : HK_USER_MIN <= TaskEntry task < HK_USER_MAX;
  eo_code : IsExecutable p' (TaskEntry task) =
    if on_stack task (TaskEntry task) then negb (s_NoExecuteAvailable p') else true;
  eo_ring3 : mapping p (TaskEntry task) = None -> IsUserReadable p' (TaskEntry task) = true }.

Lemma Load_ok own (u : User.t F) image size :
  tree own (paging u) -> watermark (s_NextStackTop u) ->
  exists r u', Load image size u = Ok (r, u') /\ loads (paging u) (paging u') /\
    s_NextStackTop u - STACK_STRIDE <= s_NextStackTop u' <= s_NextStackTop u /\
    forall task, r = Some task ->
      entry_ok (paging u) (paging u') task /\
      StackTop task = s_NextStackTop u /\ s_NextStackTop u' = StackTop task - STACK_STRIDE /\
      granted_range (paging u') READ_WRITE (StackTop task - HK_USER_STACK_SIZE) HK_USER_STACK_SIZE.
Proof.
  intros Ht Hw. unfold Load. assert (Hstride : 0 <= STACK_STRIDE) by done.
  assert (Hl0 : loads (paging u) (paging u)) by (by eapply loads_refl).
  destruct (negb (IsRunnable _ _)); [exists None, u; split_and!; (done || lia)|].
  destruct (Load_loop_ok LOAD_ROUNDS own (paging u) image size 0) as (ok & p1 & -> & Hl1);
    [done|lia|unfold LOAD_ROUNDS; lia|unfold LOAD_ROUNDS; lia|lia|]. cbn [obind].
  destruct ok; cbn [negb]; [|eexists None, _; split; [done|]; split_and!; (done || cbn; lia)].
  assert (He : is_word 64 (Elf.Entry (Elf.ReadHeader (memory p1) image))) by apply load64_range.
  set (entry := Elf.Entry (Elf.ReadHeader (memory p1) image)) in *.
  destruct (InUserHalf (entry) 1) eqn:EU; cbn [negb orb];
    [|eexists None, _; split; [done|]; split_and!; (done || cbn; lia)].
  destruct (IsExecutable p1 (entry)) eqn:EX; cbn [negb];
    [|eexists None, _; split; [done|]; split_and!; (done || cbn; lia)].
  destruct (ld_tree _ _ Hl1) as [own1 Ht1].
  destruct (AllocateStack_ok own1 (with_paging u p1) Ht1 Hw) as (r & u' & -> & Hl2 & Hnext & Hr & Hsame). cbn [obind].
  cbn [paging with_paging s_NextStackTop] in *.
  eexists _, u'. split; [done|]. split; [by eapply loads_trans|]. split; [lia|].
  intros task Htask. destruct Hr as [-> | (-> & Hg)]; [done|].
  destruct (s_NextStackTop u =? 0); [done|]. injection Htask as <-. cbn [TaskEntry StackTop].
  apply InUserHalf_spec in EU as [Hmin Hmax]; [|done|split; lia].
  split_and!; [|done|done|done]. destruct (ld_tree _ _ Hl2) as [own2 Ht2].
  assert (Hlow : 0 <= entry) by (unfold HK_USER_MIN in *; lia).
  set (task := {| TaskEntry := entry; StackTop := s_NextStackTop u |}).
  assert (HX : IsExecutable (paging u') entry = if on_stack task entry then negb (s_NoExecuteAvailable (paging u')) else true).
  { destruct (on_stack task entry) eqn:Es; unfold on_stack in Es; cbn [StackTop task] in Es.
    - destruct (Hg entry ltac:(lia)) as (_ & _ & ->). by rewrite orb_false_r.
    - unfold HK_USER_MIN, HK_USER_MAX in *.
      rewrite (q_executable _ _ _ _ _ _ _ (queries_same own1 own2 p1 (paging u') entry Ht1 Ht2 Hlow (ld_nx _ _ Hl2)
        (Hsame entry Hlow ltac:(rewrite Z.mod_small by lia; lia)))). done. }
  split; [cbn [TaskEntry task]; lia|exact HX|]. cbn [TaskEntry task]. intros Hnone.
  destruct (on_stack task entry) eqn:Es; unfold on_stack in Es; cbn [StackTop task] in Es; [apply Hg; lia|].
  pose proof (queries_exact own2 (paging u') entry Ht2 Hlow) as Q.
  destruct (ld_map _ _ (loads_trans _ _ _ Hl1 Hl2) entry Hlow) as [E|(leaf & E & Hleaf)].
  - rewrite E, Hnone in Q. rewrite (q_executable _ _ _ _ _ _ _ Q) in HX. done.
  - rewrite E in Q. rewrite (q_user_readable _ _ _ _ _ _ _ Q). apply Hleaf.
Qed.


End Spec.

(** ** Witnesses

    A machine of 64 frames, and the image of a program of one page. *)

#[local] Existing Instance FrameSpec.debug_build.

Definition machine_frames : Frame.Frame.t :=
  {| Frame.Frame.s_Taken := [1]; Frame.Frame.s_WordCount := 1; Frame.Frame.s_FrameCount := 64;
     Frame.Frame.s_ReachableFrames := 64; Frame.Frame.s_TotalFrames := 63; Frame.Frame.s_FreeFrames := 63;
     Frame.Frame.s_NextIndex := 0 |}.

Lemma machine_frames_wf : FrameSpec.wf (fun i => i =? 0) machine_frames.
Proof.
  split; try done; simpl; try lia.
  - split; simpl; [done| |lia|lia]. repeat constructor; vm_compute; done.
  - intros i Hi Hu. by replace i with 0 by lia.
Qed.

(** The image: header, one program header (read and execute, at the image base), and the
    code [jmp .], linked into the kernel. *)
Definition image_address : Z := 0xFFFFFFFF80100000.
Definition image_bytes : list Z :=
  [0x7f; 69; 76; 70; 2; 1; 1; 0;  0; 0; 0; 0; 0; 0; 0; 0;
   2; 0; 0x3e; 0; 1; 0; 0; 0;  120; 0; 0x40; 0; 0; 0; 0; 0;
   64; 0; 0; 0; 0; 0; 0; 0;  0; 0; 0; 0; 0; 0; 0; 0;
   0; 0; 0; 0; 64; 0; 56; 0;  1; 0; 0; 0; 0; 0; 0; 0;
   1; 0; 0; 0; 5; 0; 0; 0;  0; 0; 0; 0; 0; 0; 0; 0;
   0; 0; 0x40; 0; 0; 0; 0; 0;  0; 0; 0x40; 0; 0; 0; 0; 0;
   122; 0; 0; 0; 0; 0; 0; 0;  122; 0; 0; 0; 0; 0; 0; 0;
   0; 16; 0; 0; 0; 0; 0; 0;  0xeb; 0xfe].
Definition image_memory : mem := fun a =>
  if (image_address <=? a) && (a <? image_address + 122) then nth (Z.to_nat (a - image_address)) image_bytes 0 else 0.

Definition machine_boot : Paging.t Frame.Frame.t :=
  {| memory := image_memory; frames := machine_frames; s_Root := 0; s_NoExecuteAvailable := true;
     s_TableCount := 0; s_MappedRamEnd := 0; KernelPageTableRoot := 0; CR0 := 0; CR3 := 0; EFER := 0 |}.
Definition machine_taken : Frame.Frame.t :=
  match Frame.Frame.Allocate 1 machine_frames with Ok (_, f) => f | _ => machine_frames end.
Definition machine : Paging.t Frame.Frame.t :=
  with_root (with_table machine_boot (CString.memset image_memory (TableAt 4096) 0 PAGE_SIZE) machine_taken 1) 4096.

Lemma machine_fresh : tree small_own machine /\ forall v, mapping machine v = None.
Proof.
  apply (fresh_root machine_boot 4096
    (with_table machine_boot (CString.memset image_memory (TableAt 4096) 0 PAGE_SIZE) machine_taken 1)).
  - split; [by exists (fun i => i =? 0); apply machine_frames_wf|done|simpl; lia].
  - unfold AllocateTable. replace (fa_Allocate 1 (frames machine_boot)) with (Ok (4096, machine_taken))
      by (vm_compute; reflexivity). reflexivity.
  - lia.
Qed.
Lemma machine_tree : tree small_own machine.
Proof. apply machine_fresh. Qed.

Definition loaded : option Task * User.t Frame.Frame.t :=
  match Load image_address 122 (Boot machine) with Ok x => x | _ => (None, Boot machine) end.

(** The image loads; the code is there for ring 3, in order. *)
Example image_loads :
  let (task, u) := loaded in
  task = Some {| TaskEntry := 0x400078; StackTop := 0x7FFFFFFFF000 |} /\
  CopyIn (paging u) 0x400078 2 = Ok (Some [0xeb; 0xfe]) /\
  CopyIn (paging u) 0x400fff 2 = Ok None /\
  IsUserWritable (paging u) 0x400078 = false /\
  IsUserWritable (paging u) 0x7FFFFFFFEFFF = true.
Proof. vm_compute. split_and!; reflexivity. Qed.


Lemma copy_in_reads_only_user_memory_witness :
  exists r, CopyIn machine 0x400000 5 = Ok r /\
    (r <> None <-> 5 = 0 \/ (HK_USER_MIN <= 0x400000 /\ 0x400000 + 5 <= HK_USER_MAX /\
       forall a, 0x400000 <= a < 0x400000 + 5 -> IsUserReadable machine a = true)).
Proof.
  destruct (copy_in_reads_only_user_memory small_own machine 0x400000 5) as (r & H1 & H2 & _).
  - apply machine_tree.
  - split; reflexivity || discriminate.
  - split; reflexivity || discriminate.
  - exists r. split; [exact H1|exact H2].
Defined.

(** The sum of a segment's offset and size may wrap around 64 bits and pass the test
    against the size of the image. *)
Example bounds_check_wraps :
  bad_bounds {| Elf.Type_ := 1; Elf.Flags := 4; Elf.Offset := 2 ^ 64 - 4096; Elf.VirtualAddress := 0x400000;
                Elf.PhysicalAddress := 0; Elf.FileSize := 4096; Elf.MemorySize := 4096; Elf.Alignment := 4096 |} 122
  = false.
Proof. reflexivity. Qed.

(** The entry point is checked with [IsExecutable], which does not look at the privilege: an
    image whose entry lies in the kernel's boot code, mapped one to one, is accepted although
    ring 3 cannot fetch from there. *)
Example kernel_entry_accepted :
  match Map 0x100000 0x100000 4096 READ_EXECUTE KERNEL NORMAL
          (with_memory machine (store64 (memory machine) (image_address + 24) 0x100000)) with
  | Ok (true, p) =>
      match Load image_address 122 (Boot p) with
      | Ok (Some task, u) => (TaskEntry task =? 0x100000) && negb (IsUserReadable (paging u) (TaskEntry task))
      | _ => false
      end
  | _ => false
  end = true.
Proof. vm_compute. reflexivity. Qed.

(** The stack is mapped behind the check: an image with its code where the stack goes is
    accepted with an entry that is not executable any more. *)
Example entry_in_stack_accepted :
  let m := store64 (store64 (memory machine) (image_address + 24) 0x7FFFFFFFE078) (image_address + 80) 0x7FFFFFFFE000 in
  match Load image_address 122 (Boot (with_memory machine m)) with
  | Ok (Some task, u) => (TaskEntry task =? 0x7FFFFFFFE078) && negb (IsExecutable (paging u) (TaskEntry task))
  | _ => false
  end = true.
Proof. vm_compute. reflexivity. Qed.
