(* ===== verification/LoaderSpec.v ===== *)
(** * What ring 3 finds in memory behind the loader

    [User::Load] against the ELF file: every page of a segment shows the bytes of the file
    and zeros behind them with the rights of the segment's flags, a later segment replaces
    an earlier one where they share a page, the stack is zeroed, and no user page is backed
    by a page table or by a frame that is still free. *)

From S2P Require Import Prelude Mem Config FrameInterface Paging PagingSpec User UserSpec.
Import Paging Abi User.

Section Spec.
Context {F : Type} {FA : FrameAllocator F} {FL : FrameAllocatorLaws F}.
Implicit Types p : Paging.t F.

(** ** Pages with memory of their own *)

(** The byte at [v] lies in a frame that is neither a table nor free. *)
Record backed (own : Z -> option (nat * Z)) p (v : Z) : Prop := {
  bk_reached : 0 < Translate p v < 2 ^ 47;
  bk_data : own (Translate p v / 4096 * 4096) = None;
  bk_taken : ~ fa_free (frames p) (Translate p v / 4096 * 4096) }.

(** Nothing changed for [v]: where it leads, who may use it, what is there. *)
Definition view_same p p' (v : Z) : Prop :=
  queries p' v (Translate p v) (IsWritable p v) (IsExecutable p v) (IsUserReadable p v) (IsUserWritable p v) /\
  user_byte p' v = user_byte p v.

Lemma view_same_trans p1 p2 p3 v : view_same p1 p2 v -> view_same p2 p3 v -> view_same p1 p3 v.
Proof. intros [[E1 E2 E3 E4 E5] B1] [Q2 B2]. rewrite E1, E2, E3, E4, E5 in Q2. split; [exact Q2|congruence]. Qed.

(** Memory that is neither part of a table nor of a free frame. *)
Definition elsewhere (own : Z -> option (nat * Z)) p (x : Z) : Prop :=
  let q := (x - Config.DIRECT_MAP_BASE) / 4096 * 4096 in own q = None /\ ~ fa_free (frames p) q.

Lemma page_low f : f / 4096 * 4096 <= f < f / 4096 * 4096 + 4096.
Proof. pose proof (Z.div_mod f 4096 ltac:(lia)). pose proof (Z.mod_pos_bound f 4096 ltac:(lia)). lia. Qed.

Lemma page_at q f : q mod 4096 = 0 -> q <= f < q + 4096 -> f / 4096 * 4096 = q.
Proof. intros Hq Hf. pose proof (Z.div_mod q 4096 ltac:(lia)). pose proof (page_low f). lia. Qed.

Lemma outside_page own p f : tree own p -> own (f / 4096 * 4096) = None -> outside own (f + Config.DIRECT_MAP_BASE).
Proof.
  intros Ht Hn q [n pre] Hq Hin. destruct (tr_own _ _ Ht q n pre Hq) as [[Hm _] _].
  rewrite (page_at q f) in Hn by (done || lia). congruence.
Qed.

Lemma outside_elsewhere own p x : tree own p -> own ((x - Config.DIRECT_MAP_BASE) / 4096 * 4096) = None -> outside own x.
Proof.
  intros Ht Hn. replace x with (x - Config.DIRECT_MAP_BASE + Config.DIRECT_MAP_BASE) by lia. by apply (outside_page own p).
Qed.

Lemma user_byte_at p v : 0 <= Translate p v < 2 ^ 47 ->
  user_byte p v = load8 (memory p) (Translate p v + Config.DIRECT_MAP_BASE).
Proof. intros H. unfold user_byte. by rewrite (ToVirtual_eq _ 1) by lia. Qed.

(** The mapping of a page inside a range that was mapped as a whole. *)
Lemma range_translate own p start count r flags v :
  tree own p -> 4096 <= start -> start mod 4096 = 0 -> start + count * 4096 <= 2 ^ 47 -> start <= v < start + count * 4096 ->
  0 < r -> r mod 4096 = 0 -> r + count * 4096 <= 2 ^ 47 -> (forall i, 12 <= i < 52 -> Z.testbit flags i = false) ->
  mapping p v = Some (Z.lor (r + page_distance start v * 4096) flags) -> Translate p v = r + (v - start).
Proof.
  intros Ht Hs Hsm Hse Hv Hr Hrm Hre Hfl Hm. pose proof (queries_exact own p v Ht ltac:(lia)) as Q. rewrite Hm in Q.
  rewrite (q_translate _ _ _ _ _ _ _ Q).
  pose proof (page_distance_of start count v Hsm ltac:(lia) Hv Hse) as Hd.
  destruct (page_distance_in start count v ltac:(lia) Hsm Hse Hd) as [Hvp Hd0].
  rewrite addr_of_lor; [|split; [by rewrite Z.mod_add by lia|lia]|done].
  assert (Ev : vpn v = v / 4096) by (apply Z.mod_small; split; [apply Z.div_pos; lia|apply Z.div_lt_upper_bound; lia]).
  pose proof (Z.div_mod v 4096 ltac:(lia)). pose proof (Z.div_mod start 4096 ltac:(lia)). lia.
Qed.

(** What a run of filled frames looks like once it is mapped for the user, and what it
    does to the pages that were there. *)
Record staged own p r count (m' : mem) start p' own' : Prop := {
  sg_tree : tree own' p';
  sg_elsewhere x : elsewhere own p x -> elsewhere own' p' x /\ load8 (memory p') x = load8 (memory p) x;
  sg_new v : start <= v < start + count * 4096 ->
    backed own' p' v /\ Translate p' v = r + (v - start) /\
    user_byte p' v = load8 m' (r + (v - start) + Config.DIRECT_MAP_BASE);
  sg_run f : r <= f < r + count * 4096 -> fa_free (frames p) (f / 4096 * 4096);
  sg_old v : 0 <= v < 2 ^ 47 -> ~ (start <= v < start + count * 4096) -> backed own p v ->
    backed own' p' v /\ view_same p p' v }.

Lemma stage own p r count f' m' start a :
  tree own p -> fa_inv f' -> 4096 <= start -> start mod 4096 = 0 -> 0 < count -> start + count * 4096 <= 2 ^ 47 ->
  0 < r -> r mod 4096 = 0 -> r + count * 4096 <= 2 ^ 47 ->
  (forall q, fa_free f' q <-> fa_free (frames p) q /\ ~ in_run r count q) ->
  (forall q, in_run r count q -> fa_free (frames p) q) ->
  (forall x, ~ (ToVirtual r <= x < ToVirtual r + count * 4096) -> load8 m' x = load8 (memory p) x) ->
  exists ok p', Map start r (count * 4096) a USER_ NORMAL (with_table p m' f' (s_TableCount p)) = Ok (ok, p') /\
    loads p p' /\ (ok = true -> granted_range p' a start (count * 4096) /\ exists own', staged own p r count m' start p' own').
Proof.
  intros Ht Hf' Hs Hsm Hc Hse Hr Hrm Hre Hfree Hin Hm.
  destruct (map_user_run own p r count f' m' start a Ht Hf' Hs Hsm Hc Hse Hr Hrm Hre Hfree Hin Hm)
    as (ok & p' & HM & Hl & Hg & _).
  exists ok, p'. split; [done|]. split; [done|]. intros Hok. split; [by apply Hg|].
  assert (HT : same_tables own (memory p) m') by (by apply (run_same_tables own p r count)).
  destruct (tree_data own p m' f' Ht HT Hf') as [Ht1 Hmap1]; [by intros q [Hq _]%Hfree|].
  set (p1 := with_table p m' f' _) in *.
  destruct (Map_ok own p1 start r (count * 4096) a USER_ NORMAL Ht1) as (ok2 & p2 & HM2 & MR); [split; lia|].
  rewrite HM in HM2. injection HM2 as <- <-.
  destruct MR as [(own' & Ht' & Hsub & Hnew & Hdat) _ HX (k & Hk & Hkn & _ & Hmap) Hfr]. specialize (Hkn Hok).
  assert (Hpc : page_count start (count * 4096) = count).
  { unfold page_count. rewrite Hsm. replace (0 + count * 4096 + 4095) with (4095 + count * 4096) by lia. by rewrite Z.div_add. }
  assert (Hpb : forall x, 0 <= x < 2 ^ 64 -> x mod 4096 = 0 -> page_base x = x).
  { intros x Hx Hxm. rewrite page_base_eq by done. pose proof (Z.div_mod x 4096 ltac:(lia)). lia. }
  rewrite Hpc in Hkn. subst k. rewrite !Hpb in Hmap by (done || lia).
  assert (Hbase : ToVirtual r = r + Config.DIRECT_MAP_BASE) by (apply (ToVirtual_eq r (count * 4096)); lia).
  assert (Hrun : forall q, in_run r count q -> own' q = None /\ ~ fa_free (frames p') q).
  { intros q Hq. split; [|by intros Hx%Hfr; apply Hfree in Hx as []].
    destruct (own' q) as [x|] eqn:E; [|done]. exfalso. apply Hnew in E as [E|E].
    - destruct x as [n pre]. destruct (tr_own _ _ Ht q n pre E) as [_ Hnf]. by apply Hnf, Hin.
    - apply Hfree in E as [_ E]. done. }
  assert (Hdata : forall f, own' (f / 4096 * 4096) = None -> 
    load8 (memory p') (f + Config.DIRECT_MAP_BASE) = load8 m' (f + Config.DIRECT_MAP_BASE)).
  { intros f Hf. apply Hdat. by eapply outside_page. }
  assert (Hruns : forall f, r <= f < r + count * 4096 -> in_run r count (f / 4096 * 4096)).
  { intros f Hf. split; [by apply Z.mod_mul|]. pose proof (page_low f). pose proof (Z.div_mod r 4096 ltac:(lia)).
    assert (r / 4096 <= f / 4096) by (apply Z.div_le_mono; lia). lia. }
  exists own'. split; [done| | |intros f Hf; by apply Hin, Hruns|].
  - intros x [Ho Hn]. set (q := (x - Config.DIRECT_MAP_BASE) / 4096 * 4096) in *. assert (Ho' : own' q = None).
    { destruct (own' q) as [y|] eqn:E; [|done]. exfalso. apply Hnew in E as [E|E]; [congruence|]. by apply Hfree in E as []. }
    split; [split; [done|]; intros Hx; apply Hfr, Hfree in Hx as [Hx _]; done|].
    rewrite (Hdat x) by (by eapply outside_elsewhere). apply Hm. rewrite Hbase. intros Hx. apply Hn, Hin, Hruns. lia.
  - intros v Hv. assert (Hd : page_distance start v < count) by (apply page_distance_of; (done || lia)).
    assert (HTv : Translate p' v = r + (v - start)).
    { apply (range_translate own' p' start count r (FlagsFor p1 a USER_ NORMAL)); try done.
      - intros i Hi. rewrite FlagsFor_bits by lia. by rewrite !(bool_decide_false (i = _)) by lia.
      - rewrite Hmap by lia. unfold mapped_range. by rewrite (proj2 (Z.ltb_lt _ _) Hd). }
    destruct (Hrun _ (Hruns (r + (v - start)) ltac:(lia))) as [Ho Hn].
    split; [split; rewrite HTv; try done; lia|]. split; [done|].
    rewrite user_byte_at, HTv by lia. by apply Hdata.
  - intros v Hv Hout [Bk Bd Bt].
    assert (Hmv : mapping p' v = mapping p v).
    { rewrite Hmap by lia. unfold mapped_range. destruct (Z.ltb_spec (page_distance start v) count) as [Hd|Hd];
        [|apply Hmap1; lia]. exfalso. destruct (page_distance_in start count v ltac:(lia) Hsm Hse Hd) as [Hvp Hd0].
      assert (Ev : vpn v = v / 4096) by (apply Z.mod_small; split; [apply Z.div_pos; lia|apply Z.div_lt_upper_bound; lia]).
      apply Hout. pose proof (Z.div_mod v 4096 ltac:(lia)). pose proof (Z.mod_pos_bound v 4096 ltac:(lia)).
      pose proof (Z.div_mod start 4096 ltac:(lia)). lia. }
    pose proof (queries_same own own' p p' v Ht Ht' ltac:(lia) HX Hmv) as Q. pose proof (q_translate _ _ _ _ _ _ _ Q) as HTv.
    set (f := Translate p v) in *.
    assert (Ho : own' (f / 4096 * 4096) = None).
    { destruct (own' (f / 4096 * 4096)) as [x|] eqn:E; [|done]. exfalso. apply Hnew in E as [E|E]; [congruence|].
      apply Hfree in E as [E _]. done. }
    split; [split; rewrite HTv; [done|done|]|].
    + intros Hx. apply Hfr, Hfree in Hx as [Hx _]. done.
    + split; [exact Q|]. rewrite !user_byte_at by (rewrite ?HTv; fold f; lia). rewrite HTv, (Hdata f Ho). fold f.
      apply Hm. rewrite Hbase. intros Hx. apply Bt, Hin, Hruns. lia.
Qed.

(** A new page shares its memory with no other page in use. *)
Lemma staged_apart own p r count m' start p' own' v w :
  staged own p r count m' start p' own' -> start <= v < start + count * 4096 -> 0 <= w < 2 ^ 47 -> v <> w ->
  start <= w < start + count * 4096 \/ backed own p w -> Translate p' v <> Translate p' w.
Proof.
  intros [_ _ Sn Sr So] Hv Hw Hne Hcase. destruct (Sn v Hv) as (_ & -> & _).
  destruct (decide (start <= w < start + count * 4096)) as [Hin|Hout].
  - destruct (Sn w Hin) as (_ & -> & _). lia.
  - destruct Hcase as [?|Hb]; [done|]. destruct (So w Hw Hout Hb) as [_ [Q _]]. rewrite (q_translate _ _ _ _ _ _ _ Q).
    intros E. destruct Hb as [_ _ Bt]. apply Bt. rewrite <- E. apply Sr. lia.
Qed.

(** ** The file *)

Variables (m0 : mem) (image size : Z).

Definition header : Elf.Header := Elf.ReadHeader m0 image.
Definition segment (i : Z) : Elf.ProgramHeader :=
  Elf.ReadProgramHeader m0 (image + Elf.ProgramHeaderOffset header + i * Elf.SIZEOF_PROGRAM_HEADER).
Definition segments_from (i n : nat) : list Elf.ProgramHeader := (fun j => segment (Z.of_nat j)) <$> seq i n.
Definition segments : list Elf.ProgramHeader := segments_from 0 (Z.to_nat (Elf.ProgramHeaderCount header)).

(** The file holds its headers and the bytes its headers speak of. *)
Record file_ok : Prop := {
  fo_place : 0 <= image /\ image + size <= 2 ^ 64;
  fo_headers : Elf.SIZEOF_HEADER <= size /\
    Elf.ProgramHeaderOffset header + Elf.ProgramHeaderCount header * Elf.SIZEOF_PROGRAM_HEADER <= size;
  fo_bytes i : 0 <= i < Elf.ProgramHeaderCount header -> Elf.Offset (segment i) + Elf.FileSize (segment i) <= size }.

(** The file in memory, in nobody's way. *)
Definition intact own p : Prop :=
  forall x, image <= x < image + size -> elsewhere own p x /\ load8 (memory p) x = load8 m0 x.

Definition loadable (h : Elf.ProgramHeader) : bool := (Elf.Type_ h =? Elf.PT_LOAD) && negb (Elf.MemorySize h =? 0).
(** [v] is in a page of the segment. *)
Definition covers (h : Elf.ProgramHeader) (v : Z) : bool :=
  loadable h && (page_base (Elf.VirtualAddress h) <=? v) &&
  (v <? Math.AlignUp (Elf.VirtualAddress h + Elf.MemorySize h) PAGE_SIZE).
(** The last segment of the list to cover [v]. *)
Fixpoint owner (l : list Elf.ProgramHeader) (v : Z) : option Elf.ProgramHeader :=
  match l with
  | [] => None
  | h :: l => match owner l v with Some g => Some g | None => if covers h v then Some h else None end
  end.

(** The byte of the file that belongs at [v], or zero. *)
Definition expected (h : Elf.ProgramHeader) (v : Z) : Z :=
  if (Elf.VirtualAddress h <=? v) && (v <? Elf.VirtualAddress h + Elf.FileSize h)
  then load8 m0 (image + Elf.Offset h + (v - Elf.VirtualAddress h)) else 0.

(** Two segments that share a page: where only the first has a byte of the file, a zero is
    loaded. *)
Theorem shared_page_loses_bytes g h v :
  covers g v = true -> covers h v = true -> Elf.VirtualAddress g <= v < Elf.VirtualAddress g + Elf.FileSize g ->
  v < Elf.VirtualAddress h ->
  owner [g; h] v = Some h /\ expected g v = load8 m0 (image + Elf.Offset g + (v - Elf.VirtualAddress g)) /\ expected h v = 0.
Proof.
  intros Hg Hh Hv Hlt. cbn [owner]. rewrite Hh. split; [done|]. unfold expected.
  rewrite (proj2 (Z.leb_le _ _) (proj1 Hv)), (proj2 (Z.ltb_lt _ _) (proj2 Hv)). split; [done|].
  by rewrite (proj2 (Z.leb_gt _ _)) by lia.
Qed.

Record served own p (h : Elf.ProgramHeader) (v : Z) : Prop := {
  sv_backed : backed own p v;
  sv_byte : user_byte p v = expected h v;
  sv_readable : IsUserReadable p v = true;
  sv_writable : IsUserWritable p v = bool_decide (AccessFor (Elf.Flags h) = READ_WRITE);
  sv_executable : IsExecutable p v = negb (s_NoExecuteAvailable p) || bool_decide (AccessFor (Elf.Flags h) = READ_EXECUTE) }.

(** From [p] to [p'] the pages that [who] names were loaded, and no other changed. *)
Record progress own p own' p' (who : Z -> option Elf.ProgramHeader) : Prop := {
  pg_tree : tree own' p';
  pg_file x : elsewhere own p x -> elsewhere own' p' x /\ load8 (memory p') x = load8 (memory p) x;
  pg_nx : s_NoExecuteAvailable p' = s_NoExecuteAvailable p;
  pg_view v : 0 <= v < 2 ^ 47 ->
    match who v with
    | Some h => served own' p' h v
    | None => backed own p v -> backed own' p' v /\ view_same p p' v
    end;
  pg_apart v w : 0 <= v < 2 ^ 47 -> 0 <= w < 2 ^ 47 -> v <> w -> who v <> None -> who w <> None \/ backed own p w ->
    Translate p' v <> Translate p' w }.

Lemma served_same own p own' p' h v : served own p h v -> backed own' p' v -> view_same p p' v ->
  s_NoExecuteAvailable p' = s_NoExecuteAvailable p -> served own' p' h v.
Proof. intros [_ B R W X] Hb [[_ _ E3 E4 E5] EB] Hn. split; [done|congruence..]. Qed.

Lemma progress_refl own p : tree own p -> progress own p own p (fun _ => None).
Proof. intros Ht. split; [done|done|done| |done]. intros v Hv Hb. split; [done|]. by split. Qed.

Lemma progress_backed own p own' p' who v : progress own p own' p' who -> 0 <= v < 2 ^ 47 ->
  who v <> None \/ backed own p v -> backed own' p' v.
Proof.
  intros HP Hv Hc. pose proof (pg_view _ _ _ _ _ HP v Hv) as HV. destruct (who v) as [h|]; [apply HV|].
  destruct Hc as [?|Hb]; [done|]. by apply HV.
Qed.

Lemma progress_trans own p own1 p1 own2 p2 who1 who2 :
  progress own p own1 p1 who1 -> progress own1 p1 own2 p2 who2 ->
  progress own p own2 p2 (fun v => match who2 v with Some h => Some h | None => who1 v end).
Proof.
  intros HP1 [T2 F2 N2 V2 D2]. pose proof (fun v => progress_backed _ _ _ _ _ v HP1) as Hmid.
  destruct HP1 as [T1 F1 N1 V1 D1].
  split; [done| |congruence| |].
  - intros x Hx. destruct (F1 x Hx) as [Hx1 E1]. destruct (F2 x Hx1) as [Hx2 E2]. split; [done|congruence].
  - intros v Hv. specialize (V1 v Hv). specialize (V2 v Hv). destruct (who2 v) as [h|]; [done|]. destruct (who1 v) as [h|].
    + destruct (V2 (sv_backed _ _ _ _ V1)) as [Hb Hs]. by apply (served_same own1 p1).
    + intros Hb. destruct (V1 Hb) as [Hb1 Hs1]. destruct (V2 Hb1) as [Hb2 Hs2]. split; [done|]. by eapply view_same_trans.
  - intros v w Hv Hw Hne Hcv Hcw. destruct (who2 v) as [h|] eqn:Ev.
    + apply D2; [done..|by rewrite Ev|]. destruct (who2 w) eqn:Ew; [by left|right]. by apply Hmid.
    + destruct (who2 w) as [g|] eqn:Ew.
      * intros E. symmetry in E. revert E. apply D2; [done|done|congruence|by rewrite Ew|right]. apply Hmid; [done|by left].
      * pose proof (V2 v Hv) as Sv. pose proof (V2 w Hw) as Sw. rewrite Ev in Sv. rewrite Ew in Sw.
        destruct (Sv (Hmid v Hv (or_introl Hcv))) as [_ [Qv _]]. destruct (Sw (Hmid w Hw Hcw)) as [_ [Qw _]].
        rewrite (q_translate _ _ _ _ _ _ _ Qv), (q_translate _ _ _ _ _ _ _ Qw). by apply D1.
Qed.

Lemma progress_ext own p own' p' who who' : (forall v, who v = who' v) -> progress own p own' p' who -> progress own p own' p' who'.
Proof.
  intros E [T Fi N V A]. split; [done|done|done| |].
  - intros v Hv. rewrite <- E. by apply V.
  - intros v w. rewrite <- !E. apply A.
Qed.

Lemma progress_intact own p own' p' who : progress own p own' p' who -> intact own p -> intact own' p'.
Proof. intros HP HI x Hx. destruct (HI x Hx) as [He E]. destruct (pg_file _ _ _ _ _ HP x He) as [He' E']. split; [done|congruence]. Qed.

Lemma file_load own p a n : intact own p -> image <= a -> a + Z.of_nat n <= image + size -> load (memory p) a n = load m0 a n.
Proof. intros HI Ha Hn. apply load_ext. intros i Hi. apply HI. lia. Qed.

Lemma header_same own p : intact own p -> file_ok -> Elf.ReadHeader (memory p) image = header.
Proof.
  intros HI [[Hp _] [Hs _] _]. unfold Elf.SIZEOF_HEADER in *. unfold header, Elf.ReadHeader.
  rewrite !(file_load own p _ _ HI) by lia. by rewrite !(fun x Hx => proj2 (HI x Hx)) by lia.
Qed.

Lemma segment_same own p i : intact own p -> file_ok -> 0 <= i < Elf.ProgramHeaderCount header ->
  Elf.ReadProgramHeader (memory p) ((image +64 Elf.ProgramHeaderOffset header) +64 (i *64 Elf.SIZEOF_PROGRAM_HEADER)) = segment i.
Proof.
  intros HI [[Hp Hpe] [Hs Hh] _] Hi. assert (Ho : is_word 64 (Elf.ProgramHeaderOffset header)) by apply load64_range.
  unfold Elf.SIZEOF_PROGRAM_HEADER, is_word in *.
  rewrite !wrap_small by (unfold is_word; rewrite ?wrap_small by (unfold is_word; lia); lia).
  unfold segment, Elf.SIZEOF_PROGRAM_HEADER, Elf.ReadProgramHeader. by rewrite !(file_load own p _ _ HI) by lia.
Qed.

(** The contents of the frames before they are mapped. *)
Lemma segment_bytes own p r count h start w :
  intact own p -> (forall q, in_run r count q -> fa_free (frames p) q) -> r mod 4096 = 0 -> 0 < r -> r + count * 4096 <= 2 ^ 47 -> 0 < count ->
  0 <= image -> image + size <= 2 ^ 64 -> Elf.Offset h + Elf.FileSize h <= size ->
  0 <= Elf.Offset h -> 0 <= Elf.FileSize h -> start <= Elf.VirtualAddress h ->
  Elf.VirtualAddress h + Elf.FileSize h <= start + count * 4096 -> start <= w < start + count * 4096 -> 0 <= start ->
  start + count * 4096 <= 2 ^ 47 ->
  load8 (CString.memcpy (CString.memset (memory p) (ToVirtual r) 0 (count * 4096))
           (ToVirtual r +64 (Elf.VirtualAddress h -64 start)) (image +64 Elf.Offset h) (Elf.FileSize h))
        (r + (w - start) + Config.DIRECT_MAP_BASE) = expected h w.
Proof.
  intros HI Hin Hrm Hr Hre Hc Hpl Hend Hsz Ho Hf Hs Hfe Hw Hs0 Hse.
  destruct (Z.eq_dec (Elf.FileSize h) 0) as [Ez|Hnz].
  { rewrite Ez. change (CString.memcpy ?m ?d ?s 0) with m. rewrite (ToVirtual_eq r (count * 4096)) by lia.
    rewrite CString.memset_filled, CString.load8_filled by lia. unfold expected. rewrite Ez.
    rewrite (proj2 (andb_true_iff _ _)) by lia. replace (_ && _) with false by lia. done. }
  assert (Hapart : forall x, image <= x < image + size ->
    ~ (r + Config.DIRECT_MAP_BASE <= x < r + Config.DIRECT_MAP_BASE + count * 4096)).
  { intros x Hx Hrx. destruct (HI x Hx) as [[_ Hn] _]. apply Hn, Hin. split; [by apply Z.mod_mul|].
    pose proof (page_low (x - Config.DIRECT_MAP_BASE)). pose proof (Z.div_mod r 4096 ltac:(lia)).
    assert (r / 4096 <= (x - Config.DIRECT_MAP_BASE) / 4096) by (apply Z.div_le_mono; lia). lia. }
  rewrite (wrap_small 64 (_ - _)) by (unfold is_word; lia). rewrite (ToVirtual_eq r (count * 4096)) by lia.
  assert (Hb : Config.DIRECT_MAP_BASE = 2 ^ 64 - 2 ^ 47) by reflexivity.
  rewrite !wrap_small by (unfold is_word; lia).
  assert (Hsides : image + Elf.Offset h + Elf.FileSize h <= r + Config.DIRECT_MAP_BASE \/
                   r + Config.DIRECT_MAP_BASE + count * 4096 <= image + Elf.Offset h).
  { destruct (Z_le_dec (image + Elf.Offset h + Elf.FileSize h) (r + Config.DIRECT_MAP_BASE)); [by left|right].
    destruct (Z_le_dec (r + Config.DIRECT_MAP_BASE + count * 4096) (image + Elf.Offset h)); [done|exfalso].
    apply (Hapart (Z.max (image + Elf.Offset h) (r + Config.DIRECT_MAP_BASE))); lia. }
  rewrite CString.memcpy_moved, CString.load8_moved by lia. unfold expected.
  set (c := (_ <=? _) && _). replace ((Elf.VirtualAddress h <=? w) && (w <? Elf.VirtualAddress h + Elf.FileSize h)) with c by (unfold c; lia).
  destruct c eqn:Ec; unfold c in Ec.
  - rewrite CString.memset_filled, CString.load8_filled by lia. replace (_ && _) with false by lia.
    replace (image + Elf.Offset h + _) with (image + Elf.Offset h + (w - Elf.VirtualAddress h)) by lia. apply HI. lia.
  - rewrite CString.memset_filled, CString.load8_filled by lia. by replace (_ && _) with true by lia.
Qed.

(** ** The loader, segment by segment *)

(** The end of a segment's pages. *)
Lemma segment_end h count : is_word 64 (Elf.VirtualAddress h) -> 0 < Elf.MemorySize h -> HK_USER_MIN <= Elf.VirtualAddress h ->
  Elf.VirtualAddress h + Elf.MemorySize h <= HK_USER_MAX ->
  Math.AlignUp (Elf.VirtualAddress h +64 Elf.MemorySize h) PAGE_SIZE -64 page_base (Elf.VirtualAddress h) = count * 4096 ->
  Math.AlignUp (Elf.VirtualAddress h + Elf.MemorySize h) PAGE_SIZE = page_base (Elf.VirtualAddress h) + count * 4096.
Proof.
  unfold HK_USER_MIN, HK_USER_MAX, is_word. intros Hw Hms Hmin Hmax. change PAGE_SIZE with 4096.
  rewrite (wrap_small 64 (_ + _)) by (unfold is_word; lia). rewrite AlignUp_page, page_base_eq by lia.
  pose proof (page_low (Elf.VirtualAddress h)). pose proof (page_low (Elf.VirtualAddress h + Elf.MemorySize h + 4095)).
  rewrite wrap_small by (unfold is_word; lia). lia.
Qed.

Lemma LoadSegment_progress own p p' i : tree own p -> intact own p -> file_ok ->
  0 <= i < Elf.ProgramHeaderCount header ->
  let h := segment i in
  loadable h = true -> bad_bounds h size = false -> LoadSegment image h p = Ok (true, p') ->
  exists own', progress own p own' p' (fun v => if covers h v then Some h else None).
Proof.
  intros Ht HI Hfo Hi h Hl Hb HE. pose proof (fo_bytes Hfo i Hi) as Hsz. fold h in Hsz. destruct Hfo as [[Hpl Hend] _ _].
  assert (Hva : is_word 64 (Elf.VirtualAddress h)) by apply load64_range.
  assert (Hms : is_word 64 (Elf.MemorySize h)) by apply load64_range.
  assert (Hfs : is_word 64 (Elf.FileSize h)) by apply load64_range.
  assert (Hof : is_word 64 (Elf.Offset h)) by apply load64_range.
  unfold bad_bounds in Hb. rewrite !orb_false_iff, negb_false_iff in Hb. destruct Hb as [[_ Hle] HU].
  apply InUserHalf_spec in HU as [Hmin Hmax]; [|done..].
  assert (Hm0 : 0 < Elf.MemorySize h) by (unfold loadable in Hl; unfold is_word in Hms; lia).
  destruct (segment_pages _ (Elf.MemorySize h) Hva Hm0 Hmin Hmax) as (count & Esize & Hc & Hs & Hsm & Hse & Hsv & Hve & _).
  pose proof (segment_end h count Hva Hm0 Hmin Hmax Esize) as Eend.
  unfold LoadSegment in HE. cbv zeta in HE. rewrite Esize in HE. change (count * 4096 / PAGE_SIZE) with (count * 4096 / 4096) in HE.
  rewrite Z.div_mul in HE by lia.
  destruct (AllocateFrames_ok own p count Ht ltac:(lia)) as (r & f' & EA & Hf' & Hr). rewrite EA in HE. cbn [obind] in HE.
  destruct (Z.eqb_spec r 0) as [->|Hr0]; [discriminate HE|].
  destruct Hr as [[? _]|(Hr & Hrm & Hre & Hfree & Hin)]; [done|]. unfold is_word in *.
  set (m' := CString.memcpy _ _ _ _) in HE. set (start := page_base (Elf.VirtualAddress h)) in *.
  destruct (stage own p r count f' m' start (AccessFor (Elf.Flags h)) Ht Hf') as (ok & p1 & HM & Hloads & Hok); try done.
  { intros x Hx. unfold m'. cbn [memory with_frames with_table]. rewrite (wrap_small 64 (_ - _)) by (unfold is_word; lia).
    rewrite (ToVirtual_eq r (count * 4096)) in * by lia. unfold Config.DIRECT_MAP_BASE in *.
    rewrite wrap_small by (unfold is_word; lia). unfold CString.memcpy. rewrite copy_up_out by lia. apply memset_out; lia. }
  change (Map start r (count * 4096) (AccessFor (Elf.Flags h)) USER_ NORMAL (with_table p m' f' (s_TableCount p)) = Ok (true, p')) in HE.
  rewrite HM in HE. injection HE as -> ->. destruct (Hok eq_refl) as [Hg (own' & HS)]. pose proof HS as [St Se Sn _ So].
  exists own'. split; [done|done|apply Hloads| |].
  2: { assert (Hcv : forall x, (if covers h x then Some h else None) <> None <-> start <= x < start + count * 4096).
       { intros x. unfold covers. rewrite Hl. fold start. rewrite Eend. cbn [andb].
         destruct (Z.leb_spec start x), (Z.ltb_spec x (start + count * 4096)); cbn [andb]; split; (done || lia). }
       intros v w Hv Hw Hne. rewrite !Hcv. intros Hc1 Hc2. by apply (staged_apart own p r count m' start p' own'). }
  intros v Hv. unfold covers. rewrite Hl. fold start. rewrite Eend. cbn [andb].
  destruct (Z.leb_spec start v), (Z.ltb_spec v (start + count * 4096)); cbn [andb]; try (intros Hbk; apply So; (done || lia)).
  destruct (Sn v ltac:(lia)) as (Hbk & _ & Hby). destruct (Hg v ltac:(lia)) as (Hg1 & Hg2 & Hg3). split; try done.
  rewrite Hby. unfold m'. cbn [memory with_frames with_table]. apply (segment_bytes own p r count h start v); try done; lia.
Qed.

Lemma segments_from_S i n : segments_from i (S n) = segment (Z.of_nat i) :: segments_from (S i) n.
Proof. reflexivity. Qed.

Lemma Load_loop_progress fuel own p p' (index n : nat) : tree own p -> intact own p -> file_ok ->
  Z.of_nat index + Z.of_nat n = Elf.ProgramHeaderCount header ->
  Load_loop fuel image size (Z.of_nat index) p = Ok (true, p') ->
  exists own', progress own p own' p' (owner (segments_from index n)).
Proof.
  revert own p index n. induction fuel as [|fuel IH]; intros own p index n Ht HI Hfo Hn HE; [discriminate HE|].
  cbn [Load_loop] in HE. cbv zeta in HE. rewrite (header_same own p HI Hfo) in HE.
  pose proof (header_count m0 image) as Hcount. change (Elf.ReadHeader m0 image) with header in Hcount. unfold is_word in Hcount.
  destruct (Z.ltb_spec (Z.of_nat index) (Elf.ProgramHeaderCount header)) as [Hlt|Hge].
  2: { injection HE as <-. replace n with 0%nat by lia. exists own. by apply progress_refl. }
  destruct n as [|n]; [lia|]. rewrite (segment_same own p) in HE by (done || lia).
  replace (u32 (Z.of_nat index + 1)) with (Z.of_nat (S index)) in HE
    by (symmetry; rewrite (wrap_small 32) by (unfold is_word; lia); lia).
  rewrite segments_from_S. set (h := segment (Z.of_nat index)) in *.
  assert (Hskip : loadable h = false -> forall own' , progress own p own' p' (owner (segments_from (S index) n)) ->
    progress own p own' p' (owner (h :: segments_from (S index) n))).
  { intros Hl own' HP. eapply progress_ext; [|exact HP]. intros v. cbn [owner]. unfold covers. rewrite Hl. cbn [andb].
    by destruct (owner _ v). }
  destruct (negb (Elf.Type_ h =? Elf.PT_LOAD) || (Elf.MemorySize h =? 0)) eqn:Hskipped.
  { destruct (IH own p (S index) n Ht HI Hfo ltac:(lia) HE) as [own' HP]. exists own'. apply Hskip; [|done].
    unfold loadable. destruct (_ =? _), (_ =? _); done. }
  assert (Hl : loadable h = true) by (unfold loadable; destruct (_ =? _), (_ =? _); done).
  destruct (writable_code h); [discriminate HE|]. destruct (bad_bounds h size) eqn:Hb; [discriminate HE|].
  apply obind_Ok in HE as ([ok p1] & E1 & HE). destruct ok; [|discriminate HE].
  destruct (LoadSegment_progress own p p1 (Z.of_nat index) Ht HI Hfo ltac:(lia) Hl Hb E1) as [own1 HP1].
  destruct (IH own1 p1 (S index) n (pg_tree _ _ _ _ _ HP1) (progress_intact _ _ _ _ _ HP1 HI) Hfo ltac:(lia) HE) as [own' HP2].
  exists own'. eapply progress_ext; [|exact (progress_trans _ _ _ _ _ _ _ _ HP1 HP2)]. intros v. reflexivity.
Qed.

(** ** The stack *)

Lemma AllocateStack_staged own (u : User.t F) top u' : tree own (paging u) -> watermark (s_NextStackTop u) ->
  AllocateStack u = Ok (top, u') -> top <> 0 ->
  exists own' r m', staged own (paging u) r 16 m' (top - HK_USER_STACK_SIZE) (paging u') own' /\ loads (paging u) (paging u') /\
    top = s_NextStackTop u /\ granted_range (paging u') READ_WRITE (top - HK_USER_STACK_SIZE) HK_USER_STACK_SIZE /\
    forall x, r + Config.DIRECT_MAP_BASE <= x < r + 16 * 4096 + Config.DIRECT_MAP_BASE -> load8 m' x = 0.
Proof.
  intros Ht [Hm Hr] HE Htop. set (t := s_NextStackTop u) in *. unfold AllocateStack in HE. cbv zeta in HE. fold t in HE.
  change STACK_STRIDE with 69632 in *. change HK_USER_STACK_SIZE with (16 * 4096) in *.
  unfold HK_USER_MIN, HK_USER_MAX in Hr. cbn [paging with_paging] in HE. change (16 * 4096 / PAGE_SIZE) with 16 in HE.
  destruct (AllocateFrames_ok own (paging u) 16 Ht ltac:(lia)) as (r & f' & EA & Hf' & Hcase). rewrite EA in HE. cbn [obind] in HE.
  destruct (Z.eqb_spec r 0) as [->|Hr0]; [by injection HE as <- _|].
  destruct Hcase as [[? _]|(Hrp & Hrm & Hre & Hfree & Hin)]; [done|]. rewrite (wrap_small 64 (t - 16 * 4096)) in HE by (unfold is_word; lia).
  set (m' := CString.memset _ _ _ _) in HE.
  assert (Hbm : (t - 16 * 4096) mod 4096 = 0).
  { replace (t - 16 * 4096) with (t + -16 * 4096) by lia. by rewrite Z.mod_add by lia. }
  destruct (stage own (paging u) r 16 f' m' (t - 16 * 4096) READ_WRITE Ht Hf') as (ok & p1 & HM & Hl & Hok);
    [lia|exact Hbm|lia|lia|exact Hrp|exact Hrm|lia|exact Hfree|exact Hin|intros x Hx; apply memset_out; lia|].
  change (with_memory (with_frames (paging u) f') m') with (with_table (paging u) m' f' (s_TableCount (paging u))) in HE.
  rewrite HM in HE. cbn [obind] in HE. destruct ok; injection HE as <- <-; [|done].
  destruct (Hok eq_refl) as [Hg (own' & HS)]. exists own', r, m'. split; [exact HS|]. split; [exact Hl|].
  split; [reflexivity|]. split; [exact Hg|].
  intros x Hx. unfold m'. rewrite CString.memset_filled, CString.load8_filled, (ToVirtual_eq r (16 * 4096)) by lia.
  by replace (_ && _) with true by lia.
Qed.

(** Stack, segments and the pages in use before share no memory. *)
Lemma stack_apart own p own1 p1 who own' p' r m' bottom top :
  progress own p own1 p1 who -> staged own1 p1 r 16 m' bottom p' own' -> top = bottom + 16 * 4096 ->
  forall v w, 0 <= v < 2 ^ 47 -> 0 <= w < 2 ^ 47 -> v <> w -> bottom <= v < top \/ who v <> None ->
    (bottom <= w < top \/ who w <> None) \/ backed own p w -> Translate p' v <> Translate p' w.
Proof.
  intros HP HS -> v w Hv Hw Hne Hlv Hlw. pose proof (fun v => progress_backed _ _ _ _ _ v HP) as Hmid.
  assert (Hst : forall x y, 0 <= y < 2 ^ 47 -> x <> y -> bottom <= x < bottom + 16 * 4096 ->
    (bottom <= y < bottom + 16 * 4096 \/ who y <> None) \/ backed own p y -> Translate p' x <> Translate p' y).
  { intros x y Hy Hxy Hx Hcy. apply (staged_apart own1 p1 r 16 m' bottom p' own'); [done..|].
    destruct Hcy as [[?|?]|?]; [by left|right; apply Hmid; auto..]. }
  destruct (decide (bottom <= v < bottom + 16 * 4096)) as [Hsv|Hsv]; [by apply Hst|]. destruct Hlv as [?|Hlv]; [done|].
  destruct (decide (bottom <= w < bottom + 16 * 4096)) as [Hsw|Hsw].
  { intros E. symmetry in E. revert E. apply Hst; [done|congruence|done|]. left. by right. }
  assert (Hcw : who w <> None \/ backed own p w) by (destruct Hlw as [[?|?]|?]; [done|auto..]).
  pose proof (sg_old _ _ _ _ _ _ _ _ HS) as So.
  destruct (So v Hv Hsv (Hmid v Hv (or_introl Hlv))) as [_ [Qv _]]. destruct (So w Hw Hsw (Hmid w Hw Hcw)) as [_ [Qw _]].
  rewrite (q_translate _ _ _ _ _ _ _ Qv), (q_translate _ _ _ _ _ _ _ Qw). by apply (pg_apart _ _ _ _ _ HP).
Qed.

Definition in_stack (task : Task) (v : Z) : Prop := StackTop task - HK_USER_STACK_SIZE <= v < StackTop task.

End Spec.

Section Loader.
Context {F : Type} {FA : FrameAllocator F} {FL : FrameAllocatorLaws F}.

Lemma Load_faithful m0 own (u : User.t F) image size :
  let loaded_at task v := in_stack task v \/ owner (segments m0 image) v <> None in
  tree own (paging u) -> watermark (s_NextStackTop u) -> file_ok m0 image size -> intact m0 image size own (paging u) ->
  exists r u', Load image size u = Ok (r, u') /\
    forall task, r = Some task -> TaskEntry task = Elf.Entry (header m0 image) /\
      exists own', tree own' (paging u') /\ forall v, 0 <= v < 2 ^ 47 ->
        (in_stack task v -> backed own' (paging u') v /\ user_byte (paging u') v = 0 /\
           IsUserWritable (paging u') v = true /\ IsExecutable (paging u') v = negb (s_NoExecuteAvailable (paging u))) /\
        (~ in_stack task v ->
           match owner (segments m0 image) v with
           | Some h => served m0 image own' (paging u') h v
           | None => backed own (paging u) v -> backed own' (paging u') v /\ view_same (paging u) (paging u') v
           end) /\
        (forall w, 0 <= w < 2 ^ 47 -> v <> w -> loaded_at task v -> loaded_at task w \/ backed own (paging u) w ->
           Translate (paging u') v <> Translate (paging u') w).
Proof.
  intros loaded_at Ht Hw Hfo HI. destruct (Load_ok own u image size Ht Hw) as (r & u' & HE & _).
  exists r, u'. split; [exact HE|]. intros task ->. unfold Load in HE. destruct (negb (IsRunnable _ _)); [discriminate HE|].
  apply obind_Ok in HE as ([ok p1] & E1 & HE). destruct ok; cbn [negb] in HE; [|discriminate HE].
  pose proof (load16_range m0 (image + 56)) as Hcount. change (load16 m0 (image + 56)) with (Elf.ProgramHeaderCount (header m0 image)) in Hcount.
  destruct (Load_loop_progress m0 image size LOAD_ROUNDS own (paging u) p1 0 (Z.to_nat (Elf.ProgramHeaderCount (header m0 image)))
    Ht HI Hfo ltac:(unfold is_word in Hcount; lia) E1) as [own1 HP].
  rewrite (header_same m0 image size own1 p1 (progress_intact _ _ _ _ _ _ _ _ HP HI) Hfo) in HE.
  destruct (_ || _); [discriminate HE|]. apply obind_Ok in HE as ([top u2] & E2 & HE). injection HE as Htask <-.
  destruct (Z.eqb_spec top 0) as [|Htop]; [discriminate Htask|]. injection Htask as <-. split; [done|].
  destruct (AllocateStack_staged own1 (with_paging u p1) top u2 (pg_tree _ _ _ _ _ _ _ HP) Hw E2 Htop)
    as (own' & r & m' & HS & Hl & Etop & Hg & Hz). pose proof HS as [St Se Sn _ So]. cbn [paging with_paging s_NextStackTop] in *.
  exists own'. split; [done|]. intros v Hv. unfold loaded_at, in_stack. cbn [StackTop].
  pose proof (ld_nx _ _ Hl) as Hnx. rewrite (pg_nx _ _ _ _ _ _ _ HP) in Hnx. change HK_USER_STACK_SIZE with (16 * 4096) in *. split_and!.
  - intros Hin. destruct (Sn v ltac:(lia)) as (Hbk & _ & Hby). destruct (Hg v ltac:(lia)) as (_ & Hg2 & Hg3).
    split_and!; [done|rewrite Hby; apply Hz; lia|done|]. rewrite Hg3, Hnx. by destruct (s_NoExecuteAvailable (paging u)).
  - intros Hout. pose proof (pg_view _ _ _ _ _ _ _ HP v Hv) as HV.
    change (segments_from m0 image 0 _) with (segments m0 image) in HV.
    destruct (owner (segments m0 image) v) as [h|].
    + destruct (So v Hv ltac:(lia) (sv_backed _ _ _ _ _ _ HV)) as [Hbk Hs].
      apply (served_same m0 image own1 p1); try done. apply Hl.
    + intros Hb. destruct (HV Hb) as [Hb1 Hs1]. destruct (So v Hv ltac:(lia) Hb1) as [Hb2 Hs2]. split; [done|].
      by eapply view_same_trans.
  - intros w Hw' Hne Hlv Hlw.
    by apply (stack_apart m0 image own (paging u) own1 p1 (owner (segments m0 image)) own' (paging u2) r m' (top - 16 * 4096) top HP HS ltac:(lia)).
Qed.

(** C8: The loader does what the ELF file says, for a file that contains its program headers
    and the bytes its segments name ([file_ok]: the code checks neither the table of program
    headers nor a sum that wraps) and lies in memory that is in nobody's way ([intact]).
    [Load] returns; when it reports a task, its entry is the one of the header, and for every
    address of the user half: in the stack ring 3 reads zeros and may write but, with NX
    support, not execute; in a page of a segment it reads the bytes of the file where the
    segment has them and zeros elsewhere, with the rights the segment's flags grant; of
    several segments that share a page only the last one in the file is there, the bytes of
    the others in that page are gone ([owner], [shared_page_loses_bytes]); anywhere else a
    page that was in use before looks as it did.  What is loaded has memory of its own: no
    page table, no free frame and no other page in use backs it. *)
Theorem elf_load_faithful own (u : User.t F) image size :
  let m0 := memory (paging u) in
  let loaded_at task v := in_stack task v \/ owner (segments m0 image) v <> None in
  tree own (paging u) -> watermark (s_NextStackTop u) -> file_ok m0 image size -> intact m0 image size own (paging u) ->
  exists r u', Load image size u = Ok (r, u') /\
    forall task, r = Some task -> TaskEntry task = Elf.Entry (header m0 image) /\
      exists own', tree own' (paging u') /\ forall v, 0 <= v < 2 ^ 47 ->
        (in_stack task v -> backed own' (paging u') v /\ user_byte (paging u') v = 0 /\
           IsUserWritable (paging u') v = true /\ IsExecutable (paging u') v = negb (s_NoExecuteAvailable (paging u))) /\
        (~ in_stack task v ->
           match owner (segments m0 image) v with
           | Some h => served m0 image own' (paging u') h v
           | None => backed own (paging u) v -> backed own' (paging u') v /\ view_same (paging u) (paging u') v
           end) /\
        (forall w, 0 <= w < 2 ^ 47 -> v <> w -> loaded_at task v -> loaded_at task w \/ backed own (paging u) w ->
           Translate (paging u') v <> Translate (paging u') w).
Proof. apply Load_faithful. Qed.

End Loader.

(** ** Witness: the program of one page, at its entry *)

#[local] Existing Instance FrameSpec.debug_build.

Lemma machine_file : file_ok (memory UserSpec.machine) image_address 122 /\ intact (memory UserSpec.machine) image_address 122 small_own UserSpec.machine.
Proof.
  assert (Eh : Elf.ProgramHeaderCount (header (memory UserSpec.machine) image_address) = 1) by (vm_compute; reflexivity).
  split; [split|].
  - vm_compute. split; discriminate.
  - split; vm_compute; discriminate.
  - rewrite Eh. intros i Hi. replace i with 0 by lia. vm_compute. discriminate.
  - intros x Hx. split; [|done]. assert (Hq : 0x7FFF80100000 <= (x - Config.DIRECT_MAP_BASE) / 4096 * 4096).
    { change 0x7FFF80100000 with (0x7FFF80100000 / 4096 * 4096). apply Z.mul_le_mono_nonneg_r; [lia|].
      apply Z.div_le_mono; [lia|]. unfold image_address, Config.DIRECT_MAP_BASE in *. lia. }
    split.
    + unfold small_own. by rewrite (proj2 (Z.eqb_neq _ _)) by lia.
    + intros [_ [[_ Hlt] _]]. change (Frame.Frame.s_FrameCount (frames UserSpec.machine)) with 64 in Hlt. lia.
Qed.

Definition program_task : Task := {| TaskEntry := 0x400078; StackTop := 0x7FFFFFFFF000 |}.

Definition accepted (o : outcome (option Task * User.t Frame.Frame.t)) : bool :=
  match o with Ok (Some t, _) => (TaskEntry t =? 0x400078) && (StackTop t =? 0x7FFFFFFFF000) | _ => false end.

Lemma accepted_task o r u' : accepted o = true -> o = Ok (r, u') -> r = Some program_task.
Proof.
  intros H ->. destruct r as [[e t]|]; [|discriminate H]. apply andb_prop in H as [H1 H2].
  apply Z.eqb_eq in H1, H2. cbn in H1, H2. by subst.
Qed.

Lemma program_accepted : accepted (Load image_address 122 (Boot UserSpec.machine)) = true.
Proof. vm_compute. reflexivity. Qed.

(** The file's bytes at the entry, and a byte behind the file's end. *)
Lemma program_bytes v b : (v, b) ∈ [(0x400078, 0xeb); (0x400079, 0xfe); (0x400800, 0)] ->
  match owner (segments (memory UserSpec.machine) image_address) v with
  | Some h => expected (memory UserSpec.machine) image_address h v = b /\ ~ in_stack program_task v
  | None => False
  end.
Proof.
  rewrite !elem_of_cons, elem_of_nil. intros [E|[E|[E|[]]]]; injection E as -> ->;
    (destruct (owner _ _) as [h|] eqn:Eo; [|vm_compute in Eo; discriminate Eo]; vm_compute in Eo; injection Eo as <-;
     split; [vm_compute; reflexivity|unfold in_stack, HK_USER_STACK_SIZE; cbn [StackTop program_task]; lia]).
Qed.

Lemma elf_load_faithful_witness :
  exists u', Load image_address 122 (Boot UserSpec.machine) = Ok (Some program_task, u') /\
    forall v b, (v, b) ∈ [(0x400078, 0xeb); (0x400079, 0xfe); (0x400800, 0)] -> user_byte (paging u') v = b.
Proof.
  destruct machine_file as [Hfo HI].
  destruct (elf_load_faithful small_own (Boot UserSpec.machine) image_address 122 machine_tree) as (r & u' & HE & HT).
  - split; [reflexivity|]. split; vm_compute; discriminate.
  - exact Hfo.
  - exact HI.
  - pose proof (accepted_task _ r u' program_accepted HE) as Hr. subst r. exists u'. split; [exact HE|].
    destruct (HT _ eq_refl) as (_ & own' & _ & HV). intros v b Hin. pose proof (program_bytes v b Hin) as Ho.
    assert (Hv : 0 <= v < 2 ^ 47).
    { rewrite !elem_of_cons, elem_of_nil in Hin. destruct Hin as [E|[E|[E|[]]]]; injection E as -> ->; lia. }
    destruct (HV v Hv) as (_ & Hs & _). change (memory (paging (Boot UserSpec.machine))) with (memory UserSpec.machine) in Hs.
    destruct (owner (segments (memory UserSpec.machine) image_address) v) as [h|]; [|destruct Ho].
    destruct Ho as [<- Hout]. apply (Hs Hout).
Defined.
