(* ===== verification/StackMemory.v ===== *)
(** * The memory behind the kernel stacks

    [KernelStack::Allocate] on the level of frames and bytes: every stack has frames of its own
    that are neither tables nor free, and stacks that are in use keep their contents. *)

From S2P Require Import Prelude Mem Config FrameInterface Paging PagingSpec User UserSpec LoaderSpec KernelStack.
Import Paging KernelStack.

Section StackMemory.
Context {F : Type} {FA : FrameAllocator F} {FL : FrameAllocatorLaws F}.
Implicit Types s : KernelStack.t F.

(** [k] slots are out, and the pages from [bottom] on lead to the run of frames at [r],
    none of which is a table. *)
Record stack_at (own : Z -> option (nat * Z)) (k bottom r : Z) s : Prop := {
  sa_stacks : stacks k s;
  sa_tree : tree own (paging s);
  sa_run : 0 < r /\ r mod 4096 = 0 /\ r + 16384 <= 2 ^ 47;
  sa_data f : r <= f < r + 16384 -> own (f / 4096 * 4096) = None;
  sa_bottom : 0 <= bottom /\ bottom + 16384 < 2 ^ 64;
  sa_pages w : bottom <= w < bottom + 16384 ->
    Translate (paging s) w = r + (w - bottom) /\ IsWritable (paging s) w = true /\
    IsExecutable (paging s) w = negb (s_NoExecuteAvailable (paging s)) }.

Lemma slot_distance start w : start mod 4096 = 0 ->
  Config.KERNEL_STACK_BASE <= start <= w -> w < Config.KERNEL_STACK_BASE + AREA -> page_distance start w = (w - start) / 4096.
Proof.
  intros Hs Hw Hw'. rewrite area_distance by lia. unfold AREA in *.
  assert (E : w / 4096 = start / 4096 + (w - start) / 4096).
  { replace w with (w - start + start / 4096 * 4096) at 1 by (pose proof (Z.div_mod start 4096 ltac:(lia)); lia).
    rewrite Z.div_add by lia. lia. }
  rewrite E. rewrite Z.mod_small; [lia|]. split; [pose proof (Z.div_pos (w - start) 4096); lia|].
  assert ((w - start) / 4096 < 2 ^ 36) by (apply Z.div_lt_upper_bound; lia). lia.
Qed.

(** What one call of [Allocate] does to the memory: the frames at [r] were free and back the
    new stack, everything that was in use stays as it was. *)
Record grown (own own' : Z -> option (nat * Z)) (r : Z) s s' : Prop := {
  gr_nx : s_NoExecuteAvailable (paging s') = s_NoExecuteAvailable (paging s);
  gr_run f : r <= f < r + 16384 -> fa_free (frames (paging s)) (f / 4096 * 4096) /\ ~ fa_free (frames (paging s')) (f / 4096 * 4096);
  gr_free q : fa_free (frames (paging s')) q -> fa_free (frames (paging s)) q;
  gr_tables q : own q = None -> ~ fa_free (frames (paging s)) q -> own' q = None;
  gr_data x : outside own' x -> load8 (memory (paging s')) x = load8 (memory (paging s)) x;
  gr_pages w : Config.KERNEL_STACK_BASE <= w < s_NextSlot s -> Translate (paging s') w = Translate (paging s) w }.

(** An address below a slot is far from its pages. *)
Lemma below_slot start w : start mod 4096 = 0 -> Config.KERNEL_STACK_BASE <= w < start ->
  start < Config.KERNEL_STACK_BASE + AREA -> 4 <= page_distance start w.
Proof.
  intros Hs Hw Hw'. rewrite area_distance by lia. unfold AREA in *.
  assert (Hd : w / 4096 < start / 4096) by (apply Z.div_lt_upper_bound; pose proof (Z.div_mod start 4096 ltac:(lia)); lia).
  assert (Hb : start / 4096 - w / 4096 <= 2 ^ 34).
  { pose proof (Z.div_mod start 4096 ltac:(lia)). pose proof (page_low w). lia. }
  rewrite <- (Z.mod_add _ 1) by lia. rewrite Z.mod_small by lia. lia.
Qed.

Lemma Allocate_memory k own s : stacks k s -> tree own (paging s) -> k + 1 < 2 ^ 29 ->
  (exists why, Allocate s = Panic why) \/
  exists s' own' r, Allocate s = Ok (s_NextSlot s + STRIDE, s') /\
    grown own own' r s s' /\ stack_at own' (k + 1) (s_NextSlot s + GUARD_SIZE) r s'.
Proof.
  intros Hst Ht Hk1. destruct (Allocate_stack k s Hst Hk1) as [?|(s' & HA & Hst')]; [by left|right].
  pose proof Hst as [_ Hk Hn _]. destruct (slot_bounds k Hk) as (Hs0 & Hs1 & Hs2).
  set (B := Config.KERNEL_STACK_BASE) in *. assert (HB : B + 2 ^ 46 = 2 ^ 64) by reflexivity.
  pose proof HA as HA0. unfold Allocate in HA. change (Config.THREAD_STACK_SIZE / Paging.PAGE_SIZE) with 4 in HA.
  change (Config.THREAD_STACK_SIZE) with 16384 in *. change STRIDE with 20480 in *. change GUARD_SIZE with 4096 in *.
  destruct (fa_Allocate_law (frames (paging s)) 4 (tr_frames _ _ Ht)) as (r & f & HF & Hf & Hcase); [lia|].
  destruct (tree_frames own (paging s) r 4 f Ht ltac:(lia) HF) as [Ht1 _]. rewrite HF in HA. cbn [obind] in HA.
  destruct (Z.eqb_spec r 0) as [->|Hr0]; [done|].
  destruct Hcase as [[? _]|[(Hr & Hrm & Hre & Hfree) Hin]]; [done|].
  set (p1 := with_table _ _ _ _) in *. rewrite !(wrap_small 64) in HA by (unfold is_word; lia).
  assert (Hro : range_ok (s_NextSlot s + 4096) r 16384) by (split; lia).
  destruct (Map_ok own p1 (s_NextSlot s + 4096) r 16384 READ_WRITE KERNEL NORMAL Ht1 Hro)
    as (ok & p2 & HM & [(own2 & Ht2 & _ & Hnew & Hdat) _ HX _ Hfr]). rewrite HM in HA. cbn [obind] in HA.
  destruct ok; [|done]. injection HA as Es. subst s'. exists {| paging := p2; s_NextSlot := s_NextSlot s + 20480 |}, own2, r.
  assert (Hrun : forall f0, r <= f0 < r + 16384 -> in_run r 4 (f0 / 4096 * 4096)).
  { intros q Hq. split; [by apply Z.mod_mul|]. pose proof (page_low q). pose proof (Z.div_mod r 4096 ltac:(lia)).
    assert (r / 4096 <= q / 4096) by (apply Z.div_le_mono; lia). lia. }
  assert (Hsm : (s_NextSlot s + 4096) mod 4096 = 0).
  { rewrite Hn. rewrite <- Z.add_assoc, Z.add_mod by lia. rewrite (Z.add_mod (k * 20480)), Hs2 by lia. reflexivity. }
  pose proof (fun w => paging_map_grants own p1 (s_NextSlot s + 4096) r 16384 READ_WRITE KERNEL NORMAL p2 w Ht1 Hro HM) as HG.
  rewrite !page_base_aligned in HG by (done || lia). unfold page_count in HG. rewrite Hsm in HG. change ((0 + 16384 + 4095) / 4096) with 4 in HG.
  split; [done|]. split; [|split; [done|done|lia| |lia|]].
  - split; [done| | |intros q Ho Hnf; destruct (own2 q) as [x|] eqn:E; [|done]; exfalso|exact Hdat|].
    + intros q Hq. split; [by apply Hin, Hrun|]. intros Hx%Hfr. apply Hfree in Hx as [_ Hx]. by apply Hx, Hrun.
    + intros q Hq%Hfr. by apply Hfree in Hq as [Hq _].
    + apply Hnew in E as [E|E]; [congruence|]. by apply Hfree in E as [E _].
    + intros w Hw. destruct (HG w) as [_ HO]; [lia|]. apply (q_translate _ _ _ _ _ _ _ (HO ltac:(apply below_slot; unfold AREA; lia))).
  - intros q Hq. destruct (own2 (q / 4096 * 4096)) as [x|] eqn:E; [|done]. exfalso.
    specialize (Hrun q Hq).
    apply Hnew in E as [E|E]; [|by apply Hfree in E as []].
    destruct x as [n pre]. destruct (tr_own _ _ Ht _ n pre E) as [_ Hnf]. by apply Hnf, Hin.
  - intros w Hw. destruct (HG w ltac:(lia)) as [HI _]. clear HG. rename HI into HG.
    rewrite (slot_distance (s_NextSlot s + 4096) w) in HG by (unfold AREA; lia).
    destruct HG as [Q1 Q2 Q3 _ _]; [apply Z.div_lt_upper_bound; lia|]. cbn [paging]. rewrite Q1, Q2, Q3, HX.
    split; [|by rewrite orb_false_r].
    pose proof (Z.div_mod (w - (s_NextSlot s + 4096)) 4096 ltac:(lia)) as Hdm.
    replace ((w - (s_NextSlot s + 4096)) mod 4096) with (w mod 4096) in Hdm; [lia|].
    by rewrite Zminus_mod, Hsm, Z.sub_0_r, Z.mod_mod by lia.
Qed.


(** ** Every stack has memory of its own *)

Definition stack_page s (w : Z) : Prop :=
  Config.KERNEL_STACK_BASE <= w < s_NextSlot s /\ IsGuardPage s w = false.

(** The byte at [w], through the page tables. *)
Abbreviation byte_at s w := (User.user_byte (paging s) w).

(** The bytes of the stacks lie in frames that are neither tables nor free, each in its own. *)
Record private_stacks (own : Z -> option (nat * Z)) s : Prop := {
  pv_tree : tree own (paging s);
  pv_backed w : stack_page s w -> backed own (paging s) w;
  pv_apart v w : stack_page s v -> stack_page s w -> v <> w -> Translate (paging s) v <> Translate (paging s) w }.

Lemma stack_page_split k s s' w : stacks k s -> stacks (k + 1) s' ->
  (stack_page s' w <-> stack_page s w \/ s_NextSlot s + 4096 <= w < s_NextSlot s + 20480).
Proof.
  intros [_ Hk Hn _] [_ Hk' Hn' _]. change STRIDE with 20480 in *. unfold stack_page, IsGuardPage.
  assert (HB : Config.KERNEL_STACK_BASE + 2 ^ 46 = 2 ^ 64) by reflexivity. set (B := Config.KERNEL_STACK_BASE) in *.
  change STRIDE with 20480. change GUARD_SIZE with 4096.
  destruct (Z_lt_dec w B); [split; [lia|intros [|]; lia]|]. rewrite (proj2 (Z.ltb_ge w B)) by lia.
  destruct (Z_le_dec (s_NextSlot s') w); [split; [lia|intros [|]; lia]|].
  rewrite (proj2 (Z.leb_gt (s_NextSlot s') w)) by lia. cbn [orb]. rewrite (wrap_small 64) by (unfold is_word; lia).
  destruct (Z.leb_spec (s_NextSlot s) w) as [Hge|Hlt]; [|rewrite Z.ltb_ge; split; [left|intros [|]]; lia].
  replace (w - B) with (w - s_NextSlot s + k * 20480) by lia. rewrite Z.mod_add, Z.mod_small by lia.
  rewrite Z.ltb_ge. split; [right; lia|intros [|]; lia].
Qed.

Lemma Allocate_private k own s top s' : stacks k s -> k + 1 < 2 ^ 29 -> private_stacks own s -> Allocate s = Ok (top, s') ->
  exists own', private_stacks own' s' /\
    forall w, stack_page s w -> stack_page s' w /\ Translate (paging s') w = Translate (paging s) w /\ byte_at s' w = byte_at s w.
Proof.
  intros Hst Hk [Ht Hb Ha] HA. destruct (Allocate_memory k own s Hst Ht Hk) as [[why HP]|(s2 & own' & r & HA' & HG & HS)]; [congruence|].
  rewrite HA in HA'. injection HA' as _ <-. destruct HG as [_ Grun Gfree Gtab Gdat Gpg].
  destruct HS as [Hst' Ht' (Hr & Hrm & Hre) Hown _ Hpg]. change GUARD_SIZE with 4096 in Hpg.
  pose proof (fun w => stack_page_split k s s' w Hst Hst') as Hsp.
  assert (Hnew : forall w, s_NextSlot s + 4096 <= w < s_NextSlot s + 20480 ->
    exists f, Translate (paging s') w = f /\ f = r + (w - (s_NextSlot s + 4096)) /\ r <= f < r + 16384).
  { intros w Hw. destruct (Hpg w ltac:(lia)) as [-> _]. eexists. split; [done|]. lia. }
  assert (Hold : forall w, stack_page s w -> backed own' (paging s') w).
  { intros w Hw. destruct (Hb w Hw) as [B1 B2 B3]. destruct Hw as [Hw _]. split; rewrite Gpg by lia; [done|by apply Gtab|].
    by intros Hx%Gfree. }
  exists own'. split; [split; [done| |]|].
  - intros w [Hw|Hw]%Hsp; [by apply Hold|]. destruct (Hnew w Hw) as (f & Ef & _ & Hf).
    split; rewrite Ef; [lia|by apply Hown|by apply Grun].
  - assert (Hcross : forall v w, stack_page s v -> s_NextSlot s + 4096 <= w < s_NextSlot s + 20480 ->
      Translate (paging s') v <> Translate (paging s') w).
    { intros v w Hv Hw E. destruct (Hnew w Hw) as (f & Ef & _ & Hf). rewrite Ef, Gpg in E by apply Hv.
      apply (bk_taken _ _ _ (Hb v Hv)). rewrite E. by apply Grun. }
    intros v w [Hv|Hv]%Hsp [Hw|Hw]%Hsp Hne.
    + rewrite !Gpg by (apply Hv || apply Hw). by apply Ha.
    + by apply Hcross.
    + intros E. symmetry in E. revert E. by apply Hcross.
    + destruct (Hnew v Hv) as (f & -> & Ef & _), (Hnew w Hw) as (g & -> & Eg & _). lia.
  - intros w Hw. split; [apply Hsp; by left|]. assert (E : Translate (paging s') w = Translate (paging s) w) by (apply Gpg, Hw).
    split; [done|]. destruct (Hold w Hw) as [B1 B2 _]. rewrite !user_byte_at by (rewrite <- ?E; lia). rewrite E in *.
    apply Gdat. by apply (outside_page own' (paging s')).
Qed.

(** C19: However many kernel stacks are allocated: the calls hand out adjacent slots in order,
    every address [IsGuardPage] names is unmapped, every other address below the next slot is
    writable for the kernel and closed to ring 3, no two addresses of the stacks share memory
    and none lies in a page table or a free frame, and the stacks that were there keep their
    places and contents. *)
Theorem kernel_stacks_guarded_and_private k own s tops s' :
  stacks k s -> private_stacks own s -> allocations s tops s' -> k + Z.of_nat (length tops) < 2 ^ 29 ->
  (forall i top, tops !! i = Some top -> top = Config.KERNEL_STACK_BASE + (k + Z.of_nat i + 1) * STRIDE) /\
  (forall w, Config.KERNEL_STACK_BASE <= w < s_NextSlot s' ->
     if IsGuardPage s' w then Translate (paging s') w = 0
     else IsWritable (paging s') w = true /\ IsUserReadable (paging s') w = false) /\
  (exists own', private_stacks own' s') /\
  forall w, stack_page s w ->
    stack_page s' w /\ Translate (paging s') w = Translate (paging s) w /\ byte_at s' w = byte_at s w.
Proof.
  intros Hst Hp Ha Hk. destruct (allocations_stacks k s tops s' Hst Hk Ha) as [Hst' Htops].
  split; [exact Htops|]. split; [intros w Hw; by eapply guard_or_stack|]. clear Htops Hst'.
  revert k own Hst Hp Hk. induction Ha as [s|s top s1 tops s2 HA _ IH]; intros k own Hst Hp Hk; [split; [by exists own|done]|].
  cbn [length] in Hk. destruct (Allocate_stack k s Hst) as [[why HP]|(s1' & HA' & Hst1)]; [lia|congruence|].
  rewrite HA in HA'. injection HA' as -> <-.
  destruct (Allocate_private k own s _ s1 Hst ltac:(lia) Hp HA) as (own1 & Hp1 & Hkeep).
  destruct (IH (k + 1) own1 Hst1 Hp1 ltac:(lia)) as [Hex Hrest]. split; [exact Hex|]. intros w Hw.
  destruct (Hkeep w Hw) as (Hw1 & E1 & B1). destruct (Hrest w Hw1) as (Hw2 & E2 & B2). split; [done|]. by rewrite E2, B2.
Qed.

End StackMemory.

(** ** Witness: two stacks of the machine with 64 frames *)

#[local] Existing Instance FrameSpec.debug_build.

Lemma demo_room : match Allocate demo_slots with
                  | Ok (_, s) => match Allocate s with Panic _ => false | _ => true end
                  | _ => false
                  end = true.
Proof. vm_compute. reflexivity. Qed.

Lemma demo_first why : Allocate demo_slots = Panic why -> False.
Proof. intros HP. pose proof demo_room as Hroom. rewrite HP in Hroom. discriminate Hroom. Qed.

Lemma demo_second top s why : Allocate demo_slots = Ok (top, s) -> Allocate s = Panic why -> False.
Proof. intros HA HP. pose proof demo_room as Hroom. rewrite HA, HP in Hroom. discriminate Hroom. Qed.

Lemma kernel_stacks_guarded_and_private_witness :
  exists top1 s1 top2 s2, Allocate demo_slots = Ok (top1, s1) /\ Allocate s1 = Ok (top2, s2) /\
    Translate (paging s2) (Config.KERNEL_STACK_BASE + 4096) <> Translate (paging s2) (Config.KERNEL_STACK_BASE + 24576) /\
    Translate (paging s2) Config.KERNEL_STACK_BASE = 0.
Proof.
  destruct (st_tree _ _ demo_slots_ok) as [own Ht].
  destruct (Allocate_stack 0 demo_slots demo_slots_ok) as [[why HP]|(s1 & HA1 & Hst1)]; [lia|destruct (demo_first _ HP)|].
  destruct (Allocate_stack 1 s1 Hst1) as [[why HP]|(s2 & HA2 & Hst2)]; [lia|destruct (demo_second _ _ _ HA1 HP)|].
  eexists _, s1, _, s2. split; [exact HA1|]. split; [exact HA2|]. pose proof (st_next _ _ Hst2) as Hn. change STRIDE with 20480 in Hn.
  assert (Hp : private_stacks own demo_slots).
  { split; [exact Ht| |]; unfold stack_page; cbn [s_NextSlot demo_slots]; lia. }
  destruct (kernel_stacks_guarded_and_private 0 own demo_slots [_; _] s2 demo_slots_ok Hp
              (allocations_cons _ _ s1 _ _ HA1 (allocations_cons _ _ s2 _ _ HA2 (allocations_nil s2))))
    as (_ & HG & (own' & Hpv) & _); [reflexivity|]. split.
  - apply (pv_apart _ _ Hpv); [| |lia]; (split; [rewrite Hn; lia|]); unfold IsGuardPage; rewrite Hn; reflexivity.
  - specialize (HG Config.KERNEL_STACK_BASE ltac:(rewrite Hn; lia)). unfold IsGuardPage in HG. rewrite Hn in HG. exact HG.
Defined.
