(* ===== verification/MemoryBoot.v ===== *)
(** * Main.cpp: memory comes up

    The first lines of [Main] in order: the frame allocator from the loader's map, the page
    tables out of its frames, the heap out of what is left.  The three components are
    proved against interfaces; here they run on one another's state, and what each promises
    about its memory is brought together. *)

From S2P Require Import Prelude Mem Config Frame FrameSpec FrameInterface Paging PagingSpec Heap.
From S2P Require Import HeapSpec UserSpec AddressSpace.

Section Main.
Context `{BI : BootInfo} {B : Build} (M : Paging.machine).

(** The statics of Memory/Paging.cpp and Memory/Heap.cpp before their [Initialize]; the
    control registers hold what the boot code left. *)
Definition paging_statics (m : mem) (f : Frame.Frame.t) (cr0 cr3 efer : Z) : Paging.t Frame.Frame.t :=
  {| Paging.memory := m; Paging.frames := f; Paging.s_Root := 0; Paging.s_NoExecuteAvailable := false;
     Paging.s_TableCount := 0; Paging.s_MappedRamEnd := 0; Paging.KernelPageTableRoot := 0;
     Paging.CR0 := cr0; Paging.CR3 := cr3; Paging.EFER := efer |}.
Definition heap_statics (m : mem) (f : Frame.Frame.t) : Heap.t Frame.Frame.t :=
  {| Heap.memory := m; Heap.frames := f; Heap.s_Region := 0;
     Heap.s_FreeLists := replicate (Z.to_nat Heap.ORDER_COUNT) 0; Heap.s_UsedBytes := 0;
     Heap.s_Initialized := false |}.

(** Memory and frames are shared: the page tables' view of them after the heap's set-up. *)
Definition Main (m : mem) (cr0 cr3 efer : Z) : outcome (Paging.t Frame.Frame.t * Heap.t Frame.Frame.t) :=
  let* (f, _) := Frame.Frame.Initialize in
  let* p := Paging.Initialize M (paging_statics m f cr0 cr3 efer) in
  let* h := Heap.Initialize (heap_statics (Paging.memory p) (Paging.frames p)) in
  Ok (Paging.with_table p (Heap.memory h) (Heap.frames h) (Paging.s_TableCount p), h).

(** ** The frames the others are built on *)

Context `{!BootInfoSane} (HM : machine_ok M).

Lemma boot_frames_span : boot_frames <= 2 ^ 35.
Proof.
  assert (Hl : forall l h, h <= 2 ^ 46 -> (forall r, r ∈ l -> r ∈ memory_regions) ->
    foldl (fun highest region => if Multiboot.Type_ region =? Multiboot.AVAILABLE
      then Math.Max highest (Multiboot.RegionEnd region) else highest) h l <= 2 ^ 46).
  { induction l as [|r l IH]; intros h Hh Hin; [done|]. simpl. apply IH; [|set_solver].
    assert (Hr : r ∈ memory_regions) by set_solver. pose proof (mo_ram M HM r Hr).
    rewrite (RegionEnd_sane r) by (by left). rewrite Math.Max_max. destruct (_ =? _); lia. }
  unfold boot_frames. specialize (Hl memory_regions 0 ltac:(lia) ltac:(done)).
  fold Frame.Frame.HighestAvailableAddress in Hl.
  pose proof (Z.div_lt_upper_bound (Frame.Frame.HighestAvailableAddress + 4095) 4096 (2 ^ 34 + 1)). lia.
Qed.

(** Frames that can be handed out lie in available memory. *)
Definition backed (f : Frame.Frame.t) : Prop := forall q, fa_free f q ->
  exists r, r ∈ memory_regions /\ Multiboot.Type_ r = Multiboot.AVAILABLE /\
    Multiboot.Address r <= q /\ q + 4096 <= Multiboot.Address r + Multiboot.Length r.

Lemma frames_ready f loc : Frame.Frame.Initialize = Ok (f, loc) -> fa_inv f /\ backed f.
Proof.
  intros E. destruct Initialize_exact as [[E' _]|(loc' & HL & _ & [[E' _]|(s & E' & Hwf & HC & _ & Ht)])];
    rewrite E in E'; try discriminate. injection E' as <- <-. split.
  - split; [by eexists| |rewrite HC; apply boot_frames_span].
    intros Hp. rewrite HC in Hp. rewrite Ht by lia. apply orb_true_iff. right. unfold reserved_frame.
    by replace (touched 0 MIB 0) with true by done.
  - intros q (Hm & Hq & Htk). rewrite HC in Hq. rewrite Ht in Htk.
    2: { split; [apply Z.div_pos; lia|apply Z.div_lt_upper_bound; lia]. }
    apply orb_false_iff in Htk as [Hu%negb_false_iff _].
    apply existsb_exists in Hu as (r & Hr%list_elem_of_In & [HT HC']%andb_prop). exists r.
    rewrite (RegionEnd_sane r) in HC' by (by left). unfold covered in HC'. change Frame.Frame.SIZE with 4096 in HC'.
    pose proof (page_of q Hm). split_and!; [done|lia..].
Qed.

(** ** The heap *)

(** What [Heap::Initialize] does to memory and frames. *)
Lemma Heap_Initialize_effect (s s' : Heap.t Frame.Frame.t) : Heap.s_Initialized s = false -> Heap.Initialize s = Ok s' ->
  exists r, fa_Allocate (Heap.HEAP_SIZE / Frame.Frame.SIZE) (Heap.frames s) = Ok (r, Heap.frames s') /\ r <> 0 /\
    Heap.s_Region s' = Paging.ToVirtual r /\
    only_header (Heap.memory s) (Heap.memory s') (u64 (Paging.ToVirtual r)).
Proof.
  intros Hi. unfold Heap.Initialize. rewrite Hi, obind_Ok. intros ([r f] & EA & E).
  destruct (Z.eqb_spec r 0) as [->|Hr]; [done|]. cbn [negb] in E. destruct (_ =? 0); [done|].
  apply obind_Ok in E as (s1 & EP & [= <-]). exists r. unfold Heap.PushFree in EP.
  apply obind_Ok in EP as (first & _ & [= <-]). cbn. split_and!; [done..|].
  unfold Heap.BlockAt. cbn [Heap.s_Region]. rewrite Z.add_0_r. apply write_header_only.
Qed.

(** The heap's region is a run of frames that were free, so it holds no table. *)
Lemma heap_placed own p h : tree own p ->
  Heap.Initialize (heap_statics (Paging.memory p) (Paging.frames p)) = Ok h ->
  exists r, 0 < r /\ r mod 4096 = 0 /\ r + 2 ^ 24 <= 2 ^ 47 /\ Heap.s_Region h = r + Config.DIRECT_MAP_BASE /\
    (forall q, in_run r (2 ^ 12) q -> fa_free (Paging.frames p) q) /\
    (forall q, fa_free (Heap.frames h) q -> fa_free (Paging.frames p) q) /\
    same_tables own (Paging.memory p) (Heap.memory h).
Proof.
  intros Ht E. destruct (Heap_Initialize_effect (heap_statics _ _) h eq_refl E) as (r & EA & Hr0 & HR & Hmem).
  destruct (fa_Allocate_law (Paging.frames p) (2 ^ 12) (tr_frames _ _ Ht) ltac:(lia)) as (r' & f' & EA' & _ & Hrun).
  change (Heap.HEAP_SIZE / Frame.Frame.SIZE) with (2 ^ 12) in EA. cbn [heap_statics Heap.frames] in EA.
  rewrite EA in EA'. injection EA' as <- <-.
  destruct Hrun as [[? _]|[(Hp & Hal & Hend & Hfree) Hin]]; [done|].
  assert (HV : Paging.ToVirtual r = r + Config.DIRECT_MAP_BASE) by (apply (ToVirtual_eq r (2 ^ 24)); lia).
  assert (Hword : u64 (Paging.ToVirtual r) = Paging.ToVirtual r).
  { apply wrap_small. rewrite HV. unfold is_word, Config.DIRECT_MAP_BASE. lia. }
  exists r. split_and!; try done; try lia.
  - intros q Hq. by apply Hfree.
  - apply (run_same_tables own p r (2 ^ 12)); try done; try lia. intros a Ha. rewrite Hword in Hmem.
    apply Hmem. lia.
Qed.

(** How [Main] can stop here. *)
Definition stops {A} (o : outcome A) : Prop :=
  o = Panic "No room for the frame bitmap" \/ o = Panic "No usable physical memory" \/
  o = Panic NO_TABLES \/ o = Panic "No memory for the kernel page tables" \/
  o = Panic "Not enough physical memory for the kernel heap" \/
  (NDEBUG = false /\ o = AssertFailed "s_Root < 4 * GIB").

(** Data written outside the tables and frames taken keep the address space. *)
Lemma live_data own s0 p m' f' : tree own p -> live M s0 p ->
  same_tables own (Paging.memory p) m' -> fa_inv f' -> (forall q, fa_free f' q -> fa_free (Paging.frames p) q) ->
  tree own (Paging.with_table p m' f' (Paging.s_TableCount p)) /\
  live M s0 (Paging.with_table p m' f' (Paging.s_TableCount p)).
Proof.
  intros Ht [_ Hx Hm Hr Hp He Hl Hf] Hs Hi Hfree. destruct (tree_data own p m' f' Ht Hs Hi Hfree) as [Ht' Hm'].
  split; [done|]. split; try done; [by eexists| |].
  - intros w Hw. rewrite Hm' by done. by apply Hm.
  - intros q Hq. by apply Hf, Hfree.
Qed.

(** C11: Memory comes up as one system.  [Main]'s first three calls, each on the state the
    one before left, return or stop with one of the six reasons they have; otherwise the
    page tables represent the kernel's layout, the heap is one free block of 16 MiB, both
    work on the same memory and the same frames, no table lies in the heap, and every byte
    of the heap is mapped at its place in the direct map, writable, not executable and
    closed to ring 3. *)
Theorem kernel_memory_boots m cr0 cr3 efer :
  stops (Main m cr0 cr3 efer) \/
  exists p h own Bl fl f loc, Main m cr0 cr3 efer = Ok (p, h) /\ Frame.Frame.Initialize = Ok (f, loc) /\
    tree own p /\ live M (paging_statics m f cr0 cr3 efer) p /\
    inv Bl fl none 0 h /\ (forall y, Bl y = HeapSpec.whole true y) /\
    Heap.memory h = Paging.memory p /\ Heap.frames h = Paging.frames p /\
    (forall q n pre, own q = Some (n, pre) ->
       q + Config.DIRECT_MAP_BASE + 4096 <= Heap.s_Region h \/
       Heap.s_Region h + 2 ^ 24 <= q + Config.DIRECT_MAP_BASE) /\
    (forall a, Heap.s_Region h <= a < Heap.s_Region h + 2 ^ 24 ->
       queries p a (a - Config.DIRECT_MAP_BASE) true (negb (Paging.HasNX M)) false false).
Proof.
  unfold Main. destruct Frame.Frame.Initialize as [[f loc]| | | |] eqn:EF; cycle 1.
  1-4: left; destruct Initialize_exact as [[E' _]|(loc' & _ & _ & [[E' _]|(s & E' & _)])];
    rewrite EF in E'; try discriminate; injection E' as ->; unfold stops; tauto.
  destruct (frames_ready f loc EF) as [Hf Hb]. cbn [obind].
  set (s0 := paging_statics m f cr0 cr3 efer).
  destruct (Initialize_live M s0 HM Hf ltac:(simpl; lia)) as [[[_ [-> | ->]]|[HN ->]]|(p & -> & HL)];
    [left; unfold stops; tauto..|]. cbn [obind].
  destruct (lv_tree _ _ _ HL) as [own Ht]. set (h0 := heap_statics _ _).
  destruct (HeapSpec.Initialize_ok h0 (tr_frames _ _ Ht) ltac:(done)) as [->|(h & Bl & fl & E & HI & HBl & _ & Hfh)];
    [left; unfold stops; tauto|]. rewrite E. cbn [obind]. right.
  destruct (heap_placed own p h Ht E) as (r & Hr & Hal & Hend & HR & Hin & Hfree & Hsame).
  destruct (live_data own s0 p (Heap.memory h) (Heap.frames h)) as [Ht' HL']; try done.
  exists (Paging.with_table p (Heap.memory h) (Heap.frames h) (Paging.s_TableCount p)), h, own, Bl, fl, f, loc.
  split_and!; try done.
  - intros q n pre Hq. destruct (tr_own _ _ Ht q n pre Hq) as [[Hqm Hqr] Hn]. rewrite HR.
    destruct (decide (q + 4096 <= r)); [lia|]. destruct (decide (r + 2 ^ 24 <= q)); [lia|]. exfalso.
    apply Hn, Hin. split; [done|]. pose proof (Z.div_mod q 4096 ltac:(lia)). pose proof (Z.div_mod r 4096 ltac:(lia)). lia.
  - intros a Ha. rewrite HR in Ha.
    destruct (Hb ((a - Config.DIRECT_MAP_BASE) / 4096 * 4096)) as (reg & Hreg & HT & H1 & H2).
    { apply (lv_free _ _ _ HL), Hin. pose proof (Z.div_mod (a - Config.DIRECT_MAP_BASE) 4096 ltac:(lia)).
      pose proof (Z.mod_pos_bound (a - Config.DIRECT_MAP_BASE) 4096 ltac:(lia)).
      pose proof (Z.div_mod r 4096 ltac:(lia)). split; [apply Z.mod_mul; lia|lia]. }
    pose proof (Z.div_mod (a - Config.DIRECT_MAP_BASE) 4096 ltac:(lia)).
    pose proof (Z.mod_pos_bound (a - Config.DIRECT_MAP_BASE) 4096 ltac:(lia)).
    apply (live_ram M HM s0 _ HL' reg a Hreg HT). lia.
Qed.
End Main.

(** ** A machine with 64 MiB, its kernel at 16 MiB *)

#[local] Existing Instance FrameSpec.debug_build.

#[local] Instance medium_boot : BootInfo := {|
  memory_regions :=
    [ {| Multiboot.Address := 0; Multiboot.Length := 0x9FC00; Multiboot.Type_ := 1 |};
      {| Multiboot.Address := 0x9FC00; Multiboot.Length := 0x400; Multiboot.Type_ := 2 |};
      {| Multiboot.Address := 0x100000; Multiboot.Length := 0x3F00000; Multiboot.Type_ := 1 |} ];
  info_regions := [ {| Multiboot.Address := 0x9000; Multiboot.Length := 116; Multiboot.Type_ := 2 |} ];
  modules := []; BOOT_START := 0x1000000; KERNEL_END := 0xFFFFFFFF81004000 |}.

#[local] Instance medium_sane : BootInfoSane.
Proof.
  split.
  - intros r. simpl. rewrite !elem_of_cons. intros [-> | [-> | [-> | []%elem_of_nil]]]; simpl; lia.
  - intros r. simpl. rewrite !elem_of_cons. intros [-> | []%elem_of_nil]; simpl; lia.
  - intros mo. simpl. by intros ?%elem_of_nil.
  - simpl. unfold Config.KERNEL_VMA. lia.
Qed.

Lemma medium_ok : machine_ok demo_layout.
Proof.
  split; simpl; unfold Config.KERNEL_VMA; try lia.
  - intros r. rewrite !elem_of_cons. intros [-> | [-> | [-> | []%elem_of_nil]]]; simpl; lia.
  - repeat constructor.
Qed.

Lemma kernel_memory_boots_witness :
  machine_ok demo_layout /\
  (stops (Main demo_layout (fun _ => 0) 0 0 0) \/
   exists p h, Main demo_layout (fun _ => 0) 0 0 0 = Ok (p, h) /\ Heap.memory h = Paging.memory p).
Proof.
  split; [exact medium_ok|].
  destruct (kernel_memory_boots demo_layout medium_ok (fun _ => 0) 0 0 0)
    as [H | (p & h & own & Bl & fl & f & loc & H & _ & _ & _ & _ & _ & Hm & _)]; [left; exact H|right].
  exists p, h. split; [exact H|exact Hm].
Defined.
