(* ===== verification/Syscall.v ===== *)
(** * Arch/Syscall.cpp and User/Task.cpp, [Terminate]: the system calls

    What ring 3 can ask for, over the state it touches: the page tables (the user's
    memory), the screen with the user's window, the vault and the record of terminated
    tasks.  The calls are modelled with the Guard held.  A call that blocks answers
    [Blocked]: the calling thread is queued, another one runs, and the call goes on in
    [GetKey_resume] when the thread is dispatched again. *)

From S2P Require Import Prelude Mem Queue Config RingBuffer FrameInterface Paging PagingSpec.
From S2P Require Import Context Sched SchedSpec Sync SyncSpec SystemSpec Device Keyboard Ps2 Screen.
From S2P Require Import Layout User UserSpec Epilogues.

Module Syscall.
Import Abi Epilogues.

(** Gdt.h. *)
Definition KERNEL_CODE : Z := 0x08.
Definition KERNEL_DATA : Z := 0x10.
Definition USER_CODE32 : Z := 0x18.
Definition USER_DATA : Z := 0x20.
Definition USER_CODE : Z := 0x28.
Definition RING3 : Z := 3.

Definition STAR_VALUE : Z := Z.lor (Z.shiftl (Z.lor USER_CODE32 RING3) 48) (Z.shiftl KERNEL_CODE 32).
Definition MASKED_FLAGS : Z := Z.lor (Z.lor (Z.lor (Z.lor 0x100 0x200) 0x400) 0x4000) 0x40000.

(** The selectors the instructions derive from STAR are the ones of Gdt.h and HK.h. *)
Lemma star_selectors :
  Z.land (Z.shiftr STAR_VALUE 32) 0xffff = KERNEL_CODE /\
  Z.land (Z.shiftr STAR_VALUE 32) 0xffff + 8 = KERNEL_DATA /\
  Z.lor (Z.shiftr STAR_VALUE 48 + 16) 3 = HK_USER_CODE_SELECTOR /\
  Z.lor (Z.shiftr STAR_VALUE 48 + 8) 3 = HK_USER_DATA_SELECTOR.
Proof. split_and!; reflexivity. Qed.

Section Calls.
Context {K : Type} {SA : StackAllocator K} {BB : Build} {CC : Context.Code} {MM : Machine}.
Context {D : Type} {HW : Hardware D} {F : Type} {FA : FrameAllocator F}.

(** [screen] holds the cells and windows; its device is the vault's. *)
Record kernel := {
  memory_ : Paging.t F;
  vault : Vault K D;
  screen : TextWindow.display D;
  termination : User.Termination }.

(** The window [UserOutput]. *)
Definition UserOutput : Z := Layout.USER_OUTPUT.

Definition with_vault (k : kernel) (v : Vault K D) : kernel :=
  {| memory_ := memory_ k; vault := v; screen := screen k; termination := termination k |}.
Definition display_of (k : kernel) : TextWindow.display D :=
  {| TextWindow.cells := TextWindow.cells (screen k); TextWindow.crtc := Ps2.device (ps2 (vault k));
     TextWindow.windows := TextWindow.windows (screen k);
     TextWindow.s_ActiveWindow := TextWindow.s_ActiveWindow (screen k) |}.
Definition with_display (k : kernel) (d : TextWindow.display D) : kernel :=
  {| memory_ := memory_ k;
     vault := with_ps2 (vault k) (Ps2.with_device (ps2 (vault k)) (TextWindow.crtc d));
     screen := d; termination := termination k |}.

Inductive reply := Returns (r : Z) | Blocked | Ended.

(** [User::Terminate] behind its line on the debug stream, which is that of Traps.v: the record and the
    scheduler's [Exit]. *)
Definition Terminate (core InStatus : Z) (k : kernel) : outcome (reply * kernel) :=
  let* y := System.exec (System.EExit core) (system (vault k)) in
  Ok (Ended, {| memory_ := memory_ k; vault := with_system (vault k) y; screen := screen k;
                termination := User.Record_ InStatus (termination k) |}).

Definition Exit (core InStatus : Z) (k : kernel) : outcome (reply * kernel) :=
  Terminate core (to_signed 32 InStatus) k.

Fixpoint written_loop (buffer : list Z) : Z :=
  match buffer with
  | [] => 0
  | c :: rest => if c =? 0 then 0 else 1 + written_loop rest
  end.

(** [stack] is the stack memory from [buffer] on as the call finds it; the copy overwrites
    its beginning. *)
Definition Write (stack : list Z) (InHandle InBuffer InLength : Z) (k : kernel) : outcome (reply * kernel) :=
  if negb (InHandle =? HK_STDOUT) then Ok (Returns (- error_value HK_EBADF), k)
  else
    let length := Math.Min InLength HK_WRITE_MAX in
    let* copied := User.CopyIn (memory_ k) InBuffer length in
    match copied with
    | None => Ok (Returns (- error_value HK_EFAULT), k)
    | Some bytes =>
        let written := written_loop bytes in
        let* d := TextWindow.Print UserOutput (bytes ++ drop (List.length bytes) stack) Cga.DefaultAttribute
                    written (display_of k) in
        Ok (Returns written, with_display k d)
    end.

(** The thread goes on here when it is dispatched again. *)
Definition Yield (core : Z) (k : kernel) : outcome (reply * kernel) :=
  let* y := System.exec (System.EResume core) (system (vault k)) in
  Ok (Returns 0, with_vault k (with_system (vault k) y)).

Definition bit (b : bool) (m : Z) : Z := if b then m else 0.
Definition ModifiersOf (k : Key.Key) : Z :=
  let bits := Z.lor 0 (bit (Key.Shift k) HK_MOD_SHIFT) in
  let bits := Z.lor bits (bit (Key.AltLeft k) HK_MOD_ALT_LEFT) in
  let bits := Z.lor bits (bit (Key.AltRight k) HK_MOD_ALT_RIGHT) in
  let bits := Z.lor bits (bit (Key.CtrlLeft k) HK_MOD_CTRL_LEFT) in
  let bits := Z.lor bits (bit (Key.CtrlRight k) HK_MOD_CTRL_RIGHT) in
  let bits := Z.lor bits (bit (Key.CapsLock k) HK_MOD_CAPS_LOCK) in
  let bits := Z.lor bits (bit (Key.NumLock k) HK_MOD_NUM_LOCK) in
  Z.lor bits (bit (Key.ScrollLock k) HK_MOD_SCROLL_LOCK).

Definition packed (k : Key.Key) : Z := hk_key_pack (Key.Code k) (Key.Ascii k) (ModifiersOf k).

(** Behind [P]: take a key, or wait again. *)
Fixpoint GetKey_resume (fuel : nat) (core : Z) (v : Vault K D) : outcome (reply * Vault K D) :=
  match RingBuffer.Consume KEYS (Keys v) with
  | (Some key, b) => Ok (Returns (packed key), with_keys v b)
  | (None, b) =>
      match fuel with
      | O => Diverges
      | S n =>
          let v := with_keys v b in
          let waits := Semaphore.m_Counter (System.sems (system v) KeysAvailable) <=? 0 in
          let* y := System.exec (System.EP core KeysAvailable) (system v) in
          if waits then Ok (Blocked, with_system v y) else GetKey_resume n core (with_system v y)
      end
  end.

(** Every round that does not wait takes one unit of the semaphore. *)
Definition GetKey_rounds (v : Vault K D) : nat :=
  Z.to_nat (Semaphore.m_Counter (System.sems (system v) KeysAvailable)) + 1.

Definition GetKey (core : Z) (k : kernel) : outcome (reply * kernel) :=
  let v := vault k in
  let waits := Semaphore.m_Counter (System.sems (system v) KeysAvailable) <=? 0 in
  let* y := System.exec (System.EP core KeysAvailable) (system v) in
  if waits then Ok (Blocked, with_vault k (with_system v y))
  else
    let* (r, v) := GetKey_resume (GetKey_rounds v) core (with_system v y) in Ok (r, with_vault k v).

(** ** Dispatch *)

Inductive Handler := H_Exit | H_Write | H_Yield | H_GetKey.
Record TableEntry := { Call : Handler; Arity : Z }.
Definition TABLE : list TableEntry :=
  [ {| Call := H_Exit; Arity := 1 |}; {| Call := H_Write; Arity := 3 |};
    {| Call := H_Yield; Arity := 0 |}; {| Call := H_GetKey; Arity := 0 |} ].

Definition ReservedAreZero (InEntry : TableEntry) (InArg1 InArg2 InArg3 : Z) : bool :=
  forallb (fun x => x =? 0) (drop (Z.to_nat (Arity InEntry)) [InArg1; InArg2; InArg3]).

Definition SyscallDispatch (stack : list Z) (core InNumber InArg1 InArg2 InArg3 : Z) (k : kernel)
    : outcome (reply * kernel) :=
  match (if Z.of_nat (length TABLE) <=? InNumber then None else TABLE !! Z.to_nat InNumber) with
  | None => Ok (Returns (- error_value HK_ENOSYS), k)
  | Some entry =>
      if negb (ReservedAreZero entry InArg1 InArg2 InArg3) then Ok (Returns (- error_value HK_EINVAL), k)
      else match Call entry with
           | H_Exit => Exit core InArg1 k
           | H_Write => Write stack InArg1 InArg2 InArg3 k
           | H_Yield => Yield core k
           | H_GetKey => GetKey core k
           end
  end.

End Calls.
Arguments kernel : clear implicits.
End Syscall.
