(* ===== verification/Entry.v ===== *)
(** * Arch/Syscall.asm and [Syscall::Initialize]: into the kernel and back

    The two assembly routines instruction by instruction, over the registers of a core and
    byte memory, with the [syscall], [sysret] and [iretq] instructions around them as the
    processor manuals define them.  The body of a call is any code that keeps the calling
    convention.  What ring 3 is promised: a system call changes rax, rcx and r11 only. *)

From S2P Require Import Prelude Mem Config User Syscall.
Import Abi.

Module Entry.

Inductive reg := RAX | RBX | RCX | RDX | RSI | RDI | RBP | RSP | R8 | R9 | R10 | R11 | R12 | R13 | R14 | R15.
#[export] Instance reg_eq_dec : EqDecision reg.
Proof. solve_decision. Defined.

Record cpu := {
  gpr : reg -> Z;
  rip : Z; rflags : Z; cs : Z; ss : Z; ds : Z; es : Z;
  gs_base : Z; KERNEL_GS_BASE : Z;
  EFER : Z; STAR : Z; LSTAR : Z; SFMASK : Z;
  memory : mem }.

Definition set (c : cpu) (x : reg) (v : Z) : cpu :=
  {| gpr := fun y => if bool_decide (y = x) then v else gpr c y; rip := rip c; rflags := rflags c; cs := cs c;
     ss := ss c; ds := ds c; es := es c; gs_base := gs_base c; KERNEL_GS_BASE := KERNEL_GS_BASE c; EFER := EFER c;
     STAR := STAR c; LSTAR := LSTAR c; SFMASK := SFMASK c; memory := memory c |}.
Definition with_memory (c : cpu) (m : mem) : cpu :=
  {| gpr := gpr c; rip := rip c; rflags := rflags c; cs := cs c; ss := ss c; ds := ds c; es := es c;
     gs_base := gs_base c; KERNEL_GS_BASE := KERNEL_GS_BASE c; EFER := EFER c; STAR := STAR c; LSTAR := LSTAR c;
     SFMASK := SFMASK c; memory := m |}.
Definition with_flags (c : cpu) (f : Z) : cpu :=
  {| gpr := gpr c; rip := rip c; rflags := f; cs := cs c; ss := ss c; ds := ds c; es := es c;
     gs_base := gs_base c; KERNEL_GS_BASE := KERNEL_GS_BASE c; EFER := EFER c; STAR := STAR c; LSTAR := LSTAR c;
     SFMASK := SFMASK c; memory := memory c |}.
Definition with_gs (c : cpu) (g k : Z) : cpu :=
  {| gpr := gpr c; rip := rip c; rflags := rflags c; cs := cs c; ss := ss c; ds := ds c; es := es c;
     gs_base := g; KERNEL_GS_BASE := k; EFER := EFER c; STAR := STAR c; LSTAR := LSTAR c; SFMASK := SFMASK c;
     memory := memory c |}.
Definition with_data (c : cpu) (v : Z) : cpu :=
  {| gpr := gpr c; rip := rip c; rflags := rflags c; cs := cs c; ss := ss c; ds := v; es := v;
     gs_base := gs_base c; KERNEL_GS_BASE := KERNEL_GS_BASE c; EFER := EFER c; STAR := STAR c; LSTAR := LSTAR c;
     SFMASK := SFMASK c; memory := memory c |}.
(** A jump to another privilege level. *)
Definition transfer (c : cpu) (ip flags code stack : Z) : cpu :=
  {| gpr := gpr c; rip := ip; rflags := flags; cs := code; ss := stack; ds := ds c; es := es c;
     gs_base := gs_base c; KERNEL_GS_BASE := KERNEL_GS_BASE c; EFER := EFER c; STAR := STAR c; LSTAR := LSTAR c;
     SFMASK := SFMASK c; memory := memory c |}.

(** ** Instructions *)

Inductive instr :=
| Swapgs | StoreGs (offset : Z) (x : reg) | LoadGs (x : reg) (offset : Z) | PushGs (offset : Z)
| Push (x : reg) | PushImm (v : Z) | Pop (x : reg) | Mov (dst src : reg) | SubRsp (n : Z) | AddRsp (n : Z)
| Sti | Cli | Clear (x : reg).

Definition FLAG_IF : Z := 0x200.

Definition push (v : Z) (c : cpu) : cpu :=
  let sp := gpr c RSP -64 8 in with_memory (set c RSP sp) (store64 (memory c) sp v).

Definition exec (i : instr) (c : cpu) : cpu :=
  match i with
  | Swapgs => with_gs c (KERNEL_GS_BASE c) (gs_base c)
  | StoreGs o x => with_memory c (store64 (memory c) (gs_base c +64 o) (gpr c x))
  | LoadGs x o => set c x (load64 (memory c) (gs_base c +64 o))
  | PushGs o => push (load64 (memory c) (gs_base c +64 o)) c
  | Push x => push (gpr c x) c
  | PushImm v => push v c
  | Pop x => set (set c RSP (gpr c RSP +64 8)) x (load64 (memory c) (gpr c RSP))
  | Mov d s => set c d (gpr c s)
  | SubRsp n => set c RSP (gpr c RSP -64 n)
  | AddRsp n => set c RSP (gpr c RSP +64 n)
  | Sti => with_flags c (Z.lor (rflags c) FLAG_IF)
  | Cli => with_flags c (Z.ldiff (rflags c) FLAG_IF)
  | Clear x => set c x 0
  end.
Definition run (l : list instr) (c : cpu) : cpu := foldl (fun c i => exec i c) c l.

Definition AREA_KERNEL_STACK : Z := 0.
Definition AREA_USER_STACK : Z := 8.
Definition USER_FLAGS : Z := 0x202.

(** [SyscallEntry] up to the call, and behind it. *)
Definition entry_code : list instr :=
  [Swapgs; StoreGs AREA_USER_STACK RSP; LoadGs RSP AREA_KERNEL_STACK; PushGs AREA_USER_STACK; Swapgs;
   Push R11; Push RCX; Push R10; Push R9; Push R8; Push RDX; Push RSI; Push RDI; SubRsp 8;
   Mov RCX RDX; Mov RDX RSI; Mov RSI RDI; Mov RDI RAX; Sti].
Definition exit_code : list instr :=
  [Cli; AddRsp 8; Pop RDI; Pop RSI; Pop RDX; Pop R8; Pop R9; Pop R10; Pop RCX; Pop R11; Pop RSP].

(** The instruction, executed with [rip] behind it, and its way back. *)
Definition syscall (c : cpu) : cpu :=
  let c' := set (set c RCX (rip c)) R11 (rflags c) in
  let kernel := Z.land (Z.shiftr (STAR c) 32) 0xffff in
  transfer c' (LSTAR c) (Z.ldiff (rflags c) (SFMASK c)) kernel (kernel + 8).
Definition sysret_to (c : cpu) : cpu :=
  let user := Z.shiftr (STAR c) 48 in
  transfer c (gpr c RCX) (Z.lor (Z.land (gpr c R11) 0x3c7fd7) 2) (Z.lor (user + 16) 3) (Z.lor (user + 8) 3).
(** A 48 bit address, sign extended. *)
Definition canonical (a : Z) : bool := (a <? 2 ^ 47) || (2 ^ 64 - 2 ^ 47 <=? a).
(** The way back to an address that is not canonical raises an exception before it leaves ring 0. *)
Definition sysret (c : cpu) : outcome cpu :=
  if canonical (gpr c RCX) then Ok (sysret_to c) else Fault "general protection".

(** [body] is the call of [SyscallDispatch]. *)
Definition SyscallEntry (body : cpu -> cpu) (c : cpu) : outcome cpu := sysret (run exit_code (body (run entry_code c))).

Definition enter_code : list instr :=
  [PushImm HK_USER_DATA_SELECTOR; Push RSI; PushImm USER_FLAGS; PushImm HK_USER_CODE_SELECTOR; Push RDI;
   Clear RAX; Clear RBX; Clear RCX; Clear RDX; Clear RSI; Clear RDI; Clear RBP; Clear R8; Clear R9; Clear R10;
   Clear R11; Clear R12; Clear R13; Clear R14; Clear R15].
Definition iretq (c : cpu) : cpu :=
  let sp := gpr c RSP in
  let word i := load64 (memory c) (sp + 8 * i) in
  set (transfer c (word 0) (word 2) (word 1) (word 4)) RSP (word 3).
Definition EnterUserMode (c : cpu) : cpu := iretq (run enter_code (with_data c HK_USER_DATA_SELECTOR)).

(** ** Syscall.cpp: the registers that lead here *)

Definition EFER_SCE : Z := 1.
(** [entry] is the address of [SyscallEntry], [area] that of [s_Area[InCoreId]]. *)
Definition Initialize (entry area : Z) (c : cpu) : cpu :=
  {| gpr := gpr c; rip := rip c; rflags := rflags c; cs := cs c; ss := ss c; ds := ds c; es := es c;
     gs_base := gs_base c; KERNEL_GS_BASE := area; EFER := Z.lor (EFER c) EFER_SCE; STAR := Syscall.STAR_VALUE;
     LSTAR := entry; SFMASK := Syscall.MASKED_FLAGS; memory := memory c |}.
Definition SetKernelStack (area InStackTop : Z) (m : mem) : mem := store64 m (area + AREA_KERNEL_STACK) InStackTop.

(** ** Stacks *)

(** Everything but general registers and memory. *)
Definition state_of (c : cpu) :=
  (rip c, rflags c, cs c, ss c, ds c, es c, gs_base c, KERNEL_GS_BASE c, EFER c, STAR c, LSTAR c, SFMASK c).

Record frame (top : Z) (vs : list Z) (c : cpu) : Prop := {
  fr_top : is_word 64 top;
  fr_sp : gpr c RSP = top - 8 * Z.of_nat (length vs);
  fr_room : 0 <= gpr c RSP;
  fr_holds i v : vs !! i = Some v -> load64 (memory c) (gpr c RSP + 8 * Z.of_nat i) = v }.

Lemma set_eq c x v : gpr (set c x v) x = v.
Proof. simpl. by rewrite bool_decide_true. Qed.
Lemma set_ne c x v y : y <> x -> gpr (set c x v) y = gpr c y.
Proof. intros. simpl. by rewrite bool_decide_false. Qed.

Lemma run_app l l' c : run (l ++ l') c = run l' (run l c).
Proof. apply foldl_app. Qed.

Lemma push_frame top vs v c : frame top vs c -> is_word 64 v -> 8 <= gpr c RSP ->
  frame top (v :: vs) (push v c) /\ (forall y, y <> RSP -> gpr (push v c) y = gpr c y) /\
  state_of (push v c) = state_of c.
Proof.
  intros [Ht Hsp Hr Hh] Hv H8. unfold push. set (sp := gpr c RSP -64 8).
  assert (Es : sp = gpr c RSP - 8) by (apply wrap_small; unfold is_word in *; lia).
  split; [|split; [intros y Hy; by apply set_ne|done]].
  assert (E : gpr (with_memory (set c RSP sp) (store64 (memory c) sp v)) RSP = sp) by apply set_eq.
  split; [done|rewrite E; simpl; lia|rewrite E; lia|]. rewrite E. cbn [memory with_memory].
  intros [|i] w Hw.
  - simpl in Hw. injection Hw as ->. rewrite Z.add_0_r. by apply load64_store64.
  - rewrite load_store_disj by lia. replace (sp + 8 * Z.of_nat (S i)) with (gpr c RSP + 8 * Z.of_nat i) by lia.
    by apply Hh.
Qed.

Lemma push_all l : forall top vs c, frame top vs c -> RSP ∉ l -> (forall x, is_word 64 (gpr c x)) ->
  8 * Z.of_nat (length l) <= gpr c RSP ->
  let c' := run (Push <$> l) c in
  frame top (rev (gpr c <$> l) ++ vs) c' /\ (forall y, y <> RSP -> gpr c' y = gpr c y) /\ state_of c' = state_of c.
Proof.
  induction l as [|x l IH]; intros top vs c Hf Hl Hw Hroom; [done|]. cbv zeta.
  apply not_elem_of_cons in Hl as [Hx Hl]. simpl length in Hroom.
  destruct (push_frame top vs (gpr c x) c Hf (Hw x) ltac:(lia)) as (Hf1 & Hg1 & Hs1).
  change (run (Push <$> x :: l) c) with (run (Push <$> l) (push (gpr c x) c)).
  assert (Hsp : gpr (push (gpr c x) c) RSP = gpr c RSP - 8).
  { destruct Hf1 as [_ E _ _], Hf as [_ E' _ _]. rewrite E, E'. simpl. lia. }
  destruct (IH top (gpr c x :: vs) (push (gpr c x) c)) as (Hf2 & Hg2 & Hs2); [done|done| |lia|].
  { intros y. destruct (decide (y = RSP)) as [->|]; [|by rewrite Hg1]. rewrite Hsp.
    specialize (Hw RSP). unfold is_word in *. lia. }
  split_and!.
  - rewrite fmap_cons. cbn [rev]. rewrite <- app_assoc. simpl.
    replace (gpr c <$> l) with (gpr (push (gpr c x) c) <$> l); [exact Hf2|].
    apply list_fmap_ext. intros i y Hy. apply Hg1. intros ->. by apply Hl, list_elem_of_lookup_2 with i.
  - intros y Hy. by rewrite Hg2, Hg1.
  - by rewrite Hs2.
Qed.

Lemma pop_frame top v vs x c : frame top (v :: vs) c -> x <> RSP ->
  let c' := exec (Pop x) c in
  frame top vs c' /\ gpr c' x = v /\ (forall y, y <> x -> y <> RSP -> gpr c' y = gpr c y) /\
  memory c' = memory c /\ state_of c' = state_of c.
Proof.
  intros [Ht Hsp Hr Hh] Hx. cbv zeta. cbn [exec]. simpl length in Hsp.
  assert (Es : gpr c RSP +64 8 = gpr c RSP + 8) by (apply wrap_small; unfold is_word in *; lia). rewrite Es.
  set (c' := set (set c RSP (gpr c RSP + 8)) x (load64 (memory c) (gpr c RSP))).
  assert (Hsp' : gpr c' RSP = gpr c RSP + 8) by (unfold c'; rewrite set_ne by done; apply set_eq).
  split_and!; try done.
  - split; [done|lia|lia|]. intros i w Hw. rewrite Hsp'. change (memory c') with (memory c).
    rewrite <- (Hh (S i) w) by done. f_equal. lia.
  - unfold c'. rewrite set_eq, <- (Hh O v eq_refl). f_equal. lia.
  - intros y Hy Hy'. unfold c'. by rewrite !set_ne.
Qed.

Lemma pop_all l : forall top ws vs c, frame top (ws ++ vs) c -> length ws = length l -> NoDup l -> RSP ∉ l ->
  let c' := run (Pop <$> l) c in
  frame top vs c' /\ (forall i x w, l !! i = Some x -> ws !! i = Some w -> gpr c' x = w) /\
  (forall y, y ∉ l -> y <> RSP -> gpr c' y = gpr c y) /\ state_of c' = state_of c.
Proof.
  induction l as [|x l IH]; intros top ws vs c Hf Hlen Hnd Hl; cbv zeta.
  { destruct ws; [|done]. split_and!; done. }
  destruct ws as [|w ws]; [done|]. apply NoDup_cons in Hnd as [Hx Hnd]. apply not_elem_of_cons in Hl as [Hr Hl].
  destruct (pop_frame top w (ws ++ vs) x c Hf ltac:(done)) as (Hf1 & Hw1 & Hg1 & _ & Hs1).
  change (run (Pop <$> x :: l) c) with (run (Pop <$> l) (exec (Pop x) c)).
  destruct (IH top ws vs (exec (Pop x) c) Hf1) as (Hf2 & Hw2 & Hg2 & Hs2); [simpl in Hlen; lia|done..|].
  split_and!; try done.
  - intros [|i] y v Hy Hv; [|by eapply Hw2]. injection Hy as <-. injection Hv as <-. by rewrite Hg2.
  - intros y Hy Hy'. apply not_elem_of_cons in Hy as [? ?]. by rewrite Hg2, Hg1.
Qed.

Lemma frame_ext top vs c c' : frame top vs c -> gpr c' RSP = gpr c RSP ->
  (forall a, gpr c RSP <= a < top -> load8 (memory c') a = load8 (memory c) a) -> frame top vs c'.
Proof.
  intros [Ht Hsp Hr Hh] E Hm. split; rewrite ?E; [done..|]. intros i v Hi. rewrite <- (Hh i v Hi).
  apply lookup_lt_Some in Hi. apply load_ext. intros a Ha. apply Hm. lia.
Qed.

(** ** Into the kernel *)

(** A core on which [Initialize] and [SetKernelStack] have run. *)
Record ready (entry area top : Z) (c : cpu) : Prop := {
  rd_star : STAR c = Syscall.STAR_VALUE;
  rd_lstar : LSTAR c = entry;
  rd_mask : SFMASK c = Syscall.MASKED_FLAGS;
  rd_gs : KERNEL_GS_BASE c = area;
  rd_area : 0 <= area /\ area + 16 <= 2 ^ 64;
  rd_stack : load64 (memory c) area = top;
  rd_aligned : top mod 16 = 0;
  rd_room : 80 <= top }.

Record user_state (c : cpu) : Prop := {
  us_regs x : is_word 64 (gpr c x);
  us_rip : is_word 64 (rip c);
  us_flags : is_word 64 (rflags c) /\ Z.lor (Z.land (rflags c) 0x3c7fd7) 2 = rflags c }.

Definition saved : list reg := [R11; RCX; R10; R9; R8; RDX; RSI; RDI].
Definition switch_code : list instr :=
  [Swapgs; StoreGs AREA_USER_STACK RSP; LoadGs RSP AREA_KERNEL_STACK; PushGs AREA_USER_STACK; Swapgs].
Definition call_code : list instr := [SubRsp 8; Mov RCX RDX; Mov RDX RSI; Mov RSI RDI; Mov RDI RAX; Sti].

Lemma entry_code_parts : entry_code = switch_code ++ (Push <$> saved) ++ call_code.
Proof. reflexivity. Qed.
Lemma exit_code_parts : exit_code = [Cli; AddRsp 8] ++ (Pop <$> rev saved) ++ [Pop RSP].
Proof. reflexivity. Qed.

Lemma saved_ok : RSP ∉ saved /\ NoDup (rev saved) /\ RSP ∉ rev saved.
Proof. split_and!; refine (bool_decide_eq_true_1 _ _); reflexivity. Qed.

Lemma syscall_words c x : user_state c -> is_word 64 (gpr (syscall c) x).
Proof.
  intros [Hr Hi [Hf _]]. unfold syscall. cbn [gpr transfer]. simpl.
  destruct (bool_decide_reflect (x = R11)); [done|]. by destruct (bool_decide_reflect (x = RCX)).
Qed.

(** The stack switch: on the kernel stack, with the user's stack pointer on it. *)
Lemma switch_frame entry area top c : ready entry area top c -> user_state c ->
  let u := syscall c in let c' := run switch_code u in
  frame top [gpr c RSP] c' /\ (forall y, y <> RSP -> gpr c' y = gpr u y) /\ state_of c' = state_of u.
Proof.
  intros [_ _ _ Hg Ha Hs _ Hroom] Hu. cbv zeta. set (u := syscall c).
  assert (Eg : KERNEL_GS_BASE u = area) by done.
  assert (Em : memory u = memory c) by done.
  assert (Er : gpr u RSP = gpr c RSP) by done.
  assert (Hw : is_word 64 (gpr c RSP)) by apply Hu.
  clearbody u. set (m := store64 (memory u) (area + 8) (gpr c RSP)).
  set (v := set (with_memory (with_gs u area (gs_base u)) m) RSP top).
  assert (E8 : area +64 AREA_USER_STACK = area + 8) by (apply wrap_small; unfold is_word, AREA_USER_STACK; lia).
  assert (E0 : area +64 AREA_KERNEL_STACK = area).
  { unfold AREA_KERNEL_STACK. rewrite Z.add_0_r. apply wrap_small. unfold is_word. lia. }
  assert (E : run switch_code u = exec Swapgs (push (gpr c RSP) v)).
  { unfold run, switch_code. cbn [foldl exec]. cbn [gs_base with_gs KERNEL_GS_BASE with_memory memory set gpr].
    rewrite Eg, E8, E0, Er. fold m.
    assert (Hl : load64 m area = top) by (unfold m; rewrite load_store_disj by lia; by rewrite Em).
    rewrite Hl. fold v. unfold m. by rewrite load64_store64. }
  assert (Hf : frame top [] v).
  { pose proof (load64_range (memory c) area) as Ht. rewrite Hs in Ht.
    split; [done|unfold v; rewrite set_eq; simpl; lia|unfold v; rewrite set_eq; lia|]. by intros i w Hi. }
  destruct (push_frame top [] (gpr c RSP) v Hf Hw) as (H1 & H2 & H3); [unfold v; rewrite set_eq; lia|].
  rewrite E. split_and!.
  - by apply (frame_ext _ _ _ _ H1).
  - intros y Hy. change (gpr (exec Swapgs (push (gpr c RSP) v)) y) with (gpr (push (gpr c RSP) v) y).
    rewrite H2 by done. unfold v. by rewrite set_ne.
  - unfold state_of in *. simpl. by rewrite Eg.
Qed.

(** At the call: arguments in place, the user's registers below the top of the stack. *)
Record called (top : Z) (c k : cpu) : Prop := {
  ca_stack : gpr k RSP = top - 80;
  ca_frame : frame top ((gpr (syscall c) <$> rev saved) ++ [gpr c RSP]) (set k RSP (top - 72));
  ca_arguments : gpr k RDI = gpr c RAX /\ gpr k RSI = gpr c RDI /\ gpr k RDX = gpr c RSI /\ gpr k RCX = gpr c RDX;
  ca_kept y : y ∉ [RAX; RCX; RDX; RSI; RDI; RSP; R8; R9; R10; R11] -> gpr k y = gpr c y;
  ca_state : state_of k = state_of (with_flags (syscall c) (Z.lor (rflags (syscall c)) FLAG_IF)) }.

Lemma call_code_regs c y : gpr (run call_code c) y =
  match y with
  | RSP => gpr c RSP -64 8
  | RDI => gpr c RAX | RSI => gpr c RDI | RDX => gpr c RSI | RCX => gpr c RDX | _ => gpr c y
  end.
Proof. destruct y; reflexivity. Qed.

Lemma call_code_state c : memory (run call_code c) = memory c /\
  state_of (run call_code c) = state_of (with_flags c (Z.lor (rflags c) FLAG_IF)).
Proof. split; reflexivity. Qed.

Lemma flags_state c c' f : state_of c = state_of c' ->
  state_of (with_flags c (Z.lor (rflags c) f)) = state_of (with_flags c' (Z.lor (rflags c') f)).
Proof. unfold state_of. intros E. injection E. intros. simpl. congruence. Qed.

Lemma pushed_called top c u c1 : syscall c = u -> user_state c -> 80 <= top ->
  frame top [gpr c RSP] c1 -> (forall y, y <> RSP -> gpr c1 y = gpr u y) -> state_of c1 = state_of u ->
  called top c (run call_code (run (Push <$> saved) c1)).
Proof.
  intros Ec Hu Hroom H1 H2 H3.
  assert (Hsp : gpr c1 RSP = top - 8) by apply H1. pose proof (fr_top _ _ _ H1) as Ht.
  assert (Eu : forall y, y <> RCX -> y <> R11 -> gpr u y = gpr c y).
  { intros y ??. subst u. change (gpr (set (set c RCX (rip c)) R11 (rflags c)) y = gpr c y). by rewrite !set_ne. }
  assert (Hw : forall x, is_word 64 (gpr u x)) by (intros x; rewrite <- Ec; by apply syscall_words).
  destruct (push_all saved top [gpr c RSP] c1 H1) as (F & G & S).
  { apply saved_ok. }
  { intros x. destruct (decide (x = RSP)) as [->|]; [rewrite Hsp; unfold is_word in *; lia|]. by rewrite H2. }
  { rewrite Hsp. simpl. lia. }
  generalize dependent (run (Push <$> saved) c1). intros c2 F G S.
  assert (Hsp2 : gpr c2 RSP = top - 72) by (pose proof (fr_sp _ _ _ F) as E; simpl in E; lia).
  assert (G' : forall y, y <> RSP -> gpr c2 y = gpr u y) by (intros; by rewrite G, H2).
  assert (E : gpr c2 RSP -64 8 = top - 80) by (rewrite Hsp2; rewrite wrap_small; [lia|unfold is_word in *; lia]).
  pose proof (call_code_regs c2) as Eg. destruct (call_code_state c2) as [Em Es].
  generalize dependent (run call_code c2). intros k Eg Em Es.
  split; rewrite ?Ec.
  - by rewrite Eg.
  - apply (frame_ext _ _ c2).
    + replace (gpr u <$> rev saved) with (rev (gpr c1 <$> saved)); [done|].
      rewrite <- map_rev. apply list_fmap_ext. intros i x Hx. apply H2. intros ->.
      by apply saved_ok, list_elem_of_lookup_2 with i.
    + by rewrite set_eq.
    + intros a _. change (memory (set k RSP (top - 72))) with (memory k). by rewrite Em.
  - by rewrite !Eg, !G', !Eu.
  - intros y Hy. rewrite Eg. destruct y; try (exfalso; apply Hy; by repeat constructor); by rewrite G', Eu.
  - rewrite Es. apply flags_state. by rewrite S.
Qed.

Lemma entry_called entry area top c : ready entry area top c -> user_state c ->
  called top c (run entry_code (syscall c)).
Proof.
  intros Hr Hu. rewrite entry_code_parts, !run_app.
  destruct (switch_frame entry area top c Hr Hu) as (H1 & H2 & H3).
  exact (pushed_called top c _ _ eq_refl Hu (rd_room _ _ _ _ Hr) H1 H2 H3).
Qed.

(** ** And back *)

(** What a compiled function promises its caller; the frame of the caller, from its stack
    pointer up to [top], is not the callee's.  [KERNEL_GS_BASE] and [LSTAR] are not in it: the
    thread may come back on another core. *)
Record sysv (top : Z) (c c' : cpu) : Prop := {
  cc_kept y : y ∈ [RBX; RBP; RSP; R12; R13; R14; R15] -> gpr c' y = gpr c y;
  cc_frame a : gpr c RSP <= a < top -> load8 (memory c') a = load8 (memory c) a;
  cc_gs : gs_base c' = gs_base c;
  cc_star : STAR c' = STAR c }.

Lemma exit_head b : (forall y, gpr (run [Cli; AddRsp 8] b) y = if bool_decide (y = RSP) then gpr b RSP +64 8 else gpr b y) /\
  memory (run [Cli; AddRsp 8] b) = memory b /\ gs_base (run [Cli; AddRsp 8] b) = gs_base b /\
  STAR (run [Cli; AddRsp 8] b) = STAR b.
Proof. split_and!; reflexivity. Qed.

Lemma popped top vs v c : frame top (vs ++ [v]) c -> length vs = 8%nat ->
  let r := run ((Pop <$> rev saved) ++ [Pop RSP]) c in
  gpr r RSP = v /\ (forall i y w, rev saved !! i = Some y -> vs !! i = Some w -> gpr r y = w) /\
  (forall y, y ∉ saved -> y <> RSP -> gpr r y = gpr c y) /\ gs_base r = gs_base c /\ STAR r = STAR c.
Proof.
  intros Hf Hl. cbv zeta. rewrite run_app.
  destruct (pop_all (rev saved) top vs [v] c Hf Hl) as (F & W & K & S); [apply saved_ok..|].
  generalize dependent (run (Pop <$> rev saved) c). intros c3 F W K S.
  change (run [Pop RSP] c3) with (exec (Pop RSP) c3). cbn [exec].
  assert (Hn : forall y, y <> RSP -> gpr (set (set c3 RSP (gpr c3 RSP +64 8)) RSP (load64 (memory c3) (gpr c3 RSP))) y = gpr c3 y)
    by (intros; by rewrite !set_ne).
  unfold state_of in S. injection S as _ _ _ _ _ _ Sg _ _ Ss _ _. split_and!; try done.
  - rewrite set_eq, <- (fr_holds _ _ _ F 0 v eq_refl). f_equal. lia.
  - intros i y w Hi Hv. rewrite Hn; [by apply (W i)|]. intros ->.
    by apply saved_ok, list_elem_of_lookup_2 with i.
  - intros y Hy Hr. rewrite Hn by done. apply K; [|done]. by rewrite list_elem_of_In, <- in_rev, <- list_elem_of_In.
Qed.

Lemma exit_restores top c k b : called top c k -> sysv top k b -> 80 <= top ->
  let r := run exit_code b in
  gpr r RSP = gpr c RSP /\ (forall y, y ∈ saved -> gpr r y = gpr (syscall c) y) /\
  (forall y, y ∉ saved -> y <> RSP -> gpr r y = gpr b y) /\ gs_base r = gs_base b /\ STAR r = STAR b.
Proof.
  intros Hk Hb Hroom. cbv zeta. rewrite exit_code_parts, run_app.
  pose proof (fr_top _ _ _ (ca_frame _ _ _ Hk)) as Ht. pose proof (ca_frame _ _ _ Hk) as F.
  assert (Hsp : gpr b RSP = top - 80).
  { rewrite (cc_kept _ _ _ Hb) by (by repeat constructor). apply Hk. }
  assert (E : gpr b RSP +64 8 = top - 72) by (rewrite Hsp; rewrite wrap_small; [lia|unfold is_word in *; lia]).
  destruct (exit_head b) as (G2 & M2 & <- & <-). rewrite E in G2.
  generalize dependent (run [Cli; AddRsp 8] b). intros c2 G2 M2.
  generalize dependent (syscall c). intros u F.
  assert (F2 : frame top ((gpr u <$> rev saved) ++ [gpr c RSP]) c2).
  { apply (frame_ext _ _ _ _ F); [by rewrite set_eq, G2|]. rewrite set_eq. intros a Ha. rewrite M2.
    apply (cc_frame _ _ _ Hb). rewrite (ca_stack _ _ _ Hk). lia. }
  destruct (popped top _ _ c2 F2 eq_refl) as (P1 & P2 & P3 & P4 & P5).
  generalize dependent (run ((Pop <$> rev saved) ++ [Pop RSP]) c2). intros r P1 P2 P3 P4 P5.
  split_and!; try done.
  - intros y Hy. assert (Hy' : y ∈ rev saved) by (by rewrite list_elem_of_In, <- in_rev, <- list_elem_of_In).
    apply list_elem_of_lookup_1 in Hy' as [i Hi]. apply (P2 i); [done|]. by rewrite list_lookup_fmap, Hi.
  - intros y Hy Hr. rewrite P3 by done. rewrite G2. by rewrite bool_decide_false.
Qed.

Lemma called_state top c k : called top c k ->
  rip k = LSTAR c /\ rflags k = Z.lor (Z.ldiff (rflags c) (SFMASK c)) FLAG_IF /\
  cs k = Z.land (Z.shiftr (STAR c) 32) 0xffff /\ ss k = Z.land (Z.shiftr (STAR c) 32) 0xffff + 8 /\
  gs_base k = gs_base c /\ KERNEL_GS_BASE k = KERNEL_GS_BASE c /\ STAR k = STAR c.
Proof.
  intros [_ _ _ _ E]. unfold state_of in E. injection E as E1 E2 E3 E4 _ _ E7 E8 _ E10 _ _. by split_and!.
Qed.

(** The masked flags are clear in the kernel, and interrupts are on. *)
Lemma kernel_flags f i : i ∈ [8; 10; 14; 18] ->
  Z.testbit (Z.lor (Z.ldiff f Syscall.MASKED_FLAGS) FLAG_IF) i = false /\
  Z.testbit (Z.lor (Z.ldiff f Syscall.MASKED_FLAGS) FLAG_IF) 9 = true.
Proof.
  intros Hi.
  assert (H : Forall (fun i => Z.testbit Syscall.MASKED_FLAGS i = true /\ Z.testbit FLAG_IF i = false) [8; 10; 14; 18])
    by (by repeat constructor).
  destruct (proj1 (Forall_forall _ _) H i Hi) as [E1 E2]. rewrite !Z.lor_spec, !Z.ldiff_spec, E1, E2.
  change (Z.testbit FLAG_IF 9) with true. by rewrite andb_false_r, orb_true_r.
Qed.

Lemma sysret_user c : STAR c = Syscall.STAR_VALUE ->
  cs (sysret_to c) = HK_USER_CODE_SELECTOR /\ ss (sysret_to c) = HK_USER_DATA_SELECTOR.
Proof.
  intros E. unfold sysret_to. cbn [cs ss transfer]. rewrite E. destruct Syscall.star_selectors as (_ & _ & -> & ->). done.
Qed.

Lemma sysret_at r ip : rip (sysret_to r) = ip -> sysret r = if canonical ip then Ok (sysret_to r) else Fault "general protection".
Proof. by intros <-. Qed.

(** What the code behind the call and the code before it amount to, for ring 3. *)
Record returned (c b c' : cpu) : Prop := {
  rt_rip : rip c' = rip c;
  rt_flags : rflags c' = rflags c;
  rt_ring : cs c' = HK_USER_CODE_SELECTOR /\ ss c' = HK_USER_DATA_SELECTOR;
  rt_gs : gs_base c' = gs_base c;
  rt_result : gpr c' RAX = gpr b RAX;
  rt_regs y : y <> RAX -> y <> RCX -> y <> R11 -> gpr c' y = gpr c y }.

Record delivered (entry area top : Z) (c k : cpu) : Prop := {
  dl_entry : rip k = entry;
  dl_arguments : gpr k RDI = gpr c RAX /\ gpr k RSI = gpr c RDI /\ gpr k RDX = gpr c RSI /\ gpr k RCX = gpr c RDX;
  dl_stack : gpr k RSP = top - 80 /\ gpr k RSP mod 16 = 0;
  dl_ring : cs k = Syscall.KERNEL_CODE /\ ss k = Syscall.KERNEL_DATA;
  dl_interrupts : Z.testbit (rflags k) 9 = true;
  dl_flags i : i ∈ [8; 10; 14; 18] -> Z.testbit (rflags k) i = false;
  dl_gs : gs_base k = gs_base c /\ KERNEL_GS_BASE k = area }.

Lemma called_delivered entry area top c k : ready entry area top c -> called top c k -> delivered entry area top c k.
Proof.
  intros Hr Hk. destruct (called_state _ _ _ Hk) as (E0 & E1 & E2 & E3 & E4 & E5 & E6).
  destruct Hr as [R1 R2 R3 R4 R5 R6 R7 R8]. rewrite R1 in *. rewrite R3 in E1.
  destruct Syscall.star_selectors as (S1 & S2 & _ & _). split; rewrite ?E1, ?E2, ?E3, ?E4, ?E5.
  - congruence.
  - apply Hk.
  - rewrite (ca_stack _ _ _ Hk). split; [done|]. rewrite Zminus_mod, R7. done.
  - done.
  - by apply (kernel_flags _ 8), list_elem_of_here.
  - intros i Hi. by apply kernel_flags.
  - done.
Qed.

Lemma exit_returned top c k b : called top c k -> sysv top k b -> 80 <= top -> STAR c = Syscall.STAR_VALUE ->
  user_state c -> returned c b (sysret_to (run exit_code b)).
Proof.
  intros Hk Hb Hroom Hs Hu. destruct (called_state _ _ _ Hk) as (_ & _ & _ & _ & E4 & _ & E6).
  destruct (exit_restores top c k b Hk Hb Hroom) as (X1 & X2 & X3 & X4 & X5).
  generalize dependent (run exit_code b). intros r X1 X2 X3 X4 X5.
  assert (Hc : gpr r RCX = rip c) by (rewrite X2 by (by repeat constructor); reflexivity).
  assert (Hf : gpr r R11 = rflags c) by (rewrite X2 by (by repeat constructor); reflexivity).
  assert (Eu : forall y, y <> RCX -> y <> R11 -> gpr (syscall c) y = gpr c y).
  { intros y ??. change (gpr (set (set c RCX (rip c)) R11 (rflags c)) y = gpr c y). by rewrite !set_ne. }
  split.
  - exact Hc.
  - change (rflags (sysret_to r)) with (Z.lor (Z.land (gpr r R11) 0x3c7fd7) 2). rewrite Hf. apply Hu.
  - apply sysret_user. by rewrite X5, (cc_star _ _ _ Hb), E6.
  - change (gs_base (sysret_to r)) with (gs_base r). by rewrite X4, (cc_gs _ _ _ Hb).
  - change (gpr (sysret_to r) RAX) with (gpr r RAX). apply X3; [|done]. by refine (bool_decide_eq_true_1 _ _).
  - intros y N1 N2 N3. change (gpr (sysret_to r) y) with (gpr r y).
    destruct (decide (y ∈ saved)) as [Hy|Hy]; [by rewrite X2, Eu|].
    destruct (decide (y = RSP)) as [->|N4]; [done|]. rewrite X3, (cc_kept _ _ _ Hb) by (done || (destruct y; try done; try (by repeat constructor); exfalso; apply Hy; by repeat constructor)).
    apply (ca_kept _ _ _ Hk). destruct y; try done; try (by refine (bool_decide_eq_true_1 _ _)); exfalso; apply Hy; by repeat constructor.
Qed.

(** The two calls that prepare a core for it. *)
Lemma initialized_ready entry area top c m :
  0 <= area /\ area + 16 <= 2 ^ 64 -> is_word 64 top -> 80 <= top -> top mod 16 = 0 ->
  ready entry area top (with_memory (Initialize entry area c) (SetKernelStack area top m)).
Proof.
  intros Ha Ht Hroom Hal. split; try done. cbn [memory with_memory]. unfold SetKernelStack, AREA_KERNEL_STACK.
  rewrite Z.add_0_r. by apply load64_store64.
Qed.

(** C15: A system call, from the [syscall] instruction of ring 3 to the instruction behind it, on a
    core whose registers [Syscall::Initialize] and [SetKernelStack] have set up, with flags that
    [sysret] can restore (RF and VM clear): the dispatcher is called on the thread's kernel stack,
    aligned, with the number and the arguments in place, on kernel segments, with interrupts on and
    the masked flags clear.  Whatever the dispatcher does within the calling convention, if the
    address behind the instruction is canonical ring 3 finds its instruction pointer, flags, stack
    pointer, segments, gs base and all registers but rax, rcx and r11 as they were, and the result
    in rax.  Behind the last two bytes of the user half the address is not canonical: there
    [sysret] faults in ring 0. *)
Theorem syscall_preserves_user_state entry area top body c :
  ready entry area top c -> user_state c ->
  sysv top (run entry_code (syscall c)) (body (run entry_code (syscall c))) ->
  delivered entry area top c (run entry_code (syscall c)) /\
  if canonical (rip c)
  then exists c', SyscallEntry body (syscall c) = Ok c' /\ returned c (body (run entry_code (syscall c))) c'
  else SyscallEntry body (syscall c) = Fault "general protection".
Proof.
  intros Hr Hu Hb. pose proof (entry_called entry area top c Hr Hu) as Hk. split; [by apply called_delivered|].
  assert (HR : returned c (body (run entry_code (syscall c))) (sysret_to (run exit_code (body (run entry_code (syscall c))))))
    by (apply (exit_returned top c _ _ Hk Hb); [apply Hr..|done]).
  unfold SyscallEntry. rewrite (sysret_at _ _ (rt_rip _ _ _ HR)). destruct (canonical (rip c)); [|reflexivity].
  eexists. split; [reflexivity|exact HR].
Qed.

(** A [syscall] instruction in the last two bytes of the user half returns to a fault. *)
Theorem syscall_at_the_top_faults entry area top body c :
  ready entry area top c -> user_state c -> rip c = HK_USER_MAX ->
  sysv top (run entry_code (syscall c)) (body (run entry_code (syscall c))) ->
  SyscallEntry body (syscall c) = Fault "general protection".
Proof.
  intros Hr Hu Hrip Hb. pose proof (entry_called entry area top c Hr Hu) as Hk.
  pose proof (exit_returned top c _ _ Hk Hb ltac:(apply Hr) ltac:(apply Hr) Hu) as HR.
  unfold SyscallEntry. rewrite (sysret_at _ _ (rt_rip _ _ _ HR)), Hrip. reflexivity.
Qed.

Definition sample_cpu : cpu :=
  {| gpr := fun x => match x with RAX => 1 | RDI => 1 | RSI => 0x400000 | RDX => 5 | RSP => 0x7ffff0 | R12 => 77 | _ => 0 end;
     rip := 0x400123; rflags := 0x246; cs := 0; ss := 0; ds := 0; es := 0; gs_base := 0; KERNEL_GS_BASE := 0;
     EFER := 0x501; STAR := 0; LSTAR := 0; SFMASK := 0; memory := fun _ => 0 |}.
Definition sample_core : cpu :=
  with_memory (Initialize 0x104000 0x200000 sample_cpu) (SetKernelStack 0x200000 0x300000 (memory sample_cpu)).

Lemma sample_user : user_state sample_core.
Proof. split; [intros []; by vm_compute|by vm_compute|split; by vm_compute]. Qed.

Lemma sample_ready : ready 0x104000 0x200000 0x300000 sample_core.
Proof. apply initialized_ready; [split|split| |]; by vm_compute. Qed.

(** A body that only leaves a result keeps the convention. *)
Lemma sysv_result top k v : sysv top k (set k RAX v).
Proof. split; [|done..]. intros y Hy. apply set_ne. intros ->. revert Hy. by refine (bool_decide_eq_true_1 _ _). Qed.

Lemma syscall_preserves_user_state_witness :
  exists c', SyscallEntry (fun k => set k RAX 5) (syscall sample_core) = Ok c' /\
    returned sample_core (set (run entry_code (syscall sample_core)) RAX 5) c'.
Proof.
  exact (proj2 (syscall_preserves_user_state 0x104000 0x200000 0x300000 (fun k => set k RAX 5) sample_core
    sample_ready sample_user (sysv_result _ _ 5))).
Defined.

(** ** The one-way trip *)

Definition cleared : list reg :=
  [RAX; RBX; RCX; RDX; RSI; RDI; RBP; R8; R9; R10; R11; R12; R13; R14; R15].

Lemma enter_code_parts : enter_code =
  [PushImm HK_USER_DATA_SELECTOR; Push RSI; PushImm USER_FLAGS; PushImm HK_USER_CODE_SELECTOR; Push RDI] ++
  (Clear <$> cleared).
Proof. reflexivity. Qed.

Lemma clear_all l : forall c, RSP ∉ l ->
  let c' := run (Clear <$> l) c in
  (forall y, y ∈ l -> gpr c' y = 0) /\ (forall y, y ∉ l -> gpr c' y = gpr c y) /\
  memory c' = memory c /\ state_of c' = state_of c.
Proof.
  induction l as [|x l IH]; intros c Hl; cbv zeta; [by split_and!; set_solver|].
  apply not_elem_of_cons in Hl as [Hx Hl].
  change (run (Clear <$> x :: l) c) with (run (Clear <$> l) (set c x 0)).
  destruct (IH (set c x 0) Hl) as (I1 & I2 & I3 & I4). split_and!; [| |done..].
  - intros y Hy. destruct (decide (y ∈ l)) as [|Hn]; [by apply I1|]. rewrite I2 by done.
    apply elem_of_cons in Hy as [->|]; [apply set_eq|done].
  - intros y Hy. apply not_elem_of_cons in Hy as [??]. rewrite I2 by done. by apply set_ne.
Qed.

(** The state a program starts in. *)
Record fresh (c0 c : cpu) : Prop := {
  fs_rip : rip c = gpr c0 RDI;
  fs_rsp : gpr c RSP = gpr c0 RSI;
  fs_flags : rflags c = USER_FLAGS;
  fs_ring : cs c = HK_USER_CODE_SELECTOR /\ ss c = HK_USER_DATA_SELECTOR /\
            ds c = HK_USER_DATA_SELECTOR /\ es c = HK_USER_DATA_SELECTOR;
  fs_gs : gs_base c = gs_base c0 /\ KERNEL_GS_BASE c = KERNEL_GS_BASE c0;
  fs_clear y : y <> RSP -> gpr c y = 0 }.

Lemma iretq_frame top a b f s d c : frame top [a; b; f; s; d] c ->
  rip (iretq c) = a /\ cs (iretq c) = b /\ rflags (iretq c) = f /\ gpr (iretq c) RSP = s /\ ss (iretq c) = d /\
  (forall y, y <> RSP -> gpr (iretq c) y = gpr c y).
Proof.
  intros F. unfold iretq. cbv zeta.
  rewrite (fr_holds _ _ _ F 0 _ eq_refl : load64 (memory c) (gpr c RSP + 8 * 0) = a).
  rewrite (fr_holds _ _ _ F 1 _ eq_refl : load64 (memory c) (gpr c RSP + 8 * 1) = b).
  rewrite (fr_holds _ _ _ F 2 _ eq_refl : load64 (memory c) (gpr c RSP + 8 * 2) = f).
  rewrite (fr_holds _ _ _ F 3 _ eq_refl : load64 (memory c) (gpr c RSP + 8 * 3) = s).
  rewrite (fr_holds _ _ _ F 4 _ eq_refl : load64 (memory c) (gpr c RSP + 8 * 4) = d).
  split_and!; try done. intros y Hy. by rewrite set_ne.
Qed.

Lemma push_values l : forall top vs c, frame top vs c -> Forall (is_word 64) l -> 8 * Z.of_nat (length l) <= gpr c RSP ->
  let c' := foldl (fun c v => push v c) c l in
  frame top (rev l ++ vs) c' /\ (forall y, y <> RSP -> gpr c' y = gpr c y) /\ state_of c' = state_of c.
Proof.
  induction l as [|v l IH]; intros top vs c Hf Hl Hroom; cbv zeta; [done|].
  apply Forall_cons_1 in Hl as [Hv Hl]. simpl length in Hroom. cbn [foldl rev].
  destruct (push_frame top vs v c Hf Hv ltac:(lia)) as (F & G & S).
  destruct (IH top (v :: vs) (push v c) F Hl) as (F' & G' & S').
  { rewrite (fr_sp _ _ _ F). rewrite (fr_sp _ _ _ Hf) in Hroom. simpl length. lia. }
  rewrite <- app_assoc. split_and!; [done|intros; by rewrite G', G|by rewrite S'].
Qed.

Lemma push_reg v c y : y <> RSP -> gpr (push v c) y = gpr c y.
Proof. apply set_ne. Qed.

Lemma enter_pushes c :
  run [PushImm HK_USER_DATA_SELECTOR; Push RSI; PushImm USER_FLAGS; PushImm HK_USER_CODE_SELECTOR; Push RDI] c =
  foldl (fun c v => push v c) c [HK_USER_DATA_SELECTOR; gpr c RSI; USER_FLAGS; HK_USER_CODE_SELECTOR; gpr c RDI].
Proof. unfold run. cbn [foldl exec]. by rewrite !push_reg. Qed.

(** [EnterUserMode] starts the program at the entry point it is given, on the stack it is given,
    in ring 3 with interrupts on, and no register carries anything of the kernel's. *)
Theorem enter_user_mode_clean c : (forall x, is_word 64 (gpr c x)) -> 40 <= gpr c RSP -> fresh c (EnterUserMode c).
Proof.
  intros Hw Hroom. unfold EnterUserMode. rewrite enter_code_parts, run_app.
  set (c0 := with_data c HK_USER_DATA_SELECTOR).
  assert (W0 : forall x, gpr c0 x = gpr c x) by done.
  assert (F0 : frame (gpr c RSP) [] c0).
  { split; [done|rewrite W0; simpl; lia|rewrite W0; lia|by intros]. }
  assert (S0 : (ds c0, es c0, gs_base c0, KERNEL_GS_BASE c0) =
               (HK_USER_DATA_SELECTOR, HK_USER_DATA_SELECTOR, gs_base c, KERNEL_GS_BASE c)) by done.
  clearbody c0.
  rewrite enter_pushes, !W0.
  destruct (push_values [HK_USER_DATA_SELECTOR; gpr c RSI; USER_FLAGS; HK_USER_CODE_SELECTOR; gpr c RDI] _ _ _ F0)
    as (F5 & _ & T5); [by repeat constructor; try apply Hw|rewrite W0; simpl; lia|].
  generalize dependent (foldl (fun c v => push v c) c0 [HK_USER_DATA_SELECTOR; gpr c RSI; USER_FLAGS; HK_USER_CODE_SELECTOR; gpr c RDI]).
  intros c5 F5 T5.
  destruct (clear_all cleared c5) as (K1 & K2 & K3 & K4); [by refine (bool_decide_eq_true_1 _ _)|].
  generalize dependent (run (Clear <$> cleared) c5). intros c6 K1 K2 K3 K4.
  assert (F6 : frame (gpr c RSP) [gpr c RDI; HK_USER_CODE_SELECTOR; USER_FLAGS; gpr c RSI; HK_USER_DATA_SELECTOR] c6).
  { apply (frame_ext _ _ _ _ F5); [apply K2; by refine (bool_decide_eq_true_1 _ _)|]. intros. by rewrite K3. }
  destruct (iretq_frame _ _ _ _ _ _ _ F6) as (I1 & I2 & I3 & I4 & I5 & I6).
  assert (T : state_of c6 = state_of c0) by congruence. unfold state_of in T.
  injection T as _ _ _ _ T1' T2' T3' T4' _ _ _ _. injection S0 as V1 V2 V3 V4.
  split; [done..| | |].
  - split_and!; [done..|by change (ds c6 = HK_USER_DATA_SELECTOR); rewrite T1'|].
    change (es c6 = HK_USER_DATA_SELECTOR). by rewrite T2'.
  - change (gs_base c6 = gs_base c /\ KERNEL_GS_BASE c6 = KERNEL_GS_BASE c). by rewrite T3', T4'.
  - intros y Hy. rewrite I6 by done. apply K1. destruct y; try done; by repeat constructor.
Qed.

Lemma enter_user_mode_clean_witness :
  fresh (set (set sample_cpu RDI 0x400000) RSI 0x7ffff0) (EnterUserMode (set (set sample_cpu RDI 0x400000) RSI 0x7ffff0)).
Proof. apply enter_user_mode_clean; [intros []; by vm_compute|by vm_compute]. Defined.

End Entry.
