(* ===== verification/SyscallSpec.v ===== *)
(** * What the system calls promise to ring 3

    A failed call changes nothing and its error code says exactly why; [Write] prints the
    user's text as a terminal of the window's size would; [GetKey] hands out the oldest
    key or blocks. *)

From S2P Require Import Prelude Mem Queue Config RingBuffer FrameInterface Paging PagingSpec.
From S2P Require Import Context Sched SchedSpec Sync SyncSpec SystemSpec Device Keyboard Ps2 Screen.
From S2P Require Import User UserSpec Epilogues Syscall.
Import Abi Epilogues Syscall.

(** ** Bytes *)

(** The text in front of the first null byte. *)
Fixpoint text_of (l : list Z) : list Z :=
  match l with [] => [] | c :: l => if c =? 0 then [] else c :: text_of l end.

Lemma text_of_printable l : TextWindow.printable (text_of l).
Proof.
  induction l as [|c l IH]; simpl; [constructor|]. destruct (Z.eqb_spec c 0); constructor; done.
Qed.

Lemma written_loop_text l : written_loop l = Z.of_nat (length (text_of l)).
Proof. induction l as [|c l IH]; simpl; [done|]. destruct (c =? 0); simpl; lia. Qed.

Lemma text_of_split l (rest : list Z) : rest <> [] -> exists z r, l ++ rest = text_of l ++ z :: r.
Proof.
  intros Hr. induction l as [|c l IH]; simpl.
  - destruct rest; [done|]. eauto.
  - destruct (Z.eqb_spec c 0) as [->|]; [eauto|]. destruct IH as (z & r & ->). eauto.
Qed.

Lemma text_of_length l : (length (text_of l) <= length l)%nat.
Proof. induction l as [|c l IH]; simpl; [lia|]. destruct (c =? 0); simpl; lia. Qed.

Lemma table_entry_word i : is_word 8 (Key.Normal (nth i Key.ASCII_TABLE (Key.E 0 0))) /\
  is_word 8 (Key.Shifted (nth i Key.ASCII_TABLE (Key.E 0 0))).
Proof.
  assert (H : Forall (fun e => is_word 8 (Key.Normal e) /\ is_word 8 (Key.Shifted e)) Key.ASCII_TABLE).
  { repeat constructor. all: vm_compute; (discriminate || reflexivity). }
  destruct (decide (i < length Key.ASCII_TABLE)%nat) as [Hi|Hi].
  - apply (proj1 (List.Forall_forall _ _) H). by apply nth_In.
  - rewrite nth_overflow by lia. simpl. unfold is_word. lia.
Qed.

Lemma Ascii_word k : is_word 8 (Key.Ascii k).
Proof.
  unfold Key.Ascii. destruct (negb _); [split; reflexivity || discriminate|].
  destruct (table_entry_word (Z.to_nat (Key.Code k))). by destruct (_ || _).
Qed.

Lemma ModifiersOf_word k : is_word 8 (ModifiersOf k).
Proof.
  unfold ModifiersOf. cbv zeta. repeat (apply is_word_lor; [lia| |]); [split; lia|..];
    unfold bit; case_match; split; reflexivity || discriminate.
Qed.

Section Spec.
Context {K : Type} {SA : StackAllocator K} {SL : StackAllocatorLaws K} {BB : Build}
        {CC : Context.Code} {MM : Machine} {ML : MachineLaws}.
Context {D : Type} {HW : Hardware D} {F : Type} {FA : FrameAllocator F} {FL : FrameAllocatorLaws F}.
Variable stack_owner : Z -> Z.
Implicit Types (k : kernel K D F) (A : asys) (v : Vault K D).

Abbreviation buffered v := (RingBuffer.contents KEYS (Keys v)).
Abbreviation waiting A := (s_waits A KeysAvailable).

(** A calling thread: a real one runs on the core. *)
Definition caller core A : Prop := is_core core /\ s_run A core <> 0 /\ ~ idle (s_run A core).

Record kernel_ok own pop A t k : Prop := {
  ko_tree : tree own (memory_ k);
  ko_sys : sys_sim stack_owner pop A (system (vault k));
  ko_keys : RingBuffer.wf KEYS (Keys (vault k));
  ko_codes : Forall (fun key => is_word 8 (Key.Code key)) (buffered (vault k));
  ko_window : TextWindow.wf (TextWindow.windows (screen k) UserOutput);
  ko_shows : TextWindow.shows (TextWindow.windows (screen k) UserOutput) (TextWindow.cells (screen k)) t }.

Lemma exec_consistent pop A y e : sys_sim stack_owner pop A y -> enabled stack_owner pop e A -> may_panic e = false ->
  exists y', System.exec e y = Ok y' /\ sys_sim stack_owner pop (astep e A) y'.
Proof. intros HS He Hp. destruct (exec_refines stack_owner pop A y e HS He) as [?|[? _]]; [done|congruence]. Qed.

Lemma exec_exit core pop A y : sys_sim stack_owner pop A y -> caller core A ->
  exists y', System.exec (System.EExit core) y = Ok y' /\ sys_sim stack_owner pop (astep (System.EExit core) A) y'.
Proof. intros HS (Hc & Hr & _). by apply exec_consistent. Qed.

Lemma exec_yield core pop A y : sys_sim stack_owner pop A y -> caller core A ->
  exists y', System.exec (System.EResume core) y = Ok y' /\ sys_sim stack_owner pop (astep (System.EResume core) A) y'.
Proof. intros HS (Hc & Hr & _). by apply exec_consistent. Qed.

(** [P] on the semaphore of the keys. *)
Lemma exec_P core pop A y : sys_sim stack_owner pop A y -> caller core A ->
  exists y' A', System.exec (System.EP core KeysAvailable) y = Ok y' /\ sys_sim stack_owner pop A' y' /\
    (if Semaphore.m_Counter (System.sems y KeysAvailable) <=? 0
     then s_waits A' KeysAvailable = waiting A ++ [s_run A core]
     else s_waits A' KeysAvailable = waiting A /\ s_count A' KeysAvailable = s_count A KeysAvailable - 1 /\
          s_run A' core = s_run A core /\ caller core A').
Proof.
  intros HS Hcall. destruct (exec_consistent pop A y (System.EP core KeysAvailable) HS Hcall eq_refl) as (y' & HE & HS').
  exists y', (astep (System.EP core KeysAvailable) A). split_and!; [done|done|].
  rewrite (ss_count _ _ _ _ HS). cbn [astep]. destruct (Z.leb_spec (s_count A KeysAvailable) 0) as [Hle|Hgt].
  - rewrite (proj2 (Z.ltb_ge _ _) Hle). simpl. by rewrite upd_eq.
  - rewrite (proj2 (Z.ltb_lt _ _) Hgt). simpl. split_and!; [done|by rewrite upd_eq|done|done].
Qed.

(** What [GetKey] answers, and what it leaves behind. *)
Definition got_key (r : reply) A v A' v' core : Prop :=
  match r with
  | Returns x => exists key, buffered v = key :: buffered v' /\ x = packed key /\ waiting A' = waiting A
  | Blocked => buffered v' = buffered v /\ waiting A' = waiting A ++ [s_run A core]
  | Ended => False
  end.

Lemma GetKey_resume_ok fuel core pop A v :
  sys_sim stack_owner pop A (system v) -> caller core A -> RingBuffer.wf KEYS (Keys v) ->
  (Z.to_nat (s_count A KeysAvailable) < fuel)%nat ->
  exists r v' A', GetKey_resume fuel core v = Ok (r, v') /\ sys_sim stack_owner pop A' (system v') /\
    RingBuffer.wf KEYS (Keys v') /\ got_key r A v A' v' core /\ (r = Blocked -> buffered v = []) /\
    ps2 v' = ps2 v.
Proof.
  revert A v. induction fuel as [|fuel IH]; intros A v HS Hcall Hk Hf; [lia|]. cbn [GetKey_resume].
  pose proof (RingBuffer.Consume_cases KEYS Delivery.key_capacity _ Hk) as HC.
  destruct (buffered v) as [|key l] eqn:E.
  2: { destruct HC as (b' & -> & Hw & Hl). exists (Returns (packed key)), (with_keys v b'), A. split_and!; try done.
       exists key. cbn [Keys with_keys]. by rewrite Hl. }
  rewrite HC. replace (with_keys v (Keys v)) with v by (by destruct v).
  destruct (exec_P core pop A (system v) HS Hcall) as (y' & A' & -> & HS' & Hcase). cbn [obind].
  destruct (_ <=? 0) eqn:Ew.
  - exists Blocked, (with_system v y'), A'. split_and!; try done.
  - destruct Hcase as (Hwait & Hcnt & Hrun & Hcall'). rewrite (ss_count _ _ _ _ HS) in Ew.
    destruct (IH A' (with_system v y') HS' Hcall' Hk ltac:(lia)) as (r & v' & A'' & -> & HS'' & Hw'' & Hg & Hb & Hp).
    exists r, v', A''. split_and!; try done. unfold got_key in *. cbn [Keys with_system] in Hg. rewrite E in Hg.
    destruct r as [x| |]; [|destruct Hg as [-> ->]; by rewrite Hwait, Hrun, E|done].
    destruct Hg as (key & Hk' & _). done.
Qed.

Lemma GetKey_ok own pop A t k core :
  kernel_ok own pop A t k -> caller core A ->
  exists r k' A', GetKey core k = Ok (r, k') /\ kernel_ok own pop A' t k' /\
    match r with
    | Returns x => exists key, buffered (vault k) = key :: buffered (vault k') /\ waiting A' = waiting A /\
        hk_key_code x = Key.Code key /\ hk_key_ascii x = Key.Ascii key /\ hk_key_modifiers x = ModifiersOf key /\
        hk_failed x = false
    | Blocked => buffered (vault k') = buffered (vault k) /\ waiting A' = waiting A ++ [s_run A core] /\
        (0 < s_count A KeysAvailable -> buffered (vault k) = [])
    | Ended => False
    end.
Proof.
  intros [Ht HS Hk Hcodes Hw Hs] Hcall. unfold GetKey. cbv zeta.
  destruct (exec_P core pop A _ HS Hcall) as (y & A1 & -> & HS1 & Hcase). cbn [obind].
  rewrite (ss_count _ _ _ _ HS) in *. destruct (Z.leb_spec (s_count A KeysAvailable) 0) as [Hle|Hgt].
  - exists Blocked, (with_vault k (with_system (vault k) y)), A1. split_and!; [done|by split|done|done|lia].
  - destruct Hcase as (Hwait & Hcnt & Hrun & Hcall1).
    destruct (GetKey_resume_ok (GetKey_rounds (vault k)) core pop A1 (with_system (vault k) y) HS1 Hcall1 Hk)
      as (r & v' & A2 & -> & HS2 & Hk2 & Hg & Hb & Hps).
    { unfold GetKey_rounds. rewrite (ss_count _ _ _ _ HS). lia. }
    cbn [obind]. exists r, (with_vault k v'), A2. split; [done|]. unfold got_key in Hg. cbn [Keys with_system] in Hg.
    destruct r as [x| |]; [| |done].
    + destruct Hg as (key & E & -> & Hw2). rewrite E in Hcodes. apply Forall_cons in Hcodes as [Hc Hcodes].
      split; [by split|]. exists key.
      destruct (key_pack_bytes (Key.Code key) (Key.Ascii key) (ModifiersOf key) Hc (Ascii_word key) (ModifiersOf_word key))
        as (Hc1 & Hc2 & Hc3). split_and!; [done|congruence|done|done|done|].
      unfold hk_failed, packed, hk_key_pack. apply Z.ltb_ge. apply wrap_range; lia.
    + destruct Hg as [E Hw2]. split; [split; try done; cbn [vault with_vault]; by rewrite E|].
      split_and!; [done|congruence|]. intros _. by apply Hb.
Qed.

(** [GetKey] hands out keys in the order they were typed.  It always returns to the
    scheduler: either with the oldest key of the buffer, which it removes, packed so that
    ring 3 reads back its code, its character and its modifiers; or blocked, with the
    calling thread last in the queue for keys and the buffer untouched; it does not block
    while the semaphore counts and the buffer holds a key.  The scheduler and the
    semaphores stay consistent. *)
Theorem get_key_hands_out_oldest own pop A t k core :
  kernel_ok own pop A t k -> caller core A ->
  exists r k' A', GetKey core k = Ok (r, k') /\ kernel_ok own pop A' t k' /\
    match r with
    | Returns x => exists key, buffered (vault k) = key :: buffered (vault k') /\ waiting A' = waiting A /\
        hk_key_code x = Key.Code key /\ hk_key_ascii x = Key.Ascii key /\ hk_key_modifiers x = ModifiersOf key /\
        hk_failed x = false
    | Blocked => buffered (vault k') = buffered (vault k) /\ waiting A' = waiting A ++ [s_run A core] /\
        (0 < s_count A KeysAvailable -> buffered (vault k) = [])
    | Ended => False
    end.
Proof. apply GetKey_ok. Qed.

(** ** [Write] *)

Lemma Write_ok own pop A t k stack handle buf len :
  kernel_ok own pop A t k -> is_word 64 buf -> is_word 64 len -> HK_WRITE_MAX < Z.of_nat (length stack) ->
  let n := Z.min len HK_WRITE_MAX in
  let w := TextWindow.windows (screen k) UserOutput in
  let readable := n = 0 \/ (HK_USER_MIN <= buf /\ buf + n <= HK_USER_MAX /\
                    forall a, buf <= a < buf + n -> Paging.IsUserReadable (memory_ k) a = true) in
  (handle <> HK_STDOUT -> Write stack handle buf len k = Ok (Returns (- error_value HK_EBADF), k)) /\
  (handle = HK_STDOUT -> ~ readable -> Write stack handle buf len k = Ok (Returns (- error_value HK_EFAULT), k)) /\
  (handle = HK_STDOUT -> readable ->
     let text := text_of ((fun i => User.user_byte (memory_ k) (buf + Z.of_nat i)) <$> seq 0 (Z.to_nat n)) in
     let t' := TextWindow.terminal_print (TextWindow.GetWidth w) (TextWindow.GetHeight w) Cga.DefaultAttribute text t in
     exists k', Write stack handle buf len k = Ok (Returns (Z.of_nat (length text)), k') /\
       kernel_ok own pop A t' k' /\ TextWindow.confined w (TextWindow.cells (screen k)) (TextWindow.cells (screen k')) /\
       (forall o, o <> UserOutput -> TextWindow.windows (screen k') o = TextWindow.windows (screen k) o) /\
       memory_ k' = memory_ k /\ TextWindow.same_place w (TextWindow.windows (screen k') UserOutput)).
Proof.
  intros [Ht HS Hk Hcodes Hw Hs] Hbuf Hlen Hst n w readable. unfold Write. split_and!.
  { intros Hh. by rewrite (proj2 (Z.eqb_neq _ _) Hh). }
  all: intros ->; rewrite Z.eqb_refl; cbn [negb]; rewrite Math.Min_min; fold n.
  all: assert (Hn : is_word 64 n) by (unfold is_word, n, HK_WRITE_MAX in *; lia).
  all: destruct (CopyIn_ok own (memory_ k) buf n Ht Hbuf Hn) as (r & -> & Hr & Hbytes); cbn [obind]; fold readable in Hr.
  { intros Hnr. destruct r; [|done]. exfalso. by apply Hnr, Hr. }
  intros Hrd. destruct r as [bytes|]; [|by apply Hr in Hrd]. cbv zeta. rewrite written_loop_text.
  assert (E : (fun i => User.user_byte (memory_ k) (buf + Z.of_nat i)) <$> seq 0 (Z.to_nat n) = bytes).
  { destruct (Hbytes bytes eq_refl) as [Hl Hi]. apply list_eq. intros i. rewrite list_lookup_fmap.
    destruct (decide (i < Z.to_nat n)%nat) as [Hlt|Hge].
    - rewrite lookup_seq_lt by lia. simpl. rewrite <- (Nat2Z.id i) at 2. by rewrite Hi by lia.
    - rewrite lookup_seq_ge by lia. symmetry. apply lookup_ge_None. lia. }
  rewrite E. destruct (Hbytes bytes eq_refl) as [Hl _]. unfold is_word in Hn.
  destruct (text_of_split bytes (drop (length bytes) stack)) as (z & rest & Esplit).
  { intros E0. apply (f_equal length) in E0. rewrite length_drop in E0. simpl in E0.
    assert (n <= HK_WRITE_MAX) by (unfold n; lia). lia. }
  unfold TextWindow.Print. rewrite Esplit. pose proof (text_of_length bytes).
  destruct (TextWindow.Print_loop_ok (text_of bytes) z rest Cga.DefaultAttribute w (TextWindow.cells (screen k)) t Hw Hs
    (text_of_printable _)) as (w' & b' & EP & Hw' & Hpl & Hs' & Hc'); [lia|].
  cbn [TextWindow.windows TextWindow.cells display_of]. fold w. rewrite EP. cbn [obind].
  destruct (TextStream.SetPosition_ok UserOutput w' b' (display_of k)) as (Hcells & Hwin & Hoth).
  eexists. split; [reflexivity|]. cbn [screen with_display vault]. split_and!.
  - split; try done; cbn [screen with_display memory_ vault]; rewrite ?Hwin, ?Hcells; done.
  - by rewrite Hcells.
  - intros o Ho. by rewrite Hoth.
  - done.
  - by rewrite Hwin.
Qed.

(** The bytes of a user's buffer, as far as [Write] looks. *)
Definition user_text k buf len : list Z :=
  text_of ((fun i => User.user_byte (memory_ k) (buf + Z.of_nat i)) <$> seq 0 (Z.to_nat (Z.min len HK_WRITE_MAX))).

(** Ring 3 may read the first [min len HK_WRITE_MAX] bytes at [buf]. *)
Definition readable k buf len : Prop :=
  let n := Z.min len HK_WRITE_MAX in
  n = 0 \/ (HK_USER_MIN <= buf /\ buf + n <= HK_USER_MAX /\
            forall a, buf <= a < buf + n -> Paging.IsUserReadable (memory_ k) a = true).

(** [Write] on the standard output prints exactly the user's text: with a readable
    buffer it returns the number of bytes in front of the first null byte (at most
    1024), and the user's window then shows what a terminal of its size shows after
    printing those bytes, with no cell outside the window and no other window changed. *)
Theorem write_prints_user_text own pop A t k stack buf len :
  kernel_ok own pop A t k -> is_word 64 buf -> is_word 64 len -> HK_WRITE_MAX < Z.of_nat (length stack) ->
  readable k buf len ->
  let w := TextWindow.windows (screen k) UserOutput in
  let text := user_text k buf len in
  exists k', Write stack HK_STDOUT buf len k = Ok (Returns (Z.of_nat (length text)), k') /\
    kernel_ok own pop A (TextWindow.terminal_print (TextWindow.GetWidth w) (TextWindow.GetHeight w)
                           Cga.DefaultAttribute text t) k' /\
    TextWindow.confined w (TextWindow.cells (screen k)) (TextWindow.cells (screen k')) /\
    (forall o, o <> UserOutput -> TextWindow.windows (screen k') o = TextWindow.windows (screen k) o) /\
    memory_ k' = memory_ k /\ TextWindow.same_place w (TextWindow.windows (screen k') UserOutput).
Proof.
  intros Hk Hb Hl Hst Hr. destruct (Write_ok own pop A t k stack HK_STDOUT buf len Hk Hb Hl Hst) as (_ & _ & H).
  by apply H.
Qed.

Lemma user_text_length k buf len : 0 <= Z.of_nat (length (user_text k buf len)) <= HK_WRITE_MAX.
Proof.
  unfold user_text. pose proof (text_of_length
    ((fun i => User.user_byte (memory_ k) (buf + Z.of_nat i)) <$> seq 0 (Z.to_nat (Z.min len HK_WRITE_MAX)))) as H.
  rewrite length_fmap, length_seq in H. unfold HK_WRITE_MAX in *. lia.
Qed.

Lemma readable_or_not own k buf len : tree own (memory_ k) -> is_word 64 buf -> is_word 64 len ->
  readable k buf len \/ ~ readable k buf len.
Proof.
  intros Ht Hb Hl. destruct (CopyIn_ok own (memory_ k) buf (Z.min len HK_WRITE_MAX) Ht Hb) as (r & _ & Hr & _).
  { unfold is_word, HK_WRITE_MAX in *. lia. }
  unfold readable. cbv zeta. rewrite <- Hr. destruct r; [by left|right; tauto].
Qed.

(** Why a call is refused, in the order the checks are made. *)
Inductive refused k : Z -> Z -> Z -> Z -> hk_error -> Prop :=
| refused_number n a1 a2 a3 : HK_SYS_COUNT <= n -> refused k n a1 a2 a3 HK_ENOSYS
| refused_exit a1 a2 a3 : a2 <> 0 \/ a3 <> 0 -> refused k 0 a1 a2 a3 HK_EINVAL
| refused_none n a1 a2 a3 : n = 2 \/ n = 3 -> a1 <> 0 \/ a2 <> 0 \/ a3 <> 0 -> refused k n a1 a2 a3 HK_EINVAL
| refused_handle a1 a2 a3 : a1 <> HK_STDOUT -> refused k 1 a1 a2 a3 HK_EBADF
| refused_buffer a2 a3 : ~ readable k a2 a3 -> refused k 1 HK_STDOUT a2 a3 HK_EFAULT.

(** The answer and state of a dispatched call: an error exactly when it is refused. *)
Definition verdict own pop k n a1 a2 a3 (r : reply) k' : Prop :=
  (forall e, refused k n a1 a2 a3 e -> r = Returns (- error_value e) /\ k' = k) /\
  (forall x, r = Returns x -> hk_failed x = true -> exists e, refused k n a1 a2 a3 e /\ x = - error_value e) /\
  (exists A' t', kernel_ok own pop A' t' k') /\
  (r = Ended <-> n = 0 /\ a2 = 0 /\ a3 = 0).

Lemma verdict_refused own pop A t k n a1 a2 a3 e : kernel_ok own pop A t k -> 0 <= n ->
  refused k n a1 a2 a3 e -> verdict own pop k n a1 a2 a3 (Returns (- error_value e)) k.
Proof.
  intros Hk Hn He. split_and!; [| |by eauto|].
  - intros e' He'. split; [|done]. do 2 f_equal.
    inversion He; subst; inversion He'; subst; try done; unfold HK_SYS_COUNT in *; lia.
  - intros x [= <-] _. eauto.
  - split; [done|]. intros (-> & -> & ->). inversion He; subst; unfold HK_SYS_COUNT in *; lia.
Qed.

Lemma verdict_served own pop A' t' k n a1 a2 a3 r k' :
  (forall e, ~ refused k n a1 a2 a3 e) -> kernel_ok own pop A' t' k' ->
  (forall x, r = Returns x -> 0 <= x) -> (r = Ended <-> n = 0 /\ a2 = 0 /\ a3 = 0) ->
  verdict own pop k n a1 a2 a3 r k'.
Proof.
  intros Hr Hk Hx He. split_and!; [by intros e ?%Hr| |by eauto|done].
  intros x Er Hf. specialize (Hx x Er). unfold hk_failed in Hf. lia.
Qed.

(** The four entries of the table, behind the check of the reserved arguments. *)
Definition served (own : Z -> option (nat * Z)) pop k n a1 a2 a3 (call : outcome (reply * kernel K D F)) : Prop :=
  exists r k', call = Ok (r, k') /\ verdict own pop k n a1 a2 a3 r k'.

Lemma exit_arguments k a1 a2 a3 :
  if ReservedAreZero {| Call := H_Exit; Arity := 1 |} a1 a2 a3
  then a2 = 0 /\ a3 = 0 else refused k 0 a1 a2 a3 HK_EINVAL.
Proof.
  change (ReservedAreZero _ _ _ _) with ((a2 =? 0) && ((a3 =? 0) && true)).
  destruct (Z.eqb_spec a2 0), (Z.eqb_spec a3 0); cbn; [done|apply refused_exit; auto..].
Qed.

Lemma served_exit own pop A t k core a1 a2 a3 : kernel_ok own pop A t k -> caller core A ->
  served own pop k 0 a1 a2 a3
    (if negb (ReservedAreZero {| Call := H_Exit; Arity := 1 |} a1 a2 a3)
     then Ok (Returns (- error_value HK_EINVAL), k) else Exit core a1 k).
Proof.
  intros Hk Hcall. pose proof Hk as [Ht HS Hkeys Hcodes Hw Hs].
  pose proof (exit_arguments k a1 a2 a3) as HR. destruct (ReservedAreZero _ _ _ _); cbn [negb].
  - destruct HR as [-> ->]. unfold Exit, Terminate.
    destruct (exec_exit core pop A _ HS Hcall) as (y & -> & HS'). cbn [obind]. eexists _, _. split; [done|].
    eapply (verdict_served own pop (astep (System.EExit core) A) t); [|by split|done|done].
    intros e He. inversion He; subst; unfold HK_SYS_COUNT in *; lia.
  - eexists _, k. split; [done|]. eapply verdict_refused; [done|lia|done].
Qed.

Lemma served_write own pop A t k stack a1 a2 a3 : kernel_ok own pop A t k ->
  HK_WRITE_MAX < Z.of_nat (length stack) -> is_word 64 a2 -> is_word 64 a3 ->
  served own pop k 1 a1 a2 a3
    (if negb (ReservedAreZero {| Call := H_Write; Arity := 3 |} a1 a2 a3)
     then Ok (Returns (- error_value HK_EINVAL), k) else Write stack a1 a2 a3 k).
Proof.
  intros Hk Hst H2 H3. change (negb _) with false. cbv iota. destruct (Write_ok own pop A t k stack a1 a2 a3 Hk H2 H3 Hst) as (Hh & Hf & Hok).
  destruct (Z.eq_dec a1 HK_STDOUT) as [->|Hne].
  2: { rewrite Hh by done. eexists _, k. split; [done|]. eapply verdict_refused; [done|lia|by constructor]. }
  fold (readable k a2 a3) in Hf, Hok.
  destruct (readable_or_not own k a2 a3 (ko_tree _ _ _ _ _ Hk) H2 H3) as [Hr|Hr].
  - destruct (Hok eq_refl Hr) as (k' & -> & Hk' & _). eexists _, k'. split; [done|].
    eapply verdict_served; [|exact Hk'|intros x [= <-]; lia|split; [done|lia]].
    intros e He. inversion He; subst; unfold HK_SYS_COUNT in *; try lia; done.
  - rewrite Hf by done. eexists _, k. split; [done|]. eapply verdict_refused; [done|lia|by constructor].
Qed.

(** Calls without arguments. *)
Lemma no_arguments h k n a1 a2 a3 : n = 2 \/ n = 3 ->
  if ReservedAreZero {| Call := h; Arity := 0 |} a1 a2 a3
  then (forall e, ~ refused k n a1 a2 a3 e) else refused k n a1 a2 a3 HK_EINVAL.
Proof.
  intros Hn. change (ReservedAreZero _ _ _ _) with ((a1 =? 0) && ((a2 =? 0) && ((a3 =? 0) && true))).
  destruct (Z.eqb_spec a1 0), (Z.eqb_spec a2 0), (Z.eqb_spec a3 0); cbn; try (apply refused_none; auto; fail).
  intros err He. inversion He; subst; unfold HK_SYS_COUNT in *; lia.
Qed.

Lemma served_yield own pop A t k core a1 a2 a3 : kernel_ok own pop A t k -> caller core A ->
  served own pop k 2 a1 a2 a3
    (if negb (ReservedAreZero {| Call := H_Yield; Arity := 0 |} a1 a2 a3)
     then Ok (Returns (- error_value HK_EINVAL), k) else Yield core k).
Proof.
  intros Hk Hcall. pose proof Hk as [Ht HS Hkeys Hcodes Hw Hs].
  pose proof (no_arguments H_Yield k 2 a1 a2 a3 (or_introl eq_refl)) as HR. destruct (ReservedAreZero _ _ _ _); cbn [negb].
  - unfold Yield. destruct (exec_yield core pop A _ HS Hcall) as (y & -> & HS'). cbn [obind].
    eexists _, _. split; [done|].
    eapply (verdict_served own pop (astep (System.EResume core) A) t); [done|by split|intros x [= <-]; lia|].
    split; [done|lia].
  - eexists _, k. split; [done|]. eapply verdict_refused; [done|lia|done].
Qed.

Lemma served_get_key own pop A t k core a1 a2 a3 : kernel_ok own pop A t k -> caller core A ->
  served own pop k 3 a1 a2 a3
    (if negb (ReservedAreZero {| Call := H_GetKey; Arity := 0 |} a1 a2 a3)
     then Ok (Returns (- error_value HK_EINVAL), k) else GetKey core k).
Proof.
  intros Hk Hcall.
  pose proof (no_arguments H_GetKey k 3 a1 a2 a3 (or_intror eq_refl)) as HR. destruct (ReservedAreZero _ _ _ _); cbn [negb].
  - destruct (GetKey_ok own pop A t k core Hk Hcall) as (r & k' & A' & -> & Hk' & Hr). eexists r, k'. split; [done|].
    eapply verdict_served; [done|exact Hk'| |].
    + intros x ->. destruct Hr as (? & _ & _ & _ & _ & _ & Hx). unfold hk_failed in Hx. lia.
    + split; [by intros ->|lia].
  - eexists _, k. split; [done|]. eapply verdict_refused; [done|lia|done].
Qed.

(** C16: Every system call comes back with the answer its specification gives.  For any
    call number and arguments the dispatcher returns; a call is refused with
    [HK_ENOSYS], [HK_EINVAL], [HK_EBADF] or [HK_EFAULT] exactly for the reason that code
    stands for, a refused call changes nothing at all, every other call that returns
    answers a value that is not negative, the task ends exactly with a well-formed
    [Exit], and the kernel state stays consistent. *)
Theorem syscall_errors_exact own pop A t k stack core n a1 a2 a3 :
  kernel_ok own pop A t k -> caller core A -> HK_WRITE_MAX < Z.of_nat (length stack) ->
  is_word 64 n -> is_word 64 a1 -> is_word 64 a2 -> is_word 64 a3 ->
  exists r k', SyscallDispatch stack core n a1 a2 a3 k = Ok (r, k') /\ verdict own pop k n a1 a2 a3 r k'.
Proof.
  intros Hk Hcall Hst Hn H1 H2 H3. pose proof Hk as [Ht HS Hkeys Hcodes Hw Hs]. unfold SyscallDispatch.
  change (Z.of_nat (length TABLE)) with 4. unfold is_word in Hn.
  destruct (Z.leb_spec 4 n) as [Hge|Hlt].
  { eexists _, k. split; [done|]. eapply verdict_refused; [done|lia|by constructor]. }
  assert (Hcase : n = 0 \/ n = 1 \/ n = 2 \/ n = 3) by lia. destruct Hcase as [->|[->|[->| ->]]]; cbn [lookup TABLE].
  - by apply (served_exit own pop A t).
  - by apply (served_write own pop A t).
  - by apply (served_yield own pop A t).
  - by apply (served_get_key own pop A t).
Qed.

End Spec.

(** ** Witnesses

    The user's page of [small_mapped] holds the text "Hi"; thread 0x200 calls from core 1. *)

#[local] Existing Instances demo_machine demo_code checked_build FrameSpec.debug_build.

#[local] Instance quiet_hardware : Hardware unit := {
  port_in w p d := (0, d); port_out w p v d := d; mmio_read a d := (0, d); mmio_write a v d := d }.

Definition note_memory : mem :=
  store8 (store8 (Paging.memory small_mapped) (Paging.ToVirtual 0x7000) 72) (Paging.ToVirtual 0x7000 + 1) 105.
Definition note_tables : Paging.t Frame.Frame.t :=
  Paging.with_table small_mapped note_memory (Paging.frames small_mapped) (Paging.s_TableCount small_mapped).

Lemma mapped_tree ok p : Paging.Map 0x400000 0x7000 100 Paging.READ_WRITE Paging.USER_ Paging.NORMAL small_tables = Ok (ok, p) ->
  exists own, tree own p.
Proof.
  intros HM. destruct (Map_ok small_own small_tables 0x400000 0x7000 100 Paging.READ_WRITE Paging.USER_ Paging.NORMAL
    (proj1 small_tables_tree) small_range) as (ok' & s & HM' & [(own & Ht & _) _ _ _ _]).
  rewrite HM in HM'. injection HM' as <- <-. by exists own.
Qed.

Lemma note_tree : exists own, tree own note_tables.
Proof.
  destruct (mapped_tree _ _ small_mapped_ok) as [own Ht]. exists own.
  apply (tree_data own small_mapped note_memory); [exact Ht| |exact (tr_frames _ _ Ht)|intros q Hq; exact Hq].
  apply (run_same_tables own small_mapped 0x7000 1); [exact Ht|lia|reflexivity|lia|lia| |].
  - intros q [Hm Hr]. replace q with 0x7000.
    + split; [reflexivity|]. split; vm_compute; [split; (discriminate || reflexivity)|reflexivity].
    + pose proof (Z.div_mod q 4096 ltac:(lia)). lia.
  - intros a Ha. unfold note_memory. rewrite !load8_store8_ne by (intros ->; apply Ha; vm_compute; split; (discriminate || reflexivity)). reflexivity.
Qed.

Definition user_window : TextWindow.window :=
  {| TextWindow.m_FromColumn := 0; TextWindow.m_ToColumn := 80; TextWindow.m_FromRow := 17; TextWindow.m_ToRow := 25;
     TextWindow.m_CursorColumn := 0; TextWindow.m_CursorRow := 0; TextWindow.m_IsActive := false |}.
Definition blank_terminal : TextWindow.terminal :=
  {| TextWindow.grid := fun _ _ => Cga.Blank; TextWindow.column := 0; TextWindow.row := 0 |}.

Definition demo_kernel : kernel Z unit Frame.Frame.t :=
  {| memory_ := note_tables;
     vault := {| system := demo_y4;
                 ps2 := {| Ps2.device := tt; Ps2.s_Decoder := KeyDecoder.Fresh; Ps2.s_Leds := 0;
                           Ps2.s_RawBytes := RingBuffer.Empty Ps2.RAW_SIZE |};
                 Keys := RingBuffer.Empty KEYS; nmi_disabled := false |};
     screen := {| TextWindow.cells := fun _ => Cga.Blank; TextWindow.crtc := tt;
                  TextWindow.windows := fun _ => user_window; TextWindow.s_ActiveWindow := 0 |};
     termination := User.NoTermination |}.

Lemma demo_kernel_ok : exists own, kernel_ok demo_owner own demo_pop demo_A4 blank_terminal demo_kernel.
Proof.
  destruct note_tree as [own Ht]. exists own. split; [exact Ht|exact demo_sim4| | | |].
  - split; vm_compute; try reflexivity; split; (discriminate || reflexivity).
  - vm_compute. constructor.
  - split; vm_compute; split_and!; (discriminate || reflexivity).
  - split; [intros x y _ _; unfold Cga.Get; by case_match|reflexivity|reflexivity].
Qed.

Lemma demo_caller : caller 1 demo_A4.
Proof. split; [apply demo_core; lia|]. split; [vm_compute; discriminate|exact (proj2 demo_not_idle)]. Qed.

Definition demo_stack : list Z := replicate 2000 0xcc.

Lemma demo_readable : readable demo_kernel 0x400000 100.
Proof.
  right. change (Z.min 100 HK_WRITE_MAX) with 100. split; [vm_compute; discriminate|]. split; [vm_compute; discriminate|].
  intros a Ha. destruct note_tree as [own Ht]. change (memory_ demo_kernel) with note_tables.
  rewrite (IsUserReadable_page own note_tables a 0x400000 Ht); [vm_compute; reflexivity|lia|lia|].
  pose proof (Z.div_mod a 4096). pose proof (Z.mod_pos_bound a 4096). change (0x400000 / 4096) with 1024. lia.
Qed.

Lemma write_prints_user_text_witness :
  user_text demo_kernel 0x400000 100 = [72; 105] /\
  exists k', Write demo_stack HK_STDOUT 0x400000 100 demo_kernel = Ok (Returns 2, k').
Proof.
  assert (E : user_text demo_kernel 0x400000 100 = [72; 105]) by (vm_compute; reflexivity).
  split; [exact E|]. destruct demo_kernel_ok as [own Hk].
  destruct (write_prints_user_text demo_owner own demo_pop demo_A4 blank_terminal demo_kernel demo_stack 0x400000 100)
    as (k' & HW & _).
  - exact Hk.
  - split; reflexivity || discriminate.
  - split; reflexivity || discriminate.
  - vm_compute. reflexivity.
  - exact demo_readable.
  - exists k'. rewrite E in HW. exact HW.
Defined.

Lemma get_key_hands_out_oldest_witness :
  exists k', GetKey 1 demo_kernel = Ok (Blocked, k').
Proof.
  destruct demo_kernel_ok as [own Hk].
  destruct (get_key_hands_out_oldest demo_owner own demo_pop demo_A4 blank_terminal demo_kernel 1 Hk demo_caller)
    as (r & k' & A' & HG & _ & Hr).
  exists k'. rewrite HG. destruct r as [x| |]; [|reflexivity|destruct Hr].
  destruct Hr as (key & E & _). vm_compute in E. discriminate E.
Defined.

Lemma syscall_errors_exact_witness :
  exists r k', SyscallDispatch demo_stack 1 7 0 0 0 demo_kernel = Ok (r, k') /\ r = Returns (-2).
Proof.
  destruct demo_kernel_ok as [own Hk].
  destruct (syscall_errors_exact demo_owner own demo_pop demo_A4 blank_terminal demo_kernel demo_stack 1 7 0 0 0 Hk demo_caller)
    as (r & k' & HD & HV & _).
  - vm_compute. reflexivity.
  - split; reflexivity || discriminate.
  - split; reflexivity || discriminate.
  - split; reflexivity || discriminate.
  - split; reflexivity || discriminate.
  - exists r, k'. split; [exact HD|]. apply (HV HK_ENOSYS). apply refused_number. vm_compute. discriminate.
Defined.

(** With nothing but the array behind the pointer, a write that fills it makes [Print]
    read one byte past its end. *)
Lemma full_write_overruns w b : 
  TextWindow.Print_loop (replicate (Z.to_nat HK_WRITE_MAX) 65) Cga.DefaultAttribute HK_WRITE_MAX w b = Fault "InText".
Proof.
  assert (H : forall n w b, Z.of_nat n < 2 ^ 64 ->
    TextWindow.Print_loop (replicate n 65) Cga.DefaultAttribute (Z.of_nat n) w b = Fault "InText").
  { clear. intros n. induction n as [|n IH]; intros w b Hn; [done|]. cbn [replicate TextWindow.Print_loop].
    change (65 =? 0) with false. rewrite (proj2 (Z.ltb_lt 0 (Z.of_nat (S n)))) by lia. cbn [negb andb].
    destruct (TextWindow.PrintChar _ _ _ _) as [w' b']. rewrite wrap_small by (unfold is_word; lia).
    replace (Z.of_nat (S n) - 1) with (Z.of_nat n) by lia. apply IH. lia. }
  apply (H 1024%nat). lia.
Qed.
