(* ===== verification/UserLib.v ===== *)
(** * ABI/C/HK.h and ABI/C/HK.c: the library user programs link

    The scan codes and key accessors ring 3 sees, and the wrappers over [syscall].  The
    instruction is modelled by the kernel's dispatcher; a call that blocks or ends the
    task has no result in this thread yet. *)

From S2P Require Import Prelude Mem Queue Config RingBuffer FrameInterface Paging PagingSpec.
From S2P Require Import Context Sched SchedSpec Sync SyncSpec SystemSpec Device Keyboard Ps2 Screen.
From S2P Require Import User UserSpec Epilogues Syscall SyscallSpec.
Import Abi Syscall.

Module HK.

Inductive hk_scancode :=
| HK_KEY_INVALID | HK_KEY_ESCAPE | HK_KEY_DIGIT_1 | HK_KEY_DIGIT_2 | HK_KEY_DIGIT_3
| HK_KEY_DIGIT_4 | HK_KEY_DIGIT_5 | HK_KEY_DIGIT_6 | HK_KEY_DIGIT_7 | HK_KEY_DIGIT_8
| HK_KEY_DIGIT_9 | HK_KEY_DIGIT_0 | HK_KEY_MINUS | HK_KEY_EQUAL | HK_KEY_BACKSPACE | HK_KEY_TAB
| HK_KEY_Q | HK_KEY_W | HK_KEY_E | HK_KEY_R | HK_KEY_T | HK_KEY_Y | HK_KEY_U | HK_KEY_I | HK_KEY_O
| HK_KEY_P | HK_KEY_OPEN_BRACKET | HK_KEY_CLOSE_BRACKET | HK_KEY_ENTER | HK_KEY_LEFT_CTRL
| HK_KEY_A | HK_KEY_S | HK_KEY_D | HK_KEY_F | HK_KEY_G | HK_KEY_H | HK_KEY_J | HK_KEY_K | HK_KEY_L
| HK_KEY_SEMICOLON | HK_KEY_APOSTROPHE | HK_KEY_GRAVE | HK_KEY_LEFT_SHIFT | HK_KEY_BACKSLASH
| HK_KEY_Z | HK_KEY_X | HK_KEY_C | HK_KEY_V | HK_KEY_B | HK_KEY_N | HK_KEY_M | HK_KEY_COMMA
| HK_KEY_PERIOD | HK_KEY_SLASH | HK_KEY_RIGHT_SHIFT | HK_KEY_KP_STAR | HK_KEY_LEFT_ALT
| HK_KEY_SPACE | HK_KEY_CAPS_LOCK | HK_KEY_F1 | HK_KEY_F2 | HK_KEY_F3 | HK_KEY_F4 | HK_KEY_F5
| HK_KEY_F6 | HK_KEY_F7 | HK_KEY_F8 | HK_KEY_F9 | HK_KEY_F10 | HK_KEY_NUM_LOCK | HK_KEY_SCROLL_LOCK
| HK_KEY_KP_7 | HK_KEY_KP_8 | HK_KEY_KP_9 | HK_KEY_KP_MINUS | HK_KEY_KP_4 | HK_KEY_KP_5
| HK_KEY_KP_6 | HK_KEY_KP_PLUS | HK_KEY_KP_1 | HK_KEY_KP_2 | HK_KEY_KP_3 | HK_KEY_KP_0
| HK_KEY_KP_PERIOD | HK_KEY_SYSREQ | HK_KEY_EUROPE_2 | HK_KEY_F11 | HK_KEY_F12 | HK_KEY_KP_EQUAL
| HK_KEY_COUNT.
Definition hk_scancode_value (c : hk_scancode) : Z :=
  match c with
  | HK_KEY_INVALID => 0 | HK_KEY_ESCAPE => 1 | HK_KEY_DIGIT_1 => 2 | HK_KEY_DIGIT_2 => 3
  | HK_KEY_DIGIT_3 => 4 | HK_KEY_DIGIT_4 => 5 | HK_KEY_DIGIT_5 => 6 | HK_KEY_DIGIT_6 => 7
  | HK_KEY_DIGIT_7 => 8 | HK_KEY_DIGIT_8 => 9 | HK_KEY_DIGIT_9 => 10 | HK_KEY_DIGIT_0 => 11
  | HK_KEY_MINUS => 12 | HK_KEY_EQUAL => 13 | HK_KEY_BACKSPACE => 14 | HK_KEY_TAB => 15 | HK_KEY_Q => 16
  | HK_KEY_W => 17 | HK_KEY_E => 18 | HK_KEY_R => 19 | HK_KEY_T => 20 | HK_KEY_Y => 21 | HK_KEY_U => 22
  | HK_KEY_I => 23 | HK_KEY_O => 24 | HK_KEY_P => 25 | HK_KEY_OPEN_BRACKET => 26
  | HK_KEY_CLOSE_BRACKET => 27 | HK_KEY_ENTER => 28 | HK_KEY_LEFT_CTRL => 29 | HK_KEY_A => 30
  | HK_KEY_S => 31 | HK_KEY_D => 32 | HK_KEY_F => 33 | HK_KEY_G => 34 | HK_KEY_H => 35 | HK_KEY_J => 36
  | HK_KEY_K => 37 | HK_KEY_L => 38 | HK_KEY_SEMICOLON => 39 | HK_KEY_APOSTROPHE => 40
  | HK_KEY_GRAVE => 41 | HK_KEY_LEFT_SHIFT => 42 | HK_KEY_BACKSLASH => 43 | HK_KEY_Z => 44
  | HK_KEY_X => 45 | HK_KEY_C => 46 | HK_KEY_V => 47 | HK_KEY_B => 48 | HK_KEY_N => 49 | HK_KEY_M => 50
  | HK_KEY_COMMA => 51 | HK_KEY_PERIOD => 52 | HK_KEY_SLASH => 53 | HK_KEY_RIGHT_SHIFT => 54
  | HK_KEY_KP_STAR => 55 | HK_KEY_LEFT_ALT => 56 | HK_KEY_SPACE => 57 | HK_KEY_CAPS_LOCK => 58
  | HK_KEY_F1 => 59 | HK_KEY_F2 => 60 | HK_KEY_F3 => 61 | HK_KEY_F4 => 62 | HK_KEY_F5 => 63
  | HK_KEY_F6 => 64 | HK_KEY_F7 => 65 | HK_KEY_F8 => 66 | HK_KEY_F9 => 67 | HK_KEY_F10 => 68
  | HK_KEY_NUM_LOCK => 69 | HK_KEY_SCROLL_LOCK => 70 | HK_KEY_KP_7 => 71 | HK_KEY_KP_8 => 72
  | HK_KEY_KP_9 => 73 | HK_KEY_KP_MINUS => 74 | HK_KEY_KP_4 => 75 | HK_KEY_KP_5 => 76
  | HK_KEY_KP_6 => 77 | HK_KEY_KP_PLUS => 78 | HK_KEY_KP_1 => 79 | HK_KEY_KP_2 => 80 | HK_KEY_KP_3 => 81
  | HK_KEY_KP_0 => 82 | HK_KEY_KP_PERIOD => 83 | HK_KEY_SYSREQ => 84 | HK_KEY_EUROPE_2 => 85
  | HK_KEY_F11 => 86 | HK_KEY_F12 => 87 | HK_KEY_KP_EQUAL => 88 | HK_KEY_COUNT => 89
  end.

(** The enum of Kernel/Device/Key.h it has to equal. *)
Definition kernel_scancode (c : hk_scancode) : Key.ScanCode :=
  match c with
  | HK_KEY_INVALID => Key.INVALID | HK_KEY_ESCAPE => Key.ESCAPE | HK_KEY_DIGIT_1 => Key.DIGIT_1
  | HK_KEY_DIGIT_2 => Key.DIGIT_2 | HK_KEY_DIGIT_3 => Key.DIGIT_3 | HK_KEY_DIGIT_4 => Key.DIGIT_4
  | HK_KEY_DIGIT_5 => Key.DIGIT_5 | HK_KEY_DIGIT_6 => Key.DIGIT_6 | HK_KEY_DIGIT_7 => Key.DIGIT_7
  | HK_KEY_DIGIT_8 => Key.DIGIT_8 | HK_KEY_DIGIT_9 => Key.DIGIT_9 | HK_KEY_DIGIT_0 => Key.DIGIT_0
  | HK_KEY_MINUS => Key.MINUS | HK_KEY_EQUAL => Key.EQUAL | HK_KEY_BACKSPACE => Key.BACKSPACE
  | HK_KEY_TAB => Key.TAB | HK_KEY_Q => Key.Q_ | HK_KEY_W => Key.W_ | HK_KEY_E => Key.E_
  | HK_KEY_R => Key.R_ | HK_KEY_T => Key.T_ | HK_KEY_Y => Key.Y_ | HK_KEY_U => Key.U_
  | HK_KEY_I => Key.I_ | HK_KEY_O => Key.O_ | HK_KEY_P => Key.P_
  | HK_KEY_OPEN_BRACKET => Key.OPEN_BRACKET | HK_KEY_CLOSE_BRACKET => Key.CLOSE_BRACKET
  | HK_KEY_ENTER => Key.ENTER | HK_KEY_LEFT_CTRL => Key.LEFT_CTRL | HK_KEY_A => Key.A_
  | HK_KEY_S => Key.S_ | HK_KEY_D => Key.D_ | HK_KEY_F => Key.F_ | HK_KEY_G => Key.G_
  | HK_KEY_H => Key.H_ | HK_KEY_J => Key.J_ | HK_KEY_K => Key.K_ | HK_KEY_L => Key.L_
  | HK_KEY_SEMICOLON => Key.SEMICOLON | HK_KEY_APOSTROPHE => Key.APOSTROPHE | HK_KEY_GRAVE => Key.GRAVE
  | HK_KEY_LEFT_SHIFT => Key.LEFT_SHIFT | HK_KEY_BACKSLASH => Key.BACKSLASH | HK_KEY_Z => Key.Z_
  | HK_KEY_X => Key.X_ | HK_KEY_C => Key.C_ | HK_KEY_V => Key.V_ | HK_KEY_B => Key.B_
  | HK_KEY_N => Key.N_ | HK_KEY_M => Key.M_ | HK_KEY_COMMA => Key.COMMA | HK_KEY_PERIOD => Key.PERIOD
  | HK_KEY_SLASH => Key.SLASH | HK_KEY_RIGHT_SHIFT => Key.RIGHT_SHIFT | HK_KEY_KP_STAR => Key.KP_STAR
  | HK_KEY_LEFT_ALT => Key.LEFT_ALT | HK_KEY_SPACE => Key.SPACE | HK_KEY_CAPS_LOCK => Key.CAPS_LOCK
  | HK_KEY_F1 => Key.F1 | HK_KEY_F2 => Key.F2 | HK_KEY_F3 => Key.F3 | HK_KEY_F4 => Key.F4
  | HK_KEY_F5 => Key.F5 | HK_KEY_F6 => Key.F6 | HK_KEY_F7 => Key.F7 | HK_KEY_F8 => Key.F8
  | HK_KEY_F9 => Key.F9 | HK_KEY_F10 => Key.F10 | HK_KEY_NUM_LOCK => Key.NUM_LOCK
  | HK_KEY_SCROLL_LOCK => Key.SCROLL_LOCK | HK_KEY_KP_7 => Key.KP_7 | HK_KEY_KP_8 => Key.KP_8
  | HK_KEY_KP_9 => Key.KP_9 | HK_KEY_KP_MINUS => Key.KP_MINUS | HK_KEY_KP_4 => Key.KP_4
  | HK_KEY_KP_5 => Key.KP_5 | HK_KEY_KP_6 => Key.KP_6 | HK_KEY_KP_PLUS => Key.KP_PLUS
  | HK_KEY_KP_1 => Key.KP_1 | HK_KEY_KP_2 => Key.KP_2 | HK_KEY_KP_3 => Key.KP_3
  | HK_KEY_KP_0 => Key.KP_0 | HK_KEY_KP_PERIOD => Key.KP_PERIOD | HK_KEY_SYSREQ => Key.SYSREQ
  | HK_KEY_EUROPE_2 => Key.EUROPE_2 | HK_KEY_F11 => Key.F11 | HK_KEY_F12 => Key.F12
  | HK_KEY_KP_EQUAL => Key.KP_EQUAL | HK_KEY_COUNT => Key.COUNT
  end.

Lemma scancodes_agree c : hk_scancode_value c = Key.ToUnderlying (kernel_scancode c).
Proof. destruct c; reflexivity. Qed.

Definition HK_MOD_ALT : Z := Z.lor HK_MOD_ALT_LEFT HK_MOD_ALT_RIGHT.
Definition HK_MOD_CTRL : Z := Z.lor HK_MOD_CTRL_LEFT HK_MOD_CTRL_RIGHT.

(** [class Key], by its raw value. *)
Definition Code (m_Raw : Z) : Z := Z.land (Z.shiftr m_Raw 8) 0xff.
Definition Ascii (m_Raw : Z) : Z := to_signed 8 (Z.land m_Raw 0xff).
Definition Modifiers (m_Raw : Z) : Z := u8 (Z.land (Z.shiftr m_Raw 16) 0xff).
Definition Has (m_Raw InModifiers : Z) : bool := negb (Z.land (Modifiers m_Raw) InModifiers =? 0).
Definition Shift (m_Raw : Z) : bool := Has m_Raw HK_MOD_SHIFT.
Definition Alt (m_Raw : Z) : bool := Has m_Raw HK_MOD_ALT.
Definition Ctrl (m_Raw : Z) : bool := Has m_Raw HK_MOD_CTRL.
Definition IsValid (m_Raw : Z) : bool := negb (Code m_Raw =? hk_scancode_value HK_KEY_INVALID).
Definition IsPrintable (m_Raw : Z) : bool := (32 <=? Ascii m_Raw) && (Ascii m_Raw <? 0x7f).

(** Ring 3 sees the modifiers the kernel packed. *)
Lemma key_class_reads_packed key : is_word 8 (Key.Code key) ->
  Code (packed key) = Key.Code key /\ Shift (packed key) = Key.Shift key /\
  Alt (packed key) = Key.Alt key /\ Ctrl (packed key) = Key.Ctrl key.
Proof.
  intros Hc. destruct (key_pack_bytes (Key.Code key) (Key.Ascii key) (ModifiersOf key) Hc (Ascii_word key) (ModifiersOf_word key))
    as (H1 & _ & H3). unfold hk_key_code, hk_key_modifiers in *.
  assert (Hb : forall x, u8 (Z.land x 0xff) = Z.land x 0xff).
  { intros x. apply (wrap_small 8). change 0xff with (Z.ones 8). rewrite Z.land_ones by lia. apply Z.mod_pos_bound. lia. }
  unfold packed. split; [unfold Code; by rewrite <- Hb|]. unfold Shift, Alt, Ctrl, Has, Modifiers. rewrite H3.
  destruct key as [c s al ar cl cr cp nm sc]. destruct s, al, ar, cl, cr, cp, nm, sc; split_and!; reflexivity.
Qed.

Section Calls.
Context {K : Type} {SA : StackAllocator K} {BB : Build} {CC : Context.Code} {MM : Machine}.
Context {D : Type} {HW : Hardware D} {F : Type} {FA : FrameAllocator F}.
(** The core the program runs on and the kernel stack the calls find. *)
Variables (core : Z) (stack : list Z).
Implicit Types k : kernel K D F.

(** [None] when the call has not come back. *)
Definition hk_syscall (InNumber InArg1 InArg2 InArg3 : Z) k : outcome (option Z * kernel K D F) :=
  let* (r, k) := SyscallDispatch stack core InNumber InArg1 InArg2 InArg3 k in
  Ok (match r with Returns x => Some x | _ => None end, k).

Definition hk_exit (InStatus : Z) k := hk_syscall 0 (u64 (u32 InStatus)) 0 0 k.
Definition hk_write (InHandle InBuffer InLength : Z) k := hk_syscall 1 InHandle InBuffer InLength k.
Definition hk_yield k := hk_syscall 2 0 0 0 k.

(** [OutKey] is written unless null or failed. *)
Definition hk_get_key k : outcome (option (Z * option Z) * kernel K D F) :=
  let* (r, k) := hk_syscall 3 0 0 0 k in
  Ok (match r with
      | Some result => Some (result, if result <? 0 then None else Some (u32 result))
      | None => None
      end, k).

(** Every round advances, so [InLength] rounds and one more are enough. *)
Fixpoint hk_write_all_loop (fuel : nat) (InHandle InBuffer InLength written : Z) k : outcome (option Z * kernel K D F) :=
  match fuel with
  | O => Diverges
  | S n =>
      if written <? InLength then
        let* (r, k) := hk_write InHandle (InBuffer +64 written) (InLength -64 written) k in
        match r with
        | None => Ok (None, k)
        | Some step =>
            if step <? 0 then Ok (Some step, k)
            else if step =? 0 then Ok (Some written, k)
            else hk_write_all_loop n InHandle InBuffer InLength (written +64 step) k
        end
      else Ok (Some written, k)
  end.
Definition hk_write_all (InHandle InBuffer InLength : Z) k :=
  hk_write_all_loop (S (Z.to_nat InLength)) InHandle InBuffer InLength 0 k.

(** The string's length, within [rounds] bytes; the result is the distance to the null. *)
Fixpoint hk_strlen (rounds : nat) (cursor : Z) k : outcome Z :=
  match rounds with
  | O => Diverges
  | S n =>
      if User.user_byte (memory_ k) cursor =? 0 then Ok 0
      else let* l := hk_strlen n (cursor +64 1) k in Ok (l +64 1)
  end.

Definition hk_print (rounds : nat) (InText : Z) k : outcome (option Z * kernel K D F) :=
  if InText =? 0 then Ok (Some (- error_value HK_EFAULT), k)
  else let* length := hk_strlen rounds InText k in hk_write_all HK_STDOUT InText length k.

(** ** The C++ face, with its default arguments written out *)

Definition StdOut : Z := HK_STDOUT.
Definition WriteMax : Z := HK_WRITE_MAX.
Definition Exit (InStatus : Z) k := hk_exit InStatus k.
Definition WriteTo (InBuffer InLength InHandle : Z) k := hk_write InHandle InBuffer InLength k.
Definition WriteAll (InBuffer InLength InHandle : Z) k := hk_write_all InHandle InBuffer InLength k.
Definition Print (rounds : nat) (InText : Z) k := hk_print rounds InText k.
Definition Yield k := hk_yield k.
(** The result, and the raw value of [OutKey] behind the call. *)
Definition GetKey (OutKey : Z) k : outcome (option (Z * Z) * kernel K D F) :=
  let* (r, k) := hk_get_key k in
  Ok (match r with
      | Some (result, written) =>
          let raw := default 0 written in
          Some (result, if 0 <=? result then raw else OutKey)
      | None => None
      end, k).

(** A failed call does not touch the key; any other stores what the kernel packed. *)
Lemma GetKey_stores OutKey k result key k' : GetKey OutKey k = Ok (Some (result, key), k') ->
  hk_syscall 3 0 0 0 k = Ok (Some result, k') /\ key = if hk_failed result then OutKey else u32 result.
Proof.
  unfold GetKey, hk_get_key, hk_failed. intros E. apply obind_Ok in E as ([r k1] & E1 & E). apply obind_Ok in E1 as ([r' k2] & E2 & E1).
  injection E1 as <- <-. destruct r' as [x|]; [|discriminate E]. injection E as <- <- <-. split; [done|].
  destruct (Z.ltb_spec x 0); [by rewrite (proj2 (Z.leb_gt _ _)) by lia|by rewrite (proj2 (Z.leb_le _ _)) by lia].
Qed.

End Calls.

Definition Failed (InResult : Z) : bool := InResult <? 0.
Definition ErrorOf (InResult : Z) : Z := hk_error_of InResult.

Definition hk_error_name (InError : Z) : string :=
  if InError =? error_value HK_OK then "ok"
  else if InError =? error_value HK_EPERM then "not permitted"
  else if InError =? error_value HK_ENOSYS then "no such call"
  else if InError =? error_value HK_EINVAL then "invalid argument"
  else if InError =? error_value HK_EFAULT then "bad address"
  else if InError =? error_value HK_EBADF then "bad handle"
  else if InError =? error_value HK_EAGAIN then "would block"
  else if InError =? error_value HK_ERANGE then "out of range"
  else "unknown error".
Definition Name (InError : Z) : string := hk_error_name InError.

End HK.

(** ** Printing a whole buffer *)

Section Spec.
Context {K : Type} {SA : StackAllocator K} {SL : StackAllocatorLaws K} {BB : Build}
        {CC : Context.Code} {MM : Machine} {ML : MachineLaws}.
Context {D : Type} {HW : Hardware D} {F : Type} {FA : FrameAllocator F} {FL : FrameAllocatorLaws F}.
Variable stack_owner : Z -> Z.
Variables (core : Z) (stack : list Z).
Implicit Types k : kernel K D F.

(** The [n] bytes ring 3 sees from [a] on. *)
Definition bytes_at (p : Paging.t F) (a : Z) (n : nat) : list Z :=
  (fun i => User.user_byte p (a + Z.of_nat i)) <$> seq 0 n.

Lemma bytes_at_app p a n m : bytes_at p a (n + m) = bytes_at p a n ++ bytes_at p (a + Z.of_nat n) m.
Proof.
  unfold bytes_at. rewrite seq_app, fmap_app. f_equal. cbn [Nat.add].
  rewrite <- (Nat.add_0_r n) at 1. rewrite <- fmap_add_seq, <- list_fmap_compose.
  apply list_fmap_ext. intros i x _. simpl. f_equal. lia.
Qed.

Lemma text_of_plain l : Forall (fun c => c <> 0) l -> text_of l = l.
Proof.
  induction 1 as [|c l Hc _ IH]; [done|]. simpl. by rewrite (proj2 (Z.eqb_neq _ _) Hc), IH.
Qed.

Lemma hk_write_ok own pop A t k buf len :
  kernel_ok stack_owner own pop A t k -> HK_WRITE_MAX < Z.of_nat (length stack) ->
  HK_USER_MIN <= buf -> 0 < len -> buf + len <= HK_USER_MAX ->
  (forall a, buf <= a < buf + len -> Paging.IsUserReadable (memory_ k) a = true) ->
  Forall (fun c => c <> 0) (bytes_at (memory_ k) buf (Z.to_nat len)) ->
  let n := Z.min len HK_WRITE_MAX in
  let w := TextWindow.windows (screen k) UserOutput in
  exists k', HK.hk_write core stack HK_STDOUT buf len k = Ok (Some n, k') /\ memory_ k' = memory_ k /\
    TextWindow.same_place w (TextWindow.windows (screen k') UserOutput) /\
    kernel_ok stack_owner own pop A (TextWindow.terminal_print (TextWindow.GetWidth w) (TextWindow.GetHeight w)
      Cga.DefaultAttribute (bytes_at (memory_ k) buf (Z.to_nat n)) t) k'.
Proof.
  intros Hk Hst Hmin Hlen Hmax Hr Hz n w.
  assert (Hn : 0 < n <= len) by (unfold n, HK_WRITE_MAX; lia). unfold HK_USER_MIN, HK_USER_MAX in *.
  destruct (Write_ok stack_owner own pop A t k stack HK_STDOUT buf len Hk ltac:(unfold is_word; lia) ltac:(unfold is_word; lia) Hst)
    as (_ & _ & H). fold n w in H.
  destruct (H eq_refl) as (k' & HW' & Hk' & _ & _ & Hm & Hp).
  { right. split; [unfold HK_USER_MIN; lia|]. split; [unfold HK_USER_MAX; lia|]. intros a Ha. apply Hr. lia. }
  fold (bytes_at (memory_ k) buf (Z.to_nat n)) in HW', Hk'.
  assert (Hplain : Forall (fun c => c <> 0) (bytes_at (memory_ k) buf (Z.to_nat n))).
  { replace (Z.to_nat len) with (Z.to_nat n + Z.to_nat (len - n))%nat in Hz by lia. rewrite bytes_at_app in Hz.
    by apply Forall_app in Hz as [? _]. }
  rewrite (text_of_plain _ Hplain) in HW', Hk'.
  exists k'. split_and!; try done. unfold HK.hk_write, HK.hk_syscall, SyscallDispatch. cbn [Z.leb lookup].
  change (Ok (Some n, k')) with (let* (r, k) := Ok (Returns n, k') in Ok (match r with Returns x => Some x | _ => None end, k)).
  assert (Hlen2 : Z.of_nat (length (bytes_at (memory_ k) buf (Z.to_nat n))) = n).
  { unfold bytes_at. rewrite length_fmap, length_seq. lia. }
  rewrite Hlen2 in HW'. rewrite <- HW'. reflexivity.
Qed.

Lemma terminal_print_app w h a l l' t :
  TextWindow.terminal_print w h a (l ++ l') t = TextWindow.terminal_print w h a l' (TextWindow.terminal_print w h a l t).
Proof. apply foldl_app. Qed.

Lemma same_place_trans w1 w2 w3 :
  TextWindow.same_place w1 w2 -> TextWindow.same_place w2 w3 -> TextWindow.same_place w1 w3.
Proof. unfold TextWindow.same_place. intros (? & ? & ? & ? & ?) (? & ? & ? & ? & ?). split_and!; congruence. Qed.

Lemma hk_write_all_loop_ok fuel own pop A t k buf len written :
  kernel_ok stack_owner own pop A t k -> HK_WRITE_MAX < Z.of_nat (length stack) ->
  HK_USER_MIN <= buf -> 0 <= written <= len -> buf + len <= HK_USER_MAX -> len - written < Z.of_nat fuel ->
  (forall a, buf <= a < buf + len -> Paging.IsUserReadable (memory_ k) a = true) ->
  Forall (fun c => c <> 0) (bytes_at (memory_ k) buf (Z.to_nat len)) ->
  let w := TextWindow.windows (screen k) UserOutput in
  exists k', HK.hk_write_all_loop core stack fuel HK_STDOUT buf len written k = Ok (Some len, k') /\
    TextWindow.same_place w (TextWindow.windows (screen k') UserOutput) /\
    kernel_ok stack_owner own pop A (TextWindow.terminal_print (TextWindow.GetWidth w) (TextWindow.GetHeight w)
      Cga.DefaultAttribute (bytes_at (memory_ k) (buf + written) (Z.to_nat (len - written))) t) k'.
Proof.
  revert k t written. induction fuel as [|fuel IH]; intros k t written Hk Hst Hmin Hw Hmax Hf Hr Hz w; [lia|].
  cbn [HK.hk_write_all_loop]. unfold HK_USER_MIN, HK_USER_MAX in *.
  destruct (Z.ltb_spec written len) as [Hlt|Hge].
  2: { replace written with len by lia. exists k. split_and!; [done|by split_and!|]. by rewrite Z.sub_diag. }
  rewrite !wrap_small by (unfold is_word; lia).
  assert (Hz' : Forall (fun c => c <> 0) (bytes_at (memory_ k) (buf + written) (Z.to_nat (len - written)))).
  { replace (Z.to_nat len) with (Z.to_nat written + Z.to_nat (len - written))%nat in Hz by lia.
    rewrite bytes_at_app, Z2Nat.id in Hz by lia. by apply Forall_app in Hz as [_ ?]. }
  destruct (hk_write_ok own pop A t k (buf + written) (len - written) Hk Hst) as (k1 & -> & Hm & Hp & Hk1);
    [unfold HK_USER_MIN; lia|lia|unfold HK_USER_MAX; lia|intros a Ha; apply Hr; lia|done|]. cbn [obind].
  set (n := Z.min (len - written) HK_WRITE_MAX) in *. assert (Hn : 0 < n <= len - written) by (unfold n, HK_WRITE_MAX; lia).
  rewrite (proj2 (Z.ltb_ge n 0)), (proj2 (Z.eqb_neq n 0)) by lia. rewrite wrap_small by (unfold is_word; lia).
  destruct (IH k1 _ (written + n) Hk1 Hst) as (k2 & -> & Hp2 & Hk2); rewrite ?Hm; try done; try lia.
  exists k2. split; [done|]. split; [by apply (same_place_trans _ _ _ Hp)|]. rewrite Hm in Hk2.
  destruct Hp as (P1 & P2 & P3 & P4 & _).
  replace (TextWindow.GetWidth (TextWindow.windows (screen k1) UserOutput)) with (TextWindow.GetWidth w) in Hk2
    by (unfold TextWindow.GetWidth; by rewrite P1, P2).
  replace (TextWindow.GetHeight (TextWindow.windows (screen k1) UserOutput)) with (TextWindow.GetHeight w) in Hk2
    by (unfold TextWindow.GetHeight; by rewrite P3, P4).
  replace (Z.to_nat (len - written)) with (Z.to_nat n + Z.to_nat (len - (written + n)))%nat by lia.
  rewrite bytes_at_app, terminal_print_app, Z2Nat.id by lia. by rewrite <- Z.add_assoc.
Qed.

(** C13: Printing a long text works end to end: for a buffer of any length that ring 3 can
    read and that holds no null byte, [hk_write_all] makes its calls in pieces of at most
    1024 bytes, comes back with the full length, and the user's window shows what a
    terminal shows after printing every byte once and in order. *)
Theorem write_all_prints_everything own pop A t k buf len :
  kernel_ok stack_owner own pop A t k -> HK_WRITE_MAX < Z.of_nat (length stack) ->
  HK_USER_MIN <= buf -> 0 <= len -> buf + len <= HK_USER_MAX ->
  (forall a, buf <= a < buf + len -> Paging.IsUserReadable (memory_ k) a = true) ->
  Forall (fun c => c <> 0) (bytes_at (memory_ k) buf (Z.to_nat len)) ->
  let w := TextWindow.windows (screen k) UserOutput in
  exists k', HK.hk_write_all core stack HK_STDOUT buf len k = Ok (Some len, k') /\
    kernel_ok stack_owner own pop A (TextWindow.terminal_print (TextWindow.GetWidth w) (TextWindow.GetHeight w)
      Cga.DefaultAttribute (bytes_at (memory_ k) buf (Z.to_nat len)) t) k'.
Proof.
  intros Hk Hst Hmin Hlen Hmax Hr Hz w.
  destruct (hk_write_all_loop_ok (S (Z.to_nat len)) own pop A t k buf len 0 Hk Hst Hmin) as (k' & HE & _ & Hk'); try done; try lia.
  exists k'. split; [exact HE|]. by rewrite Z.add_0_r, Z.sub_0_r in Hk'.
Qed.

End Spec.

#[local] Existing Instances demo_machine demo_code checked_build FrameSpec.debug_build quiet_hardware.

Lemma write_all_prints_everything_witness :
  exists k', HK.hk_write_all 1 demo_stack HK_STDOUT 0x400000 2 demo_kernel = Ok (Some 2, k').
Proof.
  destruct demo_kernel_ok as [own Hk].
  destruct (write_all_prints_everything demo_owner 1 demo_stack own demo_pop demo_A4 blank_terminal demo_kernel 0x400000 2 Hk)
    as (k' & HE & _).
  - vm_compute. reflexivity.
  - discriminate.
  - lia.
  - discriminate.
  - intros a Ha. assert (Hcase : a = 0x400000 \/ a = 0x400001) by lia. destruct Hcase as [-> | ->]; vm_compute; reflexivity.
  - vm_compute. repeat constructor; discriminate.
  - exists k'. exact HE.
Defined.
