(* ===== verification/Traps.v ===== *)
(** * Arch/Gdt.h, Gdt.cpp, Idt.h, Idt.cpp and Interrupt/Handlers.cpp

    The descriptor tables as the words the CPU reads, and the first level handlers.
    Code addresses are a parameter (the linker's).  A handler of a fault prints its lines on
    the debug stream of its core (Layout.v) and rewrites the interrupt frame, which is what
    the CPU resumes. *)

From S2P Require Import Prelude Mem Queue Config RingBuffer FrameInterface Paging PagingSpec.
From S2P Require Import KernelStack Context Sched SchedSpec Sync SyncSpec SystemSpec Guard Device.
From S2P Require Import LocalApic Ps2 Output Format Screen Layout Epilogues User Syscall.

(** A word from bit-fields (position, width, value), in declaration order. *)
Definition layout (l : list (Z * Z * Z)) : Z :=
  fold_left (fun v f => Field.set f.1.1 f.1.2 f.2 v) l 0.

Module Gdt.

Definition NULL_SELECTOR : Z := 0x00.
Definition FIRST_TSS : Z := 0x30.
Definition FIXED_DESCRIPTORS : Z := FIRST_TSS / 8.

Inductive Granularity := BYTES | PAGES.
Inductive Size := BIT16 | BIT32 | BIT64.
Definition SizeValue (s : Size) : Z := match s with BIT16 => 0 | BIT32 => 2 | BIT64 => 1 end.
Definition DATA_RW : Z := 2.
Definition CODE_RX : Z := 10.

(** [SegmentDescriptor::Segment], as [Value]. *)
Definition Segment (InBase InLimit : Z) (InCode : bool) (InRing : Z) (InSize : Size) : Z :=
  let pages := 0xfffff <? InLimit in
  layout [(0, 16, Z.land (Z.shiftr InLimit (if pages then 12 else 0)) 0xffff);
          (16, 24, Z.land InBase 0xffffff);
          (40, 4, if InCode then CODE_RX else DATA_RW);
          (44, 1, 1); (45, 2, InRing); (47, 1, 1);
          (48, 4, Z.land (if pages then Z.shiftr InLimit 28 else Z.shiftr InLimit 16) 0xf);
          (52, 1, 0); (53, 2, SizeValue InSize); (55, 1, if pages then 1 else 0);
          (56, 8, Z.land (Z.shiftr InBase 24) 0xff)].
Definition Segment64 (InCode : bool) (InRing : Z) : Z := Segment 0 0 InCode InRing BIT64.

Definition s_LongMode : list Z :=
  [0; Segment64 true 0; Segment64 false 0; Segment 0 0xffffffff true 3 BIT32; Segment64 false 3; Segment64 true 3]
  ++ replicate (Z.to_nat (2 * Config.MAX_CORES)) 0.

Definition SIZEOF_TSS : Z := 104.
Record TaskStateSegment := { Rsp0 : Z; Ist1 : Z; IoMapBase : Z }.
Definition IST_FAULT_STACK : Z := 1.

(** The statics: the table, the task state segments and each core's task register;
    [tss_at] and [fault_stack] are the addresses of the arrays' elements. *)
Record t := { table : list Z; s_TaskState : Z -> TaskStateSegment; task_register : Z -> Z }.

Section Operations.
Context {BB : Build}.
Variables tss_at fault_stack : Z -> Z.

Definition WriteTssDescriptor (InCoreId : Z) (l : list Z) : list Z :=
  let base := tss_at InCoreId in
  let limit := SIZEOF_TSS - 1 in
  let low := Z.lor (Z.lor (Z.lor (Z.lor (Z.lor (Z.land limit 0xffff) (Z.shiftl (Z.land base 0xffffff) 16))
               (Z.shiftl 0x9 40)) (Z.shiftl 1 47)) (Z.shiftl (Z.land (Z.shiftr limit 16) 0xf) 48))
               (Z.shiftl (Z.land (Z.shiftr base 24) 0xff) 56) in
  let high := Z.shiftr base 32 in
  let slot := Z.to_nat (FIXED_DESCRIPTORS + 2 * InCoreId) in
  <[S slot := high]> (<[slot := low]> l).

Definition LoadTaskRegister (InCoreId : Z) (s : t) : outcome t :=
  let* _ := ASSERT (InCoreId <? Config.MAX_CORES) "InCoreId < Config::MAX_CORES" in
  let tss := {| Rsp0 := 0; Ist1 := fault_stack InCoreId +64 Config.IST_STACK_SIZE; IoMapBase := SIZEOF_TSS |} in
  Ok {| table := WriteTssDescriptor InCoreId (table s);
        s_TaskState := upd (s_TaskState s) InCoreId tss;
        task_register := upd (task_register s) InCoreId (wrap 16 (FIRST_TSS + wrap 16 (InCoreId * 16))) |}.

Definition SetKernelStack (InCoreId InStackTop : Z) (s : t) : t :=
  let tss := s_TaskState s InCoreId in
  {| table := table s;
     s_TaskState := upd (s_TaskState s) InCoreId
       {| Rsp0 := InStackTop; Ist1 := Ist1 tss; IoMapBase := IoMapBase tss |};
     task_register := task_register s |}.
Definition GetKernelStack (InCoreId : Z) (s : t) : Z := Rsp0 (s_TaskState s InCoreId).
End Operations.

(** What the CPU reads out of a system descriptor. *)
Definition system_base (low high : Z) : Z :=
  Field.get 16 24 low + Field.get 56 8 low * 2 ^ 24 + Field.get 0 32 high * 2 ^ 32.
Definition system_limit (low : Z) : Z := Field.get 0 16 low + Field.get 48 4 low * 2 ^ 16.

(** The descriptors the boot code and the system call instructions rely on: present,
    code or data, the ring, and 64 bit code. *)
Lemma fixed_descriptors :
  (fun d => (Field.get 47 1 d, Field.get 44 1 d, Field.get 40 4 d, Field.get 45 2 d, Field.get 53 2 d)) <$>
    take 6 s_LongMode =
  [(0, 0, 0, 0, 0); (1, 1, CODE_RX, 0, 1); (1, 1, DATA_RW, 0, 1); (1, 1, CODE_RX, 3, 2); (1, 1, DATA_RW, 3, 1);
   (1, 1, CODE_RX, 3, 1)].
Proof. vm_compute. reflexivity. Qed.
End Gdt.

Module Idt.

Definition INTERRUPT : Z := 6.
Definition KERNEL_DPL : Z := 0.
Definition KERNEL_SELECTOR : Z := 0x08.

(** The 16 bytes of an [InterruptDescriptor] as one word. *)
Definition InterruptDescriptor (InHandler InIst InDpl : Z) : Z :=
  layout [(0, 16, Z.land InHandler 0xffff); (16, 16, KERNEL_SELECTOR); (32, 3, InIst); (35, 5, 0);
          (40, 3, INTERRUPT); (43, 1, 1); (44, 1, 0); (45, 2, InDpl); (47, 1, 1);
          (48, 48, Z.land (Z.shiftr InHandler 16) 0xffffffffffff); (96, 32, 0)].
Definition Returning (InHandler InIst : Z) : Z := InterruptDescriptor InHandler InIst KERNEL_DPL.
Definition ReturningWithError (InHandler InIst : Z) : Z := InterruptDescriptor InHandler InIst KERNEL_DPL.

Definition table := Z -> Z.
Definition Set_ (InVector InDescriptor : Z) (T : table) : table := upd T InVector InDescriptor.

(** What the CPU reads. *)
Definition gate_offset (g : Z) : Z := Field.get 0 16 g + Field.get 48 48 g * 2 ^ 16.

(** A gate: present, a 64-bit interrupt gate to the kernel's code segment, not reachable
    by [int] from ring 3, all reserved bits zero. *)
Record gate_ok (g target ist : Z) : Prop := {
  g_target : gate_offset g = target;
  g_selector : Field.get 16 16 g = KERNEL_SELECTOR;
  g_ist : Field.get 32 3 g = ist /\ Field.get 35 5 g = 0;
  g_type : Field.get 40 3 g + 8 * Field.get 43 1 g = 0xe /\ Field.get 44 1 g = 0;
  g_dpl : Field.get 45 2 g = 0;
  g_present : Field.get 47 1 g = 1;
  g_reserved : Field.get 96 32 g = 0 }.

Lemma mask_word n x : 0 <= n -> wrap n (Z.land x (Z.ones n)) = x mod 2 ^ n.
Proof. intros. rewrite Z.land_ones by done. unfold wrap. apply Z.mod_mod. lia. Qed.

Lemma InterruptDescriptor_ok h ist : is_word 64 h -> is_word 3 ist -> gate_ok (InterruptDescriptor h ist KERNEL_DPL) h ist.
Proof.
  intros Hh Hi. unfold InterruptDescriptor, layout. cbn [fold_left fst snd].
  split; unfold gate_offset; fields; try (split; fields); try reflexivity; try (by apply wrap_small).
  rewrite (mask_word 16), (mask_word 48), Z.shiftr_div_pow2 by lia. unfold is_word in Hh.
  rewrite (Z.mod_small (h / 2 ^ 16)).
  - pose proof (Z.div_mod h (2 ^ 16)). lia.
  - split; [apply Z.div_pos; lia|apply Z.div_lt_upper_bound; lia].
Qed.
End Idt.

Module Handlers.

Inductive HandlerName :=
| HandleDivideError | HandleInvalidOpcode | HandleDoubleFault | HandleInvalidTss | HandleSegmentNotPresent
| HandleStackSegmentFault | HandleGeneralProtectionFault | HandlePageFault | HandleNonMaskableInterrupt
| HandleMachineCheck | HandleUnexpected | HandleUnexpectedWithError | HandleSpurious | HandleTimer
| HandleKeyboard | HandleAssassin | HandleWakeup.

(** The signature: with the error code, or without. *)
Definition takes_error (h : HandlerName) : bool :=
  match h with
  | HandleDoubleFault | HandleInvalidTss | HandleSegmentNotPresent | HandleStackSegmentFault
  | HandleGeneralProtectionFault | HandlePageFault | HandleUnexpectedWithError => true
  | _ => false
  end.

Definition ERROR_CODE_VECTORS : list Vector :=
  [DOUBLE_FAULT; INVALID_TSS; SEGMENT_NOT_PRESENT; STACK_SEGMENT_FAULT; GENERAL_PROTECTION_FAULT; PAGE_FAULT;
   ALIGNMENT_CHECK; CONTROL_PROTECTION; SECURITY_EXCEPTION].

Section Install.
Variable address : HandlerName -> Z.

Definition InstallHandlers (T : Idt.table) : Idt.table :=
  let set v h ist := Idt.Set_ (VectorNumber v) (Idt.Returning (address h) ist) in
  let set_error v h ist := Idt.Set_ (VectorNumber v) (Idt.ReturningWithError (address h) ist) in
  let T := fold_left (fun T vector => Idt.Set_ (Z.of_nat vector) (Idt.Returning (address HandleUnexpected) 0) T)
             (seq 0 (Z.to_nat VECTOR_COUNT)) T in
  let T := fold_left (fun T vector => set_error vector HandleUnexpectedWithError 0 T) ERROR_CODE_VECTORS T in
  let T := set DIVIDE_ERROR HandleDivideError 0 T in
  let T := set INVALID_OPCODE HandleInvalidOpcode 0 T in
  let T := set_error INVALID_TSS HandleInvalidTss 0 T in
  let T := set_error SEGMENT_NOT_PRESENT HandleSegmentNotPresent 0 T in
  let T := set_error STACK_SEGMENT_FAULT HandleStackSegmentFault 0 T in
  let T := set_error GENERAL_PROTECTION_FAULT HandleGeneralProtectionFault 0 T in
  let T := set_error PAGE_FAULT HandlePageFault Gdt.IST_FAULT_STACK T in
  let T := set_error DOUBLE_FAULT HandleDoubleFault Gdt.IST_FAULT_STACK T in
  let T := set NON_MASKABLE_INTERRUPT HandleNonMaskableInterrupt Gdt.IST_FAULT_STACK T in
  let T := set MACHINE_CHECK HandleMachineCheck Gdt.IST_FAULT_STACK T in
  let T := set TIMER HandleTimer 0 T in
  let T := set KEYBOARD HandleKeyboard 0 T in
  let T := set VASSASSIN HandleAssassin 0 T in
  let T := set VWAKEUP HandleWakeup 0 T in
  set SPURIOUS HandleSpurious 0 T.
End Install.

(** The handler and the stack each vector should have. *)
Definition handler_for (v : Z) : HandlerName :=
  if v =? 0 then HandleDivideError else if v =? 2 then HandleNonMaskableInterrupt
  else if v =? 6 then HandleInvalidOpcode else if v =? 8 then HandleDoubleFault
  else if v =? 10 then HandleInvalidTss else if v =? 11 then HandleSegmentNotPresent
  else if v =? 12 then HandleStackSegmentFault else if v =? 13 then HandleGeneralProtectionFault
  else if v =? 14 then HandlePageFault else if v =? 18 then HandleMachineCheck
  else if (v =? 17) || (v =? 21) || (v =? 30) then HandleUnexpectedWithError
  else if v =? 0x20 then HandleTimer else if v =? 0x21 then HandleKeyboard
  else if v =? 0x22 then HandleAssassin else if v =? 0x23 then HandleWakeup
  else if v =? 0xff then HandleSpurious else HandleUnexpected.

(** Vectors that cannot trust the interrupted stack. *)
Definition own_stack (v : Z) : bool := (v =? 2) || (v =? 8) || (v =? 14) || (v =? 18).

(** The exceptions for which the CPU pushes an error code. *)
Definition pushes_error (v : Z) : bool :=
  (v =? 8) || ((10 <=? v) && (v <=? 14)) || (v =? 17) || (v =? 21) || (v =? 30).

Lemma fill_entry n d (T : Idt.table) v : 0 <= v < Z.of_nat n ->
  fold_left (fun T vector => Idt.Set_ (Z.of_nat vector) d T) (seq 0 n) T v = d.
Proof.
  revert T. induction n as [|n IH]; intros T Hv; [lia|]. rewrite seq_S, fold_left_app. cbn [fold_left Nat.add].
  unfold Idt.Set_ at 1, upd. destruct (Z.eqb_spec v (Z.of_nat n)); [done|]. apply IH. lia.
Qed.

Lemma InstallHandlers_entry address T v : 0 <= v < 256 ->
  InstallHandlers address T v = Idt.InterruptDescriptor (address (handler_for v)) (if own_stack v then 1 else 0) Idt.KERNEL_DPL.
Proof.
  intros Hv. unfold InstallHandlers, Idt.Returning, Idt.ReturningWithError. cbv zeta.
  generalize Idt.InterruptDescriptor as mk. intros mk.
  assert (HF := fill_entry (Z.to_nat VECTOR_COUNT) (mk (address HandleUnexpected) 0 Idt.KERNEL_DPL) T v Hv).
  revert HF. generalize (fold_left (fun T vector => Idt.Set_ (Z.of_nat vector)
    (mk (address HandleUnexpected) 0 Idt.KERNEL_DPL) T) (seq 0 (Z.to_nat VECTOR_COUNT)) T) as T0. intros T0 HF.
  cbn [fold_left ERROR_CODE_VECTORS VectorNumber]. unfold Idt.Set_, upd, handler_for, own_stack.
  repeat match goal with |- context [v =? ?y] => destruct (Z.eqb_spec v y); [subst v; reflexivity|] end.
  exact HF.
Qed.

(** C36: The interrupt table is total and typed: after [InstallHandlers] each of the 256
    vectors has a present interrupt gate into the kernel's code segment whose target,
    reassembled the way the CPU does it, is the handler meant for that vector; no gate
    can be entered by [int] from ring 3; the handler's signature has the error code
    exactly for the exceptions that push one; and the faults that cannot trust the
    interrupted stack, and only those, switch to the emergency stack. *)
Theorem interrupt_table_total_and_typed address T v :
  (forall h, is_word 64 (address h)) -> 0 <= v < 256 ->
  Idt.gate_ok (InstallHandlers address T v) (address (handler_for v))
    (if own_stack v then Gdt.IST_FAULT_STACK else 0) /\
  takes_error (handler_for v) = pushes_error v.
Proof.
  intros Ha Hv. rewrite InstallHandlers_entry by done. split.
  - destruct (own_stack v); apply Idt.InterruptDescriptor_ok; try apply Ha; split; (discriminate || reflexivity).
  - unfold handler_for, pushes_error.
    repeat match goal with |- context [?x =? ?y] => destruct (Z.eqb_spec x y); [subst; reflexivity|cbn [orb]] end.
    simpl. lia.
Qed.

(** ** Faults in ring 3 *)

Record InterruptContext := { Ip : Z; Cs : Z; Flags : Z; Sp : Z; Ss : Z }.
Record Death := { Reason : string; Status : Z }.
Definition FLAG_ENABLE : Z := Z.shiftl 1 9.

Definition PrintContext (c : InterruptContext) : list item :=
  [Lit "  at "; Hex; ULongLong (Cs c); Char 58; ULongLong (Ip c); Lit "  stack "; ULongLong (Ss c); Char 58;
   ULongLong (Sp c); Lit "  flags "; ULongLong (Flags c); Dec; EndLine].

(** The bit fields of the error code are promoted to [int]. *)
Definition PageFaultError (InError : Z) : list item :=
  [Lit "{ present: "; Int (Field.get 0 1 InError); Lit ", write: "; Int (Field.get 1 1 InError);
   Lit ", user: "; Int (Field.get 2 1 InError); Lit ", reserved: "; Int (Field.get 3 1 InError);
   Lit ", ifetch: "; Int (Field.get 4 1 InError); Lit " }"].

(** The line of [User::Terminate]. *)
Definition Terminated (name : option (list Z)) (InReason : string) (InStatus core : Z) : list item :=
  [Lit "User: '"; Str name; Lit "' "; Lit InReason; Lit ", status "; Dec; Int InStatus; Lit " on core "; UInt core; EndLine].

Section Faults.
Context {K : Type} {SA : StackAllocator K} {BB : Build} {CC : Context.Code} {MM : Machine}.
Context {D : Type} {HW : Hardware D} {F : Type} {FA : FrameAllocator F}.
Variable TerminateFaultedTask_address : Z.
(** [Thread::Name()] of each thread. *)
Variable Name : Z -> option (list Z).

(** The state the fault handlers use beside the kernel's: the deaths per core, the task state
    segments, the kernel stacks, and the stream objects behind the windows with their colours. *)
Record traps := {
  s_Death : Z -> Death; gdt : Gdt.t; stacks : KernelStack.t F;
  debug_streams : Z -> OutputStream.t; debug_attributes : Z -> Z }.
Implicit Types (c : InterruptContext) (s : traps) (k : Syscall.kernel K D F).

(** The screen with its streams: the cells and windows are the kernel's. *)
Definition console s k : Layout.screen D :=
  {| Layout.streams := debug_streams s; Layout.attributes := debug_attributes s; Layout.shown := Syscall.display_of k |}.

(** [DBG << ...] on [core]. *)
Definition DBG (core : Z) (l : list item) s k : outcome (traps * Syscall.kernel K D F) :=
  let* x := Layout.DBG core l (console s k) in
  Ok ({| s_Death := s_Death s; gdt := gdt s; stacks := stacks s;
         debug_streams := Layout.streams x; debug_attributes := Layout.attributes x |},
      Syscall.with_display k (Layout.shown x)).

(** A headline and the context, with which every handler begins. *)
Definition report (core : Z) (l : list item) c s k : outcome (traps * Syscall.kernel K D F) :=
  let* (s, k) := DBG core l s k in DBG core (PrintContext c) s k.

(** [thread != nullptr ? thread->Name() : "?"] of the active thread. *)
Definition ActiveName (core : Z) k : option (list Z) :=
  let thread := Sched.Active core (System.sched (Epilogues.system (Syscall.vault k))) in
  if negb (thread =? 0) then Name thread else Some (codes "?").

Definition KillUserTask (core : Z) (InReason : string) (InVector : Vector) (c : InterruptContext) (s : traps)
    : bool * InterruptContext * traps :=
  if negb (Z.land (Cs c) 3 =? 3) then (false, c, s)
  else
    (true,
     {| Ip := TerminateFaultedTask_address; Cs := Syscall.KERNEL_CODE; Ss := Syscall.KERNEL_DATA;
        Flags := Z.lor FLAG_ENABLE 0x2; Sp := Gdt.GetKernelStack core (gdt s) -64 8 |},
     {| s_Death := upd (s_Death s) core
          {| Reason := InReason; Status := Abi.HK_EXIT_FAULT_BASE + VectorNumber InVector |};
        gdt := gdt s; stacks := stacks s; debug_streams := debug_streams s; debug_attributes := debug_attributes s |}).

(** A handler that reports, then kills the task or panics. *)
Definition kill_or_panic (core : Z) (line : list item) (reason : string) (v : Vector) (message : string) c s k
    : outcome (InterruptContext * (traps * Syscall.kernel K D F)) :=
  let* (s, k) := report core line c s k in
  let '(killed, c, s) := KillUserTask core reason v c s in
  if (killed : bool) then Ok (c, (s, k)) else Panic message.

(** A handler that reports and panics. *)
Definition report_and_panic (core : Z) (line : list item) (message : string) c s k
    : outcome (InterruptContext * (traps * Syscall.kernel K D F)) :=
  let* _ := report core line c s k in Panic message.

Definition DivideError (core : Z) :=
  kill_or_panic core [Lit "Divide error"; EndLine] "divided by zero" DIVIDE_ERROR "Divide error".
Definition InvalidOpcode (core : Z) :=
  kill_or_panic core [Lit "Invalid opcode"; EndLine] "executed an invalid opcode" INVALID_OPCODE "Invalid opcode".
Definition StackSegmentFault (core InError : Z) :=
  kill_or_panic core [Lit "Stack segment fault, error "; Hex; ULongLong InError; Dec; EndLine]
    "faulted on its stack segment" STACK_SEGMENT_FAULT "Stack segment fault".
Definition GeneralProtectionFault (core InError : Z) :=
  kill_or_panic core [Lit "General protection fault, error "; Hex; ULongLong InError; Dec; EndLine]
    "attempted a privileged operation" GENERAL_PROTECTION_FAULT "General protection fault".
(** [address] is what CR2 holds. *)
Definition PageFault (core address InError : Z) c s k : outcome (InterruptContext * (traps * Syscall.kernel K D F)) :=
  if KernelStack.IsGuardPage (stacks s) address
  then report_and_panic core [Lit "Kernel stack overflow in '"; Str (ActiveName core k); Lit "' at "; Pointer address;
                              Lit " on core "; Dec; UInt core; EndLine] "Kernel stack overflow" c s k
  else kill_or_panic core ([Lit "Page fault at "; Pointer address; Char 32] ++ PageFaultError InError ++ [EndLine])
         "touched memory it does not own" PAGE_FAULT "Page fault" c s k.

(** The exception handlers; the device handlers follow below.  [vector] is what the local APIC has
    in service. *)
Definition handle (h : HandlerName) (core address InError vector : Z) c s k
    : outcome (InterruptContext * (traps * Syscall.kernel K D F)) :=
  match h with
  | HandleDivideError => DivideError core c s k
  | HandleInvalidOpcode => InvalidOpcode core c s k
  | HandleStackSegmentFault => StackSegmentFault core InError c s k
  | HandleGeneralProtectionFault => GeneralProtectionFault core InError c s k
  | HandlePageFault => PageFault core address InError c s k
  | HandleDoubleFault => report_and_panic core [Lit "Double fault"; EndLine] "Double fault" c s k
  | HandleInvalidTss =>
      report_and_panic core [Lit "Invalid TSS, selector index "; Dec; ULongLong (Z.shiftr InError 3); EndLine] "Invalid TSS" c s k
  | HandleSegmentNotPresent =>
      report_and_panic core [Lit "Segment not present, selector index "; Dec; ULongLong (Z.shiftr InError 3); EndLine]
        "Segment not present" c s k
  | HandleNonMaskableInterrupt =>
      report_and_panic core [Lit "Non-maskable interrupt"; EndLine] "Non-maskable interrupt" c s k
  | HandleMachineCheck => report_and_panic core [Lit "Machine check"; EndLine] "Machine check" c s k
  | HandleUnexpected =>
      report_and_panic core [Lit "Unexpected interrupt, LAPIC vector "; Dec; UShort vector; EndLine]
        "Unexpected interrupt" c s k
  | HandleUnexpectedWithError =>
      report_and_panic core [Lit "Unexpected exception, error "; Hex; ULongLong InError; Dec; EndLine]
        "Unexpected exception" c s k
  | _ => Ok (c, (s, k))
  end.

(** Where the rewritten frame resumes: [User::Terminate] with the death of the core. *)
Definition TerminateFaultedTask (core : Z) s k : outcome (Syscall.reply * (traps * Syscall.kernel K D F)) :=
  let death := s_Death s core in
  let* (s, k) := DBG core (Terminated (ActiveName core k) (Reason death) (Status death) core) s k in
  let* (r, k) := Syscall.Terminate core (Status death) k in
  Ok (r, (s, k)).
End Faults.
Arguments traps : clear implicits.

(** ** Device interrupts, up to the lock of the Guard; [true] when this prologue has to run
    the queue. *)
Section Devices.
Context {D : Type} {HW : Hardware D} {BB : Build}.
Variable lapic : Z.

Definition acknowledge_and_relay (e : Epilogue) (p : Ps2.t D) (g : Guard.core) : outcome (bool * (Ps2.t D * Guard.core)) :=
  let* (_, d) := LocalApic.EndOfInterrupt lapic (Ps2.device p) in
  let* (run, g) := Guard.Relay g e in
  Ok (run, (Ps2.with_device p d, g)).

Definition TimerInterrupt := acknowledge_and_relay Timer.
Definition KeyboardInterrupt (p : Ps2.t D) := acknowledge_and_relay Keyboard (Ps2.DrainToQueue p).
Definition AssassinInterrupt := acknowledge_and_relay Assassin.
Definition WakeupInterrupt := acknowledge_and_relay Wakeup.
End Devices.

End Handlers.
