(* ===== verification/TrapsSpec.v ===== *)
(** * A fault in ring 3 ends the task and nothing else *)

From S2P Require Import Prelude Mem Queue Config RingBuffer FrameInterface Paging PagingSpec.
From S2P Require Import KernelStack Context Sched SchedSpec Sync SyncSpec SystemSpec Guard Device.
From S2P Require Import Keyboard LocalApic Ps2 Output Format Screen Layout User UserSpec Epilogues Syscall SyscallSpec.
From S2P Require Import Traps.
Import Abi Epilogues Syscall Handlers.

(** The five faults a program can run into. *)
Definition program_faults : list Vector :=
  [DIVIDE_ERROR; INVALID_OPCODE; STACK_SEGMENT_FAULT; GENERAL_PROTECTION_FAULT; PAGE_FAULT].

(** What each of them prints before the context, without the new line, and what it calls the cause. *)
Definition fault_line (v : Vector) (address e : Z) : list item :=
  match v with
  | DIVIDE_ERROR => [Lit "Divide error"]
  | INVALID_OPCODE => [Lit "Invalid opcode"]
  | STACK_SEGMENT_FAULT => [Lit "Stack segment fault, error "; Hex; ULongLong e; Dec]
  | GENERAL_PROTECTION_FAULT => [Lit "General protection fault, error "; Hex; ULongLong e; Dec]
  | _ => [Lit "Page fault at "; Pointer address; Char 32] ++ PageFaultError e
  end.
Definition cause (v : Vector) : string :=
  match v with
  | DIVIDE_ERROR => "divided by zero"
  | INVALID_OPCODE => "executed an invalid opcode"
  | STACK_SEGMENT_FAULT => "faulted on its stack segment"
  | GENERAL_PROTECTION_FAULT => "attempted a privileged operation"
  | _ => "touched memory it does not own"
  end.

(** The frame holds words. *)
Record context_ok (c : InterruptContext) : Prop := {
  co_ip : is_word 64 (Ip c); co_cs : is_word 64 (Cs c); co_ss : is_word 64 (Ss c); co_sp : is_word 64 (Sp c);
  co_flags : is_word 64 (Flags c) }.
Definition name_ok (name : option (list Z)) : Prop := match name with Some l => Forall (is_word 8) l | None => True end.

(** ** The lines can be printed *)

Lemma bit_range i x : 0 <= i -> 0 <= Field.get i 1 x < 2.
Proof. intros Hi. unfold Field.get. change 2 with (2 ^ 1). apply Z.mod_pos_bound. lia. Qed.

Lemma bytes_clean l : Forall (is_word 8) l -> Layout.clean (Str (Some l)).
Proof.
  intros Hl. simpl. eapply Forall_impl; [exact Hl|]. intros c Hc. cbv beta. rewrite wrap_small by done.
  destruct (decide (c = 0)); tauto.
Qed.

Lemma fault_line_ok v address e : v ∈ program_faults -> is_word 64 address -> is_word 64 e ->
  Layout.line_ok (fault_line v address e).
Proof.
  intros Hv Ha He. assert (Hb : forall i, 0 <= i -> - 2 ^ 31 <= Field.get i 1 e < 2 ^ 31)
    by (intros i Hi; pose proof (bit_range i e Hi); lia).
  unfold program_faults in Hv. rewrite !elem_of_cons, elem_of_nil in Hv.
  destruct Hv as [->|[->|[->|[->|[->|[]]]]]]; cbn [fault_line]; (split; [| |reflexivity]); unfold PageFaultError; cbn [app];
    repeat (apply Forall_cons; split; [first [exact I|done|by apply Hb|by refine (bool_decide_eq_true_1 _ _)]|]); constructor.
Qed.

(** The context's line, and the one that ends the task, without the new line. *)
Definition context_line c : list item := take 12 (PrintContext c).
Definition end_line name reason status core : list item := take 9 (Terminated name reason status core).

Lemma context_line_ok c : context_ok c -> Layout.line_ok (context_line c).
Proof.
  intros [H1 H2 H3 H4 H5]. unfold context_line, PrintContext. cbn [take]. split; [| |reflexivity];
    repeat (apply Forall_cons; split; [first [exact I|done|by refine (bool_decide_eq_true_1 _ _)]|]); constructor.
Qed.

Lemma end_line_all name reason status core : end_line name reason status core ++ [EndLine] = Terminated name reason status core.
Proof. reflexivity. Qed.
Lemma end_line_ok name v core : name_ok name -> is_word 32 core -> v ∈ program_faults ->
  Layout.line_ok (end_line name (cause v) (HK_EXIT_FAULT_BASE + VectorNumber v) core).
Proof.
  intros Hn Hcore Hv. assert (Hc : Layout.clean (Str name)) by (destruct name; [by apply bytes_clean|exact I]).
  unfold end_line, Terminated. cbn [take]. unfold program_faults in Hv. rewrite !elem_of_cons, elem_of_nil in Hv.
  destruct Hv as [->|[->|[->|[->|[->|[]]]]]]; (split; [| |reflexivity]);
    repeat (apply Forall_cons; split; [first [exact I|exact Hc|exact Hcore|by vm_compute|by refine (bool_decide_eq_true_1 _ _)]|]);
    constructor.
Qed.

Section Spec.
Context {K : Type} {SA : StackAllocator K} {SL : StackAllocatorLaws K} {BB : Build}
        {CC : Context.Code} {MM : Machine} {ML : MachineLaws}.
Context {D : Type} {HW : Hardware D} {F : Type} {FA : FrameAllocator F} {FL : FrameAllocatorLaws F}.
Variable stack_owner : Z -> Z.
Implicit Types (k : kernel K D F) (A : asys) (s : traps F) (c : InterruptContext) (T : Z -> Layout.term).

(** What printing leaves alone of the kernel. *)
Record kept k k' : Prop := {
  kp_memory : memory_ k' = memory_ k; kp_system : system (vault k') = system (vault k);
  kp_keys : Keys (vault k') = Keys (vault k); kp_termination : termination k' = termination k }.

(** The text [cs] on the window of [core]. *)
Definition on_core (core : Z) (cs : list Z) T : Z -> Layout.term :=
  upd T (Layout.DEBUG core) (Layout.printed (Layout.DEBUG core) cs (T (Layout.DEBUG core))).

Lemma on_core_app core cs cs' T o : on_core core cs' (on_core core cs T) o = on_core core (cs ++ cs') T o.
Proof.
  unfold on_core. rewrite upd_eq, Layout.printed_app. unfold upd. by destruct (o =? Layout.DEBUG core).
Qed.
Lemma on_core_user core cs T : 0 <= core < Config.MAX_CORES -> on_core core cs T UserOutput = T UserOutput.
Proof. intros Hc. unfold on_core. apply upd_ne. unfold UserOutput, Layout.USER_OUTPUT, Layout.DEBUG, Config.MAX_CORES in *. lia. Qed.

Lemma DBG_prints core l T s k : 0 <= core < Config.MAX_CORES -> Layout.line_ok l -> Layout.debug_ok T (console s k) ->
  exists s' k', DBG core (l ++ [EndLine]) s k = Ok (s', k') /\ kept k k' /\ gdt s' = gdt s /\
    Layout.debug_ok (on_core core (rendered 10 (l ++ [EndLine])) T) (console s' k').
Proof.
  intros Hc Hl HD. destruct (Layout.DBG_ok core l EndLine T (console s k) Hc Hl (or_introl eq_refl) HD) as (x & E & HD').
  unfold DBG. rewrite E. cbn [obind]. eexists _, _. split; [reflexivity|]. split; [by split|]. split; [done|].
  by destruct x as [st at_ []].
Qed.

Lemma report_prints core l c T s k : 0 <= core < Config.MAX_CORES -> Layout.line_ok l -> context_ok c ->
  Layout.debug_ok T (console s k) ->
  exists s' k', report core (l ++ [EndLine]) c s k = Ok (s', k') /\ kept k k' /\ gdt s' = gdt s /\
    Layout.debug_ok (on_core core (rendered 10 (l ++ [EndLine]) ++ rendered 10 (PrintContext c)) T) (console s' k').
Proof.
  intros Hcore Hl Hc HD. destruct (DBG_prints core l T s k Hcore Hl HD) as (s1 & k1 & E1 & [S1 S2 S3 S4] & G1 & D1).
  destruct (DBG_prints core (context_line c) _ s1 k1 Hcore (context_line_ok c Hc) D1) as (s2 & k2 & E2 & [] & G2 & D2).
  exists s2, k2. unfold report. rewrite E1. cbn [obind]. change (context_line c ++ [EndLine]) with (PrintContext c) in *.
  split; [exact E2|]. split; [split; congruence|]. split; [congruence|].
  eapply Layout.debug_ok_ext; [|exact D2]. intros o. apply on_core_app.
Qed.

(** All windows but that of the core are as they were, so the user's is. *)
Lemma printed_kernel_ok own pop A T cs core k s' k' : 0 <= core < Config.MAX_CORES ->
  kernel_ok stack_owner own pop A (Layout.tty (T UserOutput)) k -> kept k k' ->
  Layout.debug_ok (on_core core cs T) (console s' k') -> kernel_ok stack_owner own pop A (Layout.tty (T UserOutput)) k'.
Proof.
  intros Hcore [H1 H2 H3 H4 H5 H6] [S4 S5 S6 S7] HD.
  assert (Hu : UserOutput ∈ Layout.objects) by (unfold UserOutput, Layout.USER_OUTPUT, Layout.objects; set_solver).
  pose proof (Layout.do_objects _ _ HD UserOutput Hu) as [O1 O2 O3 _ _ _ _]. rewrite on_core_user in O3 by done.
  split; rewrite ?S4, ?S5, ?S6; done.
Qed.

Variable resume_at : Z.
Variable Name : Z -> option (list Z).
Hypothesis names_ok : forall x, name_ok (Name x).

(** Each of the five handlers, on either side of the privilege check. *)
Lemma handle_fault v core address e vector c T s k : 0 <= core < Config.MAX_CORES -> v ∈ program_faults ->
  (v = PAGE_FAULT -> KernelStack.IsGuardPage (stacks s) address = false) ->
  is_word 64 address -> is_word 64 e -> context_ok c -> Layout.debug_ok T (console s k) ->
  if Z.land (Cs c) 3 =? 3
  then exists s' k', handle resume_at Name (handler_for (VectorNumber v)) core address e vector c s k =
      Ok ({| Ip := resume_at; Cs := KERNEL_CODE; Flags := 0x202; Sp := Gdt.GetKernelStack core (gdt s) -64 8;
             Ss := KERNEL_DATA |}, (s', k')) /\
    s_Death s' core = {| Reason := cause v; Status := HK_EXIT_FAULT_BASE + VectorNumber v |} /\
    kept k k' /\
    Layout.debug_ok (on_core core (rendered 10 (fault_line v address e ++ [EndLine]) ++ rendered 10 (PrintContext c)) T)
      (console s' k')
  else exists message, handle resume_at Name (handler_for (VectorNumber v)) core address e vector c s k = Panic message.
Proof.
  intros Hcore Hv Hg Ha He Hc HD.
  destruct (report_prints core _ c T s k Hcore (fault_line_ok v address e Hv Ha He) Hc HD) as (s1 & k1 & E & HS & HG & HD').
  unfold program_faults in Hv. rewrite !elem_of_cons, elem_of_nil in Hv.
  assert (HK : forall message, kill_or_panic resume_at core (fault_line v address e ++ [EndLine]) (cause v) v message c s k =
    if Z.land (Cs c) 3 =? 3
    then Ok ({| Ip := resume_at; Cs := KERNEL_CODE; Flags := 0x202; Sp := Gdt.GetKernelStack core (gdt s1) -64 8; Ss := KERNEL_DATA |},
      ({| s_Death := upd (s_Death s1) core {| Reason := cause v; Status := HK_EXIT_FAULT_BASE + VectorNumber v |};
          gdt := gdt s1; stacks := stacks s1; debug_streams := debug_streams s1; debug_attributes := debug_attributes s1 |}, k1))
    else Panic message).
  { intros message. unfold kill_or_panic. rewrite E. cbn [obind]. unfold KillUserTask.
    by destruct (Z.land (Cs c) 3 =? 3). }
  assert (HH : exists message, handle resume_at Name (handler_for (VectorNumber v)) core address e vector c s k =
    kill_or_panic resume_at core (fault_line v address e ++ [EndLine]) (cause v) v message c s k).
  { destruct Hv as [->|[->|[->|[->|[->|[]]]]]]; try specialize (Hg eq_refl); cbn [VectorNumber]; eexists; try reflexivity.
    cbn. unfold PageFault. rewrite Hg. reflexivity. }
  destruct HH as [message HH]. rewrite HH, HK. destruct (Z.land (Cs c) 3 =? 3); [|by eexists].
  eexists _, _. rewrite HG. split; [reflexivity|]. split; [apply upd_eq|]. by split.
Qed.

(** The stack an interrupt from ring 3 enters on is the running thread's own. *)
Lemma running_stack pop A y core : sys_sim stack_owner pop A y -> caller core A ->
  Sched.tss_stack (System.sched y) core = Sched.StackTop (System.sched y) (s_run A core).
Proof.
  intros HS (Hc & Hr & _). rewrite <- (ss_run _ _ _ _ HS) in Hr |- * by done.
  destruct (ss_inv _ _ _ _ HS) as (bl & HY & _). pose proof (y_inv _ _ _ _ _ _ _ HY) as HI.
  by destruct (i_active _ _ _ _ HI core Hc Hr) as (_ & _ & _ & _ & ? & _).
Qed.

Lemma core_range core A : caller core A -> 0 <= core < Config.MAX_CORES.
Proof. intros [Hc _]. pose proof ml_count. unfold is_core in Hc. lia. Qed.

(** The rest of the task's life, after the handler has printed [cs]. *)
Lemma Terminate_faulted pop A T k core s v own cs : caller core A ->
  kernel_ok stack_owner own pop A (Layout.tty (T UserOutput)) k -> Layout.debug_ok (on_core core cs T) (console s k) ->
  s_Death s core = {| Reason := cause v; Status := HK_EXIT_FAULT_BASE + VectorNumber v |} -> v ∈ program_faults ->
  exists s' k', TerminateFaultedTask Name core s k = Ok (Ended, (s', k')) /\
    kernel_ok stack_owner own pop (astep (System.EExit core) A) (Layout.tty (T UserOutput)) k' /\
    User.Status (termination k') = 128 + VectorNumber v /\
    User.Count (termination k') = u32 (User.Count (termination k) + 1) /\
    memory_ k' = memory_ k /\ Keys (vault k') = Keys (vault k) /\
    Layout.debug_ok (on_core core (cs ++
        rendered 10 (Terminated (Name (s_run A core)) (cause v) (128 + VectorNumber v) core)) T) (console s' k').
Proof.
  intros Hcall Hk HD Hdeath Hv. pose proof (core_range core A Hcall) as Hcore.
  pose proof Hcall as (Hc & Hr & _). pose proof (ko_sys _ _ _ _ _ _ Hk) as HS.
  assert (Hname : ActiveName Name core k = Name (s_run A core)).
  { unfold ActiveName, Sched.Active. rewrite (ss_run _ _ _ _ HS) by done. by rewrite (proj2 (Z.eqb_neq _ _) Hr). }
  unfold TerminateFaultedTask. rewrite Hdeath. cbn [Reason Status]. rewrite Hname.
  destruct (DBG_prints core (end_line (Name (s_run A core)) (cause v) (HK_EXIT_FAULT_BASE + VectorNumber v) core)
    (on_core core cs T) s k Hcore) as (s1 & k1 & E1 & S1 & _ & D1); [apply end_line_ok; [apply names_ok| |done]|exact HD|].
  { unfold Config.MAX_CORES in Hcore. unfold is_word. lia. }
  rewrite end_line_all in *. rewrite E1. cbn [obind].
  assert (HD' : Layout.debug_ok (on_core core (cs ++ rendered 10 (Terminated (Name (s_run A core)) (cause v)
      (128 + VectorNumber v) core)) T) (console s1 k1)) by (eapply Layout.debug_ok_ext; [|exact D1]; intros o; apply on_core_app).
  pose proof (printed_kernel_ok own pop A T _ core k s1 k1 Hcore Hk S1 HD') as Hk1.
  pose proof Hk1 as [Ht HS1 Hkeys Hcodes Hw Hs]. destruct S1 as [S4 S5 S6 S7].
  destruct (exec_exit stack_owner core pop A _ HS1 Hcall) as (y & HE & HS').
  unfold Terminate. rewrite HE. cbn [obind]. eexists s1, _. split; [reflexivity|]. split; [by split|].
  rewrite <- S4, <- S6, <- S7. by split_and!.
Qed.

(** C25: A program that divides by zero, executes a wrong or privileged instruction, breaks its stack
    segment or touches memory it must not (an address outside the kernel's guard pages) only takes
    itself down.  Whatever the rest of its frame holds, the handler prints its line and the context
    and returns into the kernel, on the kernel's segments with interrupts on and at the top of the
    faulting thread's own kernel stack.  What runs there, on the same core, prints the line that
    names the cause, ends the task with status 128 plus the vector and leaves page tables and keys
    alone and the scheduler consistent.  The three lines appear on the debug window of the core, and
    every other window, the user's among them, shows what it showed.  The same fault in ring 0
    panics.  Not among these faults are those of [user_access_to_guard_page_panics] and
    [user_single_step_panics]; a thread that is moved to another core before it reports its end
    reports that core's last death instead, [migrated_death_reports_another]. *)
Theorem ring3_fault_ends_only_the_task own pop A T k core s v address e vector c :
  kernel_ok stack_owner own pop A (Layout.tty (T UserOutput)) k -> caller core A -> Layout.debug_ok T (console s k) ->
  Gdt.GetKernelStack core (gdt s) = Sched.tss_stack (System.sched (system (vault k))) core ->
  is_word 64 address -> is_word 64 e -> context_ok c ->
  v ∈ program_faults -> (v = PAGE_FAULT -> KernelStack.IsGuardPage (stacks s) address = false) ->
  if Z.land (Cs c) 3 =? 3
  then exists c' s1 k1 s' k',
    handle resume_at Name (handler_for (VectorNumber v)) core address e vector c s k = Ok (c', (s1, k1)) /\
    (Ip c' = resume_at /\ Cs c' = KERNEL_CODE /\ Ss c' = KERNEL_DATA /\ Flags c' = 0x202 /\
     Sp c' = Sched.StackTop (System.sched (system (vault k))) (s_run A core) -64 8) /\
    TerminateFaultedTask Name core s1 k1 = Ok (Ended, (s', k')) /\
    kernel_ok stack_owner own pop (astep (System.EExit core) A) (Layout.tty (T UserOutput)) k' /\
    User.Status (termination k') = 128 + VectorNumber v /\
    User.Count (termination k') = u32 (User.Count (termination k) + 1) /\
    memory_ k' = memory_ k /\ Keys (vault k') = Keys (vault k) /\
    Layout.debug_ok (on_core core (rendered 10 (fault_line v address e ++ [EndLine]) ++ rendered 10 (PrintContext c) ++
        rendered 10 (Terminated (Name (s_run A core)) (cause v) (128 + VectorNumber v) core)) T) (console s' k')
  else exists message, handle resume_at Name (handler_for (VectorNumber v)) core address e vector c s k = Panic message.
Proof.
  intros Hk Hcall HD Htss Ha He Hc Hv Hg. pose proof (core_range core A Hcall) as Hcore.
  pose proof (handle_fault v core address e vector c T s k Hcore Hv Hg Ha He Hc HD) as HF.
  destruct (Z.land (Cs c) 3 =? 3); [|exact HF]. destruct HF as (s1 & k1 & HF & Hdeath & HS & HD1).
  pose proof (ko_sys _ _ _ _ _ _ Hk) as Hsys. rewrite Htss, (running_stack pop A _ core Hsys Hcall) in HF.
  destruct (Terminate_faulted pop A T k1 core s1 v own _ Hcall (printed_kernel_ok _ _ _ _ _ _ _ _ _ Hcore Hk HS HD1) HD1 Hdeath Hv)
    as (s' & k' & HT & Hk' & Hst & Hct & Hm & Hky & HD').
  destruct HS as [S4 S5 S6 S7]. eexists _, s1, k1, s', k'. split; [exact HF|]. split; [done|].
  rewrite Hct, Hm, Hky, S4, S6, S7, <- app_assoc in *. by split_and!.
Qed.

End Spec.

(** ** Faults that are not contained *)

Section NotContained.
Context {K : Type} {SA : StackAllocator K} {BB : Build} {CC : Context.Code} {MM : Machine}.
Context {D : Type} {HW : Hardware D} {F : Type} {FA : FrameAllocator F}.
Variable resume : Z.
Variable Name : Z -> option (list Z).
Hypothesis names_ok : forall x, name_ok (Name x).
Implicit Types (c : InterruptContext) (s : traps F) (k : kernel K D F).

(** A program that reads an address inside a kernel guard page panics the machine: the
    handler takes it for an overflow of a kernel stack before it looks at the privilege
    level. *)
Lemma user_access_to_guard_page_panics core address e vector c T s k : 0 <= core < Config.MAX_CORES ->
  is_word 64 address -> context_ok c -> Layout.debug_ok T (console s k) ->
  KernelStack.IsGuardPage (stacks s) address = true ->
  handle resume Name (handler_for (VectorNumber PAGE_FAULT)) core address e vector c s k = Panic "Kernel stack overflow".
Proof.
  intros Hcore Ha Hc HD Hg. cbn. unfold PageFault, report_and_panic. rewrite Hg.
  assert (Hn : Layout.clean (Str (ActiveName Name core k))).
  { unfold ActiveName. case_match; [|by refine (bool_decide_eq_true_1 _ _)]. pose proof (names_ok (Sched.Active core
      (System.sched (system (vault k))))) as H'. destruct (Name _); [by apply bytes_clean|exact I]. }
  destruct (report_prints core [Lit "Kernel stack overflow in '"; Str (ActiveName Name core k); Lit "' at "; Pointer address;
    Lit " on core "; Dec; UInt core] c T s k Hcore) as (s' & k' & E & _); [|done..|].
  - split; [| |reflexivity]; repeat (apply Forall_cons; split; [first [exact I|exact Hn|exact Ha|by refine (bool_decide_eq_true_1 _ _)|
      unfold Config.MAX_CORES in Hcore; cbn; unfold is_word; lia]|]); constructor.
  - cbn [app] in E. by rewrite E.
Qed.

(** So does one that sets the trap flag in its own flags. *)
Lemma user_single_step_panics core address e vector c T s k : 0 <= core < Config.MAX_CORES -> is_word 16 vector ->
  context_ok c -> Layout.debug_ok T (console s k) ->
  handle resume Name (handler_for (VectorNumber DEBUG)) core address e vector c s k = Panic "Unexpected interrupt".
Proof.
  intros Hcore Hv Hc HD. cbn. unfold report_and_panic.
  destruct (report_prints core [Lit "Unexpected interrupt, LAPIC vector "; Dec; UShort vector] c T s k Hcore)
    as (s' & k' & E & _); [|done..|].
  - split; [| |reflexivity]; repeat (apply Forall_cons; split; [first [exact I|exact Hv|by refine (bool_decide_eq_true_1 _ _)]|]); constructor.
  - cbn [app] in E. by rewrite E.
Qed.

Lemma report_keeps_deaths core l c s k s' k' : report core l c s k = Ok (s', k') -> s_Death s' = s_Death s.
Proof.
  unfold report, DBG. intros H. destruct (Layout.DBG core l _); simplify_eq/=.
  destruct (Layout.DBG core (PrintContext c) _); by simplify_eq/=.
Qed.

(** The cause of death is kept per core, but is read with interrupts on: a thread that was
    moved to another core in between reports what that core has. *)
Lemma migrated_death_reports_another v core other address e vector c c' s s' k k' :
  handle resume Name (handler_for (VectorNumber v)) core address e vector c s k = Ok (c', (s', k')) -> other <> core ->
  s_Death s' other = s_Death s other.
Proof.
  assert (HK : forall line reason u message, kill_or_panic resume core line reason u message c s k = Ok (c', (s', k')) ->
    other <> core -> s_Death s' other = s_Death s other).
  { intros line reason u message H Hne. unfold kill_or_panic in H.
    destruct (report core line c s k) as [[s1 k1]| | | |] eqn:E; try done. cbn [obind] in H. unfold KillUserTask in H.
    rewrite <- (report_keeps_deaths _ _ _ _ _ _ _ E).
    destruct (Z.land (Cs c) 3 =? 3); cbn [negb] in H; [|done]. injection H as <- <- <-. cbn [s_Death]. by rewrite upd_ne. }
  assert (HP : forall line message, report_and_panic core line message c s k = Ok (c', (s', k')) -> False).
  { intros line message H. unfold report_and_panic in H. by destruct (report core line c s k). }
  intros HH Hne. destruct v; cbn in HH; try (by apply HK in HH); try (by apply HP in HH); try (by simplify_eq).
  unfold PageFault in HH. destruct (KernelStack.IsGuardPage _ _); [by apply HP in HH|by apply HK in HH].
Qed.
End NotContained.

(** ** Witness *)

#[local] Existing Instances demo_machine demo_code checked_build FrameSpec.debug_build quiet_hardware.

(** The screen after the constructors of the streams. *)
Definition fresh_screen : Layout.screen unit :=
  foldl (fun s this => Layout.Construct this s)
    {| Layout.streams := fun _ => OutputStream.Create; Layout.attributes := fun _ => 0; Layout.shown := screen demo_kernel |}
    Layout.objects.

Definition faulting_kernel : kernel Z unit Frame.Frame.t := with_display demo_kernel (Layout.shown fresh_screen).

Definition demo_traps : traps Frame.Frame.t :=
  {| s_Death := fun _ => {| Reason := "none"; Status := 0 |};
     gdt := Gdt.SetKernelStack 1 (Sched.tss_stack (System.sched demo_y4) 1)
       {| Gdt.table := Gdt.s_LongMode;
          Gdt.s_TaskState := fun _ => {| Gdt.Rsp0 := 0; Gdt.Ist1 := 0; Gdt.IoMapBase := 104 |};
          Gdt.task_register := fun _ => 0 |};
     stacks := {| KernelStack.paging := note_tables; KernelStack.s_NextSlot := Config.KERNEL_STACK_BASE |};
     debug_streams := Layout.streams fresh_screen; debug_attributes := Layout.attributes fresh_screen |}.

Definition user_frame : InterruptContext := {| Ip := 0x400078; Cs := 0x2b; Flags := 0x202; Sp := 0x7ffffffff000; Ss := 0x23 |}.
Definition demo_name (x : Z) : option (list Z) := Some (codes "hello").

Lemma fresh_objects this : this ∈ Layout.objects -> Layout.object_ok Layout.fresh_term this fresh_screen.
Proof.
  intros H. apply (Layout.constructors_ok Layout.objects) with (built := []).
  - by refine (bool_decide_eq_true_1 _ _).
  - done.
  - intros o Ho. by apply elem_of_nil in Ho.
  - by right.
Qed.

Lemma console_put (s : traps Frame.Frame.t) (k : kernel Z unit Frame.Frame.t) x : debug_streams s = Layout.streams x ->
  debug_attributes s = Layout.attributes x -> console s (with_display k (Layout.shown x)) = x.
Proof. intros E1 E2. unfold console. rewrite E1, E2. by destruct x as [? ? []]. Qed.
Lemma demo_console : console demo_traps faulting_kernel = fresh_screen.
Proof. exact (console_put demo_traps demo_kernel fresh_screen eq_refl eq_refl). Qed.

Lemma quiet_fresh : Layout.quiet OutputStream.Create.
Proof. by split. Qed.

Lemma demo_debug_ok : Layout.debug_ok (fun _ => Layout.fresh_term) (console demo_traps faulting_kernel).
Proof.
  rewrite demo_console. split; [apply fresh_objects|done|..].
  - exact quiet_fresh.
  - exact quiet_fresh.
Qed.

Lemma faulting_kernel_ok : exists own, kernel_ok demo_owner own demo_pop demo_A4 (Layout.tty Layout.fresh_term) faulting_kernel.
Proof.
  destruct demo_kernel_ok as [own Hk]. exists own.
  apply (printed_kernel_ok demo_owner own demo_pop demo_A4 (fun _ => Layout.fresh_term) [] 1 demo_kernel demo_traps); [done|done|by split|].
  eapply Layout.debug_ok_ext; [|exact demo_debug_ok]. intros o. unfold on_core, upd. by case_match.
Qed.

Lemma ring3_fault_ends_only_the_task_witness :
  exists c' s1 k1 s' k',
    handle 0xffffffff80001000 demo_name (handler_for (VectorNumber GENERAL_PROTECTION_FAULT)) 1 0 0 0 user_frame demo_traps
      faulting_kernel = Ok (c', (s1, k1)) /\
    TerminateFaultedTask demo_name 1 s1 k1 = Ok (Ended, (s', k')) /\ User.Status (termination k') = 141.
Proof.
  destruct faulting_kernel_ok as [own Hk].
  pose proof (ring3_fault_ends_only_the_task demo_owner 0xffffffff80001000 demo_name
    ltac:(intros x; by refine (bool_decide_eq_true_1 _ _)) own demo_pop demo_A4 (fun _ => Layout.fresh_term) faulting_kernel 1
    demo_traps GENERAL_PROTECTION_FAULT 0 0 0 user_frame Hk demo_caller demo_debug_ok) as H.
  change (Z.land (Cs user_frame) 3 =? 3) with true in H. destruct H as (c' & s1 & k1 & s' & k' & H1 & _ & H2 & _ & H3 & _).
  - vm_compute. reflexivity.
  - done.
  - done.
  - by split.
  - unfold program_faults. set_solver.
  - discriminate.
  - exists c', s1, k1, s', k'. split; [exact H1|]. split; [exact H2|exact H3].
Defined.

Lemma interrupt_table_total_and_typed_witness :
  Idt.gate_ok (InstallHandlers (fun _ => 0xffffffff80001000) (fun _ => 0) 14) 0xffffffff80001000 1.
Proof.
  destruct (interrupt_table_total_and_typed (fun _ => 0xffffffff80001000) (fun _ => 0) 14) as [H _].
  - intros h. split; [discriminate|reflexivity].
  - lia.
  - exact H.
Defined.
