(* ===== verification/Smp.v ===== *)
(** * Boot/SmpBoot.cpp: starting the other cores

    The start-up code is copied below 1 MiB, where a core that comes out of reset can
    execute it, its descriptor table and the pointer to it are rewritten for the new place,
    and the INIT and STARTUP interrupts are sent. *)

From S2P Require Import Prelude Mem Config Device Pit LocalApic Traps.

Module SmpBoot.
Import Gdt.

(** The linker's addresses, and that of the constant table. *)
Record linked := {
  AP_TRAMPOLINE_START : Z; AP_TRAMPOLINE_END : Z;
  ApTrampolineGdt : Z; ApTrampolineGdtPointer : Z;
  GDT_BLUEPRINT : Z }.

Definition s_TrampolineGdt : list Z :=
  [0; Segment 0 UINT32_MAX true 0 BIT32; Segment 0 UINT32_MAX false 0 BIT32].
Definition SIZEOF_GDT : Z := 24.

Definition RelocateTrampoline (L : linked) (m : mem) : mem :=
  let length := AP_TRAMPOLINE_END L -64 AP_TRAMPOLINE_START L in
  let target := Config.AP_TRAMPOLINE_ADDRESS in
  let m := CString.memcpy m target (AP_TRAMPOLINE_START L) length in
  let gdtOffset := ApTrampolineGdt L -64 AP_TRAMPOLINE_START L in
  let pointerOffset := ApTrampolineGdtPointer L -64 AP_TRAMPOLINE_START L in
  let relocatedGdt := Config.AP_TRAMPOLINE_ADDRESS +64 gdtOffset in
  let m := CString.memcpy m relocatedGdt (GDT_BLUEPRINT L) SIZEOF_GDT in
  let relocatedPointer := Config.AP_TRAMPOLINE_ADDRESS +64 pointerOffset in
  let m := store m relocatedPointer 2 (u16 (3 * 8 - 1)) in
  store64 m (relocatedPointer + 2) relocatedGdt.

Section Boot.
Context {D : Type} {HW : Hardware D} {BB : Build}.

Definition startupVector : Z := u8 (Z.shiftr Config.AP_TRAMPOLINE_ADDRESS 12).

(** [enabled] is [Cpu::Interrupt::IsEnabled()], [count] is [Cpu::Count()]. *)
Definition Boot (L : linked) (s_BaseAddress : Z) (patience : nat) (enabled : bool) (count : Z) (s : mem * D)
    : outcome (mem * D) :=
  let* _ := ASSERT (negb enabled) "!Cpu::Interrupt::IsEnabled()" in
  if count <=? 1 then Ok s
  else
    let m := RelocateTrampoline L s.1 in
    let* (_, d) :=
      (LocalApic.SendInit s_BaseAddress patience true ;;;
       Pit.Delay patience 10000 ;;;
       LocalApic.SendStartup s_BaseAddress patience startupVector ;;;
       Pit.Delay patience 200 ;;;
       LocalApic.SendStartup s_BaseAddress patience startupVector) s.2 in
    Ok (m, d).
End Boot.

(** The flat 32-bit code and data segments a core can leave real mode with. *)
Lemma trampoline_segments : s_TrampolineGdt = [0; 0x00cf9a000000ffff; 0x00cf92000000ffff].
Proof. vm_compute. reflexivity. Qed.

(** The section fits between its address and 1 MiB, holds table and pointer one behind the
    other, and is linked above the place it is copied to, like the table's blueprint. *)
Record linked_ok (L : linked) (m : mem) : Prop := {
  lo_order : AP_TRAMPOLINE_START L <= ApTrampolineGdt L /\
    ApTrampolineGdt L + SIZEOF_GDT <= ApTrampolineGdtPointer L /\
    ApTrampolineGdtPointer L + 10 <= AP_TRAMPOLINE_END L;
  lo_size : AP_TRAMPOLINE_END L - AP_TRAMPOLINE_START L <= MIB - Config.AP_TRAMPOLINE_ADDRESS;
  lo_high : MIB <= AP_TRAMPOLINE_START L /\ AP_TRAMPOLINE_END L < 2 ^ 64 /\
    MIB <= GDT_BLUEPRINT L /\ GDT_BLUEPRINT L + SIZEOF_GDT < 2 ^ 64;
  lo_blueprint i e : s_TrampolineGdt !! i = Some e -> load64 m (GDT_BLUEPRINT L + 8 * Z.of_nat i) = e }.

Lemma load_shift m m' a b n : (forall j, 0 <= j < Z.of_nat n -> load8 m' (a + j) = load8 m (b + j)) ->
  load m' a n = load m b n.
Proof.
  revert a b. induction n as [|n IH]; intros a b H; [done|].
  change (load8 m' a + 256 * load m' (a + 1) n = load8 m b + 256 * load m (b + 1) n).
  rewrite (IH (a + 1) (b + 1)).
  - specialize (H 0 ltac:(lia)). rewrite !Z.add_0_r in H. by rewrite H.
  - intros j Hj. specialize (H (j + 1) ltac:(lia)). by rewrite <- !Z.add_assoc, (Z.add_comm 1 j).
Qed.

Abbreviation AP := Config.AP_TRAMPOLINE_ADDRESS.

(** The copy runs where it is: the code is what was linked, the pointer designates the
    relocated table, the table holds the three descriptors, nothing but the copy's range
    changed, and the STARTUP interrupt names its page. *)
Lemma trampoline_relocated L m : linked_ok L m ->
  let off a := a - AP_TRAMPOLINE_START L in
  let gdt := AP + off (ApTrampolineGdt L) in
  let pointer := AP + off (ApTrampolineGdtPointer L) in
  let m' := RelocateTrampoline L m in
  (forall a, a < AP \/ AP + off (AP_TRAMPOLINE_END L) <= a -> load8 m' a = load8 m a) /\
  (forall i, 0 <= i < off (AP_TRAMPOLINE_END L) -> i < off (ApTrampolineGdt L) \/
     off (ApTrampolineGdt L) + SIZEOF_GDT <= i < off (ApTrampolineGdtPointer L) \/
     off (ApTrampolineGdtPointer L) + 10 <= i ->
     load8 m' (AP + i) = load8 m (AP_TRAMPOLINE_START L + i)) /\
  (forall i e, s_TrampolineGdt !! i = Some e -> load64 m' (gdt + 8 * Z.of_nat i) = e) /\
  load16 m' pointer = 23 /\ load64 m' (pointer + 2) = gdt /\ startupVector * 4096 = AP.
Proof.
  intros [[Ho1 [Ho2 Ho3]] Hs [Hh1 [Hh2 [Hh3 Hh4]]] Hb] off gdt pointer m'.
  unfold SIZEOF_GDT, MIB, KIB, Config.AP_TRAMPOLINE_ADDRESS in *.
  set (n := off (AP_TRAMPOLINE_END L)). set (m1 := CString.memcpy m AP (AP_TRAMPOLINE_START L) n).
  set (m2 := CString.memcpy m1 gdt (GDT_BLUEPRINT L) 24).
  assert (Em : m' = store64 (store m2 pointer 2 23) (pointer + 2) gdt).
  { subst m' m2 m1 n pointer gdt off. unfold RelocateTrampoline, SIZEOF_GDT, Config.AP_TRAMPOLINE_ADDRESS.
    rewrite (wrap_small 64 (AP_TRAMPOLINE_END L - _)), (wrap_small 64 (ApTrampolineGdt L - _)),
      (wrap_small 64 (ApTrampolineGdtPointer L - _)) by (unfold is_word; lia).
    rewrite !(wrap_small 64) by (unfold is_word; lia). reflexivity. }
  assert (H1 : forall a, load8 m1 a = if (AP <=? a) && (a <? AP + n) then load8 m (AP_TRAMPOLINE_START L + (a - AP)) else load8 m a).
  { intros a. subst m1. rewrite (CString.memcpy_moved m AP (AP_TRAMPOLINE_START L) n) by (unfold n, off, Config.AP_TRAMPOLINE_ADDRESS; lia).
    apply CString.load8_moved. }
  assert (H2 : forall a, load8 m2 a = if (gdt <=? a) && (a <? gdt + 24) then load8 m1 (GDT_BLUEPRINT L + (a - gdt)) else load8 m1 a).
  { intros a. subst m2. rewrite (CString.memcpy_moved m1 gdt (GDT_BLUEPRINT L) 24) by (unfold gdt, off, Config.AP_TRAMPOLINE_ADDRESS; lia).
    apply CString.load8_moved. }
  assert (H' : forall a, a < pointer \/ pointer + 10 <= a -> load8 m' a = load8 m2 a).
  { intros a Ha. rewrite Em. rewrite !load8_store_out by lia. done. }
  clearbody m1 m2. unfold Config.AP_TRAMPOLINE_ADDRESS in *.
  assert (Hrange : AP + off (ApTrampolineGdt L) = gdt /\ AP + off (ApTrampolineGdtPointer L) = pointer) by done.
  unfold Config.AP_TRAMPOLINE_ADDRESS in Hrange. subst n. unfold off in *. split_and!.
  - intros a Ha. rewrite H', H2, !H1 by lia. repeat case_test; lia || done.
  - intros i Hi Hout. rewrite H', H2, !H1 by lia. repeat case_test; try lia; cbn [andb]; try done; f_equal; lia.
  - intros i e He. rewrite <- (Hb i e He). assert (Hi : (i < 3)%nat) by (apply lookup_lt_Some in He; exact He).
    apply load_shift. intros j Hj. rewrite H', H2, !H1 by lia. repeat case_test; try lia; cbn [andb]; try done; f_equal; lia.
  - rewrite Em, load_store_disj by lia. by rewrite load_store_same.
  - rewrite Em, load64_store64; [done|]. unfold is_word. lia.
  - done.
Qed.
End SmpBoot.
