(* ===== verification/Boot.v ===== *)
(** * Boot/Multiboot.cpp: what the boot loader hands over

    The parser of the Multiboot2 and Multiboot1 information, over byte memory reached
    through the direct map, and the accessors the memory components use.  The parser
    keeps pointers into the loader's memory, as the code does. *)

From S2P Require Import Prelude Mem Config.

Module Loader.
Import Multiboot.

Definition LOADER_MAGIC_V1 : Z := 0x2badb002.
Definition LOADER_MAGIC_V2 : Z := 0x36d76289.

(** ** Layouts *)

Module V2.
Definition END : Z := 0.
Definition CMDLINE : Z := 1.
Definition BOOT_LOADER_NAME : Z := 2.
Definition MODULE : Z := 3.
Definition MEMORY_MAP : Z := 6.
Definition FRAMEBUFFER : Z := 8.
Definition ACPI_OLD : Z := 14.
Definition ACPI_NEW : Z := 15.

Definition SIZEOF_INFO_HEADER : Z := 8.
Definition SIZEOF_TAG : Z := 8.
Definition SIZEOF_MEMORY_MAP_TAG : Z := 16.
Definition TotalSize (m : mem) (a : Z) : Z := load32 m a.
Definition Type_ (m : mem) (tag : Z) : Z := load32 m tag.
Definition Size (m : mem) (tag : Z) : Z := load32 m (tag + 4).
Definition Next (m : mem) (tag : Z) : Z := Z.land ((tag +64 Size m tag) +64 7) (~64 7).
End V2.

Module V1.
Definition CMDLINE : Z := Z.shiftl 1 2.
Definition MODULES : Z := Z.shiftl 1 3.
Definition MEMORY_MAP : Z := Z.shiftl 1 6.
Definition BOOT_LOADER_NAME : Z := Z.shiftl 1 9.

Definition SIZEOF_INFO : Z := 52.
Definition SIZEOF_MEMORY_MAP_ENTRY : Z := 24.
Definition SIZEOF_MODULE_ENTRY : Z := 16.
Definition Flags (m : mem) (i : Z) : Z := load32 m i.
Definition CommandLine (m : mem) (i : Z) : Z := load32 m (i + 16).
Definition ModuleCount (m : mem) (i : Z) : Z := load32 m (i + 20).
Definition ModuleAddress (m : mem) (i : Z) : Z := load32 m (i + 24).
Definition Syms3 (m : mem) (i : Z) : Z := load32 m (i + 40).
Definition MemoryMapLength (m : mem) (i : Z) : Z := load32 m (i + 44).
Definition MemoryMapAddress (m : mem) (i : Z) : Z := load32 m (i + 48).
End V1.

(** ** State *)

Inductive Standard := NONE | STANDARD_V1 | STANDARD_V2.

Record Framebuffer := {
  FbAddress : Z; Pitch : Z; Width : Z; Height : Z; BitsPerPixel : Z; FbType : Z }.

Record t := {
  s_Standard : Standard;
  s_CommandLine : Z;
  s_BootLoaderName : Z;
  s_AcpiRsdp : Z;
  s_MemoryMapEntries : Z;
  s_MemoryMapEntrySize : Z;
  s_MemoryRegionCount : Z;
  s_Modules : list Z;                  (* the first [s_ModuleCount] elements *)
  s_Framebuffer : option Framebuffer }.

Definition MAX_MODULES : nat := 16.
Definition s_ModuleCount (s : t) : Z := Z.of_nat (length (s_Modules s)).

Definition Blank : t :=
  {| s_Standard := NONE; s_CommandLine := 0; s_BootLoaderName := 0; s_AcpiRsdp := 0; s_MemoryMapEntries := 0;
     s_MemoryMapEntrySize := 0; s_MemoryRegionCount := 0; s_Modules := []; s_Framebuffer := None |}.

Definition with_CommandLine (s : t) (x : Z) : t :=
  {| s_Standard := s_Standard s; s_CommandLine := x; s_BootLoaderName := s_BootLoaderName s; s_AcpiRsdp := s_AcpiRsdp s;
     s_MemoryMapEntries := s_MemoryMapEntries s; s_MemoryMapEntrySize := s_MemoryMapEntrySize s;
     s_MemoryRegionCount := s_MemoryRegionCount s; s_Modules := s_Modules s; s_Framebuffer := s_Framebuffer s |}.
Definition with_BootLoaderName (s : t) (x : Z) : t :=
  {| s_Standard := s_Standard s; s_CommandLine := s_CommandLine s; s_BootLoaderName := x; s_AcpiRsdp := s_AcpiRsdp s;
     s_MemoryMapEntries := s_MemoryMapEntries s; s_MemoryMapEntrySize := s_MemoryMapEntrySize s;
     s_MemoryRegionCount := s_MemoryRegionCount s; s_Modules := s_Modules s; s_Framebuffer := s_Framebuffer s |}.
Definition with_AcpiRsdp (s : t) (x : Z) : t :=
  {| s_Standard := s_Standard s; s_CommandLine := s_CommandLine s; s_BootLoaderName := s_BootLoaderName s; s_AcpiRsdp := x;
     s_MemoryMapEntries := s_MemoryMapEntries s; s_MemoryMapEntrySize := s_MemoryMapEntrySize s;
     s_MemoryRegionCount := s_MemoryRegionCount s; s_Modules := s_Modules s; s_Framebuffer := s_Framebuffer s |}.
Definition with_MemoryMap (s : t) (entries size count : Z) : t :=
  {| s_Standard := s_Standard s; s_CommandLine := s_CommandLine s; s_BootLoaderName := s_BootLoaderName s;
     s_AcpiRsdp := s_AcpiRsdp s; s_MemoryMapEntries := entries; s_MemoryMapEntrySize := size;
     s_MemoryRegionCount := count; s_Modules := s_Modules s; s_Framebuffer := s_Framebuffer s |}.
Definition with_Modules (s : t) (l : list Z) : t :=
  {| s_Standard := s_Standard s; s_CommandLine := s_CommandLine s; s_BootLoaderName := s_BootLoaderName s;
     s_AcpiRsdp := s_AcpiRsdp s; s_MemoryMapEntries := s_MemoryMapEntries s; s_MemoryMapEntrySize := s_MemoryMapEntrySize s;
     s_MemoryRegionCount := s_MemoryRegionCount s; s_Modules := l; s_Framebuffer := s_Framebuffer s |}.
Definition with_Framebuffer (s : t) (f : Framebuffer) : t :=
  {| s_Standard := s_Standard s; s_CommandLine := s_CommandLine s; s_BootLoaderName := s_BootLoaderName s;
     s_AcpiRsdp := s_AcpiRsdp s; s_MemoryMapEntries := s_MemoryMapEntries s; s_MemoryMapEntrySize := s_MemoryMapEntrySize s;
     s_MemoryRegionCount := s_MemoryRegionCount s; s_Modules := s_Modules s; s_Framebuffer := Some f |}.
Definition with_Standard (s : t) (x : Standard) : t :=
  {| s_Standard := x; s_CommandLine := s_CommandLine s; s_BootLoaderName := s_BootLoaderName s;
     s_AcpiRsdp := s_AcpiRsdp s; s_MemoryMapEntries := s_MemoryMapEntries s; s_MemoryMapEntrySize := s_MemoryMapEntrySize s;
     s_MemoryRegionCount := s_MemoryRegionCount s; s_Modules := s_Modules s; s_Framebuffer := s_Framebuffer s |}.

Definition Reachable (InPhysical : Z) : Z :=
  if negb (InPhysical =? 0) then InPhysical +64 Config.DIRECT_MAP_BASE else 0.

(** [x / y] of unsigned integers traps for [y = 0]. *)
Definition divide (x y : Z) : outcome Z := if y =? 0 then Fault "divide error" else Ok (x / y).

(** ** Parsing *)

Definition ReadFramebuffer (m : mem) (tag : Z) : Framebuffer :=
  {| FbAddress := load64 m (tag + 8); Pitch := load32 m (tag + 16); Width := load32 m (tag + 20);
     Height := load32 m (tag + 24); BitsPerPixel := load8 m (tag + 28); FbType := load8 m (tag + 29) |}.

(** The [switch] over one tag. *)
Definition ParseTag (m : mem) (tag : Z) (s : t) : outcome t :=
  let type := V2.Type_ m tag in
  if type =? V2.CMDLINE then Ok (with_CommandLine s (tag + V2.SIZEOF_TAG))
  else if type =? V2.BOOT_LOADER_NAME then Ok (with_BootLoaderName s (tag + V2.SIZEOF_TAG))
  else if type =? V2.MODULE then
    Ok (if s_ModuleCount s <? Z.of_nat MAX_MODULES then with_Modules s (s_Modules s ++ [tag]) else s)
  else if type =? V2.MEMORY_MAP then
    let entry_size := load32 m (tag + 8) in
    let* count := divide (V2.Size m tag -64 V2.SIZEOF_MEMORY_MAP_TAG) entry_size in
    Ok (with_MemoryMap s (tag + V2.SIZEOF_MEMORY_MAP_TAG) entry_size (u32 count))
  else if type =? V2.FRAMEBUFFER then Ok (with_Framebuffer s (ReadFramebuffer m tag))
  else if (type =? V2.ACPI_OLD) || (type =? V2.ACPI_NEW) then
    Ok (if (s_AcpiRsdp s =? 0) || (type =? V2.ACPI_NEW) then with_AcpiRsdp s (tag + V2.SIZEOF_TAG) else s)
  else Ok s.

Fixpoint ParseV2_loop (fuel : nat) (m : mem) (tag end_ : Z) (s : t) : outcome t :=
  match fuel with
  | O => Diverges
  | S k =>
      if (tag <? end_) && negb (V2.Type_ m tag =? V2.END) then
        let* s := ParseTag m tag s in ParseV2_loop k m (V2.Next m tag) end_ s
      else Ok s
  end.

(** A tag takes eight bytes at least; only a tag of size zero makes no progress. *)
Definition ParseV2 (m : mem) (InInfo : Z) (s : t) : outcome t :=
  let size := V2.TotalSize m InInfo in
  ParseV2_loop (Z.to_nat (size / 8) + 2) m (InInfo +64 V2.SIZEOF_INFO_HEADER) (InInfo +64 size) s.

Definition ParseV1 (m : mem) (InInfo : Z) (s : t) : outcome t :=
  let has f := negb (Z.land (V1.Flags m InInfo) f =? 0) in
  let s := if has V1.CMDLINE then with_CommandLine s (Reachable (V1.CommandLine m InInfo)) else s in
  let s := if has V1.BOOT_LOADER_NAME then with_BootLoaderName s (Reachable (V1.Syms3 m InInfo)) else s in
  let* s :=
    if has V1.MEMORY_MAP && (V1.SIZEOF_MEMORY_MAP_ENTRY <=? V1.MemoryMapLength m InInfo) then
      let first := Reachable (V1.MemoryMapAddress m InInfo) in
      let size := u32 (load32 m first + 4) in
      let* count := divide (V1.MemoryMapLength m InInfo) size in
      Ok (with_MemoryMap s first size (u32 count))
    else Ok s in
  if has V1.MODULES then
    let modules := Reachable (V1.ModuleAddress m InInfo) in
    let n := Nat.min (Z.to_nat (V1.ModuleCount m InInfo)) (MAX_MODULES - length (s_Modules s)) in
    Ok (with_Modules s (s_Modules s ++ ((fun i => modules + Z.of_nat i * V1.SIZEOF_MODULE_ENTRY) <$> seq 0 n)))
  else Ok s.

Section Accessors.
(** Written by Boot/Entry.asm, and the memory the loader left. *)
Variables MultibootMagic MultibootInfo : Z.
Variable m : mem.

Definition Initialize (s : t) : outcome (bool * t) :=
  if MultibootMagic =? LOADER_MAGIC_V2 then
    let* s := ParseV2 m (Reachable MultibootInfo) (with_Standard s STANDARD_V2) in Ok (true, s)
  else if MultibootMagic =? LOADER_MAGIC_V1 then
    let* s := ParseV1 m (Reachable MultibootInfo) (with_Standard s STANDARD_V1) in Ok (true, s)
  else Ok (false, with_Standard s NONE).

Definition Describe (InStart InLength : Z) : MemoryRegion :=
  let present := negb (InStart =? 0) && negb (InLength =? 0) in
  {| Address := if present then InStart else 0; Length := if present then InLength else 0;
     Multiboot.Type_ := RESERVED |}.

(** [fuel] bounds the command line's length. *)
Definition GetInfoRegion (fuel : nat) (s : t) (InIndex : Z) : outcome (option MemoryRegion) :=
  match s_Standard s with
  | NONE => Ok None
  | STANDARD_V2 =>
      if (MultibootInfo =? 0) || (0 <? InIndex) then Ok None
      else Ok (Some (Describe MultibootInfo (V2.TotalSize m (Reachable MultibootInfo))))
  | STANDARD_V1 =>
      if MultibootInfo =? 0 then Ok None
      else
        let info := Reachable MultibootInfo in
        if InIndex =? 0 then Ok (Some (Describe MultibootInfo V1.SIZEOF_INFO))
        else if InIndex =? 1 then Ok (Some (Describe (V1.MemoryMapAddress m info) (V1.MemoryMapLength m info)))
        else if InIndex =? 2 then
          Ok (Some (Describe (V1.ModuleAddress m info) (V1.ModuleCount m info *64 V1.SIZEOF_MODULE_ENTRY)))
        else if InIndex =? 3 then
          let* length := if negb (s_CommandLine s =? 0)
                         then let* l := CString.strlen fuel m (s_CommandLine s) in Ok (l +64 1) else Ok 0 in
          Ok (Some (Describe (V1.CommandLine m info) length))
        else Ok None
  end.

Definition ReadRegion (v2 : bool) (entry : Z) : MemoryRegion :=
  if v2 then {| Address := load64 m entry; Length := load64 m (entry + 8); Multiboot.Type_ := load32 m (entry + 16) |}
  else {| Address := load64 m (entry + 4); Length := load64 m (entry + 12); Multiboot.Type_ := load32 m (entry + 20) |}.

Definition is_v2 (s : t) : bool := match s_Standard s with STANDARD_V2 => true | _ => false end.

Definition GetMemoryRegion (s : t) (InIndex : Z) : option MemoryRegion :=
  if (s_MemoryRegionCount s <=? InIndex) || (s_MemoryMapEntries s =? 0) then None
  else Some (ReadRegion (is_v2 s) (s_MemoryMapEntries s +64 u32 (InIndex * s_MemoryMapEntrySize s))).

(** The loop of [GetAvailableMemory], [n] regions from [i] on. *)
Fixpoint GetAvailableMemory_loop (n : nat) (s : t) (i total : Z) : Z :=
  match n with
  | O => total
  | S k =>
      match GetMemoryRegion s i with
      | None => total
      | Some region =>
          GetAvailableMemory_loop k s (u32 (i + 1))
            (if Multiboot.Type_ region =? AVAILABLE then total +64 Length region else total)
      end
  end.
Definition GetAvailableMemory (s : t) : Z := GetAvailableMemory_loop (Z.to_nat (s_MemoryRegionCount s)) s 0 0.

Definition GetModule (s : t) (InIndex : Z) : option Module_ :=
  match (if s_ModuleCount s <=? InIndex then None else s_Modules s !! Z.to_nat InIndex) with
  | None => None
  | Some p =>
      Some (if is_v2 s
            then {| Start := load32 m (p + 8); End_ := load32 m (p + 12); CommandLine := p + 16 |}
            else {| Start := load32 m p; End_ := load32 m (p + 4); CommandLine := Reachable (load32 m (p + 8)) |})
  end.

Definition GetFramebuffer (s : t) : option Framebuffer := s_Framebuffer s.
Definition GetAcpiRsdp (s : t) : Z := s_AcpiRsdp s.
End Accessors.
End Loader.
