(* ===== verification/BootSpec.v ===== *)
(** * The handover is read exactly

    A Multiboot2 block is a sequence of tags.  The parser is compared with a description
    of that sequence by the addresses of its tags, and the accessors with the lists the
    memory components consume. *)

From S2P Require Import Prelude Mem Config Boot.
Import Loader.

Section Tags.
Variable m : mem.

(** The tags of a block that ends at [end_], by address.  Sizes are not zero; tags are
    padded to eight bytes. *)
Inductive tags_at (end_ : Z) : Z -> list Z -> Prop :=
| tags_stop a : end_ <= a \/ V2.Type_ m a = V2.END -> tags_at end_ a []
| tags_more a l : a < end_ -> V2.Type_ m a <> V2.END -> 0 < V2.Size m a ->
    tags_at end_ (a + (V2.Size m a + 7) / 8 * 8) l -> tags_at end_ a (a :: l).

Definition of_type (type : Z) (l : list Z) : list Z := filter (fun a => V2.Type_ m a = type) l.

(** What the statics hold after a sequence of tags. *)
Record parsed (l : list Z) (s : t) : Prop := {
  p_cmdline : s_CommandLine s = default 0 ((fun a => a + 8) <$> last (of_type V2.CMDLINE l));
  p_name : s_BootLoaderName s = default 0 ((fun a => a + 8) <$> last (of_type V2.BOOT_LOADER_NAME l));
  p_modules : s_Modules s = take MAX_MODULES (of_type V2.MODULE l);
  p_rsdp : s_AcpiRsdp s = match last (of_type V2.ACPI_NEW l) with
                          | Some a => a + 8
                          | None => default 0 ((fun a => a + 8) <$> head (of_type V2.ACPI_OLD l))
                          end;
  p_map : match last (of_type V2.MEMORY_MAP l) with
          | Some a => s_MemoryMapEntries s = a + 16 /\ s_MemoryMapEntrySize s = load32 m (a + 8) /\
              s_MemoryRegionCount s = u32 ((V2.Size m a -64 16) / load32 m (a + 8))
          | None => s_MemoryRegionCount s = 0
          end;
  p_framebuffer : s_Framebuffer s = ReadFramebuffer m <$> last (of_type V2.FRAMEBUFFER l) }.

Lemma of_type_snoc type l a : of_type type (l ++ [a]) = of_type type l ++ (if decide (V2.Type_ m a = type) then [a] else []).
Proof.
  unfold of_type. rewrite filter_app, filter_cons, filter_nil. by case_decide.
Qed.

Lemma of_type_same type l a : V2.Type_ m a = type -> of_type type (l ++ [a]) = of_type type l ++ [a].
Proof. intros. by rewrite of_type_snoc, decide_True. Qed.
Lemma of_type_other type l a : V2.Type_ m a <> type -> of_type type (l ++ [a]) = of_type type l.
Proof. intros. by rewrite of_type_snoc, decide_False, app_nil_r. Qed.

Lemma parsed_other l a s : parsed l s ->
  V2.Type_ m a <> V2.CMDLINE -> V2.Type_ m a <> V2.BOOT_LOADER_NAME -> V2.Type_ m a <> V2.MODULE ->
  V2.Type_ m a <> V2.MEMORY_MAP -> V2.Type_ m a <> V2.FRAMEBUFFER -> V2.Type_ m a <> V2.ACPI_OLD ->
  V2.Type_ m a <> V2.ACPI_NEW -> parsed (l ++ [a]) s.
Proof. intros [P1 P2 P3 P4 P5 P6] **. split; rewrite !of_type_other by done; done. Qed.

Definition no_zero_entry (a : Z) : Prop := V2.Type_ m a = V2.MEMORY_MAP -> load32 m (a + 8) <> 0.

(** One tag more. *)
Lemma ParseTag_ok l a s : parsed l s -> 0 <= a -> no_zero_entry a -> Forall (fun b => 0 <= b) l ->
  exists s', ParseTag m a s = Ok s' /\ parsed (l ++ [a]) s'.
Proof.
  intros HP Ha Hz Hl. pose proof HP as [P1 P2 P3 P4 P5 P6]. unfold ParseTag. cbv zeta.
  unfold V2.CMDLINE, V2.BOOT_LOADER_NAME, V2.MODULE, V2.MEMORY_MAP, V2.FRAMEBUFFER, V2.ACPI_OLD, V2.ACPI_NEW, no_zero_entry in *.
  destruct (Z.eqb_spec (V2.Type_ m a) 1) as [E|E1].
  { eexists. split; [done|]. split; cbn; rewrite ?of_type_same by done;
      rewrite ?of_type_other by (rewrite E; done); rewrite ?last_snoc; done. }
  destruct (Z.eqb_spec (V2.Type_ m a) 2) as [E|E2].
  { eexists. split; [done|]. split; cbn; rewrite ?of_type_same by done;
      rewrite ?of_type_other by (rewrite E; done); rewrite ?last_snoc; done. }
  destruct (Z.eqb_spec (V2.Type_ m a) 3) as [E|E3].
  { eexists. split; [done|]. unfold s_ModuleCount.
    assert (HL : length (s_Modules s) = Nat.min 16 (length (of_type 3 l))) by (rewrite P3; apply length_take).
    destruct (Z.ltb_spec (Z.of_nat (length (s_Modules s))) (Z.of_nat MAX_MODULES)) as [Hlt|Hge];
      (split; cbn [s_CommandLine s_BootLoaderName s_AcpiRsdp s_MemoryMapEntries s_MemoryMapEntrySize s_MemoryRegionCount
        s_Modules s_Framebuffer with_Modules]; rewrite ?of_type_other by (rewrite E; done); try done);
      rewrite of_type_same, P3 by done; unfold MAX_MODULES, V2.MODULE in *.
    - rewrite !take_ge; [done|rewrite length_app; simpl; lia|lia].
    - rewrite take_app_le by lia. done. }
  destruct (Z.eqb_spec (V2.Type_ m a) 6) as [E|E6].
  { unfold divide. rewrite (proj2 (Z.eqb_neq _ _) (Hz E)). cbn [obind]. eexists. split; [done|].
    split; cbn; rewrite ?of_type_other by (rewrite E; done); try done.
    rewrite of_type_same, last_snoc by done. done. }
  destruct (Z.eqb_spec (V2.Type_ m a) 8) as [E|E8].
  { eexists. split; [done|]. split; cbn; rewrite ?of_type_same by done;
      rewrite ?of_type_other by (rewrite E; done); rewrite ?last_snoc; done. }
  destruct (Z.eqb_spec (V2.Type_ m a) 14) as [E|E14]; cbn [orb].
  { rewrite E. change (14 =? V2.ACPI_NEW) with false. eexists. split; [done|]. rewrite orb_false_r.
    assert (Hpos : forall b ty, b ∈ of_type ty l -> 0 <= b).
    { intros b ty Hb. apply list_elem_of_filter in Hb as [_ Hb]. rewrite Forall_forall in Hl. by apply Hl. }
    destruct (Z.eqb_spec (s_AcpiRsdp s) 0) as [H0|H0];
      (split; cbn; try (rewrite of_type_other by (rewrite E; done); done)).
    all: unfold V2.ACPI_OLD, V2.ACPI_NEW; rewrite (of_type_same 14), (of_type_other 15) by (try rewrite E; done).
    all: rewrite P4 in *; destruct (last (of_type 15 l)) as [b|] eqn:El; try done.
    - apply last_Some_elem_of, Hpos in El. lia.
    - destruct (of_type 14 l) as [|b l'] eqn:E0; [done|]. specialize (Hpos b 14). rewrite E0 in Hpos.
      simpl in H0. specialize (Hpos ltac:(left)). lia.
    - by destruct (of_type 14 l). }
  destruct (Z.eqb_spec (V2.Type_ m a) 15) as [E|E15]; cbn [orb].
  { rewrite orb_true_r. eexists. split; [done|]. split; cbn; rewrite ?(of_type_same 15) by done;
      rewrite ?of_type_other by (rewrite E; done); rewrite ?last_snoc; done. }
  exists s. split; [done|]. by apply parsed_other.
Qed.

(** ** The loop *)

Lemma Next_eq a : 0 <= a -> a mod 8 = 0 -> a + V2.Size m a + 8 < 2 ^ 64 ->
  V2.Next m a = a + (V2.Size m a + 7) / 8 * 8.
Proof.
  intros Ha Hm Hb. pose proof (load32_range m (a + 4)) as Hs. unfold is_word in Hs. fold (V2.Size m a) in Hs.
  unfold V2.Next. rewrite (wrap_small 64 (a + V2.Size m a)) by (unfold is_word; lia).
  rewrite wrap_small by (unfold is_word; lia). change (~64 7) with (Z.shiftl (Z.ones (64 - 3)) 3).
  rewrite land_low_mask by (unfold is_word; lia). change (2 ^ 3) with 8.
  pose proof (Z.div_mod a 8). pose proof (Z.div_mod (V2.Size m a + 7) 8). pose proof (Z.mod_pos_bound (V2.Size m a + 7) 8).
  replace (a + V2.Size m a + 7) with (V2.Size m a + 7 + a / 8 * 8) by lia. rewrite Z.div_add by lia. lia.
Qed.

Lemma ParseV2_loop_ok end_ a l : tags_at end_ a l -> end_ < 2 ^ 64 - 2 ^ 33 ->
  forall fuel l0 s, 0 <= a -> a mod 8 = 0 -> end_ - a < 8 * (Z.of_nat fuel - 1) -> (0 < fuel)%nat ->
  parsed l0 s -> Forall (fun b => 0 <= b) l0 -> Forall no_zero_entry l ->
  exists s', ParseV2_loop fuel m a end_ s = Ok s' /\ parsed (l0 ++ l) s'.
Proof.
  intros Ht Hend. induction Ht as [a Hstop|a l Hlt Hne Hsz Ht IH]; intros fuel l0 s Ha Hm Hf Hfp HP Hl0 Hz;
    (destruct fuel as [|fuel]; [lia|]); cbn [ParseV2_loop].
  - exists s. rewrite app_nil_r. split; [|done]. destruct (Z.ltb_spec a end_); [|done].
    destruct Hstop as [|E]; [lia|]. rewrite E. done.
  - rewrite (proj2 (Z.ltb_lt _ _) Hlt), (proj2 (Z.eqb_neq _ _) Hne). cbn [andb negb].
    apply Forall_cons in Hz as [Hz Hzl]. destruct (ParseTag_ok l0 a s HP Ha Hz Hl0) as (s1 & -> & HP1). cbn [obind].
    pose proof (load32_range m (a + 4)) as Hs. unfold is_word in Hs. fold (V2.Size m a) in Hs.
    rewrite Next_eq by lia. pose proof (Z.div_mod (V2.Size m a + 7) 8). pose proof (Z.mod_pos_bound (V2.Size m a + 7) 8).
    destruct (IH fuel (l0 ++ [a]) s1) as (s' & HE & HP'); try done; try lia.
    + by rewrite Z.mod_add by lia.
    + apply Forall_app. split; [done|]. by constructor.
    + exists s'. split; [done|]. by rewrite <- app_assoc in HP'.
Qed.

Lemma parsed_nil s : s_CommandLine s = 0 -> s_BootLoaderName s = 0 -> s_Modules s = [] -> s_AcpiRsdp s = 0 ->
  s_MemoryRegionCount s = 0 -> s_Framebuffer s = None -> parsed [] s.
Proof. intros. by split. Qed.

End Tags.


(** The standard is not touched by the parser. *)
Lemma ParseTag_standard m a s s' : ParseTag m a s = Ok s' -> s_Standard s' = s_Standard s.
Proof.
  unfold ParseTag, divide. repeat (case_match; simplify_eq/=; try done); intros; by simplify_eq.
Qed.

Lemma ParseV2_loop_standard m fuel a e s s' : ParseV2_loop fuel m a e s = Ok s' -> s_Standard s' = s_Standard s.
Proof.
  revert a s. induction fuel as [|fuel IH]; intros a s; cbn [ParseV2_loop]; [done|].
  destruct (_ && _); [|by intros [= <-]]. destruct (ParseTag m a s) as [s1| | | |] eqn:E; try done. cbn [obind].
  intros H. rewrite (IH _ _ H). by eapply ParseTag_standard.
Qed.

(** ** The lists the memory components consume *)

Section Handover.
Variable m : mem.

(** A map tag that holds its own header and entries of some size. *)
Definition sound_map (a : Z) : Prop := V2.Type_ m a = V2.MEMORY_MAP -> 16 <= V2.Size m a /\ load32 m (a + 8) <> 0.

Definition region_count (a : Z) : nat := Z.to_nat ((V2.Size m a - 16) / load32 m (a + 8)).
Definition map_regions (l : list Z) : list Multiboot.MemoryRegion :=
  match last (of_type m V2.MEMORY_MAP l) with
  | Some a => (fun i => ReadRegion m true (a + 16 + Z.of_nat i * load32 m (a + 8))) <$> seq 0 (region_count a)
  | None => []
  end.
Definition module_at (a : Z) : Multiboot.Module_ :=
  {| Multiboot.Start := load32 m (a + 8); Multiboot.End_ := load32 m (a + 12); Multiboot.CommandLine := a + 16 |}.

(** The interface of the memory components, from the tags of a block at [info]. *)
Definition handover (boot_start kernel_end info : Z) (l : list Z) : BootInfo := {|
  memory_regions := map_regions l;
  info_regions := [Describe info (V2.TotalSize m (Reachable info))];
  modules := module_at <$> take MAX_MODULES (of_type m V2.MODULE l);
  BOOT_START := boot_start; KERNEL_END := kernel_end |}.

Lemma last_in (l : list Z) a type : last (of_type m type l) = Some a -> a ∈ l /\ V2.Type_ m a = type.
Proof. intros H. apply last_Some_elem_of, list_elem_of_filter in H as [? ?]. done. Qed.

Lemma GetMemoryRegion_ok l s i : parsed m l s -> is_v2 s = true -> Forall sound_map l ->
  Forall (fun a => 0 < a < 2 ^ 64 - 2 ^ 33) l ->
  GetMemoryRegion m s (Z.of_nat i) = map_regions l !! i.
Proof.
  intros [_ _ _ _ P5 _] Hv2 Hs Ha. unfold GetMemoryRegion, map_regions. rewrite Hv2.
  destruct (last (of_type m V2.MEMORY_MAP l)) as [a|] eqn:El.
  2: { rewrite P5. rewrite (proj2 (Z.leb_le 0 (Z.of_nat i))) by lia. done. }
  apply last_in in El as [Hin Hty]. rewrite Forall_forall in Hs, Ha. specialize (Hs a Hin Hty) as [Hsz Hes].
  specialize (Ha a Hin). destruct P5 as (-> & -> & ->).
  pose proof (load32_range m (a + 8)) as He. pose proof (load32_range m (a + 4)) as Hz.
  fold (V2.Size m a) in Hz. unfold is_word in He, Hz. set (e := load32 m (a + 8)) in *. set (z := V2.Size m a) in *.
  rewrite (wrap_small 64 (z - 16)) by (unfold is_word; lia).
  pose proof (Z.div_mod (z - 16) e). pose proof (Z.mod_pos_bound (z - 16) e).
  assert (0 <= (z - 16) / e) by (apply Z.div_pos; lia). assert ((z - 16) / e <= z - 16) by (apply Z.div_le_upper_bound; nia).
  rewrite (wrap_small 32 ((z - 16) / e)) by (unfold is_word; lia).
  rewrite (proj2 (Z.eqb_neq (a + 16) 0)), orb_false_r by lia. rewrite list_lookup_fmap.
  unfold region_count. fold e z. destruct (Z.leb_spec ((z - 16) / e) (Z.of_nat i)) as [Hle|Hgt].
  - rewrite lookup_seq_ge by lia. done.
  - rewrite lookup_seq_lt by lia. simpl. assert (Z.of_nat i * e <= z) by nia.
    rewrite (wrap_small 32) by (unfold is_word; lia). rewrite wrap_small by (unfold is_word; lia). done.
Qed.

Lemma GetModule_ok l s i : parsed m l s -> is_v2 s = true ->
  GetModule m s (Z.of_nat i) = (module_at <$> take MAX_MODULES (of_type m V2.MODULE l)) !! i.
Proof.
  intros [_ _ P3 _ _ _] Hv2. unfold GetModule, s_ModuleCount. rewrite Hv2, P3, Nat2Z.id, list_lookup_fmap.
  destruct (Z.leb_spec (Z.of_nat (length (take MAX_MODULES (of_type m V2.MODULE l)))) (Z.of_nat i)) as [H|H].
  - by rewrite lookup_ge_None_2 by lia.
  - by destruct (take MAX_MODULES (of_type m V2.MODULE l) !! i).
Qed.

(** C30: The Multiboot2 block is read exactly.  For a block that is a sequence of tags, the
    parser returns; command line, loader name, ACPI pointer (2.0 before 1.0), frame
    buffer and memory map are those of the tags the specification prefers; and
    the accessors, called with growing indices until they answer false, enumerate
    precisely the memory map's entries, the first sixteen modules and the block itself,
    which are the lists the frame allocator is initialised from. *)
Theorem boot_information_read_exactly boot_start kernel_end info l :
  0 < info < 2 ^ 32 -> info mod 8 = 0 -> 8 <= V2.TotalSize m (Reachable info) ->
  tags_at m (Reachable info + V2.TotalSize m (Reachable info)) (Reachable info + 8) l ->
  Forall sound_map l ->
  exists s, Initialize LOADER_MAGIC_V2 info m Blank = Ok (true, s) /\ parsed m l s /\
    let B := handover boot_start kernel_end info l in
    forall i, GetMemoryRegion m s (Z.of_nat i) = @memory_regions B !! i /\
      GetModule m s (Z.of_nat i) = @modules B !! i /\
      GetInfoRegion info m 0 s (Z.of_nat i) = Ok (@info_regions B !! i).
Proof.
  intros Hi Hm8 Hsize Ht Hs. pose proof (load32_range m (Reachable info)) as Hr. fold (V2.TotalSize m (Reachable info)) in Hr.
  unfold is_word in Hr. set (size := V2.TotalSize m (Reachable info)) in *.
  assert (Hinfo : Reachable info = info + Config.DIRECT_MAP_BASE).
  { unfold Reachable. rewrite (proj2 (Z.eqb_neq info 0)) by lia. apply wrap_small. unfold is_word, Config.DIRECT_MAP_BASE. lia. }
  unfold Initialize, ParseV2. rewrite Z.eqb_refl. fold size. unfold Config.DIRECT_MAP_BASE in Hinfo.
  unfold V2.SIZEOF_INFO_HEADER. rewrite !wrap_small by (unfold is_word; lia).
  assert (Hpos : forall a e l', tags_at m e a l' -> 0 < a -> e < 2 ^ 64 - 2 ^ 33 -> Forall (fun b => 0 < b < 2 ^ 64 - 2 ^ 33) l').
  { intros a e l' H. induction H as [|a l' Hlt Hne Hsz H IH]; intros Ha He; [constructor|].
    constructor; [lia|]. apply IH; [|done]. assert (0 <= (V2.Size m a + 7) / 8) by (apply Z.div_pos; lia). lia. }
  pose proof (Hpos _ _ _ Ht ltac:(lia) ltac:(lia)) as Hl.
  destruct (ParseV2_loop_ok m _ _ l Ht ltac:(lia) (Z.to_nat (size / 8) + 2) [] (with_Standard Blank STANDARD_V2))
    as (s & HE & HP); try done.
  - lia.
  - rewrite Hinfo. replace (info + _ + 8) with (info + 0x1FFFF00000000001 * 8) by lia. by rewrite Z.mod_add by lia.
  - pose proof (Z.div_mod size 8). pose proof (Z.mod_pos_bound size 8). lia.
  - lia.
  - eapply Forall_impl; [exact Hs|]. intros a Ha Hty. by apply Ha.
  - rewrite HE. cbn [obind]. exists s. split; [done|]. split; [exact HP|].
    assert (Hstd : s_Standard s = STANDARD_V2) by (by apply (ParseV2_loop_standard m _ _ _ _ _ HE)).
    intros i. split_and!.
    + by apply (GetMemoryRegion_ok l); [|unfold is_v2; rewrite Hstd| |].
    + by apply (GetModule_ok l); [|unfold is_v2; rewrite Hstd].
    + unfold GetInfoRegion. rewrite Hstd, (proj2 (Z.eqb_neq info 0)) by lia. by destruct i.
Qed.

End Handover.

(** ** A tag of size zero *)

(** The loop never leaves a tag of an unknown type whose size field is zero. *)
Lemma zero_size_tag_hangs m a end_ fuel s :
  0 <= a -> a mod 8 = 0 -> a + 8 < 2 ^ 64 -> a < end_ -> V2.Type_ m a = 7 -> V2.Size m a = 0 ->
  ParseV2_loop fuel m a end_ s = Diverges.
Proof.
  intros Ha Hm Hb Hlt Hty Hsz. induction fuel as [|fuel IH]; [done|]. cbn [ParseV2_loop].
  rewrite (proj2 (Z.ltb_lt _ _) Hlt). unfold ParseTag. rewrite Hty. cbn.
  rewrite Next_eq by lia. rewrite Hsz. change ((0 + 7) / 8 * 8) with 0. by rewrite Z.add_0_r.
Qed.

(** ** Witness: a module, two memory regions and the end tag *)

Fixpoint le (n : nat) (v : Z) : list Z := match n with O => [] | S k => v mod 256 :: le k (v / 256) end.
Definition block : list Z :=
  le 4 104 ++ le 4 0 ++
  le 4 3 ++ le 4 17 ++ le 4 0x200000 ++ le 4 0x210000 ++ [0] ++ le 7 0 ++
  le 4 6 ++ le 4 64 ++ le 4 24 ++ le 4 0 ++
    le 8 0 ++ le 8 0x9fc00 ++ le 4 1 ++ le 4 0 ++
    le 8 0x100000 ++ le 8 0x7f00000 ++ le 4 1 ++ le 4 0 ++
  le 4 0 ++ le 4 8.
Definition block_memory : mem := fun a => nth (Z.to_nat (a - (0x1000 + Config.DIRECT_MAP_BASE))) block 0.
Definition block_tags : list Z := [Reachable 0x1000 + 8; Reachable 0x1000 + 32].

Lemma boot_information_read_exactly_witness :
  exists s, Initialize LOADER_MAGIC_V2 0x1000 block_memory Blank = Ok (true, s) /\
    Multiboot.Length <$> GetMemoryRegion block_memory s 1 = Some 0x7f00000 /\
    GetMemoryRegion block_memory s 2 = None /\
    Multiboot.Start <$> GetModule block_memory s 0 = Some 0x200000.
Proof.
  destruct (boot_information_read_exactly block_memory 0 0 0x1000 block_tags) as (s & H1 & _ & H2).
  - lia.
  - reflexivity.
  - vm_compute. discriminate.
  - apply tags_more; [reflexivity|vm_compute; discriminate|reflexivity|].
    apply tags_more; [reflexivity|vm_compute; discriminate|reflexivity|].
    apply tags_stop. right. reflexivity.
  - constructor; [vm_compute; discriminate|]. constructor; [|constructor]. intros _. vm_compute. split; discriminate.
  - exists s. split; [exact H1|].
    change 1 with (Z.of_nat 1). change 2 with (Z.of_nat 2). change 0 with (Z.of_nat 0).
    rewrite (proj1 (H2 1%nat)), (proj1 (H2 2%nat)), (proj1 (proj2 (H2 0%nat))). vm_compute. split_and!; reflexivity.
Defined.
