(* ===== verification/Report.v ===== *)
(** * What the kernel prints about itself

    Multiboot::Dump, Frame::Dump, Paging::Dump and Heap::Dump, the texts of failed assertions and
    panics (Debug/), and the lines of Main.cpp and User::Run, as rows of insertions computed from the
    components' states; the fault handlers print theirs in Traps.v.  The two reports that compute
    something are proved to compute it: the free blocks the heap lists and the bytes it calls used
    add up to the heap, and the frame allocator's difference does not wrap. *)

From S2P Require Import Prelude Mem Config Frame FrameSpec FrameInterface Paging Heap HeapSpec Device KernelStack Boot Output Format.

Module Report.

(** The characters behind a [const char*]. *)
Definition cstring (fuel : nat) (m : mem) (p : Z) : outcome (option (list Z)) :=
  if p =? 0 then Ok None
  else
    let* n := CString.strlen fuel m p in
    Ok (Some ((fun i => load8 m (p + Z.of_nat i)) <$> seq 0 (Z.to_nat n))).

(** ** Boot/Multiboot.cpp *)

Definition StandardName (s : Loader.Standard) : string :=
  match s with Loader.STANDARD_V2 => "Multiboot2" | Loader.STANDARD_V1 => "Multiboot1" | Loader.NONE => "none" end.

Fixpoint Modules_loop (n : nat) (m : mem) (s : Loader.t) (i : Z) : list item :=
  match n with
  | O => []
  | S k =>
      match Loader.GetModule m s i with
      | None => []
      | Some module =>
          [Lit "  module "; UInt i; Lit ": "; Pointer (Multiboot.Start module); Lit " + "; Dec;
           ULong (Multiboot.ModuleSize module); Lit " bytes"; EndLine] ++ Modules_loop k m s (u32 (i + 1))
      end
  end.

Definition MultibootDump (fuel : nat) (m : mem) (s : Loader.t) : outcome (list item) :=
  let* name := if negb (Loader.s_BootLoaderName s =? 0) then cstring fuel m (Loader.s_BootLoaderName s)
               else Ok (Some (codes "unknown")) in
  let* cmdline := if negb (Loader.s_CommandLine s =? 0) && negb (load8 m (Loader.s_CommandLine s) =? 0)
                  then let* line := cstring fuel m (Loader.s_CommandLine s) in
                       Ok [Lit "  cmdline: "; Str line; EndLine]
                  else Ok [] in
  Ok ([Lit "Boot: "; Lit (StandardName (Loader.s_Standard s)); Lit " via "; Str name; EndLine] ++ cmdline ++
      [Lit "  usable memory: "; Dec; ULongLong (Loader.GetAvailableMemory m s / MIB); Lit " MiB in ";
       UInt (Loader.s_MemoryRegionCount s); Lit " regions"; EndLine] ++
      (if negb (Loader.s_AcpiRsdp s =? 0) then [Lit "  ACPI RSDP: "; Pointer (Loader.s_AcpiRsdp s); EndLine] else []) ++
      Modules_loop (S Loader.MAX_MODULES) m s 0).

(** ** Memory *)

(** [available] is [Multiboot::GetAvailableMemory()]. *)
Definition FrameDump (available : Z) (s : Frame.t) : list item :=
  let managed := Frame.s_TotalFrames s *64 Frame.SIZE in
  [Lit "Frames: "; Dec; ULongLong (managed / MIB); Lit " MiB managed, "; ULong ((Frame.GetUsedFrames s *64 Frame.SIZE) / MIB);
   Lit " MiB used"; EndLine] ++
  (if MIB <=? available -64 managed
   then [Lit "  "; Dec; ULongLong ((available -64 managed) / MIB); Lit " MiB unusable"; EndLine] else []).

Definition PagingDump {F} (s : Paging.t F) : list item :=
  [Lit "Paging: "; Dec; ULong (Paging.s_TableCount s); Lit " tables, ";
   ULong ((Paging.s_TableCount s *64 Paging.PAGE_SIZE) / KIB); Lit " KiB, no-execute ";
   Lit (if Paging.s_NoExecuteAvailable s then "on" else "unavailable"); EndLine].

Section HeapDump.
Context {F : Type} `{FA : FrameAllocator F} {BB : Build}.
Implicit Types s : Heap.t F.

(** The blocks of a free list. *)
Fixpoint Count_loop (fuel : nat) (m : mem) (block count : Z) : outcome Z :=
  match fuel with
  | O => Diverges
  | S k => if negb (block =? 0) then Count_loop k m (Heap.NextFree m block) (u32 (count + 1)) else Ok count
  end.

(** The orders from [order] on, [n] of them. *)
Fixpoint Orders_loop (n : nat) (order : Z) (s : Heap.t F) : outcome (list item) :=
  match n with
  | O => Ok []
  | S k =>
      let* first := Heap.head s (Heap.IndexOf order) in
      let* count := Count_loop Heap.list_fuel (Heap.memory s) first 0 in
      let* rest := Orders_loop k (u8 (order + 1)) s in
      Ok ((if 0 <? count then [Lit "  2^"; Dec; UInt order; Lit ": "; UInt count; Lit " free"; EndLine] else []) ++ rest)
  end.

Definition HeapDump (s : Heap.t F) : outcome (list item) :=
  let* lines := Orders_loop (Z.to_nat Heap.ORDER_COUNT) Heap.MIN_ORDER s in
  Ok ([Lit "Heap: "; Dec; ULong (Heap.s_UsedBytes s / KIB); Lit " KiB used of "; ULong (Heap.HEAP_SIZE / KIB);
       Lit " KiB"; EndLine] ++ lines).
End HeapDump.

(** ** Panics and assertions *)

Definition PANIC (MESSAGE function file : string) (line : Z) : list item :=
  [Lit "PANIC: "; Lit MESSAGE; Lit " in "; Lit function; Lit " at "; Lit file; Lit ":"; Int line; EndLine].
Definition AssertionFailed (InExpression InFunction InFile : string) (InLine : Z) : list item :=
  [Lit "ASSERT failed: '"; Lit InExpression; Lit "' in "; Lit InFunction; Lit " at "; Lit InFile; Lit ":"; Int InLine; EndLine].

Definition EXIT_PORT : Z := 0xf4.
Definition EXIT_SUCCESS : Z := 0x10.
Definition EXIT_FAILURE : Z := 0x11.
(** [TEST] is defined in the builds that run the suites. *)
Definition RequestExit {D} {HW : Hardware D} (TEST : bool) (InCode : Z) (d : D) : D :=
  if TEST then port_out 32 EXIT_PORT InCode d else d.

(** ** Start-up and tasks *)

Definition Banner (count : Z) : list item := [Lit "x64HK on "; Dec; UInt count; Lit " cores"; EndLine].
Definition CoreBanner (core lapic : Z) : list item :=
  [Lit "Core "; UInt core; Lit " (LAPIC "; UInt lapic; Lit ") entering scheduler"; EndLine].
Definition EnteringRing3 (name : option (list Z)) (entry : Z) : list item :=
  [Lit "User: '"; Str name; Lit "' entering ring 3 at "; Hex; Pointer entry; Dec; EndLine].

(** ** The heap's report adds up *)

Import HeapSpec.

Lemma sumZ_plus f g n : sumZ (fun i => f i + g i) n = sumZ f n + sumZ g n.
Proof. induction n as [|n IH]; simpl; lia. Qed.
Lemma sumZ_scale c f n : sumZ (fun i => c * f i) n = c * sumZ f n.
Proof. induction n as [|n IH]; simpl; lia. Qed.
Lemma sumZ_const0 n : sumZ (fun _ => 0) n = 0.
Proof. induction n as [|n IH]; simpl; lia. Qed.
Lemma sumZ_swap f n k : sumZ (fun i => sumZ (fun j => f i j) k) n = sumZ (fun j => sumZ (fun i => f i j) n) k.
Proof.
  induction n as [|n IH]; simpl; [by rewrite sumZ_const0|]. rewrite IH, <- sumZ_plus. by apply sumZ_ext.
Qed.
Lemma sumZ_single c j n : 0 <= j < Z.of_nat n -> sumZ (fun i => if i =? j then c else 0) n = c.
Proof.
  intros Hj. rewrite (sumZ_update _ (fun _ => 0) j n Hj) by (intros i Hi; by rewrite (proj2 (Z.eqb_neq _ _) Hi)).
  rewrite sumZ_const0, Z.eqb_refl. lia.
Qed.

(** The number of indices with a property is the length of any list of them without repetitions. *)
Lemma sumZ_count (P : Z -> bool) n (l : list Z) : NoDup l ->
  (forall x, x ∈ l <-> 0 <= x < Z.of_nat n /\ P x = true) ->
  sumZ (fun i => if P i then 1 else 0) n = Z.of_nat (length l).
Proof.
  revert l. induction n as [|n IH]; intros l Hn Hl; cbn [sumZ].
  - destruct l as [|x l]; [done|]. destruct (proj1 (Hl x)); [set_solver|lia].
  - destruct (P (Z.of_nat n)) eqn:E.
    + assert (Hin : Z.of_nat n ∈ l) by (apply Hl; split; [lia|done]).
      apply list_elem_of_split in Hin as (l1 & l2 & ->). rewrite (IH (l1 ++ l2)).
      * rewrite !length_app. simpl. lia.
      * apply NoDup_app in Hn as (H1 & H2 & H3). apply NoDup_cons in H3 as [H3 H4]. apply NoDup_app. set_solver.
      * intros x. specialize (Hl x). assert (Hx : x ∈ l1 ++ l2 -> x <> Z.of_nat n).
        { intros H ->. apply NoDup_app in Hn as (H1 & H2 & H3). apply NoDup_cons in H3 as [H3 H4]. set_solver. }
        split.
        -- intros H. destruct (proj1 Hl) as [Hr HP]; [set_solver|]. specialize (Hx H). split; [lia|done].
        -- intros [Hr HP]. assert (x ∈ l1 ++ Z.of_nat n :: l2) by (apply Hl; split; [lia|done]).
           assert (x <> Z.of_nat n) by lia. set_solver.
    + rewrite (IH l Hn); [lia|]. intros x. rewrite Hl. split; intros [Hr HP]; split; try done; [|lia].
      assert (x <> Z.of_nat n) by congruence. lia.
Qed.

(** The bytes of a block, and those of a free one. *)
Definition size_of (x : option (Z * bool)) : Z := match x with Some (o, _) => 2 ^ o | None => 0 end.
Definition free_size (x : option (Z * bool)) : Z := match x with Some (o, true) => 2 ^ o | _ => 0 end.

(** Up to slot [n] the blocks reach exactly as far as their sizes add up to. *)
Record reach (B : part) (n : nat) (e : Z) : Prop := {
  re_range : 32 * Z.of_nat n <= e <= 2 ^ 24;
  re_slot : e mod 32 = 0;
  re_all y o f : B y = Some (o, f) -> y < 32 * Z.of_nat n -> y + 2 ^ o <= e;
  re_last : e = 0 \/ exists y o f, B y = Some (o, f) /\ y < 32 * Z.of_nat n /\ y + 2 ^ o = e }.

Lemma pow2_slots o : 5 <= o -> 2 ^ o mod 32 = 0 /\ 32 <= 2 ^ o.
Proof.
  intros Ho. split; [change 32 with (2 ^ 5); apply (pow2_divide 5 o); [lia|apply Z.mod_same; pose proof (pow2_pos o); lia]|].
  change 32 with (2 ^ 5). apply pow2_le. lia.
Qed.

Lemma reach_block B n e o f : layout B -> reach B n e -> B (32 * Z.of_nat n) = Some (o, f) ->
  reach B (S n) (e + 2 ^ o).
Proof.
  intros HL [Hr Hm Hall Hlast] E. destruct (ly_block B HL _ _ _ E) as (Ho & Hal & H0 & Hend).
  destruct (pow2_slots o) as [H1 H2]; [lia|].
  assert (Ee : e = 32 * Z.of_nat n).
  { destruct Hlast as [->|(y & o' & f' & Hy & Hlt & Hye)]; [lia|].
    destruct (ly_disj B HL _ _ _ _ _ _ Hy E ltac:(lia)); lia. }
  split.
  - lia.
  - rewrite Z.add_mod, Hm, H1 by lia. done.
  - intros y o' f' Hy Hlt. destruct (decide (y = 32 * Z.of_nat n)) as [->|].
    + rewrite E in Hy. injection Hy as <- <-. lia.
    + destruct (ly_disj B HL _ _ _ _ _ _ Hy E ltac:(done)) as [|]; [lia|].
      destruct (layout_slot B y o' f' HL Hy) as [_ Hs]. lia.
  - right. exists (32 * Z.of_nat n), o, f. split_and!; [done|lia|lia].
Qed.

Lemma reach_gap B n e : layout B -> 32 * Z.of_nat n < 2 ^ 24 -> reach B n e -> B (32 * Z.of_nat n) = None -> reach B (S n) e.
Proof.
  intros HL Hn [Hr Hm Hall Hlast] E.
  destruct (ly_cover B HL (32 * Z.of_nat n) ltac:(lia)) as (y & o & f & Hy & Hc).
  assert (y <> 32 * Z.of_nat n) by (intros ->; congruence). pose proof (Hall y o f Hy ltac:(lia)) as Hend.
  split; [|done| |].
  - split; [|lia]. pose proof (Z.div_mod e 32 ltac:(lia)). lia.
  - intros y' o' f' Hy' Hlt. apply (Hall y' o' f' Hy'). destruct (layout_slot B y' o' f' HL Hy') as [_ Hs].
    assert (y' <> 32 * Z.of_nat n) by (intros ->; congruence). pose proof (Z.div_mod y' 32 ltac:(lia)). lia.
  - destruct Hlast as [->|(y' & o' & f' & Hy' & Hlt & Hye)]; [by left|]. right. exists y', o', f'. split_and!; [done|lia|done].
Qed.

Lemma blocks_reach B n : layout B -> 32 * Z.of_nat n <= 2 ^ 24 -> reach B n (sumZ (fun k => size_of (B (32 * k))) n).
Proof.
  intros HL. induction n as [|n IH]; intros Hn; cbn [sumZ].
  - split; [lia|done| |by left]. intros y o f Hy H. destruct (ly_block B HL _ _ _ Hy). lia.
  - specialize (IH ltac:(lia)). destruct (B (32 * Z.of_nat n)) as [[o f]|] eqn:E; cbn [size_of].
    + by apply (reach_block B n _ o f).
    + rewrite Z.add_0_r. apply reach_gap; [done|lia|done..].
Qed.

Definition free_bytes (B : part) : Z := sumZ (fun k => free_size (B (32 * k))) block_slots.

Lemma slots_eq : Z.of_nat block_slots = 2 ^ 19.
Proof. unfold block_slots. rewrite Z2Nat.id; lia. Qed.

(** Every byte of the heap is used or free. *)
Lemma used_and_free B : layout B -> used B + free_bytes B = 2 ^ 24.
Proof.
  intros HL. rewrite used_eq. unfold used_def, free_bytes. rewrite <- sumZ_plus.
  pose proof slots_eq as Hs.
  pose proof (re_range _ _ _ (blocks_reach B block_slots HL ltac:(lia))) as Hr. rewrite Hs in Hr.
  rewrite (sumZ_ext _ (fun k => size_of (B (32 * k)))); [lia|].
  intros k _. destruct (B (32 * k)) as [[o []]|]; simpl; lia.
Qed.

#[local] Opaque block_slots.
Definition is_free_of (o : Z) (x : option (Z * bool)) : bool := bool_decide (x = Some (o, true)).

Lemma free_size_sum x : (forall o f, x = Some (o, f) -> 5 <= o <= 24) ->
  free_size x = sumZ (fun i => 2 ^ (5 + i) * (if is_free_of (5 + i) x then 1 else 0)) 20.
Proof.
  intros Hx. destruct x as [[o []]|]; cbn [free_size].
  - specialize (Hx o true eq_refl). rewrite <- (sumZ_single (2 ^ o) (o - 5) 20) by lia.
    apply sumZ_ext. intros i Hi. unfold is_free_of. destruct (Z.eqb_spec i (o - 5)) as [->|N].
    + rewrite bool_decide_true by (do 2 f_equal; lia). replace (5 + (o - 5)) with o by lia. lia.
    + rewrite bool_decide_false; [lia|]. intros [= E]. lia.
  - rewrite (sumZ_ext _ (fun _ => 0)); [by rewrite sumZ_const0|]. intros i Hi. unfold is_free_of. by rewrite bool_decide_false, Z.mul_0_r by done.
  - rewrite (sumZ_ext _ (fun _ => 0)); [by rewrite sumZ_const0|]. intros i Hi. unfold is_free_of. by rewrite bool_decide_false, Z.mul_0_r by done.
Qed.

Section HeapSpec.
Context {F : Type} `{FA : FrameAllocator F} {BB : Build}.
Implicit Types s : Heap.t F.

Lemma count_of_order B fl op x s o : inv B fl op x s -> 5 <= o <= 24 ->
  sumZ (fun k => if is_free_of o (B (32 * k)) then 1 else 0) block_slots = Z.of_nat (length (fl o)).
Proof.
  intros HI Ho. destruct (iv_chain _ _ _ _ _ HI o Ho) as [_ Hnd]. pose proof (iv_layout _ _ _ _ _ HI) as HL.
  assert (Hin : forall off, off ∈ fl o -> 0 <= off < 2 ^ 24 /\ off = 32 * (off / 32)).
  { intros off H. apply (iv_members _ _ _ _ _ HI o off Ho) in H. destruct (layout_slot B off o true HL H) as [H1 H2].
    split; [done|]. pose proof (Z.div_mod off 32 ltac:(lia)). lia. }
  assert (Hs : Z.of_nat block_slots = 2 ^ 19) by apply slots_eq.
  rewrite (sumZ_count (fun k => is_free_of o (B (32 * k))) block_slots ((fun off => off / 32) <$> fl o)).
  - by rewrite length_fmap.
  - apply NoDup_fmap_2_strong; [|done]. intros y z Hy Hz E. destruct (Hin y Hy), (Hin z Hz). lia.
  - intros k. rewrite list_elem_of_fmap. unfold is_free_of. rewrite bool_decide_eq_true. split.
    + intros (off & -> & H). destruct (Hin off H) as [H1 H2]. rewrite <- H2. split; [|by apply (iv_members _ _ _ _ _ HI)].
      lia.
    + intros [Hk H]. exists (32 * k). split; [rewrite Z.mul_comm, Z.div_mul; lia|]. by apply (iv_members _ _ _ _ _ HI).
Qed.

Lemma free_bytes_lists B fl op x s : inv B fl op x s ->
  free_bytes B = sumZ (fun i => 2 ^ (5 + i) * Z.of_nat (length (fl (5 + i)))) 20.
Proof.
  intros HI. unfold free_bytes.
  rewrite (sumZ_ext _ (fun k => sumZ (fun i => 2 ^ (5 + i) * (if is_free_of (5 + i) (B (32 * k)) then 1 else 0)) 20)).
  - rewrite sumZ_swap. apply sumZ_ext. intros i Hi. rewrite sumZ_scale.
    by rewrite (count_of_order B fl op x s) by (done || lia).
  - intros k _. apply free_size_sum. intros o f E. by destruct (ly_block B (iv_layout _ _ _ _ _ HI) _ _ _ E).
Qed.

Lemma Count_loop_ok m l : forall fuel h c, chain m h l -> (forall b, b ∈ l -> b <> 0) -> (length l < fuel)%nat ->
  0 <= c -> c + Z.of_nat (length l) < 2 ^ 32 -> Count_loop fuel m h c = Ok (c + Z.of_nat (length l)).
Proof.
  induction l as [|b l IH]; intros [|k] h c Hc Hnz Hf H0 H1; simpl in Hf; try lia; simpl.
  - simpl in Hc. subst h. rewrite Z.eqb_refl. simpl. f_equal. lia.
  - destruct Hc as [-> Hc]. rewrite (proj2 (Z.eqb_neq _ _)) by (apply Hnz; set_solver). simpl. simpl in H1.
    rewrite wrap_small by (unfold is_word; lia). rewrite IH; [f_equal; lia|done|set_solver|lia..].
Qed.

(** The line of an order. *)
Definition order_line (fl : Z -> list Z) (order : Z) : list item :=
  if 0 <? Z.of_nat (length (fl order))
  then [Lit "  2^"; Dec; UInt order; Lit ": "; UInt (Z.of_nat (length (fl order))); Lit " free"; EndLine] else [].

Lemma short_list B fl op x s o : inv B fl op x s -> 5 <= o <= 24 -> Z.of_nat (length (fl o)) <= 2 ^ 19.
Proof.
  intros HI Ho. pose proof (list_length B fl op x s o (fl o) [] HI Ho ltac:(by rewrite app_nil_r)) as H.
  unfold Heap.list_fuel in H. change (Heap.HEAP_SIZE / 32 + 1) with (2 ^ 19 + 1) in H. lia.
Qed.

#[local] Opaque Heap.list_fuel.
Lemma Orders_loop_ok B fl op x s n : inv B fl op x s -> forall order, 5 <= order -> order + Z.of_nat n <= 25 ->
  Orders_loop n order s = Ok (concat ((fun i => order_line fl (order + Z.of_nat i)) <$> seq 0 n)).
Proof.
  intros HI. induction n as [|n IH]; intros order H1 H2; [done|]. cbn [Orders_loop].
  rewrite (head_ok B fl op x s) by (done || lia). cbn [obind].
  destruct (iv_chain _ _ _ _ _ HI order ltac:(lia)) as [Hc _].
  pose proof (short_list B fl op x s order HI ltac:(lia)) as Hshort.
  rewrite (Count_loop_ok _ _ _ _ _ Hc).
  - cbn [obind]. rewrite wrap_small by (unfold is_word; lia). rewrite IH by lia. cbn [obind seq fmap list_fmap concat].
    rewrite <- fmap_S_seq, <- list_fmap_compose. rewrite length_fmap, Z.add_0_l, Z.add_0_r. do 3 f_equal.
    apply list_fmap_ext. intros i y _. simpl. f_equal. lia.
  - intros b (off & -> & Hoff)%list_elem_of_fmap. destruct (iv_region _ _ _ _ _ HI) as (Hr & _).
    apply (iv_members _ _ _ _ _ HI order off ltac:(lia)) in Hoff.
    destruct (layout_slot B off order true (iv_layout _ _ _ _ _ HI) Hoff) as [? _]. lia.
  - rewrite length_fmap. apply (list_length B fl op x s order (fl order) []); [done|lia|by rewrite app_nil_r].
  - lia.
  - rewrite length_fmap. lia.
Qed.

(** The heap's report is right and adds up.  [Dump] returns; its first line states the bytes in
    use, its other lines, for each order that has free blocks and in ascending order, exactly the
    number of free blocks of that order; and together with the bytes in use the blocks it lists
    make up the whole heap, so nothing is lost and nothing counted twice. *)
Theorem heap_report_adds_up B fl s : inv B fl none 0 s ->
  HeapDump s =
    Ok ([Lit "Heap: "; Dec; ULong (Heap.s_UsedBytes s / KIB); Lit " KiB used of "; ULong 16384; Lit " KiB"; EndLine] ++
        concat ((fun i => order_line fl (5 + Z.of_nat i)) <$> seq 0 20)) /\
  (forall o off, 5 <= o <= 24 -> off ∈ fl o <-> B off = Some (o, true)) /\ (forall o, 5 <= o <= 24 -> NoDup (fl o)) /\
  Heap.s_UsedBytes s + sumZ (fun i => 2 ^ (5 + i) * Z.of_nat (length (fl (5 + i)))) 20 = Heap.HEAP_SIZE.
Proof.
  intros HI. split_and!.
  - unfold HeapDump. change (Z.to_nat Heap.ORDER_COUNT) with 20%nat. change Heap.MIN_ORDER with 5.
    rewrite (Orders_loop_ok B fl none 0 s 20 HI) by lia. reflexivity.
  - intros o off Ho. by apply (iv_members _ _ _ _ _ HI).
  - intros o Ho. apply (iv_chain _ _ _ _ _ HI o Ho).
  - rewrite <- (free_bytes_lists B fl none 0 s HI). pose proof (used_and_free B (iv_layout _ _ _ _ _ HI)) as E.
    rewrite (iv_used _ _ _ _ _ HI) in E. change Heap.HEAP_SIZE with (2 ^ 24). lia.
Qed.
End HeapSpec.

Lemma heap_report_adds_up_witness :
  exists l, HeapDump demo_heap = Ok l /\
    rendered 10 l = codes "Heap: 0 KiB used of 16384 KiB" ++ [10] ++ codes "  2^24: 1 free" ++ [10].
Proof.
  eexists. split.
  - exact (proj1 (heap_report_adds_up demo_part demo_lists demo_heap demo_inv)).
  - vm_compute. reflexivity.
Defined.

(** ** The frame allocator's report does not wrap *)

(** The bytes of the available regions. *)
Definition available_bytes (l : list Multiboot.MemoryRegion) : Z :=
  foldr (fun r n => (if Multiboot.Type_ r =? Multiboot.AVAILABLE then Multiboot.Length r else 0) + n) 0 l.

(** What [GetAvailableMemory] adds up is that sum, modulo the word. *)
Lemma GetAvailableMemory_loop_ok m s l n : forall i total, (forall j, 0 <= j < 2 ^ 32 -> Loader.GetMemoryRegion m s j = l !! Z.to_nat j) ->
  0 <= i -> i + Z.of_nat n < 2 ^ 32 -> (length l <= Z.to_nat i + n)%nat ->
  Loader.GetAvailableMemory_loop m n s i (u64 total) = u64 (total + available_bytes (drop (Z.to_nat i) l)).
Proof.
  induction n as [|n IH]; intros i total Hl Hi Hn Hlen; cbn [Loader.GetAvailableMemory_loop].
  - rewrite drop_ge by lia. simpl. by rewrite Z.add_0_r.
  - rewrite Hl by lia. destruct (l !! Z.to_nat i) as [r|] eqn:E.
    + rewrite (drop_S _ _ _ E). rewrite (wrap_small 32) by (unfold is_word; lia).
      replace (S (Z.to_nat i)) with (Z.to_nat (i + 1)) by lia. cbn [available_bytes foldr].
      destruct (Multiboot.Type_ r =? Multiboot.AVAILABLE).
      * rewrite wrap_add_l by lia. rewrite (IH (i + 1)) by (done || lia). f_equal. unfold available_bytes. lia.
      * rewrite (IH (i + 1)) by (done || lia). f_equal.
    + apply lookup_ge_None in E. rewrite drop_ge by lia. simpl. by rewrite Z.add_0_r.
Qed.

Section FrameReport.
Context `{BI : BootInfo} {BS : BootInfoSane}.

(** The frames inside one region. *)
Lemma covered_count a e n : 0 <= a -> count_free (fun j => negb (FrameSpec.covered a e j)) n * Frame.SIZE <= Z.max 0 (e - a).
Proof.
  intros Ha. assert (HS : Frame.SIZE = 4096) by reflexivity.
  assert (H : count_free (fun j => negb (covered a e j)) n * 4096 <= Z.max 0 (Z.min (Z.of_nat n * 4096) e - a)); [|rewrite HS; lia].
  induction n as [|n IH]; cbn [count_free]; [lia|]. unfold covered at 2. rewrite HS.
  destruct (Z.leb_spec a (Z.of_nat n * 4096)), (Z.leb_spec ((Z.of_nat n + 1) * 4096) e); cbn [andb negb]; lia.
Qed.

Lemma count_none n : count_free (fun _ => true) n = 0.
Proof. induction n as [|n IH]; cbn [count_free]; lia. Qed.
Lemma count_union P Q n : count_free (fun j => negb (P j || Q j)) n <=
  count_free (fun j => negb (P j)) n + count_free (fun j => negb (Q j)) n.
Proof.
  induction n as [|n IH]; cbn [count_free]; [lia|]. destruct (P (Z.of_nat n)), (Q (Z.of_nat n)); cbn [orb negb]; lia.
Qed.

Lemma usable_count l n : (forall r, r ∈ l -> 0 <= Multiboot.Address r /\ 0 <= Multiboot.Length r /\
    Multiboot.RegionEnd r = Multiboot.Address r + Multiboot.Length r) ->
  count_free (fun j => negb (existsb (fun r => (Multiboot.Type_ r =? Multiboot.AVAILABLE) &&
    covered (Multiboot.Address r) (Multiboot.RegionEnd r) j) l)) n * Frame.SIZE <= available_bytes l.
Proof.
  intros Hl. induction l as [|r l IH]; cbn [existsb available_bytes foldr].
  - cbn [negb]. rewrite count_none. lia.
  - specialize (IH ltac:(intros r' Hr'; apply Hl; set_solver)). destruct (Hl r ltac:(set_solver)) as (H1 & H2 & H3).
    fold (available_bytes l).
    pose proof (count_union (fun j => (Multiboot.Type_ r =? Multiboot.AVAILABLE) && covered (Multiboot.Address r) (Multiboot.RegionEnd r) j)
      (fun j => existsb (fun r => (Multiboot.Type_ r =? Multiboot.AVAILABLE) &&
         covered (Multiboot.Address r) (Multiboot.RegionEnd r) j) l) n) as Hu. cbv beta in Hu.
    assert (HP : count_free (fun j => negb ((Multiboot.Type_ r =? Multiboot.AVAILABLE) &&
        covered (Multiboot.Address r) (Multiboot.RegionEnd r) j)) n * Frame.SIZE <=
      if Multiboot.Type_ r =? Multiboot.AVAILABLE then Multiboot.Length r else 0).
    { destruct (Multiboot.Type_ r =? Multiboot.AVAILABLE); cbn [andb].
      - rewrite H3. pose proof (covered_count (Multiboot.Address r) (Multiboot.Address r + Multiboot.Length r) n H1). lia.
      - cbn [negb]. rewrite count_none. lia. }
    assert (0 <= Frame.SIZE) by done. nia.
Qed.

(** The difference the report prints is the memory no frame covers: it does not wrap, because the
    frames counted lie inside the regions, each counted once. *)
Theorem frame_report_no_wrap s loc : Frame.Initialize = Ok (s, loc) -> available_bytes memory_regions < 2 ^ 64 ->
  let managed := Frame.s_TotalFrames s * Frame.SIZE in
  0 <= managed <= available_bytes memory_regions /\
  FrameDump (available_bytes memory_regions) s =
    [Lit "Frames: "; Dec; ULongLong (managed / MIB); Lit " MiB managed, ";
     ULong ((Frame.s_TotalFrames s - Frame.s_FreeFrames s) * Frame.SIZE / MIB); Lit " MiB used"; EndLine] ++
    (if MIB <=? available_bytes memory_regions - managed
     then [Lit "  "; Dec; ULongLong ((available_bytes memory_regions - managed) / MIB); Lit " MiB unusable"; EndLine] else []).
Proof.
  intros HI Ha managed. destruct Initialize_exact as [[E _]|(loc' & _ & _ & [[E _]|(s' & E & W & _)])];
    rewrite HI in E; try done. injection E as <- <-.
  pose proof (wf_count_bounds _ _ W) as (Hf & Ht & _). pose proof (wf_total _ _ W) as Htot.
  assert (HS : Frame.SIZE = 4096) by reflexivity.
  assert (Hm : 0 <= managed <= available_bytes memory_regions).
  { split; [unfold managed; rewrite HS; lia|]. unfold managed. rewrite Htot. apply usable_count. intros r Hr.
    destruct (sane_region r Hr) as (? & ? & ?). split_and!; [done..|]. apply RegionEnd_sane. by left. }
  split; [done|]. unfold FrameDump, Frame.GetUsedFrames. unfold managed in *. rewrite HS in *.
  rewrite (wrap_small 64 (Frame.s_TotalFrames s * 4096)) by (unfold is_word; lia).
  rewrite (wrap_small 64 (Frame.s_TotalFrames s - _)) by (unfold is_word; lia).
  rewrite (wrap_small 64 ((Frame.s_TotalFrames s - _) * 4096)) by (unfold is_word; lia).
  rewrite (wrap_small 64 (available_bytes _ - _)) by (unfold is_word; lia). reflexivity.
Qed.
End FrameReport.

End Report.
