(* ===== verification/Acpi.v ===== *)
(** * Arch/Acpi.cpp: the firmware's description tables

    The root pointer, its two directories and the search for a table, over the memory the
    firmware left, indexed by the address the code dereferences. *)

From S2P Require Import Prelude Mem Config.

Module Acpi.

Definition RSDP_SIGNATURE : list Z := [82; 83; 68; 32; 80; 84; 82; 32].   (* "RSD PTR " *)
Definition SIZEOF_RSDP : Z := 36.
Definition SIZEOF_TABLE_HEADER : Z := 36.

(** Fields of [Rsdp] and [TableHeader]. *)
Definition RsdpRevision (m : mem) (a : Z) : Z := load8 m (a + 15).
Definition RsdtAddress (m : mem) (a : Z) : Z := load32 m (a + 16).
Definition RsdpLength (m : mem) (a : Z) : Z := load32 m (a + 20).
Definition XsdtAddress (m : mem) (a : Z) : Z := load64 m (a + 24).
Definition Signature (m : mem) (a : Z) : Z := load32 m a.
Definition Length (m : mem) (a : Z) : Z := load32 m (a + 4).

Fixpoint Checksum_loop (n : nat) (m : mem) (a sum : Z) : Z :=
  match n with O => sum | S k => Checksum_loop k m (a + 1) (u8 (sum + load8 m a)) end.
Definition IsChecksumValid (m : mem) (InAddress InLength : Z) : bool :=
  Checksum_loop (Z.to_nat InLength) m InAddress 0 =? 0.

Definition IsValidRsdp (m : mem) (InCandidate : Z) : bool :=
  if RsdpRevision m InCandidate =? 0 then IsChecksumValid m InCandidate 20
  else (20 <? RsdpLength m InCandidate) && IsChecksumValid m InCandidate (RsdpLength m InCandidate).

(** [n] candidates from [a] on. *)
Fixpoint Scan_loop (n : nat) (m : mem) (a : Z) : Z :=
  match n with
  | O => 0
  | S k =>
      if bool_decide ((fun i => load8 m (a + Z.of_nat i)) <$> seq 0 8 = RSDP_SIGNATURE) && IsValidRsdp m a then a
      else Scan_loop k m (a + 16)
  end.
Definition Scan (m : mem) (InStart InLength : Z) : Z :=
  Scan_loop (Z.to_nat (if InLength <? SIZEOF_RSDP then 0 else (InLength - SIZEOF_RSDP) / 16 + 1)) m InStart.

Record t := { s_Rsdp : Z; s_Rsdt : Z; s_Xsdt : Z }.

Definition Initialize (m : mem) (InRsdpHint : Z) (s : t) : bool * t :=
  let rsdp := if negb (InRsdpHint =? 0) && IsValidRsdp m InRsdpHint then InRsdpHint else s_Rsdp s in
  let rsdp := if rsdp =? 0 then Scan m (Z.shiftl (load16 m 0x40e) 4) 1024 else rsdp in
  let rsdp := if rsdp =? 0 then Scan m 0xe0000 0x20000 else rsdp in
  if rsdp =? 0 then (false, {| s_Rsdp := 0; s_Rsdt := s_Rsdt s; s_Xsdt := s_Xsdt s |})
  else
    (true, {| s_Rsdp := rsdp; s_Rsdt := RsdtAddress m rsdp;
              s_Xsdt := if negb (RsdpRevision m rsdp =? 0) && (36 <=? RsdpLength m rsdp)
                        then XsdtAddress m rsdp else s_Xsdt s |}).

Definition Count (m : mem) (s : t) : Z :=
  if negb (s_Xsdt s =? 0) then u32 ((Length m (s_Xsdt s) -64 SIZEOF_TABLE_HEADER) / 8)
  else if negb (s_Rsdt s =? 0) then u32 ((Length m (s_Rsdt s) -64 SIZEOF_TABLE_HEADER) / 4)
  else 0.

(** [nullptr] is 0. *)
Definition Get (m : mem) (s : t) (InIndex : Z) : Z :=
  if Count m s <=? InIndex then 0
  else
    let entry := if negb (s_Xsdt s =? 0) then load64 m (s_Xsdt s + SIZEOF_TABLE_HEADER + 8 * InIndex)
                 else if negb (s_Rsdt s =? 0) then load32 m (s_Rsdt s + SIZEOF_TABLE_HEADER + 4 * InIndex)
                 else 0 in
    if negb (entry =? 0) && IsChecksumValid m entry (Length m entry) then entry else 0.

Fixpoint Find_loop (n : nat) (m : mem) (s : t) (wanted i : Z) : Z :=
  match n with
  | O => 0
  | S k =>
      let entry := Get m s i in
      if negb (entry =? 0) && (Signature m entry =? wanted) then entry else Find_loop k m s wanted (i + 1)
  end.
(** [Get] by signature; the characters are below 128. *)
Definition Find (m : mem) (s : t) (a b c d : Z) : Z :=
  let wanted := Z.lor (Z.lor (Z.lor a (Z.shiftl b 8)) (Z.shiftl c 16)) (Z.shiftl d 24) in
  Find_loop (Z.to_nat (Count m s)) m s wanted 0.

Definition Revision (m : mem) (s : t) : Z := if negb (s_Rsdp s =? 0) then RsdpRevision m (s_Rsdp s) else -1.

(** The checksum is the sum of the bytes. *)
Fixpoint byte_sum (m : mem) (a : Z) (n : nat) : Z :=
  match n with O => 0 | S k => load8 m a + byte_sum m (a + 1) k end.

Lemma Checksum_loop_sum n m a sum : Checksum_loop n m a (u8 sum) = u8 (sum + byte_sum m a n).
Proof.
  revert a sum. induction n as [|n IH]; intros a sum; cbn [Checksum_loop byte_sum]; [by rewrite Z.add_0_r|].
  replace (u8 (u8 sum + load8 m a)) with (u8 (sum + load8 m a)) by (unfold wrap; by rewrite Zplus_mod_idemp_l).
  rewrite IH. f_equal. lia.
Qed.

Lemma IsChecksumValid_spec m a n : IsChecksumValid m a n = true <-> byte_sum m a (Z.to_nat n) mod 256 = 0.
Proof.
  unfold IsChecksumValid. change 0 with (u8 0) at 1. rewrite Checksum_loop_sum, Z.eqb_eq. done.
Qed.

(** Only a table with a valid checksum is handed out, the first one with the signature. *)
Lemma Find_loop_spec n m s wanted i e : Find_loop n m s wanted i = e -> e <> 0 ->
  IsChecksumValid m e (Length m e) = true /\ Signature m e = wanted /\
  exists j, i <= j < i + Z.of_nat n /\ Get m s j = e /\
    forall j', i <= j' < j -> Get m s j' = 0 \/ Signature m (Get m s j') <> wanted.
Proof.
  revert i. induction n as [|n IH]; intros i; cbn [Find_loop]; [done|].
  destruct (negb (Get m s i =? 0) && (Signature m (Get m s i) =? wanted)) eqn:E.
  - intros <- He. apply andb_prop in E as [_ Hs]. split_and!; [|lia|].
    + unfold Get in *. destruct (_ <=? _); [done|]. by destruct (negb _ && IsChecksumValid _ _ _) eqn:Ec;
        [apply andb_prop in Ec as [_ Ec]|].
    + exists i. split_and!; [lia|lia|done|]. intros j' ?. lia.
  - intros H He. destruct (IH _ H He) as (H1 & H2 & j & Hj & H3 & H4). split_and!; [done|done|].
    exists j. split_and!; [lia|lia|done|]. intros j' Hj'. destruct (Z.eq_dec j' i) as [->|]; [|apply H4; lia].
    apply andb_false_iff in E as [E|E]; lia.
Qed.
End Acpi.
