(* ===== verification/Apic.v ===== *)
(** * Arch/Apic.cpp: the system topology

    The MADT's records: local APICs, the I/O APIC, and how the ISA interrupts are wired. *)

From S2P Require Import Prelude Mem Config Device Acpi.

Module Apic.

Definition INVALID_ID : Z := 0xff.
Definition LOCAL_APIC : Z := 0.
Definition IO_APIC : Z := 1.
Definition INTERRUPT_SOURCE_OVERRIDE : Z := 2.
Definition LOCAL_APIC_ADDRESS_OVERRIDE : Z := 5.
Definition SIZEOF_MADT : Z := 44.
Definition PINS : Z := 16.

(** Fields of the MADT and its records, by address. *)
Definition LocalApicAddress (m : mem) (madt : Z) : Z := load32 m (madt + 36).
Definition FlagsPcAtCompatible (m : mem) (madt : Z) : bool := Z.testbit (load32 m (madt + 40)) 0.
Definition Type_ (m : mem) (e : Z) : Z := load8 m e.
Definition RecordLength (m : mem) (e : Z) : Z := load8 m (e + 1).

Record t := {
  IoApicId : Z; IoApicAddress : Z; InterruptBase : Z;
  s_PinMap : list Z;
  s_LocalApicId : list Z;
  s_LocalApicCount : Z;
  s_BaseAddress : Z }.

Definition Fresh : t :=
  {| IoApicId := 0; IoApicAddress := 0; InterruptBase := 0; s_PinMap := replicate (Z.to_nat PINS) 0;
     s_LocalApicId := replicate (Z.to_nat Config.MAX_CORES) 0; s_LocalApicCount := 0; s_BaseAddress := 0 |}.

(** The [switch] over one record. *)
Definition ParseRecord (m : mem) (e : Z) (s : t) : t :=
  let type := Type_ m e in
  if type =? LOCAL_APIC then
    if negb (Z.testbit (load32 m (e + 4)) 0) || (load8 m (e + 3) =? INVALID_ID) then s
    else if Config.MAX_CORES <=? s_LocalApicCount s then s
    else {| IoApicId := IoApicId s; IoApicAddress := IoApicAddress s; InterruptBase := InterruptBase s;
            s_PinMap := s_PinMap s;
            s_LocalApicId := <[Z.to_nat (s_LocalApicCount s) := load8 m (e + 3)]> (s_LocalApicId s);
            s_LocalApicCount := u32 (s_LocalApicCount s + 1); s_BaseAddress := s_BaseAddress s |}
  else if type =? IO_APIC then
    if 23 <? load32 m (e + 8) then s
    else {| IoApicId := load8 m (e + 2); IoApicAddress := load32 m (e + 4); InterruptBase := load32 m (e + 8);
            s_PinMap := s_PinMap s; s_LocalApicId := s_LocalApicId s; s_LocalApicCount := s_LocalApicCount s;
            s_BaseAddress := s_BaseAddress s |}
  else if type =? INTERRUPT_SOURCE_OVERRIDE then
    if (load8 m (e + 2) =? 0) && (load8 m (e + 3) <? PINS)
    then {| IoApicId := IoApicId s; IoApicAddress := IoApicAddress s; InterruptBase := InterruptBase s;
            s_PinMap := <[Z.to_nat (load8 m (e + 3)) := u8 (load32 m (e + 4))]> (s_PinMap s);
            s_LocalApicId := s_LocalApicId s; s_LocalApicCount := s_LocalApicCount s; s_BaseAddress := s_BaseAddress s |}
    else s
  else if type =? LOCAL_APIC_ADDRESS_OVERRIDE then
    {| IoApicId := IoApicId s; IoApicAddress := IoApicAddress s; InterruptBase := InterruptBase s; s_PinMap := s_PinMap s;
       s_LocalApicId := s_LocalApicId s; s_LocalApicCount := s_LocalApicCount s; s_BaseAddress := load64 m (e + 4) |}
  else s.

Fixpoint Parse_loop (fuel : nat) (m : mem) (e end_ : Z) (s : t) : outcome t :=
  match fuel with
  | O => Diverges
  | S k => if e <? end_ then Parse_loop k m (e + RecordLength m e) end_ (ParseRecord m e s) else Ok s
  end.

Section Driver.
Context {D : Type} {HW : Hardware D}.

(** [madt] is what [Acpi::Get] answers.  Every record has a byte at least, unless its
    length is zero. *)
Definition Initialize (m : mem) (madt : Z) (s : t) (d : D) : outcome (bool * t * D) :=
  if madt =? 0 then Ok (false, s, d)
  else
    let d := if FlagsPcAtCompatible m madt then port_out 8 0x23 0x01 (port_out 8 0x22 0x70 d) else d in
    let s := {| IoApicId := IoApicId s; IoApicAddress := IoApicAddress s; InterruptBase := InterruptBase s;
                s_PinMap := Z.of_nat <$> seq 0 (Z.to_nat PINS);
                s_LocalApicId := replicate (Z.to_nat Config.MAX_CORES) INVALID_ID;
                s_LocalApicCount := s_LocalApicCount s; s_BaseAddress := LocalApicAddress m madt |} in
    let size := Acpi.Length m madt in
    let* s := Parse_loop (Z.to_nat size + 1) m (madt + SIZEOF_MADT) (madt + size) s in
    Ok (0 <? s_LocalApicCount s, s, d).
End Driver.

Definition GetIoApicAddress (s : t) : Z := IoApicAddress s.
Definition GetIoApicId (s : t) : Z := u8 (IoApicId s).
Definition GetIoApicPin (s : t) (InDevice : Z) : Z := nth (Z.to_nat InDevice) (s_PinMap s) 0.
Definition GetLocalApicId (s : t) (InCoreId : Z) : Z :=
  if InCoreId <? Config.MAX_CORES then nth (Z.to_nat InCoreId) (s_LocalApicId s) 0 else INVALID_ID.
Definition GetLogicalApicId (InCoreId : Z) : Z :=
  if InCoreId <? Config.MAX_CORES then u8 (Z.shiftl 1 InCoreId) else 0.
End Apic.
