(* ===== verification/Cores.v ===== *)
(** * Arch/Cpu.cpp: dense core numbers

    The table from local APIC id to core, built by the first core, and who is online. *)

From S2P Require Import Prelude Mem Config Device Acpi Apic.

Module Cpu.

Record t := { s_CoreIdByLapicId : Z -> Z; s_CoreCount : Z; s_OnlineCount : Z; s_CoreOnline : Z -> bool }.
Definition Boot : t :=
  {| s_CoreIdByLapicId := fun _ => 0; s_CoreCount := 0; s_OnlineCount := 0; s_CoreOnline := fun _ => false |}.

(** The loop the first core runs, cores from [core] on. *)
Fixpoint Number_loop (n : nat) (apic : Apic.t) (core : Z) (s : t) : t :=
  match n with
  | O => s
  | S k =>
      let lapicId := Apic.GetLocalApicId apic core in
      let s := if negb (lapicId =? Apic.INVALID_ID)
               then {| s_CoreIdByLapicId := upd (s_CoreIdByLapicId s) lapicId core;
                       s_CoreCount := u32 (s_CoreCount s + 1);
                       s_OnlineCount := s_OnlineCount s; s_CoreOnline := s_CoreOnline s |}
               else s in
      Number_loop k apic (core + 1) s
  end.

(** [lapic] is [LocalApic::GetId()] of the calling core. *)
Definition GetId (lapic : Z) (s : t) : Z := s_CoreIdByLapicId s lapic.

(** The bookkeeping of [Initialize]; the local APIC, task register and system call set-up
    that it calls are modelled with those components. *)
Definition Initialize (apic : Apic.t) (lapic : Z) (s : t) : t :=
  let first := s_OnlineCount s =? 0 in
  let s := {| s_CoreIdByLapicId := s_CoreIdByLapicId s; s_CoreCount := s_CoreCount s;
              s_OnlineCount := u32 (s_OnlineCount s + 1); s_CoreOnline := s_CoreOnline s |} in
  let s := if first then Number_loop (Z.to_nat Config.MAX_CORES) apic 0 s else s in
  {| s_CoreIdByLapicId := s_CoreIdByLapicId s; s_CoreCount := s_CoreCount s;
     s_OnlineCount := s_OnlineCount s; s_CoreOnline := upd (s_CoreOnline s) (GetId lapic s) true |}.
Definition Shutdown (lapic : Z) (s : t) : t :=
  {| s_CoreIdByLapicId := s_CoreIdByLapicId s; s_CoreCount := s_CoreCount s;
     s_OnlineCount := u32 (s_OnlineCount s - 1); s_CoreOnline := upd (s_CoreOnline s) (GetId lapic s) false |}.
Definition Count (s : t) : Z := s_CoreCount s.
Definition CountOnline (s : t) : Z := s_OnlineCount s.
Definition IsOnline (InCoreId : Z) (s : t) : bool := (InCoreId <? Config.MAX_CORES) && s_CoreOnline s InCoreId.
End Cpu.
