(* ===== verification/TopologySpec.v ===== *)
(** * The topology is read exactly, and core numbers are dense *)

From S2P Require Import Prelude Mem Config Device Acpi Apic Cores.
Import Apic.

Section Records.
Variable m : mem.

(** The records of a table that ends at [end_], by address; none is empty. *)
Inductive records_at (end_ : Z) : Z -> list Z -> Prop :=
| records_stop e : end_ <= e -> records_at end_ e []
| records_more e l : e < end_ -> 0 < RecordLength m e -> records_at end_ (e + RecordLength m e) l ->
    records_at end_ e (e :: l).

(** Records by what they say. *)
Definition usable_core (e : Z) : bool :=
  (Type_ m e =? LOCAL_APIC) && Z.testbit (load32 m (e + 4)) 0 && negb (load8 m (e + 3) =? INVALID_ID).
Definition legacy_router (e : Z) : bool := (Type_ m e =? IO_APIC) && (load32 m (e + 8) <=? 23).
Definition rewires (i : Z) (e : Z) : bool :=
  (Type_ m e =? INTERRUPT_SOURCE_OVERRIDE) && (load8 m (e + 2) =? 0) && (load8 m (e + 3) =? i).
Definition moves_base (e : Z) : bool := Type_ m e =? LOCAL_APIC_ADDRESS_OVERRIDE.

Definition core_ids (l : list Z) : list Z := (fun e => load8 m (e + 3)) <$> List.filter usable_core l.
Definition last_of (p : Z -> bool) (l : list Z) : option Z := last (List.filter p l).

Definition MAX : nat := Z.to_nat Config.MAX_CORES.
Definition padded (ids : list Z) : list Z := take MAX ids ++ replicate (MAX - length ids) INVALID_ID.

Record topology (base : Z) (l : list Z) (s : t) : Prop := {
  to_ids : s_LocalApicId s = padded (core_ids l);
  to_count : s_LocalApicCount s = Z.of_nat (Nat.min MAX (length (core_ids l)));
  to_router : (IoApicId s, IoApicAddress s, InterruptBase s) =
    match last_of legacy_router l with
    | Some e => (load8 m (e + 2), load32 m (e + 4), load32 m (e + 8))
    | None => (0, 0, 0)
    end;
  to_length : length (s_PinMap s) = Z.to_nat PINS;
  to_pins i : 0 <= i < PINS -> GetIoApicPin s i =
    match last_of (rewires i) l with Some e => u8 (load32 m (e + 4)) | None => i end;
  to_base : s_BaseAddress s = match last_of moves_base l with Some e => load64 m (e + 4) | None => base end }.

Lemma last_of_snoc p l e : last_of p (l ++ [e]) = if p e then Some e else last_of p l.
Proof.
  unfold last_of. rewrite List.filter_app. simpl. destruct (p e); [apply last_snoc|by rewrite app_nil_r].
Qed.

Lemma core_ids_snoc l e : core_ids (l ++ [e]) = core_ids l ++ (if usable_core e then [load8 m (e + 3)] else []).
Proof. unfold core_ids. rewrite List.filter_app, fmap_app. simpl. by destruct (usable_core e). Qed.

Lemma padded_snoc ids x : (length ids < MAX)%nat -> <[length ids := x]> (padded ids) = padded (ids ++ [x]).
Proof.
  intros Hl. unfold padded. rewrite !take_ge by (rewrite ?length_app; simpl; lia). rewrite length_app. simpl.
  rewrite insert_app_r_alt, Nat.sub_diag by lia.
  replace (MAX - length ids)%nat with (S (MAX - (length ids + 1))) by lia. simpl. by rewrite <- app_assoc.
Qed.

Lemma padded_full ids x : (MAX <= length ids)%nat -> padded (ids ++ [x]) = padded ids.
Proof.
  intros Hl. unfold padded. rewrite take_app_le by lia. rewrite length_app. simpl.
  by replace (MAX - (length ids + 1))%nat with (MAX - length ids)%nat by lia.
Qed.

Lemma ParseRecord_ok base l e s : topology base l s -> topology base (l ++ [e]) (ParseRecord m e s).
Proof.
  intros [T1 T2 T3 T4 T5 T6].
  assert (Hkeep : usable_core e = false -> legacy_router e = false -> (forall i, 0 <= i < PINS -> rewires i e = false) ->
    moves_base e = false -> topology base (l ++ [e]) s).
  { intros H1 H2 H3 H4. split; rewrite ?core_ids_snoc, ?last_of_snoc, ?H1, ?H2, ?H4, ?app_nil_r; try done.
    intros i Hi. rewrite last_of_snoc, H3 by done. by apply T5. }
  unfold ParseRecord. cbv zeta. unfold usable_core, legacy_router, rewires, moves_base in *.
  unfold LOCAL_APIC, IO_APIC, INTERRUPT_SOURCE_OVERRIDE, LOCAL_APIC_ADDRESS_OVERRIDE in *.
  destruct (Z.eqb_spec (Type_ m e) 0) as [E0|N0].
  { rewrite E0 in Hkeep.
    destruct (Z.testbit (load32 m (e + 4)) 0) eqn:Een; cbn [negb orb]; [|by apply Hkeep].
    destruct (load8 m (e + 3) =? INVALID_ID) eqn:Eid; [by apply Hkeep|].
    assert (Hu : usable_core e = true) by (unfold usable_core; by rewrite E0, Een, Eid).
    assert (Hother : legacy_router e = false /\ (forall i, rewires i e = false) /\ moves_base e = false)
      by (unfold legacy_router, rewires, moves_base; by rewrite E0).
    destruct Hother as (Hlr & Hrw & Hmb). rewrite T2. unfold Config.MAX_CORES.
    destruct (Z.leb_spec 8 (Z.of_nat (Nat.min MAX (length (core_ids l))))) as [Hfull|Hroom]; change MAX with 8%nat in *.
    - split; rewrite ?core_ids_snoc, ?last_of_snoc, ?Hu, ?Hlr, ?Hmb; try done.
      + rewrite padded_full by (change MAX with 8%nat; lia). done.
      + change MAX with 8%nat. rewrite T2, length_app. cbn [length]. lia.
      + intros i Hi. rewrite last_of_snoc, Hrw. by apply T5.
    - split; cbn [s_LocalApicId s_LocalApicCount IoApicId IoApicAddress InterruptBase s_PinMap s_BaseAddress];
        rewrite ?core_ids_snoc, ?last_of_snoc, ?Hu, ?Hlr, ?Hmb; try done.
      + rewrite T1, Nat2Z.id, Nat.min_r by lia. apply padded_snoc. change MAX with 8%nat. lia.
      + change MAX with 8%nat. rewrite length_app. cbn [length]. rewrite (wrap_small 32) by (unfold is_word; lia). lia.
      + intros i Hi. rewrite last_of_snoc, Hrw. by apply T5. }
  destruct (Z.eqb_spec (Type_ m e) 1) as [E1|N1].
  { rewrite E1 in Hkeep. assert (Hu : usable_core e = false /\ (forall i, rewires i e = false) /\ moves_base e = false)
      by (unfold usable_core, rewires, moves_base; by rewrite E1). destruct Hu as (Hu & Hrw & Hmb).
    destruct (Z.ltb_spec 23 (load32 m (e + 8))) as [Hgt|Hle]; [apply Hkeep; try done; simpl; lia|].
    assert (Hlr : legacy_router e = true) by (unfold legacy_router; rewrite E1; simpl; lia).
    split; cbn; rewrite ?core_ids_snoc, ?last_of_snoc, ?Hu, ?Hlr, ?Hmb, ?app_nil_r; try done.
    intros i Hi. rewrite last_of_snoc, Hrw. by apply T5. }
  destruct (Z.eqb_spec (Type_ m e) 2) as [E2|N2].
  { rewrite E2 in Hkeep. assert (Hu : usable_core e = false /\ legacy_router e = false /\ moves_base e = false)
      by (unfold usable_core, legacy_router, moves_base; by rewrite E2). destruct Hu as (Hu & Hlr & Hmb).
    pose proof (load8_range m (e + 3)) as Hr. unfold is_word in Hr. unfold PINS in *.
    destruct (load8 m (e + 2) =? 0) eqn:Eb; cbn [andb]; [|by apply Hkeep].
    destruct (Z.ltb_spec (load8 m (e + 3)) 16) as [Hlt|Hge]; [|apply Hkeep; try done; intros i Hi; simpl; lia].
    split; cbn; rewrite ?core_ids_snoc, ?last_of_snoc, ?Hu, ?Hlr, ?Hmb, ?app_nil_r; try done.
    - by rewrite length_insert.
    - intros i Hi. unfold PINS in Hi. rewrite last_of_snoc. unfold rewires. rewrite E2, Eb. cbn [andb Z.eqb]. unfold GetIoApicPin.
      cbn [s_PinMap]. rewrite nth_lookup. change (Z.to_nat 16) with 16%nat in T4.
      destruct (Z.eqb_spec (load8 m (e + 3)) i) as [->|Hne].
      + by rewrite list_lookup_insert_eq by lia.
      + rewrite list_lookup_insert_ne by lia. rewrite <- nth_lookup. by apply T5. }
  destruct (Z.eqb_spec (Type_ m e) 5) as [E5|N5].
  { assert (Hu : usable_core e = false /\ legacy_router e = false /\ (forall i, rewires i e = false) /\ moves_base e = true)
      by (unfold usable_core, legacy_router, rewires, moves_base; by rewrite E5). destruct Hu as (Hu & Hlr & Hrw & Hmb).
    split; cbn; rewrite ?core_ids_snoc, ?last_of_snoc, ?Hu, ?Hlr, ?Hmb, ?app_nil_r; try done.
    intros i Hi. rewrite last_of_snoc, Hrw. by apply T5. }
  by apply Hkeep.
Qed.

Lemma Parse_loop_ok end_ base e l : records_at end_ e l ->
  forall fuel l0 s, end_ - e < Z.of_nat fuel -> (0 < fuel)%nat -> topology base l0 s ->
  exists s', Parse_loop fuel m e end_ s = Ok s' /\ topology base (l0 ++ l) s'.
Proof.
  intros H. induction H as [e Hstop|e l Hlt Hlen H IH]; intros fuel l0 s Hf Hfp HT;
    (destruct fuel as [|fuel]; [lia|]); cbn [Parse_loop].
  - rewrite (proj2 (Z.ltb_ge _ _) Hstop). exists s. by rewrite app_nil_r.
  - rewrite (proj2 (Z.ltb_lt _ _) Hlt).
    destruct (IH fuel (l0 ++ [e]) (ParseRecord m e s)) as (s' & -> & HT'); [lia|lia|by apply ParseRecord_ok|].
    exists s'. by rewrite <- app_assoc in HT'.
Qed.

End Records.

(** ** Core numbers *)

(** After the cores below [core], the table sends each of their ids back to them. *)
Lemma Number_loop_ok apic ids n core c :
  s_LocalApicId apic = padded ids -> Forall (fun x => x <> INVALID_ID) ids -> NoDup ids ->
  (core + n = MAX)%nat -> Cpu.s_CoreCount c = Z.of_nat (Nat.min core (length ids)) ->
  (forall i id, (i < core)%nat -> ids !! i = Some id -> Cpu.GetId id c = Z.of_nat i) ->
  let c' := Cpu.Number_loop n apic (Z.of_nat core) c in
  Cpu.Count c' = Z.of_nat (Nat.min MAX (length ids)) /\
  forall i id, (i < MAX)%nat -> ids !! i = Some id -> Cpu.GetId id c' = Z.of_nat i.
Proof.
  intros Hids Hv Hnd. revert core c. induction n as [|n IH]; intros core c Hn Hc Hi; cbn [Cpu.Number_loop].
  { replace core with MAX in * by lia. done. }
  assert (Hcore : (core < MAX)%nat) by lia. change MAX with 8%nat in Hcore.
  assert (Hget : GetLocalApicId apic (Z.of_nat core) = default INVALID_ID (ids !! core)).
  { unfold GetLocalApicId, Config.MAX_CORES. rewrite (proj2 (Z.ltb_lt _ _)) by lia.
    rewrite Nat2Z.id, nth_lookup, Hids. unfold padded. change MAX with 8%nat.
    destruct (decide (core < length ids)%nat) as [Hlt|Hge].
    - rewrite lookup_app_l by (rewrite length_take; lia). rewrite lookup_take_lt by lia.
      by destruct (lookup_lt_is_Some_2 _ _ Hlt) as [x ->].
    - rewrite lookup_app_r by (rewrite length_take; lia). rewrite lookup_replicate_2 by (rewrite length_take; lia).
      by rewrite lookup_ge_None_2 by lia. }
  rewrite Hget. replace (Z.of_nat core + 1) with (Z.of_nat (S core)) by lia.
  destruct (ids !! core) as [id|] eqn:Eid;
    [change (default INVALID_ID (Some id)) with id|change (default INVALID_ID None) with INVALID_ID].
  - pose proof (lookup_lt_Some _ _ _ Eid) as Hlt. assert (Hne : id <> INVALID_ID) by (by eapply (Forall_lookup_1 _ _ _ _ Hv)).
    rewrite (proj2 (Z.eqb_neq _ _) Hne). cbn [negb]. apply IH; [lia| |].
    + cbn [Cpu.s_CoreCount]. rewrite Hc. rewrite (wrap_small 32) by (unfold is_word; lia). lia.
    + intros i id' Hi' Hl. unfold Cpu.GetId. cbn [Cpu.s_CoreIdByLapicId]. unfold upd. destruct (Z.eqb_spec id' id) as [->|Hd].
      * f_equal. by apply (NoDup_lookup ids _ _ id).
      * apply Hi; [|done]. destruct (decide (i = core)) as [->|]; [congruence|lia].
  - change (negb (INVALID_ID =? INVALID_ID)) with false. cbv iota.
    apply lookup_ge_None in Eid. apply IH; [lia|lia|].
    intros i id' Hi' Hl. apply Hi; [|done]. apply lookup_lt_Some in Hl. lia.
Qed.

Section Topology.
Variable m : mem.

Lemma topology_start base : topology m base []
  {| IoApicId := 0; IoApicAddress := 0; InterruptBase := 0; s_PinMap := Z.of_nat <$> seq 0 (Z.to_nat PINS);
     s_LocalApicId := replicate (Z.to_nat Config.MAX_CORES) INVALID_ID; s_LocalApicCount := 0; s_BaseAddress := base |}.
Proof.
  split; try done. intros i Hi. unfold GetIoApicPin, PINS in *. cbn [s_PinMap].
  rewrite nth_lookup, list_lookup_fmap, lookup_seq_lt by lia. simpl. lia.
Qed.

Lemma core_ids_valid l : Forall (fun x => x <> INVALID_ID) (core_ids m l).
Proof.
  unfold core_ids. apply Forall_fmap, List.Forall_forall. intros e He. apply filter_In in He as [_ He].
  unfold usable_core in He. simpl. lia.
Qed.

(** C35: The system's topology is read exactly out of the MADT.  For a table that is a
    sequence of records the parser returns; the cores are the first eight of the enabled ones
    with a valid id, in table order, and the others are ignored; the I/O APIC, the pin of each of the sixteen
    ISA interrupts and the local APIC's base are those of the last record that speaks
    about them, with the identity and the header's base by default; and when the ids are
    distinct, the dense core numbers built from them number these (at most eight) cores
    consecutively and lead from each of their local APIC ids back to its core. *)
Theorem topology_read_exactly {D} {HW : Hardware D} madt l (d : D) :
  madt <> 0 -> 44 <= Acpi.Length m madt ->
  records_at m (madt + Acpi.Length m madt) (madt + 44) l ->
  exists s d', Apic.Initialize m madt Fresh d = Ok (0 <? Z.of_nat (length (core_ids m l)), s, d') /\
    topology m (LocalApicAddress m madt) l s /\
    (NoDup (core_ids m l) ->
     let c := Cpu.Number_loop MAX s 0 Cpu.Boot in
     Cpu.Count c = s_LocalApicCount s /\
     forall i id, (i < MAX)%nat -> core_ids m l !! i = Some id ->
       Cpu.GetId id c = Z.of_nat i /\ GetLocalApicId s (Z.of_nat i) = id).
Proof.
  intros Hm Hlen Hr. unfold Initialize. rewrite (proj2 (Z.eqb_neq _ _) Hm). cbv zeta.
  change SIZEOF_MADT with 44. set (d' := if FlagsPcAtCompatible m madt then _ else d).
  destruct (Parse_loop_ok m _ (LocalApicAddress m madt) _ l Hr (Z.to_nat (Acpi.Length m madt) + 1) [] _
    ltac:(lia) ltac:(lia) (topology_start _)) as (s & HE & HT).
  cbn [IoApicId IoApicAddress InterruptBase s_LocalApicCount Fresh]. rewrite HE. cbn [obind]. exists s, d'. pose proof HT as [T1 T2 _ _ _ _]. rewrite T2. cbn [app] in *. split_and!; [|done|].
  - assert (E : (0 <? Z.of_nat (Nat.min MAX (length (core_ids m l)))) = (0 <? Z.of_nat (length (core_ids m l)))).
    { change MAX with 8%nat. destruct (Z.ltb_spec 0 (Z.of_nat (length (core_ids m l)))); [apply Z.ltb_lt|apply Z.ltb_ge]; lia. }
    by rewrite E.
  - intros Hnd. destruct (Number_loop_ok s (core_ids m l) MAX 0 Cpu.Boot T1 (core_ids_valid l) Hnd) as [H1 H2]; try done; [lia..|].
    split; [exact H1|]. intros i id Hi Hid. split; [by apply H2|].
    unfold GetLocalApicId, Config.MAX_CORES. change MAX with 8%nat in *. rewrite (proj2 (Z.ltb_lt _ _)) by lia.
    rewrite Nat2Z.id, nth_lookup, T1. unfold padded. pose proof (lookup_lt_Some _ _ _ Hid).
    rewrite lookup_app_l by (rewrite length_take; change MAX with 8%nat; lia). rewrite lookup_take_lt by (change MAX with 8%nat; lia).
    by rewrite Hid.
Qed.

End Topology.

(** ** Witness: two cores, one disabled, an I/O APIC and the usual timer override *)

#[local] Instance still_hardware : Hardware unit := {
  port_in w p d := (0, d); port_out w p v d := d; mmio_read a d := (0, d); mmio_write a v d := d }.

Definition madt_bytes : list Z :=
  [65; 80; 73; 67; 90; 0; 0; 0] ++ replicate 28 0 ++ [0; 0; 0xe0; 0xfe; 1; 0; 0; 0] ++
  [0; 8; 0; 4; 1; 0; 0; 0] ++ [0; 8; 1; 6; 0; 0; 0; 0] ++ [0; 8; 2; 2; 1; 0; 0; 0] ++
  [1; 12; 3; 0; 0; 0; 0xc0; 0xfe; 0; 0; 0; 0] ++ [2; 10; 0; 0; 2; 0; 0; 0; 0; 0].
Definition madt_memory : mem := fun a => nth (Z.to_nat (a - 0x1000)) madt_bytes 0.

Lemma topology_read_exactly_witness :
  exists s d', Apic.Initialize madt_memory 0x1000 Fresh tt = Ok (true, s, d') /\
    s_LocalApicCount s = 2 /\ GetIoApicPin s 0 = 2 /\ GetIoApicPin s 1 = 1 /\
    Cpu.GetId 2 (Cpu.Number_loop MAX s 0 Cpu.Boot) = 1.
Proof.
  destruct (topology_read_exactly madt_memory 0x1000 [0x102c; 0x1034; 0x103c; 0x1044; 0x1050] tt) as (s & d' & H1 & [T1 T2 T3 T4 T5 T6] & H2).
  - discriminate.
  - vm_compute. discriminate.
  - repeat (apply records_more; [reflexivity|reflexivity|]). apply records_stop. vm_compute. discriminate.
  - exists s, d'. split; [exact H1|]. split; [exact T2|].
    split; [apply (T5 0); unfold PINS; lia|]. split; [apply (T5 1); unfold PINS; lia|].
    apply H2 with (i := 1%nat); [apply (bool_decide_unpack _); vm_compute; exact I|vm_compute; lia|vm_compute; reflexivity].
Defined.
