(* ===== verification/LongMode.v ===== *)
(** * Boot/LongMode.asm and Boot/Entry.asm: the first page tables and the first stacks

    Before any C++ runs: the tables the bootstrap processor builds, what they map, the control
    registers with which long mode is entered, and the slice of the boot stacks each core claims.
    Memory is physical here.  The walk is the processor's. *)

From S2P Require Import Prelude Mem Config Paging PagingSpec.

Module LongMode.

Definition PAGE_PRESENT : Z := Z.shiftl 1 0.
Definition PAGE_WRITEABLE : Z := Z.shiftl 1 1.
Definition PAGE_HUGE : Z := Z.shiftl 1 7.
Definition PAGE_SIZE : Z := 4096.

(** The load addresses Boot/Sections.ld exports. *)
Record tables := { Level4 : Z; Level3 : Z; Level3High : Z; Level2 : Z }.

(** The loops count [ecx] up to a limit and store 32 bits a round. *)
Fixpoint fill (n : nat) (f : Z -> Z) (base ecx : Z) (m : mem) : mem :=
  match n with O => m | S k => fill k f base (ecx + 1) (store32 m (base + ecx * 8) (f ecx)) end.

Definition MapDirectories (T : tables) : mem -> mem :=
  fill (512 * 4) (fun ecx => Z.lor (u32 (0x200000 * ecx)) (Z.lor PAGE_PRESENT (Z.lor PAGE_WRITEABLE PAGE_HUGE))) (Level2 T) 0.
Definition MapDirectoryPointers (T : tables) : mem -> mem :=
  fill 4 (fun ecx => Z.lor (u32 (u32 (PAGE_SIZE * ecx) + Level2 T)) (Z.lor PAGE_PRESENT PAGE_WRITEABLE)) (Level3 T) 0.

Definition SetupPaging (T : tables) (m : mem) : mem :=
  let m := MapDirectories T m in
  let m := MapDirectoryPointers T m in
  let m := store32 m (Level4 T) (Z.lor (Level3 T) (Z.lor PAGE_PRESENT PAGE_WRITEABLE)) in
  let m := store32 m (Level4 T + 256 * 8) (Z.lor (Level3 T) (Z.lor PAGE_PRESENT PAGE_WRITEABLE)) in
  let m := store32 m (Level3High T + 510 * 8) (Z.lor (Level2 T) (Z.lor PAGE_PRESENT PAGE_WRITEABLE)) in
  store32 m (Level4 T + 511 * 8) (Z.lor (Level3High T) (Z.lor PAGE_PRESENT PAGE_WRITEABLE)).

(** ** Control registers *)

Record control := { CR0 : Z; CR3 : Z; CR4 : Z; EFER : Z }.
Definition CR4_PAE : Z := Z.shiftl 1 5.
Definition CR0_PG : Z := Z.shiftl 1 31.
Definition EFER_LME : Z := Z.shiftl 1 8.
Definition EFER_NXE : Z := Z.shiftl 1 11.
Definition CPUID_NX_BIT : Z := Z.shiftl 1 20.
Definition CPUID_LONG_MODE_BIT : Z := Z.shiftl 1 29.
Definition CPUID_EXTENDED_FEATURES : Z := 0x80000001.

(** The checks in front: [extended_max] and [features] are what the two leaves answer. *)
Definition CheckLongMode (extended_max features : Z) : bool :=
  negb (extended_max <? CPUID_EXTENDED_FEATURES) && negb (Z.land features CPUID_LONG_MODE_BIT =? 0).

Definition EnablePaging (root features : Z) (c : control) : control :=
  {| CR3 := root;
     CR4 := Z.lor (CR4 c) CR4_PAE;
     EFER := (let eax := Z.lor (EFER c) EFER_LME in
              if Z.land features CPUID_NX_BIT =? 0 then eax else Z.lor eax EFER_NXE);
     CR0 := Z.lor (CR0 c) CR0_PG |}.

(** [LongMode] behind the checks: the kernel's root when there is one, the boot map before. *)
Definition Enter (T : tables) (KernelPageTableRoot features : Z) (s : mem * control) : mem * control :=
  let '(m, c) := s in
  if negb (u32 KernelPageTableRoot =? 0) then (m, EnablePaging (u32 KernelPageTableRoot) features c)
  else (SetupPaging T m, EnablePaging (Level4 T) features c).

(** ** The processor's walk *)

Definition entry (m : mem) (table index : Z) : Z := load64 m (table + 8 * index).
Definition index (v level : Z) : Z := (v / 2 ^ (12 + 9 * level)) mod 512.
Definition frame_of (e : Z) : Z := Z.land e 0x000ffffffffff000.

(** Four levels, with 2 MiB pages at level 1 (counted from 0); boot uses no 1 GiB pages. *)
Definition walk (m : mem) (cr3 v : Z) : option Z :=
  let e4 := entry m cr3 (index v 3) in
  if negb (Z.testbit e4 0) then None else
  let e3 := entry m (frame_of e4) (index v 2) in
  if negb (Z.testbit e3 0) then None else
  let e2 := entry m (frame_of e3) (index v 1) in
  if negb (Z.testbit e2 0) then None
  else if Z.testbit e2 7 then Some (frame_of e2 / 0x200000 * 0x200000 + v mod 0x200000)
  else
    let e1 := entry m (frame_of e2) (index v 0) in
    if negb (Z.testbit e1 0) then None else Some (frame_of e1 + v mod 4096).

(** ** What the tables hold *)

Lemma load_app m a n k : load m a (n + k) = load m a n + 2 ^ (8 * Z.of_nat n) * load m (a + Z.of_nat n) k.
Proof.
  revert a. induction n as [|n IH]; intros a.
  - change (load m a 0) with 0. simpl plus. rewrite Z.add_0_r. lia.
  - change (load m a (S n + k)) with (load8 m a + 256 * load m (a + 1) (n + k)). rewrite IH.
    change (load m a (S n)) with (load8 m a + 256 * load m (a + 1) n).
    replace (a + 1 + Z.of_nat n) with (a + Z.of_nat (S n)) by lia.
    replace (8 * Z.of_nat (S n)) with (8 + 8 * Z.of_nat n) by lia. rewrite Z.pow_add_r by lia. lia.
Qed.

(** A 32-bit store into a zero entry makes the entry. *)
Lemma store_low m a v : is_word 32 v -> load32 m (a + 4) = 0 -> load64 (store32 m a v) a = v.
Proof.
  intros Hv Hz. rewrite (load_app _ a 4 4). rewrite load_store_same, load_store_disj by lia.
  change (Z.of_nat 4) with 4. rewrite Hz. rewrite wrap_small by done. lia.
Qed.

Lemma fill_out n f base : forall i m x, x < base + i * 8 \/ base + (i + Z.of_nat n) * 8 <= x ->
  load8 (fill n f base i m) x = load8 m x.
Proof.
  induction n as [|n IH]; intros i m x H; [done|]. cbn [fill]. rewrite IH by lia. apply load8_store_out. lia.
Qed.

Lemma fill_load n f base i m a k : a + Z.of_nat k <= base + i * 8 \/ base + (i + Z.of_nat n) * 8 <= a ->
  load (fill n f base i m) a k = load m a k.
Proof. intros H. apply load_ext. intros x Hx. apply fill_out. lia. Qed.

Lemma fill_sets_entry n f base : forall i m j, i <= j < i + Z.of_nat n -> is_word 32 (f j) ->
  load32 m (base + j * 8 + 4) = 0 -> load64 (fill n f base i m) (base + j * 8) = f j.
Proof.
  induction n as [|n IH]; intros i m j Hj Hf Hz; [lia|]. cbn [fill]. destruct (decide (j = i)) as [->|].
  - rewrite fill_load by lia. by apply store_low.
  - apply IH; [lia|done|]. rewrite load_store_disj by lia. done.
Qed.

(** The section reserves the tables one behind the other. *)
Definition placed (b : Z) : tables :=
  {| Level4 := b; Level3 := b + 4096; Level3High := b + 8192; Level2 := b + 12288 |}.
Definition BSS : Z := 7 * 4096.

Record fresh (b : Z) (m : mem) : Prop := {
  fr_aligned : b mod 4096 = 0;
  fr_low : 0 < b /\ b + BSS <= 2 ^ 32;
  fr_zero a : b <= a < b + BSS -> load8 m a = 0 }.

Lemma fresh_load b m a k : fresh b m -> b <= a -> a + Z.of_nat k <= b + BSS -> load m a k = 0.
Proof.
  intros [_ _ Hz]. revert a. induction k as [|k IH]; intros a H1 H2; [done|].
  change (load m a (S k)) with (load8 m a + 256 * load m (a + 1) k). rewrite Hz, IH by lia. done.
Qed.

Definition link (table : Z) : Z := Z.lor table (Z.lor PAGE_PRESENT PAGE_WRITEABLE).
Definition leaf (i : Z) : Z := Z.lor (0x200000 * i) (Z.lor PAGE_PRESENT (Z.lor PAGE_WRITEABLE PAGE_HUGE)).

Lemma link_word p : is_word 32 p -> is_word 32 (link p).
Proof. intros. by apply is_word_lor. Qed.
Lemma leaf_word i : 0 <= i < 2048 -> is_word 32 (leaf i).
Proof. intros. apply is_word_lor; [done| |done]. unfold is_word. lia. Qed.

Lemma link_present p : Z.testbit (link p) 0 = true.
Proof. unfold link. rewrite Z.lor_spec. apply orb_true_r. Qed.
Lemma link_frame p : is_frame p -> frame_of (link p) = p.
Proof.
  intros Hp. apply (addr_of_lor p); [done|]. intros k Hk. change (Z.lor PAGE_PRESENT PAGE_WRITEABLE) with (Z.ones 2).
  by rewrite Z.ones_spec_high by lia.
Qed.
Lemma leaf_bits i : Z.testbit (leaf i) 0 = true /\ Z.testbit (leaf i) 7 = true.
Proof. unfold leaf. rewrite !Z.lor_spec. split; apply orb_true_r. Qed.
Lemma leaf_frame i : 0 <= i < 2048 -> frame_of (leaf i) = 0x200000 * i.
Proof.
  intros Hi. apply (addr_of_lor (0x200000 * i)).
  - split; [|lia]. replace (0x200000 * i) with (512 * i * 4096) by lia. apply Z.mod_mul. lia.
  - intros k Hk. apply Z.bits_above_log2; [done|]. change (Z.log2 _) with 7. lia.
Qed.

(** The four page directories and their pointers. *)
Lemma directories b m (m1 := MapDirectories (placed b) m) (m2 := MapDirectoryPointers (placed b) m1) : fresh b m ->
  (forall i, 0 <= i < 2048 -> entry m2 (b + 12288) i = leaf i) /\
  (forall i, 0 <= i < 512 -> entry m2 (b + 4096) i = if i <? 4 then link (b + 12288 + 4096 * i) else 0) /\
  (forall a k, b <= a /\ a + Z.of_nat k <= b + 4096 \/ b + 8192 <= a /\ a + Z.of_nat k <= b + 12288 -> load m2 a k = 0).
Proof.
  intros Hf. pose proof (fr_low _ _ Hf) as Hb. unfold BSS in Hb.
  assert (Z1 : forall a k, b <= a -> a + Z.of_nat k <= b + 12288 -> load m1 a k = 0).
  { intros a k H1 H2. unfold m1, MapDirectories. rewrite fill_load by (simpl Level2; lia).
    apply (fresh_load b); [done|lia|unfold BSS; lia]. }
  split_and!.
  - intros i Hi. unfold entry, m2, MapDirectoryPointers. rewrite fill_load by (simpl; lia). unfold m1, MapDirectories.
    rewrite (Z.mul_comm 8 i). rewrite fill_sets_entry; [| |simpl; by rewrite wrap_small by (unfold is_word; lia); apply leaf_word|].
    + unfold leaf. by rewrite wrap_small by (unfold is_word; lia).
    + lia.
    + apply (fresh_load b); [done|simpl; lia|unfold BSS; simpl; lia].
  - intros i Hi. unfold entry, m2, MapDirectoryPointers. destruct (Z.ltb_spec i 4) as [Hi4|Hi4].
    + assert (E : u32 (u32 (PAGE_SIZE * i) + (b + 12288)) = b + 12288 + 4096 * i).
      { unfold PAGE_SIZE. rewrite (wrap_small 32 (4096 * i)) by (unfold is_word; lia).
        rewrite wrap_small by (unfold is_word; lia). lia. }
      rewrite (Z.mul_comm 8 i). rewrite fill_sets_entry; [simpl Level2; by rewrite E|lia| |apply Z1; simpl; lia].
      simpl Level2. rewrite E. apply link_word. unfold is_word. lia.
    + rewrite fill_load by (simpl; lia). apply Z1; lia.
  - intros a k H. unfold m2, MapDirectoryPointers. rewrite fill_load by (simpl; lia). apply Z1; lia.
Qed.

Lemma setup_entries b m (m' := SetupPaging (placed b) m) : fresh b m ->
  (forall i, 0 <= i < 2048 -> entry m' (b + 12288) i = leaf i) /\
  (forall i, 0 <= i < 512 -> entry m' (b + 4096) i = if i <? 4 then link (b + 12288 + 4096 * i) else 0) /\
  (forall i, 0 <= i < 512 -> entry m' (b + 8192) i = if i =? 510 then link (b + 12288) else 0) /\
  (forall i, 0 <= i < 512 -> entry m' b i =
     if (i =? 0) || (i =? 256) then link (b + 4096) else if i =? 511 then link (b + 8192) else 0).
Proof.
  intros Hf. pose proof (fr_low _ _ Hf) as Hb. unfold BSS in Hb.
  destruct (directories b m Hf) as (D1 & D2 & D3). unfold m', SetupPaging. cbv zeta.
  set (m2 := MapDirectoryPointers (placed b) (MapDirectories (placed b) m)) in *. clearbody m2.
  cbn [placed Level4 Level3 Level3High Level2]. fold (link (b + 4096)) (link (b + 12288)) (link (b + 8192)).
  assert (W : forall x, 0 <= x < 4 -> is_word 32 (link (b + 4096 * x))).
  { intros x Hx. apply link_word. unfold is_word. lia. }
  pose proof (W 1 ltac:(lia)) as W1. pose proof (W 2 ltac:(lia)) as W2. pose proof (W 3 ltac:(lia)) as W3.
  unfold entry in *. split_and!; intros i Hi.
  - rewrite !load_store_disj by lia. by apply D1.
  - rewrite !load_store_disj by lia. by apply D2.
  - rewrite (load_store_disj _ (b + 511 * 8)) by lia. destruct (Z.eqb_spec i 510) as [->|].
    + rewrite store_low; [done..|]. rewrite !load_store_disj by lia. apply D3. lia.
    + rewrite !load_store_disj by lia. apply D3. lia.
  - destruct (Z.eqb_spec i 0) as [->|]; [|destruct (Z.eqb_spec i 256) as [->|]; [|destruct (Z.eqb_spec i 511) as [->|]]]; simpl orb; cbv iota.
    + rewrite Z.mul_0_r, Z.add_0_r. rewrite !(load_store_disj _ (b + _ * 8)), (load_store_disj _ (b + 8192 + 510 * 8)) by lia.
      rewrite !(load_store_disj _ (b + _ * 8)) by lia.
      apply store_low; [done|]. apply D3. lia.
    + rewrite (load_store_disj _ (b + 511 * 8)), (load_store_disj _ (b + 8192 + 510 * 8)) by lia.
      apply store_low; [done|]. rewrite load_store_disj by lia. apply D3. lia.
    + apply store_low; [done|]. rewrite !load_store_disj by lia. apply D3. lia.
    + rewrite !load_store_disj by lia. apply D3. lia.
Qed.

(** ** What they map *)

Lemma table_frame b m k : fresh b m -> 0 <= k < 7 -> is_frame (b + 4096 * k).
Proof.
  intros [Ha Hb _] Hk. unfold BSS in Hb. split; [|lia]. rewrite Z.add_mod, Ha by lia.
  rewrite (Z.mul_comm 4096 k), Z.mod_mul by lia. done.
Qed.

Lemma index_range v l : 0 <= index v l < 512.
Proof. apply Z.mod_pos_bound. lia. Qed.

(** Below a directory pointer of the boot map. *)
Lemma walk_directory b m v q : fresh b m -> 0 <= q < 4 ->
  let m' := SetupPaging (placed b) m in
  let e2 := entry m' (frame_of (link (b + 12288 + 4096 * q))) (index v 1) in
  Z.testbit e2 0 = true /\ Z.testbit e2 7 = true /\
  frame_of e2 / 0x200000 * 0x200000 + v mod 0x200000 = q * 2 ^ 30 + v mod 2 ^ 30.
Proof.
  intros Hf Hq m' e2. destruct (setup_entries b m Hf) as (D & _). change (SetupPaging (placed b) m) with m' in D.
  clearbody m'.
  pose proof (index_range v 1) as Hi.
  assert (E : e2 = leaf (512 * q + index v 1)).
  { unfold e2. replace (b + 12288 + 4096 * q) with (b + 4096 * (3 + q)) by lia.
    rewrite link_frame by (apply (table_frame b m); [done|lia]). rewrite <- D by lia. unfold entry.
    replace (b + 4096 * (3 + q) + 8 * index v 1) with (b + 12288 + 8 * (512 * q + index v 1)) by lia. reflexivity. }
  rewrite E. destruct (leaf_bits (512 * q + index v 1)) as [-> ->]. split_and!; [done..|].
  rewrite leaf_frame by lia. unfold index in *. change (2 ^ (12 + 9 * 1)) with (2 ^ 21) in *.
  rewrite (Z.mul_comm 0x200000), Z.div_mul by lia.
  change 0x200000 with (2 ^ 21). change (v mod 2 ^ 30) with (v mod (2 ^ 21 * 512)). rewrite Z.rem_mul_r by lia.
  change (2 ^ 30) with (512 * 2 ^ 21). ring.
Qed.

Lemma walk_exact b m v : fresh b m ->
  walk (SetupPaging (placed b) m) (Level4 (placed b)) v =
  if (index v 3 =? 0) || (index v 3 =? 256)
  then if v mod 2 ^ 39 <? 2 ^ 32 then Some (v mod 2 ^ 39) else None
  else if (index v 3 =? 511) && (index v 2 =? 510) then Some (v mod 2 ^ 30) else None.
Proof.
  intros Hf. destruct (setup_entries b m Hf) as (_ & D3 & DH & D4).
  unfold walk. change (Level4 (placed b)) with b. rewrite D4 by apply index_range.
  assert (Em : v mod 2 ^ 39 = index v 2 * 2 ^ 30 + v mod 2 ^ 30).
  { unfold index. change (2 ^ (12 + 9 * 2)) with (2 ^ 30). change (v mod 2 ^ 39) with (v mod (2 ^ 30 * 512)). rewrite Z.rem_mul_r by lia. ring. }
  pose proof (Z.mod_pos_bound v (2 ^ 30) ltac:(lia)) as Hr. pose proof (index_range v 2) as Hi.
  destruct ((index v 3 =? 0) || (index v 3 =? 256)) eqn:E1; [|destruct (index v 3 =? 511) eqn:E2].
  - rewrite link_present. cbn [negb]. rewrite link_frame by (apply (table_frame b m 1); [done|lia]).
    rewrite D3 by done. destruct (Z.ltb_spec (index v 2) 4) as [H4|H4].
    + rewrite link_present. cbn [negb]. destruct (walk_directory b m v (index v 2) Hf) as (-> & -> & ->); [lia|].
      cbn [negb]. rewrite (proj2 (Z.ltb_lt _ _)) by lia. by rewrite Em.
    + rewrite (proj2 (Z.ltb_ge _ _)) by lia. done.
  - rewrite link_present. cbn [negb]. rewrite link_frame by (apply (table_frame b m 2); [done|lia]).
    rewrite DH by done. destruct (Z.eqb_spec (index v 2) 510) as [H5|H5]; [|done].
    rewrite link_present. cbn [negb andb]. replace (b + 12288) with (b + 12288 + 4096 * 0) by lia.
    destruct (walk_directory b m v 0 Hf) as (-> & -> & ->); [lia|]. cbn [negb]. f_equal.
  - done.
Qed.

(** Addresses the processor accepts: bit 47 is repeated above. *)
Definition canonical (v : Z) : Prop := 0 <= v < 2 ^ 47 \/ 2 ^ 64 - 2 ^ 47 <= v < 2 ^ 64.

(** C21: The tables the bootstrap processor builds map exactly three windows, whatever memory held
    elsewhere: the first 4 GiB one to one, the same 4 GiB at the base of the direct map, and the
    first GiB at the kernel's link address; every other canonical address is unmapped. *)
Theorem boot_map_exact b m v p : fresh b m -> canonical v ->
  walk (SetupPaging (placed b) m) (Level4 (placed b)) v = Some p <->
  (0 <= p < 4 * GIB /\ (v = p \/ v = Config.DIRECT_MAP_BASE + p)) \/ (0 <= p < GIB /\ v = Config.KERNEL_VMA + p).
Proof.
  intros Hf Hv. rewrite walk_exact by done. unfold index.
  change (2 ^ (12 + 9 * 3)) with (2 ^ 39). change (2 ^ (12 + 9 * 2)) with (2 ^ 30).
  unfold canonical, Config.DIRECT_MAP_BASE, Config.KERNEL_VMA in *. change (4 * GIB) with (2 ^ 32). change GIB with (2 ^ 30).
  pose proof (Z.div_mod v (2 ^ 39) ltac:(lia)). pose proof (Z.mod_pos_bound v (2 ^ 39) ltac:(lia)).
  pose proof (Z.div_mod v (2 ^ 30) ltac:(lia)). pose proof (Z.mod_pos_bound v (2 ^ 30) ltac:(lia)).
  pose proof (Z.div_mod (v / 2 ^ 39) 512 ltac:(lia)). pose proof (Z.mod_pos_bound (v / 2 ^ 39) 512 ltac:(lia)).
  pose proof (Z.div_mod (v / 2 ^ 30) 512 ltac:(lia)). pose proof (Z.mod_pos_bound (v / 2 ^ 30) 512 ltac:(lia)).
  assert (E : v / 2 ^ 39 = v / 2 ^ 30 / 512) by (rewrite Z.div_div by lia; done).
  destruct (Z.eqb_spec ((v / 2 ^ 39) mod 512) 0), (Z.eqb_spec ((v / 2 ^ 39) mod 512) 256),
    (Z.eqb_spec ((v / 2 ^ 39) mod 512) 511), (Z.eqb_spec ((v / 2 ^ 30) mod 512) 510),
    (Z.ltb_spec (v mod 2 ^ 39) (2 ^ 32)); simpl; split; intros X;
    try (injection X as <-); try discriminate X; try f_equal; lia.
Qed.

Lemma boot_map_exact_witness :
  walk (SetupPaging (placed 0x1800000) (fun _ => 0)) 0x1800000 (Config.KERNEL_VMA + 0x1234567) = Some 0x1234567.
Proof.
  apply (boot_map_exact 0x1800000 (fun _ => 0)).
  - split; [done|unfold BSS; lia|done].
  - right. unfold Config.KERNEL_VMA. lia.
  - right. split; [unfold GIB, MIB, KIB; lia|done].
Defined.

(** ** Boot stacks *)

(** Low half of [KERNEL_VMA]. *)
Definition KERNEL_VMA_LOW : Z := 0x80000000.

(** From [.LoadCodeSegment] to [LongModeStart]: the 32-bit exchange-and-add leaves the upper
    half of [CoreStackPointer] alone; the stack is first its physical address, then the kernel's
    alias of it.  Answers the stack pointer and the variable. *)
Definition ClaimStack (CoreStackPointer CoreStackSize : Z) : Z * Z :=
  let eax := u32 CoreStackPointer in
  let pointer := CoreStackPointer / 2 ^ 32 * 2 ^ 32 + u32 (eax + CoreStackSize) in
  let esp := u32 (u32 (eax + CoreStackSize) - KERNEL_VMA_LOW) in
  (esp +64 Config.KERNEL_VMA, pointer).

(** The stack pointers of [n] cores, in the order of their exchange-and-add. *)
Fixpoint claims (n : nat) (pointer : Z) : list Z :=
  match n with
  | O => []
  | S k => let '(rsp, pointer) := ClaimStack pointer Config.BOOT_STACK_SIZE in rsp :: claims k pointer
  end.

(** [s_CoreStacks] lies in the kernel's window, its end included. *)
Definition core_stacks (base : Z) : Prop :=
  Config.KERNEL_VMA <= base /\ base + Config.MAX_CORES * Config.BOOT_STACK_SIZE < 2 ^ 64.

Lemma claim_exact p : Config.KERNEL_VMA <= p -> p + Config.BOOT_STACK_SIZE < 2 ^ 64 ->
  ClaimStack p Config.BOOT_STACK_SIZE = (p + Config.BOOT_STACK_SIZE, p + Config.BOOT_STACK_SIZE).
Proof.
  unfold Config.KERNEL_VMA, Config.BOOT_STACK_SIZE, KIB. intros H1 H2. unfold ClaimStack, Config.KERNEL_VMA, KERNEL_VMA_LOW.
  pose proof (Z.div_mod p (2 ^ 32) ltac:(lia)). pose proof (Z.mod_pos_bound p (2 ^ 32) ltac:(lia)).
  assert (E : p / 2 ^ 32 = 0xffffffff) by lia.
  rewrite (wrap_small 32 (u32 p + _)) by (unfold is_word, wrap; lia).
  rewrite (wrap_small 32 (_ - _)) by (unfold is_word, wrap; lia).
  rewrite wrap_small by (unfold is_word, wrap; lia). rewrite E. unfold wrap. f_equal; lia.
Qed.

Lemma claim_at base i : Config.KERNEL_VMA <= base -> 0 <= i -> base + (i + 1) * Config.BOOT_STACK_SIZE < 2 ^ 64 ->
  ClaimStack (base + i * Config.BOOT_STACK_SIZE) Config.BOOT_STACK_SIZE =
  (base + (i + 1) * Config.BOOT_STACK_SIZE, base + (i + 1) * Config.BOOT_STACK_SIZE).
Proof.
  intros Hb Hi H. assert (HS : Config.BOOT_STACK_SIZE = 16384) by reflexivity.
  rewrite claim_exact; rewrite HS in *; [f_equal; lia|lia|lia].
Qed.

Lemma claims_exact base k : Config.KERNEL_VMA <= base -> forall i,
  base + (Z.of_nat i + Z.of_nat k) * Config.BOOT_STACK_SIZE < 2 ^ 64 ->
  claims k (base + Z.of_nat i * Config.BOOT_STACK_SIZE) =
  (fun i => base + (Z.of_nat i + 1) * Config.BOOT_STACK_SIZE) <$> seq i k.
Proof.
  intros Hb. assert (HS : Config.BOOT_STACK_SIZE = 16384) by reflexivity.
  induction k as [|k IH]; intros i Hi; [done|]. cbn [claims seq].
  rewrite claim_at by (rewrite ?HS in *; lia). rewrite fmap_cons. f_equal.
  rewrite <- IH by (rewrite HS in *; lia). do 2 f_equal. lia.
Qed.

(** Up to [MAX_CORES] cores get slices one behind the other, each inside the array. *)
Theorem boot_stacks_disjoint base n : core_stacks base -> (n <= Z.to_nat Config.MAX_CORES)%nat ->
  claims n base = (fun i => base + (Z.of_nat i + 1) * Config.BOOT_STACK_SIZE) <$> seq 0 n.
Proof.
  intros [H1 H2] Hn. rewrite <- (claims_exact base n H1 0).
  - f_equal. lia.
  - unfold Config.MAX_CORES in *. assert (HS : Config.BOOT_STACK_SIZE = 16384) by reflexivity. rewrite HS in *. lia.
Qed.

(** One core more gets memory behind the array. *)
Theorem ninth_core_leaves_the_array base : Config.KERNEL_VMA <= base -> base + 9 * Config.BOOT_STACK_SIZE < 2 ^ 64 ->
  last (claims 9 base) = Some (base + (Config.MAX_CORES + 1) * Config.BOOT_STACK_SIZE).
Proof.
  intros H1 H9. replace base with (base + Z.of_nat 0 * Config.BOOT_STACK_SIZE) at 1 by lia.
  by rewrite claims_exact.
Qed.

End LongMode.
