(* ===== verification/Startup.v ===== *)
(** * Boot/Startup.cpp, Main.cpp and Compiler/Libc.cpp: from the first instruction to the scheduler

    Every processor is a list of calls still to make; the state they share holds the variables
    through which start-up is ordered: the bootstrap flag, the kernel's page table root, the boot
    stack pointer, the core table.  Steps of different processors interleave freely.  Calls are
    logged in the order they happen; what each of them does is modelled with its component.
    [Schedule] does not come back, so the way down at the end of [KernelInit] is not reached. *)

From S2P Require Import Prelude Mem Config Device Acpi Apic Cores TopologySpec Paging PagingSpec LongMode.

(** ** Global constructors *)

Module Csu.
(** [for (entry = start; entry != end; entry++) ( *entry)();]: the functions called, in order. *)
Fixpoint Forward (fuel : nat) (m : mem) (entry end_ : Z) : outcome (list Z) :=
  match fuel with
  | O => Diverges
  | S k => if entry =? end_ then Ok [] else let* rest := Forward k m (entry +64 8) end_ in Ok (load64 m entry :: rest)
  end.
Fixpoint Backward (fuel : nat) (m : mem) (entry start : Z) : outcome (list Z) :=
  match fuel with
  | O => Diverges
  | S k => if entry =? start then Ok []
           else let entry := entry -64 8 in let* rest := Backward k m entry start in Ok (load64 m entry :: rest)
  end.

Record arrays := {
  preinit_start : Z; preinit_end : Z; init_start : Z; init_end : Z; fini_start : Z; fini_end : Z }.

Definition rounds (start end_ : Z) : nat := S (Z.to_nat ((end_ - start) / 8)).
Definition RunInitializers (a : arrays) (m : mem) : outcome (list Z) :=
  let* first := Forward (rounds (preinit_start a) (preinit_end a)) m (preinit_start a) (preinit_end a) in
  let* second := Forward (rounds (init_start a) (init_end a)) m (init_start a) (init_end a) in
  Ok (first ++ second).
Definition RunFinalizers (a : arrays) (m : mem) : outcome (list Z) :=
  Backward (rounds (fini_start a) (fini_end a)) m (fini_end a) (fini_start a).

(** The pointers of an array. *)
Definition pointers (m : mem) (start : Z) (n : nat) : list Z := (fun i => load64 m (start + 8 * Z.of_nat i)) <$> seq 0 n.

Lemma Forward_S k m entry end_ : Forward (S k) m entry end_ =
  if entry =? end_ then Ok [] else let* rest := Forward k m (entry +64 8) end_ in Ok (load64 m entry :: rest).
Proof. reflexivity. Qed.
Lemma Backward_S k m entry start : Backward (S k) m entry start =
  if entry =? start then Ok []
  else let* rest := Backward k m (entry -64 8) start in Ok (load64 m (entry -64 8) :: rest).
Proof. reflexivity. Qed.

Lemma forward_calls m n : forall start, 0 <= start -> start + 8 * Z.of_nat n < 2 ^ 64 ->
  Forward (S n) m start (start + 8 * Z.of_nat n) = Ok (pointers m start n).
Proof.
  induction n as [|n IH]; intros start H0 H1; rewrite Forward_S.
  - rewrite Z.mul_0_r, Z.add_0_r, Z.eqb_refl. done.
  - rewrite (proj2 (Z.eqb_neq _ _)) by lia. rewrite wrap_small by (unfold is_word; lia).
    replace (start + 8 * Z.of_nat (S n)) with (start + 8 + 8 * Z.of_nat n) by lia. rewrite IH by lia. cbn [obind].
    unfold pointers. cbn [seq]. rewrite fmap_cons, <- fmap_S_seq, <- list_fmap_compose. f_equal. f_equal; [f_equal; lia|].
    apply list_fmap_ext. intros i x _. simpl. f_equal. lia.
Qed.

Lemma backward_calls m n : forall start, 0 <= start -> start + 8 * Z.of_nat n < 2 ^ 64 ->
  Backward (S n) m (start + 8 * Z.of_nat n) start = Ok (rev (pointers m start n)).
Proof.
  induction n as [|n IH]; intros start H0 H1; rewrite Backward_S.
  - rewrite Z.mul_0_r, Z.add_0_r, Z.eqb_refl. done.
  - rewrite (proj2 (Z.eqb_neq _ _)) by lia. rewrite wrap_small by (unfold is_word; lia).
    replace (start + 8 * Z.of_nat (S n) - 8) with (start + 8 * Z.of_nat n) by lia. rewrite IH by lia. cbn [obind].
    unfold pointers. rewrite seq_S, fmap_app, rev_app_distr. done.
Qed.

Record arrays_ok (a : arrays) (p i f : nat) : Prop := {
  ao_pre : preinit_end a = preinit_start a + 8 * Z.of_nat p /\ 0 <= preinit_start a /\ preinit_end a < 2 ^ 64;
  ao_init : init_end a = init_start a + 8 * Z.of_nat i /\ 0 <= init_start a /\ init_end a < 2 ^ 64;
  ao_fini : fini_end a = fini_start a + 8 * Z.of_nat f /\ 0 <= fini_start a /\ fini_end a < 2 ^ 64 }.

Lemma rounds_eq start n : rounds start (start + 8 * Z.of_nat n) = S n.
Proof. unfold rounds. f_equal. replace (start + 8 * Z.of_nat n - start) with (Z.of_nat n * 8) by lia. rewrite Z.div_mul; lia. Qed.

(** Every constructor is called once, those of [.preinit_array] first, in the linker's order; the
    destructors in the opposite order. *)
Theorem constructors_run_in_order a m p i f : arrays_ok a p i f ->
  RunInitializers a m = Ok (pointers m (preinit_start a) p ++ pointers m (init_start a) i) /\
  RunFinalizers a m = Ok (rev (pointers m (fini_start a) f)).
Proof.
  intros [(E1 & H1 & G1) (E2 & H2 & G2) (E3 & H3 & G3)]. unfold RunInitializers, RunFinalizers.
  rewrite E1, E2, E3 in *. rewrite !rounds_eq, !forward_calls, backward_calls by lia. done.
Qed.
End Csu.

(** ** KernelInit, Main and MainAp on every processor *)

Module Startup.

Inductive call :=
(* Boot/Entry.asm, Boot/LongMode.asm *)
| ClaimBootStack | EnterLongMode
(* KernelInit *)
| GdtLoad | TestBootstrap | ClearBootstrap | RunInitializers | MultibootInitialize | InstallHandlers
| PicInitialize | AcpiInitialize | ApicInitialize | CpuInitialize | IdtLoad
(* Main *)
| RegisterDebugStreams | FrameInitialize | PagingInitialize | HeapInitialize | Dumps | IoApicInitialize
| Ps2Initialize | TimerSetup | ReadyThreads | SmpBootBoot
(* MainAp *)
| TimerActivate | GuardEnter | EnableInterrupts | Schedule.
#[export] Instance call_eq_dec : EqDecision call.
Proof. solve_decision. Defined.

(** What comes before the bootstrap flag is read. *)
Definition prelude : list call := [ClaimBootStack; EnterLongMode; GdtLoad].
Definition Main : list call :=
  [RegisterDebugStreams; FrameInitialize; PagingInitialize; HeapInitialize; Dumps; IoApicInitialize; Ps2Initialize;
   TimerSetup; ReadyThreads; SmpBootBoot].
Definition MainAp : list call := [TimerActivate; GuardEnter; EnableInterrupts; Schedule].
(** The two branches of [KernelInit]. *)
Definition BootstrapPath : list call :=
  [ClearBootstrap; RunInitializers; MultibootInitialize; InstallHandlers; PicInitialize; AcpiInitialize; ApicInitialize;
   CpuInitialize] ++ Main ++ MainAp.
Definition ApplicationPath : list call := [IdtLoad; CpuInitialize] ++ MainAp.

Record core := { rsp : Z; cr3 : Z; todo : list call }.
Definition Reset : core := {| rsp := 0; cr3 := 0; todo := prelude ++ [TestBootstrap] |}.

Record t := {
  s_IsBootstrapProcessor : bool;
  KernelPageTableRoot : Z;
  CoreStackPointer : Z;
  cpu : Cpu.t;
  cores : Z -> option core;                      (* by local APIC id *)
  log : list (Z * call) }.                       (* newest last *)

Section Machine.
(** The machine: the bootstrap processor, the other processors on the bus, the boot tables and the
    kernel's root, what ACPI and MADT answered. *)
Context (boot : Z) (others : list Z) (boot_root kernel_root : Z) (apic : Apic.t) (acpi_found apic_found : bool).

Definition update (s : t) (c : Z) (k : core) : t :=
  {| s_IsBootstrapProcessor := s_IsBootstrapProcessor s; KernelPageTableRoot := KernelPageTableRoot s;
     CoreStackPointer := CoreStackPointer s; cpu := cpu s; cores := upd (cores s) c (Some k); log := log s |}.

(** The effect of a call on the shared variables and on its processor; [k] already has the call
    behind it. *)
Definition perform (x : call) (c : Z) (k : core) (s : t) : t :=
  match x with
  | ClaimBootStack =>
      let '(sp, pointer) := LongMode.ClaimStack (CoreStackPointer s) Config.BOOT_STACK_SIZE in
      update {| s_IsBootstrapProcessor := s_IsBootstrapProcessor s; KernelPageTableRoot := KernelPageTableRoot s;
                CoreStackPointer := pointer; cpu := cpu s; cores := cores s; log := log s |}
             c {| rsp := sp; cr3 := cr3 k; todo := todo k |}
  | EnterLongMode =>
      update s c {| rsp := rsp k; todo := todo k;
                    cr3 := if negb (u32 (KernelPageTableRoot s) =? 0) then u32 (KernelPageTableRoot s) else boot_root |}
  | TestBootstrap =>
      update s c {| rsp := rsp k; cr3 := cr3 k;
                    todo := if s_IsBootstrapProcessor s then BootstrapPath else ApplicationPath |}
  | ClearBootstrap =>
      update {| s_IsBootstrapProcessor := false; KernelPageTableRoot := KernelPageTableRoot s;
                CoreStackPointer := CoreStackPointer s; cpu := cpu s; cores := cores s; log := log s |} c k
  | AcpiInitialize => if acpi_found then update s c k else update s c {| rsp := rsp k; cr3 := cr3 k; todo := [] |}
  | ApicInitialize => if apic_found then update s c k else update s c {| rsp := rsp k; cr3 := cr3 k; todo := [] |}
  | CpuInitialize =>
      update {| s_IsBootstrapProcessor := s_IsBootstrapProcessor s; KernelPageTableRoot := KernelPageTableRoot s;
                CoreStackPointer := CoreStackPointer s; cpu := Cpu.Initialize apic c (cpu s); cores := cores s;
                log := log s |} c k
  | PagingInitialize =>
      update {| s_IsBootstrapProcessor := s_IsBootstrapProcessor s; KernelPageTableRoot := kernel_root;
                CoreStackPointer := CoreStackPointer s; cpu := cpu s; cores := cores s; log := log s |}
             c {| rsp := rsp k; cr3 := kernel_root; todo := todo k |}
  | SmpBootBoot =>
      let s := update s c k in
      if Cpu.Count (cpu s) <=? 1 then s
      else {| s_IsBootstrapProcessor := s_IsBootstrapProcessor s; KernelPageTableRoot := KernelPageTableRoot s;
              CoreStackPointer := CoreStackPointer s; cpu := cpu s;
              cores := foldr (fun o f => upd f o (Some Reset)) (cores s) others; log := log s |}
  | _ => update s c k
  end.

Definition logged (s : t) (e : Z * call) : t :=
  {| s_IsBootstrapProcessor := s_IsBootstrapProcessor s; KernelPageTableRoot := KernelPageTableRoot s;
     CoreStackPointer := CoreStackPointer s; cpu := cpu s; cores := cores s; log := log s ++ [e] |}.

(** The next call of processor [c]. *)
Definition step (c : Z) (s : t) : option t :=
  match cores s c with
  | Some {| rsp := r; cr3 := p; todo := x :: rest |} =>
      Some (logged (perform x c {| rsp := r; cr3 := p; todo := rest |} s) (c, x))
  | _ => None
  end.

Definition Power (base : Z) : t :=
  {| s_IsBootstrapProcessor := true; KernelPageTableRoot := 0; CoreStackPointer := base; cpu := Cpu.Boot;
     cores := fun c => if c =? boot then Some Reset else None; log := [] |}.

Inductive reachable (base : Z) : t -> Prop :=
| reach_power : reachable base (Power base)
| reach_step s c s' : reachable base s -> step c s = Some s' -> reachable base s'.

(** ** The order *)

Definition calls_of (c : Z) (l : list (Z * call)) : list call := (filter (fun e => e.1 = c) l).*2.
Definition program (c : Z) : list call :=
  prelude ++ TestBootstrap :: (if c =? boot then BootstrapPath else ApplicationPath).

Lemma calls_of_snoc c l e : calls_of c (l ++ [e]) = calls_of c l ++ (if bool_decide (e.1 = c) then [e.2] else []).
Proof. unfold calls_of. rewrite filter_app, fmap_app. f_equal. rewrite filter_cons. by repeat case_decide; case_bool_decide. Qed.

Lemma elem_calls_of c l x : x ∈ calls_of c l <-> (c, x) ∈ l.
Proof.
  unfold calls_of. rewrite list_elem_of_fmap. split.
  - intros ([c' y] & -> & H). apply list_elem_of_filter in H as [H1 H2]. simpl in H1. by subst.
  - intros H. exists (c, x). split; [done|]. by apply list_elem_of_filter.
Qed.

Lemma program_nodup c : NoDup (program c).
Proof. unfold program. destruct (c =? boot); refine (bool_decide_eq_true_1 _ _); reflexivity. Qed.

(** In a list without repetitions an element has one place. *)
Lemma nodup_place {A} (x : A) l1 l2 a b : NoDup (a ++ x :: b) -> (l1 ++ x :: l2) `prefix_of` (a ++ x :: b) -> l1 = a.
Proof.
  intros Hn [k E]. rewrite <- app_assoc in E. simpl in E. revert a E Hn. induction l1 as [|y l1 IH]; intros [|z a] E Hn; simpl in *.
  - done.
  - injection E as <- E. apply NoDup_cons in Hn as [Hx _]. exfalso. apply Hx. set_solver.
  - injection E as <- E. apply NoDup_cons in Hn as [Hx _]. exfalso. apply Hx. rewrite E. set_solver.
  - injection E as <- E. apply NoDup_cons in Hn as [_ Hn]. f_equal. by apply IH.
Qed.

(** The bootstrap processor up to the start of the others. *)
Definition before_others : list call :=
  prelude ++ TestBootstrap ::
  [ClearBootstrap; RunInitializers; MultibootInitialize; InstallHandlers; PicInitialize; AcpiInitialize; ApicInitialize;
   CpuInitialize; RegisterDebugStreams; FrameInitialize; PagingInitialize; HeapInitialize; Dumps; IoApicInitialize;
   Ps2Initialize; TimerSetup; ReadyThreads].

Lemma program_boot : program boot = before_others ++ SmpBootBoot :: MainAp.
Proof. unfold program. by rewrite Z.eqb_refl. Qed.
Lemma program_other c : c <> boot -> program c = prelude ++ TestBootstrap :: ApplicationPath.
Proof. intros H. unfold program. by rewrite (proj2 (Z.eqb_neq _ _) H). Qed.

Record wf (s : t) : Prop := {
  w_program c k : cores s c = Some k -> (calls_of c (log s) ++ todo k) `prefix_of` program c;
  w_silent c : cores s c = None -> calls_of c (log s) = [];
  w_boot : is_Some (cores s boot);
  w_others c k : cores s c = Some k -> c <> boot -> (boot, SmpBootBoot) ∈ log s;
  w_flag : s_IsBootstrapProcessor s = bool_decide ((boot, ClearBootstrap) ∉ log s);
  w_root : KernelPageTableRoot s = if bool_decide ((boot, PagingInitialize) ∈ log s) then kernel_root else 0;
  w_tables c k : cores s c = Some k -> c <> boot -> (c, EnterLongMode) ∈ log s -> cr3 k = kernel_root;
  w_order l1 c x l2 : log s = l1 ++ (c, x) :: l2 -> c <> boot -> (boot, SmpBootBoot) ∈ l1 }.

Lemma calls_prefix s c : wf s -> calls_of c (log s) `prefix_of` program c.
Proof.
  intros W. destruct (cores s c) as [k|] eqn:E.
  - etransitivity; [|by apply (w_program s W c k)]. by apply prefix_app_r.
  - rewrite (w_silent s W c E). apply prefix_nil.
Qed.

(** Once the others are started, everything before is done. *)
Lemma others_started s x : wf s -> (boot, SmpBootBoot) ∈ log s -> x ∈ before_others -> (boot, x) ∈ log s.
Proof.
  intros W H Hx. apply elem_calls_of in H. pose proof (calls_prefix s boot W) as P.
  apply list_elem_of_split in H as (l1 & l2 & E). rewrite E, program_boot in P.
  apply nodup_place in P; [|rewrite <- program_boot; apply program_nodup].
  apply elem_calls_of. rewrite E, P. set_solver.
Qed.

Lemma next_call s c k x rest : wf s -> cores s c = Some k -> todo k = x :: rest ->
  (c, x) ∉ log s /\ forall a b, program c = a ++ x :: b -> calls_of c (log s) = a.
Proof.
  intros W Ek Et. pose proof (w_program s W c k Ek) as P. rewrite Et in P. pose proof (program_nodup c) as Hn. split.
  - rewrite <- elem_calls_of. intros H. destruct P as [k' P]. rewrite P in Hn. rewrite <- app_assoc in Hn.
    apply NoDup_app in Hn as (_ & Hd & _). apply (Hd x H). set_solver.
  - intros a b E. rewrite E in P, Hn. by apply nodup_place in P.
Qed.

(** A step that touches its own processor only. *)
Lemma own_step s s' c k x rest k' : wf s -> cores s c = Some k -> todo k = x :: rest ->
  cores s' = upd (cores s) c (Some k') -> log s' = log s ++ [(c, x)] ->
  (calls_of c (log s) ++ x :: todo k') `prefix_of` program c ->
  s_IsBootstrapProcessor s' = (if bool_decide (x = ClearBootstrap) then false else s_IsBootstrapProcessor s) ->
  KernelPageTableRoot s' = (if bool_decide (x = PagingInitialize) then kernel_root else KernelPageTableRoot s) ->
  (c <> boot -> cr3 k' = if bool_decide (x = EnterLongMode) then kernel_root else cr3 k) ->
  wf s'.
Proof.
  intros W Ek Et Ec El HP HF HR HT. destruct (next_call s c k x rest W Ek Et) as [Hfresh _].
  assert (Hx : c <> boot -> x ∈ prelude ++ TestBootstrap :: ApplicationPath).
  { intros Hc. rewrite <- (program_other c Hc). destruct HP as [l ->]. set_solver. }
  assert (Hlog : forall e, e ∈ log s -> e ∈ log s') by (intros e He; rewrite El; set_solver).
  split.
  - intros c' k0. rewrite Ec, El, calls_of_snoc. simpl. destruct (decide (c' = c)) as [->|Hn].
    + rewrite upd_eq, bool_decide_true by done. intros [= <-]. by rewrite <- app_assoc.
    + rewrite upd_ne, bool_decide_false, app_nil_r by done. apply (w_program s W).
  - intros c'. rewrite Ec, El, calls_of_snoc. simpl. destruct (decide (c' = c)) as [->|Hn]; [by rewrite upd_eq|].
    rewrite upd_ne, bool_decide_false, app_nil_r by done. apply (w_silent s W).
  - rewrite Ec. destruct (decide (boot = c)) as [<-|]; [by rewrite upd_eq|]. rewrite upd_ne by done. apply (w_boot s W).
  - intros c' k0. rewrite Ec. intros E Hc. apply Hlog. destruct (decide (c' = c)) as [->|Hn].
    + by apply (w_others s W c k).
    + rewrite upd_ne in E by done. by apply (w_others s W c' k0).
  - rewrite HF, (w_flag s W), El. clear HF HR HT. destruct (bool_decide_reflect (x = ClearBootstrap)) as [Ex|Ex].
    + subst x. symmetry. apply bool_decide_eq_false_2. intros H. apply H. destruct (decide (c = boot)) as [->|Hc]; [set_solver|].
      exfalso. specialize (Hx Hc). revert Hx. by refine (bool_decide_eq_true_1 _ _).
    + apply bool_decide_ext. set_solver.
  - rewrite HR, (w_root s W), El. clear HF HR HT. destruct (bool_decide_reflect (x = PagingInitialize)) as [Ex|Ex].
    + subst x. destruct (decide (c = boot)) as [->|Hc]; [by rewrite bool_decide_true by set_solver|].
      exfalso. specialize (Hx Hc). revert Hx. by refine (bool_decide_eq_true_1 _ _).
    + rewrite (bool_decide_ext ((boot, PagingInitialize) ∈ log s ++ [(c, x)]) ((boot, PagingInitialize) ∈ log s)); [done|set_solver].
  - intros c' k0. rewrite Ec, El. intros E Hc H. destruct (decide (c' = c)) as [->|Hn].
    + rewrite upd_eq in E. injection E as <-. rewrite HT by done. destruct (bool_decide_reflect (x = EnterLongMode)); [done|].
      apply (w_tables s W c k); [done..|set_solver].
    + rewrite upd_ne in E by done. apply (w_tables s W c' k0); [done..|set_solver].
  - intros l1 c' y l2 E Hc. rewrite El in E. destruct (decide (l2 = [])) as [->|Hl2].
    + apply app_inj_tail in E as [<- [= <- <-]]. by apply (w_others s W c k).
    + apply exists_last in Hl2 as (l2' & e & ->). rewrite app_comm_cons, app_assoc in E.
      apply app_inj_tail in E as [E _]. by apply (w_order s W l1 c' y l2').
Qed.

(** The other processors come out of reset. *)
Lemma released_other s c : c ∉ others ->
  foldr (fun o f => upd f o (Some Reset)) (cores s) others c = cores s c.
Proof. induction others as [|o l IH]; [done|]. intros H. apply not_elem_of_cons in H as [??]. simpl. rewrite upd_ne by done. by apply IH. Qed.
Lemma released_self s c : c ∈ others -> foldr (fun o f => upd f o (Some Reset)) (cores s) others c = Some Reset.
Proof.
  induction others as [|o l IH]; intros H; [by apply elem_of_nil in H|]. simpl. destruct (decide (c = o)) as [->|]; [by rewrite upd_eq|].
  rewrite upd_ne by done. apply IH. set_solver.
Qed.

Lemma release_wf s s' : wf s -> boot ∉ others -> (forall c, c <> boot -> cores s c = None) -> (boot, SmpBootBoot) ∈ log s ->
  cores s' = foldr (fun o f => upd f o (Some Reset)) (cores s) others -> log s' = log s ->
  s_IsBootstrapProcessor s' = s_IsBootstrapProcessor s -> KernelPageTableRoot s' = KernelPageTableRoot s -> wf s'.
Proof.
  intros W Hb Hnone Hlog Ec El Ef Er.
  assert (Hs : forall c, c ∈ others -> calls_of c (log s) = []).
  { intros c Hc. apply (w_silent s W), Hnone. by intros ->. }
  split; rewrite ?El, ?Ef, ?Er.
  - intros c k. rewrite Ec. destruct (decide (c ∈ others)) as [Hc|Hc].
    + rewrite released_self by done. intros [= <-]. rewrite Hs by done. rewrite program_other by (by intros ->).
      simpl. eexists. reflexivity.
    + rewrite released_other by done. apply (w_program s W).
  - intros c. rewrite Ec. destruct (decide (c ∈ others)) as [Hc|Hc]; [by rewrite released_self|].
    rewrite released_other by done. apply (w_silent s W).
  - rewrite Ec, released_other by done. apply (w_boot s W).
  - done.
  - apply (w_flag s W).
  - apply (w_root s W).
  - intros c k. rewrite Ec. destruct (decide (c ∈ others)) as [Hc|Hc].
    + intros _ _ H. apply elem_calls_of in H. rewrite Hs in H by done. by apply elem_of_nil in H.
    + rewrite released_other by done. apply (w_tables s W).
  - apply (w_order s W).
Qed.

Hypothesis root_word : is_word 32 kernel_root /\ kernel_root <> 0.
Hypothesis boot_alone : boot ∉ others.

Lemma only_boot s c k x rest : wf s -> cores s c = Some k -> todo k = x :: rest ->
  x ∉ prelude ++ TestBootstrap :: ApplicationPath -> c = boot.
Proof.
  intros W Ek Et Hx. destruct (decide (c = boot)) as [|Hc]; [done|]. exfalso. apply Hx. rewrite <- (program_other c Hc).
  destruct (w_program s W c k Ek) as [l ->]. rewrite Et. set_solver.
Qed.

(** The branch a processor takes. *)
Lemma branch_right s c k rest : wf s -> cores s c = Some k -> todo k = TestBootstrap :: rest ->
  program c = calls_of c (log s) ++ TestBootstrap :: (if s_IsBootstrapProcessor s then BootstrapPath else ApplicationPath).
Proof.
  intros W Ek Et. destruct (next_call s c k _ rest W Ek Et) as [_ Hp].
  rewrite (Hp prelude (if c =? boot then BootstrapPath else ApplicationPath) eq_refl).
  unfold program. do 2 f_equal. rewrite (w_flag s W). destruct (Z.eqb_spec c boot) as [->|Hc].
  - rewrite bool_decide_true; [done|]. rewrite <- elem_calls_of, (Hp prelude BootstrapPath).
    + by refine (bool_decide_eq_true_1 _ _).
    + unfold program. by rewrite Z.eqb_refl.
  - rewrite bool_decide_false; [done|]. intros H. apply H. apply others_started; [done|by apply (w_others s W c k)|].
    by refine (bool_decide_eq_true_1 _ _).
Qed.

Lemma startup_step_wf s c s' : wf s -> step c s = Some s' -> wf s'.
Proof.
  intros W Hs. unfold step in Hs. destruct (cores s c) as [[r p td]|] eqn:Ek; [|done]. destruct td as [|x rest]; [done|].
  injection Hs as <-. set (k := {| rsp := r; cr3 := p; todo := x :: rest |}) in *.
  assert (Et : todo k = x :: rest) by done.
  pose proof (w_program s W c k Ek) as P. rewrite Et in P.
  assert (P0 : (calls_of c (log s) ++ [x]) `prefix_of` program c).
  { etransitivity; [|exact P]. exists rest. by rewrite <- app_assoc. }
  destruct x; cbn [perform];
    try (by apply (own_step s _ c k _ rest {| rsp := r; cr3 := p; todo := rest |} W Ek Et)).
  - destruct (LongMode.ClaimStack _ _) as [sp q].
    by apply (own_step s _ c k _ rest {| rsp := sp; cr3 := p; todo := rest |} W Ek Et).
  - apply (own_step s _ c k _ rest {| rsp := r; todo := rest;
      cr3 := if negb (u32 (KernelPageTableRoot s) =? 0) then u32 (KernelPageTableRoot s) else boot_root |} W Ek Et); try done.
    intros Hc. simpl cr3.
    rewrite (w_root s W), bool_decide_true; [|apply others_started; [done|by apply (w_others s W c k)|by refine (bool_decide_eq_true_1 _ _)]].
    rewrite wrap_small by apply root_word. rewrite (proj2 (Z.eqb_neq _ _)) by apply root_word. done.
  - apply (own_step s _ c k _ rest {| rsp := r; cr3 := p;
      todo := if s_IsBootstrapProcessor s then BootstrapPath else ApplicationPath |} W Ek Et); try done. simpl todo.
    by rewrite <- (branch_right s c k rest).
  - destruct acpi_found; [by apply (own_step s _ c k _ rest {| rsp := r; cr3 := p; todo := rest |} W Ek Et)|].
    by apply (own_step s _ c k _ rest {| rsp := r; cr3 := p; todo := [] |} W Ek Et).
  - destruct apic_found; [by apply (own_step s _ c k _ rest {| rsp := r; cr3 := p; todo := rest |} W Ek Et)|].
    by apply (own_step s _ c k _ rest {| rsp := r; cr3 := p; todo := [] |} W Ek Et).
  - apply (own_step s _ c k _ rest {| rsp := r; cr3 := kernel_root; todo := rest |} W Ek Et); try done. intros Hc. exfalso. apply Hc.
    apply (only_boot s c k _ rest W Ek Et). by refine (bool_decide_eq_true_1 _ _).
  - assert (c = boot) as -> by (apply (only_boot s c k _ rest W Ek Et); by refine (bool_decide_eq_true_1 _ _)).
    assert (W1 : wf (logged (update s boot {| rsp := r; cr3 := p; todo := rest |}) (boot, SmpBootBoot)))
      by (by apply (own_step s _ boot k _ rest {| rsp := r; cr3 := p; todo := rest |} W Ek Et)).
    destruct (next_call s boot k _ rest W Ek Et) as [Hfresh _].
    case_match; [done|]. apply (release_wf _ _ W1 boot_alone); try done.
    + intros c' Hc'. simpl. rewrite upd_ne by done. destruct (cores s c') as [k'|] eqn:E'; [|done].
      by destruct (Hfresh (w_others s W c' k' E' Hc')).
    + simpl. set_solver.
Qed.

Lemma power_wf base : wf (Power base).
Proof.
  split; simpl; try done.
  - intros c k. destruct (Z.eqb_spec c boot) as [->|]; [|done]. intros [= <-]. rewrite program_boot. simpl. by eexists.
  - rewrite Z.eqb_refl. by eexists.
  - intros c k. by destruct (Z.eqb_spec c boot).
  - intros c k E Hc H. by apply elem_of_nil in H.
  - intros l1 c x l2 E. by destruct l1.
Qed.

Lemma reachable_started base s : reachable base s -> wf s.
Proof. induction 1 as [|s c s' _ IH Hs]; [apply power_wf|by apply (startup_step_wf s c)]. Qed.

(** *** Boot stacks *)

Definition claimers (l : list (Z * call)) : list Z := (filter (fun e => e.2 = ClaimBootStack) l).*1.

Lemma claimers_snoc l e : claimers (l ++ [e]) = claimers l ++ (if bool_decide (e.2 = ClaimBootStack) then [e.1] else []).
Proof. unfold claimers. rewrite filter_app, fmap_app. f_equal. rewrite filter_cons. by repeat case_decide; case_bool_decide. Qed.

Lemma elem_claimers l c : c ∈ claimers l <-> (c, ClaimBootStack) ∈ l.
Proof.
  unfold claimers. rewrite list_elem_of_fmap. split.
  - intros ([c' y] & -> & H). apply list_elem_of_filter in H as [H1 H2]. simpl in *. by subst.
  - intros H. exists (c, ClaimBootStack). split; [done|]. by apply list_elem_of_filter.
Qed.

Record stacks_ok (base : Z) (s : t) : Prop := {
  st_nodup : NoDup (claimers (log s));
  st_member c k : cores s c = Some k -> c ∈ boot :: others;
  st_known c : c ∈ claimers (log s) -> is_Some (cores s c);
  st_pointer : CoreStackPointer s = base + Z.of_nat (length (claimers (log s))) * Config.BOOT_STACK_SIZE;
  st_rsp c k i : cores s c = Some k -> claimers (log s) !! i = Some c ->
    rsp k = base + (Z.of_nat i + 1) * Config.BOOT_STACK_SIZE }.

(** Calls that have nothing to do with stacks. *)
Lemma perform_other x c k s : x <> ClaimBootStack -> x <> SmpBootBoot ->
  let s' := perform x c k s in
  exists k', cores s' = upd (cores s) c (Some k') /\ rsp k' = rsp k /\ CoreStackPointer s' = CoreStackPointer s /\ log s' = log s.
Proof.
  intros H1 H2. destruct x; try done; cbn [perform]; repeat case_match; eexists; split_and!; reflexivity.
Qed.

Lemma own_stack base s s' c k k' x : stacks_ok base s -> cores s c = Some k -> (c, x) ∉ log s ->
  cores s' = upd (cores s) c (Some k') -> log s' = log s ++ [(c, x)] ->
  (if bool_decide (x = ClaimBootStack)
   then CoreStackPointer s' = CoreStackPointer s + Config.BOOT_STACK_SIZE /\ rsp k' = CoreStackPointer s'
   else CoreStackPointer s' = CoreStackPointer s /\ rsp k' = rsp k) ->
  stacks_ok base s'.
Proof.
  intros [S1 S2 S3 S4 S5] Ek Hfresh Ec El Hx.
  assert (Hm : c ∈ boot :: others) by (by apply (S2 c k)).
  assert (Hk : forall c' k0, cores s' c' = Some k0 -> c' ∈ boot :: others).
  { intros c' k0. rewrite Ec. destruct (decide (c' = c)) as [->|]; [done|]. rewrite upd_ne by done. apply S2. }
  assert (Hsome : forall c', is_Some (cores s c') -> is_Some (cores s' c')).
  { intros c' H. rewrite Ec. destruct (decide (c' = c)) as [->|]; [by rewrite upd_eq|by rewrite upd_ne]. }
  destruct (bool_decide_reflect (x = ClaimBootStack)) as [->|Hn].
  - destruct Hx as [X1 X2]. assert (Hc : c ∉ claimers (log s)) by (by rewrite elem_claimers).
    split; rewrite ?El, ?claimers_snoc; simpl; rewrite ?bool_decide_true by done; [|done|..].
    + apply NoDup_app. split_and!; [done| |apply NoDup_singleton]. intros y Hy ->%list_elem_of_singleton. done.
    + intros c' [H| ->%list_elem_of_singleton]%elem_of_app; [by apply Hsome, S3|]. rewrite Ec, upd_eq. by eexists.
    + rewrite length_app. simpl. lia.
    + intros c' k0 i E Hi. apply lookup_app_Some in Hi as [Hi|[Hi1 Hi2]].
      * assert (c' <> c) by (intros ->; apply Hc; by apply list_elem_of_lookup_2 with i).
        rewrite Ec, upd_ne in E by done. by apply (S5 c').
      * apply list_lookup_singleton_Some in Hi2 as [Hi2 <-]. rewrite Ec, upd_eq in E. injection E as <-.
        assert (i = length (claimers (log s))) as -> by lia. rewrite X2, X1, S4. lia.
  - destruct Hx as [X1 X2]. split; rewrite ?El, ?claimers_snoc; simpl; rewrite ?bool_decide_false by done; rewrite ?app_nil_r; try done.
    + intros c' H. by apply Hsome, S3.
    + by rewrite X1.
    + intros c' k0 i E Hi. rewrite Ec in E. destruct (decide (c' = c)) as [->|].
      * rewrite upd_eq in E. injection E as <-. rewrite X2. by apply (S5 c).
      * rewrite upd_ne in E by done. by apply (S5 c').
Qed.

Lemma claimers_bound base s c : stacks_ok base s -> is_Some (cores s c) -> c ∉ claimers (log s) ->
  (length (claimers (log s)) < S (length others))%nat.
Proof.
  intros [S1 S2 S3 _ _] [k Hk] Hc.
  assert (Hsub : claimers (log s) ++ [c] ⊆+ boot :: others).
  { apply NoDup_submseteq.
    - apply NoDup_app. split_and!; [done| |apply NoDup_singleton]. intros y Hy ->%list_elem_of_singleton. done.
    - intros y [Hy| ->%list_elem_of_singleton]%elem_of_app; [destruct (S3 y Hy) as [k' Hk']; by apply (S2 y k')|by apply (S2 c k)]. }
  apply submseteq_length in Hsub. rewrite length_app in Hsub. simpl in Hsub. lia.
Qed.

Lemma release_stacks base s s' : stacks_ok base s -> (forall c, c ∈ others -> c ∉ claimers (log s)) ->
  cores s' = foldr (fun o f => upd f o (Some Reset)) (cores s) others -> log s' = log s ->
  CoreStackPointer s' = CoreStackPointer s -> stacks_ok base s'.
Proof.
  intros [S1 S2 S3 S4 S5] Hno Ec El Ep. split; rewrite ?El, ?Ep; try done.
  - intros c k. rewrite Ec. destruct (decide (c ∈ others)); [set_solver|]. rewrite released_other by done. apply S2.
  - intros c Hc. rewrite Ec, released_other; [by apply S3|]. intros H. by apply (Hno c).
  - intros c k i E Hi. rewrite Ec, released_other in E; [by apply (S5 c)|].
    intros H. apply (Hno c H). by apply list_elem_of_lookup_2 with i.
Qed.

Lemma step_stacks base s c s' : LongMode.core_stacks base -> (length others < Z.to_nat Config.MAX_CORES)%nat ->
  wf s -> stacks_ok base s -> step c s = Some s' -> stacks_ok base s'.
Proof.
  intros Hb Hn W S Hs. unfold step in Hs. destruct (cores s c) as [[r p td]|] eqn:Ek; [|done]. destruct td as [|x rest]; [done|].
  injection Hs as <-. set (k := {| rsp := r; cr3 := p; todo := x :: rest |}) in *.
  destruct (next_call s c k x rest W Ek eq_refl) as [Hfresh _].
  destruct (decide (x = ClaimBootStack)) as [->|N1]; [|destruct (decide (x = SmpBootBoot)) as [->|N2]].
  - assert (Hlen : (length (claimers (log s)) < Z.to_nat Config.MAX_CORES)%nat).
    { pose proof (claimers_bound base s c S ltac:(by rewrite Ek) ltac:(by rewrite elem_claimers)). lia. }
    destruct Hb as [B1 B2]. cbn [perform]. rewrite (st_pointer _ _ S), LongMode.claim_at; [|done|lia|].
    + apply (own_stack base s _ c k {| rsp := base + (Z.of_nat (length (claimers (log s))) + 1) * Config.BOOT_STACK_SIZE;
        cr3 := p; todo := rest |} ClaimBootStack); try done. simpl. rewrite (st_pointer _ _ S). lia.
    + assert (HS : Config.BOOT_STACK_SIZE = 16384) by reflexivity. rewrite HS in *. unfold Config.MAX_CORES in *. lia.
  - assert (c = boot) as -> by (apply (only_boot s c k _ rest W Ek eq_refl); by refine (bool_decide_eq_true_1 _ _)).
    assert (S1 : stacks_ok base (logged (update s boot {| rsp := r; cr3 := p; todo := rest |}) (boot, SmpBootBoot)))
      by (by apply (own_stack base s _ boot k {| rsp := r; cr3 := p; todo := rest |} SmpBootBoot)).
    cbn [perform]. destruct (Cpu.Count _ <=? 1); [done|]. apply (release_stacks base _ _ S1); try done.
    intros c Hc. rewrite elem_claimers. simpl. intros [H|H]%elem_of_app; [|set_solver].
    apply elem_calls_of in H. rewrite (w_silent s W c) in H; [by apply elem_of_nil in H|].
    destruct (cores s c) as [k'|] eqn:E'; [|done]. destruct (Hfresh (w_others s W c k' E' ltac:(intros ->; done))).
  - destruct (perform_other x c {| rsp := r; cr3 := p; todo := rest |} s N1 N2) as (k' & E1 & E2 & E3 & E4).
    apply (own_stack base s _ c k k' x); [done..| | |].
    + simpl. by rewrite E1.
    + simpl. by rewrite E4.
    + rewrite bool_decide_false by done. simpl. by rewrite E3, E2.
Qed.

(** As long as there are no more processors than [MAX_CORES], each runs on a slice of the boot
    stacks of its own. *)
Theorem boot_stacks_private base s : LongMode.core_stacks base -> (length others < Z.to_nat Config.MAX_CORES)%nat ->
  reachable base s ->
  forall c k, cores s c = Some k -> (c, ClaimBootStack) ∈ log s ->
  (exists i, 0 <= i < Config.MAX_CORES /\ rsp k = base + (i + 1) * Config.BOOT_STACK_SIZE) /\
  (forall c' k', cores s c' = Some k' -> (c', ClaimBootStack) ∈ log s -> rsp k' = rsp k -> c' = c).
Proof.
  intros Hb Hn HR.
  assert (S : stacks_ok base s).
  { induction HR as [|s c s' HR IH Hs]; [|by apply (step_stacks base s c s'); [..|apply (reachable_started base)| |]].
    split; simpl; try done; [constructor|..].
    - intros c k. destruct (Z.eqb_spec c boot) as [->|]; [set_solver|done].
    - intros c H. by apply elem_of_nil in H.
    - lia. }
  intros c k Ek Hc. apply elem_claimers, list_elem_of_lookup_1 in Hc as [i Hi].
  pose proof (st_rsp _ _ S c k i Ek Hi) as Er. assert (HS : Config.BOOT_STACK_SIZE = 16384) by reflexivity. split.
  - exists (Z.of_nat i). split; [|done]. apply lookup_lt_Some in Hi. unfold Config.MAX_CORES in *.
    assert (Hsub : claimers (log s) ⊆+ boot :: others).
    { apply NoDup_submseteq; [apply S|]. intros y Hy. destruct (st_known _ _ S y Hy) as [k' Hk']. by apply (st_member _ _ S y k'). }
    apply submseteq_length in Hsub. simpl in Hsub. lia.
  - intros c' k' Ek' Hc' E. apply elem_claimers, list_elem_of_lookup_1 in Hc' as [j Hj].
    pose proof (st_rsp _ _ S c' k' j Ek' Hj) as Er'. rewrite Er, Er', HS in E. assert (j = i) as -> by lia. congruence.
Qed.

(** C22: Start-up is in order however the processors interleave.  The bootstrap processor makes
    exactly the calls of [KernelInit], [Main] and [MainAp] in their order and every other
    processor those of the other branch, each possibly not to the end yet; nobody else takes the
    bootstrap branch, so constructors and tables are set up once; and a call of another
    processor comes after everything up to [SmpBoot::Boot], and runs on the kernel's page
    tables. *)
Theorem startup_in_order base s : reachable base s ->
  calls_of boot (log s) `prefix_of` prelude ++ TestBootstrap :: BootstrapPath /\
  (forall c, c <> boot -> calls_of c (log s) `prefix_of` prelude ++ TestBootstrap :: ApplicationPath) /\
  (forall l1 c x l2, log s = l1 ++ (c, x) :: l2 -> c <> boot ->
     forall y, y ∈ before_others -> (boot, y) ∈ l1) /\
  (forall c k, cores s c = Some k -> c <> boot -> (c, EnterLongMode) ∈ log s -> cr3 k = kernel_root).
Proof.
  intros HR. pose proof (reachable_started base s HR) as W. split_and!.
  - pose proof (calls_prefix s boot W) as P. by rewrite program_boot in P.
  - intros c Hc. rewrite <- (program_other c Hc). by apply calls_prefix.
  - intros l1 c x l2 E Hc y Hy. pose proof (w_order s W l1 c x l2 E Hc) as Hb.
    apply elem_calls_of. apply elem_calls_of in Hb. pose proof (calls_prefix s boot W) as P.
    rewrite E in P. unfold calls_of in P. rewrite filter_app, fmap_app in P. fold (calls_of boot l1) in P.
    apply list_elem_of_split in Hb as (a & b & Eb). rewrite Eb, <- app_assoc, program_boot in P.
    apply (nodup_place SmpBootBoot a (b ++ (filter (fun e => e.1 = boot) ((c, x) :: l2)).*2) before_others MainAp) in P; [|rewrite <- program_boot; apply program_nodup]. rewrite Eb, P. set_solver.
  - apply (w_tables s W).
Qed.

(** Runs by example: the processors that step, in order. *)
Definition play (base : Z) (cs : list Z) : t := foldl (fun s c => default s (step c s)) (Power base) cs.
Lemma startup_play_reachable base cs : reachable base (play base cs).
Proof.
  unfold play. assert (H : forall s, reachable base s -> reachable base (foldl (fun s c => default s (step c s)) s cs)).
  { induction cs as [|c cs IH]; intros s Hs; [done|]. simpl. apply IH. destruct (step c s) as [s'|] eqn:E; [|done].
    by apply (reach_step base s c). }
  apply H. constructor.
Qed.

End Machine.

(** ** Two processors *)

Definition demo_apic (n : nat) : Apic.t :=
  {| Apic.IoApicId := 0; Apic.IoApicAddress := 0xfec00000; Apic.InterruptBase := 0; Apic.s_PinMap := Z.of_nat <$> seq 0 16;
     Apic.s_LocalApicId := (Z.of_nat <$> seq 0 n) ++ replicate (8 - n) Apic.INVALID_ID; Apic.s_LocalApicCount := Z.of_nat n;
     Apic.s_BaseAddress := 0xfee00000 |}.
Definition demo_base : Z := Config.KERNEL_VMA + 0x1200000.
(** The bootstrap processor up to [SmpBoot::Boot], then the two in turn. *)
Definition demo_run : list Z := replicate 22 0 ++ [1; 0; 1; 1; 0; 1; 1; 1; 0; 1; 1; 0; 1; 1; 1].
Definition demo_started : t := play 0 [1] 0x1800000 0x2000000 (demo_apic 2) true true demo_base demo_run.

Lemma startup_in_order_witness :
  calls_of 1 (log demo_started) = prelude ++ TestBootstrap :: ApplicationPath /\
  calls_of 0 (log demo_started) `prefix_of` prelude ++ TestBootstrap :: BootstrapPath /\
  Cpu.CountOnline (cpu demo_started) = 2.
Proof.
  split; [vm_compute; reflexivity|]. split; [|vm_compute; reflexivity].
  apply (startup_in_order 0 [1] 0x1800000 0x2000000 (demo_apic 2) true true ltac:(done) ltac:(set_solver) demo_base).
  apply startup_play_reachable.
Defined.

(** A ninth processor is not in the core table, whose entry for it is the initial 0: it takes the
    bootstrap processor for itself. *)
Theorem unnumbered_core_is_core_zero :
  let table := Cpu.Initialize (demo_apic 8) 0 Cpu.Boot in
  Cpu.Count table = 8 /\ Cpu.GetId 8 table = 0 /\ Cpu.GetId 0 table = 0 /\
  Cpu.CountOnline (Cpu.Initialize (demo_apic 8) 8 table) = 2 /\
  Cpu.IsOnline 8 (Cpu.Initialize (demo_apic 8) 8 table) = false.
Proof. vm_compute. split_and!; reflexivity. Qed.

End Startup.
