(* ===== verification/CoreInit.v ===== *)
(** * Arch/Cpu.cpp: Cpu::Initialize as a whole

    The bookkeeping of Cores.v together with what it calls on the processor that runs it: the
    local APIC, the task register and the system call registers.  The first processor runs alone
    (Startup.v); the others then interleave at every access to something shared.  Each ends up
    with a number, a task state segment, emergency stack, system call area and logical APIC id of
    its own. *)

From S2P Require Import Prelude Mem Config Device LocalApic Acpi Apic Cores TopologySpec Syscall Traps Entry.

(** ** The task state segment's descriptor reads back *)

Module TssDescriptor.
Import Gdt.

Lemma testbit_low_field v n i : 0 <= n -> 0 <= i -> Z.testbit (Z.land v (Z.ones n)) i = (i <? n) && Z.testbit v i.
Proof.
  intros Hn Hi. rewrite Z.land_spec. destruct (Z.ltb_spec i n).
  - rewrite Z.ones_spec_low by lia. by rewrite andb_true_r.
  - rewrite Z.ones_spec_high by lia. apply andb_false_r.
Qed.

(** [low] and [high] as the descriptor words of a segment at [base]. *)
Definition low_word (base : Z) : Z :=
  let limit := SIZEOF_TSS - 1 in
  Z.lor (Z.lor (Z.lor (Z.lor (Z.lor (Z.land limit 0xffff) (Z.shiftl (Z.land base 0xffffff) 16))
    (Z.shiftl 0x9 40)) (Z.shiftl 1 47)) (Z.shiftl (Z.land (Z.shiftr limit 16) 0xf) 48))
    (Z.shiftl (Z.land (Z.shiftr base 24) 0xff) 56).

Lemma low_word_bits base i : 0 <= i -> Z.testbit (low_word base) i =
  Z.testbit 103 i || ((16 <=? i) && (i <? 40) && Z.testbit base (i - 16)) || Z.testbit (Z.shiftl 0x9 40) i || (i =? 47) ||
  ((56 <=? i) && (i <? 64) && Z.testbit base (i - 32)).
Proof.
  intros Hi. unfold low_word. cbv zeta. change (Z.land (SIZEOF_TSS - 1) 0xffff) with 103.
  change (Z.shiftl (Z.land (Z.shiftr (SIZEOF_TSS - 1) 16) 0xf) 48) with 0. rewrite Z.lor_0_r.
  change 0xffffff with (Z.ones 24). change 0xff with (Z.ones 8). rewrite !Z.lor_spec.
  assert (H47 : Z.testbit (Z.shiftl 1 47) i = (i =? 47)).
  { rewrite Z.shiftl_1_l. destruct (Z.eqb_spec i 47) as [->|]; [done|]. apply Z.pow2_bits_false. lia. }
  rewrite H47. rewrite (Z.shiftl_spec (Z.land base _)), (Z.shiftl_spec (Z.land (Z.shiftr base 24) _)) by lia.
  do 2 f_equal; [f_equal; f_equal|].
  - destruct (Z.leb_spec 16 i); cbn [andb]; [|by rewrite Z.testbit_neg_r by lia]. rewrite testbit_low_field by lia.
    by replace (i - 16 <? 24) with (i <? 40) by lia.
  - destruct (Z.leb_spec 56 i); cbn [andb]; [|by rewrite Z.testbit_neg_r by lia]. rewrite testbit_low_field by lia.
    replace (i - 56 <? 8) with (i <? 64) by lia. destruct (i <? 64); cbn [andb]; [|done]. rewrite Z.shiftr_spec by lia. f_equal. lia.
Qed.

Lemma const_bits i : 7 <= i -> Z.testbit 103 i = false.
Proof. intros. apply Z.bits_above_log2; [done|]. change (Z.log2 103) with 6. lia. Qed.
Lemma type_bits_low i : i < 40 -> Z.testbit (Z.shiftl 0x9 40) i = false.
Proof. intros. apply Z.shiftl_spec_low. lia. Qed.
Lemma type_bits_high i : 44 <= i -> Z.testbit (Z.shiftl 0x9 40) i = false.
Proof. intros. apply Z.bits_above_log2; [done|]. change (Z.log2 (Z.shiftl 0x9 40)) with 43. lia. Qed.

Lemma field_ext lo n v w : 0 <= lo -> 0 <= n -> (forall i, 0 <= i < n -> Z.testbit v (i + lo) = Z.testbit w i) ->
  Field.get lo n v = wrap n w.
Proof.
  intros Hl Hn H. apply Z.bits_inj'. intros i Hi. rewrite Field.testbit_get, testbit_wrap by lia.
  destruct (Z.ltb_spec i n); cbn [andb]; [|done]. apply H. lia.
Qed.

(** What the CPU reads out of the two words. *)
Lemma tss_reads_back base : is_word 64 base ->
  system_base (low_word base) (Z.shiftr base 32) = base /\ system_limit (low_word base) = SIZEOF_TSS - 1 /\
  Field.get 40 4 (low_word base) = 0x9 /\ Field.get 47 1 (low_word base) = 1.
Proof.
  intros Hb.
  assert (E1 : Field.get 16 24 (low_word base) = wrap 24 base).
  { apply field_ext; [lia..|]. intros i Hi. rewrite low_word_bits, const_bits, type_bits_low by lia.
    replace (16 <=? i + 16) with true by lia. replace (i + 16 <? 40) with true by lia. replace (i + 16 =? 47) with false by lia.
    replace (56 <=? i + 16) with false by lia. cbn [andb orb]. rewrite !orb_false_r. f_equal. lia. }
  assert (E2 : Field.get 56 8 (low_word base) = wrap 8 (Z.shiftr base 24)).
  { apply field_ext; [lia..|]. intros i Hi. rewrite low_word_bits, const_bits, type_bits_high by lia.
    replace (i + 56 <? 40) with false by lia. replace (i + 56 =? 47) with false by lia. replace (56 <=? i + 56) with true by lia.
    replace (i + 56 <? 64) with true by lia. rewrite andb_false_r. cbn [andb orb]. rewrite Z.shiftr_spec by lia. f_equal. lia. }
  assert (E3 : Field.get 0 16 (low_word base) = wrap 16 103).
  { apply field_ext; [lia..|]. intros i Hi. rewrite low_word_bits, type_bits_low by lia.
    replace (16 <=? i + 0) with false by lia. replace (i + 0 =? 47) with false by lia. replace (56 <=? i + 0) with false by lia.
    cbn [andb orb]. rewrite !orb_false_r. f_equal. lia. }
  assert (E4 : Field.get 48 4 (low_word base) = wrap 4 0).
  { apply field_ext; [lia..|]. intros i Hi. rewrite low_word_bits, const_bits, type_bits_high by lia.
    replace (i + 48 <? 40) with false by lia. replace (i + 48 =? 47) with false by lia. replace (56 <=? i + 48) with false by lia.
    rewrite andb_false_r. cbn [andb orb]. by rewrite Z.bits_0. }
  assert (E5 : Field.get 40 4 (low_word base) = wrap 4 9).
  { apply field_ext; [lia..|]. intros i Hi. rewrite low_word_bits, const_bits, Z.shiftl_spec by lia.
    replace (i + 40 <? 40) with false by lia. replace (i + 40 =? 47) with false by lia. replace (56 <=? i + 40) with false by lia.
    rewrite andb_false_r. cbn [andb orb]. rewrite !orb_false_r. f_equal. lia. }
  assert (E6 : Field.get 47 1 (low_word base) = wrap 1 1).
  { apply field_ext; [lia..|]. intros i Hi. replace i with 0 by lia. by rewrite low_word_bits by lia. }
  unfold system_base, system_limit. rewrite E1, E2, E3, E4, E5, E6. split_and!; try reflexivity.
  unfold Field.get. rewrite Z.shiftr_0_r. unfold is_word in Hb. rewrite !Z.shiftr_div_pow2 by lia. unfold wrap.
  pose proof (Z.div_mod base (2 ^ 24) ltac:(lia)). pose proof (Z.div_mod base (2 ^ 32) ltac:(lia)).
  pose proof (Z.div_mod (base / 2 ^ 24) (2 ^ 8) ltac:(lia)). rewrite Z.div_div in * by lia. change (2 ^ 24 * 2 ^ 8) with (2 ^ 32) in *.
  rewrite (Z.mod_small (base / 2 ^ 32) (2 ^ 32)); [lia|]. split; [apply Z.div_pos; lia|]. apply Z.div_lt_upper_bound; lia.
Qed.
End TssDescriptor.

(** ** The register unions of Arch/LocalApic.cpp *)

Module LocalRegisters.

Inductive register :=
| IdentificationRegister | VersionRegister | LogicalDestinationRegister | DestinationFormatRegister
| TaskPriorityRegister | SpuriousInterruptVectorRegister.

(** The bit-fields in the order of their declaration, unnamed ones without a name; they are laid out
    from bit 0 upwards. *)
Definition declared (r : register) : list (option string * Z) :=
  match r with
  | IdentificationRegister => [(None, 24); (Some "ApicId", 8)]
  | VersionRegister => [(Some "Version", 8); (None, 8); (Some "MaxLvtEntry", 8); (Some "SuppressEoiBroadcast", 1); (None, 7)]
  | LogicalDestinationRegister => [(None, 24); (Some "LogicalId", 8)]
  | DestinationFormatRegister => [(None, 28); (Some "Model", 4)]
  | TaskPriorityRegister => [(Some "SubClass", 4); (Some "Priority", 4); (None, 24)]
  | SpuriousInterruptVectorRegister =>
      [(Some "SpuriousVector", 8); (Some "ApicEnabled", 1); (Some "FocusProcessorCheckingDisabled", 1); (None, 2);
       (Some "EoiBroadcastSuppression", 1); (None, 19)]
  end.
Definition index_of (r : register) : Z :=
  match r with
  | IdentificationRegister => LocalApic.IDENTIFICATION | VersionRegister => LocalApic.VERSION
  | LogicalDestinationRegister => LocalApic.LOGICAL_DESTINATION | DestinationFormatRegister => LocalApic.DESTINATION_FORMAT
  | TaskPriorityRegister => LocalApic.TASK_PRIORITY | SpuriousInterruptVectorRegister => LocalApic.SPURIOUS_INTERRUPT_VECTOR
  end.
Definition has_destructor (r : register) : bool :=
  match r with IdentificationRegister | VersionRegister => false | _ => true end.

Fixpoint find (fields : list (option string * Z)) (at_ : Z) (name : string) : option (Z * Z) :=
  match fields with
  | [] => None
  | (Some n, width) :: rest => if bool_decide (n = name) then Some (at_, width) else find rest (at_ + width) name
  | (None, width) :: rest => find rest (at_ + width) name
  end.
Definition read (r : register) (name : string) (Value : Z) : Z :=
  match find (declared r) 0 name with Some (lo, n) => Field.get lo n Value | None => 0 end.
Definition assign (r : register) (name : string) (x Value : Z) : Z :=
  match find (declared r) 0 name with Some (lo, n) => Field.set lo n x Value | None => Value end.

(** Every union is as wide as the hardware register. *)
Lemma declared_width r : foldr (fun f n => snd f + n) 0 (declared r) = 32.
Proof. by destruct r. Qed.

Section Scopes.
Context {D : Type} {HW : Hardware D} (base : Z).

(** An object's life: the constructor reads, [body] works on the value and yields a result, the
    destructor writes back. *)
Definition scope {A} (r : register) (body : Z -> A * Z) : M D A :=
  Value <- LocalApic.Read base (index_of r) ;;
  let '(x, Value) := body Value in
  if has_destructor r then LocalApic.Write base (index_of r) Value ;;; dret x else dret x.

Definition set_up_registers (InLogicalId : Z) : M D unit :=
  scope LogicalDestinationRegister (fun ldr => (tt, assign LogicalDestinationRegister "LogicalId" InLogicalId ldr)) ;;;
  scope DestinationFormatRegister (fun dfr => (tt, assign DestinationFormatRegister "Model" LocalApic.FLAT dfr)) ;;;
  scope TaskPriorityRegister (fun tpr =>
    (tt, assign TaskPriorityRegister "SubClass" 0 (assign TaskPriorityRegister "Priority" 0 tpr))) ;;;
  scope SpuriousInterruptVectorRegister (fun svr =>
    (tt, assign SpuriousInterruptVectorRegister "FocusProcessorCheckingDisabled" 1
           (assign SpuriousInterruptVectorRegister "ApicEnabled" 1 (assign SpuriousInterruptVectorRegister "SpuriousVector" 0xff svr)))).

(** The functions of LocalApic.v, written with shifts and widths, are these objects' lives. *)
Theorem registers_are_scopes d : 
  (forall logical, LocalApic.Initialize base logical d = set_up_registers logical d) /\
  LocalApic.GetId base d = scope IdentificationRegister (fun v => (read IdentificationRegister "ApicId" v, v)) d /\
  LocalApic.GetLogicalId base d = scope LogicalDestinationRegister (fun v => (read LogicalDestinationRegister "LogicalId" v, v)) d /\
  LocalApic.GetVersion base d = scope VersionRegister (fun v => (read VersionRegister "Version" v, v)) d.
Proof.
  unfold LocalApic.Initialize, LocalApic.GetId, LocalApic.GetLogicalId, LocalApic.GetVersion, set_up_registers, scope, LocalApic.Read,
    LocalApic.Write, mmio_load, mmio_store, dbind, dret. cbn [obind index_of has_destructor].
  split_and!; [intros logical; do 4 (destruct (mmio_read _ _) as [? ?]; cbn [obind])|..]; try reflexivity;
    destruct (mmio_read _ _); reflexivity.
Qed.

Lemma declared_nonneg r : Forall (fun f => 0 <= snd f) (declared r).
Proof. destruct r; by refine (bool_decide_eq_true_1 _ _). Qed.

(** Assigning a field leaves every other field as it was. *)
Lemma assign_other r n n' x v : n <> n' -> read r n' (assign r n x v) = read r n' v.
Proof.
  intros Hn. unfold read, assign.
  assert (H : forall fields at_, 0 <= at_ -> Forall (fun f => 0 <= snd f) fields ->
    forall lo w lo' w', find fields at_ n = Some (lo, w) -> find fields at_ n' = Some (lo', w') ->
      at_ <= lo /\ 0 <= w /\ at_ <= lo' /\ 0 <= w' /\ (lo + w <= lo' \/ lo' + w' <= lo)).
  { induction fields as [|[[m|] width] fields IH]; intros at_ Ha Hf lo w lo' w' E E'; [done|..]; cbn [find] in *;
      apply Forall_cons in Hf as [Hw Hf]; simpl in Hw.
    - assert (Hb : forall k lo w, find fields (at_ + width) k = Some (lo, w) -> at_ + width <= lo /\ 0 <= w).
      { clear -Hf Ha Hw. intros k. assert (G : forall l a lo w, Forall (fun f : option string * Z => 0 <= snd f) l -> find l a k = Some (lo, w) -> a <= lo /\ 0 <= w).
        { induction l as [|[[m|] z] l IH]; intros a lo w Hl E; [done|..]; cbn [find] in E; apply Forall_cons in Hl as [Hz Hl]; simpl in Hz.
          - case_bool_decide; [injection E as <- <-; lia|]. apply IH in E; [lia|done].
          - apply IH in E; [lia|done]. }
        intros lo w. by apply G. }
      case_bool_decide as D1; case_bool_decide as D2; [congruence|..].
      + injection E' as <- <-. apply Hb in E. lia.
      + injection E as <- <-. apply Hb in E'. lia.
      + destruct (IH (at_ + width) ltac:(lia) Hf _ _ _ _ E E') as (? & ? & ? & ? & ?). lia.
    - destruct (IH (at_ + width) ltac:(lia) Hf _ _ _ _ E E') as (? & ? & ? & ? & ?). lia. }
  destruct (find (declared r) 0 n') as [[lo' w']|] eqn:E'; [|done]. destruct (find (declared r) 0 n) as [[lo w]|] eqn:E; [|done].
  destruct (H (declared r) 0 ltac:(lia) (declared_nonneg r) lo w lo' w' E E') as (? & ? & ? & ? & ?).
  apply Field.get_set_other; lia.
Qed.
End Scopes.
End LocalRegisters.

(** ** The local APIC's registers *)

(** The registers that are used here. *)
Definition setup_registers : list Z :=
  [LocalApic.IDENTIFICATION; LocalApic.TASK_PRIORITY; LocalApic.LOGICAL_DESTINATION; LocalApic.DESTINATION_FORMAT;
   LocalApic.SPURIOUS_INTERRUPT_VECTOR].
Definition used (i : Z) : bool := bool_decide (i ∈ setup_registers).

(** The writable fields keep what is written into them, the others and the other registers are
    not affected; the APIC's own id is fixed. *)
Class ApicBlock (D : Type) {HW : Hardware D} (base : Z) := {
  reg : Z -> D -> Z;
  reg_read i d : used i = true -> (mmio_read (base +64 i) d).1 = reg i d;
  reg_read_keeps i j d : used i = true -> used j = true -> reg j (mmio_read (base +64 i) d).2 = reg j d;
  reg_ldr v d : Field.get 24 8 (reg LocalApic.LOGICAL_DESTINATION (mmio_write (base +64 LocalApic.LOGICAL_DESTINATION) v d)) = Field.get 24 8 v;
  reg_dfr v d : Field.get 28 4 (reg LocalApic.DESTINATION_FORMAT (mmio_write (base +64 LocalApic.DESTINATION_FORMAT) v d)) = Field.get 28 4 v;
  reg_tpr v d : Field.get 0 8 (reg LocalApic.TASK_PRIORITY (mmio_write (base +64 LocalApic.TASK_PRIORITY) v d)) = Field.get 0 8 v;
  reg_svr v d : Field.get 0 9 (reg LocalApic.SPURIOUS_INTERRUPT_VECTOR (mmio_write (base +64 LocalApic.SPURIOUS_INTERRUPT_VECTOR) v d)) = Field.get 0 9 v;
  reg_other i j v d : used i = true -> used j = true -> i <> j -> i <> LocalApic.IDENTIFICATION ->
    reg j (mmio_write (base +64 i) v d) = reg j d }.

Section LocalApicSetup.
Context {D : Type} {HW : Hardware D} (base : Z) {AB : ApicBlock D base}.

(** The APIC is enabled, accepts every priority, and answers to its logical id in the flat model. *)
Record apic_ready (logical : Z) (d : D) : Prop := {
  ap_logical : Field.get 24 8 (reg LocalApic.LOGICAL_DESTINATION d) = logical;
  ap_flat : Field.get 28 4 (reg LocalApic.DESTINATION_FORMAT d) = LocalApic.FLAT;
  ap_priority : Field.get 0 8 (reg LocalApic.TASK_PRIORITY d) = 0;
  ap_spurious : Field.get 0 8 (reg LocalApic.SPURIOUS_INTERRUPT_VECTOR d) = 0xff;
  ap_enabled : Field.get 8 1 (reg LocalApic.SPURIOUS_INTERRUPT_VECTOR d) = 1 }.

Lemma GetId_ok d : exists d', LocalApic.GetId base d = Ok (Field.get 24 8 (reg LocalApic.IDENTIFICATION d), d') /\
  forall j, used j = true -> reg j d' = reg j d.
Proof.
  unfold LocalApic.GetId, LocalApic.Read, dbind, mmio_load, dret. cbn [obind].
  destruct (mmio_read (base +64 LocalApic.IDENTIFICATION) d) as [v d'] eqn:E. exists d'. split.
  - by rewrite <- (reg_read LocalApic.IDENTIFICATION d), E.
  - intros j Hj. by rewrite <- (reg_read_keeps LocalApic.IDENTIFICATION j d), E.
Qed.

(** A read-modify-write of one register. *)
Definition rmw (i : Z) (f : Z -> Z) (d : D) : D :=
  let '(v, d) := mmio_read (base +64 i) d in mmio_write (base +64 i) (u32 (f v)) d.

Lemma Initialize_eq logical d : LocalApic.Initialize base logical d =
  Ok (tt, rmw LocalApic.SPURIOUS_INTERRUPT_VECTOR (fun v => Field.set 9 1 1 (Field.set 8 1 1 (Field.set 0 8 0xff v)))
        (rmw LocalApic.TASK_PRIORITY (fun v => Field.set 0 4 0 (Field.set 4 4 0 v))
          (rmw LocalApic.DESTINATION_FORMAT (Field.set 28 4 LocalApic.FLAT)
            (rmw LocalApic.LOGICAL_DESTINATION (Field.set 24 8 logical) d)))).
Proof.
  unfold LocalApic.Initialize, LocalApic.Read, LocalApic.Write, mmio_load, mmio_store, rmw, dbind. cbn [obind].
  do 4 (destruct (mmio_read _ _) as [? ?]; cbn [obind]). reflexivity.
Qed.

Lemma rmw_reg i f d j : used i = true -> used j = true -> i <> LocalApic.IDENTIFICATION ->
  exists d1, (forall j, used j = true -> reg j d1 = reg j d) /\ rmw i f d = mmio_write (base +64 i) (u32 (f (reg i d))) d1 /\
  (j <> i -> reg j (rmw i f d) = reg j d).
Proof.
  intros Hu Hu' Hi. unfold rmw. destruct (mmio_read (base +64 i) d) as [v d1] eqn:E. exists d1.
  assert (Hk : forall j, used j = true -> reg j d1 = reg j d) by (intros j' Hj'; by rewrite <- (reg_read_keeps i j' d), E).
  assert (Ev : v = reg i d) by (by rewrite <- (reg_read i d), E). subst v. split_and!; [done..|].
  intros Hj. rewrite reg_other by done. by apply Hk.
Qed.

Lemma get_u32 lo n v : 0 <= lo -> 0 <= n -> lo + n <= 32 -> Field.get lo n (u32 v) = Field.get lo n v.
Proof.
  intros. apply Z.bits_inj'. intros i Hi. rewrite !Field.testbit_get by lia. destruct (Z.ltb_spec i n); cbn [andb]; [|done].
  rewrite testbit_wrap by lia. by replace (i + lo <? 32) with true by lia.
Qed.

Ltac other := match goal with |- context [reg ?j (rmw ?i ?f ?d)] =>
  let H := fresh in destruct (rmw_reg i f d j) as (? & _ & _ & H); [done..|]; rewrite H by done; clear H end.
Ltac own := match goal with |- context [reg ?j (rmw ?j ?f ?d)] =>
  let H := fresh in destruct (rmw_reg j f d j) as (? & _ & H & _); [done..|]; rewrite H; clear H end.

Lemma Initialize_apic logical d : is_word 8 logical ->
  exists d', LocalApic.Initialize base logical d = Ok (tt, d') /\ apic_ready logical d' /\
    reg LocalApic.IDENTIFICATION d' = reg LocalApic.IDENTIFICATION d.
Proof.
  intros Hl. eexists. split; [apply Initialize_eq|]. split; [split|].
  - do 3 other. own. rewrite reg_ldr, get_u32 by lia. fields. by apply wrap_small.
  - do 2 other. own. rewrite reg_dfr, get_u32 by lia. by fields.
  - other. own. rewrite reg_tpr, get_u32 by lia. apply Z.bits_inj'. intros i Hi. rewrite Field.testbit_get, Z.bits_0 by lia.
    destruct (Z.ltb_spec i 8); cbn [andb]; [|done]. rewrite !Field.testbit_set by lia. rewrite !Z.bits_0.
    destruct (Z.ltb_spec i 4).
    + replace (0 <=? i + 0) with true by lia. by replace (i + 0 <? 0 + 4) with true by lia.
    + replace (i + 0 <? 0 + 4) with false by lia. rewrite andb_false_r. replace (4 <=? i + 0) with true by lia.
      by replace (i + 0 <? 4 + 4) with true by lia.
  - own. rewrite <- (FieldMore.get_get 0 8 0 9) by lia. rewrite reg_svr, FieldMore.get_get, get_u32 by lia. by fields.
  - own. rewrite <- (FieldMore.get_get 8 1 0 9) by lia. rewrite reg_svr, FieldMore.get_get, get_u32 by lia. by fields.
  - by do 4 other.
Qed.
End LocalApicSetup.

(** ** Cpu::Initialize on every processor *)

Module CoreInit.

(** Where a processor stands: in front of the atomic add, of the loop of the first one, of
    [GetId], [LocalApic::Initialize], [Gdt::LoadTaskRegister], [Syscall::Initialize], the online
    flag; behind it all. *)
Inductive stage := Counting | Numbering | Identify | Local | Task | Calls | Publish | Done.
#[export] Instance stage_eq_dec : EqDecision stage.
Proof. solve_decision. Defined.
Definition rank (x : stage) : Z :=
  match x with Counting => 0 | Numbering => 1 | Identify => 2 | Local => 3 | Task => 4 | Calls => 5 | Publish => 6 | Done => 7 end.

Section Machine.
Context {D : Type} {HW : Hardware D} (base : Z) {AB : ApicBlock D base} {BB : Build}.
(** What ACPI reported, the processor that runs first, and the linker's addresses. *)
Context (apic : Apic.t) (boot : Z) (tss_at fault_stack area : Z -> Z) (entry : Z).

Record processor := { at_ : stage; id : Z; device : D; registers : Entry.cpu }.
Record t := { cpu : Cpu.t; gdt : Gdt.t; processors : Z -> processor }.

Definition update (s : t) (p : Z) (x : processor) : t :=
  {| cpu := cpu s; gdt := gdt s; processors := upd (processors s) p x |}.
Definition with_cpu (s : t) (c : Cpu.t) : t := {| cpu := c; gdt := gdt s; processors := processors s |}.
Definition with_gdt (s : t) (g : Gdt.t) : t := {| cpu := cpu s; gdt := g; processors := processors s |}.

Definition count_up (c : Cpu.t) : Cpu.t :=
  {| Cpu.s_CoreIdByLapicId := Cpu.s_CoreIdByLapicId c; Cpu.s_CoreCount := Cpu.s_CoreCount c;
     Cpu.s_OnlineCount := u32 (Cpu.s_OnlineCount c + 1); Cpu.s_CoreOnline := Cpu.s_CoreOnline c |}.
Definition publish (i : Z) (c : Cpu.t) : Cpu.t :=
  {| Cpu.s_CoreIdByLapicId := Cpu.s_CoreIdByLapicId c; Cpu.s_CoreCount := Cpu.s_CoreCount c;
     Cpu.s_OnlineCount := Cpu.s_OnlineCount c; Cpu.s_CoreOnline := upd (Cpu.s_CoreOnline c) i true |}.

(** The next step of the processor with local APIC id [p]. *)
Definition advance (p : Z) (s : t) : outcome t :=
  let x := processors s p in
  let go st := {| at_ := st; id := id x; device := device x; registers := registers x |} in
  match at_ x with
  | Counting =>
      let first := Cpu.s_OnlineCount (cpu s) =? 0 in
      Ok (update (with_cpu s (count_up (cpu s))) p (go (if first then Numbering else Identify)))
  | Numbering => Ok (update (with_cpu s (Cpu.Number_loop (Z.to_nat Config.MAX_CORES) apic 0 (cpu s))) p (go Identify))
  | Identify =>
      let* (lapic, d) := LocalApic.GetId base (device x) in
      Ok (update s p {| at_ := Local; id := Cpu.GetId lapic (cpu s); device := d; registers := registers x |})
  | Local =>
      let* (_, d) := LocalApic.Initialize base (Apic.GetLogicalApicId (id x)) (device x) in
      Ok (update s p {| at_ := Task; id := id x; device := d; registers := registers x |})
  | Task =>
      let* g := Gdt.LoadTaskRegister tss_at fault_stack (id x) (gdt s) in
      Ok (update (with_gdt s g) p (go Calls))
  | Calls =>
      Ok (update s p {| at_ := Publish; id := id x; device := device x;
                        registers := Entry.Initialize entry (area (id x)) (registers x) |})
  | Publish => Ok (update (with_cpu s (publish (id x) (cpu s))) p (go Done))
  | Done => Ok s
  end.

(** The others are started when the first one is through. *)
Definition may_run (p : Z) (s : t) : bool := (p =? boot) || bool_decide (at_ (processors s boot) = Done).
Definition step (p : Z) (s : t) : outcome t := if may_run p s then advance p s else Ok s.

(** Until a processor arrives its registers may hold anything; its local APIC holds its id. *)
Record start (s : t) : Prop := {
  sr_cpu : cpu s = Cpu.Boot;
  sr_table : gdt s = {| Gdt.table := Gdt.s_LongMode; Gdt.s_TaskState := Gdt.s_TaskState (gdt s); Gdt.task_register := Gdt.task_register (gdt s) |};
  sr_counting p : at_ (processors s p) = Counting;
  sr_lapic p : is_word 8 p -> Field.get 24 8 (reg LocalApic.IDENTIFICATION (device (processors s p))) = p }.

(** The processors of the table. *)
Context (ids : list Z).
(** Every processor of the machine may take steps. *)
Definition listed (p : Z) : Prop := p ∈ ids.
(** Those the core table has a number for. *)
Definition known (p : Z) : Prop := exists i, (i < MAX)%nat /\ ids !! i = Some p.

Inductive reachable : t -> Prop :=
| reach_start s : start s -> reachable s
| reach_step s p s' : reachable s -> listed p -> step p s = Ok s' -> reachable s'.

(** A processor that is set up as number [i]. *)
Record set_up (i : Z) (x : processor) (g : Gdt.t) : Prop := {
  su_id : id x = i;
  su_apic : apic_ready base (Apic.GetLogicalApicId i) (device x);
  su_register : Gdt.task_register g i = Gdt.FIRST_TSS + 16 * i;
  su_descriptor : exists lo hi, Gdt.table g !! Z.to_nat (Gdt.FIXED_DESCRIPTORS + 2 * i) = Some lo /\
    Gdt.table g !! S (Z.to_nat (Gdt.FIXED_DESCRIPTORS + 2 * i)) = Some hi /\
    Gdt.system_base lo hi = tss_at i /\ Gdt.system_limit lo = Gdt.SIZEOF_TSS - 1 /\
    Field.get 40 4 lo = 0x9 /\ Field.get 47 1 lo = 1;
  su_tss : Gdt.s_TaskState g i =
    {| Gdt.Rsp0 := 0; Gdt.Ist1 := fault_stack i +64 Config.IST_STACK_SIZE; Gdt.IoMapBase := Gdt.SIZEOF_TSS |};
  su_calls : Entry.STAR (registers x) = Syscall.STAR_VALUE /\ Entry.LSTAR (registers x) = entry /\
    Entry.SFMASK (registers x) = Syscall.MASKED_FLAGS /\ Entry.KERNEL_GS_BASE (registers x) = area i }.

(** ** One step *)

Record tss_ready (i : Z) (g : Gdt.t) : Prop := {
  tr_register : Gdt.task_register g i = Gdt.FIRST_TSS + 16 * i;
  tr_low : Gdt.table g !! Z.to_nat (Gdt.FIXED_DESCRIPTORS + 2 * i) = Some (TssDescriptor.low_word (tss_at i));
  tr_high : Gdt.table g !! S (Z.to_nat (Gdt.FIXED_DESCRIPTORS + 2 * i)) = Some (Z.shiftr (tss_at i) 32);
  tr_tss : Gdt.s_TaskState g i =
    {| Gdt.Rsp0 := 0; Gdt.Ist1 := fault_stack i +64 Config.IST_STACK_SIZE; Gdt.IoMapBase := Gdt.SIZEOF_TSS |} }.

Lemma LoadTaskRegister_ok i g : 0 <= i < Config.MAX_CORES -> length (Gdt.table g) = 22%nat ->
  exists g', Gdt.LoadTaskRegister tss_at fault_stack i g = Ok g' /\ length (Gdt.table g') = 22%nat /\ tss_ready i g' /\
    forall j, 0 <= j < Config.MAX_CORES -> j <> i -> tss_ready j g -> tss_ready j g'.
Proof.
  unfold Config.MAX_CORES. intros Hi Hl. unfold Gdt.LoadTaskRegister, Config.MAX_CORES. rewrite (proj2 (Z.ltb_lt _ _)) by lia.
  rewrite ASSERT_true. cbn [obind]. eexists. split; [reflexivity|]. cbn [Gdt.table].
  change Gdt.FIXED_DESCRIPTORS with 6. unfold Gdt.WriteTssDescriptor. cbv zeta. fold (TssDescriptor.low_word (tss_at i)).
  change Gdt.FIXED_DESCRIPTORS with 6. split_and!.
  - by rewrite !length_insert.
  - split; cbn [Gdt.table Gdt.task_register Gdt.s_TaskState]; change Gdt.FIXED_DESCRIPTORS with 6; rewrite ?upd_eq.
    + rewrite (wrap_small 16 (i * 16)) by (unfold is_word; lia). unfold Gdt.FIRST_TSS. rewrite wrap_small by (unfold is_word; lia). lia.
    + rewrite list_lookup_insert_ne by lia. apply list_lookup_insert_eq. lia.
    + apply list_lookup_insert_eq. rewrite length_insert. lia.
    + done.
  - intros j Hj Hn [T1 T2 T3 T4]. change Gdt.FIXED_DESCRIPTORS with 6 in *.
    split; cbn [Gdt.table Gdt.task_register Gdt.s_TaskState]; change Gdt.FIXED_DESCRIPTORS with 6; rewrite ?upd_ne by lia; try done;
      rewrite !list_lookup_insert_ne by lia; done.
Qed.

Definition calls_ready (i : Z) (r : Entry.cpu) : Prop :=
  Entry.STAR r = Syscall.STAR_VALUE /\ Entry.LSTAR r = entry /\ Entry.SFMASK r = Syscall.MASKED_FLAGS /\
  Entry.KERNEL_GS_BASE r = area i.

(** How far a processor is that will be number [i]. *)
Record progress (i : Z) (x : processor) (s : t) : Prop := {
  pr_id : 3 <= rank (at_ x) -> id x = i;
  pr_apic : 4 <= rank (at_ x) -> apic_ready base (Apic.GetLogicalApicId i) (device x);
  pr_task : 5 <= rank (at_ x) -> tss_ready i (gdt s);
  pr_calls : 6 <= rank (at_ x) -> calls_ready i (registers x);
  pr_online : at_ x = Done <-> Cpu.s_CoreOnline (cpu s) i = true }.

Definition table : list Z := take MAX ids.
Definition counted (s : t) : list Z := filter (fun p => at_ (processors s p) <> Counting) table.

Record wf (s : t) : Prop := {
  w_lapic p : known p -> Field.get 24 8 (reg LocalApic.IDENTIFICATION (device (processors s p))) = p;
  w_numbered : 2 <= rank (at_ (processors s boot)) ->
    forall i p, (i < MAX)%nat -> ids !! i = Some p -> Cpu.GetId p (cpu s) = Z.of_nat i;
  w_fresh : rank (at_ (processors s boot)) < 2 -> Cpu.s_CoreCount (cpu s) = 0;
  w_waiting p : known p -> p <> boot -> at_ (processors s boot) <> Done -> at_ (processors s p) = Counting;
  w_numbering p : known p -> at_ (processors s p) = Numbering -> p = boot;
  w_count : Cpu.s_OnlineCount (cpu s) = Z.of_nat (length (counted s));
  w_table : length (Gdt.table (gdt s)) = 22%nat;
  w_progress i p : (i < MAX)%nat -> ids !! i = Some p -> progress (Z.of_nat i) (processors s p) s }.

Hypothesis Hids : Apic.s_LocalApicId apic = padded ids.
Hypothesis Hvalid : Forall (fun x => x <> Apic.INVALID_ID) ids.
Hypothesis Hnodup : NoDup ids.
Hypothesis Hboot : known boot.
Hypothesis Hbytes : Forall (is_word 8) ids.
Hypothesis Htss : forall i, is_word 64 (tss_at i).
(** The machine has no more processors than the core table has room for. *)
Hypothesis Hroom : (length ids <= MAX)%nat.

Lemma listed_known p : listed p -> known p.
Proof. unfold listed, known. intros (i & Hi)%list_elem_of_lookup. exists i. split; [|done]. apply lookup_lt_Some in Hi. lia. Qed.

Lemma known_table p : known p <-> p ∈ table.
Proof.
  unfold known, table. rewrite list_elem_of_lookup. split; intros (i & H).
  - exists i. destruct H as [Hi H]. by rewrite lookup_take_lt.
  - exists i. apply lookup_take_Some in H as [H Hi]. by split.
Qed.

Lemma table_nodup : NoDup table.
Proof. apply (sublist_NoDup _ ids); [done|]. apply sublist_take. Qed.

Lemma counted_up s p x : p ∈ table -> at_ (processors s p) = Counting -> at_ x <> Counting ->
  length (filter (fun q => at_ (upd (processors s) p x q) <> Counting) table) = S (length (counted s)).
Proof.
  intros Hp Hc Hx. unfold counted. pose proof table_nodup as Hn. apply list_elem_of_split in Hp as (l1 & l2 & E). rewrite E in *.
  apply NoDup_app in Hn as (_ & H1 & H2). apply NoDup_cons in H2 as [H2 _].
  rewrite !filter_app, !filter_cons, !length_app. rewrite decide_True by (by rewrite upd_eq). rewrite decide_False by (by intros []).
  assert (Hk : forall l : list Z, p ∉ l -> filter (fun q => at_ (upd (processors s) p x q) <> Counting) l = filter (fun q => at_ (processors s q) <> Counting) l).
  { induction l as [|q l IH]; intros Hl; [done|]. rewrite !filter_cons. rewrite IH by set_solver.
    assert (Hq : upd (processors s) p x q = processors s q) by (apply upd_ne; set_solver). by rewrite Hq. }
  rewrite !Hk; [simpl; lia|done|]. intros H. apply (H1 p H). set_solver.
Qed.

(** What a step of [p], which is number [i], to [x] with the shared state [c], [g] has to provide. *)
Record good_step (s : t) (p : Z) (i : nat) (x : processor) (c : Cpu.t) (g : Gdt.t) : Prop := {
  gs_lapic : Field.get 24 8 (reg LocalApic.IDENTIFICATION (device x)) = p;
  gs_done : at_ (processors s p) = Done -> at_ x = Done;
  gs_numbering : at_ x = Numbering -> p = boot;
  gs_numbers : 2 <= rank (at_ (upd (processors s) p x boot)) ->
    forall j q, (j < MAX)%nat -> ids !! j = Some q -> Cpu.GetId q c = Z.of_nat j;
  gs_fresh : rank (at_ (upd (processors s) p x boot)) < 2 -> Cpu.s_CoreCount c = 0;
  gs_count : Cpu.s_OnlineCount c =
    Z.of_nat (length (filter (fun q => at_ (upd (processors s) p x q) <> Counting) table));
  gs_table : length (Gdt.table g) = 22%nat;
  gs_tss j : 0 <= j < Config.MAX_CORES -> j <> Z.of_nat i -> tss_ready j (gdt s) -> tss_ready j g;
  gs_online j : j <> Z.of_nat i -> Cpu.s_CoreOnline c j = Cpu.s_CoreOnline (cpu s) j;
  gs_progress : progress (Z.of_nat i) x {| cpu := c; gdt := g; processors := upd (processors s) p x |} }.

Lemma good_step_wf s p i x c g : wf s -> (i < MAX)%nat -> ids !! i = Some p -> may_run p s = true -> good_step s p i x c g ->
  wf {| cpu := c; gdt := g; processors := upd (processors s) p x |}.
Proof.
  intros W Hi Hp Hrun [G1 G2 G3 G4 G5 G6 G7 G8 G9 G10]. split; cbn [cpu gdt processors]; try done.
  - intros q Hq. destruct (decide (q = p)) as [->|]; [by rewrite upd_eq|]. rewrite upd_ne by done. by apply (w_lapic s W).
  - intros q Hq Hn Hb. unfold may_run in Hrun. apply orb_true_iff in Hrun. destruct (decide (p = boot)) as [->|Hpb].
    + rewrite upd_eq in Hb. rewrite upd_ne by done. apply (w_waiting s W); [done..|]. by intros E%G2.
    + rewrite upd_ne in Hb by done. destruct Hrun as [H|H]; [by apply Z.eqb_eq in H|]. by apply bool_decide_eq_true_1 in H.
  - intros q Hq. destruct (decide (q = p)) as [->|]; [rewrite upd_eq; apply G3|]. rewrite upd_ne by done. by apply (w_numbering s W).
  - intros j q Hj Hq. destruct (decide (q = p)) as [->|Hn].
    + assert (j = i) as -> by (by apply (NoDup_lookup ids _ _ p)). by rewrite upd_eq.
    + rewrite upd_ne by done. destruct (w_progress s W j q Hj Hq) as [P1 P2 P3 P4 P5].
      assert (Hne : Z.of_nat j <> Z.of_nat i). { intros E. apply Hn. assert (j = i) by lia. subst. congruence. }
      split; cbn [cpu gdt]; try done.
      * intros H. apply G8; [unfold Config.MAX_CORES; change MAX with 8%nat in Hj; lia|done|by apply P3].
      * by rewrite G9.
Qed.

(** The count does not change when a processor past the count moves on. *)
Lemma counted_same s p x : at_ (processors s p) <> Counting -> at_ x <> Counting ->
  filter (fun q => at_ (upd (processors s) p x q) <> Counting) table = counted s.
Proof.
  intros H1 H2. unfold counted. apply list_filter_iff. intros q. destruct (decide (q = p)) as [->|]; [by rewrite upd_eq|by rewrite upd_ne].
Qed.

(** The processor that moves on is not the first, or is past its table, unless it counts or
    numbers. *)
Lemma numbers_kept s p x : wf s -> may_run p s = true -> 2 <= rank (at_ (processors s p)) -> 2 <= rank (at_ x) ->
  (2 <= rank (at_ (upd (processors s) p x boot)) -> forall j q, (j < MAX)%nat -> ids !! j = Some q -> Cpu.GetId q (cpu s) = Z.of_nat j) /\
  (rank (at_ (upd (processors s) p x boot)) < 2 -> Cpu.s_CoreCount (cpu s) = 0).
Proof.
  intros W Hrun H1 H2. destruct (decide (p = boot)) as [->|Hn].
  - rewrite upd_eq. split; [intros _; by apply (w_numbered s W)|lia].
  - rewrite upd_ne by done. split; [apply (w_numbered s W)|apply (w_fresh s W)].
Qed.

Lemma logical_word i : is_word 8 (Apic.GetLogicalApicId i).
Proof. unfold Apic.GetLogicalApicId. case_match; [by apply wrap_range|done]. Qed.

(** A step behind the numbering leaves the numbers and the count alone. *)
Lemma later_step s p i x c g : wf s -> (i < MAX)%nat -> ids !! i = Some p -> may_run p s = true ->
  2 <= rank (at_ (processors s p)) < 7 -> 2 <= rank (at_ x) ->
  Field.get 24 8 (reg LocalApic.IDENTIFICATION (device x)) = p ->
  Cpu.s_CoreIdByLapicId c = Cpu.s_CoreIdByLapicId (cpu s) -> Cpu.s_CoreCount c = Cpu.s_CoreCount (cpu s) ->
  Cpu.s_OnlineCount c = Cpu.s_OnlineCount (cpu s) ->
  (forall j, j <> Z.of_nat i -> Cpu.s_CoreOnline c j = Cpu.s_CoreOnline (cpu s) j) ->
  length (Gdt.table g) = 22%nat ->
  (forall j, 0 <= j < Config.MAX_CORES -> j <> Z.of_nat i -> tss_ready j (gdt s) -> tss_ready j g) ->
  progress (Z.of_nat i) x {| cpu := c; gdt := g; processors := upd (processors s) p x |} ->
  wf {| cpu := c; gdt := g; processors := upd (processors s) p x |}.
Proof.
  intros W Hi Hp Hrun Hr Hx Hl Hc1 Hc2 Hc3 Hon Ht Hts Hpr.
  destruct (numbers_kept s p x W Hrun) as [N1 N2]; [lia|done|].
  apply (good_step_wf s p i x c g W Hi Hp Hrun). split; try done.
  - intros E. rewrite E in Hr. simpl in Hr. lia.
  - intros E. rewrite E in Hx. simpl in Hx. lia.
  - intros H j q Hj Hq. unfold Cpu.GetId. rewrite Hc1. by apply N1.
  - intros H. rewrite Hc2. by apply N2.
  - rewrite Hc3, (w_count s W), counted_same; [done| |].
    + intros E. rewrite E in Hr. simpl in Hr. lia.
    + intros E. rewrite E in Hx. simpl in Hx. lia.
Qed.

Lemma Number_loop_keeps n core c : Cpu.s_OnlineCount (Cpu.Number_loop n apic core c) = Cpu.s_OnlineCount c /\
  Cpu.s_CoreOnline (Cpu.Number_loop n apic core c) = Cpu.s_CoreOnline c.
Proof.
  revert core c. induction n as [|n IH]; intros core c; [done|]. cbn [Cpu.Number_loop].
  destruct (IH (core + 1) (if negb (Apic.GetLocalApicId apic core =? Apic.INVALID_ID)
    then {| Cpu.s_CoreIdByLapicId := upd (Cpu.s_CoreIdByLapicId c) (Apic.GetLocalApicId apic core) core;
            Cpu.s_CoreCount := u32 (Cpu.s_CoreCount c + 1); Cpu.s_OnlineCount := Cpu.s_OnlineCount c;
            Cpu.s_CoreOnline := Cpu.s_CoreOnline c |} else c)) as [-> ->]. by destruct (negb _).
Qed.

(** The first to arrive is the bootstrap processor. *)
Lemma first_is_boot s p : wf s -> known p -> may_run p s = true -> at_ (processors s p) = Counting ->
  (Cpu.s_OnlineCount (cpu s) =? 0) = (p =? boot).
Proof.
  intros W Hk Hrun Hc. rewrite (w_count s W). destruct (Z.eqb_spec p boot) as [->|Hn].
  - apply Z.eqb_eq. assert (counted s = []) as ->; [|done]. unfold counted.
    assert (H : Forall (fun q => at_ (processors s q) = Counting) table).
    { apply Forall_forall. intros q Hq%known_table. destruct (decide (q = boot)) as [->|]; [done|].
      apply (w_waiting s W); [done..|]. by rewrite Hc. }
    induction H as [|q l Hq H IH]; [done|]. rewrite filter_cons, decide_False; [done|by intros []].
  - apply Z.eqb_neq. unfold may_run in Hrun. apply orb_true_iff in Hrun as [H|H]; [by apply Z.eqb_eq in H|].
    apply bool_decide_eq_true_1 in H. assert (Hb : boot ∈ counted s).
    { apply list_elem_of_filter. split; [by rewrite H|by apply known_table]. }
    destruct (counted s); [by apply elem_of_nil in Hb|simpl; lia].
Qed.

Lemma counted_bound s p : p ∈ table -> at_ (processors s p) = Counting -> (length (counted s) < 8)%nat.
Proof.
  intros Hp Hc. set (x := {| at_ := Done; id := 0; device := device (processors s p); registers := registers (processors s p) |}).
  pose proof (counted_up s p x Hp Hc ltac:(done)) as H.
  pose proof (length_filter (fun q => at_ (upd (processors s) p x q) <> Counting) table) as Hf.
  assert (length table <= 8)%nat by (unfold table; rewrite length_take; change MAX with 8%nat; lia). lia.
Qed.

Lemma count_step s p : wf s -> known p -> may_run p s = true -> at_ (processors s p) = Counting ->
  exists s', advance p s = Ok s' /\ wf s'.
Proof.
  intros W Hk Hrun Est. pose proof (proj1 (known_table p) Hk) as Hpt. pose proof Hk as (i & Hi & Hp).
  unfold advance. rewrite Est. eexists. split; [reflexivity|]. rewrite (first_is_boot s p W Hk Hrun Est).
  pose proof (w_progress s W i p Hi Hp) as [P1 P2 P3 P4 P5].
  apply (good_step_wf s p i _ _ _ W Hi Hp Hrun). split; cbn [with_cpu cpu gdt at_ id device registers count_up
    Cpu.s_CoreIdByLapicId Cpu.s_CoreCount Cpu.s_OnlineCount Cpu.s_CoreOnline].
  - by apply (w_lapic s W).
  - by rewrite Est.
  - destruct (Z.eqb_spec p boot); done.
  - destruct (Z.eqb_spec p boot) as [->|Hn]; [rewrite upd_eq; simpl; lia|]. rewrite upd_ne by done. apply (w_numbered s W).
  - destruct (Z.eqb_spec p boot) as [->|Hn]; [|rewrite upd_ne by done; apply (w_fresh s W)]. intros _.
    apply (w_fresh s W). by rewrite Est.
  - rewrite (counted_up s p _ Hpt Est) by (simpl; by destruct (p =? boot)). rewrite (w_count s W).
    pose proof (counted_bound s p Hpt Est). rewrite wrap_small; [lia|]. unfold is_word. lia.
  - apply (w_table s W).
  - done.
  - done.
  - rewrite Est in P5. split; cbn [at_ cpu gdt id device registers Cpu.s_CoreOnline]; try (destruct (p =? boot); simpl; lia).
    rewrite <- P5. by destruct (p =? boot).
Qed.

Lemma number_step s p : wf s -> known p -> may_run p s = true -> at_ (processors s p) = Numbering ->
  exists s', advance p s = Ok s' /\ wf s'.
Proof.
  intros W Hk Hrun Est. pose proof Hk as (i & Hi & Hp). unfold advance. rewrite Est. eexists. split; [reflexivity|].
  pose proof (w_numbering s W p Hk Est) as ->. pose proof (w_progress s W i boot Hi Hp) as [P1 P2 P3 P4 P5].
  change (Z.to_nat Config.MAX_CORES) with MAX. destruct (Number_loop_keeps MAX 0 (cpu s)) as [K1 K2].
  assert (HF : Cpu.s_CoreCount (cpu s) = 0) by (apply (w_fresh s W); rewrite Est; done).
  destruct (Number_loop_ok apic ids MAX 0 (cpu s) Hids Hvalid Hnodup) as [N1 N2]; [lia|by rewrite HF|lia|].
  change (Z.of_nat 0) with 0 in N2. clear N1. generalize dependent (Cpu.Number_loop MAX apic 0 (cpu s)). intros c K1 K2 N2.
  apply (good_step_wf s boot i _ _ _ W Hi Hp Hrun). split; cbn [with_cpu cpu gdt at_ id device registers]; try done.
  - by apply (w_lapic s W).
  - by rewrite Est.
  - rewrite upd_eq. simpl. lia.
  - rewrite K1, (w_count s W), counted_same; [done|by rewrite Est|done].
  - apply (w_table s W).
  - by rewrite K2.
  - rewrite Est in P5. split; cbn [at_ cpu gdt id device registers]; try (simpl; lia). rewrite K2, <- P5. done.
Qed.

Lemma numbered_already s p : wf s -> known p -> may_run p s = true -> 2 <= rank (at_ (processors s p)) ->
  forall i q, (i < MAX)%nat -> ids !! i = Some q -> Cpu.GetId q (cpu s) = Z.of_nat i.
Proof.
  intros W Hk Hrun Hr. apply (w_numbered s W). unfold may_run in Hrun. apply orb_true_iff in Hrun as [H|H].
  - apply Z.eqb_eq in H. by subst.
  - apply bool_decide_eq_true_1 in H. by rewrite H.
Qed.

Lemma advance_ok s p : wf s -> known p -> may_run p s = true -> exists s', advance p s = Ok s' /\ wf s'.
Proof.
  intros W Hk Hrun. destruct (at_ (processors s p)) eqn:Est; [by apply count_step|by apply number_step|..];
    pose proof Hk as (i & Hi & Hp); pose proof (w_progress s W i p Hi Hp) as [P1 P2 P3 P4 P5];
    pose proof (w_lapic s W p Hk) as Hl;
    (assert (Hi' : 0 <= Z.of_nat i < Config.MAX_CORES) by (unfold Config.MAX_CORES; change MAX with 8%nat in Hi; lia));
    pose proof (w_table s W) as Ht; unfold advance; rewrite Est in *; simpl in P1, P2, P3, P4.
  - destruct (GetId_ok base (device (processors s p))) as (d & -> & Hd). cbn [obind]. rewrite Hl.
    eexists. split; [reflexivity|]. apply (later_step s p i _ _ _ W Hi Hp Hrun); try done; [by rewrite Est|simpl; by rewrite Hd|].
    split; simpl; try lia; [|by rewrite <- P5]. intros _. apply (numbered_already s p W Hk Hrun); [by rewrite Est|done..].
  - rewrite P1 by lia. destruct (Initialize_apic base _ (device (processors s p)) (logical_word (Z.of_nat i))) as (d & -> & Hd & Hr).
    cbn [obind]. eexists. split; [reflexivity|]. apply (later_step s p i _ _ _ W Hi Hp Hrun); try done; [by rewrite Est|simpl; by rewrite Hr|].
    split; simpl; try lia; [done|]. by rewrite <- P5.
  - rewrite P1 by lia. destruct (LoadTaskRegister_ok (Z.of_nat i) (gdt s) Hi' Ht) as (g & -> & Hg & Hi1 & Hi2).
    cbn [obind]. eexists. split; [reflexivity|]. apply (later_step s p i _ _ _ W Hi Hp Hrun); try done; [by rewrite Est|].
    split; simpl; try lia; [by intros _; apply P2|done|]. by rewrite <- P5.
  - rewrite P1 by lia. eexists. split; [reflexivity|]. apply (later_step s p i _ _ _ W Hi Hp Hrun); try done; [by rewrite Est|].
    split; simpl; [done|by intros _; apply P2|by intros _; apply P3|done|]. by rewrite <- P5.
  - rewrite P1 by lia. eexists. split; [reflexivity|]. apply (later_step s p i _ _ _ W Hi Hp Hrun); try done; [by rewrite Est| |].
    + intros j Hj. simpl. by rewrite upd_ne.
    + split; simpl; [done|by intros _; apply P2|by intros _; apply P3|by intros _; apply P4|]. by rewrite upd_eq.
  - exists s. done.
Qed.

Lemma start_wf s : start s -> wf s.
Proof.
  intros [S1 S2 S3 S4]. assert (Hk : forall p, known p -> is_word 8 p).
  { intros p (i & _ & Hp). by eapply (Forall_lookup_1 _ _ _ _ Hbytes). }
  split; intros; rewrite ?S3 in *; try done.
  - by apply S4, Hk.
  - by rewrite S1.
  - rewrite S1. unfold counted. assert (filter (fun p => at_ (processors s p) <> Counting) table = []) as ->; [|done].
    induction table as [|q l IH]; [done|]. rewrite filter_cons, decide_False; [done|by rewrite S3; intros []].
  - by rewrite S2.
  - split; rewrite ?S3; simpl; try lia. by rewrite S1.
Qed.

Lemma step_ok s p : wf s -> known p -> exists s', step p s = Ok s' /\ wf s'.
Proof.
  intros W Hk. unfold step. destruct (may_run p s) eqn:E; [by apply advance_ok|]. by exists s.
Qed.

Lemma cores_reachable_wf s : reachable s -> wf s.
Proof.
  induction 1 as [s H|s p s' H IH Hk E]; [by apply start_wf|].
  destruct (step_ok s p IH (listed_known p Hk)) as (s'' & E' & W). by rewrite E in E'; simplify_eq.
Qed.

Lemma done_set_up s i p : wf s -> (i < MAX)%nat -> ids !! i = Some p -> at_ (processors s p) = Done ->
  set_up (Z.of_nat i) (processors s p) (gdt s) /\ Cpu.IsOnline (Z.of_nat i) (cpu s) = true.
Proof.
  intros W Hi Hp Hd. destruct (w_progress s W i p Hi Hp) as [P1 P2 P3 P4 P5]. rewrite Hd in *. simpl in P1, P2, P3, P4.
  destruct P3 as [T1 T2 T3 T4]; [lia|]. split.
  { split; try done; [by apply P1|by apply P2|exists (TssDescriptor.low_word (tss_at (Z.of_nat i))), (Z.shiftr (tss_at (Z.of_nat i)) 32)|by apply P4].
    split; [done|]. split; [done|]. by apply TssDescriptor.tss_reads_back. }
  unfold Cpu.IsOnline. rewrite (proj1 P5 eq_refl), andb_true_r. apply Z.ltb_lt. unfold Config.MAX_CORES.
  change MAX with 8%nat in Hi. lia.
Qed.

#[local] Opaque Cpu.Number_loop.

(** No step waits for another processor once the first is through. *)
Lemma step_moves s p : wf s -> known p -> may_run p s = true -> at_ (processors s p) <> Done ->
  exists s', step p s = Ok s' /\ rank (at_ (processors s p)) < rank (at_ (processors s' p)) /\
    forall q, q <> p -> processors s' q = processors s q.
Proof.
  intros W Hk Hrun Hn. destruct (step_ok s p W Hk) as (s' & E & _). exists s'. split; [done|].
  unfold step in E. rewrite Hrun in E. unfold advance in E.
  assert (Hup : forall s0 x, processors s0 = processors s -> rank (at_ (processors s p)) < rank (at_ x) ->
    rank (at_ (processors s p)) < rank (at_ (processors (update s0 p x) p)) /\
    forall q, q <> p -> processors (update s0 p x) q = processors s q).
  { intros s0 x E0 Hx. simpl. rewrite E0, upd_eq. split; [done|]. intros q Hq. by apply upd_ne. }
  destruct (at_ (processors s p)) eqn:Est; try done.
  all: repeat (apply obind_Ok in E as ([] & _ & E)).
  all: injection E as <-; apply Hup; [done|cbn [at_]; try done]. by destruct (_ =? 0).
Qed.

Lemma logical_apart i j : i <> j -> 0 <= i -> 0 <= j ->
  Z.land (Apic.GetLogicalApicId i) (Apic.GetLogicalApicId j) = 0.
Proof.
  intros Hn Hi Hj. unfold Apic.GetLogicalApicId. destruct (Z.ltb_spec i Config.MAX_CORES); [|apply Z.land_0_l].
  destruct (Z.ltb_spec j Config.MAX_CORES); [|apply Z.land_0_r]. unfold Config.MAX_CORES in *. apply Z.bits_inj'. intros k Hk.
  rewrite Z.land_spec, Z.bits_0, !testbit_wrap, !Z.shiftl_1_l by lia. rewrite !Z.pow2_bits_eqb by lia.
  destruct (Z.eqb_spec i k), (Z.eqb_spec j k); rewrite ?andb_false_r; try done. lia.
Qed.

(** C23: on a machine with at most MAX_CORES (eight) processors, in whatever order they take their
    steps, no step of [Cpu::Initialize] fails and a processor that may run gets on without waiting
    for another; a processor that is through is the core ACPI listed it as, is marked online under
    that number, has its local APIC enabled under the logical id of that number, its task register
    on a descriptor of its own task state segment with its own emergency stack, and its system call
    registers on its own area; nobody is marked online before; [CountOnline] is the number of
    processors that have arrived; and no two logical ids share a bit.  With more processors the
    broadcast of [SmpBoot] starts those without a number too; they run as core 0 and share what is
    core 0's ([Startup.unnumbered_core_is_core_zero]). *)
Theorem cores_set_up_separately s : reachable s ->
  (forall p, listed p -> exists s', step p s = Ok s' /\
    (may_run p s = true -> at_ (processors s p) <> Done -> rank (at_ (processors s p)) < rank (at_ (processors s' p)))) /\
  (forall i p, ids !! i = Some p ->
    (at_ (processors s p) = Done <-> Cpu.IsOnline (Z.of_nat i) (cpu s) = true) /\
    (at_ (processors s p) = Done -> set_up (Z.of_nat i) (processors s p) (gdt s))) /\
  Cpu.CountOnline (cpu s) = Z.of_nat (length (counted s)) /\
  (forall i j, i <> j -> 0 <= i -> 0 <= j -> Z.land (Apic.GetLogicalApicId i) (Apic.GetLogicalApicId j) = 0).
Proof.
  intros W%cores_reachable_wf. split; [|split; [|split; [apply (w_count s W)|apply logical_apart]]].
  - intros p Hk%listed_known. destruct (step_ok s p W Hk) as (s' & E & _). exists s'. split; [done|]. intros Hrun Hn.
    destruct (step_moves s p W Hk Hrun Hn) as (s'' & E' & H & _). by rewrite E in E'; simplify_eq.
  - intros i p Hp. assert (Hi : (i < MAX)%nat) by (apply lookup_lt_Some in Hp; lia). split; [|intros Hd; exact (proj1 (done_set_up s i p W Hi Hp Hd))]. split; intros H; [exact (proj2 (done_set_up s i p W Hi Hp H))|].
    apply (pr_online _ _ _ (w_progress s W i p Hi Hp)). unfold Cpu.IsOnline in H. by apply andb_true_iff in H as [_ H].
Qed.

Fixpoint run (l : list Z) (s : t) : outcome t :=
  match l with [] => Ok s | p :: l => let* s := step p s in run l s end.
Lemma run_reachable l s s' : reachable s -> Forall listed l -> run l s = Ok s' -> reachable s'.
Proof.
  intros Hs Hl. revert s Hs. induction Hl as [|p l Hp Hl IH]; intros s Hs E; cbn [run] in E; [by simplify_eq|].
  apply obind_Ok in E as (s1 & E1 & E). apply (IH s1); [|done]. by apply (reach_step s p).
Qed.
End Machine.

(** ** Witness: two processors, the second one interleaved with itself only *)

#[local] Instance flat_registers : Hardware (Z -> Z) := {
  port_in w p d := (0, d); port_out w p v d := d; mmio_read a d := (d a, d); mmio_write a v d := upd d a v }.

Lemma used_apart base i j : used i = true -> used j = true -> i <> j -> base +64 j <> base +64 i.
Proof.
  unfold used. rewrite !bool_decide_eq_true. intros Hi Hj Hn E.
  assert (Hb : forall k : Z, k ∈ setup_registers -> 0 <= k < 1024).
  { intros k Hk. revert k Hk. apply Forall_forall. repeat constructor; unfold LocalApic.IDENTIFICATION, LocalApic.TASK_PRIORITY,
      LocalApic.LOGICAL_DESTINATION, LocalApic.DESTINATION_FORMAT, LocalApic.SPURIOUS_INTERRUPT_VECTOR; lia. }
  pose proof (Hb i Hi). pose proof (Hb j Hj). unfold wrap in E.
  pose proof (Z.div_mod (base + i) (2 ^ 64) ltac:(lia)). pose proof (Z.div_mod (base + j) (2 ^ 64) ltac:(lia)). nia.
Qed.

#[local] Instance flat_block (base : Z) : ApicBlock (Z -> Z) base.
Proof.
  refine {| reg := fun i d => d (base +64 i) |}; intros; cbn; rewrite ?upd_eq; try done. apply upd_ne. by apply used_apart.
Defined.

Definition demo_apic : Apic.t :=
  {| Apic.IoApicId := 0; Apic.IoApicAddress := 0; Apic.InterruptBase := 0; Apic.s_PinMap := []; Apic.s_LocalApicId := padded [4; 2];
     Apic.s_LocalApicCount := 2; Apic.s_BaseAddress := 0xfee00000 |}.
Definition demo_registers : Entry.cpu :=
  {| Entry.gpr := fun _ => 0; Entry.rip := 0; Entry.rflags := 0; Entry.cs := 0; Entry.ss := 0; Entry.ds := 0; Entry.es := 0;
     Entry.gs_base := 0; Entry.KERNEL_GS_BASE := 0; Entry.EFER := 0; Entry.STAR := 0; Entry.LSTAR := 0; Entry.SFMASK := 0;
     Entry.memory := fun _ => 0 |}.
Definition demo_start : t (D := Z -> Z) :=
  {| cpu := Cpu.Boot;
     gdt := {| Gdt.table := Gdt.s_LongMode; Gdt.s_TaskState := fun _ => {| Gdt.Rsp0 := 0; Gdt.Ist1 := 0; Gdt.IoMapBase := 0 |};
               Gdt.task_register := fun _ => 0 |};
     processors := fun p => {| at_ := Counting; id := 0; device := fun _ => Z.shiftl p 24; registers := demo_registers |} |}.
Definition demo_tss (i : Z) : Z := u64 (0x140000 + 104 * i).
Definition demo_stack (i : Z) : Z := 0x150000 + 0x2000 * i.
Definition demo_area (i : Z) : Z := 0x180000 + 64 * i.
#[local] Instance demo_build : Build := { NDEBUG := false }.
Definition demo_order : list Z := replicate 7 4 ++ replicate 6 2.
#[local] Notation demo_run := (run 0xfee00000 demo_apic 4 demo_tss demo_stack demo_area 0x100400 demo_order demo_start).

Lemma demo_ran : match demo_run with Ok s => bool_decide (at_ (processors s 2) = Done) && (Cpu.CountOnline (cpu s) =? 2) | _ => false end = true.
Proof. vm_compute. reflexivity. Qed.

Lemma demo_listed : Forall (listed [4; 2]) demo_order.
Proof. change (Forall (fun p => p ∈ [4; 2]) demo_order). refine (bool_decide_eq_true_1 _ _); reflexivity. Qed.

Lemma cores_set_up_separately_witness : exists s, demo_run = Ok s /\ Cpu.IsOnline 1 (cpu s) = true /\
  set_up 0xfee00000 demo_tss demo_stack demo_area 0x100400 1 (processors s 2) (gdt s).
Proof.
  pose proof demo_ran as H. destruct demo_run as [s| | | |] eqn:E; try discriminate H.
  apply andb_true_iff in H as [H _]. apply bool_decide_eq_true_1 in H. exists s. split; [reflexivity|].
  destruct (cores_set_up_separately 0xfee00000 demo_apic 4 demo_tss demo_stack demo_area 0x100400 [4; 2]) with (s := s) as (_ & C & _).
  - reflexivity.
  - refine (bool_decide_eq_true_1 _ _); reflexivity.
  - refine (bool_decide_eq_true_1 _ _); reflexivity.
  - exists 0%nat. split; [vm_compute; lia|reflexivity].
  - repeat constructor; discriminate.
  - intros i. by apply wrap_range.
  - vm_compute. lia.
  - apply (run_reachable _ _ _ _ _ _ _ _ demo_order demo_start); [|  |exact E].
    + constructor. split; [reflexivity|reflexivity|reflexivity|]. intros p Hp. cbn. unfold Field.get. rewrite Z.shiftr_shiftl_l by lia.
      rewrite Z.shiftl_0_r. by apply wrap_small.
    + exact demo_listed.
  - destruct (C 1%nat 2) as [C1 C2]; [reflexivity|]. split; [by apply C1|by apply C2].
Defined.

End CoreInit.
