(* ===== verification/Processor.v ===== *)
(** * Arch/CpuId.h, Msr.h, ControlRegister.h, CpuInterrupt.h: the processor's own registers

    What CPUID answers is a parameter; model specific registers, control registers and the flags
    are state.  Put together with the boot assembly and the page tables: which protections are
    switched on on which processor. *)

From S2P Require Import Prelude Mem Config Frame FrameSpec FrameInterface Paging PagingSpec AddressSpace LongMode Syscall Entry Traps.

(** ** Arch/CpuId.h *)

Module CpuId.

Record Result := { Eax : Z; Ebx : Z; Ecx : Z; Edx : Z }.

Definition BASIC_INFO : Z := 0x0.
Definition FEATURES : Z := 0x1.
Definition EXTENDED_MAX : Z := 0x80000000.
Definition EXTENDED_FEATURES : Z := 0x80000001.

Inductive FeatureEdx := FPU | PSE | TSC | MSR | PAE | APIC | PGE | MMX | SSE | SSE2.
Definition edx_bit (f : FeatureEdx) : Z :=
  match f with FPU => 0 | PSE => 3 | TSC => 4 | MSR => 5 | PAE => 6 | APIC => 9 | PGE => 13 | MMX => 23 | SSE => 25 | SSE2 => 26 end.
Inductive FeatureEcx := SSE3 | SSSE3 | SSE4_1 | SSE4_2 | X2APIC | TSC_DEADLINE | XSAVE | HYPERVISOR.
Definition ecx_bit (f : FeatureEcx) : Z :=
  match f with SSE3 => 0 | SSSE3 => 9 | SSE4_1 => 19 | SSE4_2 => 23 | X2APIC => 21 | TSC_DEADLINE => 24 | XSAVE => 26 | HYPERVISOR => 31 end.
Inductive ExtendedFeatureEdx := NX | GB_PAGES | RDTSCP | LONG_MODE.
Definition extended_bit (f : ExtendedFeatureEdx) : Z :=
  match f with NX => 20 | GB_PAGES => 26 | RDTSCP => 27 | LONG_MODE => 29 end.
(** [ToUnderlying] of an enumerator. *)
Definition mask (bit : Z) : Z := Z.shiftl 1 bit.

Section Cpuid.
(** The instruction: leaf and sub-leaf. *)
Context (cpuid : Z -> Z -> Result).

Definition Query (InLeaf InSubLeaf : Z) : Result := cpuid InLeaf InSubLeaf.

Definition HasEdx (InFeature : FeatureEdx) : bool := negb (Z.land (Edx (Query FEATURES 0)) (mask (edx_bit InFeature)) =? 0).
Definition HasEcx (InFeature : FeatureEcx) : bool := negb (Z.land (Ecx (Query FEATURES 0)) (mask (ecx_bit InFeature)) =? 0).
Definition HasExtended (InFeature : ExtendedFeatureEdx) : bool :=
  if Eax (Query EXTENDED_MAX 0) <? EXTENDED_FEATURES then false
  else negb (Z.land (Edx (Query EXTENDED_FEATURES 0)) (mask (extended_bit InFeature)) =? 0).

(** The inner loop from [byte] on, [n] rounds, and the outer one over the words left. *)
Fixpoint Word_loop (n : nat) (OutVendor word byte value : Z) (m : mem) : mem :=
  match n with
  | O => m
  | S k => Word_loop k OutVendor word (byte + 1) value
             (store8 m (OutVendor + (word * 4 + byte)) (Z.land (Z.shiftr value (byte * 8)) 0xff))
  end.
Fixpoint Words_loop (words : list Z) (OutVendor word : Z) (m : mem) : mem :=
  match words with [] => m | value :: rest => Words_loop rest OutVendor (word + 1) (Word_loop 4 OutVendor word 0 value m) end.
Definition GetVendor (OutVendor : Z) (m : mem) : mem :=
  let result := Query BASIC_INFO 0 in
  store8 (Words_loop [Ebx result; Edx result; Ecx result] OutVendor 0 m) (OutVendor + 12) 0.

(** A feature is reported when its bit is set, the extended ones only by processors that have
    the leaf. *)
Lemma land_mask v bit : 0 <= bit -> negb (Z.land v (mask bit) =? 0) = Z.testbit v bit.
Proof.
  intros Hb. unfold mask. rewrite Z.shiftl_1_l. destruct (Z.testbit v bit) eqn:E.
  - apply negb_true_iff, Z.eqb_neq. intros H. assert (Z.testbit (Z.land v (2 ^ bit)) bit = false) by (by rewrite H, Z.bits_0).
    by rewrite Z.land_spec, E, Z.pow2_bits_true in H0.
  - apply negb_false_iff, Z.eqb_eq, Z.bits_inj'. intros i Hi. rewrite Z.land_spec, Z.pow2_bits_eqb, Z.bits_0 by lia.
    destruct (Z.eqb_spec bit i) as [->|]; [by rewrite E|apply andb_false_r].
Qed.
Lemma HasExtended_spec f : HasExtended f = negb (Eax (Query EXTENDED_MAX 0) <? EXTENDED_FEATURES) &&
  Z.testbit (Edx (Query EXTENDED_FEATURES 0)) (extended_bit f).
Proof. unfold HasExtended. rewrite land_mask by (by destruct f). by destruct (_ <? _). Qed.

(** ** The vendor string *)

Lemma store8_u8 m a v w : u8 v = u8 w -> store8 m a v = store8 m a w.
Proof. intros E. unfold store8. by rewrite E. Qed.

Lemma vendor_byte v k : 0 <= k -> u8 (Z.land (Z.shiftr v (k * 8)) 0xff) = u8 (v / 256 ^ k).
Proof.
  intros Hk. change 0xff with (Z.ones 8). rewrite Z.land_ones, Z.shiftr_div_pow2 by lia. unfold wrap.
  rewrite Z.mod_mod by lia. change 256 with (2 ^ 8). by rewrite <- Z.pow_mul_r, (Z.mul_comm k 8) by lia.
Qed.

Lemma Word_loop_store p word value m : Word_loop 4 p word 0 value m = store32 m (p + word * 4) value.
Proof.
  cbn [Word_loop]. change (store32 m (p + word * 4) value) with (store8 (store8 (store8 (store8 m (p + word * 4) value)
    (p + word * 4 + 1) (value / 256)) (p + word * 4 + 1 + 1) (value / 256 / 256)) (p + word * 4 + 1 + 1 + 1) (value / 256 / 256 / 256)).
  rewrite !Z.div_div by lia.
  assert (E : forall m k a b, 0 <= k -> a = b -> store8 m a (Z.land (Z.shiftr value (k * 8)) 0xff) = store8 m b (value / 256 ^ k)).
  { intros m' k a b Hk ->. by apply store8_u8, vendor_byte. }
  rewrite (E m 0 _ (p + word * 4)), (E _ (0 + 1) _ (p + word * 4 + 1)), (E _ (0 + 1 + 1) _ (p + word * 4 + 1 + 1)),
    (E _ (0 + 1 + 1 + 1) _ (p + word * 4 + 1 + 1 + 1)) by lia.
  by change (256 ^ 0) with 1; rewrite Z.div_1_r.
Qed.

(** The twelve letters, in the order ebx, edx, ecx, a terminator behind them, and nothing else
    is written. *)
Theorem vendor_string_exact p m : let m' := GetVendor p m in let r := Query BASIC_INFO 0 in
  load32 m' p = u32 (Ebx r) /\ load32 m' (p + 4) = u32 (Edx r) /\ load32 m' (p + 8) = u32 (Ecx r) /\
  load8 m' (p + 12) = 0 /\ forall a, a < p \/ p + 13 <= a -> load8 m' a = load8 m a.
Proof.
  cbv zeta. unfold GetVendor. cbn [Words_loop]. rewrite !Word_loop_store.
  replace (p + 0 * 4) with p by lia. replace (p + (0 + 1) * 4) with (p + 4) by lia. replace (p + (0 + 1 + 1) * 4) with (p + 8) by lia.
  assert (E8 : forall m v, store8 m (p + 12) v = store m (p + 12) 1 v) by done. rewrite E8.
  assert (Hs : forall m a v, load (store m a 4 v) a 4 = u32 v) by (intros; by rewrite load_store_same).
  split_and!.
  - rewrite !load_store_disj by lia. apply Hs.
  - rewrite !load_store_disj by lia. apply Hs.
  - rewrite load_store_disj by lia. apply Hs.
  - rewrite <- E8. by rewrite load8_store8_same.
  - intros a Ha. rewrite !load8_store_out by lia. done.
Qed.
End Cpuid.
End CpuId.

(** ** Arch/Msr.h *)

Module Msr.
(** The register file of a processor. *)
Definition file : Type := Z -> Z.

Definition PLATFORM_INFO : Z := 0xce.
Definition APIC_BASE : Z := 0x1b.
Definition TSC_DEADLINE : Z := 0x6e0.
Definition EFER : Z := 0xc0000080.
Definition STAR : Z := 0xc0000081.
Definition LSTAR : Z := 0xc0000082.
Definition SFMASK : Z := 0xc0000084.
Definition FS_BASE : Z := 0xc0000100.
Definition GS_BASE : Z := 0xc0000101.
Definition KERNEL_GS_BASE : Z := 0xc0000102.

(** The instructions: the halves in [eax] and [edx]. *)
Definition rdmsr (f : file) (ecx : Z) : Z * Z := (u32 (f ecx), u32 (Z.shiftr (f ecx) 32)).
Definition wrmsr (f : file) (ecx eax edx : Z) : file := upd f ecx (Z.lor (Z.shiftl edx 32) eax).

Definition Read (INDEX : Z) (f : file) : Z := let '(low, high) := rdmsr f INDEX in Z.lor (Z.shiftl high 32) low.
Definition Write (INDEX InValue : Z) (f : file) : file := wrmsr f INDEX (u32 InValue) (u32 (Z.shiftr InValue 32)).

Lemma halves v : is_word 64 v -> Z.lor (Z.shiftl (u32 (Z.shiftr v 32)) 32) (u32 v) = v.
Proof.
  intros Hv. apply Z.bits_inj'. intros i Hi. rewrite Z.lor_spec, testbit_wrap by lia.
  destruct (Z.ltb_spec i 32).
  - rewrite Z.shiftl_spec_low by lia. cbn [orb andb]. done.
  - rewrite Z.shiftl_spec, testbit_wrap, Z.shiftr_spec by lia. cbn [andb]. rewrite orb_false_r. replace (i - 32 + 32) with i by lia.
    destruct (Z.ltb_spec (i - 32) 32); cbn [andb]; [done|]. symmetry. apply (testbit_above 64); [done|lia].
Qed.

(** A register holds 64 bits; a write is read back and leaves the others alone. *)
Lemma Read_file i f : is_word 64 (f i) -> Read i f = f i.
Proof. apply halves. Qed.
Lemma Write_file i v f j : is_word 64 v -> Write i v f j = if j =? i then v else f j.
Proof. intros Hv. unfold Write, wrmsr, upd. destruct (j =? i); [by apply halves|done]. Qed.

(** [Syscall::Initialize] as its register writes; [area] is the address of the core's area. *)
Definition SyscallInitialize (entry area : Z) (f : file) : file :=
  let f := Write EFER (Z.lor (Read EFER f) Entry.EFER_SCE) f in
  let f := Write STAR Syscall.STAR_VALUE f in
  let f := Write LSTAR entry f in
  let f := Write SFMASK Syscall.MASKED_FLAGS f in
  Write KERNEL_GS_BASE area f.

(** The five registers of Entry.v are these. *)
Definition holds (f : file) (c : Entry.cpu) : Prop :=
  f EFER = Entry.EFER c /\ f STAR = Entry.STAR c /\ f LSTAR = Entry.LSTAR c /\ f SFMASK = Entry.SFMASK c /\
  f KERNEL_GS_BASE = Entry.KERNEL_GS_BASE c.

Lemma lor_word w a b : 0 <= w -> is_word w a -> is_word w b -> is_word w (Z.lor a b).
Proof.
  unfold is_word. intros Hw Ha Hb. split; [apply Z.lor_nonneg; lia|].
  destruct (Z.eq_dec (Z.lor a b) 0) as [->|]; [apply Z.pow_pos_nonneg; lia|].
  apply Z.log2_lt_pow2; [pose proof (proj2 (Z.lor_nonneg a b)); lia|]. rewrite Z.log2_lor by lia.
  destruct (Z.eq_dec w 0) as [->|]; [exfalso; replace a with 0 in * by lia; replace b with 0 in * by lia; done|].
  apply Z.max_lub_lt; [destruct (Z.eq_dec a 0) as [->|]|destruct (Z.eq_dec b 0) as [->|]]; try (simpl; lia); apply Z.log2_lt_pow2; lia.
Qed.

Theorem syscall_registers_programmed entry area f c : holds f c -> is_word 64 (Entry.EFER c) -> is_word 64 entry -> is_word 64 area ->
  holds (SyscallInitialize entry area f) (Entry.Initialize entry area c) /\
  forall j, j ∉ [EFER; STAR; LSTAR; SFMASK; KERNEL_GS_BASE] -> SyscallInitialize entry area f j = f j.
Proof.
  intros (H1 & H2 & H3 & H4 & H5) He Hn Ha. unfold SyscallInitialize.
  assert (Hw : is_word 64 (Z.lor (Read EFER f) Entry.EFER_SCE)).
  { apply lor_word; [lia|by rewrite Read_file; rewrite H1|done]. }
  split.
  - unfold holds. rewrite !Write_file by done. rewrite Read_file by (by rewrite H1). cbn. by rewrite H1.
  - intros j Hj. rewrite !Write_file by done. repeat (rewrite elem_of_cons in Hj).
    by rewrite !(proj2 (Z.eqb_neq _ _)) by (intros ->; tauto).
Qed.
End Msr.

(** ** Arch/CpuInterrupt.h *)

Module Interrupt.
Definition FLAG_ENABLE : Z := Z.shiftl 1 9.

Definition IsEnabled (flags : Z) : bool := negb (Z.land flags FLAG_ENABLE =? 0).
Definition Enable (flags : Z) : Z := Z.lor flags FLAG_ENABLE.
Definition Disable (flags : Z) : bool * Z := (IsEnabled flags, Z.ldiff flags FLAG_ENABLE).
Definition Restore (InWasEnabled : bool) (flags : Z) : Z := if InWasEnabled then Enable flags else flags.

(** Sections under the RAII class [Guard]: what runs inside is plain code, which sees the flags,
    and further sections. *)
Inductive block := Plain | Guarded (body : list block).

(** The flags that plain code saw, and the flags behind. *)
Fixpoint run (b : block) (flags : Z) : list Z * Z :=
  match b with
  | Plain => ([flags], flags)
  | Guarded body =>
      let '(m_WasEnabled, flags) := Disable flags in
      let '(seen, flags) := (fix runs (l : list block) (flags : Z) : list Z * Z :=
        match l with
        | [] => ([], flags)
        | b :: l => let '(s1, flags) := run b flags in let '(s2, flags) := runs l flags in (s1 ++ s2, flags)
        end) body flags in
      (seen, Restore m_WasEnabled flags)
  end.

Lemma IsEnabled_bit flags : IsEnabled flags = Z.testbit flags 9.
Proof. apply (CpuId.land_mask flags 9). lia. Qed.

Lemma Disable_Restore flags : Restore (Disable flags).1 (Disable flags).2 = flags.
Proof.
  unfold Disable, Restore. cbn [fst snd]. rewrite IsEnabled_bit. unfold Enable, FLAG_ENABLE. rewrite Z.shiftl_1_l.
  destruct (Z.testbit flags 9) eqn:E; apply Z.bits_inj'; intros i Hi; rewrite ?Z.lor_spec, Z.ldiff_spec, ?Z.pow2_bits_eqb by lia.
  - destruct (Z.eqb_spec 9 i) as [<-|]; [by rewrite E|]. by rewrite andb_true_r, orb_false_r.
  - destruct (Z.eqb_spec 9 i) as [<-|]; [by rewrite E|]. apply andb_true_r.
Qed.

Lemma Disable_off flags : IsEnabled (Disable flags).2 = false.
Proof. rewrite IsEnabled_bit. cbn [Disable snd]. rewrite Z.ldiff_spec. unfold FLAG_ENABLE. rewrite Z.shiftl_1_l, Z.pow2_bits_true by lia. apply andb_false_r. Qed.

Fixpoint runs (l : list block) (flags : Z) : list Z * Z :=
  match l with
  | [] => ([], flags)
  | b :: l => let '(s1, flags) := run b flags in let '(s2, flags) := runs l flags in (s1 ++ s2, flags)
  end.
Lemma run_Guarded body flags : run (Guarded body) flags =
  ((runs body (Disable flags).2).1, Restore (Disable flags).1 (runs body (Disable flags).2).2).
Proof. cbn [run Disable fst snd]. change (fix runs (l : list block) (flags : Z) {struct l} := _) with runs. by destruct (runs body _). Qed.

(** Disabling and restoring nest: whatever a section contains, the flags behind it are the ones
    in front of it, and everything inside runs with interrupts off. *)
Lemma run_nests (b : block) : forall flags, (run b flags).2 = flags /\
  (IsEnabled flags = false -> Forall (fun f => IsEnabled f = false) (run b flags).1).
Proof.
  induction b as [|body IH] using (fix ind (P : block -> Prop) (H1 : P Plain) (H2 : forall l, Forall P l -> P (Guarded l)) (b : block) : P b :=
    match b with Plain => H1 | Guarded l => H2 l ((fix all (l : list block) : Forall P l :=
      match l with [] => Forall_nil_2 P | x :: l => Forall_cons_2 P x l (ind P H1 H2 x) (all l) end) l) end).
  - intros flags. split; [done|]. intros H. by repeat constructor.
  - assert (Hs : forall flags, (runs body flags).2 = flags /\
      (IsEnabled flags = false -> Forall (fun f => IsEnabled f = false) (runs body flags).1)).
    { induction IH as [|b l Hb Hl IH]; intros flags; [done|]. cbn [runs]. specialize (Hb flags).
      destruct (run b flags) as [s1 f1]. simpl in Hb. destruct Hb as [-> Hb]. specialize (IH flags).
      destruct (runs l flags) as [s2 f2]. simpl in *. destruct IH as [-> IH]. split; [done|]. intros H. apply Forall_app. auto. }
    intros flags. rewrite run_Guarded. cbn [fst snd]. destruct (Hs (Disable flags).2) as [-> H]. split; [apply Disable_Restore|].
    intros _. apply H, Disable_off.
Qed.

Theorem interrupt_guards_nest body flags : (run (Guarded body) flags).2 = flags /\
  Forall (fun f => IsEnabled f = false) (run (Guarded body) flags).1.
Proof.
  split; [apply run_nests|]. rewrite run_Guarded. cbn [fst].
  assert (H : forall l f, IsEnabled f = false -> Forall (fun f => IsEnabled f = false) (runs l f).1).
  { induction l as [|b l IH]; intros f Hf; [constructor|]. cbn [runs]. destruct (run_nests b f) as [E1 E2].
    destruct (run b f) as [s1 f1]. simpl in E1, E2. subst f1. specialize (IH f Hf). destruct (runs l f) as [s2 f2]. apply Forall_app. auto. }
  apply H, Disable_off.
Qed.
End Interrupt.

(** ** Which protections are on *)

Module Protection.

(** [lgdt] and [lidt]: limit and base. *)
Record table_register := { Limit : Z; Base : Z }.
Definition Pointer (count size base : Z) : table_register := {| Limit := u16 (count * size - 1); Base := base |}.
(** [Gdt::Load] and [Idt::Load] with the addresses of the two tables. *)
Definition GdtLongModePointer (base : Z) : table_register := Pointer (Z.of_nat (length Gdt.s_LongMode)) 8 base.
Definition IdtRegister (base : Z) : table_register := Pointer 256 16 base.
(** The processor finds an [n] byte descriptor at an offset. *)
Definition within (r : table_register) (offset n : Z) : bool := offset + n - 1 <=? Limit r.

(** Every vector and no more is in the interrupt table; every selector, and the descriptors of
    all task state segments, are in the other. *)
Lemma tables_covered base :
  (forall v, 0 <= v -> within (IdtRegister base) (16 * v) 16 = (v <? 256)) /\
  (forall sel, 0 <= sel -> sel mod 8 = 0 -> within (GdtLongModePointer base) sel 8 = (sel <? 176)) /\
  (forall core, 0 <= core < Config.MAX_CORES -> within (GdtLongModePointer base) (Gdt.FIRST_TSS + 16 * core) 16 = true).
Proof.
  unfold within. change (Limit (IdtRegister base)) with 4095. change (Limit (GdtLongModePointer base)) with 175.
  unfold Config.MAX_CORES, Gdt.FIRST_TSS. split_and!; intros.
  - lia.
  - pose proof (Z.div_mod sel 8 ltac:(lia)). lia.
  - lia.
Qed.

(** The trampoline's change of CR0. *)
Definition StartAp (cr0 : Z) : Z := Z.lor cr0 1.

(** An application processor on its way into the kernel's tables: trampoline, then long mode;
    [root] is [KernelPageTableRoot]. *)
Definition Enters (cpuid : Z -> Z -> CpuId.Result) (T : LongMode.tables) (root : Z) (m : mem) (c : LongMode.control) : LongMode.control :=
  (LongMode.Enter T root (CpuId.Edx (cpuid CpuId.EXTENDED_FEATURES 0))
     (m, {| LongMode.CR0 := StartAp (LongMode.CR0 c); LongMode.CR3 := LongMode.CR3 c; LongMode.CR4 := LongMode.CR4 c;
            LongMode.EFER := LongMode.EFER c |})).2.

Lemma Enters_eq cpuid T root m c : 0 < root < 2 ^ 32 ->
  Enters cpuid T root m c = LongMode.EnablePaging root (CpuId.Edx (cpuid CpuId.EXTENDED_FEATURES 0))
     {| LongMode.CR0 := StartAp (LongMode.CR0 c); LongMode.CR3 := LongMode.CR3 c; LongMode.CR4 := LongMode.CR4 c;
        LongMode.EFER := LongMode.EFER c |}.
Proof.
  intros Hr. unfold Enters, LongMode.Enter. rewrite (wrap_small 32 root) by (unfold is_word; lia).
  by rewrite (proj2 (Z.eqb_neq root 0)) by lia.
Qed.

(** How the processor treats an entry of a page table: bit 63 is reserved unless no-execute is
    enabled, and ring 0 writes through a read-only page unless write protection is. *)
Definition legal (efer entry : Z) : bool := negb (Z.testbit entry 63) || Z.testbit efer 11.
Definition ring0_writes (cr0 entry : Z) : bool := Z.testbit entry 1 || negb (Z.testbit cr0 16).

Section Boot.
Context {F : Type} `{FL : FrameAllocatorLaws F} `{BI : BootInfo} {B : Build} (M : Paging.machine).
Context (cpuid : Z -> Z -> CpuId.Result).

Lemma nx_bits s0 s w e : AddressSpace.machine_ok M -> AddressSpace.live M s0 s -> 0 <= w -> PagingSpec.mapping s w = Some e ->
  Z.testbit e 63 = true -> Paging.HasNX M = true.
Proof.
  intros HM HL Hw E H63. rewrite (AddressSpace.lv_map _ _ _ HL w Hw) in E.
  pose proof (AddressSpace.layout_whole M HM) as HW.
  apply AddressSpace.paints_some in E as (x & Hx & Hc & ->); [|done].
  assert (Wx : AddressSpace.whole x) by (by eapply Forall_forall).
  rewrite Z.lor_spec, AddressSpace.kernel_flags_bits in H63 by lia.
  rewrite (PagingSpec.frame_bits _ _ (AddressSpace.target_frame x w Wx Hc)) in H63 by lia.
  destruct (Paging.HasNX M); [done|]. by cbn in H63.
Qed.

Lemma EnablePaging_on root features c :
  let c' := LongMode.EnablePaging root features c in
  LongMode.CR3 c' = root /\ Z.testbit (LongMode.CR0 c') 31 = true /\ Z.testbit (LongMode.CR4 c') 5 = true /\
  Z.testbit (LongMode.EFER c') 8 = true /\ (Z.testbit features 20 = true -> Z.testbit (LongMode.EFER c') 11 = true).
Proof.
  cbv zeta. unfold LongMode.EnablePaging. cbn [LongMode.CR3 LongMode.CR0 LongMode.CR4 LongMode.EFER].
  assert (Hf : (Z.land features LongMode.CPUID_NX_BIT =? 0) = negb (Z.testbit features 20)).
  { rewrite <- (CpuId.land_mask features 20), negb_involutive by lia. done. }
  rewrite Hf. split_and!; [done|by rewrite Z.lor_spec, orb_true_r..| |].
  - destruct (Z.testbit features 20); cbn [negb]; rewrite !Z.lor_spec; change (Z.testbit LongMode.EFER_LME 8) with true; btauto.
  - intros ->. cbn [negb]. by rewrite Z.lor_spec, orb_true_r.
Qed.

(** C24: no processor runs on page tables it cannot read, and the first one honours their
    protection.  When [Paging::Initialize] returns on a processor whose CPUID answers decide about
    no-execute, then there no entry has a reserved bit set, and ring 0 can write only where the
    tables say so.  Every application processor that reports the same feature leaves the boot
    assembly with paging in long mode on the same root, and no entry has a bit set that is reserved
    for it either. *)
Theorem no_execute_enabled_where_used s0 s : AddressSpace.machine_ok M -> fa_inv (Paging.frames s0) -> 0 <= Paging.s_MappedRamEnd s0 ->
  Paging.HasNX M = CpuId.HasExtended cpuid CpuId.NX -> Paging.Initialize M s0 = Ok s -> Paging.s_Root s < 2 ^ 32 ->
  (forall w e, 0 <= w -> PagingSpec.mapping s w = Some e ->
    legal (Paging.EFER s) e = true /\ ring0_writes (Paging.CR0 s) e = Z.testbit e 1) /\
  forall cpuid' T m c, CpuId.HasExtended cpuid' CpuId.NX = CpuId.HasExtended cpuid CpuId.NX ->
    let c' := Enters cpuid' T (Paging.KernelPageTableRoot s) m c in
    LongMode.CR3 c' = Paging.CR3 s /\ Z.testbit (LongMode.CR0 c') 31 = true /\ Z.testbit (LongMode.CR4 c') 5 = true /\
    Z.testbit (LongMode.EFER c') 8 = true /\
    forall w e, 0 <= w -> PagingSpec.mapping s w = Some e -> legal (LongMode.EFER c') e = true.
Proof.
  intros HM Hf He Hx E Hr. destruct (AddressSpace.Initialize_live M s0 HM Hf He) as [[[_ [HP|HP]]|[_ HP]]|(s' & E' & HL)];
    [congruence..|]. assert (s' = s) as -> by congruence. clear E'.
  destruct (AddressSpace.lv_root _ _ _ HL) as [R1 R2]. destruct (AddressSpace.lv_protect _ _ _ HL) as [P1 P2].
  destruct (AddressSpace.lv_tree _ _ _ HL) as [own Ht].
  assert (Hpos : 0 < Paging.s_Root s) by (apply (PagingSpec.tr_own _ _ Ht _ _ _ (PagingSpec.tr_root _ _ Ht))).
  split.
  - intros w e Hw Em. split.
    + unfold legal. destruct (Z.testbit e 63) eqn:H63; [|done]. rewrite P2, (nx_bits s0 s w e HM HL Hw Em H63).
      by rewrite Z.lor_spec, orb_true_r.
    + unfold ring0_writes. rewrite P1, Z.lor_spec. change (Z.testbit Paging.CR0_WP 16) with true. by rewrite orb_true_r, orb_false_r.
  - intros cpuid' T m c Hsame. cbv zeta. rewrite R2, Enters_eq by lia.
    destruct (EnablePaging_on (Paging.s_Root s) (CpuId.Edx (cpuid' CpuId.EXTENDED_FEATURES 0))
      {| LongMode.CR0 := StartAp (LongMode.CR0 c); LongMode.CR3 := LongMode.CR3 c; LongMode.CR4 := LongMode.CR4 c;
         LongMode.EFER := LongMode.EFER c |}) as (A1 & A2 & A3 & A4 & A5).
    split_and!; [congruence|done..|]. intros w e Hw Em. unfold legal. destruct (Z.testbit e 63) eqn:H63; [|done]. apply A5.
    pose proof (nx_bits s0 s w e HM HL Hw Em H63) as Hn. rewrite Hx, <- Hsame, CpuId.HasExtended_spec in Hn.
    by apply andb_true_iff in Hn as [_ Hn].
Qed.
End Boot.

(** Write protection is switched on by [Paging::Activate] alone, which the application processors
    do not run: they start with the bit clear (INIT leaves 0x60000010 in CR0), and nothing on their
    way sets it, so ring 0 writes through every read-only mapping on them. *)
Theorem application_processors_ignore_read_only cpuid T root m c : 0 < root < 2 ^ 32 -> Z.testbit (LongMode.CR0 c) 16 = false ->
  forall e, ring0_writes (LongMode.CR0 (Enters cpuid T root m c)) e = true.
Proof.
  intros Hr Hc e. rewrite Enters_eq by done. unfold ring0_writes, LongMode.EnablePaging, StartAp. cbn [LongMode.CR0].
  rewrite !Z.lor_spec, Hc. change (Z.testbit LongMode.CR0_PG 16) with false. change (Z.testbit 1 16) with false. apply orb_true_r.
Qed.

(** ** Witness: a processor with no-execute, and one that follows *)

#[local] Existing Instance FrameSpec.debug_build.
#[local] Existing Instance AddressSpace.demo_boot.
Definition demo_cpuid (leaf sub : Z) : CpuId.Result :=
  if leaf =? CpuId.EXTENDED_MAX then {| CpuId.Eax := 0x80000008; CpuId.Ebx := 0; CpuId.Ecx := 0; CpuId.Edx := 0 |}
  else {| CpuId.Eax := 0; CpuId.Ebx := 0; CpuId.Ecx := 0; CpuId.Edx := 0x20100000 |}.
Definition demo_reset : LongMode.control := {| LongMode.CR0 := 0x60000010; LongMode.CR3 := 0; LongMode.CR4 := 0; LongMode.EFER := 0 |}.
Definition demo_tables : LongMode.tables :=
  {| LongMode.Level4 := 0x1000; LongMode.Level3 := 0x2000; LongMode.Level3High := 0x3000; LongMode.Level2 := 0x4000 |}.
Definition demo_boots (s : Paging.t Frame.Frame.t) : bool :=
  (Paging.s_Root s <? 2 ^ 32) &&
  bool_decide (PagingSpec.mapping s 0xFFFFFFFF81003000 = Some (Z.lor 0x1003003 (2 ^ 63))).

Lemma no_execute_enabled_where_used_witness :
  exists s, Paging.Initialize AddressSpace.demo_layout AddressSpace.demo_state = Ok s /\
    PagingSpec.mapping s 0xFFFFFFFF81003000 = Some (Z.lor 0x1003003 (2 ^ 63)) /\
    legal (Paging.EFER s) (Z.lor 0x1003003 (2 ^ 63)) = true /\
    legal (LongMode.EFER (Enters demo_cpuid demo_tables (Paging.KernelPageTableRoot s) (Paging.memory s) demo_reset))
      (Z.lor 0x1003003 (2 ^ 63)) = true.
Proof.
  assert (E : match Paging.Initialize AddressSpace.demo_layout AddressSpace.demo_state with Ok s => demo_boots s | _ => false end = true)
    by (vm_compute; reflexivity).
  destruct (Paging.Initialize AddressSpace.demo_layout AddressSpace.demo_state) as [s| | | |] eqn:Es; try discriminate E.
  apply andb_true_iff in E as [E1 E2]. apply Z.ltb_lt in E1. apply bool_decide_eq_true_1 in E2. exists s. split; [reflexivity|].
  split; [exact E2|].
  destruct (no_execute_enabled_where_used AddressSpace.demo_layout demo_cpuid AddressSpace.demo_state s
    AddressSpace.demo_layout_ok AddressSpace.demo_frames_ok) as [H1 H2]; [simpl; lia|reflexivity|exact Es|exact E1|].
  split; [apply (H1 0xFFFFFFFF81003000); [lia|exact E2]|].
  destruct (H2 demo_cpuid demo_tables (Paging.memory s) demo_reset) as (_ & _ & _ & _ & H3); [reflexivity|].
  apply (H3 0xFFFFFFFF81003000); [lia|exact E2].
Defined.
End Protection.
