(* ===== verification/Launch.v ===== *)
(** * Main.cpp and User/Task.cpp: the first threads and the first program

    The block of [Main] that readies the demonstration threads and starts the user program, over
    one state: the loader and the kernel stacks share page tables and frames.  The program's
    thread then leaves for ring 3 at the entry point and on the stack the loader found. *)

From S2P Require Import Prelude Mem Queue Config FrameInterface Paging PagingSpec KernelStack StackInterface.
From S2P Require Import Context Sched SchedSpec User UserSpec LoaderSpec StackMemory Entry.
Import Paging Abi.

Module Launch.

Section Launch.
Context {F : Type} `{FL : FrameAllocatorLaws F} {BB : Build} {CC : Context.Code} {MM : Machine} {ML : MachineLaws}.
(** The calling core; the address and size of the embedded image; [s_HelloThread]. *)
Context (self UserProgramStart size s_HelloThread : Z).

Record t := { sched : Sched.t (KernelStack.t F); s_NextStackTop : Z; s_HelloTask : option User.Task }.

(** The loader works on the tables the kernel stacks are mapped in. *)
Definition loader (s : t) : User.t F :=
  {| User.paging := KernelStack.paging (Sched.stacks (sched s)); User.s_NextStackTop := s_NextStackTop s |}.
Definition with_paging (x : Sched.t (KernelStack.t F)) (p : Paging.t F) : Sched.t (KernelStack.t F) :=
  Sched.with_stacks x {| KernelStack.paging := p; KernelStack.s_NextSlot := KernelStack.s_NextSlot (Sched.stacks x) |} (Sched.memory x).
Definition with_sched (s : t) (x : Sched.t (KernelStack.t F)) : t :=
  {| sched := x; s_NextStackTop := s_NextStackTop s; s_HelloTask := s_HelloTask s |}.

(** The loop over [s_Threads]. *)
Fixpoint Ready_loop (l : list Z) (s : t) : outcome t :=
  match l with
  | [] => Ok s
  | thread :: l => let* x := Sched.Ready self (sched s) thread in Ready_loop l (with_sched s x)
  end.

Definition StartUserProgram (s : t) : outcome t :=
  let* (task, u) := User.Load UserProgramStart size (loader s) in
  let s := {| sched := with_paging (sched s) (User.paging u); s_NextStackTop := User.s_NextStackTop u;
              s_HelloTask := match task with Some _ => task | None => s_HelloTask s end |} in
  match task with
  | Some _ => let* x := Sched.Ready self (sched s) s_HelloThread in Ok (with_sched s x)
  | None => Ok s
  end.

Definition StartThreads (s_Threads : list Z) (s : t) : outcome t := let* s := Ready_loop s_Threads s in StartUserProgram s.

(** [User::Run]: the call of [EnterUserMode] with the task's entry and stack in rdi and rsi. *)
Definition Run (task : User.Task) (c : Entry.cpu) : Entry.cpu :=
  Entry.EnterUserMode (Entry.set (Entry.set c Entry.RDI (User.TaskEntry task)) Entry.RSI (User.StackTop task)).

(** ** The loader leaves the kernel stacks alone *)

Lemma stack_area_high w : Config.KERNEL_STACK_BASE <= w < Config.KERNEL_STACK_BASE + AREA -> 2 ^ 35 <= vpn w < 2 ^ 36 - 2 ^ 33.
Proof.
  unfold Config.KERNEL_STACK_BASE, AREA, vpn. intros Hw. pose proof (Z.div_mod w 4096 ltac:(lia)). pose proof (Z.mod_pos_bound w 4096 ltac:(lia)).
  rewrite <- (Z.mod_unique (w / 4096) (2 ^ 36) (2 ^ 16 - 1) (w / 4096 - (2 ^ 16 - 1) * 2 ^ 36)); lia.
Qed.

Lemma stacks_loads j (k : KernelStack.t F) p : stacks j k -> loads (KernelStack.paging k) p ->
  stacks j {| KernelStack.paging := p; KernelStack.s_NextSlot := KernelStack.s_NextSlot k |}.
Proof.
  intros [S1 S2 S3 S4] [L1 L2 L3 L4]. split; cbn [KernelStack.paging KernelStack.s_NextSlot]; try done.
  intros w Hw. pose proof (stack_area_high w Hw) as Hv. specialize (S4 w Hw).
  destruct (L4 w) as [->|(leaf & _ & [R _ _ _])]; [unfold Config.KERNEL_STACK_BASE in Hw; lia|exact S4|lia].
Qed.

Lemma unprepared_stacks pop (x : Sched.t (KernelStack.t F)) p : unprepared pop (with_paging x p) = unprepared pop x.
Proof. done. Qed.

Lemma inv_loads pop ready parked (x : Sched.t (KernelStack.t F)) p :
  inv pop ready parked x -> loads (KernelStack.paging (Sched.stacks x)) p -> inv pop ready parked (with_paging x p).
Proof.
  intros [] HL. split; try done. rewrite unprepared_stacks. destruct i_room as (j & Hj & Hn). exists j. split; [|done].
  by apply stacks_loads.
Qed.

(** ** A new kernel stack leaves the user half alone *)

Lemma Allocate_keeps_user j (k : KernelStack.t F) top k' : stacks j k -> j + 1 < 2 ^ 29 -> KernelStack.Allocate k = Ok (top, k') ->
  s_NoExecuteAvailable (KernelStack.paging k') = s_NoExecuteAvailable (KernelStack.paging k) /\
  forall w, 0 <= w -> vpn w < 2 ^ 35 -> mapping (KernelStack.paging k') w = mapping (KernelStack.paging k) w.
Proof.
  intros [[own Ht] Hj Hn _] Hj1 HA. destruct (slot_bounds j Hj) as (Hs0 & Hs1 & Hs2).
  assert (HB : Config.KERNEL_STACK_BASE + 2 ^ 46 = 2 ^ 64) by reflexivity. unfold KernelStack.Allocate in HA.
  change (Config.THREAD_STACK_SIZE / Paging.PAGE_SIZE) with 4 in HA. change Config.THREAD_STACK_SIZE with 16384 in *.
  change KernelStack.STRIDE with 20480 in *. change KernelStack.GUARD_SIZE with 4096 in *.
  destruct (fa_Allocate_law (frames (KernelStack.paging k)) 4 (tr_frames _ _ Ht)) as (r & f & EA & _); [lia|].
  destruct (tree_frames own (KernelStack.paging k) r 4 f Ht ltac:(lia) EA) as [Ht1 Hr]. rewrite EA in HA. cbn [obind] in HA.
  destruct (Z.eqb_spec r 0) as [->|Hr0]; [done|]. rewrite !(wrap_small 64) in HA by (unfold is_word; lia).
  assert (Hro : range_ok (KernelStack.s_NextSlot k + 4096) r 16384) by (split; lia).
  destruct (Map_ok own _ (KernelStack.s_NextSlot k + 4096) r 16384 READ_WRITE KERNEL NORMAL Ht1 Hro) as (ok & p & EM & [_ _ Hx (n & Hn1 & _ & _ & Hmap) _]).
  rewrite EM in HA. cbn [obind] in HA. destruct ok; cbn [negb] in HA; [|done]. injection HA as _ <-. cbn [KernelStack.paging].
  split; [done|]. intros w Hw Hv. rewrite Hmap by done. unfold mapped_range.
  assert (Hpc : page_count (KernelStack.s_NextSlot k + 4096) 16384 < 6).
  { unfold page_count. pose proof (Z.mod_pos_bound (KernelStack.s_NextSlot k + 4096) 4096 ltac:(lia)). apply Z.div_lt_upper_bound; lia. }
  destruct (Z.ltb_spec (page_distance (page_base (KernelStack.s_NextSlot k + 4096)) w) n) as [Hd|]; [|done]. exfalso.
  assert (Hp : 2 ^ 35 <= vpn (KernelStack.s_NextSlot k + 4096) < 2 ^ 36 - 2 ^ 33).
  { apply stack_area_high. unfold AREA. lia. }
  unfold page_distance in Hd.
  assert (E : vpn (page_base (KernelStack.s_NextSlot k + 4096)) = vpn (KernelStack.s_NextSlot k + 4096)).
  { unfold vpn. rewrite page_base_eq by lia. by rewrite Z.div_mul by lia. }
  rewrite E in Hd. assert (Hvp : forall a, 0 <= vpn a < 2 ^ 36) by (intros a; apply Z.mod_pos_bound; lia).
  pose proof (Hvp w). pose proof (Hvp (KernelStack.s_NextSlot k + 4096)).
  rewrite <- (Z.mod_unique (vpn w - vpn (KernelStack.s_NextSlot k + 4096)) (2 ^ 36) (-1) (vpn w - vpn (KernelStack.s_NextSlot k + 4096) + 2 ^ 36)) in Hd by lia.
  lia.
Qed.

(** What kernel stacks do to the tables [p]: the user half, and memory that is neither a table
    nor free, stay as they were. *)
Record keeps_half (p p' : Paging.t F) : Prop := {
  kh_nx : s_NoExecuteAvailable p' = s_NoExecuteAvailable p;
  kh_map w : 0 <= w -> vpn w < 2 ^ 35 -> mapping p' w = mapping p w;
  kh_data own : tree own p -> exists own', tree own' p' /\
    forall x, elsewhere own p x -> elsewhere own' p' x /\ load8 (memory p') x = load8 (memory p) x }.

Lemma keeps_half_refl p : keeps_half p p.
Proof. split; [done|done|]. intros own Ht. by exists own. Qed.

Lemma keeps_half_trans p1 p2 p3 : keeps_half p1 p2 -> keeps_half p2 p3 -> keeps_half p1 p3.
Proof.
  intros [N1 M1 D1] [N2 M2 D2]. split; [congruence|intros w Hw Hv; by rewrite M2, M1|]. intros own Ht.
  destruct (D1 own Ht) as (own1 & Ht1 & H1). destruct (D2 own1 Ht1) as (own2 & Ht2 & H2). exists own2. split; [done|].
  intros x Hx. destruct (H1 x Hx) as [Hx1 E1]. destruct (H2 x Hx1) as [Hx2 E2]. split; [done|congruence].
Qed.

Lemma Allocate_keeps_half j (k : KernelStack.t F) top k' : stacks j k -> j + 1 < 2 ^ 29 -> KernelStack.Allocate k = Ok (top, k') ->
  keeps_half (KernelStack.paging k) (KernelStack.paging k').
Proof.
  intros Hst Hj HA. destruct (Allocate_keeps_user j k top k' Hst Hj HA) as [Hx Hm]. split; [done|done|]. intros own Ht.
  destruct (Allocate_memory j own k Hst Ht Hj) as [[why HP]|(k2 & own' & r & HA' & HG & HS)]; [congruence|].
  rewrite HA in HA'. injection HA' as _ <-. exists own'. split; [apply HS|]. intros x [Ho Hn].
  assert (He : elsewhere own' (KernelStack.paging k') x).
  { split; [by apply (gr_tables _ _ _ _ _ HG)|]. intros Hq. by apply Hn, (gr_free _ _ _ _ _ HG). }
  split; [done|]. apply (gr_data _ _ _ _ _ HG). apply (outside_elsewhere own' (KernelStack.paging k')); [apply HS|apply He].
Qed.

(** ** Ready, with what it does to the page tables *)

Lemma Ready_stacks (x x' : Sched.t (KernelStack.t F)) thread : Sched.Ready self x thread = Ok x' ->
  Sched.stacks x' = Sched.stacks x \/
  top_of x thread = 0 /\ exists top, KernelStack.Allocate (Sched.stacks x) = Ok (top, Sched.stacks x').
Proof.
  unfold Sched.Ready. intros E. apply obind_Ok in E as (? & _ & E). apply obind_Ok in E as (? & _ & E).
  apply obind_Ok in E as (y & EP & E). injection E as <-.
  assert (Hs : Sched.stacks y = Sched.stacks x \/
    top_of x thread = 0 /\ exists top, KernelStack.Allocate (Sched.stacks x) = Ok (top, Sched.stacks y)).
  { unfold Sched.Prepare in EP. destruct (Z.eqb_spec (m_StackTop (Sched.threads x thread)) 0) as [E0|]; cbn [negb] in EP; [|injection EP as <-; by left]. right. split; [done|].
    apply obind_Ok in EP as (? & _ & EP). apply obind_Ok in EP as ([top k] & EA & EP). exists top.
    destruct (Context.PrepareContext _ _ _ _ _ _) as [c m]. injection EP as <-. exact EA. }
  assert (Ha : Sched.stacks (Sched.Append y thread) = Sched.stacks y) by (unfold Sched.Append; by destruct (Queue.Append _ _ _) as [[? ?] ?]).
  destruct (Sched.FirstCore _ 0 _); [|by rewrite Ha]. change (Sched.stacks (Sched.SendIpi ?a _ _)) with (Sched.stacks a). by rewrite Ha.
Qed.

(** A thread that nothing knows about yet. *)
Definition untouched (pop ready : list Z) (parked : Z -> Prop) (x : Sched.t (KernelStack.t F)) (y : Z) : Prop :=
  y ∈ pop /\ ~ idle y /\ y ∉ ready /\ ~ parked y /\ forall c, is_core c -> Sched.m_ActiveThread x c <> y.

Lemma Ready_fresh pop ready parked x y : inv pop ready parked x -> untouched pop ready parked x y ->
  (exists why, Sched.Ready self x y = Panic why) \/
  exists x', Sched.Ready self x y = Ok x' /\ inv pop (ready ++ [y]) parked x' /\
    Sched.m_ActiveThread x' = Sched.m_ActiveThread x.
Proof.
  intros HI (Hp & Hi & Hr & Hk & Ha). pose proof (i_off _ _ _ _ HI y Hr Hk) as Hl. pose proof (pop_nonzero _ _ _ _ _ HI Hp) as H0.
  destruct (Ready_ok pop ready parked parked x self y HI) as [(x' & E & HI' & _ & HA & _)|[_ HP]]; try done.
  - intros z. split; [|tauto]. intros Hz. split; [done|]. by intros ->.
  - right. by exists x'.
  - by left.
Qed.

Lemma Ready_keeps_half pop ready parked x x' y : inv pop ready parked x -> y ∈ pop -> Sched.Ready self x y = Ok x' ->
  keeps_half (KernelStack.paging (Sched.stacks x)) (KernelStack.paging (Sched.stacks x')).
Proof.
  intros HI Hy ER. destruct (i_room _ _ _ _ HI) as (j & Hj & Hroom). destruct (Ready_stacks _ _ _ ER) as [->|(E0 & top & EA)].
  - apply keeps_half_refl.
  - apply (Allocate_keeps_half j _ top); [done| |done].
    assert (1 <= unprepared pop x)%nat; [|lia]. unfold unprepared.
    destruct (filter _ pop) eqn:Ef; [|simpl; lia]. exfalso. apply (elem_of_nil (A := Z) y). rewrite <- Ef.
    by apply list_elem_of_filter.
Qed.

Lemma untouched_next pop ready parked x x' y z : untouched pop ready parked x z -> z <> y ->
  Sched.m_ActiveThread x' = Sched.m_ActiveThread x -> untouched pop (ready ++ [y]) parked x' z.
Proof.
  intros (H1 & H2 & H3 & H4 & H5) Hn HA. split_and!; try done; [set_solver|]. by rewrite HA.
Qed.

Lemma Ready_loop_ok l : forall pop ready parked s rest, inv pop ready parked (sched s) -> NoDup (l ++ rest) ->
  Forall (untouched pop ready parked (sched s)) (l ++ rest) ->
  (exists why, Ready_loop l s = Panic why) \/
  exists s', Ready_loop l s = Ok s' /\ inv pop (ready ++ l) parked (sched s') /\
    Forall (untouched pop (ready ++ l) parked (sched s')) rest /\
    s_NextStackTop s' = s_NextStackTop s /\ s_HelloTask s' = s_HelloTask s /\
    keeps_half (KernelStack.paging (Sched.stacks (sched s))) (KernelStack.paging (Sched.stacks (sched s'))).
Proof.
  induction l as [|y l IH]; intros pop ready parked s rest HI Hn Hu.
  - right. exists s. rewrite app_nil_r. split_and!; try done. apply keeps_half_refl.
  - cbn [Ready_loop app] in *. apply Forall_cons in Hu as [Hy Hu]. apply NoDup_cons in Hn as [Hy' Hn].
    destruct (Ready_fresh pop ready parked (sched s) y HI Hy) as [[why ->]|(x' & ER & HI' & HA)]; [left; by exists why|]. rewrite ER. cbn [obind].
    destruct (IH pop (ready ++ [y]) parked (with_sched s x') rest) as [HP|(s' & E & H1 & H2 & H3 & H4 & H5)]; [done|done| |by left|].
    + apply Forall_forall. intros z Hz. apply (untouched_next pop ready parked (sched s)); [|by intros ->|done].
      exact (proj1 (Forall_forall _ _) Hu z Hz).
    + right. exists s'. rewrite <- app_assoc in H1, H2. split_and!; try done.
      apply (keeps_half_trans _ (KernelStack.paging (Sched.stacks x'))); [|done].
      by apply (Ready_keeps_half pop ready parked _ _ y); [|apply Hy|].
Qed.

(** The program can start with the tables [p], [p0] being those before the loader ran: its stack
    is there for ring 3, and so is its entry, with the exceptions of [entry_ok]. *)
Record runnable (p0 p : Paging.t F) (task : User.Task) : Prop := {
  ru_entry : entry_ok p0 p task;
  ru_stack : granted_range p READ_WRITE (User.StackTop task - HK_USER_STACK_SIZE) HK_USER_STACK_SIZE }.

Lemma user_half_low w : HK_USER_MIN <= w < HK_USER_MAX -> 0 <= w /\ vpn w < 2 ^ 35.
Proof.
  unfold HK_USER_MIN, HK_USER_MAX. intros Hw. split; [lia|]. unfold vpn. pose proof (Z.mod_pos_bound (w / 4096) (2 ^ 36) ltac:(lia)).
  assert (0 <= w / 4096 < 2 ^ 35) by (split; [apply Z.div_pos; lia|apply Z.div_lt_upper_bound; lia]). rewrite Z.mod_small; lia.
Qed.

Lemma runnable_words p0 p task : HK_USER_MIN + HK_USER_STACK_SIZE <= User.StackTop task <= HK_USER_MAX -> runnable p0 p task ->
  is_word 64 (User.TaskEntry task) /\ is_word 64 (User.StackTop task).
Proof. unfold is_word, HK_USER_MIN, HK_USER_MAX, HK_USER_STACK_SIZE. intros Hs [[R _ _] _]. unfold HK_USER_MIN, HK_USER_MAX in R. lia. Qed.

(** The program stays runnable while kernel stacks are made, and the tables before the load may
    be those before the stacks that preceded it. *)
Lemma runnable_same own own' p00 p0 p p' task : tree own p -> tree own' p' -> keeps_half p p' -> keeps_half p00 p0 ->
  HK_USER_MIN + HK_USER_STACK_SIZE <= User.StackTop task <= HK_USER_MAX -> runnable p0 p task -> runnable p00 p' task.
Proof.
  intros Ht Ht' [Hx Hm _] [_ Hm0 _] Htop [[R1 R2 R3] R4]. destruct (user_half_low _ R1) as [H1 H2].
  destruct (queries_same own own' p p' _ Ht Ht' H1 Hx (Hm _ H1 H2)) as [_ _ Q3 Q4 _]. split; [split; [done| |]|].
  - by rewrite Q3, Hx.
  - rewrite Q4. intros Hn. apply R3. by rewrite Hm0.
  - intros w Hw. destruct (user_half_low w) as [W1 W2]; [lia|].
    destruct (queries_same own own' p p' w Ht Ht' W1 Hx (Hm w W1 W2)) as [_ _ W3 W4 W5]. rewrite W3, W4, W5, Hx. by apply R4.
Qed.

(** The entry of the header of the file at [UserProgramStart] in the memory [m]. *)
Abbreviation entry_of_file m := (Elf.Entry (header m UserProgramStart)).

Lemma StartUserProgram_ok pop ready parked s : inv pop ready parked (sched s) -> watermark (s_NextStackTop s) ->
  untouched pop ready parked (sched s) s_HelloThread ->
  let p := KernelStack.paging (Sched.stacks (sched s)) in
  (exists why, StartUserProgram s = Panic why) \/
  exists s', StartUserProgram s = Ok s' /\
    ((inv pop ready parked (sched s') /\ s_HelloTask s' = s_HelloTask s) \/
     inv pop (ready ++ [s_HelloThread]) parked (sched s') /\
     exists task, s_HelloTask s' = Some task /\ runnable p (KernelStack.paging (Sched.stacks (sched s'))) task /\
       HK_USER_MIN + HK_USER_STACK_SIZE <= User.StackTop task <= HK_USER_MAX /\
       forall m0 own, tree own p -> file_ok m0 UserProgramStart size -> intact m0 UserProgramStart size own p ->
         User.TaskEntry task = entry_of_file m0).
Proof.
  intros HI Hw Hu p. destruct (i_room _ _ _ _ HI) as (j & Hj & Hroom). destruct (st_tree _ _ Hj) as [own Ht].
  unfold StartUserProgram. destruct (Load_ok own (loader s) UserProgramStart size Ht Hw) as (r & u & EL & HL & Hnext & Hr). rewrite EL. cbn [obind].
  pose proof (inv_loads _ _ _ _ _ HI HL) as HI1. destruct r as [task|]; [|right; eexists; split; [done|]; left; by split].
  cbn [sched]. destruct (Hr task eq_refl) as (E1 & E2 & E3 & E4).
  destruct (Ready_fresh pop ready parked _ s_HelloThread HI1 Hu) as [[why ->]|(x' & ER & HI2 & _)]; [left; by exists why|].
  rewrite ER. cbn [obind]. right. eexists. split; [done|]. right. split; [done|]. exists task. split; [done|]. cbn [sched with_sched].
  assert (Htop : HK_USER_MIN + HK_USER_STACK_SIZE <= User.StackTop task <= HK_USER_MAX).
  { rewrite E2. destruct Hw as [_ Hw]. change User.STACK_STRIDE with (HK_USER_STACK_SIZE + 4096) in Hw. cbn [loader User.s_NextStackTop]. lia. }
  assert (HR : runnable p (User.paging u) task) by (split; done).
  destruct (i_room _ _ _ _ HI1) as (j1 & Hj1 & _). destruct (i_room _ _ _ _ HI2) as (j2 & Hj2 & _).
  destruct (st_tree _ _ Hj1) as [own1 Ht1]. destruct (st_tree _ _ Hj2) as [own2 Ht2].
  split_and!; [|lia|lia|].
  - apply (runnable_same own1 own2 p p (User.paging u)); try done; [|apply keeps_half_refl].
    by apply (Ready_keeps_half pop ready parked _ _ s_HelloThread HI1); [apply Hu|].
  - intros m0 own0 Ht0 Hfo Hin. destruct (Load_faithful m0 own0 (loader s) UserProgramStart size Ht0 Hw Hfo Hin) as (r2 & u2 & EL2 & HF).
    rewrite EL in EL2. injection EL2 as <- <-. by destruct (HF task eq_refl) as [-> _].
Qed.

End Launch.

(** ** Witness: a thread and a program of one page on 64 frames *)

#[local] Existing Instances SchedSpec.demo_machine SchedSpec.demo_code SchedSpec.checked_build.
Definition demo_sched : Sched.t (KernelStack.t Frame.Frame.t) :=
  {| Sched.links := fun _ => 0;
     Sched.threads := fun x => {| m_Name := 0; m_Entry := 0x800; m_Argument := 0; m_Context := Context.Zero;
                                  m_Dying := false; m_StackTop := 0 |};
     Sched.stacks := {| KernelStack.paging := UserSpec.machine; KernelStack.s_NextSlot := Config.KERNEL_STACK_BASE |};
     Sched.memory := fun _ => 0; Sched.m_ReadyQueue := Queue.Empty; Sched.m_ActiveThread := fun _ => 0;
     Sched.tss_stack := fun _ => 0; Sched.syscall_stack := fun _ => 0;
     Sched.cpus := fun _ => {| Context.saved := Context.Zero; Context.rdi := 0; Context.rsi := 0; Context.rdx := 0; Context.rip := 0 |};
     Sched.ipis := [] |}.
Definition demo_main : t (F := Frame.Frame.t) := {| sched := demo_sched; s_NextStackTop := HK_USER_STACK_TOP; s_HelloTask := None |}.

Lemma demo_sched_inv : inv SchedSpec.demo_pop [] (fun _ => False) demo_sched.
Proof.
  split; simpl; try done; try set_solver.
  - apply (bool_decide_unpack _). by vm_compute.
  - intros c Hc. unfold demo_pop. case_test; set_solver.
  - apply Queue.rep_Empty.
  - exists 0. split; [|vm_compute; done]. split; [exists small_own; apply UserSpec.machine_tree|done|done|].
    intros w Hw. cbn [KernelStack.paging]. rewrite (proj2 UserSpec.machine_fresh). left. cbn [KernelStack.s_NextSlot]. lia.
Qed.

Definition demo_started (o : outcome (t (F := Frame.Frame.t))) : bool :=
  match o with
  | Ok s => match s_HelloTask s with Some task => (User.TaskEntry task =? 0x400078) && (User.StackTop task =? 0x7FFFFFFFF000) | None => false end
  | _ => false
  end.
Lemma demo_starts : demo_started (StartThreads 0 UserSpec.image_address 122 0x200 [0x100] demo_main) = true.
Proof. vm_compute. reflexivity. Qed.

Lemma demo_untouched : Forall (untouched SchedSpec.demo_pop [] (fun _ => False) demo_sched) ([0x100] ++ [0x200]).
Proof.
  destruct demo_not_idle as [I1 I2]. apply Forall_cons. split; [|apply Forall_cons; split; [|constructor]];
    (split; [unfold demo_pop; set_solver|]; split; [done|]; split; [set_solver|]; split; [by intros []|]; by intros).
Qed.

End Launch.

(** ** App/MelodyThread.cpp *)

Module Melody.
Record Note := { Frequency : Z; Milliseconds : Z }.
Definition note (f m : Z) : Note := {| Frequency := f; Milliseconds := m |}.
Definition MELODY : list Note :=
  [note 262 300; note 0 60; note 330 300; note 0 60; note 392 300; note 0 60;
   note 523 450; note 0 100; note 392 300; note 0 60; note 523 600; note 0 1500].

Inductive action := PcSpeaker (InFrequency : Z) | Sleep (InMilliseconds : Z).
(** What stands behind the [continue]. *)
Definition Play : list action :=
  concat ((fun n => [PcSpeaker (Frequency n); Sleep (Milliseconds n)]) <$> MELODY) ++ [PcSpeaker 0; Sleep 5000].

(** The first [rounds] rounds of the endless loop: [continue] ends each of them at its start;
    [skip] is whether it stands there. *)
Fixpoint rounds_of (skip : bool) (rounds : nat) : list action :=
  match rounds with O => [] | S k => (if skip then [] else Play) ++ rounds_of skip k end.
Definition MelodyThread : nat -> list action := rounds_of true.

(** The thread never sounds a note and never sleeps: it keeps a core busy for ever. *)
Lemma melody_never_sleeps rounds : MelodyThread rounds = [].
Proof. unfold MelodyThread. by induction rounds. Qed.
(** The tune would keep it asleep for all but the moments between its notes. *)
Lemma tune_length : foldr (fun a n => match a with Sleep m => m + n | _ => n end) 0 Play = 9090.
Proof. reflexivity. Qed.
End Melody.
