(* ===== verification/Runtime.v ===== *)
(** * Compiler/Libc.cpp, Compiler/Libcxx.cpp, Debug/NullStream.h, Lib/PerCore.h: language support

    The operators the compiler calls for [new] and [delete], the hooks for objects with
    destructors, the stream that swallows verbose output, per-core variables, and the iterator of
    Lib/Queue.h which range-based loops use. *)

From S2P Require Import Prelude Mem Config Queue FrameInterface Heap HeapSpec Output Format Acpi Apic Cores.

(** ** Compiler/Libcxx.cpp *)

Module Libcxx.
Section Operators.
Context {F : Type} `{FL : FrameAllocatorLaws F} {BB : Build}.

Definition operator_new (InSize : Z) (s : Heap.t F) : outcome (Z * Heap.t F) := Heap.Allocate InSize s.
Definition operator_new_array (InSize : Z) (s : Heap.t F) : outcome (Z * Heap.t F) := Heap.Allocate InSize s.
Definition placement_new (InSize InPlace : Z) : Z := InPlace.
Definition placement_new_array (InSize InPlace : Z) : Z := InPlace.
Definition operator_delete (InPointer : Z) (s : Heap.t F) : outcome (Heap.t F) := Heap.Free InPointer s.
Definition operator_delete_array (InPointer : Z) (s : Heap.t F) : outcome (Heap.t F) := Heap.Free InPointer s.
Definition operator_delete_sized (InPointer InSize : Z) (s : Heap.t F) : outcome (Heap.t F) := Heap.Free InPointer s.
Definition operator_delete_array_sized (InPointer InSize : Z) (s : Heap.t F) : outcome (Heap.t F) := Heap.Free InPointer s.
Definition cxa_pure_virtual {A} : outcome A := Panic "Pure virtual function called".

(** An object that was made can be deleted, by whichever form the compiler picks: the heap is well
    formed again, uses as much as before, and every other block in use kept its bytes throughout. *)
Theorem new_delete_roundtrip B fl s size r s1 : inv B fl none 0 s -> 0 < size -> size + 16 < 2 ^ 64 ->
  operator_new size s = Ok (r, s1) -> r <> 0 ->
  exists s2 B2 fl2, operator_delete r s1 = Ok s2 /\ operator_delete_sized r size s1 = Ok s2 /\ inv B2 fl2 none 0 s2 /\
    Heap.s_UsedBytes s2 = Heap.s_UsedBytes s /\
    (forall y o, B y = Some (o, false) <-> B2 y = Some (o, false)) /\
    keeps_used B none s s2.
Proof.
  unfold operator_new, operator_delete, operator_delete_sized. intros HI Hs H64 E Hr.
  destruct (heap_Allocate_ok B fl s size (size + 16) HI Hs) as (r' & s' & E' & Hcase); [symmetry; apply wrap_small; split; lia|].
  rewrite E in E'. injection E' as <- <-. destruct Hcase as [[-> _]|(off & B1 & fl1 & -> & HI1 & [A1 A2 A3 A4 A5 A6 A7 A8])]; [done|].
  rewrite <- A7. destruct (heap_Free_ok B1 fl1 s1 off _ HI1 A1) as (s2 & B2 & fl2 & E2 & HI2 & [F1 F2 F3 F4 F5 F6]).
  exists s2, B2, fl2. split_and!; [done|done|done|lia| |].
  - intros y o. destruct (decide (y = off)) as [->|Hn]; [split; intros H0; [by destruct (A3 o)|by destruct (F1 o)]|].
    rewrite (A4 y o Hn). by apply F2.
  - intros y o a Hy Hop Ha. assert (Hn : y <> off) by (intros ->; by destruct (A3 o)).
    rewrite (F3 y o a Hn), (A5 y o a) by (done || rewrite ?A7; done || by apply A4). done.
Qed.
End Operators.
End Libcxx.

(** ** Compiler/Libc.cpp: nothing in a kernel exits *)

Module Libc.
Definition atexit (InFunction : Z) : Z := 0.
Definition cxa_atexit (InFunction InArgument InDsoHandle : Z) : Z := 0.
Definition dso_handle : Z := 0.
End Libc.

(** ** Debug/NullStream.h and [DBG_VERBOSE] of Debug/Output.h *)

Module NullStream.
(** The type check has no effect. *)
Definition Insert {S : Type} (i : item) (s : S) : S := s.

(** [VERBOSE] is the build option; [file] and [line] are the place of use. *)
Definition DBG_VERBOSE (VERBOSE : bool) (file : string) (line : Z) (l : list item) (s : OutputStream.t) : outcome OutputStream.t :=
  if VERBOSE then Inserts (Lit file :: Lit ":" :: Int line :: Lit " " :: l) s
  else Ok (foldl (fun s i => Insert i s) s l).

(** Without the option a verbose line changes no stream. *)
Lemma quiet_build_prints_nothing file line l s : DBG_VERBOSE false file line l s = Ok s.
Proof. unfold DBG_VERBOSE. f_equal. by induction l. Qed.
End NullStream.

(** ** Lib/PerCore.h *)

Module PerCore.
Section Slots.
Context {T : Type}.

(** The constructor's loop from [i] on, [n] rounds. *)
Fixpoint Fill_loop (n i : nat) (InInitial : T) (m_Instances : list T) : list T :=
  match n with O => m_Instances | S k => Fill_loop k (S i) InInitial (<[i := InInitial]> m_Instances) end.
Definition Create (zero InInitial : T) : list T := Fill_loop 8 0 InInitial (replicate 8 zero).

(** [lapic] is the local APIC id of the calling core, [c] the table of Cpu.cpp. *)
Definition Get (lapic : Z) (c : Cpu.t) (s : list T) : outcome T :=
  match s !! Z.to_nat (Cpu.GetId lapic c) with Some v => Ok v | None => Fault "m_Instances" end.
Definition Set_ (lapic : Z) (c : Cpu.t) (InValue : T) (s : list T) : outcome (list T) :=
  if (Z.to_nat (Cpu.GetId lapic c) <? length s)%nat then Ok (<[Z.to_nat (Cpu.GetId lapic c) := InValue]> s) else Fault "m_Instances".
Definition at_ (InCore : Z) (s : list T) : outcome T :=
  match s !! Z.to_nat InCore with Some v => Ok v | None => Fault "m_Instances" end.

(** Every core starts with the initial value. *)
Lemma Create_all zero v core : 0 <= core < Config.MAX_CORES -> at_ core (Create zero v) = Ok v.
Proof.
  unfold Config.MAX_CORES. intros H. assert (core ∈ [0; 1; 2; 3; 4; 5; 6; 7]) as Hc by (repeat (rewrite elem_of_cons); lia).
  repeat (apply elem_of_cons in Hc as [->|Hc]; [reflexivity|]). by apply elem_of_nil in Hc.
Qed.

(** A core reads what it wrote last, and another core's slot is not affected by it. *)
Lemma Get_Set lapic lapic' c v s s' : Set_ lapic c v s = Ok s' -> 0 <= Cpu.GetId lapic c -> 0 <= Cpu.GetId lapic' c ->
  Get lapic' c s' = if Cpu.GetId lapic' c =? Cpu.GetId lapic c then Ok v else Get lapic' c s.
Proof.
  unfold Set_, Get. intros E H H'. destruct (Nat.ltb_spec (Z.to_nat (Cpu.GetId lapic c)) (length s)); [|discriminate E]. injection E as <-.
  destruct (Z.eqb_spec (Cpu.GetId lapic' c) (Cpu.GetId lapic c)) as [->|Hn]; [by rewrite list_lookup_insert_eq|].
  by rewrite list_lookup_insert_ne by lia.
Qed.
End Slots.
End PerCore.

(** ** Lib/Queue.h: the iterator *)

Module Iterator.
Import Queue.

(** [m_Current]; dereferencing the end is undefined. *)
Definition begin_ (q : Queue.t) : Z := m_Head q.
Definition end_ : Z := 0.
Definition deref (m_Current : Z) : outcome Z := if m_Current =? 0 then Fault "null pointer" else Ok m_Current.
Definition increment (L : links) (m_Current : Z) : outcome Z :=
  let* x := deref m_Current in Ok (L x).

(** A range-based loop that appends what it visits to [seen]. *)
Fixpoint For_loop (fuel : nat) (L : links) (it : Z) (seen : list Z) : outcome (list Z) :=
  match fuel with
  | O => Diverges
  | S k =>
      if negb (it =? end_) then
        let* x := deref it in
        let* it := increment L it in
        For_loop k L it (seen ++ [x])
      else Ok seen
  end.

(** It visits the elements of the queue, each once, from the front to the back. *)
Theorem range_for_visits L q l fuel : rep L q l -> (length l < fuel)%nat -> For_loop fuel L (begin_ q) [] = Ok l.
Proof.
  intros [H _ _]. unfold begin_. assert (Hg : forall l h seen fuel, chain L h l -> (length l < fuel)%nat ->
    For_loop fuel L h seen = Ok (seen ++ l)).
  { induction l0 as [|x l0 IH]; intros h seen fuel0 Hc Hf; (destruct fuel0 as [|fuel0]; [simpl in Hf; lia|]); cbn [For_loop chain] in *.
    - subst h. change (negb (0 =? end_)) with false. cbv iota. by rewrite app_nil_r.
    - destruct Hc as (-> & Hx & Hc). unfold increment, deref, end_. rewrite (proj2 (Z.eqb_neq x 0) Hx). cbn [negb obind].
      rewrite (IH (L x) (seen ++ [x]) fuel0 Hc) by (simpl in Hf; lia). by rewrite <- app_assoc. }
  intros Hf. by rewrite (Hg l (m_Head q) [] fuel H Hf).
Qed.
End Iterator.
