(* ===== verification/Hello.v ===== *)
(** * User/Hello.c: the program in ring 3

    The demonstration program, every function of it, over the wrappers of ABI/C and the
    kernel behind them, with the trampoline that starts it.  The texts lie where the
    linker put them and the character that is echoed in a slot of the user's stack; both
    are read and written through the page tables.  A program that blocks stops there. *)

From S2P Require Import Prelude Mem Queue Config RingBuffer FrameInterface Paging PagingSpec.
From S2P Require Import Context Sched SchedSpec Sync SyncSpec SystemSpec Device Keyboard Ps2 Screen Output.
From S2P Require Import User UserSpec LoaderSpec Epilogues Syscall SyscallSpec UserLib.
Import Abi Epilogues Syscall HK.

Module Hello.

Definition GREETING : list Z := codes "hello from ring 3. type something, escape quits." ++ [10].
Definition INTERRUPTED : list Z := [10] ++ codes "interrupted" ++ [10].
Definition GOODBYE : list Z := [10] ++ codes "goodbye" ++ [10].

(** What the linker and the compiler choose: the addresses of the three texts, and of the
    parameter of [Echo]. *)
Record placement := { greeting_at : Z; interrupted_at : Z; goodbye_at : Z; character_at : Z }.

(** Longer than every text. *)
Definition STRLEN_ROUNDS : nat := 64.

Section Program.
Context {K : Type} {SA : StackAllocator K} {BB : Build} {CC : Context.Code} {MM : Machine}.
Context {D : Type} {HW : Hardware D} {F : Type} {FA : FrameAllocator F}.
Variables (core : Z) (stack : list Z) (at_ : placement).
Implicit Types k : kernel K D F.

(** A byte written by ring 3. *)
Definition user_store (p : Paging.t F) (a v : Z) : outcome (Paging.t F) :=
  if Paging.IsUserWritable p a
  then Ok (Paging.with_memory p (store8 (Paging.memory p) (Paging.ToVirtual (Paging.Translate p a)) v))
  else Fault "page fault".

Definition with_user_memory k (p : Paging.t F) : kernel K D F :=
  {| memory_ := p; vault := vault k; screen := screen k; termination := termination k |}.

(** [None]: the thread does not come back here. *)
Definition Say (InText : Z) k : outcome (option unit * kernel K D F) :=
  let* (r, k) := hk_print core stack STRLEN_ROUNDS InText k in
  match r with
  | None => Ok (None, k)
  | Some result =>
      if hk_failed result then let* (_, k) := hk_exit core stack 1 k in Ok (None, k)
      else Ok (Some tt, k)
  end.

Definition Echo (InCharacter : Z) k : outcome (option unit * kernel K D F) :=
  let* p := user_store (memory_ k) (character_at at_) InCharacter in
  let* (r, k) := hk_write_all core stack HK_STDOUT (character_at at_) 1 (with_user_memory k p) in
  Ok (match r with None => None | Some _ => Some tt end, k).

(** How the loop of [main] is left. *)
Inductive leave := Gone | Break | Return (status : Z).

Definition printable_character (character : Z) : bool :=
  (character =? 10) || ((32 <=? character) && (character <? 0x7f)).

Fixpoint main_loop (fuel : nat) k : outcome (leave * kernel K D F) :=
  match fuel with
  | O => Diverges
  | S n =>
      let* (r, k) := hk_get_key core stack k in
      match r with
      | None => Ok (Gone, k)
      | Some (result, written) =>
          let key := default 0 written in
          if hk_failed result then Ok (Return 1, k)
          else if hk_key_code key =? hk_scancode_value HK_KEY_ESCAPE then Ok (Break, k)
          else if hk_key_has key HK_MOD_CTRL && (hk_key_code key =? hk_scancode_value HK_KEY_C) then
            let* (r, k) := Say (interrupted_at at_) k in
            match r with
            | None => Ok (Gone, k)
            | Some _ => let* (_, k) := hk_exit core stack 130 k in Ok (Gone, k)
            end
          else
            let character := to_signed 8 (hk_key_ascii key) in
            if printable_character character then
              let* (r, k) := Echo character k in
              match r with None => Ok (Gone, k) | Some _ => main_loop n k end
            else main_loop n k
      end
  end.

Definition main (fuel : nat) k : outcome (option Z * kernel K D F) :=
  let* (r, k) := Say (greeting_at at_) k in
  match r with
  | None => Ok (None, k)
  | Some _ =>
      let* (r, k) := hk_yield core stack k in
      match r with
      | None => Ok (None, k)
      | Some _ =>
          let* (l, k) := main_loop fuel k in
          match l with
          | Gone => Ok (None, k)
          | Return status => Ok (Some status, k)
          | Break =>
              let* (r, k) := Say (goodbye_at at_) k in
              Ok (match r with None => None | Some _ => Some 0 end, k)
          end
      end
  end.

(** The state in which the task has ended, or waits. *)
Definition hk_main_trampoline (fuel : nat) k : outcome (kernel K D F) :=
  let* (r, k) := main fuel k in
  match r with
  | None => Ok k
  | Some status => let* (_, k) := hk_exit core stack status k in Ok k
  end.

End Program.

(** ** What the user should see

    The text behind the greeting and the status the task ends with, for the keys typed;
    without a status it still waits for a key. *)

Definition shown (key : Key.Key) : list Z :=
  if printable_character (to_signed 8 (Key.Ascii key)) then [Key.Ascii key] else [].

Fixpoint session (keys : list Key.Key) : list Z * option Z :=
  match keys with
  | [] => ([], None)
  | key :: keys =>
      if Key.Code key =? Key.ToUnderlying Key.ESCAPE then (GOODBYE, Some 0)
      else if Key.Ctrl key && (Key.Code key =? Key.ToUnderlying Key.C_) then (INTERRUPTED, Some 130)
      else let '(text, status) := session keys in (shown key ++ text, status)
  end.

Lemma texts_short : Forall (fun c => c <> 0) GREETING /\ Forall (fun c => c <> 0) INTERRUPTED /\ Forall (fun c => c <> 0) GOODBYE /\
  (length GREETING < STRLEN_ROUNDS)%nat /\ (length INTERRUPTED < STRLEN_ROUNDS)%nat /\ (length GOODBYE < STRLEN_ROUNDS)%nat.
Proof.
  split_and!; try (vm_compute; lia); refine (bool_decide_eq_true_1 _ _); vm_compute; reflexivity.
Qed.

(** ** Ring 3 writes its own memory *)

Section Spec.
Context {K : Type} {SA : StackAllocator K} {SL : StackAllocatorLaws K} {BB : Build}
        {CC : Context.Code} {MM : Machine} {ML : MachineLaws}.
Context {D : Type} {HW : Hardware D} {F : Type} {FA : FrameAllocator F} {FL : FrameAllocatorLaws F}.
Variable stack_owner : Z -> Z.
Variables (core : Z) (stack : list Z) (at_ : placement).
Hypothesis stack_room : HK_WRITE_MAX < Z.of_nat (length stack).
Implicit Types (k : kernel K D F) (A : asys) (p : Paging.t F).

Abbreviation buffered v := (RingBuffer.contents KEYS (Keys v)).
Abbreviation waiting A := (s_waits A KeysAvailable).

(** A frame the direct map reaches. *)
Definition reached (f : Z) : Prop := 0 <= f < 2 ^ 47.

Lemma ToVirtual_reached f : reached f -> Paging.ToVirtual f = f + Config.DIRECT_MAP_BASE.
Proof. intros [H1 H2]. apply (ToVirtual_eq f 1); lia. Qed.

Lemma user_store_ok own p a v :
  tree own p -> 0 <= a -> Paging.IsUserWritable p a = true -> reached (Paging.Translate p a) ->
  own (Paging.Translate p a / 4096 * 4096) = None ->
  exists p', user_store p a v = Ok p' /\ tree own p' /\
    (forall x, 0 <= x -> Paging.Translate p' x = Paging.Translate p x /\
       Paging.IsUserReadable p' x = Paging.IsUserReadable p x /\ Paging.IsUserWritable p' x = Paging.IsUserWritable p x) /\
    User.user_byte p' a = u8 v /\
    (forall x, 0 <= x -> reached (Paging.Translate p x) -> Paging.Translate p x <> Paging.Translate p a ->
       User.user_byte p' x = User.user_byte p x).
Proof.
  intros Ht Ha Hw Hr Hown. unfold user_store. rewrite Hw. eexists. split; [reflexivity|].
  set (m' := store8 _ _ _). change (Paging.with_memory p m') with (Paging.with_table p m' (Paging.frames p) (Paging.s_TableCount p)).
  assert (Hs : same_tables own (Paging.memory p) m').
  { intros q n pre i Hq Hi. destruct (tr_own _ _ Ht q n pre Hq) as [Hd _]. unfold ent, Paging.entry_of. rewrite slot_eq by done.
    apply load_ext. intros j Hj. apply load8_store8_ne. rewrite ToVirtual_reached by done. intros E.
    assert (Eq : Paging.Translate p a / 4096 * 4096 = q); [|congruence].
    destruct Hd as [Hm _]. pose proof (Z.div_mod q 4096 ltac:(lia)).
    assert (Paging.Translate p a / 4096 = q / 4096); [|lia].
    symmetry. apply Z.div_unique with (Paging.Translate p a - q); lia. }
  destruct (tree_data own p m' (Paging.frames p) Ht Hs (tr_frames _ _ Ht)) as [Ht' Hmap]; [done|].
  set (p' := Paging.with_table p m' _ _) in *.
  assert (Hsame : forall x, 0 <= x -> Paging.Translate p' x = Paging.Translate p x /\
     Paging.IsUserReadable p' x = Paging.IsUserReadable p x /\ Paging.IsUserWritable p' x = Paging.IsUserWritable p x).
  { intros x Hx. destruct (queries_same own own p p' x Ht Ht' Hx eq_refl (Hmap x Hx)) as [? _ _ ? ?]. done. }
  split_and!; [done|done| |].
  - unfold User.user_byte. destruct (Hsame a Ha) as (-> & _). apply load8_store8_same.
  - intros x Hx Hrx Hne. unfold User.user_byte. destruct (Hsame x Hx) as (-> & _). apply load8_store8_ne.
    rewrite !ToVirtual_reached by done. lia.
Qed.

Lemma writable_readable own p a : tree own p -> 0 <= a -> Paging.IsUserWritable p a = true -> Paging.IsUserReadable p a = true.
Proof.
  intros Ht Ha. pose proof (queries_exact own p a Ht Ha) as Q. destruct (mapping p a); destruct Q as [_ _ _ -> ->]; [|done].
  by intros [? _]%andb_prop.
Qed.

(** ** The calls and what they leave alone *)

(** All but the screen. *)
Definition untouched k k' : Prop :=
  memory_ k' = memory_ k /\ system (vault k') = system (vault k) /\ Keys (vault k') = Keys (vault k) /\
  termination k' = termination k.

Lemma untouched_trans k1 k2 k3 : untouched k1 k2 -> untouched k2 k3 -> untouched k1 k3.
Proof. intros (? & ? & ? & ?) (? & ? & ? & ?). split_and!; congruence. Qed.

Lemma hk_write_untouched handle buf len k r k' : hk_write core stack handle buf len k = Ok (r, k') -> untouched k k'.
Proof.
  unfold hk_write, hk_syscall, SyscallDispatch. cbn [Z.leb lookup]. intros E.
  apply obind_Ok in E as ([r1 k1] & E & E1). injection E1 as _ <-.
  change (Write stack handle buf len k = Ok (r1, k1)) in E. unfold Write in E.
  destruct (negb _); [by injection E as _ <-|]. apply obind_Ok in E as ([bytes|] & _ & E); [|by injection E as _ <-].
  apply obind_Ok in E as (d & _ & E). by injection E as _ <-.
Qed.

Lemma hk_write_all_loop_untouched fuel handle buf len written k r k' :
  hk_write_all_loop core stack fuel handle buf len written k = Ok (r, k') -> untouched k k'.
Proof.
  revert written k. induction fuel as [|fuel IH]; intros written k; [done|]. cbn [hk_write_all_loop].
  destruct (_ <? _); [|by intros [= _ <-]]. intros E. apply obind_Ok in E as ([r1 k1] & E1 & E).
  apply hk_write_untouched in E1. destruct r1 as [step|]; [|by injection E as _ <-].
  destruct (step <? 0); [by injection E as _ <-|]. destruct (step =? 0); [by injection E as _ <-|].
  eapply untouched_trans; [exact E1|]. by eapply IH.
Qed.

(** ** Printing *)

(** The text and its null at [a], readable, in frames of its own. *)
Record text_at p (a : Z) (s : list Z) : Prop := {
  tx_range : HK_USER_MIN <= a /\ a + Z.of_nat (length s) < HK_USER_MAX;
  tx_bytes : bytes_at p a (S (length s)) = s ++ [0];
  tx_pages x : a <= x <= a + Z.of_nat (length s) -> Paging.IsUserReadable p x = true /\
    reached (Paging.Translate p x) /\ Paging.Translate p x <> Paging.Translate p (character_at at_) }.

(** The program in memory. *)
Record image (own : Z -> option (nat * Z)) p : Prop := {
  im_greeting : text_at p (greeting_at at_) GREETING;
  im_interrupted : text_at p (interrupted_at at_) INTERRUPTED;
  im_goodbye : text_at p (goodbye_at at_) GOODBYE;
  im_slot : HK_USER_MIN <= character_at at_ < HK_USER_MAX;
  im_writable : Paging.IsUserWritable p (character_at at_) = true;
  im_reached : reached (Paging.Translate p (character_at at_));
  im_data : own (Paging.Translate p (character_at at_) / 4096 * 4096) = None }.

Lemma bytes_at_S p a n : bytes_at p a (S n) = User.user_byte p a :: bytes_at p (a + 1) n.
Proof.
  change (S n) with (1 + n)%nat. rewrite bytes_at_app. unfold bytes_at at 1. simpl. by rewrite Z.add_0_r.
Qed.

Lemma bytes_at_ext p p' a n :
  (forall x, a <= x < a + Z.of_nat n -> User.user_byte p' x = User.user_byte p x) -> bytes_at p' a n = bytes_at p a n.
Proof.
  intros H. apply list_fmap_ext. intros i x Hi. apply lookup_seq in Hi as [-> ?]. apply H. lia.
Qed.

Lemma hk_strlen_ok rounds k s a :
  Forall (fun c => c <> 0) s -> bytes_at (memory_ k) a (S (length s)) = s ++ [0] -> (length s < rounds)%nat ->
  0 <= a -> a + Z.of_nat (length s) < HK_USER_MAX -> hk_strlen rounds a k = Ok (Z.of_nat (length s)).
Proof.
  intros Hs. unfold HK_USER_MAX. revert a rounds. induction Hs as [|c s Hc _ IH]; intros a rounds Hb Hr Ha Hmax;
    (destruct rounds as [|rounds]; [simpl in Hr; lia|]); cbn [hk_strlen length] in *; rewrite bytes_at_S in Hb;
    pose proof (f_equal (default 0 ∘ head) Hb) as Hh; pose proof (f_equal tail Hb) as Hrest; cbn in Hh; rewrite Hh; [done|].
  cbn [tail app] in Hrest. rewrite (proj2 (Z.eqb_neq c 0) Hc). rewrite wrap_small by (unfold is_word; lia).
  rewrite (IH (a + 1) rounds Hrest) by lia. cbn [obind]. rewrite wrap_small by (unfold is_word; lia). f_equal. lia.
Qed.

Definition output k : TextWindow.window := TextWindow.windows (screen k) UserOutput.
(** The terminal behind [s] in the user's window. *)
Abbreviation printed k s t :=
  (TextWindow.terminal_print (TextWindow.GetWidth (output k)) (TextWindow.GetHeight (output k)) Cga.DefaultAttribute s t).

Lemma say_prints own pop A t k a s :
  kernel_ok stack_owner own pop A t k -> text_at (memory_ k) a s -> Forall (fun c => c <> 0) s ->
  (length s < STRLEN_ROUNDS)%nat ->
  exists k', Say core stack a k = Ok (Some tt, k') /\ untouched k k' /\ TextWindow.same_place (output k) (output k') /\
    kernel_ok stack_owner own pop A (printed k s t) k'.
Proof.
  intros Hk [[Hmin Hmax] Hb Hp] Hs Hl. unfold Say, hk_print. unfold HK_USER_MIN in Hmin.
  rewrite (proj2 (Z.eqb_neq a 0)) by lia. rewrite (hk_strlen_ok STRLEN_ROUNDS k s a) by (done || lia). cbn [obind].
  assert (Hs' : bytes_at (memory_ k) a (length s) = s).
  { replace (S (length s)) with (length s + 1)%nat in Hb by lia. rewrite bytes_at_app in Hb.
    apply app_inj_1 in Hb as [? _]; [done|]. unfold bytes_at. by rewrite length_fmap, length_seq. }
  destruct (hk_write_all_loop_ok stack_owner core stack (S (length s)) own pop A t k a (Z.of_nat (length s)) 0 Hk stack_room)
    as (k' & HE & Hpl & Hk'); try done; try lia.
  - intros x Hx. apply Hp. lia.
  - rewrite Nat2Z.id, Hs'. done.
  - unfold hk_write_all. rewrite Nat2Z.id, HE. cbn [obind].
    rewrite Z.add_0_r, Z.sub_0_r, Nat2Z.id, Hs' in Hk'. unfold hk_failed. rewrite (proj2 (Z.ltb_ge _ _)) by lia.
    exists k'. split_and!; [done|by eapply hk_write_all_loop_untouched|done|done].
Qed.

Lemma text_at_stored p p' a s :
  (forall x, 0 <= x -> Paging.Translate p' x = Paging.Translate p x /\ Paging.IsUserReadable p' x = Paging.IsUserReadable p x) ->
  (forall x, 0 <= x -> reached (Paging.Translate p x) -> Paging.Translate p x <> Paging.Translate p (character_at at_) ->
     User.user_byte p' x = User.user_byte p x) ->
  0 <= character_at at_ -> text_at p a s -> text_at p' a s.
Proof.
  intros Hq Hb Hc [[Hmin Hmax] Hby Hp]. unfold HK_USER_MIN in Hmin. split; [done| |].
  - rewrite <- Hby. apply bytes_at_ext. intros x Hx. apply Hb; [lia|apply Hp; lia..].
  - intros x Hx. destruct (Hq x ltac:(lia)) as [-> ->]. destruct (Hq _ Hc) as [-> _]. by apply Hp.
Qed.

Lemma image_stored own p p' :
  (forall x, 0 <= x -> Paging.Translate p' x = Paging.Translate p x /\
     Paging.IsUserReadable p' x = Paging.IsUserReadable p x /\ Paging.IsUserWritable p' x = Paging.IsUserWritable p x) ->
  (forall x, 0 <= x -> reached (Paging.Translate p x) -> Paging.Translate p x <> Paging.Translate p (character_at at_) ->
     User.user_byte p' x = User.user_byte p x) ->
  image own p -> image own p'.
Proof.
  intros Hq Hb [G I B S W R O]. assert (Hc : 0 <= character_at at_) by (unfold HK_USER_MIN in S; lia).
  assert (HT : forall a s, text_at p a s -> text_at p' a s).
  { intros a s. apply text_at_stored; [|done|done]. intros x Hx. by destruct (Hq x Hx) as (? & ? & _). }
  destruct (Hq _ Hc) as (E1 & _ & E3). split; rewrite ?E1, ?E3; auto.
Qed.

Lemma Echo_ok own pop A t k c :
  kernel_ok stack_owner own pop A t k -> image own (memory_ k) -> u8 c <> 0 ->
  exists k', Echo core stack at_ c k = Ok (Some tt, k') /\ image own (memory_ k') /\
    system (vault k') = system (vault k) /\ Keys (vault k') = Keys (vault k) /\ termination k' = termination k /\
    TextWindow.same_place (output k) (output k') /\ kernel_ok stack_owner own pop A (printed k [u8 c] t) k'.
Proof.
  intros [Ht HS Hkeys Hcodes Hw Hs] HI Hc. pose proof (im_slot _ _ HI) as [Hmin Hmax]. unfold HK_USER_MIN, HK_USER_MAX in *.
  destruct (user_store_ok own (memory_ k) (character_at at_) c Ht) as (p' & HE & Ht' & Hq & Hbyte & Hoth);
    [lia|exact (im_writable _ _ HI)|exact (im_reached _ _ HI)|exact (im_data _ _ HI)|].
  unfold Echo. rewrite HE. cbn [obind]. set (k1 := with_user_memory k p').
  assert (HI' : image own p') by (by apply (image_stored own (memory_ k))).
  assert (E1 : bytes_at (memory_ k1) (character_at at_) 1 = [u8 c]).
  { rewrite bytes_at_S. change (memory_ k1) with p'. by rewrite Hbyte. }
  destruct (hk_write_all_loop_ok stack_owner core stack 2 own pop A t k1 (character_at at_) 1 0) as (k' & HW' & Hpl & Hk');
    try done; try (unfold HK_USER_MIN, HK_USER_MAX; lia).
  - intros x Hx. replace x with (character_at at_) by lia. by apply (writable_readable own); [|lia|apply HI'].
  - change (Z.to_nat 1) with 1%nat. rewrite E1. by repeat constructor.
  - change (hk_write_all core stack HK_STDOUT (character_at at_) 1 k1)
      with (hk_write_all_loop core stack 2 HK_STDOUT (character_at at_) 1 0 k1). rewrite HW'. cbn [obind].
    apply hk_write_all_loop_untouched in HW' as (Em & Es & Ek & Et). exists k'.
    change (Z.to_nat (1 - 0)) with 1%nat in Hk'. rewrite Z.add_0_r, E1 in Hk'.
    split_and!; try done. by rewrite Em.
Qed.

(** ** Running alone *)

(** A live thread calls and no other is ready to run. *)
Record quiet A : Prop := {
  qu_caller : caller core A;
  qu_ready : s_ready A = [];
  qu_alive : s_dead A (s_run A core) = false }.

(** The program between two calls, for a window of [W] by [H] cells. *)
Record at_work W H own pop A t k : Prop := {
  aw_ok : kernel_ok stack_owner own pop A t k;
  aw_image : image own (memory_ k);
  aw_quiet : quiet A;
  aw_width : TextWindow.GetWidth (output k) = W;
  aw_height : TextWindow.GetHeight (output k) = H;
  aw_keys : Z.of_nat (length (buffered (vault k))) <= s_count A KeysAvailable }.

Abbreviation on_screen W H s t := (TextWindow.terminal_print W H Cga.DefaultAttribute s t).

Lemma same_place_size k k' : TextWindow.same_place (output k) (output k') ->
  TextWindow.GetWidth (output k') = TextWindow.GetWidth (output k) /\
  TextWindow.GetHeight (output k') = TextWindow.GetHeight (output k).
Proof. intros (E1 & E2 & E3 & E4 & _). unfold TextWindow.GetWidth, TextWindow.GetHeight. by rewrite E1, E2, E3, E4. Qed.

(** What is said next: the text appears and nothing else happens. *)
Lemma says W H own pop A t k a s :
  at_work W H own pop A t k -> text_at (memory_ k) a s -> Forall (fun c => c <> 0) s -> (length s < STRLEN_ROUNDS)%nat ->
  exists k', Say core stack a k = Ok (Some tt, k') /\ at_work W H own pop A (on_screen W H s t) k' /\
    buffered (vault k') = buffered (vault k) /\ termination k' = termination k.
Proof.
  intros [Hk HI Hq <- <- Hn] Ht Hs Hl. destruct (say_prints own pop A t k a s Hk Ht Hs Hl) as (k' & HE & (E1 & E2 & E3 & E4) & Hp & Hk').
  destruct (same_place_size k k' Hp) as [Ew Eh]. exists k'. split_and!; [done| |by rewrite E3|done].
  split; try done; rewrite ?E1, ?E3; done.
Qed.

Lemma echoes W H own pop A t k c :
  at_work W H own pop A t k -> u8 c <> 0 ->
  exists k', Echo core stack at_ c k = Ok (Some tt, k') /\ at_work W H own pop A (on_screen W H [u8 c] t) k' /\
    buffered (vault k') = buffered (vault k) /\ termination k' = termination k.
Proof.
  intros [Hk HI Hq <- <- Hn] Hc. destruct (Echo_ok own pop A t k c Hk HI Hc) as (k' & HE & HI' & E2 & E3 & E4 & Hp & Hk').
  destruct (same_place_size k k' Hp) as [Ew Eh]. exists k'. split_and!; [done| |by rewrite E3|done].
  split; try done; rewrite ?E3; done.
Qed.

(** [Yield] comes straight back. *)
Lemma yields W H own pop A t k : at_work W H own pop A t k ->
  exists k' A', hk_yield core stack k = Ok (Some 0, k') /\ at_work W H own pop A' t k' /\
    buffered (vault k') = buffered (vault k) /\ termination k' = termination k /\
    s_run A' core = s_run A core /\ waiting A' = waiting A.
Proof.
  intros [[Ht HS Hkeys Hcodes Hw Hs] HI [Hc Hr Hd] EW EH Hn].
  destruct (exec_yield stack_owner core pop A _ HS Hc) as (y & HE & HS'). cbn [astep] in HS'.
  destruct Hc as (Hc & H0 & Hi). assert (Hid : s_run A core <> s_IdleThread core).
  { intros E. apply Hi. by exists core. }
  rewrite Hd, (proj2 (Z.eqb_neq _ _) Hid), Hr in HS'. cbn [negb andb app] in HS'.
  unfold s_switch in HS'. cbn [pick] in HS'. rewrite Hd in HS'. cbn [fst snd default] in HS'. set (A' := Build_asys _ _ _ _ _ _) in HS'.
  assert (Erun : s_run A' core = s_run A core) by (apply upd_eq).
  unfold hk_yield, hk_syscall. change (SyscallDispatch stack core 2 0 0 0 k) with (Syscall.Yield core k). unfold Syscall.Yield. rewrite HE. cbn [obind].
  eexists _, A'. split; [reflexivity|]. split_and!; try done. split; try done.
  split; [|done|by rewrite Erun]. split; [done|]. by rewrite Erun.
Qed.

(** [hk_get_key] takes the oldest key. *)
Lemma gets W H own pop A t k key keys :
  at_work W H own pop A t k -> buffered (vault k) = key :: keys ->
  exists k' A', hk_get_key core stack k = Ok (Some (packed key, Some (packed key)), k') /\ at_work W H own pop A' t k' /\
    buffered (vault k') = keys /\ termination k' = termination k /\ is_word 8 (Key.Code key) /\
    s_run A' core = s_run A core /\ waiting A' = waiting A.
Proof.
  intros [[Ht HS Hkeys Hcodes Hw Hs] HI [Hc Hr Hd] EW EH Hn] Hb. rewrite Hb in Hn, Hcodes. cbn [length] in Hn.
  apply Forall_cons in Hcodes as [Hcode Hcodes].
  destruct (exec_consistent stack_owner pop A _ (System.EP core KeysAvailable) HS Hc eq_refl) as (y & HE & HS').
  cbn [astep] in HS'. rewrite (proj2 (Z.ltb_lt 0 _)) in HS' by lia.
  unfold hk_get_key, hk_syscall. change (SyscallDispatch stack core 3 0 0 0 k) with (Syscall.GetKey core k). unfold Syscall.GetKey.
  rewrite HE, (ss_count _ _ _ _ HS), (proj2 (Z.leb_gt _ 0)) by lia. cbn [obind]. unfold GetKey_rounds. rewrite Nat.add_1_r.
  cbn [GetKey_resume Keys with_system].
  pose proof (RingBuffer.Consume_cases KEYS Delivery.key_capacity _ Hkeys) as HC. rewrite Hb in HC.
  destruct HC as (b' & -> & Hw' & Hl). cbn [obind].
  assert (Hp : 0 <= packed key < 2 ^ 32) by (apply wrap_range; lia).
  rewrite (proj2 (Z.ltb_ge (packed key) 0)) by lia. rewrite wrap_small by (unfold is_word; lia).
  eexists _, (a_set_count A KeysAvailable (s_count A KeysAvailable - 1)). split; [reflexivity|].
  split_and!; try done. split; try done.
  - split; try done. cbn [vault with_vault Keys with_keys]. by rewrite Hl.
  - cbn [vault with_vault Keys with_keys s_count a_set_count]. rewrite Hl, upd_eq. lia.
Qed.

Lemma GetKey_keeps_rest k r k' : Syscall.GetKey core k = Ok (r, k') -> termination k' = termination k.
Proof.
  unfold Syscall.GetKey. intros E. apply obind_Ok in E as (y & _ & E). destruct (_ <=? 0); [by injection E as _ <-|].
  apply obind_Ok in E as ([r' v] & _ & E). by injection E as _ <-.
Qed.

(** Without a key the thread waits in line for one. *)
Lemma waits W H own pop A t k : at_work W H own pop A t k -> buffered (vault k) = [] ->
  exists k' A', hk_get_key core stack k = Ok (None, k') /\ kernel_ok stack_owner own pop A' t k' /\
    termination k' = termination k /\ waiting A' = waiting A ++ [s_run A core] /\ buffered (vault k') = [].
Proof.
  intros [Hk _ [Hc _ _] _ _ _] Hb. destruct (GetKey_ok stack_owner own pop A t k core Hk Hc) as (r & k' & A' & HE & Hk' & Hr).
  rewrite Hb in Hr. unfold hk_get_key, hk_syscall. change (SyscallDispatch stack core 3 0 0 0 k) with (Syscall.GetKey core k).
  rewrite HE. destruct r as [x| |]; [by destruct Hr as (? & ? & _)| |done]. destruct Hr as (E & Hwt & _). cbn [obind].
  exists k', A'. split_and!; try done. by apply GetKey_keeps_rest in HE.
Qed.

(** The end of the task: its status is recorded and the core goes idle. *)
Lemma exits W H own pop A t k status : at_work W H own pop A t k -> 0 <= status < 2 ^ 31 ->
  exists k' A', hk_exit core stack status k = Ok (None, k') /\ kernel_ok stack_owner own pop A' t k' /\
    termination k' = User.Record_ status (termination k) /\ s_run A' core = s_IdleThread core /\
    buffered (vault k') = buffered (vault k).
Proof.
  intros [[Ht HS Hkeys Hcodes Hw Hs] _ [Hc Hr _] _ _ _] Hst.
  destruct (exec_exit stack_owner core pop A _ HS Hc) as (y & HE & HS'). cbn [astep] in HS'. rewrite Hr in HS'.
  unfold hk_exit, hk_syscall. rewrite !wrap_small by (unfold is_word; try rewrite wrap_small by (unfold is_word; lia); lia).
  change (SyscallDispatch stack core 0 status 0 0 k) with (Syscall.Exit core status k).
  unfold Syscall.Exit, Terminate. rewrite HE. cbn [obind]. eexists _, _. split; [reflexivity|]. split; [by split|].
  split_and!; [|apply upd_eq|done]. cbn [termination]. f_equal. unfold to_signed. rewrite wrap_small by (unfold is_word; lia).
  by rewrite (proj2 (Z.ltb_lt _ _)) by lia.
Qed.

(** ** The whole session *)

(** What is left when the program stops. *)
Definition finished A (x : Z) (last : option Z) (before : User.Termination) A' k' : Prop :=
  match last with
  | Some status => termination k' = User.Record_ status before /\ s_run A' core = s_IdleThread core
  | None => termination k' = before /\ waiting A' = waiting A ++ [x] /\ buffered (vault k') = []
  end.

(** The loop of [main]: either it has ended the session, or it was left for the goodbye. *)
Definition loop_result W H own pop A t k (l : leave) k' : Prop :=
  let '(text, last) := session (buffered (vault k)) in
  match l with
  | Gone => exists A', kernel_ok stack_owner own pop A' (on_screen W H text t) k' /\
      finished A (s_run A core) last (termination k) A' k'
  | Break => exists A' shown, at_work W H own pop A' (on_screen W H shown t) k' /\ text = shown ++ GOODBYE /\
      last = Some 0 /\ termination k' = termination k
  | Return _ => False
  end.

Lemma key_read key : is_word 8 (Key.Code key) ->
  hk_key_code (packed key) = Key.Code key /\ hk_key_ascii (packed key) = Key.Ascii key /\
  hk_key_has (packed key) HK_MOD_CTRL = Key.Ctrl key /\ hk_failed (packed key) = false.
Proof.
  intros Hc. destruct (key_pack_bytes (Key.Code key) (Key.Ascii key) (ModifiersOf key) Hc (Ascii_word key) (ModifiersOf_word key))
    as (H1 & H2 & _). destruct (key_class_reads_packed key Hc) as (_ & _ & _ & H3). split_and!; [done|done|exact H3|].
  unfold hk_failed. apply Z.ltb_ge. apply wrap_range. lia.
Qed.

Lemma printable_byte c : is_word 8 c -> printable_character (to_signed 8 c) = true -> u8 (to_signed 8 c) = c /\ c <> 0.
Proof.
  intros Hc. unfold to_signed. rewrite (wrap_small 8 c) by done. unfold is_word in Hc. unfold printable_character.
  destruct (Z.ltb_spec c (2 ^ (8 - 1))); [|lia]. intros Hp. split; [|lia]. by apply wrap_small.
Qed.

(** A round that goes on, in front of the rest of the session. *)
Lemma loop_result_cons W H own pop A A1 t k k1 key keys l k' :
  buffered (vault k) = key :: keys -> buffered (vault k1) = keys -> termination k1 = termination k ->
  s_run A1 core = s_run A core -> waiting A1 = waiting A ->
  Key.Code key <> Key.ToUnderlying Key.ESCAPE ->
  Key.Ctrl key && (Key.Code key =? Key.ToUnderlying Key.C_) = false ->
  loop_result W H own pop A1 (on_screen W H (shown key) t) k1 l k' -> loop_result W H own pop A t k l k'.
Proof.
  intros Hb Hb1 Ht Hr Hw He Hc HL. unfold loop_result in *. rewrite Hb. rewrite Hb1 in HL. cbn [session].
  rewrite (proj2 (Z.eqb_neq _ _) He), Hc. destruct (session keys) as [text last]. destruct l as [| |s]; [| |done].
  - destruct HL as (A' & Hk & Hf). exists A'. split; [by rewrite terminal_print_app|].
    unfold finished in *. rewrite Ht, Hr, Hw in Hf. exact Hf.
  - destruct HL as (A' & sh & Hwk & -> & -> & Ht'). exists A', (shown key ++ sh).
    split_and!; [by rewrite terminal_print_app|by rewrite app_assoc|done|congruence].
Qed.

Lemma main_loop_ok fuel W H own pop A t k :
  at_work W H own pop A t k -> (length (buffered (vault k)) < fuel)%nat ->
  exists l k', main_loop core stack at_ fuel k = Ok (l, k') /\ loop_result W H own pop A t k l k'.
Proof.
  revert A t k. induction fuel as [|fuel IH]; intros A t k Hwk Hf; [lia|]. cbn [main_loop].
  destruct (buffered (vault k)) as [|key keys] eqn:Hb.
  { destruct (waits W H own pop A t k Hwk Hb) as (k' & A' & -> & Hk' & Ht & Hwt & Hb'). cbn [obind].
    exists Gone, k'. split; [done|]. unfold loop_result. rewrite Hb. cbn. by exists A'. }
  destruct (gets W H own pop A t k key keys Hwk Hb) as (k1 & A1 & -> & Hwk1 & Hb1 & Ht1 & Hcode & Hr1 & Hw1). cbn [obind from_option id].
  destruct (key_read key Hcode) as (-> & -> & -> & ->).
  change (hk_scancode_value HK_KEY_ESCAPE) with (Key.ToUnderlying Key.ESCAPE). change (hk_scancode_value HK_KEY_C) with (Key.ToUnderlying Key.C_).
  destruct (Z.eqb_spec (Key.Code key) (Key.ToUnderlying Key.ESCAPE)) as [He|He].
  { exists Break, k1. split; [done|]. unfold loop_result. rewrite Hb. cbn [session]. rewrite He, Z.eqb_refl. by exists A1, []. }
  destruct texts_short as (_ & Hin & _ & _ & Hil & _).
  destruct (Key.Ctrl key && _) eqn:Hctrl.
  { destruct (says W H own pop A1 t k1 (interrupted_at at_) INTERRUPTED Hwk1) as (k2 & -> & Hwk2 & _ & Ht2);
      [apply (im_interrupted _ _ (aw_image _ _ _ _ _ _ _ Hwk1))|done|done|]. cbn [obind].
    destruct (exits W H own pop A1 _ k2 130 Hwk2 ltac:(lia)) as (k3 & A3 & -> & Hk3 & Ht3 & Hr3 & _). cbn [obind].
    exists Gone, k3. split; [done|]. unfold loop_result. rewrite Hb. cbn [session].
    rewrite (proj2 (Z.eqb_neq _ _) He), Hctrl. exists A3. split; [done|]. split; [congruence|done]. }
  assert (Hgo : exists k2, (if printable_character (to_signed 8 (Key.Ascii key))
      then Echo core stack at_ (to_signed 8 (Key.Ascii key)) k1 else Ok (Some tt, k1)) = Ok (Some tt, k2) /\
      at_work W H own pop A1 (on_screen W H (shown key) t) k2 /\ buffered (vault k2) = keys /\ termination k2 = termination k).
  { unfold shown. destruct (printable_character _) eqn:Hp; [|by exists k1].
    destruct (printable_byte _ (Ascii_word key) Hp) as [Eb Hnz].
    destruct (echoes W H own pop A1 t k1 (to_signed 8 (Key.Ascii key)) Hwk1 ltac:(congruence)) as (k2 & HE & Hwk2 & Hb2 & Ht2).
    rewrite Eb in Hwk2. exists k2. split_and!; [done|done|congruence|congruence]. }
  destruct Hgo as (k2 & HE & Hwk2 & Hb2 & Ht2). destruct (IH A1 _ k2 Hwk2) as (l & k' & HL & HR); [rewrite Hb2; simpl in Hf; lia|].
  exists l, k'. split; [|by eapply loop_result_cons].
  destruct (printable_character _); [rewrite HE; exact HL|]. injection HE as ->. exact HL.
Qed.

(** C12: The demonstration program does what its user expects.  Started in a system where
    no other thread is ready, with its texts in memory and any keys typed ahead, it shows
    its greeting and echoes every printable character in the order typed; escape makes it
    say goodbye and end with status 0, control and C makes it say so and end with status
    130, and when the keys run out it waits for the next one.  The user's window shows
    exactly that text as a terminal would, the status is recorded once, and the kernel
    stays consistent. *)
Theorem hello_session W H own pop A t k fuel :
  at_work W H own pop A t k -> (length (buffered (vault k)) < fuel)%nat ->
  let '(text, last) := session (buffered (vault k)) in
  exists k' A', hk_main_trampoline core stack at_ fuel k = Ok k' /\
    kernel_ok stack_owner own pop A' (on_screen W H (GREETING ++ text) t) k' /\
    finished A (s_run A core) last (termination k) A' k'.
Proof.
  intros Hwk Hf. unfold hk_main_trampoline, main. destruct texts_short as (Hgn & _ & Hbn & Hgl & _ & Hbl).
  destruct (says W H own pop A t k (greeting_at at_) GREETING Hwk) as (k1 & -> & Hwk1 & Hb1 & Ht1);
    [apply (im_greeting _ _ (aw_image _ _ _ _ _ _ _ Hwk))|done|done|]. cbn [obind].
  destruct (yields W H own pop A _ k1 Hwk1) as (k2 & A2 & -> & Hwk2 & Hb2 & Ht2 & Hr2 & Hw2). cbn [obind].
  destruct (main_loop_ok fuel W H own pop A2 _ k2 Hwk2) as (l & k3 & -> & HL); [by rewrite Hb2, Hb1|]. cbn [obind].
  unfold loop_result in HL. rewrite Hb2, Hb1 in HL. destruct (session _) as [text last]. rewrite terminal_print_app.
  unfold finished in *. rewrite Ht2, Ht1 in HL. destruct l as [| |s]; [| |done].
  - destruct HL as (A' & Hk & Hfin). exists k3, A'. split; [done|]. split; [done|]. by rewrite Hr2, Hw2 in Hfin.
  - destruct HL as (A' & sh & Hwk3 & -> & -> & Ht3).
    destruct (says W H own pop A' _ k3 (goodbye_at at_) GOODBYE Hwk3) as (k4 & -> & Hwk4 & _ & Ht4);
      [apply (im_goodbye _ _ (aw_image _ _ _ _ _ _ _ Hwk3))|done|done|]. cbn [obind].
    destruct (exits W H own pop A' _ k4 0 Hwk4 ltac:(lia)) as (k5 & A5 & -> & Hk5 & Ht5 & Hr5 & _). cbn [obind].
    exists k5, A5. split; [done|]. rewrite terminal_print_app. split; [done|]. split; [congruence|done].
Qed.

End Spec.

(** ** From the file

    The loader leaves the program as [image] wants it: its texts come from segments of
    the file, the echoed character lies in the stack. *)

Section File.
Context {F : Type} {FA : FrameAllocator F} {FL : FrameAllocatorLaws F}.
Variables (m0 : mem) (file : Z) (at_ : placement).

(** The file puts [s] and a null at [a]. *)
Definition text_in_file (a : Z) (s : list Z) : Prop :=
  HK_USER_MIN <= a /\ a + Z.of_nat (length s) < HK_USER_MAX /\
  forall i c, (s ++ [0]) !! i = Some c -> exists h, owner (segments m0 file) (a + Z.of_nat i) = Some h /\
    expected m0 file h (a + Z.of_nat i) = c.

Lemma text_loaded own' (p : Paging.t F) task a s :
  (forall v, 0 <= v < 2 ^ 47 -> ~ in_stack task v -> forall h, owner (segments m0 file) v = Some h -> LoaderSpec.served m0 file own' p h v) ->
  (forall v, 0 <= v < 2 ^ 47 -> owner (segments m0 file) v <> None -> v <> character_at at_ ->
     Paging.Translate p v <> Paging.Translate p (character_at at_)) ->
  in_stack task (character_at at_) ->
  text_in_file a s -> (forall x, a <= x <= a + Z.of_nat (length s) -> ~ in_stack task x) -> text_at at_ p a s.
Proof.
  intros Hv Ht Hst (Hmin & Hmax & Hs) Hout. unfold HK_USER_MIN, HK_USER_MAX in *.
  assert (Hb : forall x, a <= x <= a + Z.of_nat (length s) -> exists h, owner (segments m0 file) x = Some h /\
    Some (expected m0 file h x) = (s ++ [0]) !! Z.to_nat (x - a)).
  { intros x Hx. destruct (lookup_lt_is_Some_2 (s ++ [0]) (Z.to_nat (x - a))) as [c Ec]; [rewrite length_app; simpl; lia|].
    destruct (Hs _ c Ec) as (h & Ho & He). rewrite Z2Nat.id in Ho, He by lia. replace (a + (x - a)) with x in Ho, He by lia.
    exists h. split; [done|]. by rewrite Ec, He. }
  split; [unfold HK_USER_MIN, HK_USER_MAX; lia| |].
  - apply list_eq. intros i. unfold bytes_at. rewrite list_lookup_fmap. destruct (decide (i < S (length s))%nat) as [Hi|Hi].
    + rewrite lookup_seq_lt by lia. cbn [fmap option_fmap option_map Nat.add].
      destruct (Hb (a + Z.of_nat i) ltac:(lia)) as (h & Ho & He). replace (Z.to_nat (a + Z.of_nat i - a)) with i in He by lia.
      rewrite <- He. f_equal. apply (sv_byte _ _ _ _ _ _ (Hv (a + Z.of_nat i) ltac:(lia) (Hout (a + Z.of_nat i) ltac:(lia)) h Ho)).
    + rewrite lookup_seq_ge by lia. symmetry. apply lookup_ge_None. rewrite length_app. simpl. lia.
  - intros x Hx. destruct (Hb x Hx) as (h & Ho & _). destruct (Hv x ltac:(lia) (Hout x Hx) h Ho) as [[Br _ _] _ Hr _ _].
    split_and!; [done|unfold reached; lia|]. apply Ht; [lia|by rewrite Ho|]. intros ->. by apply (Hout _ Hx).
Qed.

(** Loading the program puts it in place. *)
Theorem loaded_program_in_place own (u : User.t F) size :
  m0 = Paging.memory (User.paging u) ->
  tree own (User.paging u) -> watermark (User.s_NextStackTop u) -> file_ok m0 file size -> intact m0 file size own (User.paging u) ->
  text_in_file (greeting_at at_) GREETING -> text_in_file (interrupted_at at_) INTERRUPTED -> text_in_file (goodbye_at at_) GOODBYE ->
  let top := User.s_NextStackTop u in
  top - HK_USER_STACK_SIZE <= character_at at_ < top ->
  (forall a, a = greeting_at at_ \/ a = interrupted_at at_ \/ a = goodbye_at at_ -> a + Z.of_nat STRLEN_ROUNDS <= top - HK_USER_STACK_SIZE) ->
  exists r u', User.Load file size u = Ok (r, u') /\
    forall task, r = Some task -> exists own', image at_ own' (User.paging u').
Proof.
  intros Em Ht Hw Hfo HI Hg Hi Hb top Hslot Hlow.
  pose proof (Load_faithful (Paging.memory (User.paging u)) own u file size Ht Hw) as HL. cbv zeta in HL. rewrite <- Em in HL.
  destruct (HL Hfo HI) as (r & u' & HE & HT). clear HL.
  destruct (Load_ok own u file size Ht Hw) as (r2 & u2 & HE2 & _ & _ & HT2). rewrite HE in HE2. injection HE2 as <- <-.
  exists r, u'. split; [done|]. intros task Htask. destruct (HT task Htask) as (_ & own' & Ht' & HV).
  destruct (HT2 task Htask) as (_ & Etop & _). exists own'. fold top in Etop.
  assert (Hst : in_stack task (character_at at_)) by (unfold in_stack; rewrite Etop; exact Hslot).
  destruct Hw as [_ Hw]. unfold HK_USER_MIN, HK_USER_MAX, User.STACK_STRIDE, HK_USER_STACK_SIZE, User.GUARD_SIZE in *.
  change Paging.PAGE_SIZE with 4096 in *. fold top in Hw.
  assert (Hcr : 0 <= character_at at_ < 2 ^ 47) by lia.
  assert (HTx : forall a s, a + Z.of_nat (length s) < top - 64 * 1024 -> text_in_file a s -> text_at at_ (User.paging u') a s).
  { intros a s Ha Htx. apply (text_loaded own' (User.paging u') task); [| |done|done|].
    - intros v Hv Hn h Ho. destruct (HV v Hv) as (_ & Hs & _). specialize (Hs Hn). by rewrite Ho in Hs.
    - intros v Hv Ho Hne. destruct (HV v Hv) as (_ & _ & Hs). apply Hs; [done|done|by right|]. left. by left.
    - intros x Hx. unfold in_stack. rewrite Etop. unfold HK_USER_STACK_SIZE. lia. }
  destruct texts_short as (_ & _ & _ & L1 & L2 & L3).
  destruct (HV _ Hcr) as (Hs & _). destruct (Hs Hst) as ([Br Bd _] & _ & Hwr & _).
  split; [apply HTx; [|done]; pose proof (Hlow _ (or_introl eq_refl)); lia
         |apply HTx; [|done]; pose proof (Hlow _ (or_intror (or_introl eq_refl))); lia
         |apply HTx; [|done]; pose proof (Hlow _ (or_intror (or_intror eq_refl))); lia
         |unfold HK_USER_MIN, HK_USER_MAX; lia|done|unfold reached; lia|done].
Qed.

End File.

(** ** A session

    The program in the page of [small_mapped], the keys H, enter and escape typed ahead,
    and thread 0x200 on core 1. *)

#[local] Existing Instances demo_machine demo_code checked_build FrameSpec.debug_build quiet_hardware.

Fixpoint put (m : mem) (a : Z) (l : list Z) : mem :=
  match l with [] => m | c :: l => put (store8 m a c) (a + 1) l end.

Lemma put_out m a l x : ~ (a <= x < a + Z.of_nat (length l)) -> load8 (put m a l) x = load8 m x.
Proof.
  revert m a. induction l as [|c l IH]; intros m a Hx; [done|]. cbn [put length] in *. rewrite IH by lia.
  apply load8_store8_ne. lia.
Qed.

Definition hello_at : placement :=
  {| greeting_at := 0x400100; interrupted_at := 0x400200; goodbye_at := 0x400300; character_at := 0x400f00 |}.
Definition hello_memory : mem :=
  let base := Paging.ToVirtual 0x7000 in
  put (put (put (Paging.memory small_mapped) (base + 0x100) (GREETING ++ [0])) (base + 0x200) (INTERRUPTED ++ [0]))
      (base + 0x300) (GOODBYE ++ [0]).
Definition hello_tables : Paging.t Frame.Frame.t :=
  Paging.with_table small_mapped hello_memory (Paging.frames small_mapped) (Paging.s_TableCount small_mapped).

Lemma hello_frame_free : fa_free (Paging.frames small_mapped) 0x7000.
Proof. split; [reflexivity|]. split; vm_compute; [split; (discriminate || reflexivity)|reflexivity]. Qed.

Lemma hello_lengths : Z.of_nat (length (GREETING ++ [0])) < 0x100 /\ Z.of_nat (length (INTERRUPTED ++ [0])) < 0x100 /\
  Z.of_nat (length (GOODBYE ++ [0])) < 0x100.
Proof. split_and!; vm_compute; reflexivity. Qed.

Lemma hello_tree : exists own, tree own hello_tables /\ own 0x7000 = None.
Proof.
  destruct (mapped_tree _ _ small_mapped_ok) as [own Ht]. exists own. split.
  - apply (tree_data own small_mapped hello_memory); [exact Ht| |exact (tr_frames _ _ Ht)|intros q Hq; exact Hq].
    apply (run_same_tables own small_mapped 0x7000 1); [exact Ht|lia|reflexivity|lia|lia| |].
    + intros q [Hm Hr]. replace q with 0x7000; [exact hello_frame_free|]. pose proof (Z.div_mod q 4096 ltac:(lia)). lia.
    + intros a Ha. destruct hello_lengths as (L1 & L2 & L3). unfold hello_memory. cbv zeta.
      generalize dependent (Paging.ToVirtual 0x7000). intros base Ha. rewrite !put_out by lia. reflexivity.
  - destruct (own 0x7000) as [[n pre]|] eqn:E; [|done]. destruct (tr_own _ _ Ht _ _ _ E) as [_ Hn]. destruct Hn. exact hello_frame_free.
Qed.

(** [text_at], tested byte by byte. *)
Definition text_check (a : Z) (s : list Z) : bool :=
  (HK_USER_MIN <=? a) && (a + Z.of_nat (length s) <? HK_USER_MAX) &&
  bool_decide (bytes_at hello_tables a (S (length s)) = s ++ [0]) &&
  forallb (fun i => let x := a + Z.of_nat i in let f := Paging.Translate hello_tables x in
    Paging.IsUserReadable hello_tables x && (0 <=? f) && (f <? 2 ^ 47) && negb (f =? 0x7f00)) (seq 0 (S (length s))).

Lemma hello_slot : Paging.Translate hello_tables 0x400f00 = 0x7f00 /\ Paging.IsUserWritable hello_tables 0x400f00 = true.
Proof. split; vm_compute; reflexivity. Qed.

Lemma text_check_ok a s : text_check a s = true -> text_at hello_at hello_tables a s.
Proof.
  unfold text_check. intros [[[H1 H2]%andb_prop H3]%andb_prop H4]%andb_prop. apply bool_decide_eq_true_1 in H3.
  split; [lia|done|]. intros x Hx. rewrite forallb_forall in H4. specialize (H4 (Z.to_nat (x - a))).
  replace (a + Z.of_nat (Z.to_nat (x - a))) with x in H4 by lia. change (character_at hello_at) with 0x400f00.
  rewrite (proj1 hello_slot). cbv zeta in H4. unfold reached.
  assert (Hin : In (Z.to_nat (x - a)) (seq 0 (S (length s)))) by (apply in_seq; lia). apply H4 in Hin.
  apply andb_prop in Hin as [[[? ?]%andb_prop ?]%andb_prop ?]. split_and!; [done|lia|lia|lia].
Qed.

Lemma hello_texts : text_check 0x400100 GREETING = true /\ text_check 0x400200 INTERRUPTED = true /\
  text_check 0x400300 GOODBYE = true.
Proof. split_and!; vm_compute; reflexivity. Qed.

Definition pressed (c : Key.ScanCode) : Key.Key :=
  {| Key.Code := Key.ToUnderlying c; Key.Shift := false; Key.AltLeft := false; Key.AltRight := false;
     Key.CtrlLeft := false; Key.CtrlRight := false; Key.CapsLock := false; Key.NumLock := false; Key.ScrollLock := false |}.
Definition hello_keys : RingBuffer.t Key.Key :=
  (RingBuffer.Produce KEYS (RingBuffer.Produce KEYS (RingBuffer.Produce KEYS (RingBuffer.Empty KEYS)
    (pressed Key.H_)).2 (pressed Key.ENTER)).2 (pressed Key.ESCAPE)).2.
Definition typed : System.event := System.EV 0 KeysAvailable.
Definition hello_system : System.t Z := after typed (after typed (after typed demo_y4)).
Definition hello_abs : asys := astep typed (astep typed (astep typed demo_A4)).

Lemma hello_sim : sys_sim demo_owner demo_pop hello_abs hello_system.
Proof.
  apply (steps_sim demo_owner demo_pop [typed; typed; typed] _ demo_y4 _ _ demo_sim4).
  do 3 (eapply steps_cons; [exact I|apply after_ok; vm_compute; reflexivity|]). constructor.
Qed.

Definition hello_kernel : kernel Z unit Frame.Frame.t :=
  {| memory_ := hello_tables;
     vault := {| system := hello_system; ps2 := ps2 (vault demo_kernel); Keys := hello_keys; nmi_disabled := false |};
     screen := screen demo_kernel; termination := User.NoTermination |}.

Lemma hello_at_work : exists own, at_work demo_owner 1 hello_at 80 8 own demo_pop hello_abs blank_terminal hello_kernel.
Proof.
  destruct hello_tree as (own & Ht & Hown). destruct demo_kernel_ok as [own0 [_ _ _ _ Hw Hs]]. exists own.
  assert (Hkw : RingBuffer.wf KEYS hello_keys).
  { do 3 (apply (RingBuffer.Produce_fifo KEYS Delivery.key_capacity)). apply RingBuffer.Empty_wf. apply Delivery.key_capacity. }
  split.
  - split; cbn [memory_ vault system Keys screen hello_kernel].
    + exact Ht.
    + exact hello_sim.
    + exact Hkw.
    + refine (bool_decide_eq_true_1 _ _). vm_compute. reflexivity.
    + exact Hw.
    + exact Hs.
  - change (memory_ hello_kernel) with hello_tables. destruct hello_texts as (T1 & T2 & T3). split; [exact (text_check_ok _ _ T1)|exact (text_check_ok _ _ T2)|exact (text_check_ok _ _ T3)|..].
    + unfold HK_USER_MIN, HK_USER_MAX. cbn [character_at hello_at]. lia.
    + exact (proj2 hello_slot).
    + change (character_at hello_at) with 0x400f00. rewrite (proj1 hello_slot). unfold reached. lia.
    + change (character_at hello_at) with 0x400f00. rewrite (proj1 hello_slot). exact Hown.
  - split; [|reflexivity|reflexivity]. exact demo_caller.
  - reflexivity.
  - reflexivity.
  - vm_compute. discriminate.
Qed.

Lemma hello_session_witness :
  exists k', hk_main_trampoline 1 demo_stack hello_at 4 hello_kernel = Ok k' /\
    User.Status (termination k') = 0 /\ User.Count (termination k') = 1 /\
    (session (RingBuffer.contents KEYS hello_keys)).1 = [104; 10] ++ GOODBYE.
Proof.
  destruct hello_at_work as [own Hwk].
  pose proof (hello_session demo_owner 1 demo_stack hello_at ltac:(vm_compute; reflexivity) 80 8 own demo_pop hello_abs
    blank_terminal hello_kernel 4 Hwk) as H.
  assert (Es : session (RingBuffer.contents KEYS (Keys (vault hello_kernel))) = ([104; 10] ++ GOODBYE, Some 0)) by (vm_compute; reflexivity).
  rewrite Es in H. destruct H as (k' & A' & HE & _ & Ht & _); [vm_compute; lia|].
  exists k'. split; [exact HE|]. rewrite Ht. split; [reflexivity|]. split; [reflexivity|]. change hello_keys with (Keys (vault hello_kernel)).
  rewrite Es. reflexivity.
Defined.

End Hello.
