(* ===== verification/Selftest.v ===== *)
(** * Test/: the kernel's self tests on the models

    Test/Test.h and Test.cpp as a small monad that counts checks and prints the failed ones,
    and the suites of the ring buffer, the key decoder, the keyboard controller and the
    kernel stacks, written over the models of those components.  The suites are proved to
    pass from every state they can be started in, not run on one example: what they probe
    holds of the models, and the models behave as the tests expect of the code. *)

From S2P Require Import Prelude Mem Config RingBuffer FrameInterface Paging PagingSpec UserSpec LoaderSpec KernelStack StackMemory.
From S2P Require Import Device Keyboard Ps2 Epilogues Output Format Report.

Module Test.

(** [s_Checks], [s_Failures] and [s_Suites], with what was printed. *)
Record tally := { s_Checks : Z; s_Failures : Z; s_Suites : Z; Out : list item }.
Definition Started : tally := {| s_Checks := 0; s_Failures := 0; s_Suites := 0; Out := [] |}.

(** A suite works on a state, counts, and may panic. *)
Definition suite (S A : Type) : Type := tally -> S -> outcome (A * tally * S).

Definition ret {S A} (a : A) : suite S A := fun t s => Ok (a, t, s).
Definition bind {S A B} (m : suite S A) (k : A -> suite S B) : suite S B := fun t s =>
  let* r := m t s in let '(a, t, s) := r in k a t s.
#[local] Notation "'let+' x ':=' m 'in' k" := (bind m (fun x => k))
  (at level 200, x strict pattern, m at level 100, k at level 200).
#[local] Notation "m ;; k" := (bind m (fun _ => k)) (at level 100, k at level 200, right associativity).

(** A call of the component under test. *)
Definition call {S A} (f : S -> outcome (A * S)) : suite S A := fun t s => let* (a, s) := f s in Ok (a, t, s).
Definition step {S A} (f : S -> A * S) : suite S A := fun t s => let '(a, s) := f s in Ok (a, t, s).
Definition look {S A} (f : S -> A) : suite S A := fun t s => Ok (f s, t, s).

Definition Print {S} (l : list item) : suite S unit := fun t s =>
  Ok (tt, {| s_Checks := s_Checks t; s_Failures := s_Failures t; s_Suites := s_Suites t; Out := Out t ++ l |}, s).
Definition diverges {S A} : suite S A := fun _ _ => Diverges.

Definition Begin {S} (InName : string) : suite S unit := fun t s =>
  Ok (tt, {| s_Checks := s_Checks t; s_Failures := s_Failures t; s_Suites := u32 (s_Suites t + 1);
             Out := Out t ++ [Lit "-- "; Lit InName; EndLine; Flush] |}, s).

Definition Check {S} (InPassed : bool) (InExpression InFile : string) (InLine : Z) : suite S unit := fun t s =>
  let checks := u32 (s_Checks t + 1) in
  Ok (tt, if InPassed
          then {| s_Checks := checks; s_Failures := s_Failures t; s_Suites := s_Suites t; Out := Out t |}
          else {| s_Checks := checks; s_Failures := u32 (s_Failures t + 1); s_Suites := s_Suites t;
                  Out := Out t ++ [Lit "   FAIL "; Lit InFile; Char 58; Dec; UInt InLine; Lit "  "; Lit InExpression;
                                   EndLine; Flush] |}, s).

(** For numbers; [show] is the item the type of the operands selects. *)
Definition CheckEqual {S} (show : Z -> item) (InActual InExpected : Z) (InExpression InFile : string) (InLine : Z)
    : suite S unit :=
  let passed := InActual =? InExpected in
  Check passed InExpression InFile InLine ;;
  if passed then ret tt
  else Print [Lit "          actual "; show InActual; Lit ", expected "; show InExpected; EndLine; Flush].

Definition Finish {D} {HW : Hardware D} (t : tally) (d : D) : list item * D :=
  let passed := s_Failures t =? 0 in
  ([EndLine; Lit (if passed then "PASS" else "FAIL"); Lit ": "; Dec; UInt (s_Checks t); Lit " checks in "; UInt (s_Suites t);
    Lit " suites, "; UInt (s_Failures t); Lit " failed"; EndLine; Flush],
   Report.RequestExit true (if passed then Report.EXIT_SUCCESS else Report.EXIT_FAILURE) d).

(** A suite passes: it prints its name only and no failure is counted. *)
Definition passes {S} (name : string) (m : suite S unit) (s : S) (post : S -> Prop) : Prop :=
  forall t, exists t' s', m t s = Ok (tt, t', s') /\ post s' /\
    s_Failures t' = s_Failures t /\ s_Suites t' = u32 (s_Suites t + 1) /\
    Out t' = Out t ++ [Lit "-- "; Lit name; EndLine; Flush].

(** ** Test/RingBufferTest.cpp *)

Section RingBufferSuite.
Abbreviation buffer := (RingBuffer.t Z).
Abbreviation CAPACITY := 4.
Abbreviation Produce v := (step (fun b : buffer => RingBuffer.Produce CAPACITY b v)).
Abbreviation Count := (look (fun b : buffer => RingBuffer.Count CAPACITY b)).
Abbreviation IsEmpty := (look (fun b : buffer => RingBuffer.IsEmpty b)).
(** [Consume(value)]: whether there was one, and the variable behind the call. *)
Definition Consume (value : Z) : suite buffer (bool * Z) :=
  step (fun b => match RingBuffer.Consume CAPACITY b with (Some v, b) => ((true, v), b) | (None, b) => ((false, value), b) end).
Abbreviation FILE := "RingBufferTest.cpp".
Abbreviation TEST_CHECK line e text := (Check e text FILE line).
Abbreviation TEST_CHECK_EQ line a b text := (CheckEqual UInt a b text FILE line).

(** One round of the first loop: the failures counted and the variable. *)
Definition Round (round failures value : Z) : suite buffer (Z * Z) :=
  let+ p := Produce round in
  let+ q := (if p : bool then Produce (round + 1) else ret false) in
  if negb (p && q) then ret (u32 (failures + 1), value)
  else
    let+ n := Count in
    let failures := if negb (n =? 2) then u32 (failures + 1) else failures in
    let+ (ok, value) := Consume value in
    let failures := if negb ok || negb (value =? round) then u32 (failures + 1) else failures in
    let+ (ok, value) := Consume value in
    let failures := if negb ok || negb (value =? round + 1) then u32 (failures + 1) else failures in
    ret (failures, value).
Fixpoint Rounds (n : nat) (round failures value : Z) : suite buffer (Z * Z) :=
  match n with
  | O => ret (failures, value)
  | S k => let+ (failures, value) := Round round failures value in Rounds k (round + 1) failures value
  end.

(** [while (buffer.Produce(round)) {}] and [while (buffer.Consume(value)) {}]. *)
Fixpoint Fill (fuel : nat) (round : Z) : suite buffer unit :=
  match fuel with
  | O => diverges
  | S k => let+ p := Produce round in if p : bool then Fill k round else ret tt
  end.
Fixpoint Drain (fuel : nat) (value : Z) : suite buffer Z :=
  match fuel with
  | O => diverges
  | S k => let+ (ok, value) := Consume value in if ok : bool then Drain k value else ret value
  end.
Fixpoint FillRounds (n : nat) (round failures value : Z) : suite buffer Z :=
  match n with
  | O => ret failures
  | S k =>
      Fill (Z.to_nat CAPACITY) round ;;
      let+ n := Count in
      let failures := if negb (n =? RingBuffer.Capacity CAPACITY) then u32 (failures + 1) else failures in
      let+ value := Drain (Z.to_nat CAPACITY) value in
      let+ n := Count in
      let+ e := IsEmpty in
      let failures := if negb (n =? 0) || negb e then u32 (failures + 1) else failures in
      FillRounds k (round + 1) failures value
  end.

Definition RunRingBufferSuite : suite buffer unit :=
  Begin "RingBuffer" ;;
  TEST_CHECK_EQ 10 (RingBuffer.Capacity CAPACITY) 3 "buffer.Capacity() == 3u" ;;
  let+ e := IsEmpty in TEST_CHECK 11 e "buffer.IsEmpty()" ;;
  let+ n := Count in TEST_CHECK_EQ 12 n 0 "buffer.Count() == 0u" ;;
  let+ (ok, value) := Consume (-1) in TEST_CHECK 16 (negb ok) "!buffer.Consume(value)" ;;
  CheckEqual Int value (-1) "value == -1" FILE 17 ;;
  let+ p := Produce 1 in TEST_CHECK 19 p "buffer.Produce(1)" ;;
  let+ p := Produce 2 in TEST_CHECK 20 p "buffer.Produce(2)" ;;
  let+ p := Produce 3 in TEST_CHECK 21 p "buffer.Produce(3)" ;;
  let+ n := Count in TEST_CHECK_EQ 22 n 3 "buffer.Count() == 3u" ;;
  let+ e := IsEmpty in TEST_CHECK 23 (negb e) "!buffer.IsEmpty()" ;;
  let+ p := Produce 4 in TEST_CHECK 27 (negb p) "!buffer.Produce(4)" ;;
  let+ n := Count in TEST_CHECK_EQ 28 n 3 "buffer.Count() == 3u" ;;
  let+ (ok, value) := Consume value in TEST_CHECK 30 ok "buffer.Consume(value)" ;;
  CheckEqual Int value 1 "value == 1" FILE 31 ;;
  let+ (ok, value) := Consume value in TEST_CHECK 32 ok "buffer.Consume(value)" ;;
  CheckEqual Int value 2 "value == 2" FILE 33 ;;
  let+ (ok, value) := Consume value in TEST_CHECK 34 ok "buffer.Consume(value)" ;;
  CheckEqual Int value 3 "value == 3" FILE 35 ;;
  let+ e := IsEmpty in TEST_CHECK 36 e "buffer.IsEmpty()" ;;
  let+ (ok, value) := Consume value in TEST_CHECK 37 (negb ok) "!buffer.Consume(value)" ;;
  let+ (failures, value) := Rounds 1000 0 0 value in
  TEST_CHECK_EQ 57 failures 0 "failures == 0u" ;;
  let+ e := IsEmpty in TEST_CHECK 58 e "buffer.IsEmpty()" ;;
  let+ failures := FillRounds 100 0 0 value in
  TEST_CHECK_EQ 74 failures 0 "failures == 0u".

End RingBufferSuite.

(** ** Test/KeyDecoderTest.cpp *)

Definition MAKE_A : Z := 0x1e.
Definition MAKE_B : Z := 0x30.
Definition MAKE_LEFT_SHIFT : Z := 0x2a.
Definition MAKE_LEFT_CTRL : Z := 0x1d.
Definition MAKE_KP_8 : Z := 0x48.
Definition BREAK_BIT : Z := 0x80.
Definition PREFIX_EXTENDED : Z := 0xe0.

Section KeyDecoderSuite.
Context {L : Type} (SetLed : Led -> bool -> L -> L).

(** The decoder of the current block, with the lights. *)
Abbreviation decoder := (KeyDecoder.t * L)%type.
Definition Fresh : suite decoder unit := step (fun s => (tt, (KeyDecoder.Fresh, s.2))).
Definition Decode (code : Z) : suite decoder Key.Key :=
  step (fun s => let '(key, d, l) := KeyDecoder.Decode SetLed code s.1 s.2 in (key, (d, l))).
Definition IsPressed (c : Key.ScanCode) : suite decoder bool :=
  look (fun s => KeyDecoder.IsPressed s.1 (Key.ToUnderlying c)).
Abbreviation FILE := "KeyDecoderTest.cpp".
Abbreviation TEST_CHECK line e text := (Check e text FILE line).
Abbreviation TEST_CHECK_EQ line a b text := (CheckEqual Char a b text FILE line).

Definition RunKeyDecoderSuite : suite decoder unit :=
  Begin "KeyDecoder" ;;
  Fresh ;;
  let+ pressed := Decode MAKE_A in
  TEST_CHECK 21 (Key.IsValid pressed) "pressed.IsValid()" ;;
  TEST_CHECK_EQ 22 (Key.Ascii pressed) 97 "pressed.Ascii() == 'a'" ;;
  let+ p := IsPressed Key.A_ in TEST_CHECK 23 p "decoder.IsPressed(Key::ScanCode::A)" ;;
  let+ released := Decode (Z.lor MAKE_A BREAK_BIT) in
  TEST_CHECK 28 (negb (Key.IsValid released)) "!released.IsValid()" ;;
  let+ p := IsPressed Key.A_ in TEST_CHECK 29 (negb p) "!decoder.IsPressed(Key::ScanCode::A)" ;;
  Fresh ;;
  let+ shiftDown := Decode MAKE_LEFT_SHIFT in
  TEST_CHECK 35 (negb (Key.IsValid shiftDown)) "!shiftDown.IsValid()" ;;
  let+ shifted := Decode MAKE_A in
  TEST_CHECK 38 (Key.Shift shifted) "shifted.Shift" ;;
  TEST_CHECK_EQ 39 (Key.Ascii shifted) 65 "shifted.Ascii() == 'A'" ;;
  Decode (Z.lor MAKE_LEFT_SHIFT BREAK_BIT) ;;
  let+ plain := Decode MAKE_A in
  TEST_CHECK 43 (negb (Key.Shift plain)) "!plain.Shift" ;;
  TEST_CHECK_EQ 44 (Key.Ascii plain) 97 "plain.Ascii() == 'a'" ;;
  Fresh ;;
  let+ prefix := Decode PREFIX_EXTENDED in
  TEST_CHECK 52 (negb (Key.IsValid prefix)) "!prefix.IsValid()" ;;
  let+ up := Decode MAKE_KP_8 in
  TEST_CHECK 55 (Key.IsValid up) "up.IsValid()" ;;
  CheckEqual UChar (Key.Code up) (Key.ToUnderlying Key.UP) "ToUnderlying(up.Code) == ToUnderlying(Key::ScanCode::UP)" FILE 56 ;;
  CheckEqual UInt (Key.Ascii up) 0 "static_cast<unsigned>(up.Ascii()) == 0u" FILE 57 ;;
  Fresh ;;
  Decode PREFIX_EXTENDED ;;
  Decode MAKE_LEFT_CTRL ;;
  let+ rightCtrl := Decode MAKE_A in
  TEST_CHECK 68 (Key.Ctrl rightCtrl) "rightCtrl.Ctrl()" ;;
  TEST_CHECK 69 (Key.CtrlRight rightCtrl) "rightCtrl.CtrlRight" ;;
  TEST_CHECK 70 (negb (Key.CtrlLeft rightCtrl)) "!rightCtrl.CtrlLeft" ;;
  Decode PREFIX_EXTENDED ;;
  Decode (Z.lor MAKE_LEFT_CTRL BREAK_BIT) ;;
  let+ key := Decode MAKE_A in TEST_CHECK 74 (negb (Key.Ctrl key)) "!decoder.Decode(MAKE_A).Ctrl()" ;;
  Decode MAKE_LEFT_CTRL ;;
  let+ leftCtrl := Decode MAKE_B in
  TEST_CHECK 79 (Key.CtrlLeft leftCtrl) "leftCtrl.CtrlLeft" ;;
  TEST_CHECK 80 (negb (Key.CtrlRight leftCtrl)) "!leftCtrl.CtrlRight" ;;
  Fresh ;;
  Decode 0x7f ;;
  let+ after := Decode MAKE_A in
  TEST_CHECK 88 (Key.IsValid after) "after.IsValid()" ;;
  TEST_CHECK_EQ 89 (Key.Ascii after) 97 "after.Ascii() == 'a'".

End KeyDecoderSuite.

(** ** Test/Ps2ControllerTest.cpp *)

Section Ps2Suite.
Context {D : Type} {HW : Hardware D}.
Abbreviation FILE := "Ps2ControllerTest.cpp".
Abbreviation TEST_CHECK line e text := (Check e text FILE line).

(** [Fetch(key)]: whether there was one, and the variable behind the call. *)
Definition Fetch (key : Key.Key) : suite (Ps2.t D) (bool * Key.Key) :=
  call (fun s => let* (r, s) := Ps2.Fetch (Z.to_nat Ps2.RAW_SIZE) s in
                 Ok (match r with Some k => (true, k) | None => (false, key) end, s)).
Definition InjectForTest (code : Z) : suite (Ps2.t D) unit := step (fun s => (tt, Ps2.InjectForTest code s)).

(** [while (Fetch(key)) {}]. *)
Fixpoint FetchAll (fuel : nat) (key : Key.Key) : suite (Ps2.t D) Key.Key :=
  match fuel with
  | O => diverges
  | S k => let+ (ok, key) := Fetch key in if ok : bool then FetchAll k key else ret key
  end.
(** The counting loop, with [decoded] and [letters]. *)
Fixpoint FetchLetters (fuel : nat) (key : Key.Key) (decoded : Z) (letters : list Z)
    : suite (Ps2.t D) (Z * list Z * Key.Key) :=
  match fuel with
  | O => diverges
  | S k =>
      let+ (ok, key) := Fetch key in
      if ok : bool then
        let letters := if Key.IsValid key && negb (Key.Ascii key =? 0) && (length letters <? 3)%nat
                       then letters ++ [Key.Ascii key] else letters in
        FetchLetters k key (u32 (decoded + 1)) letters
      else ret (decoded, letters, key)
  end.
(** The queue holds fewer bytes than this. *)
Definition FETCHES : nat := Z.to_nat Ps2.RAW_SIZE.

Definition RunPs2ControllerSuite : suite (Ps2.t D) unit :=
  Begin "Ps2Controller" ;;
  let+ key := FetchAll FETCHES Key.Create in
  InjectForTest 0x1e ;;
  InjectForTest 0xfa ;;
  InjectForTest 0x30 ;;
  InjectForTest 0x9e ;;
  InjectForTest 0xb0 ;;
  let+ r := FetchLetters FETCHES key 0 [] in
  let '(decoded, letters, key) := r in
  CheckEqual UInt decoded 4 "decoded == 4u" FILE 35 ;;
  CheckEqual UInt (Z.of_nat (length letters)) 2 "letterCount == 2u" FILE 36 ;;
  CheckEqual Char (nth 0 letters 0) 97 "letters[0] == 'a'" FILE 37 ;;
  CheckEqual Char (nth 1 letters 0) 98 "letters[1] == 'b'" FILE 38 ;;
  InjectForTest 0xfa ;;
  InjectForTest 0xfa ;;
  let+ (ok, key) := Fetch key in
  TEST_CHECK 44 (negb ok) "!Ps2Controller::Fetch(key)" ;;
  InjectForTest 0xfe ;;
  InjectForTest 0x1e ;;
  let+ (ok, key) := Fetch key in
  TEST_CHECK 49 ok "Ps2Controller::Fetch(key)" ;;
  CheckEqual Char (Key.Ascii key) 97 "key.Ascii() == 'a'" FILE 50 ;;
  InjectForTest 0x9e ;;
  let+ _ := FetchAll FETCHES key in
  ret tt.

End Ps2Suite.

(** ** Test/KernelStackSuite.cpp *)

Section KernelStackSuite.
Context {F : Type} `{FA : FrameAllocator F}.
Abbreviation FILE := "KernelStackSuite.cpp".
Abbreviation TEST_CHECK line e text := (Check e text FILE line).
Abbreviation machine_ := (KernelStack.t F).

Definition with_data (s : machine_) (m : mem) : machine_ :=
  {| KernelStack.paging := Paging.with_memory (KernelStack.paging s) m; KernelStack.s_NextSlot := KernelStack.s_NextSlot s |}.

(** A kernel access to a 64-bit object within a page. *)
Definition poke (a v : Z) (s : machine_) : outcome (unit * machine_) :=
  let p := KernelStack.paging s in
  if Paging.IsWritable p a
  then Ok (tt, with_data s (store64 (Paging.memory p) (Paging.ToVirtual (Paging.Translate p a)) v))
  else Fault "page fault".
Definition peek (a : Z) (s : machine_) : outcome (Z * machine_) :=
  let p := KernelStack.paging s in
  if Paging.Translate p a =? 0 then Fault "page fault"
  else Ok (load64 (Paging.memory p) (Paging.ToVirtual (Paging.Translate p a)), s).

(** The loops over the stack, [n] words from [offset] on. *)
Fixpoint WriteWords (n : nat) (bottom offset : Z) : suite machine_ unit :=
  match n with
  | O => ret tt
  | S k => call (poke (bottom +64 offset) (bottom +64 offset)) ;; WriteWords k bottom (offset +64 8)
  end.
Fixpoint CountCorrupted (n : nat) (bottom offset corrupted : Z) : suite machine_ Z :=
  match n with
  | O => ret corrupted
  | S k =>
      let+ v := call (peek (bottom +64 offset)) in
      CountCorrupted k bottom (offset +64 8) (if negb (v =? bottom +64 offset) then u32 (corrupted + 1) else corrupted)
  end.
Definition WORDS : nat := Z.to_nat (Config.THREAD_STACK_SIZE / 8).

Abbreviation Translate a := (look (fun s : machine_ => Paging.Translate (KernelStack.paging s) a)).
Abbreviation IsWritable a := (look (fun s : machine_ => Paging.IsWritable (KernelStack.paging s) a)).
Abbreviation IsExecutable a := (look (fun s : machine_ => Paging.IsExecutable (KernelStack.paging s) a)).
Abbreviation IsGuardPage a := (look (fun s : machine_ => KernelStack.IsGuardPage s a)).

Definition RunKernelStackSuite : suite machine_ unit :=
  Begin "KernelStack" ;;
  let+ top := call KernelStack.Allocate in
  let bottom := top -64 Config.THREAD_STACK_SIZE in
  let guard := bottom -64 Paging.PAGE_SIZE in
  TEST_CHECK 13 (Config.KERNEL_STACK_BASE <? top) "top > Config::KERNEL_STACK_BASE" ;;
  CheckEqual ULongLong (top mod Paging.PAGE_SIZE) 0 "top % Paging::PAGE_SIZE == uintptr_t{0}" FILE 14 ;;
  let+ a := Translate bottom in TEST_CHECK 16 (negb (a =? 0)) "Paging::Translate(bottom) != 0" ;;
  let+ a := Translate (top -64 8) in TEST_CHECK 17 (negb (a =? 0)) "Paging::Translate(top - 8) != 0" ;;
  let+ b := IsWritable bottom in TEST_CHECK 18 b "Paging::IsWritable(bottom)" ;;
  let+ b := IsExecutable bottom in TEST_CHECK 19 (negb b) "!Paging::IsExecutable(bottom)" ;;
  WriteWords WORDS bottom 0 ;;
  let+ corrupted := CountCorrupted WORDS bottom 0 0 in
  CheckEqual UInt corrupted 0 "corrupted == 0u" FILE 30 ;;
  let+ a := Translate guard in CheckEqual ULongLong a 0 "Paging::Translate(guard) == uintptr_t{0}" FILE 34 ;;
  let+ b := IsWritable guard in TEST_CHECK 35 (negb b) "!Paging::IsWritable(guard)" ;;
  let+ b := IsGuardPage guard in TEST_CHECK 37 b "KernelStack::IsGuardPage(guard)" ;;
  let+ b := IsGuardPage ((guard +64 Paging.PAGE_SIZE) -64 1) in
  TEST_CHECK 38 b "KernelStack::IsGuardPage(guard + Paging::PAGE_SIZE - 1)" ;;
  let+ b := IsGuardPage bottom in TEST_CHECK 39 (negb b) "!KernelStack::IsGuardPage(bottom)" ;;
  let+ b := IsGuardPage (top -64 1) in TEST_CHECK 40 (negb b) "!KernelStack::IsGuardPage(top - 1)" ;;
  let+ b := IsGuardPage 0 in TEST_CHECK 41 (negb b) "!KernelStack::IsGuardPage(0)" ;;
  let+ b := IsGuardPage (Config.KERNEL_STACK_BASE -64 1) in
  TEST_CHECK 42 (negb b) "!KernelStack::IsGuardPage(Config::KERNEL_STACK_BASE - 1)" ;;
  let+ second := call KernelStack.Allocate in
  TEST_CHECK 46 ((top +64 Paging.PAGE_SIZE) +64 Config.THREAD_STACK_SIZE <=? second)
    "second >= top + Paging::PAGE_SIZE + Config::THREAD_STACK_SIZE" ;;
  let+ b := IsGuardPage ((second -64 Config.THREAD_STACK_SIZE) -64 Paging.PAGE_SIZE) in
  TEST_CHECK 47 b "KernelStack::IsGuardPage(second - Config::THREAD_STACK_SIZE - Paging::PAGE_SIZE)".

End KernelStackSuite.

(** ** Passing *)

(** Everything but the number of checks is as it was. *)
Definition clean (t t' : tally) : Prop :=
  s_Failures t' = s_Failures t /\ s_Suites t' = s_Suites t /\ Out t' = Out t.

(** Run from [s], whatever was counted before, [m] fails no check and ends as [Q] says; or,
    where [b] allows it, it panics. *)
Definition runs {S} (b : bool) (m : suite S unit) (s : S) (Q : S -> Prop) : Prop :=
  (b = true /\ forall t, exists why, m t s = Panic why) \/
  forall t, exists t' s', m t s = Ok (tt, t', s') /\ clean t t' /\ Q s'.

Lemma clean_trans t1 t2 t3 : clean t1 t2 -> clean t2 t3 -> clean t1 t3.
Proof. unfold clean. intuition congruence. Qed.

Section Runs.
Context {S : Type} (b : bool).
Implicit Types (s : S) (Q : S -> Prop).

Lemma runs_ret s Q : Q s -> runs b (ret tt) s Q.
Proof. intros H. right. intros t. by exists t, s. Qed.

(** One part of a suite after another. *)
Lemma runs_bind {A} (m : suite S A) (k : A -> suite S unit) s s' a Q :
  (forall t, exists t', m t s = Ok (a, t', s') /\ clean t t') -> runs b (k a) s' Q -> runs b (bind m k) s Q.
Proof.
  intros Hm Hk. destruct Hk as [[Hb Hk]|Hk]; [left; split; [done|]|right]; intros t; destruct (Hm t) as (t1 & E & C).
  - destruct (Hk t1) as [why HP]. exists why. unfold bind. rewrite E. exact HP.
  - destruct (Hk t1) as (t2 & s2 & E2 & C2 & HQ). exists t2, s2. unfold bind. rewrite E.
    split; [exact E2|]. split; [by eapply clean_trans|done].
Qed.

Lemma check_runs (e : bool) text file line s t : e = true ->
  exists t', Check e text file line t s = Ok (tt, t', s) /\ clean t t'.
Proof. intros ->. eexists. split; [reflexivity|]. by split_and!. Qed.

Lemma equal_runs show (x y : Z) text file line s t : x = y ->
  exists t', CheckEqual show x y text file line t s = Ok (tt, t', s) /\ clean t t'.
Proof. intros ->. unfold CheckEqual, bind. rewrite Z.eqb_refl. eexists. split; [reflexivity|]. by split_and!. Qed.

Lemma runs_check (e : bool) text file line k s Q : e = true -> runs b (k tt) s Q -> runs b (bind (Check e text file line) k) s Q.
Proof. intros He. apply runs_bind. intros t. by apply check_runs. Qed.

Lemma runs_equal show x y text file line k s Q : x = y -> runs b (k tt) s Q -> runs b (bind (CheckEqual show x y text file line) k) s Q.
Proof. intros He. apply runs_bind. intros t. by apply equal_runs. Qed.

Lemma runs_last_check (e : bool) text file line s Q : e = true -> Q s -> runs b (Check e text file line) s Q.
Proof. intros He HQ. right. intros t. destruct (check_runs e text file line s t He) as (t' & E & C). by exists t', s. Qed.

Lemma runs_last_equal show x y text file line s Q : x = y -> Q s -> runs b (CheckEqual show x y text file line) s Q.
Proof. intros He HQ. right. intros t. destruct (equal_runs show x y text file line s t He) as (t' & E & C). by exists t', s. Qed.

Lemma runs_look {A} (f : S -> A) k s Q : runs b (k (f s)) s Q -> runs b (bind (look f) k) s Q.
Proof. apply runs_bind. intros t. by exists t. Qed.

Lemma runs_step {A} (f : S -> A * S) k s a s' Q : f s = (a, s') -> runs b (k a) s' Q -> runs b (bind (step f) k) s Q.
Proof. intros E. apply runs_bind. intros t. exists t. unfold step. by rewrite E. Qed.

Lemma runs_call {A} (f : S -> outcome (A * S)) k s a s' Q :
  f s = Ok (a, s') -> runs b (k a) s' Q -> runs b (bind (call f) k) s Q.
Proof. intros E. apply runs_bind. intros t. exists t. unfold call. by rewrite E. Qed.

(** A loop counts nothing. *)
Lemma runs_loop {A} (m : suite S A) k s a s' Q :
  (forall t, m t s = Ok (a, t, s')) -> runs b (k a) s' Q -> runs b (bind m k) s Q.
Proof. intros E. apply runs_bind. intros t. exists t. by rewrite E. Qed.

(** A call that panics ends the suite. *)
Lemma runs_panic {A} (f : S -> outcome (A * S)) k s why Q : b = true -> f s = Panic why -> runs b (bind (call f) k) s Q.
Proof. intros Hb E. left. split; [done|]. intros t. exists why. unfold bind, call. by rewrite E. Qed.

End Runs.

Lemma passes_runs {S} name (m : suite S unit) s Q : runs false m s Q -> passes name (Begin name ;; m) s Q.
Proof.
  intros [[? _]|H]; [done|]. intros t.
  set (t0 := {| s_Checks := s_Checks t; s_Failures := s_Failures t; s_Suites := u32 (s_Suites t + 1);
    Out := Out t ++ [Lit "-- "; Lit name; EndLine; Flush] |}).
  destruct (H t0) as (t' & s' & E & (C1 & C2 & C3) & HQ). exists t', s'. by split_and!.
Qed.

Lemma passes_or_panics {S} name (m : suite S unit) s Q : runs true m s Q ->
  (forall t, exists why, (Begin name ;; m) t s = Panic why) \/ passes name (Begin name ;; m) s Q.
Proof. intros [[_ H]|H]; [left; intros t; apply H|right; apply passes_runs; by right]. Qed.

(** One line of a suite on a concrete state. *)
Ltac run_line :=
  lazymatch goal with
  | |- runs _ (bind (Check _ _ _ _) _) _ _ => apply runs_check; [vm_compute; reflexivity|]
  | |- runs _ (bind (CheckEqual _ _ _ _ _ _) _) _ _ => apply runs_equal; [vm_compute; reflexivity|]
  | |- runs _ (bind (look _) _) _ _ => apply runs_look
  | |- runs _ (bind (step _) _) _ _ => eapply runs_step; [vm_compute; reflexivity|]
  | |- runs _ (bind (call _) _) _ _ => eapply runs_call; [vm_compute; reflexivity|]
  | |- runs _ (bind _ _) _ _ => eapply runs_loop; [intros t; vm_compute; reflexivity|]
  | |- runs _ (Check _ _ _ _) _ _ => apply runs_last_check; [vm_compute; reflexivity|]
  | |- runs _ (CheckEqual _ _ _ _ _ _) _ _ => apply runs_last_equal; [vm_compute; reflexivity|]
  | |- runs _ (ret tt) _ _ => apply runs_ret
  end; cbv beta iota.

(** The suite of the ring buffer passes. *)
Theorem ring_buffer_suite_passes :
  passes "RingBuffer" RunRingBufferSuite (RingBuffer.Empty 4) (fun b => RingBuffer.IsEmpty b = true).
Proof.
  apply passes_runs. unfold Consume. repeat run_line. vm_compute. reflexivity.
Qed.

(** The suite of the key decoder passes, from any decoder, and leaves the lights alone. *)
Theorem key_decoder_suite_passes {L} (SetLed : Led -> bool -> L -> L) s :
  passes "KeyDecoder" (RunKeyDecoderSuite SetLed) s (fun s' => s'.2 = s.2).
Proof.
  unfold RunKeyDecoderSuite. apply passes_runs. destruct s as [d l]. unfold Fresh, Decode, IsPressed. repeat run_line. reflexivity.
Qed.

(** ** The controller's queue of bytes *)

Section Ps2Passes.
Context {D : Type} {HW : Hardware D}.
Implicit Types s : Ps2.t D.

(** The parts of the driver, with the queue as a list. *)
Record holds (dv : D) (leds : Z) (d : KeyDecoder.t) (l : list Z) s : Prop := {
  hd_device : Ps2.device s = dv;
  hd_leds : Ps2.s_Leds s = leds;
  hd_decoder : Ps2.s_Decoder s = d;
  hd_wf : RingBuffer.wf Ps2.RAW_SIZE (Ps2.s_RawBytes s);
  hd_bytes : RingBuffer.contents Ps2.RAW_SIZE (Ps2.s_RawBytes s) = l }.

(** The first byte that is not a reply, and those behind it. *)
Fixpoint next_code (l : list Z) : option (Z * list Z) :=
  match l with [] => None | b :: l => if Delivery.is_reply b then next_code l else Some (b, l) end.

Lemma inject_holds code dv leds d l s : holds dv leds d l s -> (length l < 63)%nat ->
  holds dv leds d (l ++ [code]) (Ps2.InjectForTest code s).
Proof.
  intros [<- <- <- Hw <-] Hl. destruct (Delivery.produce_raw _ code 0 Hw ltac:(lia)) as [Hw' Hc]. by split.
Qed.

Lemma fetch_holds dv leds d l s fuel : holds dv leds d l s -> (length l < fuel)%nat ->
  exists b : RingBuffer.t Z, (Ps2.Fetch fuel s =
    match next_code l with
    | None => Ok (None, Ps2.with_RawBytes s b)
    | Some (code, _) =>
        let '(key, d', (dv', leds')) := KeyDecoder.Decode Ps2.SetLed code d (dv, leds) in
        Ok (Some key, {| Ps2.device := dv'; Ps2.s_Decoder := d'; Ps2.s_Leds := leds'; Ps2.s_RawBytes := b |})
    end) /\ RingBuffer.wf Ps2.RAW_SIZE b /\
    RingBuffer.contents Ps2.RAW_SIZE b = match next_code l with None => [] | Some (_, l') => l' end.
Proof.
  revert l s. induction fuel as [|fuel IH]; intros l s [Hv Hl Hd Hw Hc] Hf; [lia|]. cbn [Ps2.Fetch].
  pose proof (Delivery.raw_consume _ Hw) as HC. rewrite Hc in HC. destruct l as [|x l].
  - rewrite HC. by eexists.
  - destruct HC as (b' & -> & Hw' & Hc'). fold (Delivery.is_reply x). cbn [next_code length] in *.
    destruct (Delivery.is_reply x).
    + by apply (IH l (Ps2.with_RawBytes s b')); [split|lia].
    + exists b'. cbn [Ps2.s_Decoder Ps2.device Ps2.s_Leds Ps2.s_RawBytes Ps2.with_RawBytes]. by rewrite Hd, Hv, Hl.
Qed.

Lemma holds_length dv leds d l s : holds dv leds d l s -> (length l < Z.to_nat Ps2.RAW_SIZE)%nat.
Proof.
  intros [_ _ _ Hw <-]. rewrite RingBuffer.contents_length.
  pose proof (RingBuffer.distance_range _ Delivery.raw_capacity _ Hw). lia.
Qed.

(** [Fetch] of the suite on an empty queue, and on one with a code that moves no light. *)
Lemma fetch_none key dv leds d l s : holds dv leds d l s -> next_code l = None ->
  exists s', holds dv leds d [] s' /\ forall t, Fetch key t s = Ok ((false, key), t, s').
Proof.
  intros H E. destruct (fetch_holds dv leds d l s _ H (holds_length _ _ _ _ _ H)) as (b & HF & Hw & Hc).
  rewrite E in HF, Hc. exists (Ps2.with_RawBytes s b). split; [destruct H; by split|].
  intros t. unfold Fetch, call. by rewrite HF.
Qed.

Lemma fetch_code key dv leds d l s code l' k d' : holds dv leds d l s -> next_code l = Some (code, l') ->
  KeyDecoder.Decode Ps2.SetLed code d (dv, leds) = (k, d', (dv, leds)) ->
  exists s', holds dv leds d' l' s' /\ forall t, Fetch key t s = Ok ((true, k), t, s').
Proof.
  intros H E ED. destruct (fetch_holds dv leds d l s _ H (holds_length _ _ _ _ _ H)) as (b & HF & Hw & Hc).
  rewrite E, ED in HF. rewrite E in Hc. eexists. split; [|intros t; unfold Fetch, call; rewrite HF; reflexivity]. by split.
Qed.

(** The loop that empties the queue, when only replies are in it. *)
Lemma fetch_all_none key dv leds d l s : holds dv leds d l s -> next_code l = None ->
  exists s', holds dv leds d [] s' /\ forall t, FetchAll FETCHES key t s = Ok (key, t, s').
Proof.
  intros H E. destruct (fetch_none key dv leds d l s H E) as (s' & H' & HF). exists s'. split; [done|].
  intros t. change FETCHES with (S 63). cbn [FetchAll]. unfold bind. by rewrite HF.
Qed.

Lemma fetch_all_code key dv leds d l s code k d' n : holds dv leds d l s -> next_code l = Some (code, []) ->
  KeyDecoder.Decode Ps2.SetLed code d (dv, leds) = (k, d', (dv, leds)) ->
  exists s', holds dv leds d' [] s' /\ forall t, FetchAll (S (S n)) key t s = Ok (k, t, s').
Proof.
  intros H E ED. destruct (fetch_code key dv leds d l s code [] k d' H E ED) as (s1 & H1 & HF1).
  destruct (fetch_none k dv leds d' [] s1 H1 eq_refl) as (s2 & H2 & HF2). exists s2. split; [done|].
  intros t. cbn [FetchAll]. unfold bind. rewrite HF1. cbn [obind]. by rewrite HF2.
Qed.

(** The codes of a list, decoded one after the other without moving a light. *)
Fixpoint decodes (dv : D) (leds : Z) (d : KeyDecoder.t) (l : list Z) (keys : list Key.Key) (d' : KeyDecoder.t) : Prop :=
  match keys with
  | [] => next_code l = None /\ d' = d
  | k :: keys => exists code l1 d1, next_code l = Some (code, l1) /\
      KeyDecoder.Decode Ps2.SetLed code d (dv, leds) = (k, d1, (dv, leds)) /\ decodes dv leds d1 l1 keys d'
  end.
(** What the counting loop makes of the keys it gets. *)
Fixpoint letters_of (keys : list Key.Key) (letters : list Z) : list Z :=
  match keys with
  | [] => letters
  | k :: keys => letters_of keys (if Key.IsValid k && negb (Key.Ascii k =? 0) && (length letters <? 3)%nat
                                  then letters ++ [Key.Ascii k] else letters)
  end.

Lemma last_of_cons {A} (l : list A) a b : List.last (a :: l) b = List.last l a.
Proof. revert a b. induction l as [|c l IH]; intros a b; [done|]. change (List.last (c :: l) b = List.last (c :: l) a). by rewrite !IH. Qed.

Lemma fetch_letters keys key dv leds d l s d' n letters : holds dv leds d l s -> decodes dv leds d l keys d' ->
  0 <= n -> n + Z.of_nat (length keys) < 2 ^ 32 ->
  exists s', holds dv leds d' [] s' /\ forall more t,
    FetchLetters (S (length keys + more)) key n letters t s =
    Ok ((n + Z.of_nat (length keys), letters_of keys letters, List.last keys key), t, s').
Proof.
  revert key d l s n letters. induction keys as [|k keys IH]; intros key d l s n letters H Hd Hn Hn'.
  - destruct Hd as [E ->]. destruct (fetch_none key dv leds d l s H E) as (s' & H' & HF). exists s'. split; [done|].
    intros more t. cbn [FetchLetters]. unfold bind. rewrite HF. cbn. by rewrite Z.add_0_r.
  - destruct Hd as (code & l1 & d1 & E & ED & Hd). cbn [length] in Hn'.
    destruct (fetch_code key dv leds d l s code l1 k d1 H E ED) as (s1 & H1 & HF).
    edestruct (IH k d1 l1 s1 (n + 1)) as (s' & H' & HL); [done|done|lia|lia|].
    exists s'. split; [done|]. intros more t. cbn [length Nat.add]. cbn [FetchLetters]. unfold bind at 1. rewrite HF.
    cbn [obind]. rewrite (wrap_small 32 (n + 1)) by (unfold is_word; lia). etrans; [apply HL|].
    cbn [letters_of]. rewrite last_of_cons. replace (n + 1 + Z.of_nat (length keys)) with (n + Z.of_nat (length (k :: keys))) by (cbn [length]; lia). reflexivity.
Qed.

Lemma runs_inject code (k : unit -> suite (Ps2.t D) unit) dv leds d l s Q : holds dv leds d l s -> (length l < 63)%nat ->
  (forall s', holds dv leds d (l ++ [code]) s' -> runs false (k tt) s' Q) -> runs false (bind (InjectForTest code) k) s Q.
Proof.
  intros H Hl Hk. eapply runs_step; [reflexivity|]. apply Hk. by apply inject_holds.
Qed.

(** 'a' down and up. *)
Lemma press_a (dv : D) leds : exists k d k' d',
  KeyDecoder.Decode Ps2.SetLed 0x1e KeyDecoder.Fresh (dv, leds) = (k, d, (dv, leds)) /\ Key.Ascii k = 97 /\
  KeyDecoder.Decode Ps2.SetLed 0x9e d (dv, leds) = (k', d', (dv, leds)).
Proof. do 4 eexists. split; [vm_compute; reflexivity|]. split; vm_compute; reflexivity. Qed.

Ltac inject H := lazymatch type of H with holds _ _ _ _ ?s =>
  eapply runs_inject; [exact H|cbn; lia|]; clear dependent s; intros s H; cbn [app] in H end.

(** The suite of the keyboard controller passes on any hardware, when nothing but replies
    waits in the queue and no key is down; it touches no device and leaves an empty queue. *)
Theorem ps2_suite_passes s dv leds l : holds dv leds KeyDecoder.Fresh l s -> next_code l = None ->
  passes "Ps2Controller" RunPs2ControllerSuite s (fun s' => exists d, holds dv leds d [] s').
Proof.
  intros H E. unfold RunPs2ControllerSuite. apply passes_runs.
  destruct (fetch_all_none Key.Create dv leds _ l s H E) as (s1 & H1 & HF1). eapply runs_loop; [exact HF1|].
  do 5 inject H1.
  assert (Hd : exists keys d', decodes dv leds KeyDecoder.Fresh [30; 250; 48; 158; 176] keys d' /\
    length keys = 4%nat /\ letters_of keys [] = [97; 98] /\ d' = KeyDecoder.Fresh).
  { eexists [_; _; _; _], _. split; [cbn [decodes]; do 4 (eexists _, _, _; split; [vm_compute; reflexivity|]; split; [vm_compute; reflexivity|])|].
    - split; reflexivity.
    - split_and!; vm_compute; reflexivity. }
  destruct Hd as (keys & d2 & Hd & Hlen & Hlet & ->).
  destruct (fetch_letters keys Key.Create dv leds _ _ s1 _ 0 [] H1 Hd) as (s2 & H2 & HF2); [lia|lia|].
  rewrite Hlen, Hlet in HF2.
  eapply runs_loop; [exact (HF2 59%nat)|]. cbv beta iota. do 4 run_line. do 2 inject H2.
  destruct (fetch_none (List.last keys Key.Create) dv leds _ _ _ H2 eq_refl) as (s3 & H3 & HF3).
  eapply runs_loop; [exact HF3|]. cbv beta iota. run_line. do 2 inject H3.
  destruct (press_a dv leds) as (k & d3 & k' & d4 & ED & Ha & ED').
  destruct (fetch_code (List.last keys Key.Create) dv leds _ _ _ 0x1e [] _ _ H3 eq_refl ED) as (s4 & H4 & HF4).
  eapply runs_loop; [exact HF4|]. cbv beta iota. run_line. apply runs_equal; [exact Ha|]. inject H4.
  destruct (fetch_all_code k dv leds _ _ _ 0x9e k' d4 62 H4 eq_refl ED') as (s5 & H5 & HF5).
  eapply runs_loop; [exact HF5|]. apply runs_ret. by exists d4.
Qed.
End Ps2Passes.

(** ** The words of a stack *)

Section KernelStackPasses.
Context {F : Type} {FA : FrameAllocator F} {FL : FrameAllocatorLaws F}.
Implicit Types s : KernelStack.t F.
Import Paging KernelStack.

(** Memory outside the tables may change; the stacks stay where they are. *)
Lemma stack_data own k bottom r s m' : stack_at own k bottom r s ->
  (forall x, ~ (r + Config.DIRECT_MAP_BASE <= x < r + Config.DIRECT_MAP_BASE + 16384) -> load8 m' x = load8 (memory (paging s)) x) ->
  stack_at own k bottom r (with_data s m').
Proof.
  intros [Hst Ht Hr Hd Hb Hp] Hm.
  assert (HT : same_tables own (memory (paging s)) m').
  { intros q n pre i Hq Hi. destruct (tr_own _ _ Ht q n pre Hq) as [Hdm _]. unfold ent, entry_of. rewrite slot_eq by done.
    apply load_ext. intros x Hx. apply Hm. intros Hin. destruct Hdm as [Hqm _].
    assert (E : (x - Config.DIRECT_MAP_BASE) / 4096 * 4096 = q) by (apply page_at; lia).
    pose proof (Hd (x - Config.DIRECT_MAP_BASE) ltac:(lia)) as Hn. rewrite E in Hn. congruence. }
  destruct (tree_data own (paging s) m' (frames (paging s)) Ht HT (tr_frames _ _ Ht)) as [Ht' Hmap]; [done|].
  split; [|exact Ht'|done|done|done|].
  - destruct Hst as [_ S2 S3 S4]. split; [by exists own|done|done|]. intros w Hw.
    assert (E : mapping (paging (with_data s m')) w = mapping (paging s) w) by (apply Hmap; unfold Config.KERNEL_STACK_BASE in Hw; lia).
    rewrite E. by apply S4.
  - intros w Hw. destruct (Hp w Hw) as (P1 & P2 & P3).
    destruct (queries_same own own (paging s) (paging (with_data s m')) w Ht Ht' ltac:(lia) eq_refl (Hmap w ltac:(lia)))
      as [-> -> -> _ _]. done.
Qed.

(** The loop that writes leaves its own address in every word. *)
Lemma WriteWords_ok own k bottom r n : forall offset s, stack_at own k bottom r s -> 0 <= offset -> offset + 8 * Z.of_nat n <= 16384 ->
  exists m', (forall t, WriteWords n bottom offset t s = Ok (tt, t, with_data s m')) /\
    (forall x, ~ (r + Config.DIRECT_MAP_BASE + offset <= x < r + Config.DIRECT_MAP_BASE + offset + 8 * Z.of_nat n) ->
       load8 m' x = load8 (memory (paging s)) x) /\
    forall i, 0 <= i < Z.of_nat n ->
      load64 m' (r + Config.DIRECT_MAP_BASE + offset + 8 * i) = bottom + offset + 8 * i.
Proof.
  induction n as [|n IH]; intros offset s HS Ho Hn.
  - exists (memory (paging s)). split; [by intros t; destruct s as [[]]|]. split; [done|lia].
  - destruct (sa_run _ _ _ _ _ HS) as (Hr & _ & Hre). destruct (sa_bottom _ _ _ _ _ HS) as [Hb0 Hb].
    destruct (sa_pages _ _ _ _ _ HS (bottom + offset) ltac:(lia)) as (HT & HW & _).
    set (m1 := store64 (memory (paging s)) (r + Config.DIRECT_MAP_BASE + offset) (bottom + offset)).
    assert (Hm1 : forall x, ~ (r + Config.DIRECT_MAP_BASE + offset <= x < r + Config.DIRECT_MAP_BASE + offset + 8) ->
      load8 m1 x = load8 (memory (paging s)) x) by (intros x Hx; apply load8_store_out; lia).
    destruct (IH (offset + 8) (with_data s m1)) as (m' & HR & Hout & Hin); [|lia|lia|].
    { apply stack_data; [done|]. intros x Hx. apply Hm1. lia. }
    exists m'. split_and!.
    + intros t. cbn [WriteWords]. unfold bind, call, poke.
      rewrite !(wrap_small 64) by (unfold is_word; lia). rewrite HW, HT.
      rewrite (ToVirtual_eq _ 8) by lia. replace (r + (bottom + offset - bottom) + Config.DIRECT_MAP_BASE)
        with (r + Config.DIRECT_MAP_BASE + offset) by lia. fold m1. cbn [obind]. apply HR.
    + intros x Hx. rewrite Hout by lia. apply Hm1. lia.
    + intros i Hi. destruct (Z.eq_dec i 0) as [->|Hi0].
      * rewrite !Z.mul_0_r, !Z.add_0_r. etrans; [apply load_ext; intros x Hx; apply Hout; lia|].
        apply load64_store64. unfold is_word. lia.
      * specialize (Hin (i - 1) ltac:(lia)). 
        replace (r + Config.DIRECT_MAP_BASE + (offset + 8) + 8 * (i - 1)) with (r + Config.DIRECT_MAP_BASE + offset + 8 * i) in Hin by lia.
        rewrite Hin. lia.
Qed.

(** The loop that reads finds them. *)
Lemma CountCorrupted_ok own k bottom r n : forall offset c s t, stack_at own k bottom r s -> 0 <= offset ->
  offset + 8 * Z.of_nat n <= 16384 ->
  (forall i, 0 <= i < Z.of_nat n ->
     load64 (memory (paging s)) (r + Config.DIRECT_MAP_BASE + offset + 8 * i) = bottom + offset + 8 * i) ->
  CountCorrupted n bottom offset c t s = Ok (c, t, s).
Proof.
  induction n as [|n IH]; intros offset c s t HS Ho Hn Hin; [done|].
  destruct (sa_run _ _ _ _ _ HS) as (Hr & _ & Hre). destruct (sa_bottom _ _ _ _ _ HS) as [Hb0 Hb].
  destruct (sa_pages _ _ _ _ _ HS (bottom + offset) ltac:(lia)) as (HT & _ & _).
  cbn [CountCorrupted]. unfold bind at 1, call, peek. rewrite !(wrap_small 64) by (unfold is_word; lia). rewrite HT.
  rewrite (proj2 (Z.eqb_neq _ _)) by lia. rewrite (ToVirtual_eq _ 8) by lia.
  replace (r + (bottom + offset - bottom) + Config.DIRECT_MAP_BASE) with (r + Config.DIRECT_MAP_BASE + offset + 8 * 0) by lia.
  rewrite (Hin 0) by lia. cbn [obind]. replace (bottom + offset + 8 * 0) with (bottom + offset) by lia. rewrite Z.eqb_refl.
  cbn [negb]. apply IH; [done|lia|lia|]. intros i Hi. specialize (Hin (i + 1) ltac:(lia)).
  replace (r + Config.DIRECT_MAP_BASE + (offset + 8) + 8 * i) with (r + Config.DIRECT_MAP_BASE + offset + 8 * (i + 1)) by lia.
  rewrite Hin. lia.
Qed.

Lemma guard_of k s j o : stacks k s -> 0 <= j < k -> 0 <= o < 20480 ->
  IsGuardPage s (Config.KERNEL_STACK_BASE + j * 20480 + o) = (o <? 4096).
Proof.
  intros [_ Hk Hn _] Hj Ho. change STRIDE with 20480 in Hn. unfold IsGuardPage.
  assert (HB : Config.KERNEL_STACK_BASE + 2 ^ 46 = 2 ^ 64) by reflexivity.
  rewrite (proj2 (Z.ltb_ge _ _)) by lia. rewrite (proj2 (Z.leb_gt _ _)) by lia. cbn [orb].
  rewrite (wrap_small 64) by (unfold is_word; lia). change STRIDE with 20480. change GUARD_SIZE with 4096.
  replace (Config.KERNEL_STACK_BASE + j * 20480 + o - Config.KERNEL_STACK_BASE) with (o + j * 20480) by lia.
  by rewrite Z.mod_add, Z.mod_small by lia.
Qed.

Lemma guard_unmapped k s j : stacks k s -> 0 <= j < k ->
  Translate (paging s) (Config.KERNEL_STACK_BASE + j * 20480) = 0 /\ IsWritable (paging s) (Config.KERNEL_STACK_BASE + j * 20480) = false.
Proof.
  intros [[own Ht] Hk Hn Hm] Hj. change STRIDE with 20480 in *. change GUARD_SIZE with 4096 in *.
  set (w := Config.KERNEL_STACK_BASE + j * 20480). assert (Hw : Config.KERNEL_STACK_BASE <= w < Config.KERNEL_STACK_BASE + AREA)
    by (unfold AREA, w; lia). specialize (Hm w Hw).
  pose proof (queries_exact own (paging s) w Ht ltac:(unfold Config.KERNEL_STACK_BASE in Hw; lia)) as Q.
  destruct (mapping (paging s) w) as [leaf|].
  - destruct Hm as (_ & Hg & _). unfold w in Hg. replace (_ - _) with (j * 20480) in Hg by lia. rewrite Z.mod_mul in Hg by lia. lia.
  - destruct Q as [Q1 Q2 _ _ _]. done.
Qed.

Lemma top_aligned k : (Config.KERNEL_STACK_BASE + k * 20480 + 20480) mod 4096 = 0.
Proof.
  replace (k * 20480) with (k * 5 * 4096) by lia.
  rewrite <- Z.add_assoc, (Z.add_comm (k * 5 * 4096)), Z.add_assoc, Z.mod_add by lia. reflexivity.
Qed.

(** The suite of the kernel stacks, wherever it is started with room for two more stacks
    and NX support: it panics for lack of memory or passes, the two stacks it took being
    the only change to the slots. *)
Theorem kernel_stack_suite_passes k s : stacks k s -> k + 2 < 2 ^ 29 -> s_NoExecuteAvailable (paging s) = true ->
  (forall t, exists why, RunKernelStackSuite t s = Panic why) \/
  passes "KernelStack" RunKernelStackSuite s (stacks (k + 2)).
Proof.
  intros Hst Hk2 HX. unfold RunKernelStackSuite. apply passes_or_panics.
  pose proof Hst as [_ Hk Hn _]. change STRIDE with 20480 in Hn.
  set (B := Config.KERNEL_STACK_BASE) in *. assert (HB : B + 2 ^ 46 = 2 ^ 64) by reflexivity.
  destruct (st_tree _ _ Hst) as [own0 Ht0].
  destruct (Allocate_memory k own0 s Hst Ht0 ltac:(lia)) as [[why HP]|(s1 & own & r & HA & HG0 & HS)].
  { by eapply runs_panic. }
  eapply runs_call; [exact HA|]. cbv beta zeta. pose proof (gr_nx _ _ _ _ _ HG0) as HX1. clear HG0. rewrite HX in HX1. rewrite Hn in *.
  change STRIDE with 20480 in *. change GUARD_SIZE with 4096 in *. change Config.THREAD_STACK_SIZE with 16384 in *.
  change Paging.PAGE_SIZE with 4096 in *. change WORDS with 2048%nat.
  assert (E1 : (B + k * 20480 + 20480) -64 16384 = B + k * 20480 + 4096) by (rewrite wrap_small; unfold is_word; lia).
  rewrite E1.
  assert (E2 : (B + k * 20480 + 4096) -64 4096 = B + k * 20480) by (rewrite wrap_small; unfold is_word; lia).
  rewrite E2.
  apply runs_check; [by apply Z.ltb_lt; lia|]. apply runs_equal; [by apply top_aligned|].
  assert (HP : forall o, 0 <= o < 16384 -> Translate (paging s1) (B + k * 20480 + 4096 + o) = r + o).
  { intros o Ho. destruct (sa_pages _ _ _ _ _ HS (B + k * 20480 + 4096 + o) ltac:(lia)) as [-> _]. lia. }
  destruct (sa_run _ _ _ _ _ HS) as (Hr & _ & _).
  destruct (sa_pages _ _ _ _ _ HS (B + k * 20480 + 4096) ltac:(lia)) as (HT & HW & HE). rewrite HX1 in HE.
  apply runs_look. apply runs_check; [rewrite HT; apply negb_true_iff, Z.eqb_neq; lia|].
  apply runs_look. apply runs_check.
  { rewrite wrap_small by (unfold is_word; lia).
    replace (B + k * 20480 + 20480 - 8) with (B + k * 20480 + 4096 + 16376) by lia. rewrite HP by lia.
    apply negb_true_iff, Z.eqb_neq; lia. }
  apply runs_look. apply runs_check; [exact HW|]. apply runs_look. apply runs_check; [by rewrite HE|].
  destruct (WriteWords_ok own (k + 1) (B + k * 20480 + 4096) r 2048 0 s1 HS ltac:(lia) ltac:(lia)) as (m' & HWR & Hout & Hin).
  eapply runs_loop; [exact HWR|]. cbv beta.
  assert (HS' : stack_at own (k + 1) (B + k * 20480 + 4096) r (with_data s1 m')).
  { apply stack_data; [done|]. intros x Hx. apply Hout. lia. }
  eapply runs_loop; [intros t; by apply (CountCorrupted_ok own (k + 1) (B + k * 20480 + 4096) r); [| | |exact Hin]|]. cbv beta.
  apply runs_equal; [done|]. clear HP HT HW HE HWR Hin Hout HA HS. set (s2 := with_data s1 m') in *. clearbody s2.
  pose proof (sa_stacks _ _ _ _ _ HS') as Hst2. destruct (guard_unmapped (k + 1) s2 k Hst2 ltac:(lia)) as [HG1 HG2].
  pose proof (fun o => guard_of (k + 1) s2 k o Hst2 ltac:(lia)) as HG. fold B in HG1, HG2, HG.
  apply runs_look. apply runs_equal; [exact HG1|]. apply runs_look. apply runs_check; [by rewrite HG2|].
  apply runs_look. apply runs_check; [rewrite <- (Z.add_0_r (B + k * 20480)); by apply HG|].
  apply runs_look. apply runs_check.
  { rewrite (wrap_small 64 (_ + _)), wrap_small by (unfold is_word; lia). rewrite <- Z.add_sub_assoc. by apply HG. }
  apply runs_look. apply runs_check; [by rewrite HG|]. apply runs_look. apply runs_check.
  { rewrite wrap_small by (unfold is_word; lia). replace (B + k * 20480 + 20480 - 1) with (B + k * 20480 + 20479) by lia. by rewrite HG. }
  apply runs_look. apply runs_check; [done|]. apply runs_look. apply runs_check; [done|].
  pose proof (st_next _ _ Hst2) as Hn2. change STRIDE with 20480 in Hn2. fold B in Hn2.
  destruct (Allocate_stack (k + 1) s2 Hst2 ltac:(lia)) as [[why HP]|(s3 & HA & Hst3)]; [by eapply runs_panic|].
  eapply runs_call; [exact HA|]. cbv beta. change STRIDE with 20480 in *. rewrite Hn2. apply runs_check.
  { rewrite (wrap_small 64 (B + k * 20480 + 20480 + 4096)) by (unfold is_word; lia). rewrite wrap_small by (unfold is_word; lia). apply Z.leb_le. lia. }
  replace (k + 1 + 1) with (k + 2) in Hst3 by lia. apply runs_look. apply runs_last_check; [|exact Hst3].
  rewrite (wrap_small 64 (_ - 16384)), wrap_small by (unfold is_word; lia).
  replace (B + (k + 1) * 20480 + 20480 - 16384 - 4096) with (B + (k + 1) * 20480 + 0) by lia.
  by apply (guard_of (k + 2)); [done|lia|].
Qed.

End KernelStackPasses.

End Test.
